(* ===== verification/_CoqProject ===== *)
-Q . S2P
Prelude.v
GoAct.v
GoStrings.v
Devices.v
DeviceEmulator.v
DeviceEmulatorThms.v
CgroupDevices.v
DeviceFilter.v
GoPath.v
GoJson.v
GoFs.v
GoSha.v
Rootfs.v
RootfsThms.v
Handoff.v
HandoffThms.v
Lite.v
LiteThms.v
Admission.v
AdmissionThms.v
Certificates.v
CertificateThms.v
CertificateExample.v
Contracts.v
SnapshotMounts.v
Snapshotter.v
SnapshotterThms.v
HookThms.v
ProcStat.v
Configs.v
Validator.v
UserDb.v
ContainerState.v
ContainerThms.v
Freezer.v
Bpf.v
Seccomp.v
Enosys.v
EnosysThms.v
SpecTypes.v
SpecConv.v
SpecConvThms.v
CgroupFiles.v
CgroupV2.v
CgroupV2Stats.v
CgroupV1.v
CgroupV1Stats.v
CgroupV1Paths.v
CgroupThms.v
CgroupV2Thms.v
CgroupV1Thms.v
CgroupExample.v
InitSys.v
RootfsSetup.v
ContainerInit.v
RootfsSetupThms.v
ContainerInitThms.v
ParentProcess.v
ParentProcessThms.v
Handshake.v
InitExample.v
SystemdUnits.v
Systemd.v
SystemdV1.v
SystemdV2.v
SystemdThms.v
SystemdBusThms.v
SystemdExample.v
Rdt.v
RdtThms.v
Bootstrap.v
Launch.v
BootstrapThms.v
LaunchThms.v
LaunchExample.v
Ebpf.v
EbpfThms.v
