(* ===== verification/Prelude.v ===== *)
(** * Sysbox: a verification library

    Sysbox runs system containers under Kubernetes.  The repository holds three
    programs that cooperate on persistent root filesystems, and the low-level
    runtime they rest on:

    - sysbox-admission, a mutating webhook.  It validates the pod annotation
      "sysbox/rootfs-rw-layer", which says which containers keep the writable layer
      of their rootfs on which PersistentVolumeClaim, and adds a sidecar that mounts
      the claims on the node.
    - sysbox-snapshotter, a containerd snapshotter over fuse-overlayfs.  When it
      prepares the mounts of a container it resolves the annotation and the mount
      path of the claim, creates upper and work directories on the volume, redirects
      the overlay mount to them, and publishes a handoff file for the container.
    - sysbox-runc-lite, a fork of runc.  Before it creates a container it fills
      empty claims from the image and, with the handoff, binds the special paths
      (docker, kubelet, containerd state) to the volume.  Its libcontainer does the
      rest: configurations, device rules, cgroups, container states.

    ** Files and what they model

    Go and the system:
    - Prelude: errors with wrapping, the result monad, machine integers, tactics
      ([inv_ok], [case_step], [bool_props]) and the hint database [sysbox].
    - GoAct: fallible transformers of a world, [Act], with the laws of its monad up to
      the pointwise equivalence [act_eq], the frame judgement [keeps] and its tactic.
    - GoStrings, GoPath, GoJson, GoSha: strings, strconv, path/filepath,
      encoding/json (decoder for one value, field matching, encoder for flat
      objects) and crypto/sha256, as far as the sources use them.
    - GoFs: a POSIX file tree with symbolic links and the os calls of the sources;
      paths are resolved element by element as the kernel does it, with at most 40
      links.

    Devices (src/sysbox-runc-lite/libcontainer):
    - Devices: devices/device.go and device_unix.go, permissions and rules.
    - DeviceEmulator, DeviceEmulatorThms: cgroups/devices/devices_emulator.go, the
      emulator of the cgroup device controller and [Transition] between two of its
      states.
    - CgroupDevices: cgroups/fs/devices.go over an interface of the kernel
      ([DevicesCgroup], [DevicesCgroupLaws]) with a concrete kernel.
    - DeviceFilter: cgroups/ebpf/devicefilter/devicefilter.go, the code generator,
      with an interpreter of the eBPF instructions it emits.
    - Ebpf, EbpfThms: cgroups/ebpf/ebpf_linux.go, the replacement of the filter of a
      cgroup, over an interface of bpf(2) ([Bpf], [BpfLaws]) that records every state.

    Persistent root filesystems:
    - Admission, AdmissionThms: src/sysbox-admission/admission (mutate.go,
      sidecar.go, patch.go, server.go, webhook.go).
    - Certificates, CertificateThms, CertificateExample: the certificates of the
      webhook (certs.go, cert_health.go, certificate_resources.go, lifecycle.go,
      rotation.go, tls_reload.go, and the serving mode of main.go) over the
      interfaces [X509] and [Env], with a symbolic instance and a small API server.
    - Rootfs, RootfsThms, Handoff, HandoffThms: src/sysbox-snapshotter/rootfs, the
      resolvers over an interface of containerd ([ContainerdClient]), the preparer
      and the handoff store.
    - SnapshotMounts, Snapshotter, SnapshotterThms: fuseoverlayfs.go, as transformers
      of a world (database, open transactions, directories, mounts) that may fail;
      the metadata store is the interface [MetaStore], and every system call
      consults a stream of faults, so that a statement for all streams covers every
      error path.
    - Lite, LiteThms: src/sysbox-runc-lite/lite.go.
    - Contracts, HookThms: how the three programs fit together.

    The runtime (src/sysbox-runc-lite/libcontainer):
    - ProcStat: system/proc.go, the parser of /proc/[pid]/stat.
    - Configs, Validator: configs (namespaces, identity mappings) and
      configs/validate, the id check of factory_linux.go.
    - UserDb: user/user.go, the user databases and user specifications.
    - ContainerState, ContainerThms: state_linux.go and the operations of
      container_linux.go that read or change the state, over the interface [Machine].
    - Freezer: cgroups/fs/freezer.go.
    - Bpf: the instructions of classic BPF, their encoding, and the machine that runs
      a seccomp filter.  Seccomp: seccomp/config.go.  Enosys, EnosysThms:
      seccomp/patchbpf/enosys_linux.go, the stub that answers unknown system calls
      with ENOSYS.
    - SpecTypes, SpecConv, SpecConvThms: specconv/spec_linux.go, the conversion of an
      OCI specification to a configuration; the default devices, which all
      configurations of a process share, live in a heap.
    - CgroupFiles: cgroups/file.go, utils.go, getallpids.go, stats.go and fscommon,
      over the interface [CgroupFs] of system calls on cgroup files.
    - CgroupV2, CgroupV2Stats: cgroups/fs2, the manager of the unified hierarchy,
      with the limits and the statistics of every controller.
    - CgroupV1, CgroupV1Stats, CgroupV1Paths: cgroups/fs and v1_utils.go, the same for
      the v1 hierarchies, and where a container's cgroups are.
    - CgroupThms, CgroupV2Thms, CgroupV1Thms: theorems for every kernel that obeys
      the laws [FilesLaws] and [DirLaws].  CgroupExample: concrete kernels that do,
      on which the theorems are applied.
    - InitSys: the system calls of a container's first process and of its parent, one
      constructor of [unix.call] each, typed by what they return, and the program
      logic ([wp], [follows], [achieves], [guarded]) in which the theorems are stated
      for every kernel.
    - RootfsSetup, RootfsSetupThms: rootfs_linux.go, mount_linux.go and utils, how the
      root filesystem of a container is mounted, pivoted into and made read-only.
    - ContainerInit, ContainerInitThms: init_linux.go, standard_init_linux.go,
      setns_init_linux.go and [StartInitialization] of factory_linux.go, what the
      first process does until it executes the program of the container.
    - ParentProcess, ParentProcessThms: process_linux.go and sync.go, the parent's side
      of the start of a process.
    - Handshake: the two sides put together.  InitExample: a small kernel on which the
      theorems of this group are applied.
    - SystemdUnits: the pure part of cgroups/systemd, names of slices and units,
      processor lists as bit masks, the rounding of quotas.  Systemd, SystemdV1,
      SystemdV2: dbus.go, user.go, common.go, cpuset.go, v1.go, v2.go, the managers
      that keep a container in a transient unit, over the interface [Bus] of the
      vendored D-Bus packages.  SystemdThms, SystemdBusThms: their theorems, the
      latter with a logic ([maintains]) for programs over any bus.  SystemdExample: a
      small systemd on which they are applied.
    - Rdt, RdtThms: intelrdt, the groups of the resctrl filesystem.
    - Bootstrap: message_linux.go and [bootstrapData] of container_linux.go, what the
      bootstrap of a process is told, with the parts of nsexec.c that read it as the
      other side.  Launch: the rest of the start of a process in container_linux.go,
      from [Start] and [Exec] to the objects of ParentProcess, and
      cgroups/manager/new.go.  BootstrapThms, LaunchThms: their theorems.
      LaunchExample: a small system on which they are applied.

    ** What the theorems show

    Devices: written one by one, the rules of [Transition] take a v1 cgroup in the
    source state to the target; the emulator follows where it accepts them, which it does
    for deny-lists and for allow-lists without overlapping wildcards.  [Set] drives any
    kernel that obeys the documented laws to the requested policy and reports success,
    except for an allow-list whose last rule was removed.  On devices with numbers below
    2^31 the eBPF filter decides like the emulator, which is like a v1 cgroup but for
    combined accesses under a deny-list.  Printing and parsing rules round-trip; revoking
    access is effective; replacing a filter never opens a cgroup, not even between two
    calls.

    Admission: accepted annotations are safe, mutation is idempotent and touches
    nothing else, the patch rebuilds the mutated pod, the server fails closed and the
    match condition hides no pod that matters.  After [Ensure] the certificate that is
    served verifies against the authority that is published; certificates are renewed
    in time and not before, the authority is kept while it is usable, and errors of
    the loops never take a served certificate away.

    Root filesystems: prepared layers are confined to their volume whatever links it
    holds; handoffs are published atomically and read back by runc-lite; the three
    decoders of the annotation agree; special mounts stay on the volume; snapshots
    keep their directories along every history of operations and faults; the hook
    never silently drops persistence, and end to end its success means that the
    runtime mounts the layer of a container on the volume and, with special mounts, finds
    the handoff.

    Runtime: valid configurations list the namespaces that their sysctls, masked paths,
    hostname, networks and mappings need; container ids are single path elements; the
    reported status is the observed one; a running container is not destroyed from the
    states running, paused and loaded, and killed first from the created state; pausing
    and resuming do what they say; a freeze
    ends frozen or thawed; a user specification resolves to the ids of the user
    databases.

    Seccomp: the patched filter decides every call of every architecture as specified,
    never answers ENOSYS to a call the profile names, and is the filter the kernel
    enforces when loading succeeds.

    Conversion: namespaces, mappings, mounts, mount options, seccomp profiles and cgroup
    names are converted as specified; the default devices stay usable whatever rules a
    specification has; cpu weights stay within their range.

    Cgroups: what is set is what the statistics report; creating a cgroup is all or
    nothing unless it panics; cgroups stay inside their hierarchies whatever the
    configuration names; [Set] of the unified hierarchy runs exactly the steps of its
    plan, in order, up to the first failure; memory limits are updated in
    an order that never conflicts; limits are not dropped silently; after [Apply] the
    process is in every cgroup that is listed; waiting for a freeze ends; lists of
    processors and RDMA limits round-trip.

    Start of a container: every mount under the root filesystem goes to a descriptor
    whose path was verified; after [prepareRootfs] the process is confined to its root, and
    with pivot_root in a mount namespace of its own the old root is gone;
    a read-only root is read-only when the program starts; mounts over /proc follow the
    documented policy; the umask is kept.  The program is executed only after every
    restriction of its configuration is in force, and only after the parent has set
    limits, run the hooks and stored the state.  The parent performs its steps in
    order, kills and reaps the process that its command then has and destroys the cgroups
    when one of them fails, and ends; every request of
    the child has an answer, so the handshake does not hang.

    Launch of a process: the bootstrap decodes what was encoded, on big-endian machines
    without the two flags; every namespace of the configuration is created or joined; when
    no bind source is empty, every bind mount gets the descriptor of its own source; every variable names the descriptor it is meant for; [Exec] reports success
    only when the process has passed its initialization, and waiting for it ends.

    Systemd: setting the properties of a unit lets no process meet a failing device unless
    the container had to be frozen and freezing it failed; a call that loses its connection is repeated on
    a new one and the repetition ends; at most one connection is open; the list of
    allowed devices of a unit allows nothing the rules do not, groups of /proc/devices
    included; a slice expands to the path of its ancestors; quotas are cut to whole
    microseconds and rounded up to a multiple of ten milliseconds;
    unit paths stay in their hierarchy.  Intel RDT: a group is a directory of the
    resctrl filesystem, and the schemata that are written are those read back.

    Where the code does not do what it means to, a theorem shows a concrete case:
    [Set_rejects_emptied_target], [filter_misses_large_major],
    [filter_denylist_partial_access], [detect_accepts_volumes_dir],
    [prepare_error_orphans_snapshot], [mounts_leaks_read_transaction],
    [sysctl_comment_example], [joined_ipc_accepted], [resume_created_stuck], [restored_pause_stuck],
    [additional_group_twice], [native_arch_missed], [enosys_default_not_recognised],
    [default_devices_shared], [sec_property_panics], [ratime_mask_partial],
    [one_share_wraps], [bfq_weight_always_supported], [swap_limit_wraps],
    [cpu_counts_as_domain], [create_panic_leaves], [dots_inside_proc], [sibling_not_hidden], [tmpdir_left],
    [store_error_lost], [quota_rounded_down], [cpus_reversed], [unit_name_climbs],
    [existing_unit_not_joined], [foreign_group_removed], [flags_lost_big_endian],
    [sibling_cgroup_accepted], [exec_moves_container], [exec_without_namespaces],
    [empty_source_unpaired], [fifo_left_behind].

    ** Bounds and fuel

    The JSON decoder has fuel twice the length of its input plus two, which bounds
    the number of values and nested calls.  Symbolic links are limited to 40 as in
    Linux.  [LoadSidecarSpec] and [FreezerGroup.Set] have the retry bounds of the
    code.  [GetState] polls for ever in the code; its fuel is a parameter, and the
    theorem says which fuel is enough.  [state_destroy] passes through at most one
    loaded state.  [randomSerialNumber] draws until a number is positive; its fuel is a
    parameter of every theorem, and running out of it is an error.  The retries of
    conflicting updates are a parameter too.  [waitFrozen] reads events until a bound of
    the code; its readings are two more than that bound, and [waitFrozen_ends] says
    they are never used up.  [RemovePath] and [GetAllPids] recurse on a depth that is
    a parameter, as the hierarchy of the kernel is finite; [cpusetEnsureParent]
    recurses on the elements of its path.  [remountReadonly] tries five times as the code does.  [parseSync]
    reads messages until the pipe ends; its fuel is a parameter, and [start_ends] says
    that one more than the number of messages is enough.  [retryOnDisconnect] repeats
    while connections are lost; its tries are a parameter, and [retry_ends] says that
    one more than the number of losses is enough.  The polls of the freezer by the
    systemd manager for v1 are a parameter.  [await_exec] polls until the container
    starts or dies; [exec_ends] says which fuel is enough.  [nl_attrs] has the length of
    its input as fuel, and every turn consumes four bytes at least.  Lines longer than the buffer
    of a scanner end the scan, as in bufio.  The conversion of floating-point values outside the
    range of uint64, which Go leaves to the machine, is a parameter.  Texts
    interpolated in error messages are dropped.

    ** Not modelled

    The leader election of the webhook, which client-go does; checkpointing, which
    drives CRIU over a protocol of its own; the C bootstrap (nsenter), which is not
    Go, but for what it reads from the parent; decoding the configuration of the first
    process and the netlink routes it sets, which are parameters; the packages that speak D-Bus, which are an
    interface; opening cgroup files with openat2; the calls of libseccomp that build a
    filter; command line handling; logging; vendored code other than the BPF encoding.  The
    JSON encoder is exact on ASCII text only. *)

From Stdlib Require Export Ascii.
From stdpp Require Export base gmap strings list fin_maps pretty sorting.

Set Default Proof Using "Type".

(** ** Go errors

    A Go [error] value is a chain built by [errors.New] (a sentinel, compared
    by identity, here by its text, which is distinct for distinct sentinels)
    and [fmt.Errorf("...: %w", err)] (a wrapper that keeps the inner error).
    The data interpolated in a message is dropped; its format string stays as
    the tag of the node. *)
Inductive error :=
  | ErrNew (text : string)
  | ErrWrap (text : string) (inner : error).

#[global] Instance error_eq_dec : EqDecision error.
Proof. solve_decision. Defined.

(** A panic, as an error of its own kind: it passes every handler that returns,
    tests or wraps an error, and deferred clean-ups that look at the returned
    error do nothing. *)
Definition panic (text : string) : error := ErrWrap "panic" (ErrNew text).
Definition is_panic (e : error) : bool :=
  match e with ErrWrap text _ => bool_decide (text = "panic"%string) | ErrNew _ => false end.
Definition ErrNilDeref : error := panic "invalid memory address or nil pointer dereference".

(** [errors.Is(err, target)] for a sentinel [target]. *)
Fixpoint errors_is (e target : error) : bool :=
  bool_decide (e = target) ||
  match e with
  | ErrNew _ => false
  | ErrWrap _ inner => errors_is inner target
  end.

(** ** Fallible results: a Go pair [(T, error)] *)
Inductive result (A : Type) :=
  | Ok (a : A)
  | Err (e : error).
Arguments Ok {A} a.
Arguments Err {A} e.

#[global] Instance result_ret : MRet result := @Ok.
#[global] Instance result_bind : MBind result := fun A B f r =>
  match r with Ok a => f a | Err e => Err e end.
#[global] Instance result_fmap : FMap result := fun A B f r =>
  match r with Ok a => Ok (f a) | Err e => Err e end.

Definition is_ok {A} (r : result A) : bool :=
  match r with Ok _ => true | Err _ => false end.

(** [if err != nil { return fmt.Errorf(text + ": %w", err) }] *)
Definition wrap_err {A} (text : string) (r : result A) : result A :=
  match r with Ok a => Ok a | Err e => Err (ErrWrap text e) end.

(** [if cond { return fmt.Errorf(text) }] *)
Definition guard_err (cond : bool) (e : error) : result unit :=
  if cond then Err e else Ok tt.

(** ** Machine integers *)
Definition uint32 (z : Z) : Z := z mod 2 ^ 32.
Definition uint64 (z : Z) : Z := z mod 2 ^ 64.
(** [int32(z)]: the conversion keeps the low 32 bits, read as two's complement. *)
Definition int32 (z : Z) : Z := (z + 2 ^ 31) mod 2 ^ 32 - 2 ^ 31.
(** [a &^ b] *)
Definition and_not (a b : Z) : Z := Z.ldiff a b.

Definition max_uint32 : Z := 2 ^ 32 - 1.

(** ** Generic lemmas *)

Lemma errors_is_refl (e : error) : errors_is e e = true.
Proof. destruct e; cbn; by rewrite bool_decide_eq_true_2. Qed.

Lemma errors_is_wrap (t : string) (e target : error) :
  errors_is e target = true -> errors_is (ErrWrap t e) target = true.
Proof. intros H. cbn. by rewrite H, orb_true_r. Qed.

Lemma bind_ok {A B} (r : result A) (f : A -> result B) (b : B) :
  (r ≫= f) = Ok b <-> exists a, r = Ok a /\ f a = Ok b.
Proof.
  destruct r as [a|e]; cbn; split; [by eauto|by intros (? & [= ->] & ?)|done|by intros (? & ? & _)].
Qed.

Lemma bind_err {A B} (r : result A) (f : A -> result B) (e : error) :
  (r ≫= f) = Err e <-> r = Err e \/ exists a, r = Ok a /\ f a = Err e.
Proof.
  destruct r as [a|e']; cbn; split.
  - intros H. right. by exists a.
  - intros [?|(? & [= ->] & ?)]; done.
  - intros [= ->]. by left.
  - intros [[= ->]|(? & ? & _)]; done.
Qed.

Lemma guard_err_ok (c : bool) (e : error) (u : unit) :
  guard_err c e = Ok u <-> c = false.
Proof. destruct c, u; cbn; naive_solver. Qed.

Lemma wrap_err_ok {A} (t : string) (r : result A) (a : A) :
  wrap_err t r = Ok a <-> r = Ok a.
Proof. destruct r; cbn; naive_solver. Qed.

Lemma int32_small (z : Z) : (0 <= z < 2 ^ 31)%Z -> int32 z = z.
Proof. intros H. unfold int32. rewrite Z.mod_small; lia. Qed.

Lemma int32_large (z : Z) :
  (2 ^ 31 <= z < 2 ^ 32)%Z -> int32 z = (z - 2 ^ 32)%Z.
Proof.
  intros H. unfold int32.
  replace (z + 2 ^ 31)%Z with ((z - 2 ^ 31) + 1 * 2 ^ 32)%Z by lia.
  rewrite Z.mod_add, Z.mod_small; lia.
Qed.

(** A flag that is a power of two is a bit. *)
Lemma land_pow2 (a k : Z) : (0 <= k)%Z -> negb (Z.land a (2 ^ k) =? 0)%Z = Z.testbit a k.
Proof.
  intros Hk. destruct (Z.testbit a k) eqn:E.
  - apply negb_true_iff, Z.eqb_neq. intros H. assert (Z.testbit (Z.land a (2 ^ k)) k = true) as H'
      by (rewrite Z.land_spec, E; by rewrite Z.pow2_bits_true). by rewrite H, Z.bits_0 in H'.
  - apply negb_false_iff, Z.eqb_eq, Z.bits_inj'. intros n Hn. rewrite Z.land_spec, Z.bits_0.
    destruct (Z.eq_dec n k) as [->|]; [by rewrite E|]. rewrite Z.pow2_bits_false by lia. apply andb_false_r.
Qed.

Lemma filter_all {A} (P : A -> Prop) `{forall x, Decision (P x)} (l : list A) :
  Forall P l -> filter P l = l.
Proof.
  induction 1 as [|x l Hx _ IH]; [done|]. by rewrite filter_cons_True, IH.
Qed.

Lemma filter_idemp {A} (P : A -> Prop) `{forall x, Decision (P x)} (l : list A) :
  filter P (filter P l) = filter P l.
Proof.
  apply filter_all, Forall_forall. intros x Hx. by apply list_elem_of_filter in Hx as [? _].
Qed.

(** Of two splittings of a list, the one with the shorter tail has the longer head. *)
Lemma prefix_short {A} (a c b d : list A) : a ++ d = c ++ b -> length b <= length d -> a `prefix_of` c.
Proof.
  intros E Hl. apply app_eq_inv in E as [(l & -> & ->)|(l & -> & ->)]; [|by exists l].
  rewrite length_app in Hl. destruct l; [exists []; by rewrite !app_nil_r|cbn in Hl; lia].
Qed.

Lemma Forall_one {A} (P : A -> Prop) (x : A) : P x -> Forall P [x].
Proof. intros. by constructor. Qed.

Lemma Forall_snoc_2 {A} (P : A -> Prop) (l : list A) (x : A) :
  Forall P l -> P x -> Forall P (l ++ [x]).
Proof. intros. apply Forall_app. split; [done|by apply Forall_one]. Qed.

(** ** Automation *)
Create HintDb sysbox.
Create Rewrite HintDb sysbox.
#[export] Hint Rewrite @bind_ok @wrap_err_ok guard_err_ok : sysbox.
#[export] Hint Resolve errors_is_refl errors_is_wrap : sysbox.

(** Turn every successful monadic computation of the context into its steps. *)
Ltac inv_ok :=
  repeat match goal with
  | H : Ok _ = Ok _ |- _ => injection H as H; subst
  | H : Err _ = Ok _ |- _ => discriminate H
  | H : Ok _ = Err _ |- _ => discriminate H
  | H : Err _ = Err _ |- _ => injection H as H; subst
  | H : (_ ≫= _) = Ok _ |- _ => apply bind_ok in H as (? & ? & ?)
  | H : guard_err _ _ = Ok _ |- _ => apply guard_err_ok in H
  | H : wrap_err _ _ = Ok _ |- _ => apply wrap_err_ok in H
  | u : unit |- _ => destruct u
  end.

(** Case analysis on the scrutinee of a match or an if, in goal or context. *)
Ltac case_step :=
  match goal with
  | |- context [match ?x with _ => _ end] => destruct x eqn:?
  | H : context [match ?x with _ => _ end] |- _ => destruct x eqn:?
  end.

Ltac bool_props :=
  repeat match goal with
  | H : _ && _ = true |- _ => apply andb_true_iff in H as [? ?]
  | H : _ || _ = false |- _ => apply orb_false_iff in H as [? ?]
  | H : negb _ = true |- _ => apply negb_true_iff in H
  | H : negb _ = false |- _ => apply negb_false_iff in H
  | H : bool_decide _ = true |- _ => apply bool_decide_eq_true_1 in H
  | H : bool_decide _ = false |- _ => apply bool_decide_eq_false_1 in H
  end.
