(* ===== verification/GoAct.v ===== *)
(** * Actions: functions that change a world and may fail

    [Act W A] is the monad of the components that talk to the system through an
    interface: the files of a cgroup, the API server, the processes. *)

From S2P Require Import Prelude.

Open Scope list_scope.

Definition Act (W A : Type) : Type := W -> W * result A.
#[global] Instance Act_ret W : MRet (Act W) := fun A a w => (w, Ok a).
#[global] Instance Act_bind W : MBind (Act W) := fun A B k m w =>
  match m w with (w', Ok a) => k a w' | (w', Err e) => (w', Err e) end.
Definition throw {W A} (e : error) : Act W A := fun w => (w, Err e).
Definition try_ {W A} (m : Act W A) : Act W (result A) := fun w => let '(w', r) := m w in (w', Ok r).
Definition lift {W A} (r : result A) : Act W A := fun w => (w, r).
Definition wrapping {W A} (text : string) (m : Act W A) : Act W A := fun w => let '(w', r) := m w in (w', wrap_err text r).


(** Actions on a world and an object that the code mutates as it goes: what was written
    stays when a later step fails. *)
Definition from_fs {W S A} (m : Act W A) : Act (W * S) A := fun ws => let '(w, r) := m ws.1 in ((w, ws.2), r).
Definition modify {W S} (f : S -> S) : Act (W * S) unit := fun ws => ((ws.1, f ws.2), Ok tt).
Definition gets {W S A} (f : S -> A) : Act (W * S) A := fun ws => (ws, Ok (f ws.2)).
(** A step for every element, until one fails. *)
Fixpoint for_each {W A} (f : A -> Act W unit) (l : list A) : Act W unit :=
  match l with [] => mret tt | a :: l => _ ← f a; for_each f l end.

Lemma act_bind_ok {W A B} (m : Act W A) (k : A -> Act W B) (w w' : W) (b : B) :
  (m ≫= k) w = (w', Ok b) <-> exists w1 a, m w = (w1, Ok a) /\ k a w1 = (w', Ok b).
Proof.
  unfold mbind, Act_bind. destruct (m w) as [w1 [a|e]]; split.
  - by eauto.
  - by intros (? & ? & [= <- <-] & ?).
  - done.
  - by intros (? & ? & ? & _).
Qed.
Lemma try_ok {W A} (m : Act W A) (w w' : W) (r : result A) : try_ m w = (w', Ok r) -> m w = (w', r).
Proof. unfold try_. destruct (m w) as [w1 r1]. naive_solver. Qed.
Lemma lift_ok {W A} (r : result A) (w w' : W) (a : A) : lift r w = (w', Ok a) <-> w = w' /\ r = Ok a.
Proof. unfold lift. naive_solver. Qed.
Lemma wrapping_ok {W A} (t : string) (m : Act W A) (w w' : W) (a : A) : wrapping t m w = (w', Ok a) -> m w = (w', Ok a).
Proof. unfold wrapping. destruct (m w) as [w1 [b|e]]; cbn; naive_solver. Qed.
Lemma ret_ok {W A} (a b : A) (w w' : W) : (mret a : Act W A) w = (w', Ok b) <-> w = w' /\ a = b.
Proof. unfold mret, Act_ret. naive_solver. Qed.

Lemma act_bind_run {W A B} (m : Act W A) (k : A -> Act W B) (w w1 : W) (a : A) : m w = (w1, Ok a) -> (m ≫= k) w = k a w1.
Proof. intros H. unfold mbind, Act_bind. by rewrite H. Qed.
Lemma try_run {W A} (m : Act W A) (w w' : W) (r : result A) : m w = (w', r) -> try_ m w = (w', Ok r).
Proof. intros H. unfold try_. by rewrite H. Qed.
Lemma wrapping_run {W A} (t : string) (m : Act W A) (w w' : W) (a : A) : m w = (w', Ok a) -> wrapping t m w = (w', Ok a).
Proof. intros H. unfold wrapping. by rewrite H. Qed.

(** Turn a successful action of the context into its steps. *)
Ltac inv_act :=
  repeat match goal with
  | H : (_ ≫= _) _ = (_, Ok _) |- _ => apply act_bind_ok in H as (? & ? & ? & ?)
  | H : try_ _ _ = (_, Ok _) |- _ => apply try_ok in H
  | H : lift _ _ = (_, Ok _) |- _ => apply lift_ok in H as [-> ?]
  | H : wrapping _ _ _ = (_, Ok _) |- _ => apply wrapping_ok in H
  | H : mret _ _ = (_, Ok _) |- _ => apply ret_ok in H as [-> H]; simplify_eq
  | H : throw _ _ = (_, Ok _) |- _ => discriminate H
  | H : prod _ _ |- _ => destruct H
  end; inv_ok.

(** *** Actions that do the same in every world *)

Record act_eq {W A} (m n : Act W A) : Prop := mk_act_eq { act_eq_at : forall w, m w = n w }.
#[global] Instance Act_equiv {W A} : Equiv (Act W A) := act_eq.
#[global] Instance Act_equivalence {W A} : Equivalence (≡@{Act W A}).
Proof.
  split; [by intros m; constructor|intros m n [E]; by constructor|].
  intros m n o [E] [F]. constructor. intros w. by rewrite E.
Qed.
Lemma act_bind_proper {W A B} (m n : Act W A) (k l : A -> Act W B) : m ≡ n -> (forall a, k a ≡ l a) -> m ≫= k ≡ n ≫= l.
Proof.
  intros [E] F. constructor. intros w. unfold mbind, Act_bind. rewrite (E w). destruct (n w) as [w' [a|e]]; [apply F|done].
Qed.
#[global] Instance act_bind_Proper {W A B} :
  Proper (pointwise_relation A (≡) ==> (≡) ==> (≡)) (@mbind (Act W) _ A B).
Proof. intros k l F m n E. by apply act_bind_proper. Qed.
Lemma act_bind_assoc {W A B C} (m : Act W A) (k : A -> Act W B) (l : B -> Act W C) :
  (m ≫= k) ≫= l ≡ m ≫= (fun a => k a ≫= l).
Proof. constructor. intros w. unfold mbind, Act_bind. by destruct (m w) as [w' [a|e]]. Qed.
Lemma act_ret_bind {W A B} (a : A) (k : A -> Act W B) : (mret a : Act W A) ≫= k ≡ k a.
Proof. by constructor. Qed.
Lemma act_lift_bind {W A B} (a : A) (k : A -> Act W B) : (lift (Ok a) : Act W A) ≫= k ≡ k a.
Proof. by constructor. Qed.
Lemma act_bind_ret {W} (m : Act W unit) : m ≫= (fun _ => mret tt) ≡ m.
Proof. constructor. intros w. unfold mbind, Act_bind. by destruct (m w) as [w' [[]|e]]. Qed.
Lemma for_each_app {W A} (f : A -> Act W unit) (a b : list A) : for_each f (a ++ b) ≡ for_each f a ≫= (fun _ => for_each f b).
Proof.
  induction a as [|x a IH]; cbn [app for_each]; [by constructor|]. rewrite act_bind_assoc.
  by apply act_bind_proper.
Qed.
Lemma for_each_map {W A B} (g : A -> B) (f : B -> Act W unit) (l : list A) : for_each f (map g l) ≡ for_each (fun a => f (g a)) l.
Proof. induction l as [|x l IH]; [done|]. cbn [map for_each]. by apply act_bind_proper. Qed.
Lemma for_each_one {W A} (f : A -> Act W unit) (a : A) : for_each f [a] ≡ f a.
Proof. apply act_bind_ret. Qed.

Lemma from_fs_proper {W S A} (m n : Act W A) : m ≡ n -> from_fs (S := S) m ≡ from_fs n.
Proof. intros [E]. constructor. intros ws. unfold from_fs. by rewrite E. Qed.
Lemma from_fs_bind {W S A B} (m : Act W A) (k : A -> Act W B) :
  from_fs (S := S) (m ≫= k) ≡ from_fs m ≫= (fun a => from_fs (k a)).
Proof. constructor. intros [w s]. unfold from_fs, mbind, Act_bind. cbn. by destruct (m w) as [w' [a|e]]. Qed.

(** *** Actions that leave a part of the world alone *)

Definition keeps {W V A} (view : W -> V) (m : Act W A) : Prop := forall w, view (m w).1 = view w.

Section keeps.
Context {W V : Type} (view : W -> V).

Lemma keeps_ret {A} (a : A) : keeps view (mret a : Act W A).
Proof. done. Qed.
Lemma keeps_throw {A} (e : error) : keeps view (throw e : Act W A).
Proof. done. Qed.
Lemma keeps_lift {A} (r : result A) : keeps view (lift r : Act W A).
Proof. done. Qed.
Lemma keeps_at_bind {A B} (m : Act W A) (k : A -> Act W B) (w : W) :
  view (m w).1 = view w -> (forall a, keeps view (k a)) -> view ((m ≫= k) w).1 = view w.
Proof. intros Hm Hk. unfold mbind, Act_bind. destruct (m w) as [w' [a|e]]; cbn in *; [by rewrite Hk|done]. Qed.
Lemma keeps_bind {A B} (m : Act W A) (k : A -> Act W B) : keeps view m -> (forall a, keeps view (k a)) -> keeps view (m ≫= k).
Proof. intros Hm Hk w. by apply keeps_at_bind. Qed.
Lemma keeps_try {A} (m : Act W A) : keeps view m -> keeps view (try_ m).
Proof. intros Hm w. unfold try_. specialize (Hm w). by destruct (m w). Qed.
Lemma keeps_wrapping {A} (t : string) (m : Act W A) : keeps view m -> keeps view (wrapping t m).
Proof. intros Hm w. unfold wrapping. specialize (Hm w). by destruct (m w). Qed.
Lemma keeps_for_each {A} (f : A -> Act W unit) (l : list A) : (forall a, keeps view (f a)) -> keeps view (for_each f l).
Proof. intros Hf. induction l as [|a l IH]; cbn; [apply keeps_ret|by apply keeps_bind]. Qed.
Lemma keeps_run {A} (m : Act W A) (w w' : W) (r : result A) : keeps view m -> m w = (w', r) -> view w' = view w.
Proof. intros Hm H. specialize (Hm w). by rewrite H in Hm. Qed.
End keeps.

(** The object a method mutates. *)
Lemma keeps_from_fs {W S V A} (view : S -> V) (m : Act W A) : keeps (fun ws : W * S => view ws.2) (from_fs m).
Proof. intros [w s]. unfold from_fs. cbn. by destruct (m w). Qed.
Lemma keeps_gets {W S V A} (view : W * S -> V) (f : S -> A) : keeps view (gets f).
Proof. by intros [w s]. Qed.
Lemma keeps_modify {W S V} (view : S -> V) (f : S -> S) : (forall s, view (f s) = view s) -> keeps (fun ws : W * S => view ws.2) (modify f).
Proof. intros H [w s]. apply H. Qed.

Create HintDb keeps.
#[export] Hint Resolve keeps_ret keeps_throw keeps_lift keeps_bind keeps_try keeps_wrapping keeps_for_each keeps_from_fs keeps_gets : keeps.

(** Show that an action keeps a view, step by step. *)
Ltac solve_keeps :=
  repeat first
    [ progress intros
    | solve [eauto 2 with keeps]
    | apply keeps_bind | apply keeps_try | apply keeps_wrapping | apply keeps_for_each
    | match goal with |- keeps _ (match ?x with _ => _ end) => destruct x end
    | match goal with |- keeps _ (if ?x then _ else _) => destruct x end ].
