(* ===== verification/GoStrings.v ===== *)
(** * Go strings: the parts of [strings] and [strconv] the sources call

    A Go string is a sequence of bytes, here Rocq's [string].  Everything is a
    total executable function; the lemmas are those the path and parser
    components build on (splitting and joining are inverse, prefixes, decimal
    printing and parsing are inverse). *)

From S2P Require Import Prelude.

Open Scope string_scope.
Open Scope list_scope.

(** ** Characters *)
Definition chr (n : nat) : ascii := Ascii.ascii_of_nat n.
Definition ch_slash : ascii := chr 47.
Definition ch_space : ascii := chr 32.
Definition ch_colon : ascii := chr 58.
Definition ch_comma : ascii := chr 44.
Definition ch_newline : ascii := chr 10.

(** ** [strings] *)

(** [strings.HasPrefix(s, p)] *)
Fixpoint has_prefix (p s : string) : bool :=
  match p, s with
  | EmptyString, _ => true
  | String a p', String b s' => bool_decide (a = b) && has_prefix p' s'
  | _, EmptyString => false
  end.

Fixpoint drop_str (n : nat) (s : string) : string :=
  match n, s with
  | O, _ => s
  | S n', String _ s' => drop_str n' s'
  | S _, EmptyString => EmptyString
  end.

Fixpoint take_str (n : nat) (s : string) : string :=
  match n, s with
  | O, _ => EmptyString
  | S n', String c s' => String c (take_str n' s')
  | S _, EmptyString => EmptyString
  end.

(** [strings.TrimPrefix(s, p)] *)
Definition trim_prefix (s p : string) : string :=
  if has_prefix p s then drop_str (String.length p) s else s.

(** [strings.HasSuffix(s, suf)] *)
Definition has_suffix (suf s : string) : bool :=
  (String.length suf <=? String.length s)%nat && bool_decide (drop_str (String.length s - String.length suf) s = suf).
(** [strings.TrimSuffix(s, suf)] *)
Definition trim_suffix (s suf : string) : string :=
  if has_suffix suf s then take_str (String.length s - String.length suf) s else s.
Fixpoint last_char (s : string) : option ascii :=
  match s with
  | EmptyString => None
  | String c EmptyString => Some c
  | String _ s' => last_char s'
  end.

(** The order of [sort.Strings]. *)
Definition string_le (a b : string) : Prop := String.leb a b = true.
#[global] Instance string_le_dec (a b : string) : Decision (string_le a b).
Proof. unfold string_le. apply _. Defined.

(** Cut [s] at every byte satisfying [f]: always at least one part. *)
Fixpoint split_func (f : ascii -> bool) (s : string) : list string :=
  match s with
  | EmptyString => [EmptyString]
  | String c s' =>
      if f c then EmptyString :: split_func f s'
      else match split_func f s' with
           | [] => [String c EmptyString]
           | w :: ws => String c w :: ws
           end
  end.

(** [strings.Split(s, sep)] for a one-byte separator. *)
Definition split (sep : ascii) : string -> list string :=
  split_func (fun c => bool_decide (c = sep)).

(** [strings.Join(l, sep)] *)
Fixpoint join (sep : string) (l : list string) : string :=
  match l with
  | [] => EmptyString
  | [x] => x
  | x :: l' => x +:+ sep +:+ join sep l'
  end.

(** [strings.FieldsFunc(s, f)]: the maximal non-empty runs of bytes outside [f]. *)
Definition fields_func (f : ascii -> bool) (s : string) : list string :=
  filter (fun w => w <> EmptyString) (split_func f s).

(** ASCII white space, as [unicode.IsSpace] has it below 0x80. *)
Definition is_space (c : ascii) : bool :=
  let n := Ascii.nat_of_ascii c in
  bool_decide (n = 32) || ((9 <=? n)%nat && (n <=? 13)%nat).

(** [strings.Fields(s)] *)
Definition fields (s : string) : list string := fields_func is_space s.

Fixpoint trim_left (s : string) : string :=
  match s with
  | String c s' => if is_space c then trim_left s' else s
  | EmptyString => EmptyString
  end.

Fixpoint trim_right (s : string) : string :=
  match s with
  | EmptyString => EmptyString
  | String c s' =>
      let t := trim_right s' in
      if is_space c && bool_decide (t = EmptyString) then EmptyString else String c t
  end.

(** [strings.TrimSpace(s)], ASCII white space. *)
Definition trim_space (s : string) : string := trim_right (trim_left s).

(** [strings.ReplaceAll(s, old, new)] for one-byte [old] and [new]. *)
Fixpoint replace_char (old new : ascii) (s : string) : string :=
  match s with
  | EmptyString => EmptyString
  | String c s' => String (if bool_decide (c = old) then new else c) (replace_char old new s')
  end.

Fixpoint contains_char (c : ascii) (s : string) : bool :=
  match s with
  | EmptyString => false
  | String a s' => bool_decide (a = c) || contains_char c s'
  end.

(** [strings.Cut] at a one byte separator: [None] when it is not there. *)
Fixpoint cut (sep : ascii) (s : string) : option (string * string) :=
  match s with
  | EmptyString => None
  | String c s' =>
      if bool_decide (c = sep) then Some ("", s')
      else match cut sep s' with Some (a, b) => Some (String c a, b) | None => None end
  end%string.

(** [strings.SplitN] for a positive count: the last part is what is left. *)
Fixpoint split_n (sep : ascii) (n : nat) (s : string) : list string :=
  match n with
  | O => []
  | 1 => [s]
  | S n' => match cut sep s with Some (a, b) => a :: split_n sep n' b | None => [s] end
  end.

(** [strings.Count] of a one byte separator. *)
Fixpoint count_char (c : ascii) (s : string) : nat :=
  match s with
  | EmptyString => 0
  | String a s' => (if bool_decide (a = c) then 1 else 0) + count_char c s'
  end.

(** ** [strconv] *)

Definition digit_value (c : ascii) : option Z :=
  let n := Ascii.nat_of_ascii c in
  if (48 <=? n)%nat && (n <=? 57)%nat then Some (Z.of_nat n - 48)%Z else None.

Fixpoint parse_digits (acc : Z) (s : string) : option Z :=
  match s with
  | EmptyString => Some acc
  | String c s' =>
      match digit_value c with
      | Some d => parse_digits (acc * 10 + d) s'
      | None => None
      end
  end.

(** [strconv.ParseUint(s, 10, bits)] *)
Definition parse_uint (bits : Z) (s : string) : result Z :=
  if bool_decide (s = EmptyString) then Err (ErrNew "invalid syntax") else
  match parse_digits 0 s with
  | None => Err (ErrNew "invalid syntax")
  | Some v => if (v <? 2 ^ bits)%Z then Ok v else Err (ErrNew "value out of range")
  end.

(** [strconv.FormatInt(z, 10)] and [strconv.Itoa(z)] *)
Definition format_int (z : Z) : string := pretty z.

(** ** Lemmas on strings *)

Lemma app_cons (c : ascii) (s t : string) : String c s +:+ t = String c (s +:+ t).
Proof. done. Qed.

Lemma app_empty_l (s : string) : EmptyString +:+ s = s.
Proof. done. Qed.

Lemma app_empty_r (s : string) : s +:+ EmptyString = s.
Proof. induction s as [|c s IH]; [done|]. by rewrite app_cons, IH. Qed.

Lemma app_assoc_str (s t u : string) : (s +:+ t) +:+ u = s +:+ (t +:+ u).
Proof. induction s as [|c s IH]; [done|]. by rewrite !app_cons, IH. Qed.

Lemma app_inj_l (s t u : string) : s +:+ t = s +:+ u -> t = u.
Proof. induction s as [|c s IH]; [done|]. rewrite !app_cons. intros [= H]. auto. Qed.

Lemma has_prefix_app (p s : string) : has_prefix p (p +:+ s) = true.
Proof.
  induction p as [|c p IH]; [done|]. rewrite app_cons. cbn.
  by rewrite bool_decide_eq_true_2, IH.
Qed.

Lemma has_prefix_spec (p s : string) :
  has_prefix p s = true <-> exists t, s = p +:+ t.
Proof.
  split.
  - revert s. induction p as [|c p IH]; intros s H; [by exists s|].
    destruct s as [|d s]; [done|]. cbn in H. apply andb_true_iff in H as [Hc H].
    apply bool_decide_eq_true_1 in Hc as ->. apply IH in H as [t ->]. by exists t.
  - intros [t ->]. apply has_prefix_app.
Qed.

Lemma drop_str_app (p s : string) : drop_str (String.length p) (p +:+ s) = s.
Proof. induction p as [|c p IH]; [done|]. rewrite app_cons. cbn. apply IH. Qed.

Lemma trim_prefix_app (p s : string) : trim_prefix (p +:+ s) p = s.
Proof. unfold trim_prefix. by rewrite has_prefix_app, drop_str_app. Qed.

Lemma contains_char_app (c : ascii) (s t : string) :
  contains_char c (s +:+ t) = contains_char c s || contains_char c t.
Proof.
  induction s as [|a s IH]; [done|]. rewrite app_cons. cbn. by rewrite IH, orb_assoc.
Qed.

(** *** Split and join *)

Lemma cut_app (sep : ascii) (a b : string) : contains_char sep a = false -> cut sep (a +:+ String sep b) = Some (a, b).
Proof.
  induction a as [|c a IH]; [intros _; rewrite app_empty_l; cbn [cut]; by rewrite bool_decide_eq_true_2|].
  rewrite app_cons. cbn [cut contains_char]. intros [H1 H2]%orb_false_iff. by rewrite H1, IH.
Qed.

Lemma cut_none (sep : ascii) (s : string) : contains_char sep s = false -> cut sep s = None.
Proof.
  induction s as [|c s IH]; [done|]. cbn [cut contains_char]. intros [H1 H2]%orb_false_iff. by rewrite H1, IH.
Qed.

Lemma split_n_more (sep : ascii) (n : nat) (a b : string) :
  contains_char sep a = false -> split_n sep (S (S n)) (a +:+ String sep b) = a :: split_n sep (S n) b.
Proof. intros H. cbn [split_n]. by rewrite cut_app. Qed.

Lemma split_n_none (sep : ascii) (n : nat) (s : string) : contains_char sep s = false -> split_n sep (S n) s = [s].
Proof. intros H. cbn [split_n]. rewrite cut_none by done. by destruct n. Qed.

Lemma split_func_not_nil (f : ascii -> bool) (s : string) : split_func f s <> [].
Proof. destruct s as [|c s]; cbn; [done|]. destruct (f c); [done|]. by destruct (split_func f s). Qed.

Lemma split_not_nil (sep : ascii) (s : string) : split sep s <> [].
Proof. apply split_func_not_nil. Qed.

Lemma split_no_sep (sep : ascii) (s : string) :
  contains_char sep s = false -> split sep s = [s].
Proof.
  unfold split. induction s as [|c s IH]; cbn; [done|]. intros [Hc Hs]%orb_false_iff.
  by rewrite Hc, IH.
Qed.

Lemma split_cons_app (sep : ascii) (w s : string) :
  contains_char sep w = false ->
  split sep (w +:+ String sep s) = w :: split sep s.
Proof.
  unfold split. induction w as [|c w IH]; intros Hw.
  - rewrite app_empty_l. cbn. by rewrite bool_decide_eq_true_2.
  - cbn in Hw. apply orb_false_iff in Hw as [Hc Hw]. rewrite app_cons. cbn.
    rewrite Hc. by rewrite IH.
Qed.

Lemma split_parts (sep : ascii) (s : string) :
  Forall (fun w => contains_char sep w = false) (split sep s).
Proof.
  unfold split. induction s as [|c s IH]; cbn; [by constructor|].
  destruct (bool_decide (c = sep)) eqn:E; [by constructor|].
  destruct (split_func _ s) as [|w ws]; [by repeat constructor; cbn; rewrite E|].
  apply Forall_cons in IH as [Hw Hws]. constructor; [|done]. cbn. by rewrite E, Hw.
Qed.

Lemma split_join (sep : ascii) (l : list string) :
  l <> [] -> Forall (fun w => contains_char sep w = false) l ->
  split sep (join (String sep EmptyString) l) = l.
Proof.
  induction l as [|x l IH]; intros Hne Hl; [done|].
  apply Forall_cons in Hl as [Hx Hl]. destruct l as [|y l]; cbn [join].
  - by apply split_no_sep.
  - rewrite app_cons, app_empty_l, split_cons_app by done. f_equal. by apply IH.
Qed.

Lemma join_split (sep : ascii) (s : string) :
  join (String sep EmptyString) (split sep s) = s.
Proof.
  unfold split. induction s as [|c s IH]; cbn; [done|].
  destruct (split_func _ s) as [|w ws] eqn:E; [by apply split_func_not_nil in E|].
  case_bool_decide as Hc; [subst c|]; cbn [join].
  - rewrite <- IH. by rewrite app_empty_l, app_cons, app_empty_l.
  - rewrite <- IH. by destruct ws.
Qed.

(** *** Decimal numbers *)

Lemma parse_digits_go (x : N) (s : string) :
  parse_digits 0 (pretty_N_go x s) = parse_digits (Z.of_N x) s.
Proof.
  revert s. induction (N.lt_wf_0 x) as [x _ IH]; intros s.
  destruct (decide (0 < x)%N) as [Hx|Hx].
  - rewrite pretty_N_go_step by done. rewrite IH by (apply N.div_lt; lia).
    cbn [parse_digits].
    assert (digit_value (pretty_N_char (x mod 10)) = Some (Z.of_N (x mod 10))) as ->.
    { assert (x mod 10 < 10)%N as Hlt by (apply N.mod_lt; lia).
      revert Hlt. generalize (x mod 10)%N as d. intros d Hd.
      assert (d = 0 \/ d = 1 \/ d = 2 \/ d = 3 \/ d = 4 \/ d = 5 \/ d = 6 \/ d = 7 \/ d = 8 \/ d = 9)%N
        by lia.
      destruct_or!; subst; reflexivity. }
    f_equal. rewrite (N.div_mod x 10) at 3 by lia. lia.
  - assert (x = 0%N) as -> by lia. by rewrite pretty_N_go_0.
Qed.

Lemma parse_digits_pretty (x : N) : parse_digits 0 (pretty x) = Some (Z.of_N x).
Proof.
  destruct (decide (x = 0%N)) as [->|Hx]; [done|].
  unfold pretty, pretty_N. rewrite decide_False by done. by rewrite parse_digits_go.
Qed.

(** *** Byte-wise predicates and field splitting *)

Fixpoint str_forall (f : ascii -> bool) (s : string) : bool :=
  match s with
  | EmptyString => true
  | String c s' => f c && str_forall f s'
  end.

Definition is_digit (c : ascii) : bool :=
  match digit_value c with Some _ => true | None => false end.

Lemma str_forall_impl (f g : ascii -> bool) (s : string) :
  (forall c, f c = true -> g c = true) -> str_forall f s = true -> str_forall g s = true.
Proof.
  intros Hfg. induction s as [|c s IH]; cbn; [done|]. intros [Hc Hs]%andb_true_iff.
  by rewrite (Hfg _ Hc), IH.
Qed.

Lemma split_func_sep (f : ascii -> bool) (w s : string) (c : ascii) :
  str_forall (fun a => negb (f a)) w = true -> f c = true ->
  split_func f (w +:+ String c s) = w :: split_func f s.
Proof.
  intros Hw Hc. induction w as [|a w IH].
  - rewrite app_empty_l. cbn. by rewrite Hc.
  - cbn in Hw. apply andb_true_iff in Hw as [Ha%negb_true_iff Hw].
    rewrite app_cons. cbn. by rewrite Ha, IH.
Qed.

Lemma split_func_none (f : ascii -> bool) (w : string) :
  str_forall (fun a => negb (f a)) w = true -> split_func f w = [w].
Proof.
  induction w as [|a w IH]; cbn; [done|]. intros [Ha%negb_true_iff Hw]%andb_true_iff.
  by rewrite Ha, IH.
Qed.

Lemma is_digit_pretty_N_char (d : N) : is_digit (pretty_N_char d) = true.
Proof.
  unfold pretty_N_char.
  destruct d as [|[[[]|[]|]|[[]|[[]|[]|]|]|]]; try reflexivity; destruct p; reflexivity.
Qed.

Lemma digits_pretty_N_go (x : N) (s : string) :
  str_forall is_digit s = true -> str_forall is_digit (pretty_N_go x s) = true.
Proof.
  revert s. induction (N.lt_wf_0 x) as [x _ IH]; intros s Hs.
  destruct (decide (0 < x)%N) as [Hx|Hx].
  - rewrite pretty_N_go_step by done. apply IH; [apply N.div_lt; lia|].
    cbn [str_forall]. by rewrite is_digit_pretty_N_char, Hs.
  - assert (x = 0%N) as -> by lia. by rewrite pretty_N_go_0.
Qed.

Lemma format_int_nonneg (z : Z) : (0 <= z)%Z -> format_int z = pretty (Z.to_N z).
Proof. intros Hz. by destruct z. Qed.

Lemma pretty_N_not_empty (x : N) : pretty x <> "".
Proof.
  intros E. pose proof (parse_digits_pretty x) as H. rewrite E in H. cbn in H.
  injection H as H. assert (x = 0%N) as -> by lia. discriminate E.
Qed.

Lemma digits_pretty_N (x : N) : str_forall is_digit (pretty x) = true.
Proof.
  unfold pretty, pretty_N. case_decide; [done|]. by apply digits_pretty_N_go.
Qed.

(** [strconv.ParseUint] reads back what [strconv.FormatInt] printed. *)
Lemma parse_uint_format_int (bits z : Z) :
  (0 <= z < 2 ^ bits)%Z -> parse_uint bits (format_int z) = Ok z.
Proof.
  intros Hz. unfold parse_uint. rewrite format_int_nonneg by lia.
  rewrite bool_decide_eq_false_2 by apply pretty_N_not_empty.
  rewrite parse_digits_pretty, Z2N.id by lia.
  destruct (Z.ltb_spec z (2 ^ bits)); [done|lia].
Qed.

(** ** Lines *)

Definition unlines (l : list string) : string := foldr (fun x s => x +:+ String ch_newline s) "" l.

Lemma split_unlines (l : list string) :
  Forall (fun s => contains_char ch_newline s = false) l ->
  split ch_newline (unlines l) = l ++ [""].
Proof.
  induction 1 as [|x l Hx _ IH]; [done|]. unfold unlines in *. cbn [foldr].
  rewrite split_cons_app by done. by rewrite IH.
Qed.

(** A word: not empty, without white space. *)
Definition word (w : string) : Prop := w <> "" /\ str_forall (fun a => negb (is_space a)) w = true.

Lemma fields_join (ws : list string) : Forall word ws -> fields (join (String ch_space "") ws) = ws.
Proof.
  intros Hw. unfold fields, fields_func. destruct ws as [|w ws]; [done|].
  assert (split_func is_space (join (String ch_space "") (w :: ws)) = w :: ws) as ->.
  { revert w Hw. induction ws as [|x ws IH]; intros w [[_ Hw] Hws]%Forall_cons.
    - by apply split_func_none.
    - change (join ?s (w :: x :: ws)) with (w +:+ s +:+ join s (x :: ws)).
      rewrite app_cons, app_empty_l, split_func_sep by done. by rewrite IH. }
  apply filter_all. eapply Forall_impl; [exact Hw|]. by intros x [? _].
Qed.

Lemma str_forall_app (f : ascii -> bool) (s t : string) :
  str_forall f (s +:+ t) = str_forall f s && str_forall f t.
Proof. induction s as [|c s IH]; [done|]. rewrite app_cons. cbn. by rewrite IH, andb_assoc. Qed.

(** *** Characters that do not occur *)

Lemma digits_not_char (c : ascii) (s : string) :
  is_digit c = false -> str_forall is_digit s = true -> contains_char c s = false.
Proof.
  intros Hc. induction s as [|x s IH]; [done|]. cbn. intros [Hx H]%andb_true_iff. rewrite IH by done.
  rewrite orb_false_r. apply bool_decide_eq_false_2. congruence.
Qed.

Lemma format_int_char (c : ascii) (z : Z) : (0 <= z)%Z -> is_digit c = false -> contains_char c (format_int z) = false.
Proof. intros Hz Hc. rewrite format_int_nonneg by done. apply digits_not_char; [done|apply digits_pretty_N]. Qed.

Lemma join_no_char (c : ascii) (sep : string) (l : list string) :
  contains_char c sep = false -> Forall (fun s => contains_char c s = false) l -> contains_char c (join sep l) = false.
Proof.
  intros Hs. induction 1 as [|x l Hx _ IH]; [done|]. destruct l as [|y l]; [done|].
  change (join sep (x :: y :: l)) with (x +:+ sep +:+ join sep (y :: l)).
  by rewrite !contains_char_app, Hx, Hs, IH.
Qed.
