(* ===== verification/Devices.v ===== *)
(** * Device rules: [libcontainer/devices]

    The [Permissions] strings with their set operations, the device [Type]s,
    the [Rule] record, its cgroup text form, and device numbers.  The lemmas
    show that the string operations implement set operations on a three-bit
    mask and that every operation returns a canonical string. *)

From S2P Require Import Prelude GoStrings.

Open Scope string_scope.
Open Scope list_scope.
Open Scope Z_scope.

(** ** Data (device.go) *)

Definition Wildcard : Z := -1.

(** [type Permissions string] *)
Abbreviation Permissions := string.

Definition deviceRead : Z := 1.
Definition deviceWrite : Z := 2.
Definition deviceMknod : Z := 4.

(** [type Type rune] *)
Definition WildcardDevice : Z := 97.
Definition BlockDevice : Z := 98.
Definition CharDevice : Z := 99.
Definition FifoDevice : Z := 112.

Record Rule := mkRule {
  Type_ : Z;
  Major : Z;
  Minor : Z;
  Permissions_ : Permissions;
  Allow : bool }.

Record Device := mkDevice {
  dev_rule : Rule;
  Path : string;
  FileMode : Z;
  Uid : Z;
  Gid : Z }.

#[global] Instance Rule_eq_dec : EqDecision Rule.
Proof. solve_decision. Defined.

(** ** Permission sets *)

Definition perm_bit (c : ascii) : Z :=
  if bool_decide (c = "r"%char) then deviceRead
  else if bool_decide (c = "w"%char) then deviceWrite
  else if bool_decide (c = "m"%char) then deviceMknod
  else 0.

Fixpoint toSet_from (set : Z) (p : Permissions) : Z :=
  match p with
  | EmptyString => set
  | String c p' => toSet_from (Z.lor set (perm_bit c)) p'
  end.

Definition toSet (p : Permissions) : Z := toSet_from 0 p.

Definition fromSet (set : Z) : Permissions :=
  let perm := "" in
  let perm := if Z.land set deviceRead =? deviceRead then perm +:+ "r" else perm in
  let perm := if Z.land set deviceWrite =? deviceWrite then perm +:+ "w" else perm in
  if Z.land set deviceMknod =? deviceMknod then perm +:+ "m" else perm.

Definition Union (p o : Permissions) : Permissions := fromSet (Z.lor (toSet p) (toSet o)).
Definition Difference (p o : Permissions) : Permissions := fromSet (and_not (toSet p) (toSet o)).
Definition Intersection (p o : Permissions) : Permissions := fromSet (Z.land (toSet p) (toSet o)).
Definition perms_IsEmpty (p : Permissions) : bool := bool_decide (p = "").
Definition perms_IsValid (p : Permissions) : bool := bool_decide (p = fromSet (toSet p)).

(** ** Device types *)

Definition type_IsValid (t : Z) : bool :=
  bool_decide (t = WildcardDevice) || bool_decide (t = BlockDevice)
  || bool_decide (t = CharDevice) || bool_decide (t = FifoDevice).

Definition CanMknod (t : Z) : bool :=
  bool_decide (t = BlockDevice) || bool_decide (t = CharDevice) || bool_decide (t = FifoDevice).

Definition CanCgroup (t : Z) : bool :=
  bool_decide (t = WildcardDevice) || bool_decide (t = BlockDevice) || bool_decide (t = CharDevice).

(** ** Text form *)

Definition byte_of (z : Z) : ascii := Ascii.ascii_of_N (Z.to_N z).

(** [%c] of [fmt.Sprintf]: the UTF-8 encoding of the rune, U+FFFD when the rune
    is not a Unicode scalar value. *)
Definition format_rune (r : Z) : string :=
  let cont sh := byte_of (Z.lor 128 (Z.land (Z.shiftr r sh) 63)) in
  if (r <? 0) || (1114111 <? r) || ((55296 <=? r) && (r <=? 57343))
  then String (byte_of 239) (String (byte_of 191) (String (byte_of 189) ""))
  else if r <? 128 then String (byte_of r) ""
  else if r <? 2048 then String (byte_of (Z.lor 192 (Z.shiftr r 6))) (String (cont 0) "")
  else if r <? 65536 then
    String (byte_of (Z.lor 224 (Z.shiftr r 12))) (String (cont 6) (String (cont 0) ""))
  else String (byte_of (Z.lor 240 (Z.shiftr r 18)))
         (String (cont 12) (String (cont 6) (String (cont 0) ""))).

Definition format_number (n : Z) : string :=
  if bool_decide (n = Wildcard) then "*" else format_int n.

Definition CgroupString (d : Rule) : string :=
  format_rune (Type_ d) +:+ " " +:+ format_number (Major d) +:+ ":"
    +:+ format_number (Minor d) +:+ " " +:+ Permissions_ d.

(** ** Device numbers (device_unix.go, golang.org/x/sys/unix/dev_linux.go) *)

Definition unix_Mkdev (major minor : Z) : Z :=
  let dev := Z.shiftl (Z.land major 0xfff) 8 in
  let dev := Z.lor dev (uint64 (Z.shiftl (Z.land major 0xfffff000) 32)) in
  let dev := Z.lor dev (Z.shiftl (Z.land minor 0xff) 0) in
  Z.lor dev (Z.shiftl (Z.land minor 0xffffff00) 12).

Definition unix_Major (dev : Z) : Z :=
  Z.lor (uint32 (Z.shiftr (Z.land dev 0xfff00) 8))
        (uint32 (Z.shiftr (Z.land dev 0xfffff00000000000) 32)).

Definition unix_Minor (dev : Z) : Z :=
  Z.lor (uint32 (Z.shiftr (Z.land dev 0xff) 0))
        (uint32 (Z.shiftr (Z.land dev 0xffffff00000) 12)).

Definition ErrMkdevWildcard : error := ErrNew "cannot mkdev() device with wildcards".

Definition mkDev (d : Rule) : result Z :=
  if bool_decide (Major d = Wildcard) || bool_decide (Minor d = Wildcard)
  then Err ErrMkdevWildcard
  else Ok (unix_Mkdev (uint32 (Major d)) (uint32 (Minor d))).

(** [unix.Stat_t], the fields the code reads. *)
Record Stat := mkStat { st_mode : Z; st_rdev : Z; st_uid : Z; st_gid : Z }.

Definition S_IFMT : Z := 0xf000.
Definition S_IFBLK : Z := 0x6000.
Definition S_IFCHR : Z := 0x2000.
Definition S_IFIFO : Z := 0x1000.

Definition ErrNotADevice : error := ErrNew "not a device node".

(** [DeviceFromPath], given what [unix.Lstat] returned for the path. *)
Definition DeviceFromPath (lstat : string -> result Stat) (path : string)
    (permissions : string) : result Device :=
  stat ← lstat path;
  let fmt := Z.land (st_mode stat) S_IFMT in
  let major := unix_Major (st_rdev stat) in
  let minor := unix_Minor (st_rdev stat) in
  devType ← (if bool_decide (fmt = S_IFBLK) then Ok BlockDevice
             else if bool_decide (fmt = S_IFCHR) then Ok CharDevice
             else if bool_decide (fmt = S_IFIFO) then Ok FifoDevice
             else Err ErrNotADevice);
  Ok {| dev_rule := {| Type_ := devType; Major := major; Minor := minor;
                       Permissions_ := permissions; Allow := false |};
        Path := path;
        FileMode := and_not (st_mode stat) S_IFMT;
        Uid := st_uid stat; Gid := st_gid stat |}.

(** ** Lemmas *)

Definition mask (s : Z) : Prop := 0 <= s < 8.

Lemma mask_cases (s : Z) :
  mask s -> s = 0 \/ s = 1 \/ s = 2 \/ s = 3 \/ s = 4 \/ s = 5 \/ s = 6 \/ s = 7.
Proof. unfold mask. lia. Qed.

Lemma mask_land_iff (s : Z) : mask s <-> Z.land s 7 = s.
Proof.
  change 7 with (Z.ones 3). rewrite Z.land_ones by lia. split.
  - apply Z.mod_small.
  - intros <-. apply Z.mod_pos_bound. lia.
Qed.

Lemma mask_lor (a b : Z) : mask a -> mask b -> mask (Z.lor a b).
Proof. rewrite !mask_land_iff, Z.land_lor_distr_l. by intros -> ->. Qed.

Lemma mask_land (a b : Z) : mask b -> mask (Z.land a b).
Proof. rewrite !mask_land_iff, <- Z.land_assoc. by intros ->. Qed.

Lemma mask_and_not (a b : Z) : mask a -> mask (and_not a b).
Proof.
  unfold and_not. rewrite !mask_land_iff, !Z.ldiff_land. intros H.
  by rewrite <- Z.land_assoc, (Z.land_comm (Z.lnot b)), Z.land_assoc, H.
Qed.

Lemma mask_perm_bit (c : ascii) : mask (perm_bit c).
Proof.
  unfold perm_bit, mask, deviceRead, deviceWrite, deviceMknod.
  repeat case_bool_decide; lia.
Qed.

Lemma toSet_from_lor (s : Z) (p : Permissions) : toSet_from s p = Z.lor s (toSet p).
Proof.
  unfold toSet. revert s. induction p as [|c p IH]; intros s; cbn [toSet_from]; [by rewrite Z.lor_0_r|].
  by rewrite Z.lor_0_l, IH, (IH (perm_bit c)), Z.lor_assoc.
Qed.

Lemma mask_toSet (p : Permissions) : mask (toSet p).
Proof.
  unfold toSet. induction p as [|c p IH]; cbn [toSet_from]; [unfold mask; lia|].
  rewrite Z.lor_0_l, toSet_from_lor. apply mask_lor; [apply mask_perm_bit|apply IH].
Qed.

Lemma toSet_fromSet (s : Z) : mask s -> toSet (fromSet s) = s.
Proof. intros H%mask_cases. destruct_or!; subst; reflexivity. Qed.

Lemma fromSet_empty (s : Z) : mask s -> fromSet s = "" <-> s = 0.
Proof. intros H%mask_cases. destruct_or!; subst; cbn; naive_solver. Qed.

Lemma toSet_Union (p o : Permissions) : toSet (Union p o) = Z.lor (toSet p) (toSet o).
Proof. apply toSet_fromSet, mask_lor; apply mask_toSet. Qed.

Lemma toSet_Difference (p o : Permissions) :
  toSet (Difference p o) = and_not (toSet p) (toSet o).
Proof. apply toSet_fromSet, mask_and_not, mask_toSet. Qed.

Lemma toSet_Intersection (p o : Permissions) :
  toSet (Intersection p o) = Z.land (toSet p) (toSet o).
Proof. apply toSet_fromSet, mask_land, mask_toSet. Qed.

(** Canonical strings: those [perms_IsValid] accepts. *)
Definition canonical (p : Permissions) : Prop := p = fromSet (toSet p).

#[global] Instance canonical_dec (p : Permissions) : Decision (canonical p) := _.

Lemma perms_IsValid_iff (p : Permissions) : perms_IsValid p = true <-> canonical p.
Proof. apply bool_decide_eq_true. Qed.

Lemma canonical_fromSet (s : Z) : mask s -> canonical (fromSet s).
Proof. intros H. unfold canonical. by rewrite toSet_fromSet. Qed.

Lemma canonical_inj (p q : Permissions) :
  canonical p -> canonical q -> toSet p = toSet q -> p = q.
Proof. intros -> ->. intros H. rewrite !toSet_fromSet in H by apply mask_toSet. by rewrite H. Qed.

Lemma canonical_Union (p o : Permissions) : canonical (Union p o).
Proof. apply canonical_fromSet, mask_lor; apply mask_toSet. Qed.

Lemma canonical_Difference (p o : Permissions) : canonical (Difference p o).
Proof. apply canonical_fromSet, mask_and_not, mask_toSet. Qed.

Lemma canonical_empty_iff (p : Permissions) : canonical p -> p = "" <-> toSet p = 0.
Proof.
  intros ->. rewrite toSet_fromSet by apply mask_toSet. apply fromSet_empty, mask_toSet.
Qed.

Lemma Difference_empty_iff (p o : Permissions) :
  Difference p o = "" <-> and_not (toSet p) (toSet o) = 0.
Proof. unfold Difference. apply fromSet_empty, mask_and_not, mask_toSet. Qed.

Lemma Intersection_empty_iff (p o : Permissions) :
  Intersection p o = "" <-> Z.land (toSet p) (toSet o) = 0.
Proof. unfold Intersection. apply fromSet_empty, mask_land, mask_toSet. Qed.

Lemma Difference_nil (p : Permissions) : canonical p -> Difference p "" = p.
Proof.
  intros Hc. apply canonical_inj; [apply canonical_Difference|done|]. rewrite toSet_Difference.
  apply Z.ldiff_0_r.
Qed.

#[export] Hint Resolve mask_toSet mask_lor mask_land mask_and_not
  canonical_Union canonical_Difference canonical_fromSet : sysbox.
#[export] Hint Rewrite toSet_Union toSet_Difference toSet_Intersection : sysbox.
