(* ===== verification/DeviceEmulator.v ===== *)
(** * The devices-cgroup emulator: [libcontainer/cgroups/devices]

    [Emulator] is the state of a cgroup-v1 devices controller: a default policy
    and a map of exceptions.  A Go map may be [nil]; [rules] keeps the
    distinction, because [reflect.DeepEqual] sees it.  [emu_equiv] forgets it.

    Error returns of [rmRule] precede every write, so a failed operation leaves
    the receiver as it was and [result Emulator] loses nothing. *)

From S2P Require Import Prelude GoStrings Devices.

Open Scope string_scope.
Open Scope list_scope.
Open Scope Z_scope.

(** ** Data *)

Record deviceMeta := mkMeta { node : Z; major : Z; minor : Z }.

#[global] Instance deviceMeta_eq_dec : EqDecision deviceMeta.
Proof. solve_decision. Defined.
#[global] Instance deviceMeta_countable : Countable deviceMeta.
Proof.
  refine (inj_countable' (fun m => (node m, major m, minor m))
            (fun '(n, a, b) => mkMeta n a b) _).
  by intros [].
Defined.

Record deviceRule := mkDeviceRule { meta : deviceMeta; perms : Permissions }.

Abbreviation deviceRules := (gmap deviceMeta Permissions).

Record Emulator := mkEmulator {
  defaultAllow : bool;
  rules : option deviceRules }.

(** Reading a possibly nil map. *)
Definition rmap (r : option deviceRules) : deviceRules := default ∅ r.
Definition rules_get (r : option deviceRules) (m : deviceMeta) : Permissions :=
  default "" (rmap r !! m).

(** ** Sorted entries *)

(** The reflexive closure of the [sort.Slice] comparison. *)
Definition meta_le (a b : deviceMeta) : Prop :=
  major a < major b \/
  (major a = major b /\ minor a < minor b) \/
  (major a = major b /\ minor a = minor b /\ node a <= node b).

Definition rule_le (a b : deviceRule) : Prop := meta_le (meta a) (meta b).

#[global] Instance meta_le_dec (a b : deviceMeta) : Decision (meta_le a b).
Proof. unfold meta_le. apply _. Defined.
#[global] Instance rule_le_dec (a b : deviceRule) : Decision (rule_le a b).
Proof. unfold rule_le. apply _. Defined.

Definition orderedEntries (r : option deviceRules) : list deviceRule :=
  merge_sort rule_le
    (map (fun mp : deviceMeta * Permissions => mkDeviceRule mp.1 mp.2)
         (map_to_list (rmap r))).

(** ** Reading the mode *)

Definition IsBlacklist (e : Emulator) : bool := defaultAllow e.
Definition IsAllowAll (e : Emulator) : bool :=
  IsBlacklist e && bool_decide (size (rmap (rules e)) = 0%nat).

(** ** Parsing one line of devices.list *)

Definition parse_number (s : string) (what : string) : result Z :=
  if bool_decide (s = "*") then Ok Wildcard else wrap_err what (parse_uint 32 s).

Definition line_sep (c : ascii) : bool :=
  bool_decide (c = ch_space) || bool_decide (c = ch_colon).

(** [Ok None] is the [nil, nil] return of the "a" line. *)
Definition parseLine (line : string) : result (option deviceRule) :=
  match fields_func line_sep line with
  | [node_s; major_s; minor_s; perms_s] =>
      if bool_decide (node_s = "a") then Ok None else
      n ← (if bool_decide (node_s = "b") then Ok BlockDevice
           else if bool_decide (node_s = "c") then Ok CharDevice
           else Err (ErrNew "unknown device type"));
      ma ← parse_number major_s "invalid major number";
      mi ← parse_number minor_s "invalid minor number";
      if negb (perms_IsValid perms_s) || perms_IsEmpty perms_s
      then Err (ErrNew "parse access mode: contained unknown modes or is empty")
      else Ok (Some (mkDeviceRule (mkMeta n ma mi) perms_s))
  | _ => Err (ErrNew "malformed devices.list rule")
  end.

(** ** Editing the exceptions *)

Definition addRule (e : Emulator) (r : deviceRule) : Emulator :=
  let m := rmap (rules e) in
  let oldPerms := rules_get (rules e) (meta r) in
  {| defaultAllow := defaultAllow e;
     rules := Some (<[meta r := Union (perms r) oldPerms]> m) |}.

Definition partialMetas (m : deviceMeta) : list deviceMeta :=
  [mkMeta (node m) Wildcard (minor m);
   mkMeta (node m) (major m) Wildcard;
   mkMeta (node m) Wildcard Wildcard].

Definition ErrHole : error :=
  ErrNew "requested rule not supported by devices cgroupv1 (cannot punch hole in existing wildcard rule)".

(** Whether the loop of [rmRule] reports [partialMeta]. *)
Definition punches_hole (e : Emulator) (r : deviceRule) (pm : deviceMeta) : bool :=
  negb (bool_decide (meta r = pm)) &&
  negb (perms_IsEmpty (Intersection (rules_get (rules e) pm) (perms r))).

Definition rmRule (e : Emulator) (r : deviceRule) : result Emulator :=
  if existsb (punches_hole e r) (partialMetas (meta r)) then Err ErrHole else
  let newPerms := Difference (rules_get (rules e) (meta r)) (perms r) in
  if perms_IsEmpty newPerms
  then Ok {| defaultAllow := defaultAllow e; rules := delete (meta r) <$> rules e |}
  else Ok {| defaultAllow := defaultAllow e;
             rules := insert (meta r) newPerms <$> rules e |}.

Definition wrapErr {A} (r : result A) (text : string) : result A := wrap_err text r.

Definition allow (e : Emulator) (r : option deviceRule) : result Emulator :=
  match r with
  | None => Ok {| defaultAllow := true; rules := None |}
  | Some r =>
      if bool_decide (node (meta r) = WildcardDevice)
      then Ok {| defaultAllow := true; rules := None |}
      else if defaultAllow e
      then wrapErr (rmRule e r) "unable to remove 'deny' exception"
      else wrapErr (Ok (addRule e r)) "unable to add 'allow' exception"
  end.

Definition deny (e : Emulator) (r : option deviceRule) : result Emulator :=
  match r with
  | None => Ok {| defaultAllow := false; rules := None |}
  | Some r =>
      if bool_decide (node (meta r) = WildcardDevice)
      then Ok {| defaultAllow := false; rules := None |}
      else if defaultAllow e
      then wrapErr (Ok (addRule e r)) "unable to add 'deny' exception"
      else wrapErr (rmRule e r) "unable to remove 'allow' exception"
  end.

Definition innerRule (r : Rule) : option deviceRule :=
  if bool_decide (Type_ r = WildcardDevice) then None
  else Some (mkDeviceRule (mkMeta (Type_ r) (Major r) (Minor r)) (Permissions_ r)).

Definition Apply (e : Emulator) (r : Rule) : result Emulator :=
  if negb (CanCgroup (Type_ r)) then Err (ErrNew "cannot add rule with non-cgroup type")
  else if Allow r then allow e (innerRule r) else deny e (innerRule r).

(** The loop [for _, rule := range rules] that applies each rule and stops at
    the first error. *)
Fixpoint apply_rules (e : Emulator) (l : list Rule) : result Emulator :=
  match l with
  | [] => Ok e
  | r :: l' => e' ← Apply e r; apply_rules e' l'
  end.

Definition emptyEmulator : Emulator := {| defaultAllow := false; rules := None |}.

(** ** Reading devices.list *)

Fixpoint allow_lines (e : Emulator) (lines : list string) : result Emulator :=
  match lines with
  | [] => Ok e
  | line :: rest =>
      r ← wrap_err "error parsing line" (parseLine line);
      e' ← wrap_err "error adding devices.list rule" (allow e r);
      allow_lines e' rest
  end.

Fixpoint drop_cr (s : string) : string :=
  match s with
  | EmptyString => EmptyString
  | String c EmptyString => if bool_decide (c = chr 13) then EmptyString else s
  | String c s' => String c (drop_cr s')
  end.

(** [bufio.Scanner] with its default split function: lines without their
    terminator (nor a carriage return before it), no final empty line.  (Lines longer than the scanner's 64 KiB
    token limit do not occur in devices.list.) *)
Definition scan_lines (text : string) : list string :=
  let parts := split ch_newline text in
  map drop_cr (if bool_decide (last parts = Some "") then removelast parts else parts).

Definition EmulatorFromList (text : string) : result Emulator :=
  allow_lines emptyEmulator (scan_lines text).

(** ** Transitions *)

Definition disruptiveRule (target : Emulator) : Rule :=
  {| Type_ := WildcardDevice; Major := -1; Minor := -1; Permissions_ := "rwm";
     Allow := defaultAllow target |}.

Definition metaRule (m : deviceMeta) (p : Permissions) (allow_ : bool) : Rule :=
  {| Type_ := node m; Major := major m; Minor := minor m; Permissions_ := p; Allow := allow_ |}.

(** One of the two loops of [Transition]: the entries of [from] that have
    permissions missing in [other], as rules. *)
Definition diffRules (from other : option deviceRules) (allow_ : bool) : list Rule :=
  omap (fun r =>
    let d := Difference (perms r) (rules_get other (meta r)) in
    if perms_IsEmpty d then None else Some (metaRule (meta r) d allow_))
  (orderedEntries from).

Definition Transition (source target : Emulator) : result (list Rule) :=
  let disruptive := IsBlacklist source || negb (Bool.eqb (defaultAllow source) (defaultAllow target)) in
  let oldRules := if disruptive then None else rules source in
  let head := if disruptive then [disruptiveRule target] else [] in
  Ok (head
      ++ diffRules oldRules (rules target) (defaultAllow target)
      ++ diffRules (rules target) oldRules (negb (defaultAllow target))).

Definition Rules (e : Emulator) : result (list Rule) := Transition emptyEmulator e.

(** ** The policy an emulator stands for *)

(** A device request: [(type, major, minor)] of a concrete device and the mask
    of the access kinds asked for. *)
Record request := mkRequest { rq_type : Z; rq_major : Z; rq_minor : Z; rq_access : Z }.

Definition meta_matches (m : deviceMeta) (q : request) : bool :=
  bool_decide (node m = rq_type q)
  && (bool_decide (major m = Wildcard) || bool_decide (major m = rq_major q))
  && (bool_decide (minor m = Wildcard) || bool_decide (minor m = rq_minor q)).

Definition covers (p : Permissions) (access : Z) : bool :=
  Z.land access (toSet p) =? access.

(** Some exception matches the device and covers the whole access. *)
Definition exception_hit (e : Emulator) (q : request) : bool :=
  existsb (fun mp : deviceMeta * Permissions => meta_matches mp.1 q && covers mp.2 (rq_access q))
          (map_to_list (rmap (rules e))).

(** The policy as the eBPF filter reads it: in both modes an exception applies to
    the accesses it covers completely.  (A v1 devices cgroup in deny-list mode is
    stricter on combined accesses: [cgroup_decision] in DeviceFilter.) *)
Definition emu_decision (e : Emulator) (q : request) : bool :=
  xorb (defaultAllow e) (exception_hit e q).

(** ** Equivalence: equal up to nil versus empty map *)

#[global] Instance emu_equiv : Equiv Emulator := fun e1 e2 =>
  defaultAllow e1 = defaultAllow e2 /\ rmap (rules e1) = rmap (rules e2).

#[global] Instance emu_equivalence : Equivalence (≡@{Emulator}).
Proof.
  split.
  - by intros [].
  - intros ?? [??]; split; congruence.
  - intros ??? [??] [??]; split; congruence.
Qed.

#[global] Instance emu_decision_proper : Proper ((≡) ==> (=) ==> (=)) emu_decision.
Proof. intros e1 e2 [H1 H2] q ? <-. unfold emu_decision, exception_hit. by rewrite H1, H2. Qed.

(** ** Well-formed emulators *)

Definition entry_ok (m : deviceMeta) (p : Permissions) : Prop :=
  canonical p /\ p <> "" /\ (node m = BlockDevice \/ node m = CharDevice).

Definition emu_wf (e : Emulator) : Prop := map_Forall entry_ok (rmap (rules e)).

(** The exceptions as a function to masks; it determines a well-formed emulator. *)
Definition emu_bits (e : Emulator) (m : deviceMeta) : Z := toSet (rules_get (rules e) m).

Ltac Zbits :=
  apply Z.bits_inj'; intros ? _;
  unfold and_not in *;
  rewrite ?Z.lor_spec, ?Z.land_spec, ?Z.ldiff_spec, ?Z.lor_spec, ?Z.land_spec, ?Z.ldiff_spec,
    ?Z.bits_0;
  repeat match goal with |- context [Z.testbit ?a ?n] => destruct (Z.testbit a n) end;
  reflexivity.

Lemma emu_bits_wf_inj (e1 e2 : Emulator) (m : deviceMeta) :
  emu_wf e1 -> emu_wf e2 -> emu_bits e1 m = emu_bits e2 m ->
  rmap (rules e1) !! m = rmap (rules e2) !! m.
Proof.
  unfold emu_bits, rules_get. intros W1 W2.
  destruct (rmap (rules e1) !! m) as [p|] eqn:E1, (rmap (rules e2) !! m) as [q|] eqn:E2; cbn.
  - apply W1 in E1 as (? & _); apply W2 in E2 as (? & _). intros. f_equal. by apply canonical_inj.
  - apply W1 in E1 as (Hc & Hp & _). intros H. by apply canonical_empty_iff in H.
  - apply W2 in E2 as (Hc & Hp & _). intros H. symmetry in H. by apply canonical_empty_iff in H.
  - done.
Qed.

Lemma emu_ext (e1 e2 : Emulator) :
  emu_wf e1 -> emu_wf e2 -> defaultAllow e1 = defaultAllow e2 ->
  (forall m, emu_bits e1 m = emu_bits e2 m) -> e1 ≡ e2.
Proof.
  intros W1 W2 Hd Hb. split; [done|]. apply map_eq. intros m. by apply emu_bits_wf_inj.
Qed.

Lemma emu_wf_empty (b : bool) : emu_wf {| defaultAllow := b; rules := None |}.
Proof. apply map_Forall_empty. Qed.

Lemma rules_get_nil (m : deviceMeta) : rules_get None m = "".
Proof. unfold rules_get. cbn. by rewrite lookup_empty. Qed.

Lemma emu_bits_empty (b : bool) (m : deviceMeta) :
  emu_bits {| defaultAllow := b; rules := None |} m = 0.
Proof. unfold emu_bits, rules_get. cbn. by rewrite lookup_empty. Qed.

(** *** Adding and removing exceptions *)

Lemma addRule_bits (e : Emulator) (r : deviceRule) (m : deviceMeta) :
  emu_bits (addRule e r) m =
    if decide (meta r = m) then Z.lor (toSet (perms r)) (emu_bits e m) else emu_bits e m.
Proof.
  unfold emu_bits, addRule, rules_get at 1. cbn. rewrite lookup_insert.
  case_decide; cbn; [subst; apply toSet_Union|done].
Qed.

Lemma addRule_wf (e : Emulator) (r : deviceRule) :
  emu_wf e -> toSet (perms r) <> 0 ->
  node (meta r) = BlockDevice \/ node (meta r) = CharDevice ->
  emu_wf (addRule e r).
Proof.
  intros W Hp Hn. apply map_Forall_insert_2; [|done]. split; [apply canonical_Union|]. split; [|done].
  rewrite canonical_empty_iff, toSet_Union by apply canonical_Union. rewrite Z.lor_eq_0_iff. tauto.
Qed.

(** What the kernel does with a removal: only the entry of exactly that device
    loses permissions; a wildcard entry that also matches is left as it is,
    silently (the comment of [rmRule] on the v1 devices cgroup). *)
Definition cgroup_rm (e : Emulator) (r : deviceRule) : Emulator :=
  let newPerms := Difference (rules_get (rules e) (meta r)) (perms r) in
  {| defaultAllow := defaultAllow e;
     rules := (if perms_IsEmpty newPerms then delete (meta r) else insert (meta r) newPerms) <$> rules e |}.

Lemma rmRule_cgroup (e e' : Emulator) (r : deviceRule) :
  rmRule e r = Ok e' ->
  existsb (punches_hole e r) (partialMetas (meta r)) = false /\ e' = cgroup_rm e r.
Proof.
  unfold rmRule, cgroup_rm. destruct (existsb _ _); [done|].
  destruct (perms_IsEmpty _); intros [= <-]; done.
Qed.

Lemma cgroup_rm_bits (e : Emulator) (r : deviceRule) (m : deviceMeta) :
  emu_bits (cgroup_rm e r) m =
    if decide (meta r = m) then and_not (emu_bits e m) (toSet (perms r)) else emu_bits e m.
Proof.
  unfold cgroup_rm, perms_IsEmpty. case_bool_decide as Hd; unfold emu_bits, rules_get at 1; cbn [rules].
  - assert (rmap (delete (meta r) <$> rules e) = delete (meta r) (rmap (rules e))) as ->.
    { destruct (rules e); cbn; [done|by rewrite delete_empty]. }
    rewrite lookup_delete. case_decide; [|done]. subst. cbn. by apply Difference_empty_iff in Hd.
  - destruct (rules e) as [rs|] eqn:E; cbn.
    + rewrite lookup_insert. case_decide; [subst; cbn; apply toSet_Difference|done].
    + exfalso. apply Hd. by rewrite rules_get_nil.
Qed.

Lemma cgroup_rm_wf (e : Emulator) (r : deviceRule) : emu_wf e -> emu_wf (cgroup_rm e r).
Proof.
  unfold emu_wf, cgroup_rm, perms_IsEmpty. cbn [rules]. destruct (rules e) as [rs|] eqn:E; cbn; [|done].
  intros W. case_bool_decide as Hd; [by apply map_Forall_delete|].
  apply map_Forall_insert_2; [|done]. unfold rules_get in *. cbn in *.
  destruct (rs !! meta r) as [p|] eqn:Ep; cbn in *.
  - apply W in Ep as (_ & _ & Hn). split; [apply canonical_Difference|]. by split.
  - by destruct Hd.
Qed.

Lemma rmRule_ok (e : Emulator) (r : deviceRule) (e' : Emulator) :
  rmRule e r = Ok e' ->
  existsb (punches_hole e r) (partialMetas (meta r)) = false /\
  defaultAllow e' = defaultAllow e /\
  (forall m, emu_bits e' m =
     if decide (meta r = m) then and_not (emu_bits e m) (toSet (perms r)) else emu_bits e m) /\
  (emu_wf e -> emu_wf e').
Proof.
  intros [Hh ->]%rmRule_cgroup. do 2 (split; [done|]). split; [apply cgroup_rm_bits|apply cgroup_rm_wf].
Qed.

(** *** [Apply] on the rules of a non-wildcard type *)

Definition cgroup_node (t : Z) : Prop := t = BlockDevice \/ t = CharDevice.

Lemma Apply_add (e : Emulator) (m : deviceMeta) (p : Permissions) :
  cgroup_node (node m) ->
  Apply e (metaRule m p (negb (defaultAllow e))) = Ok (addRule e (mkDeviceRule m p)).
Proof.
  intros Hn. destruct e as [[] rs], m as [n ma mi]; cbn in *; unfold Apply, innerRule; cbn;
    destruct Hn as [-> | ->]; reflexivity.
Qed.

Lemma Apply_rm (e : Emulator) (m : deviceMeta) (p : Permissions) :
  cgroup_node (node m) ->
  exists t, Apply e (metaRule m p (defaultAllow e)) = wrap_err t (rmRule e (mkDeviceRule m p)).
Proof.
  intros Hn. destruct e as [[] rs], m as [n ma mi]; cbn in *; unfold Apply, innerRule; cbn;
    destruct Hn as [-> | ->]; eexists; reflexivity.
Qed.

Lemma Apply_wildcard (e : Emulator) (b : bool) (ma mi : Z) (p : Permissions) :
  Apply e {| Type_ := WildcardDevice; Major := ma; Minor := mi; Permissions_ := p; Allow := b |}
  = Ok {| defaultAllow := b; rules := None |}.
Proof. by destruct b. Qed.

(** Every rule is an addition, a removal or a reset. *)
Lemma Apply_cases (e e' : Emulator) (r : Rule) :
  Apply e r = Ok e' ->
  e' = {| defaultAllow := Allow r; rules := None |} \/
  (exists d, cgroup_node (node (meta d)) /\ perms d = Permissions_ r /\
     meta d = mkMeta (Type_ r) (Major r) (Minor r) /\
     ((Allow r <> defaultAllow e /\ e' = addRule e d) \/
      (Allow r = defaultAllow e /\ rmRule e d = Ok e'))).
Proof.
  destruct r as [t ma mi p b]. unfold Apply, innerRule; cbn.
  destruct (CanCgroup t) eqn:Ht; cbn; [|done]. case_bool_decide as Hw.
  { destruct b; intros [= <-]; by left. }
  intros H. right. exists (mkDeviceRule (mkMeta t ma mi) p).
  split. { unfold CanCgroup in Ht. unfold cgroup_node. cbn.
    repeat case_bool_decide; try done; auto. }
  do 2 (split; [done|]).
  destruct b; unfold allow, deny in H; cbn [meta node] in H; rewrite bool_decide_eq_false_2 in H by done;
    destruct (defaultAllow e) eqn:Ed; unfold wrapErr in H; apply wrap_err_ok in H;
    inv_ok; auto.
Qed.

Lemma Apply_wf (e e' : Emulator) (r : Rule) :
  emu_wf e -> toSet (Permissions_ r) <> 0 -> Apply e r = Ok e' -> emu_wf e'.
Proof.
  intros W Hp H. apply Apply_cases in H as [-> | (d & Hn & Hd & _ & [[_ ->] | [_ Hr]])].
  - apply emu_wf_empty.
  - apply addRule_wf; [done|congruence|done].
  - apply rmRule_ok in Hr as (_ & _ & _ & Hw). auto.
Qed.

Lemma apply_rules_app (e : Emulator) (l1 l2 : list Rule) :
  apply_rules e (l1 ++ l2) = (e' ← apply_rules e l1; apply_rules e' l2).
Proof.
  revert e. induction l1 as [|r l1 IH]; intros e; [done|]. cbn.
  destruct (Apply e r); cbn; [apply IH|done].
Qed.

(** *** The kernel's side of a rule

    What a v1 devices cgroup does with a rule: a rule of the wildcard type
    resets it, a rule against the default adds to the entry of its device, a
    rule for the default takes from it.  Where [Apply] accepts the rule the two
    agree; [Apply] also refuses some removals, the kernel none. *)
Definition cgroup_write (e : Emulator) (allow_ : bool) (r : option deviceRule) : Emulator :=
  match r with
  | None => {| defaultAllow := allow_; rules := None |}
  | Some d => if Bool.eqb allow_ (defaultAllow e) then cgroup_rm e d else addRule e d
  end.

Definition cgroup_apply (e : Emulator) (r : Rule) : Emulator :=
  cgroup_write e (Allow r) (innerRule r).

Definition cgroup_replay (e : Emulator) (l : list Rule) : Emulator := foldl cgroup_apply e l.

Lemma Apply_cgroup (e e' : Emulator) (r : Rule) : Apply e r = Ok e' -> e' = cgroup_apply e r.
Proof.
  unfold Apply, cgroup_apply, cgroup_write, innerRule, allow, deny, wrapErr. destruct (negb _); [done|].
  destruct (bool_decide (Type_ r = WildcardDevice)) eqn:Ht; [by destruct (Allow r); intros [= <-]|].
  cbn [meta node]. rewrite Ht.
  destruct (Allow r), (defaultAllow e); cbn [Bool.eqb]; intros H;
    try (apply wrap_err_ok, rmRule_cgroup in H as [_ ->]; done); cbn in H; by inv_ok.
Qed.

Lemma apply_rules_replay (l : list Rule) (e e' : Emulator) :
  apply_rules e l = Ok e' -> e' = cgroup_replay e l.
Proof.
  revert e. induction l as [|r l IH]; intros e H; cbn in H; inv_ok; [done|].
  match goal with H' : Apply e r = Ok _ |- _ => apply Apply_cgroup in H' as -> end. by apply IH.
Qed.

Lemma cgroup_replay_app (e : Emulator) (l1 l2 : list Rule) :
  cgroup_replay e (l1 ++ l2) = cgroup_replay (cgroup_replay e l1) l2.
Proof. apply foldl_app. Qed.

Lemma cgroup_apply_rm (e : Emulator) (m : deviceMeta) (p : Permissions) :
  cgroup_node (node m) ->
  cgroup_apply e (metaRule m p (defaultAllow e)) = cgroup_rm e (mkDeviceRule m p).
Proof.
  intros Hn. destruct m as [n ma mi]. unfold cgroup_apply, cgroup_write, innerRule. cbn in *.
  rewrite bool_decide_eq_false_2 by (by destruct Hn as [-> | ->]). by rewrite Bool.eqb_reflx.
Qed.

(** *** The ordered entries *)

Fixpoint list_bits (l : list deviceRule) (m : deviceMeta) : Z :=
  match l with
  | [] => 0
  | r :: l' => if decide (meta r = m) then toSet (perms r) else list_bits l' m
  end.

Lemma list_bits_in (l : list deviceRule) (r : deviceRule) :
  NoDup (map meta l) -> r ∈ l -> list_bits l (meta r) = toSet (perms r).
Proof.
  induction l as [|x l IH]; cbn; [by intros _ ?%elem_of_nil|].
  intros [Hx Hl]%NoDup_cons [-> | Hr]%elem_of_cons; [by rewrite decide_True|].
  rewrite decide_False; [by apply IH|]. intros E. apply Hx. rewrite E.
  by apply (list_elem_of_fmap_2 meta).
Qed.

Lemma list_bits_notin (l : list deviceRule) (m : deviceMeta) :
  m ∉ map meta l -> list_bits l m = 0.
Proof.
  induction l as [|x l IH]; cbn; [done|]. intros [Hx Hl]%not_elem_of_cons.
  rewrite decide_False by congruence. auto.
Qed.

Lemma orderedEntries_perm (r : option deviceRules) :
  orderedEntries r ≡ₚ map (fun mp : deviceMeta * Permissions => mkDeviceRule mp.1 mp.2)
                         (map_to_list (rmap r)).
Proof. apply merge_sort_Permutation. Qed.

Lemma orderedEntries_elem (r : option deviceRules) (x : deviceRule) :
  x ∈ orderedEntries r <-> rmap r !! meta x = Some (perms x).
Proof.
  rewrite orderedEntries_perm, list_elem_of_fmap. split.
  - intros ([m p] & -> & H). by apply elem_of_map_to_list in H.
  - intros H. exists (meta x, perms x). split; [by destruct x|]. by apply elem_of_map_to_list.
Qed.

Lemma orderedEntries_NoDup (r : option deviceRules) : NoDup (map meta (orderedEntries r)).
Proof.
  rewrite orderedEntries_perm, map_map. cbn. apply NoDup_fst_map_to_list.
Qed.

Lemma list_bits_ordered (r : option deviceRules) (m : deviceMeta) :
  list_bits (orderedEntries r) m = toSet (rules_get r m).
Proof.
  unfold rules_get. destruct (rmap r !! m) as [p|] eqn:E; cbn.
  - apply (list_bits_in _ (mkDeviceRule m p)); [apply orderedEntries_NoDup|].
    by apply orderedEntries_elem.
  - apply list_bits_notin. intros (x & Hm & Hx)%list_elem_of_fmap.
    apply orderedEntries_elem in Hx. rewrite <- Hm, E in Hx. done.
Qed.

Lemma orderedEntries_sorted (r : option deviceRules) : Sorted rule_le (orderedEntries r).
Proof.
  apply Sorted_merge_sort. intros [[n1 a1 b1] p1] [[n2 a2 b2] p2].
  unfold rule_le, meta_le. cbn. lia.
Qed.
