(* ===== verification/DeviceEmulatorThms.v ===== *)
(** * Theorems on the devices-cgroup emulator

    What the emulator promises its two clients, the cgroup-v1 writer and the
    eBPF compiler: its states stay well formed, a transition replayed rule by
    rule reaches the target, [Rules] rebuilds the state from a deny-all cgroup,
    a removal that succeeds really removes access, and rules survive the round
    trip through their text form. *)

From S2P Require Import Prelude GoStrings Devices DeviceEmulator.

Open Scope string_scope.
Open Scope list_scope.
Open Scope Z_scope.

(** ** Replaying the two loops of [Transition] *)

Definition diffRule (other : option deviceRules) (a : bool) (r : deviceRule) : option Rule :=
  let d := Difference (perms r) (rules_get other (meta r)) in
  if perms_IsEmpty d then None else Some (metaRule (meta r) d a).

Lemma diffRules_omap (from other : option deviceRules) (a : bool) :
  diffRules from other a = omap (diffRule other a) (orderedEntries from).
Proof. done. Qed.

(** The added loop: every exception gains the missing permissions. *)
Lemma add_loop (other : option deviceRules) (l : list deviceRule) (e : Emulator) :
  NoDup (map meta l) -> Forall (fun r => cgroup_node (node (meta r))) l -> emu_wf e ->
  exists e', apply_rules e (omap (diffRule other (negb (defaultAllow e))) l) = Ok e' /\
    defaultAllow e' = defaultAllow e /\ emu_wf e' /\
    forall m, emu_bits e' m =
      Z.lor (emu_bits e m) (and_not (list_bits l m) (toSet (rules_get other m))).
Proof.
  revert e. induction l as [|r l IH]; intros e ND HN W; cbn [map list_bits] in *.
  { exists e. do 3 (split; [done|]). intros m. by rewrite Z.lor_0_r. }
  apply NoDup_cons in ND as [Hr ND]. apply Forall_cons in HN as [Hn HN].
  cbn [omap list_omap]. unfold diffRule at 1, perms_IsEmpty.
  case_bool_decide as Hd; cbn [list_omap].
  - destruct (IH e ND HN W) as (e' & -> & Hdef & W' & Hb). exists e'. do 3 (split; [done|]).
    intros m. rewrite Hb. case_decide; [subst m|done].
    rewrite list_bits_notin by done. apply Difference_empty_iff in Hd. rewrite Hd. by Zbits.
  - cbn [apply_rules]. rewrite Apply_add by done. cbn.
    set (e1 := addRule e (mkDeviceRule (meta r) (Difference (perms r) (rules_get other (meta r))))).
    destruct (IH e1 ND HN) as (e' & HR & Hdef & W' & Hb).
    { apply addRule_wf; cbn; [done| |done]. rewrite toSet_Difference.
      by rewrite <- Difference_empty_iff. }
    exists e'. split; [exact HR|]. do 2 (split; [done|]).
    intros m. rewrite Hb. unfold e1. rewrite addRule_bits. cbn [meta perms].
    case_decide; [subst m|done].
    rewrite list_bits_notin, toSet_Difference by done. by Zbits.
Qed.

(** No exception shares permissions with a wildcard exception that also matches. *)
Definition no_overlap (e : Emulator) : Prop :=
  forall m pm, pm ∈ partialMetas m -> pm <> m -> Z.land (emu_bits e pm) (emu_bits e m) = 0.

Lemma land_0_mono (a b a' b' : Z) :
  Z.land a b = 0 -> and_not a' a = 0 -> and_not b' b = 0 -> Z.land a' b' = 0.
Proof.
  unfold and_not. intros H Ha Hb. apply Z.bits_inj'. intros n Hn. rewrite Z.bits_0.
  apply (f_equal (fun z => Z.testbit z n)) in H, Ha, Hb.
  rewrite ?Z.land_spec, ?Z.ldiff_spec, ?Z.bits_0 in *.
  destruct (Z.testbit a n), (Z.testbit b n), (Z.testbit a' n), (Z.testbit b' n); done.
Qed.

Lemma no_hole (e : Emulator) (m : deviceMeta) (d : Permissions) :
  no_overlap e -> and_not (toSet d) (emu_bits e m) = 0 ->
  existsb (punches_hole e (mkDeviceRule m d)) (partialMetas m) = false.
Proof.
  intros NO Hd. apply not_true_iff_false. rewrite existsb_exists. intros (pm & Hin & Hp).
  apply list_elem_of_In in Hin. unfold punches_hole, perms_IsEmpty in Hp. cbn in Hp. bool_props.
  apply H0, Intersection_empty_iff. eapply land_0_mono; [by apply (NO m pm); eauto| |exact Hd].
  unfold and_not, emu_bits. apply Z.ldiff_diag.
Qed.

Lemma and_not_sub (a b : Z) : and_not (and_not a b) a = 0.
Proof. by Zbits. Qed.

(** The removal loop on the kernel: every exception of [l] loses the dropped
    permissions, whatever other exceptions there are. *)
Lemma rm_loop (other : option deviceRules) (l : list deviceRule) (e : Emulator) :
  NoDup (map meta l) -> Forall (fun r => cgroup_node (node (meta r))) l -> emu_wf e ->
  exists e', cgroup_replay e (omap (diffRule other (defaultAllow e)) l) = e' /\
    defaultAllow e' = defaultAllow e /\ emu_wf e' /\
    forall m, emu_bits e' m =
      and_not (emu_bits e m) (and_not (list_bits l m) (toSet (rules_get other m))).
Proof.
  revert e. induction l as [|r l IH]; intros e ND HN W; cbn [map list_bits] in *.
  { exists e. do 3 (split; [done|]). intros m. by Zbits. }
  apply NoDup_cons in ND as [Hr ND]. apply Forall_cons in HN as [Hn HN].
  cbn [omap list_omap]. unfold diffRule at 1, perms_IsEmpty.
  case_bool_decide as Hd; cbn [list_omap].
  - destruct (IH e ND HN W) as (e' & -> & Hdef & W' & Hb). exists e'. do 3 (split; [done|]).
    intros m. rewrite Hb. case_decide; [subst m|done].
    rewrite list_bits_notin by done. apply Difference_empty_iff in Hd. rewrite Hd. by Zbits.
  - cbn [cgroup_replay foldl]. rewrite !cgroup_apply_rm by done.
    set (d := Difference (perms r) (rules_get other (meta r))) in *.
    destruct (IH (cgroup_rm e (mkDeviceRule (meta r) d)) ND HN) as (e' & HR & Hdef & W' & Hb);
      [by apply cgroup_rm_wf|].
    exists e'. split; [exact HR|]. do 2 (split; [done|]). intros m.
    rewrite Hb, cgroup_rm_bits. cbn [meta perms].
    case_decide; [subst m|done].
    rewrite list_bits_notin by done. unfold d. rewrite toSet_Difference. by Zbits.
Qed.

Lemma no_overlap_rm (e : Emulator) (d : deviceRule) : no_overlap e -> no_overlap (cgroup_rm e d).
Proof.
  intros NO m pm Hin Hne. eapply land_0_mono; [by apply (NO m pm)| |];
    rewrite cgroup_rm_bits; case_decide; subst; unfold and_not; try apply Z.ldiff_diag; by Zbits.
Qed.

(** Without overlapping exceptions the emulator accepts the removal loop. *)
Lemma rm_loop_accepted (other : option deviceRules) (l : list deviceRule) (e : Emulator) :
  NoDup (map meta l) ->
  Forall (fun r => cgroup_node (node (meta r)) /\ emu_bits e (meta r) = toSet (perms r)) l ->
  no_overlap e ->
  exists e', apply_rules e (omap (diffRule other (defaultAllow e)) l) = Ok e'.
Proof.
  revert e. induction l as [|r l IH]; intros e ND HN NO; cbn [map] in *; [by eexists|].
  apply NoDup_cons in ND as [Hr ND]. apply Forall_cons in HN as [[Hn Hbr] HN].
  cbn [omap list_omap]. unfold diffRule at 1, perms_IsEmpty.
  case_bool_decide as Hd; cbn [list_omap]; [by apply IH|].
  set (d := Difference (perms r) (rules_get other (meta r))) in *. cbn [apply_rules].
  destruct (Apply_rm e (meta r) d Hn) as [t ->].
  destruct (rmRule e (mkDeviceRule (meta r) d)) as [e1|err] eqn:Hrm; cbn.
  2: { exfalso. revert Hrm. unfold rmRule. rewrite no_hole; [by destruct (perms_IsEmpty _)|done|].
       unfold d. cbn [meta]. rewrite toSet_Difference, Hbr. apply and_not_sub. }
  apply rmRule_cgroup in Hrm as [_ ->]. apply (IH (cgroup_rm e (mkDeviceRule (meta r) d)) ND).
  - rewrite Forall_forall in HN |- *. intros x Hx. destruct (HN x Hx) as [Hxn Hxb].
    split; [done|]. rewrite cgroup_rm_bits, decide_False; [done|]. cbn. intros E. apply Hr. rewrite E.
    by apply (list_elem_of_fmap_2 meta).
  - by apply no_overlap_rm.
Qed.

Lemma wf_nodes (e : Emulator) :
  emu_wf e -> Forall (fun r => cgroup_node (node (meta r))) (orderedEntries (rules e)).
Proof.
  intros W. apply Forall_forall. intros r Hr%orderedEntries_elem. by apply W in Hr as (_ & _ & ?).
Qed.

Definition transition_rules (source target : Emulator) : list Rule :=
  match Transition source target with Ok l => l | Err _ => [] end.

Lemma Transition_returns (source target : Emulator) :
  Transition source target = Ok (transition_rules source target).
Proof. done. Qed.

(** The kernel reaches the target, whatever the source. *)
Lemma transition_replay (source target : Emulator) :
  emu_wf source -> emu_wf target -> cgroup_replay source (transition_rules source target) ≡ target.
Proof.
  intros WS WT. unfold transition_rules, Transition.
  destruct (IsBlacklist source || _) eqn:Hdis.
  - destruct (add_loop None (orderedEntries (rules target))
                {| defaultAllow := defaultAllow target; rules := None |})
      as (e' & HR & Hd & W' & Hb);
      [apply orderedEntries_NoDup|by apply wf_nodes|apply emu_wf_empty|].
    cbn [app]. apply apply_rules_replay in HR.
    change (cgroup_replay source _) with
      (cgroup_replay {| defaultAllow := defaultAllow target; rules := None |}
         (omap (diffRule None (negb (defaultAllow target))) (orderedEntries (rules target)))).
    cbn [defaultAllow] in HR. rewrite <- HR. apply emu_ext; [done|done|done|]. intros m.
    rewrite Hb, emu_bits_empty, list_bits_ordered, rules_get_nil. unfold emu_bits.
    change (toSet "") with 0. by Zbits.
  - apply orb_false_iff in Hdis as [Hbl Heq%negb_false_iff%eqb_prop].
    destruct (rm_loop (rules target) (orderedEntries (rules source)) source)
      as (e1 & HR1 & Hd1 & W1 & Hb1); [apply orderedEntries_NoDup|by apply wf_nodes|done|].
    cbn [app]. rewrite cgroup_replay_app, !diffRules_omap, <- Heq, HR1.
    destruct (add_loop (rules source) (orderedEntries (rules target)) e1)
      as (e' & HR & Hd & W' & Hb); [apply orderedEntries_NoDup|by apply wf_nodes|done|].
    apply apply_rules_replay in HR. rewrite Hd1 in HR. rewrite <- HR.
    apply emu_ext; [done|done|congruence|]. intros m.
    rewrite Hb, Hb1, !list_bits_ordered. unfold emu_bits. by Zbits.
Qed.

(** The emulator accepts the replay from a deny-list and from an allow-list
    without overlapping exceptions. *)
Lemma transition_accepted (source target : Emulator) :
  emu_wf source -> emu_wf target -> IsBlacklist source = true \/ no_overlap source ->
  exists e', apply_rules source (transition_rules source target) = Ok e'.
Proof.
  intros WS WT NO. unfold transition_rules, Transition.
  destruct (IsBlacklist source || _) eqn:Hdis.
  - destruct (add_loop None (orderedEntries (rules target))
                {| defaultAllow := defaultAllow target; rules := None |}) as (e' & HR & _);
      [apply orderedEntries_NoDup|by apply wf_nodes|apply emu_wf_empty|].
    exists e'. unfold disruptiveRule. cbn [app apply_rules]. rewrite Apply_wildcard. exact HR.
  - apply orb_false_iff in Hdis as [Hbl Heq%negb_false_iff%eqb_prop]. destruct NO as [NO|NO]; [congruence|].
    destruct (rm_loop_accepted (rules target) (orderedEntries (rules source)) source) as (e1 & HR1);
      [apply orderedEntries_NoDup| |done|].
    { apply Forall_forall. intros r Hr%orderedEntries_elem. split; [by apply WS in Hr as (_ & _ & ?)|].
      unfold emu_bits, rules_get. by rewrite Hr. }
    destruct (rm_loop (rules target) (orderedEntries (rules source)) source)
      as (e1' & HR1' & Hd1 & W1 & _); [apply orderedEntries_NoDup|by apply wf_nodes|done|].
    rewrite <- (apply_rules_replay _ _ _ HR1) in HR1'. subst e1'.
    destruct (add_loop (rules source) (orderedEntries (rules target)) e1) as (e' & HR & _);
      [apply orderedEntries_NoDup|by apply wf_nodes|done|].
    exists e'. cbn [app]. rewrite apply_rules_app, !diffRules_omap, <- Heq, HR1. cbn [mbind result_bind].
    rewrite <- Hd1. exact HR.
Qed.

(** ** Properties *)

(** C1.  Transition correctness, for every pair of well-formed emulators:
    [Transition] returns rules which, written one by one to a v1 devices cgroup
    in the source state (where a removal takes permissions from the entry of
    exactly that device), bring it to the target; when the emulator itself
    accepts the rules in that order it reaches the target too, and it accepts
    them when the source is a deny-list or an allow-list in which no exception
    shares permissions with a wildcard exception that also matches it.  (runc's
    default rules, c *:* m next to c 1:3 rwm, overlap: there the emulator may
    refuse the replay, [default_rules_refused], and the kernel does not.) *)
Theorem Transition_reaches_target (source target : Emulator) :
  emu_wf source -> emu_wf target ->
  exists l, Transition source target = Ok l /\
    cgroup_replay source l ≡ target /\
    (forall e', apply_rules source l = Ok e' -> e' ≡ target) /\
    (IsBlacklist source = true \/ no_overlap source -> exists e', apply_rules source l = Ok e').
Proof.
  intros WS WT. exists (transition_rules source target). split; [done|].
  pose proof (transition_replay source target WS WT) as HR. split; [exact HR|]. split.
  - intros e' ->%apply_rules_replay. exact HR.
  - by apply transition_accepted.
Qed.

(** A whitelist to whitelist transition that drops, keeps and adds permissions. *)
Definition wit_source : Emulator :=
  {| defaultAllow := false;
     rules := Some (<[mkMeta CharDevice 1 3 := "rwm"]>
                    (<[mkMeta BlockDevice 8 Wildcard := "r"]> ∅)) |}.
Definition wit_target : Emulator :=
  {| defaultAllow := false;
     rules := Some (<[mkMeta CharDevice 1 3 := "r"]>
                    (<[mkMeta CharDevice 5 Wildcard := "rw"]> ∅)) |}.

Lemma wit_source_wf : emu_wf wit_source.
Proof.
  apply map_Forall_insert_2; [by vm_compute; intuition|].
  apply map_Forall_insert_2; [by vm_compute; intuition|apply map_Forall_empty].
Qed.

Lemma wit_target_wf : emu_wf wit_target.
Proof.
  apply map_Forall_insert_2; [by vm_compute; intuition|].
  apply map_Forall_insert_2; [by vm_compute; intuition|apply map_Forall_empty].
Qed.

Lemma wit_source_no_overlap : no_overlap wit_source.
Proof.
  intros m pm Hpm Hne. unfold emu_bits, rules_get, wit_source, rmap. cbn [rules from_option id].
  rewrite !lookup_insert, !lookup_empty.
  unfold partialMetas in Hpm. rewrite !elem_of_cons, elem_of_nil in Hpm.
  destruct m as [n a b]. cbn in Hpm. unfold Wildcard in *.
  repeat case_decide; simplify_eq; destruct_or?; simplify_eq; try done.
Qed.

Lemma Transition_reaches_target_witness :
  exists l e', Transition wit_source wit_target = Ok l /\ cgroup_replay wit_source l ≡ wit_target /\
    apply_rules wit_source l = Ok e' /\ e' ≡ wit_target.
Proof.
  destruct (Transition_reaches_target wit_source wit_target wit_source_wf wit_target_wf)
    as (l & HT & HR & Hacc & Hex).
  destruct Hex as [e' He']; [right; exact wit_source_no_overlap|].
  exists l, e'. split; [exact HT|]. split; [exact HR|]. split; [exact He'|]. exact (Hacc e' He').
Defined.

Example Transition_wit_rules :
  Transition wit_source wit_target = Ok
    [ metaRule (mkMeta CharDevice 1 3) "wm" false;
      metaRule (mkMeta BlockDevice 8 Wildcard) "r" false;
      metaRule (mkMeta CharDevice 5 Wildcard) "rw" true ].
Proof. vm_compute. reflexivity. Qed.

(**  [Rules] is a faithful serialisation: replayed on a deny-all cgroup, the
    rules of a well-formed emulator rebuild it. *)
Theorem Rules_replay (e : Emulator) :
  emu_wf e ->
  exists l e', Rules e = Ok l /\ apply_rules emptyEmulator l = Ok e' /\ e' ≡ e.
Proof.
  intros W. assert (emu_wf emptyEmulator) as WE by apply emu_wf_empty.
  destruct (transition_accepted emptyEmulator e WE W) as [e' He'].
  { right. intros m pm _ _. unfold emptyEmulator. by rewrite !emu_bits_empty. }
  exists (transition_rules emptyEmulator e), e'. do 2 (split; [done|]).
  rewrite (apply_rules_replay _ _ _ He'). by apply transition_replay.
Qed.

(** Overlapping exceptions, as in runc's default rules: taking char 1:3 away
    while c *:* m stays is refused by the emulator and done by the kernel. *)
Definition default_like : Emulator :=
  {| defaultAllow := false;
     rules := Some (<[mkMeta CharDevice 1 3 := "rwm"]>
                    (<[mkMeta CharDevice Wildcard Wildcard := "m"]> ∅)) |}.
Definition mknod_only : Emulator :=
  {| defaultAllow := false; rules := Some (<[mkMeta CharDevice Wildcard Wildcard := "m"]> ∅) |}.

Theorem default_rules_refused :
  Transition default_like mknod_only = Ok [metaRule (mkMeta CharDevice 1 3) "rwm" false] /\
  (exists err, apply_rules default_like [metaRule (mkMeta CharDevice 1 3) "rwm" false] = Err err) /\
  cgroup_replay default_like [metaRule (mkMeta CharDevice 1 3) "rwm" false] = mknod_only.
Proof. vm_compute. split; [done|]. split; [by eexists|done]. Qed.

Lemma Rules_replay_witness :
  emu_wf wit_target /\
  exists l e', Rules wit_target = Ok l /\ apply_rules emptyEmulator l = Ok e' /\ e' ≡ wit_target.
Proof. split; [exact wit_target_wf|]. apply (Rules_replay wit_target). exact wit_target_wf. Defined.

(**  Well-formedness is an invariant of rule application: from a well-formed
    emulator, any sequence of rules that each name at least one permission
    leads, when accepted, to a well-formed emulator (canonical non-empty
    permissions, block or char entries only). *)
Theorem apply_rules_wf (l : list Rule) (e e' : Emulator) :
  emu_wf e -> Forall (fun r => toSet (Permissions_ r) <> 0) l ->
  apply_rules e l = Ok e' -> emu_wf e'.
Proof.
  intros W Hl. revert e W. induction Hl as [|r l Hr _ IH]; intros e W H; cbn in H; inv_ok; [done|].
  eapply IH; [|done]. by eapply Apply_wf.
Qed.

Definition wit_rules : list Rule :=
  [ {| Type_ := WildcardDevice; Major := -1; Minor := -1; Permissions_ := "rwm"; Allow := false |};
    metaRule (mkMeta CharDevice 1 3) "mr" true;
    metaRule (mkMeta BlockDevice 8 Wildcard) "rw" true;
    metaRule (mkMeta CharDevice 1 3) "m" false ].

Definition wit_built : Emulator :=
  {| defaultAllow := false;
     rules := Some (<[mkMeta CharDevice 1 3 := "r"]>
                    (<[mkMeta BlockDevice 8 Wildcard := "rw"]> ∅)) |}.

Lemma apply_rules_wf_witness :
  apply_rules emptyEmulator wit_rules = Ok wit_built /\ emu_wf wit_built.
Proof.
  assert (apply_rules emptyEmulator wit_rules = Ok wit_built) as H by (vm_compute; reflexivity).
  split; [exact H|]. apply (apply_rules_wf wit_rules emptyEmulator wit_built); [..|exact H].
  - apply emu_wf_empty.
  - repeat constructor; vm_compute; discriminate.
Defined.

(** ** A removal that is accepted takes the access away *)

Lemma matching_metas (m : deviceMeta) (t ma mi a : Z) :
  meta_matches m (mkRequest t ma mi a) = true ->
  m = mkMeta t ma mi \/ m ∈ partialMetas (mkMeta t ma mi).
Proof.
  destruct m as [n x y]. unfold meta_matches, partialMetas. cbn. intros H. bool_props. subst.
  apply orb_true_iff in H1 as [?%bool_decide_eq_true_1 | ?%bool_decide_eq_true_1];
    apply orb_true_iff in H0 as [?%bool_decide_eq_true_1 | ?%bool_decide_eq_true_1]; subst;
    rewrite !elem_of_cons; auto.
Qed.

Lemma exception_hit_iff (e : Emulator) (q : request) :
  exception_hit e q = true <->
  exists m p, rmap (rules e) !! m = Some p /\ meta_matches m q = true /\ covers p (rq_access q) = true.
Proof.
  unfold exception_hit. rewrite existsb_exists. split.
  - intros ([m p] & Hin & H). bool_props. exists m, p. split; [|done].
    by apply elem_of_map_to_list, list_elem_of_In.
  - intros (m & p & Hin & Hm & Hc). exists (m, p). cbn [fst snd]. rewrite Hm, Hc. split; [|done].
    by apply list_elem_of_In, elem_of_map_to_list.
Qed.

Lemma rmRule_no_overlap (e e' : Emulator) (r : deviceRule) (pm : deviceMeta) :
  rmRule e r = Ok e' -> pm = meta r \/ pm ∈ partialMetas (meta r) ->
  Z.land (emu_bits e' pm) (toSet (perms r)) = 0.
Proof.
  intros H Hpm. apply rmRule_ok in H as (Hh & _ & Hb & _). rewrite Hb. case_decide as Hd.
  { unfold and_not. apply Z.land_ldiff. }
  destruct Hpm as [->|Hpm]; [done|]. apply Intersection_empty_iff.
  destruct (decide (Intersection (rules_get (rules e) pm) (perms r) = "")) as [|Hne]; [done|].
  exfalso. apply not_true_iff_false in Hh. apply Hh, existsb_exists. exists pm.
  split; [by apply list_elem_of_In|]. unfold punches_hole, perms_IsEmpty.
  by rewrite !bool_decide_eq_false_2.
Qed.

(** C2.  No false sense of security: when a rule that revokes permissions on a
    concrete device is accepted (an [Allow] equal to the default policy), every
    request on exactly that device that asks for one of those permissions gets
    the default answer, whatever wildcard exceptions the cgroup holds. *)
Theorem revoke_is_effective (e e' : Emulator) (r : Rule) (access : Z) :
  Type_ r <> WildcardDevice -> Allow r = defaultAllow e -> Apply e r = Ok e' ->
  Z.land access (toSet (Permissions_ r)) <> 0 ->
  emu_decision e' (mkRequest (Type_ r) (Major r) (Minor r) access) = defaultAllow e'.
Proof.
  intros Ht Ha H Hacc. unfold emu_decision.
  destruct (exception_hit _ _) eqn:Hhit; [|by destruct (defaultAllow e')]. exfalso.
  apply exception_hit_iff in Hhit as (m & p & Hm & Hmatch%matching_metas & Hcov).
  cbn [rq_access] in Hcov.
  destruct (CanCgroup (Type_ r)) eqn:Hc; [|unfold Apply in H; by rewrite Hc in H].
  assert (cgroup_node (Type_ r)) as Hn.
  { unfold CanCgroup in Hc. unfold cgroup_node. repeat case_bool_decide; try done; auto. }
  destruct (Apply_rm e (mkMeta (Type_ r) (Major r) (Minor r)) (Permissions_ r) Hn) as [t HA].
  rewrite <- Ha in HA. replace (metaRule _ _ _) with r in HA by (by destruct r).
  rewrite HA in H. apply wrap_err_ok in H.
  apply (rmRule_no_overlap _ _ _ m) in H; [|exact Hmatch].
  unfold emu_bits, rules_get in H. rewrite Hm in H. cbn [from_option id perms] in H.
  apply Z.eqb_eq in Hcov. apply Hacc. rewrite <- Hcov, <- Z.land_assoc, H. apply Z.land_0_r.
Qed.

Lemma revoke_is_effective_witness :
  exists e', Apply wit_source (metaRule (mkMeta CharDevice 1 3) "w" false) = Ok e' /\
    emu_decision e' (mkRequest CharDevice 1 3 3) = defaultAllow e'.
Proof.
  eexists. split; [vm_compute; reflexivity|].
  apply (revoke_is_effective wit_source _ (metaRule (mkMeta CharDevice 1 3) "w" false) 3);
    vm_compute; [discriminate|reflexivity|reflexivity|discriminate].
Defined.

(** ** Rules as text *)

Definition number_ok (n : Z) : Prop := n = Wildcard \/ 0 <= n <= max_uint32.

Lemma number_no_sep (n : Z) :
  number_ok n -> str_forall (fun a => negb (line_sep a)) (format_number n) = true.
Proof.
  unfold format_number. intros [-> | Hn]; [reflexivity|].
  rewrite bool_decide_eq_false_2 by (unfold Wildcard; lia). rewrite format_int_nonneg by lia.
  apply (str_forall_impl is_digit); [|apply digits_pretty_N].
  intros c Hc. unfold line_sep. rewrite !bool_decide_eq_false_2; [done| |]; by intros ->.
Qed.

Lemma number_not_empty (n : Z) : number_ok n -> format_number n <> "".
Proof.
  unfold format_number. intros [-> | Hn]; [done|].
  rewrite bool_decide_eq_false_2 by (unfold Wildcard; lia). rewrite format_int_nonneg by lia.
  apply pretty_N_not_empty.
Qed.

Lemma parse_format_number (n : Z) (what : string) :
  number_ok n -> parse_number (format_number n) what = Ok n.
Proof.
  unfold parse_number, format_number. intros [-> | Hn]; [reflexivity|].
  rewrite (bool_decide_eq_false_2 (n = _)) by (unfold Wildcard; lia).
  rewrite bool_decide_eq_false_2.
  - rewrite parse_uint_format_int; [done|]. unfold max_uint32 in Hn. lia.
  - intros E. rewrite format_int_nonneg in E by lia.
    pose proof (digits_pretty_N (Z.to_N n)) as D. rewrite E in D. done.
Qed.

Lemma fields_rule (f : ascii -> bool) (a b c d : string) (s1 s2 s3 : ascii) :
  Forall (fun w => str_forall (fun x => negb (f x)) w = true /\ w <> "") [a; b; c; d] ->
  f s1 = true -> f s2 = true -> f s3 = true ->
  fields_func f (a +:+ String s1 "" +:+ b +:+ String s2 "" +:+ c +:+ String s3 "" +:+ d) = [a; b; c; d].
Proof.
  intros HF H1 H2 H3. repeat (apply Forall_cons in HF as [[? ?] HF]). unfold fields_func.
  rewrite !app_cons, !app_empty_l, !split_func_sep, split_func_none by done.
  by rewrite !filter_cons_True.
Qed.

Lemma canonical_no_sep (p : Permissions) :
  canonical p -> str_forall (fun a => negb (line_sep a)) p = true.
Proof.
  intros ->. pose proof (mask_toSet p) as H. apply mask_cases in H.
  destruct_or!; rewrite H; reflexivity.
Qed.

(**  Round trip: the line [CgroupString] writes for a block or char rule with
    valid numbers and permissions is read back by [parseLine] as that rule. *)
Theorem parseLine_CgroupString (r : Rule) :
  cgroup_node (Type_ r) -> number_ok (Major r) -> number_ok (Minor r) ->
  perms_IsValid (Permissions_ r) = true -> perms_IsEmpty (Permissions_ r) = false ->
  parseLine (CgroupString r) =
    Ok (Some (mkDeviceRule (mkMeta (Type_ r) (Major r) (Minor r)) (Permissions_ r))).
Proof.
  destruct r as [t ma mi p b]. cbn [Type_ Major Minor Permissions_].
  intros Ht Hma Hmi Hv He. unfold parseLine, CgroupString. cbn [Type_ Major Minor Permissions_].
  pose proof (proj1 (perms_IsValid_iff p) Hv) as Hc.
  assert (p <> "") as Hp by (by apply bool_decide_eq_false_1 in He).
  change (fields_func line_sep _) with
    (fields_func line_sep (format_rune t +:+ String ch_space "" +:+ format_number ma
       +:+ String ch_colon "" +:+ format_number mi +:+ String ch_space "" +:+ p)).
  rewrite (fields_rule line_sep (format_rune t) (format_number ma) (format_number mi) p
             ch_space ch_colon ch_space).
  - rewrite !parse_format_number by done. rewrite Hv, He.
    destruct Ht as [-> | ->]; reflexivity.
  - repeat constructor; auto using number_no_sep, number_not_empty, canonical_no_sep;
      by destruct Ht as [-> | ->].
  - reflexivity.
  - reflexivity.
  - reflexivity.
Qed.

Lemma parseLine_CgroupString_witness :
  parseLine (CgroupString (metaRule (mkMeta CharDevice 5 Wildcard) "rw" true))
  = Ok (Some (mkDeviceRule (mkMeta CharDevice 5 Wildcard) "rw")) /\
  CgroupString (metaRule (mkMeta CharDevice 5 Wildcard) "rw" true) = "c 5:* rw".
Proof.
  split; [|reflexivity].
  apply (parseLine_CgroupString (metaRule (mkMeta CharDevice 5 Wildcard) "rw" true)).
  - by right.
  - right. unfold max_uint32. cbn. lia.
  - by left.
  - reflexivity.
  - reflexivity.
Defined.
