(* ===== verification/CgroupDevices.v ===== *)
(** * The cgroup-v1 devices controller: [libcontainer/cgroups/fs/devices.go]

    [DevicesGroup.Set] reads the kernel's devices.list, computes a transition
    with the emulator, writes it rule by rule and reads the list again.  The
    kernel side is an interface, [DevicesCgroup], with the laws the code relies
    on ([DevicesCgroupLaws]: what devices.list shows and what a write to
    devices.allow or devices.deny does); the theorems hold for every kernel that
    satisfies them and [kernel_laws] shows that one does. *)

From S2P Require Import Prelude GoStrings Devices DeviceEmulator DeviceEmulatorThms.

Open Scope string_scope.
Open Scope list_scope.
Open Scope Z_scope.

#[global] Instance Emulator_eq_dec : EqDecision Emulator.
Proof. solve_decision. Defined.

(** ** The kernel interface: the files of one devices cgroup directory *)

Class DevicesCgroup (K : Type) := {
  read_list : K -> result string;
  write_file : K -> string -> string -> result K }.

(** ** The controller *)

Section DevicesGroup.
Context {K : Type} `{DevicesCgroup K}.

Definition loadEmulator (k : K) : result Emulator :=
  list ← read_list k; EmulatorFromList list.

Definition buildEmulator (rules : list Rule) : result Emulator :=
  apply_rules emptyEmulator rules.

Definition rule_file (r : Rule) : string :=
  if Allow r then "devices.allow" else "devices.deny".

(** The write loop: the kernel keeps the writes made before an error. *)
Fixpoint write_rules (k : K) (l : list Rule) : K * result unit :=
  match l with
  | [] => (k, Ok tt)
  | r :: l' =>
      match write_file k (rule_file r) (CgroupString r) with
      | Err e => (k, Err e)
      | Ok k' => write_rules k' l'
      end
  end.

Definition ErrNotPreciseTarget : error :=
  ErrNew "resulting devices cgroup doesn't precisely match target".
Definition ErrTargetMode : error :=
  ErrNew "resulting devices cgroup doesn't match target mode".

(** [reflect.DeepEqual] on emulators distinguishes a nil map from an empty one,
    as equality of [rules] does. *)
Definition final_check (target currentAfter : Emulator) : result unit :=
  if negb (IsBlacklist target) && negb (bool_decide (currentAfter = target))
  then Err ErrNotPreciseTarget
  else if negb (Bool.eqb (IsBlacklist target) (IsBlacklist currentAfter))
  then Err ErrTargetMode
  else Ok tt.

Definition Set_ (runningInUserNS skipDevices testingSkipFinalCheck : bool)
    (devices : list Rule) (k : K) : K * result unit :=
  if runningInUserNS || skipDevices then (k, Ok tt) else
  match (current ← loadEmulator k; target ← buildEmulator devices;
         transitionRules ← Transition current target; Ok (target, transitionRules)) with
  | Err e => (k, Err e)
  | Ok (target, transitionRules) =>
      match write_rules k transitionRules with
      | (k', Err e) => (k', Err e)
      | (k', Ok _) =>
          if testingSkipFinalCheck then (k', Ok tt)
          else (k', currentAfter ← loadEmulator k'; final_check target currentAfter)
      end
  end.

End DevicesGroup.

(** ** What the kernel promises *)

Definition rule_ok (r : Rule) : Prop :=
  (Type_ r = WildcardDevice /\ Major r = Wildcard /\ Minor r = Wildcard /\ Permissions_ r = "rwm") \/
  (cgroup_node (Type_ r) /\ number_ok (Major r) /\ number_ok (Minor r) /\
   canonical (Permissions_ r) /\ Permissions_ r <> "").

(** The numbers of the exceptions are wildcards or 32-bit. *)
Definition meta_fits (m : deviceMeta) : Prop := number_ok (major m) /\ number_ok (minor m).

Definition emu_fits (e : Emulator) : Prop :=
  emu_wf e /\ map_Forall (fun m _ => meta_fits m) (rmap (rules e)).

(** [emu_of] is the policy of a kernel state; [k_ok] the states of a cgroup whose
    files can be read and written and whose parent allows every device.
    devices.list shows an allow-list entry by entry and a deny-list only as
    "a *:* rwm"; a line written to devices.allow or devices.deny acts on the
    entry of exactly its device ([cgroup_apply]) and is never refused. *)
Class DevicesCgroupLaws (K : Type) `{DevicesCgroup K}
    (emu_of : K -> Emulator) (k_ok : K -> Prop) := {
  emu_of_fits : forall k, k_ok k -> emu_fits (emu_of k);
  read_ok : forall k, k_ok k ->
    exists text e, read_list k = Ok text /\ EmulatorFromList text = Ok e /\
      defaultAllow e = defaultAllow (emu_of k) /\
      (defaultAllow e = false -> e ≡ emu_of k);
  write_ok : forall k r, k_ok k -> rule_ok r ->
    exists k', write_file k (rule_file r) (CgroupString r) = Ok k' /\
      emu_of k' ≡ cgroup_apply (emu_of k) r /\ k_ok k' }.

(** ** Lemmas: operations respect the equivalence *)

Lemma emu_equiv_get (e1 e2 : Emulator) (m : deviceMeta) :
  e1 ≡ e2 -> rules_get (rules e1) m = rules_get (rules e2) m.
Proof. intros [_ H]. unfold rules_get. by rewrite H. Qed.

Lemma rmap_delete (m : deviceMeta) (r : option deviceRules) :
  rmap (delete m <$> r) = delete m (rmap r).
Proof. destruct r; cbn; [done|]. by rewrite delete_empty. Qed.

#[global] Instance cgroup_rm_proper : Proper ((≡) ==> (=) ==> (≡)) cgroup_rm.
Proof.
  intros e1 e2 Heq r ? <-. pose proof (emu_equiv_get e1 e2 (meta r) Heq) as Hg.
  destruct Heq as [Hd Hr]. unfold cgroup_rm, perms_IsEmpty. rewrite Hg. split; cbn [defaultAllow rules]; [done|].
  case_bool_decide as He; [by rewrite !rmap_delete, Hr|].
  destruct (rules e1) as [m1|], (rules e2) as [m2|]; cbn in *; [by rewrite Hr| | |done].
  - exfalso. apply He. by rewrite rules_get_nil.
  - exfalso. apply He. by rewrite <- Hg, rules_get_nil.
Qed.

#[global] Instance cgroup_apply_proper : Proper ((≡) ==> (=) ==> (≡)) cgroup_apply.
Proof.
  intros e1 e2 Heq r ? <-. unfold cgroup_apply, cgroup_write. destruct (innerRule r) as [d|]; [|done].
  rewrite <- (proj1 Heq). destruct (Bool.eqb _ _); [by rewrite Heq|].
  split; cbn; [apply Heq|]. by rewrite (proj2 Heq), (emu_equiv_get e1 e2).
Qed.

#[global] Instance cgroup_replay_proper : Proper ((≡) ==> (=) ==> (≡)) cgroup_replay.
Proof.
  intros e1 e2 Heq l ? <-. revert e1 e2 Heq. induction l as [|r l IH]; intros e1 e2 Heq; [done|].
  cbn. apply IH. by rewrite Heq.
Qed.

(** ** Lemmas: emulators whose numbers fit *)

(** A rule of a container configuration: it names permissions and its numbers
    are wildcards or 32-bit. *)
Definition input_ok (r : Rule) : Prop :=
  toSet (Permissions_ r) <> 0 /\ number_ok (Major r) /\ number_ok (Minor r).

Lemma emu_fits_empty (b : bool) : emu_fits {| defaultAllow := b; rules := None |}.
Proof. split; [apply emu_wf_empty|apply map_Forall_empty]. Qed.

Lemma Apply_fits (e e' : Emulator) (r : Rule) :
  emu_fits e -> input_ok r -> Apply e r = Ok e' -> emu_fits e'.
Proof.
  intros [W F] (Hp & Hma & Hmi) H. split; [by eapply Apply_wf|].
  apply Apply_cases in H as [-> | (d & Hn & Hd & Hm & [[_ ->] | [_ Hr]])].
  - apply map_Forall_empty.
  - apply map_Forall_insert_2; [|done]. rewrite Hm. by split.
  - unfold rmRule in Hr. destruct (existsb _ _); [done|]. destruct (perms_IsEmpty _); inv_ok; cbn.
    + rewrite rmap_delete. by apply map_Forall_delete.
    + destruct (rules e) as [rs|] eqn:E; cbn in *; [|apply map_Forall_empty].
      apply map_Forall_insert_2; [|done]. rewrite Hm. by split.
Qed.

Lemma cgroup_apply_fits (e : Emulator) (r : Rule) :
  emu_fits e -> rule_ok r -> emu_fits (cgroup_apply e r).
Proof.
  intros [W F] [(Ht & _) | (Ht & Hma & Hmi & Hc & Hne)]; unfold cgroup_apply, cgroup_write, innerRule.
  { rewrite bool_decide_eq_true_2 by done. apply emu_fits_empty. }
  rewrite bool_decide_eq_false_2 by (by destruct Ht as [-> | ->]).
  destruct (Bool.eqb _ _); split.
  - by apply cgroup_rm_wf.
  - unfold cgroup_rm. cbn. destruct (rules e) as [rs|]; cbn in *; [|done].
    destruct (perms_IsEmpty _); [by apply map_Forall_delete|by apply map_Forall_insert_2].
  - apply addRule_wf; [done| |done]. cbn. intros E. by apply canonical_empty_iff in E.
  - by apply map_Forall_insert_2.
Qed.

Lemma apply_rules_fits (l : list Rule) (e e' : Emulator) :
  emu_fits e -> Forall input_ok l -> apply_rules e l = Ok e' -> emu_fits e'.
Proof.
  intros W Hl. revert e W. induction Hl as [|r l Hr _ IH]; intros e W H; cbn in H; inv_ok; [done|].
  eapply IH; [|done]. by eapply Apply_fits.
Qed.

Lemma diffRules_ok (from other : Emulator) (o : option deviceRules) (a : bool) :
  emu_fits from -> Forall rule_ok (diffRules (rules from) o a).
Proof.
  intros [W F]. apply Forall_forall. intros r. rewrite diffRules_omap, list_elem_of_omap.
  intros (d & Hd%orderedEntries_elem & Hr). unfold diffRule, perms_IsEmpty in Hr.
  case_bool_decide as He; [done|]. injection Hr as <-. right. cbn.
  pose proof (W _ _ Hd) as (_ & _ & Hn). pose proof (F _ _ Hd) as [? ?].
  repeat split; auto. apply canonical_Difference.
Qed.

Lemma Transition_ok (source target : Emulator) (l : list Rule) :
  emu_fits source -> emu_fits target -> Transition source target = Ok l -> Forall rule_ok l.
Proof.
  intros WS WT. unfold Transition. intros [= <-]. destruct (_ || _).
  - rewrite !Forall_app. repeat split.
    + repeat constructor.
    + by apply (diffRules_ok {| defaultAllow := false; rules := None |} target), emu_fits_empty.
    + by apply (diffRules_ok target source).
  - rewrite !Forall_app. repeat split; [constructor|by apply diffRules_ok..].
Qed.

Lemma Transition_source_equiv (e1 e2 target : Emulator) :
  defaultAllow e1 = defaultAllow e2 ->
  (defaultAllow e1 = false -> rmap (rules e1) = rmap (rules e2)) ->
  Transition e1 target = Transition e2 target.
Proof.
  intros Hd Hr. unfold Transition, IsBlacklist. rewrite <- Hd.
  destruct (defaultAllow e1) eqn:E1; [done|]. cbn. destruct (negb _); [done|].
  unfold diffRules, orderedEntries, rules_get. by rewrite Hr.
Qed.

(** *** What a list can be read as *)

(** A freshly read emulator never holds an empty non-nil map. *)
Definition read_shape (e : Emulator) : Prop :=
  (defaultAllow e = true -> rules e = None) /\ rules e <> Some ∅.

Lemma allow_shape (e e' : Emulator) (r : option deviceRule) :
  read_shape e -> allow e r = Ok e' -> read_shape e'.
Proof.
  intros [Hb Hs]. unfold allow, wrapErr. destruct r as [d|]; [|by intros [= <-]].
  case_bool_decide; [by intros [= <-]|]. destruct (defaultAllow e) eqn:E.
  - intros H'%wrap_err_ok. rewrite (Hb eq_refl) in *. unfold rmRule in H'.
    destruct (existsb _ _); [done|]. rewrite (Hb eq_refl) in H'.
    destruct (perms_IsEmpty _); by inv_ok.
  - cbn. intros [= <-]. split; cbn; [congruence|]. intros [= E']. by apply insert_non_empty in E'.
Qed.

Lemma EmulatorFromList_shape (text : string) (e : Emulator) :
  EmulatorFromList text = Ok e -> read_shape e.
Proof.
  unfold EmulatorFromList. generalize (scan_lines text) as lines.
  assert (read_shape emptyEmulator) as Hs by done. revert Hs. generalize emptyEmulator as e0.
  intros e0 Hs lines. revert e0 Hs. induction lines as [|x lines IH]; intros e0 Hs H; cbn in H; inv_ok; [done|].
  eapply IH; [|done]. by eapply allow_shape.
Qed.

Lemma shape_eq (e target : Emulator) :
  read_shape e -> e ≡ target -> rules target <> Some ∅ -> e = target.
Proof.
  destruct e as [d1 r1], target as [d2 r2]. unfold read_shape. cbn. intros [_ Hs] [Hd Hr] Ht.
  cbn in *. subst d2. f_equal. destruct r1, r2; cbn in *; subst; done.
Qed.

(** ** Properties *)

Section SetProps.
Context {K : Type} (emu_of : K -> Emulator) (k_ok : K -> Prop)
  `{DevicesCgroupLaws K emu_of k_ok}.

Lemma write_rules_ok (l : list Rule) (k : K) :
  k_ok k -> Forall rule_ok l ->
  exists k', write_rules k l = (k', Ok tt) /\ emu_of k' ≡ cgroup_replay (emu_of k) l /\ k_ok k'.
Proof.
  intros Hk Hl. revert k Hk. induction Hl as [|r l Hr _ IH]; intros k Hk; cbn.
  { by exists k. }
  destruct (write_ok k r Hk Hr) as (k1 & -> & Heq & Hk1).
  destruct (IH k1 Hk1) as (k' & -> & Hk' & Hok).
  exists k'. split; [done|]. split; [|done]. by rewrite Hk', Heq.
Qed.

(** Up to the final check, [Set_] brings the kernel to the target. *)
Lemma Set_writes (devices : list Rule) (k : K) (target : Emulator) :
  k_ok k -> Forall input_ok devices -> buildEmulator devices = Ok target ->
  exists k' e, (emu_of k' ≡ target) /\ k_ok k' /\ read_shape e /\
    defaultAllow e = defaultAllow target /\ (defaultAllow e = false -> e ≡ target) /\
    forall skip, Set_ false false skip devices k =
      (k', if skip then Ok tt else final_check target e).
Proof.
  intros Hk Hdev Hb. destruct (read_ok k Hk) as (text & cur & Hr & Hl & Hd & He).
  pose proof (emu_of_fits k Hk) as Hf.
  assert (emu_fits target) as Hft by (eapply apply_rules_fits; [apply emu_fits_empty|done..]).
  destruct (write_rules_ok (transition_rules (emu_of k) target) k) as (k' & Hw & Hk' & Hok);
    [done|by apply (Transition_ok (emu_of k) target)|].
  destruct (read_ok k' Hok) as (text' & e & Hr' & Hl' & Hd' & He').
  assert (emu_of k' ≡ target) as Hkt.
  { rewrite Hk'. apply transition_replay; [apply Hf|apply Hft]. }
  exists k', e. do 2 (split; [done|]). split; [by eapply EmulatorFromList_shape|].
  split; [rewrite Hd'; apply Hkt|]. split; [intros; by rewrite He'|].
  intros skip. unfold Set_, loadEmulator. cbn [orb]. rewrite Hr. cbn [mbind result_bind].
  rewrite Hl, Hb. cbn [mbind result_bind].
  rewrite (Transition_source_equiv cur (emu_of k)); [|done|intros ?; by apply He].
  rewrite Transition_returns. cbn [mbind result_bind]. rewrite Hw, Hr'. cbn [mbind result_bind]. rewrite Hl'.
  by destruct skip.
Qed.

(** The exceptions of an allow-list were all taken back: the Go map is empty but
    not nil. *)
Definition emptied (target : Emulator) : bool :=
  negb (IsBlacklist target) && bool_decide (rules target = Some ∅).

(** C3.  [DevicesGroup.Set] end to end, outside a user namespace and with
    SkipDevices off, for a cgroup in any state and any device list whose rules
    name a permission and wildcard or 32-bit numbers.  When the emulator refuses
    the list, [Set] returns that error and the kernel is as it was; otherwise
    the kernel's policy is afterwards exactly the target, and [Set], its final
    check included, reports success, save for an emptied allow-list, which it
    reports as a mismatch (the map read back is nil, the target's is not, and
    [reflect.DeepEqual] tells them apart).  The kernel is one that obeys the
    behaviour of devices.list, devices.allow and devices.deny stated in
    [DevicesCgroupLaws]; no condition is put on the exceptions in force. *)
Theorem Set_reaches_target (devices : list Rule) (k : K) :
  k_ok k -> Forall input_ok devices ->
  match buildEmulator devices with
  | Err err => Set_ false false false devices k = (k, Err err)
  | Ok target =>
      exists k', emu_of k' ≡ target /\
        Set_ false false false devices k =
          (k', if emptied target then Err ErrNotPreciseTarget else Ok tt)
  end.
Proof.
  intros Hk Hdev. destruct (buildEmulator devices) as [target|err] eqn:Hb.
  - destruct (Set_writes devices k target) as (k' & e & Hkt & _ & Hs & Hd & He & HS); [done..|].
    exists k'. split; [done|]. rewrite HS. f_equal. unfold final_check, emptied, IsBlacklist. rewrite Hd.
    destruct (defaultAllow target) eqn:Et; cbn; [done|].
    case_bool_decide as Hne; case_bool_decide as Hre; cbn; try done.
    + subst e. by destruct Hs as [_ Hs].
    + destruct Hne. apply shape_eq; auto.
  - destruct (read_ok k Hk) as (text & cur & Hr & Hl & _).
    unfold Set_, loadEmulator. cbn [orb]. rewrite Hr. cbn [mbind result_bind].
    rewrite Hl, Hb. done.
Qed.

End SetProps.

(** ** A kernel that satisfies the laws *)

Definition entryRule (d : deviceRule) : Rule := metaRule (meta d) (perms d) true.

(** devices.list: "a *:* rwm" in deny-list mode, else one line per exception. *)
Definition kernel_list (e : Emulator) : string :=
  if defaultAllow e then unlines [CgroupString (disruptiveRule e)]
  else unlines (map (fun d => CgroupString (entryRule d)) (orderedEntries (rules e))).

Definition kernel_write (e : Emulator) (file line : string) : result Emulator :=
  r ← parseLine line; Ok (cgroup_write e (bool_decide (file = "devices.allow")) r).

#[global] Instance kernel_cgroup : DevicesCgroup Emulator := {
  read_list e := Ok (kernel_list e);
  write_file := kernel_write }.

Definition plain_line (s : string) : Prop :=
  contains_char ch_newline s = false /\ contains_char (chr 13) s = false.

Lemma drop_cr_plain (s : string) : contains_char (chr 13) s = false -> drop_cr s = s.
Proof.
  induction s as [|c s IH]; [done|]. cbn. intros [Hc Hs]%orb_false_iff.
  destruct s as [|d s]; [by rewrite Hc|]. by rewrite IH.
Qed.

Lemma scan_unlines (l : list string) : Forall plain_line l -> scan_lines (unlines l) = l.
Proof.
  intros Hl. unfold scan_lines. rewrite split_unlines.
  2: { eapply Forall_impl; [exact Hl|]. by intros x []. }
  rewrite last_snoc, bool_decide_eq_true_2, removelast_last by done.
  rewrite <- (map_id l) at 2. apply map_ext_Forall. eapply Forall_impl; [exact Hl|].
  intros x [_ Hx]. by apply drop_cr_plain.
Qed.

Lemma contains_char_forall (c : ascii) (f : ascii -> bool) (s : string) :
  str_forall f s = true -> f c = false -> contains_char c s = false.
Proof.
  intros Hs Hc. induction s as [|a s IH]; [done|]. cbn in *. apply andb_true_iff in Hs as [Ha Hs].
  rewrite bool_decide_eq_false_2 by congruence. by apply IH.
Qed.

Lemma number_plain (n : Z) : number_ok n -> plain_line (format_number n).
Proof.
  unfold format_number. intros [-> | Hn]; [done|].
  rewrite bool_decide_eq_false_2 by (unfold Wildcard; lia). rewrite format_int_nonneg by lia.
  split; apply (contains_char_forall _ is_digit); try done; apply digits_pretty_N.
Qed.

Lemma perms_plain (p : Permissions) : canonical p -> plain_line p.
Proof.
  intros ->. pose proof (mask_toSet p) as H. apply mask_cases in H.
  destruct_or!; rewrite H; split; reflexivity.
Qed.

Lemma CgroupString_plain (r : Rule) : rule_ok r -> plain_line (CgroupString r).
Proof.
  intros [(Ht & Hma & Hmi & Hp) | (Ht & Hma & Hmi & Hc & _)].
  { unfold CgroupString. rewrite Ht, Hma, Hmi, Hp. by vm_compute. }
  destruct (number_plain _ Hma), (number_plain _ Hmi), (perms_plain _ Hc).
  assert (plain_line (format_rune (Type_ r))) as [? ?] by (by destruct Ht as [-> | ->]).
  unfold CgroupString, plain_line. rewrite !contains_char_app.
  split; repeat (apply orb_false_iff; split); done.
Qed.

Lemma entry_rule_ok (e : Emulator) (d : deviceRule) :
  emu_fits e -> d ∈ orderedEntries (rules e) -> rule_ok (entryRule d) /\ canonical (perms d) /\ perms d <> "".
Proof.
  intros [W F] Hd%orderedEntries_elem. pose proof (W _ _ Hd) as (Hc & Hp & Hn).
  pose proof (F _ _ Hd) as [? ?]. split; [|done]. right. by cbn.
Qed.

Lemma parse_rule_ok (r : Rule) : rule_ok r -> parseLine (CgroupString r) = Ok (innerRule r).
Proof.
  intros [(Ht & Hma & Hmi & Hp) | (Ht & Hma & Hmi & Hc & Hne)].
  { unfold CgroupString, innerRule. rewrite Ht, Hma, Hmi, Hp. reflexivity. }
  rewrite parseLine_CgroupString; [|done..|by apply perms_IsValid_iff|by apply bool_decide_eq_false_2].
  unfold innerRule. by rewrite bool_decide_eq_false_2 by (destruct Ht as [-> | ->]; done).
Qed.

Lemma allow_lines_rules (l : list Rule) (e e' : Emulator) :
  Forall (fun r => rule_ok r /\ Allow r = true) l -> apply_rules e l = Ok e' ->
  allow_lines e (map CgroupString l) = Ok e'.
Proof.
  intros Hl. revert e. induction Hl as [|r l [Hr Ha] _ IH]; intros e H; cbn in *; [done|].
  apply bind_ok in H as (x & Hx & H). rewrite parse_rule_ok by done. cbn.
  unfold Apply in Hx. rewrite Ha in Hx. destruct (negb _); [done|]. rewrite Hx. cbn. by apply IH.
Qed.

Lemma diffRules_nil (l : list deviceRule) :
  Forall (fun d => canonical (perms d) /\ perms d <> "") l ->
  map entryRule l = omap (diffRule None true) l.
Proof.
  induction 1 as [|d l [Hc Hne] _ IH]; [done|]. cbn. unfold diffRule at 1, perms_IsEmpty.
  rewrite rules_get_nil, Difference_nil by done. rewrite bool_decide_eq_false_2 by done.
  cbn. f_equal. exact IH.
Qed.

(** Printing and reading back an allow-list gives the same policy. *)
Lemma kernel_list_roundtrip (e : Emulator) :
  emu_fits e -> defaultAllow e = false ->
  exists e', EmulatorFromList (kernel_list e) = Ok e' /\ e' ≡ e.
Proof.
  intros Hf Hd. unfold EmulatorFromList, kernel_list. rewrite Hd, <- (map_map entryRule CgroupString).
  rewrite scan_unlines.
  2: { rewrite Forall_fmap, Forall_fmap. apply Forall_forall. intros d Hin.
       by apply CgroupString_plain, (entry_rule_ok e). }
  destruct (add_loop None (orderedEntries (rules e)) emptyEmulator) as (e' & Ha & Hd' & W' & Hb);
    [apply orderedEntries_NoDup|apply wf_nodes, Hf|apply emu_wf_empty|].
  exists e'. split.
  - apply allow_lines_rules.
    + rewrite Forall_fmap. apply Forall_forall. intros d Hin. split; [|done]. by apply (entry_rule_ok e).
    + rewrite <- Ha. f_equal. cbn [defaultAllow emptyEmulator negb].
      assert (Forall (fun d => canonical (perms d) /\ perms d <> "") (orderedEntries (rules e))) as HF.
      { apply Forall_forall. intros d Hin. by apply (entry_rule_ok e). }
      by apply diffRules_nil.
  - apply emu_ext; [done|apply Hf|by rewrite Hd', Hd|]. intros m.
    rewrite Hb. unfold emptyEmulator. rewrite emu_bits_empty, list_bits_ordered, rules_get_nil.
    change (toSet "") with 0. unfold emu_bits. by Zbits.
Qed.

#[global] Instance kernel_laws : DevicesCgroupLaws Emulator id emu_fits.
Proof.
  split.
  - done.
  - intros e Hf. cbn. destruct (defaultAllow e) eqn:Hd.
    + eexists _, {| defaultAllow := true; rules := None |}. split; [done|]. cbn. unfold kernel_list, disruptiveRule.
      rewrite Hd. by vm_compute.
    + destruct (kernel_list_roundtrip e Hf Hd) as (e' & He' & Heq). eexists _, e'.
      split; [done|]. split; [done|]. split; [|done]. by rewrite (proj1 Heq).
  - intros e r Hf Hr. exists (cgroup_apply e r). cbn. split.
    { unfold kernel_write. rewrite parse_rule_ok by done. unfold cgroup_apply, rule_file. by destruct (Allow r). }
    split; [done|]. by apply cgroup_apply_fits.
Qed.

(** ** Witnesses *)

Lemma wit_rules_ok : Forall input_ok wit_rules.
Proof.
  assert (number_ok 1 /\ number_ok 3 /\ number_ok 8 /\ number_ok (-1)) as (? & ? & ? & ?).
  { unfold number_ok, max_uint32, Wildcard. lia. }
  repeat constructor; cbn; done.
Qed.

Lemma default_like_fits : emu_fits default_like.
Proof.
  assert (number_ok 1 /\ number_ok 3 /\ number_ok Wildcard) as (? & ? & ?).
  { unfold number_ok, max_uint32, Wildcard. lia. }
  split; (apply map_Forall_insert_2; [by vm_compute; intuition|]);
    (apply map_Forall_insert_2; [by vm_compute; intuition|apply map_Forall_empty]).
Qed.

(** A cgroup whose exceptions overlap. *)
Lemma Set_reaches_target_witness :
  exists k', k' ≡ wit_built /\ Set_ false false false wit_rules default_like = (k', Ok tt).
Proof. exact (Set_reaches_target id emu_fits wit_rules default_like default_like_fits wit_rules_ok). Defined.

(** Allow then revoke: the exception map is left empty, not nil. *)
Definition wit_emptied : list Rule :=
  [ metaRule (mkMeta CharDevice 1 3) "rwm" true; metaRule (mkMeta CharDevice 1 3) "rwm" false ].

(** [Set] fails with "doesn't precisely match target" although the kernel's
    policy, read back, is the target's. *)
Theorem Set_rejects_emptied_target :
  buildEmulator wit_emptied = Ok {| defaultAllow := false; rules := Some ∅ |} /\
  Set_ false false false wit_emptied mknod_only =
    ({| defaultAllow := false; rules := Some ∅ |}, Err ErrNotPreciseTarget) /\
  loadEmulator ({| defaultAllow := false; rules := Some ∅ |} : Emulator) = Ok emptyEmulator.
Proof. vm_compute. done. Qed.
