(* ===== verification/DeviceFilter.v ===== *)
(** * The eBPF device filter: [libcontainer/cgroups/ebpf/devicefilter]

    [DeviceFilter] compiles device rules to an eBPF program.  The instructions
    are those of [github.com/cilium/ebpf/asm] the generator emits; [run] is
    their semantics on the 64-bit registers of the eBPF machine (32-bit ALU
    operations zero the upper half, 64-bit jumps compare with the sign-extended
    immediate).  The main theorem says that the program computes the emulator's
    policy, where an exception applies to the accesses it covers completely, and
    for which rules and requests that is the policy of a v1 devices cgroup. *)

From S2P Require Import Prelude GoStrings Devices DeviceEmulator DeviceEmulatorThms CgroupDevices.

Open Scope string_scope.
Open Scope list_scope.
Open Scope Z_scope.

(** ** The target machine *)

Inductive reg := R0 | R1 | R2 | R3 | R4 | R5.

#[global] Instance reg_eq_dec : EqDecision reg.
Proof. solve_decision. Defined.

Inductive op :=
  | LoadMem (dst src : reg) (off : Z)   (* dst = the 32-bit word at src + off *)
  | AndImm32 (dst : reg) (imm : Z)
  | RShImm32 (dst : reg) (imm : Z)
  | MovReg32 (dst src : reg)
  | MovImm32 (dst : reg) (imm : Z)
  | JNEImm (dst : reg) (imm : Z) (label : string)
  | JNEReg (dst src : reg) (label : string)
  | Return.

Record insn := mkInsn { ins : op; sym : option string }.

Definition plain (o : op) : insn := mkInsn o None.
Definition with_sym (s : string) (i : insn) : insn := mkInsn (ins i) (Some s).

(** [struct bpf_cgroup_dev_ctx], by byte offset. *)
Record dev_ctx := mkCtx { access_type : Z; ctx_major : Z; ctx_minor : Z }.

Definition ctx_word (c : dev_ctx) (off : Z) : option Z :=
  if off =? 0 then Some (access_type c)
  else if off =? 4 then Some (ctx_major c)
  else if off =? 8 then Some (ctx_minor c)
  else None.

(** A register holds the context pointer or a scalar. *)
Inductive value := Ptr | Scalar (z : Z) | Uninit.

Definition regs := reg -> value.
Definition set_reg (rs : regs) (r : reg) (v : value) : regs :=
  fun r' => if decide (r = r') then v else rs r'.
Definition init_regs : regs := fun r => match r with R1 => Ptr | _ => Uninit end.

Inductive outcome := Next (rs : regs) | Jump (rs : regs) (label : string) | Exit (z : Z) | Stuck.

Definition alu32 (rs : regs) (dst : reg) (f : Z -> Z) : outcome :=
  match rs dst with
  | Scalar z => Next (set_reg rs dst (Scalar (uint32 (f z))))
  | _ => Stuck
  end.

Definition exec_op (c : dev_ctx) (rs : regs) (o : op) : outcome :=
  match o with
  | LoadMem dst src off =>
      match rs src, ctx_word c off with
      | Ptr, Some w => Next (set_reg rs dst (Scalar w))
      | _, _ => Stuck
      end
  | AndImm32 dst imm => alu32 rs dst (fun z => Z.land z imm)
  | RShImm32 dst imm => alu32 rs dst (fun z => Z.shiftr (uint32 z) imm)
  | MovReg32 dst src =>
      match rs src with Scalar z => Next (set_reg rs dst (Scalar (uint32 z))) | _ => Stuck end
  | MovImm32 dst imm => Next (set_reg rs dst (Scalar (uint32 imm)))
  | JNEImm dst imm l =>
      match rs dst with
      | Scalar z => if z =? uint64 imm then Next rs else Jump rs l
      | _ => Stuck
      end
  | JNEReg dst src l =>
      match rs dst, rs src with
      | Scalar a, Scalar b => if a =? b then Next rs else Jump rs l
      | _, _ => Stuck
      end
  | Return => match rs R0 with Scalar z => Exit z | _ => Stuck end
  end.

(** Labels are resolved over the whole program, as the asm package does. *)
Fixpoint find_label (p : list insn) (l : string) : option nat :=
  match p with
  | [] => None
  | i :: p' => if bool_decide (sym i = Some l) then Some 0%nat else S <$> find_label p' l
  end.

Fixpoint run (fuel : nat) (p : list insn) (c : dev_ctx) (pc : nat) (rs : regs) : option Z :=
  match fuel with
  | O => None
  | S n =>
      match p !! pc with
      | None => None
      | Some i =>
          match exec_op c rs (ins i) with
          | Next rs' => run n p c (S pc) rs'
          | Jump rs' l => match find_label p l with
                          | Some pc' => run n p c pc' rs'
                          | None => None
                          end
          | Exit z => Some z
          | Stuck => None
          end
      end
  end.

(** ** The generator (devicefilter.go) *)

Definition BPF_DEVCG_ACC_MKNOD : Z := 1.
Definition BPF_DEVCG_ACC_READ : Z := 2.
Definition BPF_DEVCG_ACC_WRITE : Z := 4.
Definition BPF_DEVCG_DEV_BLOCK : Z := 1.
Definition BPF_DEVCG_DEV_CHAR : Z := 2.

Definition license : string := "Apache".

Record program := mkProgram { insts : list insn; p_defaultAllow : bool; blockID : Z }.

Definition init_insts : list insn :=
  [ plain (LoadMem R2 R1 0); plain (AndImm32 R2 0xFFFF);
    plain (LoadMem R3 R1 0); plain (RShImm32 R3 16);
    plain (LoadMem R4 R1 4); plain (LoadMem R5 R1 8) ].

Definition prog_init (p : program) : program :=
  mkProgram (insts p ++ init_insts) (p_defaultAllow p) (blockID p).

Definition acceptBlock (accept : bool) : list insn :=
  [ plain (MovImm32 R0 (if accept then 1 else 0)); plain Return ].

Definition blockSym (id : Z) : string := "block-" +:+ format_int id.

(** The loop over the runes of the permission string. *)
Fixpoint bpf_access (acc : Z) (p : Permissions) : result Z :=
  match p with
  | EmptyString => Ok acc
  | String c p' =>
      if bool_decide (c = "r"%char) then bpf_access (Z.lor acc BPF_DEVCG_ACC_READ) p'
      else if bool_decide (c = "w"%char) then bpf_access (Z.lor acc BPF_DEVCG_ACC_WRITE) p'
      else if bool_decide (c = "m"%char) then bpf_access (Z.lor acc BPF_DEVCG_ACC_MKNOD) p'
      else Err (ErrNew "unknown device access")
  end.

Definition all_access : Z := 7.

(** The instructions of one rule, without the symbol of the first. *)
Definition rule_block (bpfType bpfAccess : Z) (rule : Rule) (nextBlockSym : string) : list insn :=
  [plain (JNEImm R2 bpfType nextBlockSym)]
  ++ (if bpfAccess =? all_access then [] else
      [ plain (MovReg32 R1 R3); plain (AndImm32 R1 bpfAccess); plain (JNEReg R1 R3 nextBlockSym) ])
  ++ (if 0 <=? Major rule then [plain (JNEImm R4 (int32 (Major rule)) nextBlockSym)] else [])
  ++ (if 0 <=? Minor rule then [plain (JNEImm R5 (int32 (Minor rule)) nextBlockSym)] else [])
  ++ acceptBlock (Allow rule).

(** [p.insts[prevBlockLastIdx+1] = p.insts[prevBlockLastIdx+1].Sym(blockSym)] *)
Definition sym_first (s : string) (l : list insn) : list insn :=
  match l with [] => [] | i :: l' => with_sym s i :: l' end.

Definition appendRule (p : program) (rule : Rule) : result program :=
  if blockID p <? 0 then Err (ErrNew "the program is finalized") else
  bpfType ← (if bool_decide (Type_ rule = CharDevice) then Ok BPF_DEVCG_DEV_CHAR
             else if bool_decide (Type_ rule = BlockDevice) then Ok BPF_DEVCG_DEV_BLOCK
             else Err (ErrNew "invalid type"));
  _ ← guard_err (max_uint32 <? Major rule) (ErrNew "invalid major");
  _ ← guard_err (max_uint32 <? Minor rule) (ErrNew "invalid minor");
  bpfAccess ← bpf_access 0 (Permissions_ rule);
  let block := rule_block bpfType bpfAccess rule (blockSym (blockID p + 1)) in
  Ok (mkProgram (insts p ++ sym_first (blockSym (blockID p)) block)
        (p_defaultAllow p) (blockID p + 1)).

Definition finalize (p : program) : list insn :=
  insts p ++ [ mkInsn (MovImm32 R0 (if p_defaultAllow p then 1 else 0)) (Some (blockSym (blockID p)));
               plain Return ].

Definition ErrBadWildcard : error :=
  ErrNew "[internal error] emulated cgroupv2 devices ruleset had bad wildcard".
Definition ErrNoOpRule : error :=
  ErrNew "[internal error] emulated cgroupv2 devices ruleset had no-op rule".

(** The loop over the clean rules, [idx] counting from 0. *)
Fixpoint appendRules (emuBlacklist : bool) (idx : nat) (p : program) (l : list Rule)
    : result program :=
  match l with
  | [] => Ok p
  | rule :: l' =>
      if bool_decide (Type_ rule = WildcardDevice)
      then if negb (bool_decide (idx = 0%nat)) || negb (Bool.eqb (Allow rule) emuBlacklist)
           then Err ErrBadWildcard
           else appendRules emuBlacklist (S idx) p l'
      else if Bool.eqb (Allow rule) (p_defaultAllow p)
           then Err ErrNoOpRule
           else p' ← appendRule p rule; appendRules emuBlacklist (S idx) p' l'
  end.

Definition DeviceFilter (rules : list Rule) : result (list insn * string) :=
  emu ← apply_rules emptyEmulator rules;
  cleanRules ← Rules emu;
  let p := prog_init (mkProgram [] (IsBlacklist emu) 0) in
  p' ← appendRules (IsBlacklist emu) 0 p cleanRules;
  Ok (finalize p', license).

(** ** What the kernel asks: the request a context stands for *)

Definition ctx_type (c : dev_ctx) : Z := Z.land (access_type c) 0xFFFF.
Definition ctx_access (c : dev_ctx) : Z := Z.shiftr (access_type c) 16.

(** The kernel's access bits (mknod, read, write) as the emulator's mask. *)
Definition emu_mask (a : Z) : Z :=
  Z.lor (if Z.testbit a 1 then deviceRead else 0)
    (Z.lor (if Z.testbit a 2 then deviceWrite else 0) (if Z.testbit a 0 then deviceMknod else 0)).

Definition emu_type (t : Z) : Z :=
  if t =? BPF_DEVCG_DEV_BLOCK then BlockDevice
  else if t =? BPF_DEVCG_DEV_CHAR then CharDevice else 0.

Definition ctx_request (c : dev_ctx) : request :=
  mkRequest (emu_type (ctx_type c)) (ctx_major c) (ctx_minor c) (emu_mask (ctx_access c)).

(** 32-bit words, with access bits the kernel defines. *)
Definition ctx_ok (c : dev_ctx) : Prop :=
  0 <= access_type c < 2 ^ 32 /\ mask (ctx_access c) /\
  0 <= ctx_major c < 2 ^ 32 /\ 0 <= ctx_minor c < 2 ^ 32.

(** The context of a request on a Linux device, whose numbers are small. *)
Definition request_ok (c : dev_ctx) : Prop :=
  ctx_ok c /\ ctx_major c < 2 ^ 31 /\ ctx_minor c < 2 ^ 31.

(** The request asks for a single permission. *)
Definition one_access (c : dev_ctx) : Prop :=
  ctx_access c = BPF_DEVCG_ACC_MKNOD \/ ctx_access c = BPF_DEVCG_ACC_READ \/
  ctx_access c = BPF_DEVCG_ACC_WRITE.

Lemma set_reg_eq (rs : regs) (r : reg) (v : value) : set_reg rs r v r = v.
Proof. unfold set_reg. by rewrite decide_True. Qed.

Lemma set_reg_ne (rs : regs) (r r' : reg) (v : value) : r <> r' -> set_reg rs r v r' = rs r'.
Proof. intros H. unfold set_reg. by rewrite decide_False. Qed.

(** ** Running straight-line code with forward jumps

    [evals p c pc rs z]: from [pc] the program returns [z], with fuel at most
    the number of instructions left (every jump goes forward). *)
Definition evals (p : list insn) (c : dev_ctx) (pc : nat) (rs : regs) (z : Z) : Prop :=
  forall n, (length p - pc <= n)%nat -> run n p c pc rs = Some z.

Lemma evals_step (p : list insn) (c : dev_ctx) (pc : nat) (i : insn) (rest : list insn)
    (rs : regs) (z : Z) :
  drop pc p = i :: rest ->
  match exec_op c rs (ins i) with
  | Next rs' => evals p c (S pc) rs' z
  | Jump rs' l => exists pc', find_label p l = Some pc' /\ (pc < pc')%nat /\ evals p c pc' rs' z
  | Exit v => v = z
  | Stuck => False
  end -> evals p c pc rs z.
Proof.
  intros Hd H n Hn.
  assert (p !! pc = Some i) as Hi.
  { rewrite <- (Nat.add_0_r pc), <- lookup_drop, Hd. done. }
  pose proof (lookup_lt_Some _ _ _ Hi). destruct n as [|n]; [lia|]. cbn. rewrite Hi.
  destruct (exec_op c rs (ins i)) as [rs'|rs' l|v|].
  - apply H. lia.
  - destruct H as (pc' & -> & Hlt & H). apply H. lia.
  - by subst.
  - done.
Qed.

Lemma drop_next (p : list insn) (pc : nat) (i : insn) (rest : list insn) :
  drop pc p = i :: rest -> drop (S pc) p = rest.
Proof. intros H. by rewrite <- Nat.add_1_r, <- drop_drop, H. Qed.

Lemma evals_jne_imm p c pc r imm l s rest rs v z :
  drop pc p = mkInsn (JNEImm r imm l) s :: rest -> rs r = Scalar v ->
  ((v =? uint64 imm) = true -> evals p c (S pc) rs z) ->
  ((v =? uint64 imm) = false ->
    exists pc', find_label p l = Some pc' /\ (pc < pc')%nat /\ evals p c pc' rs z) ->
  evals p c pc rs z.
Proof.
  intros Hd Hr Ht Hf. eapply evals_step; [exact Hd|]. cbn. rewrite Hr.
  destruct (v =? uint64 imm); auto.
Qed.

Lemma evals_accept p c pc b rest rs :
  drop pc p = acceptBlock b ++ rest -> evals p c pc rs (if b then 1 else 0).
Proof.
  intros Hd. cbn in Hd. eapply evals_step; [exact Hd|]. cbn.
  apply drop_next in Hd. eapply evals_step; [exact Hd|]. cbn. by destruct b.
Qed.

(** The registers a block reads: type, access, major, minor. *)
Record regs_hold (rs : regs) (t a ma mi : Z) : Prop := {
  rh2 : rs R2 = Scalar t; rh3 : rs R3 = Scalar a;
  rh4 : rs R4 = Scalar ma; rh5 : rs R5 = Scalar mi }.

Definition number_match (v n : Z) : bool := negb (0 <=? n) || (v =? uint64 (int32 n)).

Definition block_match (bt ba : Z) (r : Rule) (t a ma mi : Z) : bool :=
  (t =? uint64 bt) && ((ba =? all_access) || (Z.land a ba =? a))
  && number_match ma (Major r) && number_match mi (Minor r).

(** An optional comparison with an immediate. *)
Lemma evals_number p c pc r n l rest rs v z :
  drop pc p = (if 0 <=? n then [plain (JNEImm r (int32 n) l)] else []) ++ rest ->
  rs r = Scalar v ->
  (number_match v n = true ->
     forall pc', (pc <= pc')%nat -> drop pc' p = rest -> evals p c pc' rs z) ->
  (number_match v n = false ->
     exists pc', find_label p l = Some pc' /\ (pc < pc')%nat /\ evals p c pc' rs z) ->
  evals p c pc rs z.
Proof.
  unfold number_match. intros Hd Hr Ht Hf. destruct (0 <=? n); cbn in *.
  - eapply evals_jne_imm; [exact Hd|exact Hr| |exact Hf].
    intros E. apply Ht; [done|lia|by eapply drop_next].
  - by apply Ht.
Qed.

Lemma uint32_id (z : Z) : 0 <= z < 2 ^ 32 -> uint32 z = z.
Proof. intros H. unfold uint32. by apply Z.mod_small. Qed.

Lemma land_u32 (a b : Z) : 0 <= a < 2 ^ 32 -> 0 <= Z.land a b < 2 ^ 32.
Proof.
  intros H. assert (Z.land (Z.land a b) (Z.ones 32) = Z.land a b) as E.
  { rewrite <- Z.land_assoc, (Z.land_comm b), Z.land_assoc, Z.land_ones by lia. by rewrite Z.mod_small. }
  rewrite Z.land_ones in E by lia. rewrite <- E. apply Z.mod_pos_bound. lia.
Qed.

(** The access check, and the registers afterwards. *)
Lemma evals_access p c pc ba l rest rs t a ma mi z :
  drop pc p = (if ba =? all_access then [] else
      [ plain (MovReg32 R1 R3); plain (AndImm32 R1 ba); plain (JNEReg R1 R3 l) ]) ++ rest ->
  regs_hold rs t a ma mi -> 0 <= a < 2 ^ 32 ->
  ((ba =? all_access) || (Z.land a ba =? a) = true ->
     forall pc' rs', (pc <= pc')%nat -> drop pc' p = rest -> regs_hold rs' t a ma mi -> evals p c pc' rs' z) ->
  ((ba =? all_access) || (Z.land a ba =? a) = false ->
     exists pc', find_label p l = Some pc' /\ (pc + 2 < pc')%nat /\
       forall rs', regs_hold rs' t a ma mi -> evals p c pc' rs' z) ->
  evals p c pc rs z.
Proof.
  intros Hd Hr Ha Ht Hf. destruct (ba =? all_access); cbn in *; [by apply (Ht eq_refl pc rs)|].
  destruct Hr as [H2 H3 H4 H5].
  eapply evals_step; [exact Hd|]. cbn. rewrite H3. apply drop_next in Hd.
  eapply evals_step; [exact Hd|]. cbn. unfold alu32. rewrite set_reg_eq. apply drop_next in Hd.
  rewrite !uint32_id by (try apply land_u32; lia).
  eapply evals_step; [exact Hd|]. cbn. rewrite set_reg_eq, !set_reg_ne, H3 by done.
  apply drop_next in Hd.
  destruct (Z.land a ba =? a).
  - apply Ht; [done|lia|done|]. split; by rewrite !set_reg_ne.
  - destruct Hf as (pc' & Hl & Hlt & He); [done|]. exists pc'. split; [done|]. split; [lia|].
    apply He. split; by rewrite !set_reg_ne.
Qed.

(** ** One block *)

Lemma drop_before (p l rest : list insn) (i j : nat) :
  drop i p = l ++ rest -> drop j p = rest -> (0 < length l)%nat -> (i + length l <= j)%nat.
Proof.
  intros Hi Hj Hl. apply (f_equal length) in Hi, Hj. rewrite length_app in Hi.
  rewrite length_drop in Hi, Hj. lia.
Qed.

Lemma evals_block p c pc s bt ba rule next rest rs t a ma mi z pc_next :
  drop pc p = sym_first s (rule_block bt ba rule next) ++ rest ->
  drop pc_next p = rest -> find_label p next = Some pc_next ->
  regs_hold rs t a ma mi -> 0 <= a < 2 ^ 32 ->
  (block_match bt ba rule t a ma mi = true -> z = if Allow rule then 1 else 0) ->
  (block_match bt ba rule t a ma mi = false ->
     forall rs', regs_hold rs' t a ma mi -> evals p c pc_next rs' z) ->
  evals p c pc rs z.
Proof.
  intros Hd Hn Hl Hr Ha Ht Hf.
  assert (forall i l rs', block_match bt ba rule t a ma mi = false -> regs_hold rs' t a ma mi ->
            drop i p = l ++ rest -> (0 < length l)%nat ->
            exists pc', find_label p next = Some pc' /\ (i < pc')%nat /\ evals p c pc' rs' z) as Hj.
  { intros i l rs' Hb Hh Hi Hl0. exists pc_next. split; [done|]. split; [|auto].
    pose proof (drop_before _ _ _ _ _ Hi Hn Hl0). lia. }
  unfold block_match in *. unfold rule_block, sym_first in Hd. cbn [app] in Hd.
  eapply (evals_jne_imm p c pc R2 bt next); [exact Hd|apply Hr|intros E1|intros E1].
  2: { eapply (Hj pc (_ :: _)); [by rewrite E1|done|exact Hd|cbn; lia]. }
  apply drop_next in Hd. rewrite <- !app_assoc in Hd.
  eapply (evals_access p c (S pc) ba next _ rs t a ma mi);
    [exact Hd|done|done|intros E2 pc2 rs2 _ Hd2 Hr2|intros E2].
  2: { exists pc_next. split; [done|]. split; [|intros; apply Hf; [by rewrite E1, E2|done]].
       destruct (ba =? all_access); [done|]. rewrite !app_assoc in Hd.
       pose proof (drop_before _ _ _ _ _ Hd Hn) as X. rewrite !length_app in X. cbn in X. lia. }
  eapply (evals_number p c pc2 R4 (Major rule) next);
    [exact Hd2|apply Hr2|intros E3 pc3 _ Hd3|intros E3].
  2: { rewrite !app_assoc in Hd2. eapply Hj; [by rewrite E1, E2, E3|done|exact Hd2|].
       rewrite !length_app. cbn. lia. }
  eapply (evals_number p c pc3 R5 (Minor rule) next);
    [exact Hd3|apply Hr2|intros E4 pc4 _ Hd4|intros E4].
  2: { rewrite !app_assoc in Hd3. eapply Hj; [by rewrite E1, E2, E3, E4|done|exact Hd3|].
       rewrite !length_app. cbn. lia. }
  rewrite Ht by (by rewrite E1, E2, E3, E4). by eapply evals_accept.
Qed.

(** ** The layout of the whole program *)

Definition b2z (b : bool) : Z := if b then 1 else 0.

(** A compiled rule: its BPF type, its access mask and the rule. *)
Abbreviation crule := (Z * Z * Rule)%type.

Fixpoint filter_code (def : bool) (id : Z) (l : list crule) : list insn :=
  match l with
  | [] => [mkInsn (MovImm32 R0 (b2z def)) (Some (blockSym id)); plain Return]
  | (bt, ba, r) :: l' =>
      sym_first (blockSym id) (rule_block bt ba r (blockSym (id + 1))) ++ filter_code def (id + 1) l'
  end.

Definition labels_below (l : list insn) (id : Z) : Prop :=
  forall i s, i ∈ l -> sym i = Some s -> exists j, 0 <= j < id /\ s = blockSym j.

Lemma blockSym_inj (a b : Z) : blockSym a = blockSym b -> a = b.
Proof. unfold blockSym, format_int. intros H%app_inj_l. by apply (inj pretty) in H. Qed.

Lemma find_label_app (pre l : list insn) (s : string) :
  (forall i, i ∈ pre -> sym i <> Some s) ->
  find_label (pre ++ l) s = (Nat.add (length pre)) <$> find_label l s.
Proof.
  induction pre as [|i pre IH]; intros Hp; cbn.
  { by destruct (find_label l s). }
  rewrite bool_decide_eq_false_2 by (apply Hp; left). rewrite IH by (intros; apply Hp; by right).
  by destruct (find_label l s).
Qed.

Lemma find_label_here (pre : list insn) (def : bool) (id : Z) (l : list crule) :
  labels_below pre id -> find_label (pre ++ filter_code def id l) (blockSym id) = Some (length pre).
Proof.
  intros Hp. rewrite find_label_app.
  - destruct l as [|[[bt ba] r] l]; cbn; rewrite bool_decide_eq_true_2 by done; cbn; f_equal; lia.
  - intros i Hi Hs. destruct (Hp _ _ Hi Hs) as (j & Hj & E). apply blockSym_inj in E. lia.
Qed.

Lemma labels_below_block (pre : list insn) (id bt ba : Z) (r : Rule) (s : string) :
  0 <= id -> labels_below pre id ->
  labels_below (pre ++ sym_first (blockSym id) (rule_block bt ba r s)) (id + 1).
Proof.
  intros Hid Hp i l [Hi|Hi]%elem_of_app Hs.
  { destruct (Hp _ _ Hi Hs) as (j & ? & ->). exists j. split; [lia|done]. }
  unfold rule_block, sym_first in Hi. cbn [app] in Hi. apply elem_of_cons in Hi as [-> | Hi].
  { cbn in Hs. injection Hs as <-. exists id. split; [lia|done]. }
  exfalso. revert i Hi Hs. rewrite <- Forall_forall with (P := fun i => sym i = Some l -> False).
  destruct (ba =? all_access), (0 <=? Major r), (0 <=? Minor r); cbn; by repeat constructor.
Qed.

Definition crule_match (t a ma mi : Z) (x : crule) : bool :=
  block_match x.1.1 x.1.2 x.2 t a ma mi.

(** From the start of the code of [l], the program answers as the rules say. *)
Lemma evals_code (def : bool) (c : dev_ctx) (t a ma mi : Z) (l : list crule) :
  Forall (fun x : crule => Allow x.2 = negb def) l -> 0 <= a < 2 ^ 32 ->
  forall id pre rs, 0 <= id -> labels_below pre id -> regs_hold rs t a ma mi ->
  evals (pre ++ filter_code def id l) c (length pre) rs
    (b2z (xorb def (existsb (crule_match t a ma mi) l))).
Proof.
  intros Hl Ha. induction Hl as [|[[bt ba] r] l Hr _ IH]; intros id pre rs Hid Hp Hh.
  - cbn [filter_code existsb]. rewrite xorb_false_r.
    eapply evals_step; [by rewrite drop_app_length|]. cbn.
    eapply evals_step; [eapply drop_next; by rewrite drop_app_length|]. cbn. by destruct def.
  - cbn [filter_code]. set (blk := sym_first (blockSym id) _).
    assert (pre ++ blk ++ filter_code def (id + 1) l = (pre ++ blk) ++ filter_code def (id + 1) l)
      as Hassoc by apply app_assoc.
    pose proof (labels_below_block pre id bt ba r (blockSym (id + 1)) Hid Hp) as Hp'. fold blk in Hp'.
    eapply (evals_block _ c _ (blockSym id) bt ba r (blockSym (id + 1)) (filter_code def (id + 1) l)
              rs t a ma mi _ (length (pre ++ blk))); try done.
    + by rewrite drop_app_length.
    + by rewrite Hassoc, drop_app_length.
    + rewrite Hassoc. by apply find_label_here.
    + intros Hm. cbn [existsb]. unfold crule_match at 1. cbn [fst snd]. rewrite Hm. cbn in Hr.
      rewrite Hr. by destruct def.
    + intros Hm rs' Hh'. cbn [existsb]. unfold crule_match at 1. cbn [fst snd]. rewrite Hm, Hassoc.
      cbn [orb]. apply IH; [lia|done|done].
Qed.

(** The prologue loads the context. *)
Lemma evals_init (p : list insn) (rest : list insn) (c : dev_ctx) (z : Z) :
  p = init_insts ++ rest -> ctx_ok c ->
  (forall rs, regs_hold rs (ctx_type c) (ctx_access c) (ctx_major c) (ctx_minor c) ->
     evals p c 6 rs z) ->
  evals p c 0 init_regs z.
Proof.
  intros Hp (Ht & Hm & Hma & Hmi) H.
  assert (drop 0 p = init_insts ++ rest) as Hd by done. cbn in Hd.
  do 6 (eapply evals_step; [exact Hd|]; cbn; unfold alu32;
        repeat (rewrite set_reg_eq || rewrite set_reg_ne by done); cbn; apply drop_next in Hd).
  apply H. split; repeat (rewrite set_reg_eq || rewrite set_reg_ne by done); f_equal.
  - unfold ctx_type. by apply uint32_id, land_u32.
  - unfold ctx_access. rewrite (uint32_id (access_type c)) by done. apply uint32_id.
    unfold mask, ctx_access in Hm. lia.
Qed.

(** ** The generator produces that layout *)

Definition compiled (def : bool) (r : Rule) (x : crule) : Prop :=
  x.2 = r /\ Allow r = negb def /\ bpf_access 0 (Permissions_ r) = Ok x.1.2 /\
  ((Type_ r = CharDevice /\ x.1.1 = BPF_DEVCG_DEV_CHAR) \/
   (Type_ r = BlockDevice /\ x.1.1 = BPF_DEVCG_DEV_BLOCK)).

Lemma appendRule_code (p p' : program) (r : Rule) :
  appendRule p r = Ok p' -> Allow r = negb (p_defaultAllow p) ->
  exists x : crule, compiled (p_defaultAllow p) r x /\
    insts p' = insts p ++ sym_first (blockSym (blockID p))
                 (rule_block x.1.1 x.1.2 r (blockSym (blockID p + 1))) /\
    p_defaultAllow p' = p_defaultAllow p /\ blockID p' = blockID p + 1.
Proof.
  unfold appendRule. destruct (blockID p <? 0); [done|]. intros H Ha. inv_ok.
  rename x into bt. rename x2 into ba. exists (bt, ba, r). cbn. split; [|done].
  repeat split; try done. cbn. repeat case_bool_decide; inv_ok; auto.
Qed.

Lemma appendRules_code (bl : bool) (l : list Rule) (idx : nat) (p p' : program) :
  appendRules bl idx p l = Ok p' ->
  exists cl, Forall2 (compiled (p_defaultAllow p))
               (filter (fun r => Type_ r <> WildcardDevice) l) cl /\
    finalize p' = insts p ++ filter_code (p_defaultAllow p) (blockID p) cl.
Proof.
  revert idx p. induction l as [|r l IH]; intros idx p H; cbn [appendRules] in H.
  { inv_ok. exists []. by split. }
  case_bool_decide as Hw.
  - destruct (_ || _); [done|]. rewrite filter_cons_False by (by intros ?). by apply IH in H.
  - destruct (Bool.eqb _ _) eqn:Ea; [done|]. apply eqb_false_iff in Ea.
    apply bind_ok in H as (p1 & H1 & H).
    apply appendRule_code in H1 as (x & Hx & Hi & Hd & Hid).
    2: { destruct (Allow r), (p_defaultAllow p); done. }
    apply IH in H as (cl & Hcl & Hf). exists (x :: cl). rewrite filter_cons_True by done.
    split; [constructor; [done|by rewrite <- Hd]|].
    destruct x as [[bt ba] r']. pose proof Hx as (Hr & _). cbn in Hr. subst r'.
    rewrite Hf, Hi, Hd, Hid, <- app_assoc. done.
Qed.

(** ** Matching a block is matching the exception *)

(** A rule's number is compared as a sign-extended 32-bit immediate; with a
    device number below 2^31 (Linux has 12-bit majors and 20-bit minors) that is
    equality of the numbers. *)
Lemma number_match_spec (v n : Z) :
  number_ok n -> 0 <= v < 2 ^ 31 ->
  number_match v n = bool_decide (n = Wildcard) || bool_decide (n = v).
Proof.
  unfold number_match, number_ok, Wildcard, max_uint32. intros [-> | Hn] Hv; [done|].
  destruct (Z.leb_spec 0 n); [|lia]. rewrite (bool_decide_eq_false_2 (n = -1)) by lia. cbn [negb orb].
  assert (uint64 (int32 n) = if decide (n < 2 ^ 31) then n else 2 ^ 64 + n - 2 ^ 32) as ->.
  { case_decide; [rewrite int32_small by lia; unfold uint64; by rewrite Z.mod_small by lia|].
    rewrite int32_large by lia.
    unfold uint64. symmetry. apply (Z.mod_unique _ _ (-1)); lia. }
  case_decide; destruct (Z.eqb_spec v n) as [->|]; case_bool_decide; try lia;
    try (apply Z.eqb_neq; lia); try apply Z.eqb_refl.
Qed.

Lemma bpf_access_spec (p : Permissions) (ba a : Z) :
  canonical p -> bpf_access 0 p = Ok ba -> mask a ->
  (ba =? all_access) || (Z.land a ba =? a) = covers p (emu_mask a).
Proof.
  intros Hc H Ha. rewrite Hc in H |- *. pose proof (mask_toSet p) as Hm. unfold covers.
  rewrite toSet_fromSet by done. apply mask_cases in Hm, Ha.
  destruct Hm as [Hm|[Hm|[Hm|[Hm|[Hm|[Hm|[Hm|Hm]]]]]]]; rewrite Hm in H |- *;
    injection H as <-; destruct_or!; subst a; reflexivity.
Qed.

Lemma crule_match_spec (def : bool) (m : deviceMeta) (p : Permissions) (x : crule) (c : dev_ctx) :
  request_ok c -> canonical p -> number_ok (major m) -> number_ok (minor m) ->
  compiled def (metaRule m p (negb def)) x ->
  crule_match (ctx_type c) (ctx_access c) (ctx_major c) (ctx_minor c) x =
    meta_matches m (ctx_request c) && covers p (rq_access (ctx_request c)).
Proof.
  intros [(_ & Ha & Hma & Hmi) [Hma' Hmi']] Hc Fma Fmi (Hr & _ & Hb & Ht). destruct x as [[bt ba] r]. cbn in Hr, Hb, Ht. subst r.
  unfold crule_match, block_match, meta_matches. cbn [fst snd Major Minor metaRule ctx_request rq_type rq_major rq_minor rq_access].
  rewrite !number_match_spec by (done || lia). rewrite (bpf_access_spec p ba) by done.
  assert ((ctx_type c =? uint64 bt) = bool_decide (node m = emu_type (ctx_type c))) as ->.
  { unfold emu_type, BPF_DEVCG_DEV_BLOCK, BPF_DEVCG_DEV_CHAR in *.
    destruct Ht as [[-> ->] | [-> ->]]; change (uint64 2) with 2; change (uint64 1) with 1;
      generalize (ctx_type c) as t; intros t;
      destruct (Z.eqb_spec t 1), (Z.eqb_spec t 2); subst; done. }
  destruct (bool_decide (node m = _)), (covers _ _); cbn; rewrite ?andb_true_r, ?andb_false_r; done.
Qed.

(** ** The rules the generator loops over *)

Definition entryRules (e : Emulator) : list Rule :=
  map (fun d => metaRule (meta d) (perms d) (negb (defaultAllow e))) (orderedEntries (rules e)).

Lemma diffRules_entries (e : Emulator) :
  emu_wf e -> diffRules (rules e) None (negb (defaultAllow e)) = entryRules e.
Proof.
  intros W. unfold entryRules.
  assert (Forall (fun d => canonical (perms d) /\ perms d <> "") (orderedEntries (rules e))) as HF.
  { apply Forall_forall. intros d Hd%orderedEntries_elem. by apply W in Hd as (? & ? & _). }
  rewrite diffRules_omap. induction HF as [|d l [Hc Hne] _ IH]; [done|]. cbn.
  unfold diffRule at 1, perms_IsEmpty. rewrite rules_get_nil, Difference_nil by done.
  rewrite bool_decide_eq_false_2 by done. cbn. f_equal. exact IH.
Qed.

Lemma Rules_shape (e : Emulator) :
  emu_wf e ->
  Rules e = Ok ((if defaultAllow e then [disruptiveRule e] else []) ++ entryRules e).
Proof.
  intros W. unfold Rules, Transition, IsBlacklist. rewrite <- (diffRules_entries e W).
  cbn [emptyEmulator defaultAllow orb rules]. by destruct (defaultAllow e).
Qed.

Lemma entryRules_not_wildcard (e : Emulator) :
  emu_wf e -> Forall (fun r => Type_ r <> WildcardDevice) (entryRules e).
Proof.
  intros W. unfold entryRules. rewrite Forall_fmap. apply Forall_forall.
  intros d Hd%orderedEntries_elem. apply W in Hd as (_ & _ & Hn). cbn. by destruct Hn as [-> | ->].
Qed.

Lemma Rules_clean (e : Emulator) (l : list Rule) :
  emu_wf e -> Rules e = Ok l -> filter (fun r => Type_ r <> WildcardDevice) l = entryRules e.
Proof.
  intros W. rewrite Rules_shape by done. intros [= <-].
  rewrite filter_app, (filter_all _ (entryRules e)) by (by apply entryRules_not_wildcard).
  by destruct (defaultAllow e).
Qed.

Lemma existsb_forall2 {A B} (f : A -> bool) (g : B -> bool) (l : list A) (k : list B) :
  Forall2 (fun a b => f a = g b) l k -> existsb f l = existsb g k.
Proof. induction 1 as [|a b l k H _ IH]; cbn; [done|]. by rewrite H, IH. Qed.

Lemma Forall2_impl_elem {A B} (P Q : A -> B -> Prop) (l : list A) (k : list B) :
  Forall2 P l k -> (forall a b, a ∈ l -> P a b -> Q a b) -> Forall2 Q l k.
Proof.
  induction 1 as [|a b l k H _ IH]; intros HQ; constructor; [apply HQ; [left|done]|].
  apply IH. intros a' b' Ha'. apply HQ. by right.
Qed.

Lemma existsb_perm {A} (f : A -> bool) (l k : list A) : l ≡ₚ k -> existsb f l = existsb f k.
Proof.
  induction 1; cbn; [done|by f_equal| |congruence].
  by rewrite !orb_assoc, (orb_comm (f y)).
Qed.

Lemma exception_hit_ordered (e : Emulator) (q : request) :
  exception_hit e q =
    existsb (fun d => meta_matches (meta d) q && covers (perms d) (rq_access q))
            (orderedEntries (rules e)).
Proof.
  unfold exception_hit. rewrite (existsb_perm _ _ _ (orderedEntries_perm (rules e))).
  induction (map_to_list (rmap (rules e))) as [|[m p] l IH]; cbn; [done|]. by rewrite <- IH.
Qed.

(** ** The program decides as the emulator does *)

Lemma filter_runs (rs : list Rule) (emu : Emulator) (prog : list insn) (lic : string)
    (c : dev_ctx) :
  apply_rules emptyEmulator rs = Ok emu -> emu_fits emu ->
  DeviceFilter rs = Ok (prog, lic) -> request_ok c ->
  run (length prog) prog c 0 init_regs = Some (b2z (emu_decision emu (ctx_request c))).
Proof.
  intros He [W Hn] Hf Hrq. pose proof (proj1 Hrq) as Hc.
  unfold DeviceFilter in Hf. rewrite He in Hf. cbn [mbind result_bind] in Hf.
  apply bind_ok in Hf as (clean & Hcl & Hf). apply bind_ok in Hf as (p' & Hp' & Hf). inv_ok.
  apply appendRules_code in Hp' as (cl & HF & ->). cbn [insts prog_init app p_defaultAllow blockID] in *.
  rewrite (Rules_clean emu clean W Hcl) in HF.
  enough (evals (init_insts ++ filter_code (IsBlacklist emu) 0 cl) c 0 init_regs
            (b2z (emu_decision emu (ctx_request c)))) as H by (apply H; lia).
  eapply evals_init; [done|done|]. intros rs' Hh.
  assert (exception_hit emu (ctx_request c) =
          existsb (crule_match (ctx_type c) (ctx_access c) (ctx_major c) (ctx_minor c)) cl) as Hhit.
  { rewrite exception_hit_ordered. apply existsb_forall2.
    apply (Forall2_fmap_l (fun d => metaRule (meta d) (perms d) (negb (defaultAllow emu)))) in HF.
    eapply Forall2_impl_elem; [exact HF|]. cbn.
    intros d x Hd%orderedEntries_elem Hx. symmetry.
    pose proof (W _ _ Hd) as (Hca & _). pose proof (Hn _ _ Hd) as [? ?].
    by apply (crule_match_spec (defaultAllow emu) (meta d)). }
  unfold emu_decision. rewrite Hhit. change 6%nat with (length init_insts).
  apply evals_code; [| |lia| |done].
  - eapply Forall2_Forall_r; [exact HF|]. apply Forall_forall. intros r _ x (-> & Ha & _). done.
  - destruct Hc as (_ & Hm & _). unfold mask in Hm. lia.
  - intros i s Hi. unfold init_insts in Hi. rewrite !elem_of_cons, elem_of_nil in Hi. intros Hs.
    destruct_or!; subst; done.
Qed.

(** ** The generator does not fail on what the emulator accepts *)

Lemma bpf_access_canonical (p : Permissions) : canonical p -> exists ba, bpf_access 0 p = Ok ba.
Proof.
  intros ->. pose proof (mask_toSet p) as H. apply mask_cases in H.
  destruct H as [H|[H|[H|[H|[H|[H|[H|H]]]]]]]; rewrite H; eexists; reflexivity.
Qed.

Lemma appendRule_total (p : program) (m : deviceMeta) (pe : Permissions) (a : bool) :
  0 <= blockID p -> cgroup_node (node m) -> canonical pe ->
  major m <= max_uint32 -> minor m <= max_uint32 ->
  exists p', appendRule p (metaRule m pe a) = Ok p' /\
    p_defaultAllow p' = p_defaultAllow p /\ 0 <= blockID p'.
Proof.
  intros Hid Hn Hc Hma Hmi. unfold appendRule. destruct (Z.ltb_spec (blockID p) 0); [lia|].
  cbn [metaRule Type_ Major Minor Permissions_].
  destruct (Z.ltb_spec max_uint32 (major m)); [lia|]. destruct (Z.ltb_spec max_uint32 (minor m)); [lia|].
  destruct (bpf_access_canonical pe Hc) as [ba ->].
  destruct Hn as [-> | ->]; (eexists; split; [reflexivity|]; cbn; split; [done|lia]).
Qed.

Lemma appendRules_total (bl : bool) (l : list deviceRule) (idx : nat) (p : program) :
  0 <= blockID p ->
  Forall (fun d => cgroup_node (node (meta d)) /\ canonical (perms d) /\
            major (meta d) <= max_uint32 /\ minor (meta d) <= max_uint32) l ->
  exists p', appendRules bl idx p
    (map (fun d => metaRule (meta d) (perms d) (negb (p_defaultAllow p))) l) = Ok p'.
Proof.
  intros Hid Hl. revert idx p Hid. induction Hl as [|d l (Hn & Hc & Hma & Hmi) _ IH]; intros idx p Hid.
  { by eexists. }
  cbn [map appendRules metaRule Type_ Allow].
  rewrite bool_decide_eq_false_2 by (by destruct Hn as [-> | ->]).
  assert (Bool.eqb (negb (p_defaultAllow p)) (p_defaultAllow p) = false) as ->
    by (by destruct (p_defaultAllow p)).
  destruct (appendRule_total p (meta d) (perms d) (negb (p_defaultAllow p))) as (p' & Hp' & Hd & Hid');
    [done..|]. change (mkRule _ _ _ _ _) with (metaRule (meta d) (perms d) (negb (p_defaultAllow p))).
  rewrite Hp'. cbn [mbind result_bind]. rewrite <- Hd. by apply IH.
Qed.

(** The generator is total on what the emulator accepts: its internal-error
    branches (misplaced wildcard, no-op rule, finalized program, unknown access)
    are unreachable. *)
Lemma DeviceFilter_total (rs : list Rule) (emu : Emulator) :
  apply_rules emptyEmulator rs = Ok emu -> emu_fits emu ->
  exists prog, DeviceFilter rs = Ok (prog, license).
Proof.
  intros He [W Hn].
  unfold DeviceFilter. rewrite He. cbn [mbind result_bind]. rewrite Rules_shape by done.
  cbn [mbind result_bind].
  destruct (appendRules_total (IsBlacklist emu) (orderedEntries (rules emu))
              (if defaultAllow emu then 1 else 0) (prog_init (mkProgram [] (IsBlacklist emu) 0)))
    as [p' Hp']; [cbn; lia| |].
  { apply Forall_forall. intros d Hd%orderedEntries_elem. pose proof (W _ _ Hd) as (? & _ & ?).
    pose proof (Hn _ _ Hd) as [Hma Hmi]. unfold number_ok, Wildcard in Hma, Hmi.
    do 2 (split; [done|]). unfold max_uint32 in *. lia. }
  exists (finalize p'). change (negb (p_defaultAllow _)) with (negb (defaultAllow emu)) in Hp'.
  unfold IsBlacklist, entryRules in *.
  destruct (defaultAllow emu) eqn:E; cbn [app appendRules negb] in *; [|by rewrite Hp'].
  cbn [disruptiveRule Type_ Allow]. rewrite E, !bool_decide_eq_true_2 by done.
  cbn [negb orb Bool.eqb]. by rewrite Hp'.
Qed.

(** ** The devices cgroup's own decision

    A v1 devices cgroup that denies by default wants an exception that covers
    the whole access; one that allows by default refuses an access of which an
    exception names any part. *)
Definition partial_hit (e : Emulator) (q : request) : bool :=
  existsb (fun mp : deviceMeta * Permissions =>
             meta_matches mp.1 q && negb (Z.land (rq_access q) (toSet mp.2) =? 0))
          (map_to_list (rmap (rules e))).

Definition cgroup_decision (e : Emulator) (q : request) : bool :=
  if defaultAllow e then negb (partial_hit e q) else exception_hit e q.

Lemma covers_one (p : Permissions) (a : Z) :
  a = 1 \/ a = 2 \/ a = 4 -> covers p (emu_mask a) = negb (Z.land (emu_mask a) (toSet p) =? 0).
Proof.
  intros Ha. unfold covers. pose proof (mask_toSet p) as Hm. apply mask_cases in Hm.
  destruct Ha as [->|[->| ->]]; destruct_or!; rewrite Hm; reflexivity.
Qed.

(** The two rules differ only for a combined access on a deny-list. *)
Lemma decisions_agree (e : Emulator) (c : dev_ctx) :
  IsBlacklist e = false \/ one_access c ->
  emu_decision e (ctx_request c) = cgroup_decision e (ctx_request c).
Proof.
  unfold IsBlacklist, emu_decision, cgroup_decision. intros H.
  destruct (defaultAllow e) eqn:E; [|by rewrite xorb_false_l]. destruct H as [H|H]; [done|].
  rewrite xorb_true_l. f_equal. unfold exception_hit, partial_hit.
  induction (map_to_list (rmap (rules e))) as [|mp l IH]; cbn [existsb]; [done|]. rewrite IH. do 2 f_equal.
  by apply covers_one.
Qed.

(** ** Properties *)

(** C4.  Compiler correctness of the device filter, for every rule list the
    emulator accepts whose rules name a permission and wildcard or 32-bit
    numbers: [DeviceFilter] returns a program, and on the context of any request
    for a device with numbers below 2^31 (Linux device numbers have 12 and 20
    bits) the program ends within as many steps as it has instructions and
    returns 1 exactly when the emulator's policy allows the request, an exception
    applying to the accesses it covers completely.  For an allow-list that is
    the decision of a v1 devices cgroup on every request; for a deny-list it is
    on requests for a single permission (on a combined access the v1 cgroup is
    stricter, [filter_denylist_partial_access], although the comment in
    DeviceFilter promises the same behaviour). *)
Theorem DeviceFilter_correct (rs : list Rule) (emu : Emulator) :
  Forall input_ok rs -> apply_rules emptyEmulator rs = Ok emu ->
  exists prog, DeviceFilter rs = Ok (prog, license) /\
    forall c, request_ok c ->
      exists allowed, run (length prog) prog c 0 init_regs = Some (b2z allowed) /\
        allowed = emu_decision emu (ctx_request c) /\
        (IsBlacklist emu = false \/ one_access c -> allowed = cgroup_decision emu (ctx_request c)).
Proof.
  intros Hin He.
  assert (emu_fits emu) as Hf by (eapply apply_rules_fits; [apply emu_fits_empty|done..]).
  destruct (DeviceFilter_total rs emu He Hf) as [prog Hp]. exists prog. split; [done|].
  intros c Hc. exists (emu_decision emu (ctx_request c)).
  split; [by eapply filter_runs|]. split; [done|]. apply decisions_agree.
Qed.

(** A write to a read-only char device, and a read of it. *)
Definition wit_ctx : dev_ctx := mkCtx (Z.shiftl 4 16 + 2) 1 3.
Definition wit_ctx_read : dev_ctx := mkCtx (Z.shiftl 2 16 + 2) 1 3.

Lemma DeviceFilter_correct_witness :
  exists prog, DeviceFilter wit_rules = Ok (prog, license) /\
    run (length prog) prog wit_ctx 0 init_regs = Some 0 /\
    run (length prog) prog wit_ctx_read 0 init_regs = Some 1.
Proof.
  destruct (DeviceFilter_correct wit_rules wit_built wit_rules_ok eq_refl) as (prog & HP & HC).
  exists prog. split; [exact HP|]. split.
  - destruct (HC wit_ctx) as (a & HR & -> & _); [vm_compute; intuition discriminate|]. exact HR.
  - destruct (HC wit_ctx_read) as (a & HR & -> & _); [vm_compute; intuition discriminate|]. exact HR.
Defined.

(** ** Limits of the filter *)

Definition allow_all : Rule :=
  {| Type_ := WildcardDevice; Major := -1; Minor := -1; Permissions_ := "rwm"; Allow := true |}.

(** Numbers from 2^31 on are accepted by [appendRule] (its check is against
    MaxUint32) but its [int32] immediate is sign-extended by the 64-bit compare:
    a deny rule for char device 2147483648:0 compiles, the emulated cgroup
    refuses the device, and the filter admits it. *)
Theorem filter_misses_large_major :
  let rs := [allow_all; metaRule (mkMeta CharDevice 2147483648 0) "rwm" false] in
  let c := mkCtx (Z.shiftl 2 16 + 2) 2147483648 0 in
  exists emu prog, apply_rules emptyEmulator rs = Ok emu /\ DeviceFilter rs = Ok (prog, license) /\
    ctx_ok c /\ emu_decision emu (ctx_request c) = false /\
    run (length prog) prog c 0 init_regs = Some 1.
Proof.
  eexists _, _. split; [vm_compute; reflexivity|]. split; [vm_compute; reflexivity|].
  split; [vm_compute; intuition discriminate|]. split; vm_compute; reflexivity.
Qed.

(** In deny-list mode the filter refuses an access only when one exception
    covers all of it: with writes to char 1:3 denied, a write-only request is
    refused and a read-write request is admitted, which a v1 devices cgroup
    refuses. *)
Theorem filter_denylist_partial_access :
  let rs := [allow_all; metaRule (mkMeta CharDevice 1 3) "w" false] in
  let c := mkCtx (Z.shiftl 6 16 + 2) 1 3 in
  exists emu prog, apply_rules emptyEmulator rs = Ok emu /\ DeviceFilter rs = Ok (prog, license) /\
    run (length prog) prog (mkCtx (Z.shiftl 4 16 + 2) 1 3) 0 init_regs = Some 0 /\
    run (length prog) prog c 0 init_regs = Some 1 /\ cgroup_decision emu (ctx_request c) = false.
Proof.
  eexists _, _. do 2 (split; [vm_compute; reflexivity|]).
  split; [vm_compute; reflexivity|]. split; vm_compute; reflexivity.
Qed.
