(* ===== verification/GoPath.v ===== *)
(** * Go's [path/filepath] on Unix

    [Clean], [Join], [Rel], [Base], [IsAbs] and [Abs] as the sources use them,
    defined on path components.  The lemmas characterise cleaned paths by a
    normal form ([norm]) and show that [Clean] is idempotent and that joining a
    cleaned relative path with no ".." stays below the root. *)

From S2P Require Import Prelude GoStrings.

Open Scope string_scope.
Open Scope list_scope.

Definition slash : string := String ch_slash "".

(** [filepath.IsAbs] *)
Definition IsAbs (p : string) : bool := has_prefix slash p.

(** One path element, on the reversed list of elements kept so far. *)
Definition comp_step (rooted : bool) (stk : list string) (c : string) : list string :=
  if bool_decide (c = "") || bool_decide (c = ".") then stk
  else if bool_decide (c = "..") then
    match stk with
    | [] => if rooted then [] else [".."]
    | top :: stk' => if bool_decide (top = "..") then ".." :: stk else stk'
    end
  else c :: stk.

Definition comps (rooted : bool) (p : string) : list string :=
  rev (fold_left (comp_step rooted) (split ch_slash p) []).

Definition render (rooted : bool) (cs : list string) : string :=
  if rooted then slash +:+ join slash cs
  else if bool_decide (cs = []) then "." else join slash cs.

(** [filepath.Clean] *)
Definition Clean (p : string) : string :=
  if bool_decide (p = "") then "." else render (IsAbs p) (comps (IsAbs p) p).

(** [filepath.Join]: leading empty elements are ignored. *)
Fixpoint Join (elems : list string) : string :=
  match elems with
  | [] => ""
  | e :: rest => if bool_decide (e = "") then Join rest else Clean (join slash (e :: rest))
  end.

(** [filepath.Abs]; [wd] is the result of [os.Getwd]. *)
Definition Abs (wd : result string) (p : string) : result string :=
  if IsAbs p then Ok (Clean p) else w ← wd; Ok (Join [w; p]).

Fixpoint trim_trailing_slashes (s : string) : string :=
  match s with
  | EmptyString => EmptyString
  | String c s' =>
      let t := trim_trailing_slashes s' in
      if bool_decide (c = ch_slash) && bool_decide (t = "") then "" else String c t
  end.

(** [filepath.Base] and [path.Base] *)
Definition Base (p : string) : string :=
  if bool_decide (p = "") then "." else
  let b := default "" (last (split ch_slash (trim_trailing_slashes p))) in
  if bool_decide (b = "") then slash else b.

(** [filepath.Dir]: what precedes the last slash, cleaned. *)
Definition Dir (p : string) : string :=
  match removelast (split ch_slash p) with [] => "." | l => Clean (join slash l +:+ slash) end.

(** Elements of a cleaned path: none for "" and the root. *)
Definition elements_of (s : string) : list string :=
  let body := trim_prefix s slash in
  if bool_decide (body = "") then [] else split ch_slash body.

Fixpoint strip_common (a b : list string) : list string * list string :=
  match a, b with
  | x :: a', y :: b' => if bool_decide (x = y) then strip_common a' b' else (a, b)
  | _, _ => (a, b)
  end.

Definition ErrRel : error := ErrNew "Rel: can't make target relative to base".

(** [filepath.Rel] *)
Definition Rel (basepath targpath : string) : result string :=
  let base := Clean basepath in
  let targ := Clean targpath in
  if bool_decide (targ = base) then Ok "." else
  let base := if bool_decide (base = ".") then "" else base in
  if negb (Bool.eqb (IsAbs base) (IsAbs targ)) then Err ErrRel else
  let '(b, t) := strip_common (elements_of base) (elements_of targ) in
  if bool_decide (head b = Some "..") then Err ErrRel
  else Ok (join slash (replicate (length b) ".." ++ t)).

(** ** Normal forms *)

(** A proper path element. *)
Definition good (c : string) : Prop :=
  c <> "" /\ c <> "." /\ c <> ".." /\ contains_char ch_slash c = false.

#[global] Instance good_dec (c : string) : Decision (good c).
Proof. unfold good. apply _. Defined.

(** Leading ".."s (never under the root), then proper elements. *)
Definition norm (rooted : bool) (cs : list string) : Prop :=
  exists k names, cs = replicate k ".." ++ names /\ Forall good names /\ (rooted = true -> k = 0).

Lemma comp_step_good (r : bool) (stk : list string) (c : string) :
  good c -> comp_step r stk c = c :: stk.
Proof.
  intros (H1 & H2 & H3 & _). unfold comp_step. by rewrite !bool_decide_eq_false_2.
Qed.

Lemma fold_good (r : bool) (names stk : list string) :
  Forall good names -> fold_left (comp_step r) names stk = rev names ++ stk.
Proof.
  intros H. revert stk. induction H as [|c l Hc _ IH]; intros stk; [done|]. cbn [fold_left rev].
  by rewrite comp_step_good, IH, <- app_assoc.
Qed.

Lemma replicate_snoc_comm {A} (k : nat) (x : A) : x :: replicate k x = replicate k x ++ [x].
Proof. induction k as [|k IH]; [done|]. cbn. by rewrite <- IH. Qed.

Lemma rev_replicate {A} (k : nat) (x : A) : rev (replicate k x) = replicate k x.
Proof. induction k as [|k IH]; [done|]. cbn. by rewrite IH, <- replicate_snoc_comm. Qed.

Lemma fold_dotdot (k j : nat) :
  fold_left (comp_step false) (replicate k "..") (replicate j "..") = replicate (k + j) "..".
Proof.
  revert j. induction k as [|k IH]; intros j; [done|]. cbn [replicate fold_left].
  assert (comp_step false (replicate j "..") ".." = replicate (S j) "..") as -> by (by destruct j).
  rewrite IH. f_equal. lia.
Qed.

Lemma fold_norm (r : bool) (cs : list string) :
  norm r cs -> fold_left (comp_step r) cs [] = rev cs.
Proof.
  intros (k & names & -> & Hn & Hr). rewrite fold_left_app, rev_app_distr, rev_replicate.
  rewrite <- (fold_good r names) by done. f_equal. destruct r.
  - by rewrite Hr.
  - rewrite <- (Nat.add_0_r k) at 2. apply (fold_dotdot k 0).
Qed.

(** What a stack of kept elements looks like. *)
Definition norm_stk (r : bool) (stk : list string) : Prop := norm r (rev stk).

Lemma comp_step_norm (r : bool) (stk : list string) (c : string) :
  contains_char ch_slash c = false -> norm_stk r stk -> norm_stk r (comp_step r stk c).
Proof.
  intros Hc (k & names & E & Hn & Hr). unfold comp_step.
  destruct (bool_decide (c = "") || _) eqn:E1; [by exists k, names|].
  apply orb_false_iff in E1 as [H1%bool_decide_eq_false_1 H2%bool_decide_eq_false_1].
  case_bool_decide as H3.
  - destruct stk as [|top stk].
    { destruct r; [by exists 0, []|]. by exists 1, []. }
    cbn in E. destruct names as [|n names _] using rev_ind.
    + rewrite app_nil_r in E. destruct k as [|k]; [by destruct (rev stk)|].
      replace (S k) with (k + 1) in E by lia. rewrite replicate_add in E.
      apply app_inj_tail in E as [E ->]. rewrite bool_decide_eq_true_2 by done.
      exists (S (S k)), []. split; [|split; [done|intros; by specialize (Hr H)]].
      cbn [rev]. rewrite E, app_nil_r. cbn [replicate].
      by rewrite replicate_snoc_comm, app_comm_cons, replicate_snoc_comm.
    + rewrite app_assoc in E. apply app_inj_tail in E as [E ->].
      apply Forall_app in Hn as [Hn Hg]. apply Forall_cons in Hg as [Hg _].
      rewrite bool_decide_eq_false_2 by (by destruct Hg as (_ & _ & ? & _)). by exists k, names.
  - exists k, (names ++ [c]). split; [|split; [|done]].
    + cbn [rev]. by rewrite E, app_assoc.
    + apply Forall_app. split; [done|]. by repeat constructor.
Qed.

Lemma comps_norm (r : bool) (p : string) : norm r (comps r p).
Proof.
  unfold comps. assert (norm_stk r []) as H0 by (by exists 0, []).
  pose proof (split_parts ch_slash p) as Hp. revert H0. generalize ([] : list string) as stk.
  induction Hp as [|c l Hc _ IH]; intros stk H0; [exact H0|]. cbn. by apply IH, comp_step_norm.
Qed.

Lemma norm_parts (r : bool) (cs : list string) :
  norm r cs -> Forall (fun c => contains_char ch_slash c = false) cs.
Proof.
  intros (k & names & -> & Hn & _). apply Forall_app. split.
  - apply Forall_replicate. done.
  - eapply Forall_impl; [exact Hn|]. by intros c (_ & _ & _ & ?).
Qed.

Lemma norm_not_empty (r : bool) (cs : list string) : norm r cs -> Forall (fun c => c <> "") cs.
Proof.
  intros (k & names & -> & Hn & _). apply Forall_app. split.
  - apply Forall_replicate. done.
  - eapply Forall_impl; [exact Hn|]. by intros c (? & _).
Qed.

(** ** [Clean] *)

Lemma split_app_sep (c : ascii) (a b : string) :
  split c (a +:+ String c b) = split c a ++ split c b.
Proof.
  unfold split. induction a as [|x a IH].
  - rewrite app_empty_l. cbn. by rewrite bool_decide_eq_true_2.
  - rewrite app_cons. cbn. rewrite IH. case_bool_decide; [done|].
    destruct (split_func _ a) as [|w ws] eqn:E; [by apply split_func_not_nil in E|]. done.
Qed.

Lemma has_prefix_slash (s : string) :
  has_prefix slash s = true <-> exists t, s = String ch_slash t.
Proof. rewrite has_prefix_spec. split; intros [t ->]; by exists t. Qed.

Lemma join_cons_not_empty (sep c : string) (l : list string) : c <> "" -> join sep (c :: l) <> "".
Proof. intros Hc. destruct l; cbn [join]; [done|]. by destruct c. Qed.

Lemma IsAbs_no_slash (c t : string) :
  c <> "" -> contains_char ch_slash c = false -> IsAbs (c +:+ t) = false.
Proof.
  intros Hne Hc. destruct c as [|x c]; [done|]. cbn in Hc. apply orb_false_iff in Hc as [Hx _].
  unfold IsAbs, slash. rewrite app_cons. cbn. apply bool_decide_eq_false_1 in Hx.
  rewrite bool_decide_eq_false_2; [done|]. intros <-. by apply Hx.
Qed.

Lemma IsAbs_render (r : bool) (cs : list string) : norm r cs -> IsAbs (render r cs) = r.
Proof.
  intros Hn. unfold render. destruct r; [apply has_prefix_app|].
  pose proof (norm_parts _ _ Hn) as Hp. pose proof (norm_not_empty _ _ Hn) as He.
  case_bool_decide; [done|]. destruct cs as [|c cs]; [done|].
  apply Forall_cons in Hp as [Hp _], He as [He _]. destruct cs as [|d cs]; cbn [join].
  - rewrite <- (app_empty_r c). by apply IsAbs_no_slash.
  - by apply IsAbs_no_slash.
Qed.

Lemma render_not_empty (r : bool) (cs : list string) : norm r cs -> render r cs <> "".
Proof.
  intros Hn. unfold render. destruct r; [done|]. case_bool_decide; [done|].
  destruct cs as [|c cs]; [done|]. apply norm_not_empty, Forall_cons in Hn as [Hc _].
  by apply join_cons_not_empty.
Qed.

Lemma comps_render (r : bool) (cs : list string) : norm r cs -> comps r (render r cs) = cs.
Proof.
  intros Hn. pose proof (norm_parts _ _ Hn) as Hp. unfold comps.
  assert (fold_left (comp_step r) (split ch_slash (render r cs)) [] = rev cs) as ->;
    [|apply rev_involutive].
  rewrite <- (fold_norm r cs) by done. unfold render. destruct r.
  - unfold slash. rewrite app_cons, <- (app_empty_l (String ch_slash _)), split_app_sep, !app_empty_l.
    rewrite fold_left_app. destruct cs as [|c cs]; [done|]. by rewrite split_join.
  - case_bool_decide; [by subst|]. unfold slash. by rewrite split_join.
Qed.

Lemma Clean_render (r : bool) (cs : list string) : norm r cs -> Clean (render r cs) = render r cs.
Proof.
  intros Hn. unfold Clean. rewrite bool_decide_eq_false_2 by (by apply render_not_empty).
  by rewrite IsAbs_render, comps_render.
Qed.

(** Every cleaned path is the rendering of a normal form. *)
Lemma Clean_spec (p : string) : exists cs, norm (IsAbs p) cs /\ Clean p = render (IsAbs p) cs.
Proof.
  unfold Clean. case_bool_decide; [subst; exists []; split; [by exists 0, []|done]|].
  exists (comps (IsAbs p) p). split; [apply comps_norm|done].
Qed.

Lemma Clean_idemp (p : string) : Clean (Clean p) = Clean p.
Proof. destruct (Clean_spec p) as (cs & Hn & ->). by apply Clean_render. Qed.

Lemma IsAbs_Clean (p : string) : IsAbs (Clean p) = IsAbs p.
Proof. destruct (Clean_spec p) as (cs & Hn & ->). by apply IsAbs_render. Qed.

Lemma Clean_abs (p : string) : IsAbs p = true -> Clean p = render true (comps true p).
Proof.
  intros H. unfold Clean. rewrite H. case_bool_decide; [by subst|done].
Qed.

(** ** [Join] below an absolute root *)

Lemma IsAbs_app (a b : string) : IsAbs a = true -> IsAbs (a +:+ b) = true.
Proof. unfold IsAbs. rewrite !has_prefix_spec. intros [t ->]. exists (t +:+ b). apply app_assoc_str. Qed.

Lemma Join_two (root rel : string) :
  IsAbs root = true ->
  Join [root; rel] =
    render true (rev (fold_left (comp_step true) (split ch_slash rel) (rev (comps true root)))).
Proof.
  intros Ha. assert (root <> "") as Hne by (by intros ->). cbn [Join].
  rewrite bool_decide_eq_false_2 by done. cbn [join]. unfold slash.
  rewrite Clean_abs by (by apply IsAbs_app). unfold comps.
  rewrite app_cons, app_empty_l, split_app_sep, fold_left_app, rev_involutive. done.
Qed.

(** [p] is [root] or a path below it. *)
Definition below (root p : string) : Prop :=
  exists names, Forall good names /\ p = render true (comps true root ++ names).

Lemma norm_app_good (r : bool) (cs names : list string) :
  norm r cs -> Forall good names -> norm r (cs ++ names).
Proof.
  intros (k & n & -> & Hn & Hr) Hg. exists k, (n ++ names). rewrite app_assoc.
  split; [done|]. split; [by apply Forall_app|done].
Qed.

Lemma Join_good (root rel : string) (names : list string) :
  IsAbs root = true -> Forall good names ->
  (forall stk, fold_left (comp_step true) (split ch_slash rel) stk = rev names ++ stk) ->
  Join [root; rel] = render true (comps true root ++ names).
Proof.
  intros Ha Hg Hf. rewrite Join_two, Hf by done. by rewrite rev_app_distr, !rev_involutive.
Qed.

Lemma Join_good_elem (root c : string) :
  IsAbs root = true -> good c -> Join [root; c] = render true (comps true root ++ [c]).
Proof.
  intros Ha Hg. apply Join_good; [done|by apply Forall_one|]. intros stk.
  rewrite split_no_sep by apply Hg. cbn. by rewrite comp_step_good.
Qed.

Lemma Join_names (names : list string) (c : string) :
  Forall good names -> good c -> Join [render true names; c] = render true (names ++ [c]).
Proof.
  intros Hn Hc. assert (norm true names) as Hr by by exists 0, names.
  rewrite Join_good_elem by (done || apply IsAbs_render, Hr). by rewrite comps_render.
Qed.

Lemma comps_below (root : string) (names : list string) :
  Forall good names -> comps true (render true (comps true root ++ names)) = comps true root ++ names.
Proof. intros Hg. apply comps_render, norm_app_good; [apply comps_norm|done]. Qed.

Lemma below_refl (root : string) : IsAbs root = true -> below root (Clean root).
Proof. intros Ha. exists []. split; [done|]. by rewrite app_nil_r, Clean_abs. Qed.

Lemma below_Join (root p c : string) :
  below root p -> good c -> below root (Join [p; c]) /\ Join [p; c] <> p.
Proof.
  intros (names & Hg & ->) Hc. rewrite Join_good_elem, comps_below by (done || apply has_prefix_app).
  split.
  - exists (names ++ [c]). rewrite app_assoc. split; [|done]. by apply Forall_snoc_2.
  - intros E. apply (f_equal (comps true)) in E. rewrite comps_below in E by done.
    rewrite <- app_assoc, comps_below in E by (by apply Forall_snoc_2).
    apply (f_equal length) in E. rewrite !length_app in E. cbn in E. lia.
Qed.

#[export] Hint Resolve comps_norm below_refl : sysbox.

Lemma norm_true_good (cs : list string) : norm true cs -> Forall good cs.
Proof. intros (k & names & -> & Hg & Hk). by rewrite Hk. Qed.

Lemma elements_render (names : list string) :
  Forall good names -> elements_of (render true names) = names.
Proof.
  intros Hg. unfold elements_of, render. rewrite trim_prefix_app. destruct names as [|n names]; [done|].
  assert (norm true (n :: names)) as Hn by by exists 0, (n :: names).
  rewrite bool_decide_eq_false_2.
  - unfold slash. apply split_join; [done|]. by apply norm_parts in Hn.
  - apply join_cons_not_empty. apply norm_not_empty, Forall_cons in Hn. tauto.
Qed.

(** A path that was cleaned stays below any directory it is joined to. *)
Lemma join_split_good (names stk : list string) :
  Forall good names -> fold_left (comp_step true) (split ch_slash (join slash names)) stk = rev names ++ stk.
Proof.
  intros Hg. destruct names as [|n names]; [done|]. unfold slash. rewrite split_join; [by apply fold_good|done|].
  apply (norm_parts true). by exists 0, (n :: names).
Qed.

Lemma Join_cleaned (root : string) (r : bool) (names : list string) :
  IsAbs root = true -> Forall good names -> Join [root; render r names] = render true (comps true root ++ names).
Proof.
  intros Hr Hg. apply Join_good; [done|done|]. intros stk. unfold render. destruct r.
  - unfold slash at 1. rewrite app_cons, app_empty_l. rewrite <- (app_empty_l (String ch_slash _)), split_app_sep.
    cbn [split split_func app]. cbn [fold_left]. by apply join_split_good.
  - case_bool_decide as E; [by subst|by apply join_split_good].
Qed.

(** ** Relative paths that do not climb *)

Lemma dotdot_stays (l stk : list string) :
  ".." ∈ stk -> ".." ∈ fold_left (comp_step false) l stk.
Proof.
  revert stk. induction l as [|c l IH]; intros stk H; [done|]. cbn [fold_left]. apply IH.
  unfold comp_step. destruct (_ || _); [done|]. case_bool_decide; [|set_solver].
  destruct stk as [|top stk]; [by apply elem_of_nil in H|].
  case_bool_decide as Ht; [by right|]. apply elem_of_cons in H as [<-|H]; done.
Qed.

Lemma fold_under_base (l stk base : list string) :
  Forall (fun c => contains_char ch_slash c = false) l ->
  ".." ∉ fold_left (comp_step false) l stk ->
  fold_left (comp_step true) l (stk ++ base) = fold_left (comp_step false) l stk ++ base.
Proof.
  intros Hl. revert stk. induction Hl as [|c l Hc _ IH]; intros stk H; [done|].
  cbn [fold_left] in *. rewrite <- IH by done. f_equal.
  assert (".." ∉ comp_step false stk c) as Hs by (by intros ?%(dotdot_stays l)).
  unfold comp_step in *. destruct (_ || _); [done|]. case_bool_decide; [|done].
  destruct stk as [|top stk]; [set_solver|]. cbn [app]. case_bool_decide; [set_solver|done].
Qed.

(** The elements of a relative path with no ".." left are all proper. *)
Lemma norm_no_dotdot (r : bool) (cs : list string) : norm r cs -> ".." ∉ cs -> Forall good cs.
Proof. intros (k & names & -> & Hg & _) H. destruct k as [|k]; [done|]. set_solver. Qed.

Lemma Join_relative (root p : string) :
  IsAbs root = true -> ".." ∉ comps false p ->
  Join [root; p] = render true (comps true root ++ comps false p).
Proof.
  intros Hr Hd. rewrite Join_two by done. f_equal.
  rewrite <- (app_nil_l (rev (comps true root))), fold_under_base, rev_app_distr, rev_involutive; [done| |].
  - apply split_parts.
  - intros H. apply Hd. unfold comps. rewrite list_elem_of_In, <- in_rev, <- list_elem_of_In. done.
Qed.

(** The textual test for climbing, [cleaned == ".." || HasPrefix(cleaned, "../")]. *)
Definition climbs (cleaned : string) : bool :=
  bool_decide (cleaned = "..") || has_prefix "../" cleaned.

Lemma not_climbs (p : string) :
  p <> "" -> IsAbs p = false -> climbs (Clean p) = false -> ".." ∉ comps false p.
Proof.
  intros Hp Ha H. unfold Clean in H. rewrite Ha, bool_decide_eq_false_2 in H by done.
  destruct (comps_norm false p) as (k & names & E & Hg & _). rewrite E in *.
  destruct k as [|k].
  { cbn. rewrite Forall_forall in Hg. intros Hin%Hg. by destruct Hin as (_ & _ & ? & _). }
  cbn [replicate app] in H. unfold climbs, render in H.
  rewrite (bool_decide_eq_false_2 (_ :: _ = [])) in H by done.
  destruct (replicate k ".." ++ names) as [|x l] eqn:El; cbn [join] in H.
  { by rewrite bool_decide_eq_true_2 in H. }
  rewrite orb_false_iff in H. destruct H as [_ H].
  change ("../") with (".." +:+ slash) in H. rewrite <- app_assoc_str, has_prefix_app in H. done.
Qed.

Lemma not_climbs_below (root p : string) :
  IsAbs root = true -> p <> "" -> IsAbs p = false -> climbs (Clean p) = false ->
  below root (Join [root; p]).
Proof.
  intros Hr Hp Ha Hc. pose proof (not_climbs p Hp Ha Hc) as Hd. exists (comps false p).
  split; [|by apply Join_relative]. apply (norm_no_dotdot false); [apply comps_norm|done].
Qed.

(** ** Prefixes of cleaned paths *)

Lemma join_app (sep : string) (a b : list string) :
  a <> [] -> b <> [] -> join sep (a ++ b) = join sep a +:+ sep +:+ join sep b.
Proof.
  intros Ha Hb. induction a as [|x a IH]; [done|]. destruct a as [|y a].
  - cbn [app join]. by destruct b.
  - cbn [app join] in *. rewrite IH by done. by rewrite !app_assoc_str.
Qed.

Lemma comps_prefix_slash (a b : list string) :
  norm true a -> norm true b -> a <> [] ->
  has_prefix (render true a +:+ slash) (render true b) = true <-> exists c, c <> [] /\ b = a ++ c.
Proof.
  intros Ha Hb Hne. rewrite has_prefix_spec. split.
  - intros [t E]. exists (drop (length a) b).
    assert (split ch_slash (join slash b) = a ++ split ch_slash t) as Hs.
    { unfold render, slash in *. rewrite !app_assoc_str, !app_cons, !app_empty_l in E.
      injection E as E. rewrite E, split_app_sep, split_join; [done|done|].
      by apply norm_parts in Ha. }
    destruct b as [|y b].
    { cbn in Hs. destruct a as [|x [|]]; [done| |done]. injection Hs as <- _.
      apply norm_not_empty, Forall_cons in Ha as [? _]. done. }
    unfold slash in Hs. rewrite split_join in Hs by (done || by apply norm_parts in Hb).
    rewrite Hs, drop_app_length. split; [|done]. apply split_not_nil.
  - intros (c & Hc & ->). exists (join slash c). unfold render. rewrite join_app by done.
    by rewrite !app_assoc_str.
Qed.

(** ** Paths that cannot climb

    [tame s]: joining [s] to a directory appends proper elements and nothing else. *)
Definition tame (s : string) : Prop :=
  exists names, Forall good names /\ forall rt stk, fold_left (comp_step rt) (split ch_slash s) stk = rev names ++ stk.

Lemma tame_empty : tame "".
Proof. by exists []. Qed.

Lemma tame_names (names : list string) : Forall good names -> tame (join slash names).
Proof.
  intros Hg. exists names. split; [done|]. intros rt stk. destruct names as [|n names]; [done|].
  unfold slash. rewrite split_join; [by apply fold_good|done|]. apply (norm_parts true). by exists 0, (n :: names).
Qed.

Lemma tame_slash (a b : string) : tame a -> tame b -> tame (a +:+ slash +:+ b).
Proof.
  intros (na & Ha & Ea) (nb & Hb & Eb). exists (na ++ nb). split; [by apply Forall_app|]. intros rt stk.
  unfold slash. rewrite app_cons, app_empty_l, split_app_sep, fold_left_app, Ea, Eb, rev_app_distr. by rewrite app_assoc.
Qed.

Lemma tame_render (r : bool) (names : list string) : Forall good names -> tame (render r names).
Proof.
  intros Hg. unfold render. destruct r.
  - rewrite <- (app_empty_l (slash +:+ _)). apply tame_slash; [apply tame_empty|by apply tame_names].
  - case_bool_decide; [by exists []|by apply tame_names].
Qed.

Lemma tame_Clean (s : string) : tame s -> tame (Clean s).
Proof.
  intros (names & Hg & E). unfold Clean. case_bool_decide; [by exists []|].
  unfold comps. rewrite E, app_nil_r, rev_involutive. by apply tame_render.
Qed.

Lemma tame_join (l : list string) : Forall tame l -> tame (join slash l).
Proof.
  induction 1 as [|s l Hs Hl IH]; [apply tame_empty|]. destruct l as [|t l]; [done|].
  cbn [join]. by apply tame_slash.
Qed.

Lemma tame_Join (l : list string) : Forall tame l -> tame (Join l).
Proof.
  induction 1 as [|s l Hs Hl IH]; [apply tame_empty|]. cbn [Join]. case_bool_decide; [done|].
  apply tame_Clean, tame_join. by constructor.
Qed.

(** An absolute path is tame once it is cleaned. *)
Lemma tame_abs (p : string) : IsAbs p = true -> tame (Clean p).
Proof. intros Ha. rewrite Clean_abs by done. apply tame_render, norm_true_good, comps_norm. Qed.

Lemma tame_Dir (p : string) : IsAbs p = true -> tame (Dir p).
Proof.
  intros (t & ->)%has_prefix_slash. unfold Dir. rewrite <- (app_empty_l (String ch_slash t)), split_app_sep.
  cbn [split split_func app]. destruct (split ch_slash t) as [|w ws] eqn:E; [by apply split_not_nil in E|].
  change (removelast ("" :: w :: ws)) with ("" :: removelast (w :: ws)). apply tame_abs.
  destruct (removelast (w :: ws)); cbn [join]; [done|]. rewrite app_empty_l, app_assoc_str. apply has_prefix_app.
Qed.

Lemma tame_below (root s : string) : IsAbs root = true -> tame s -> below root (Join [root; s]).
Proof.
  intros Hr (names & Hg & E). exists names. split; [done|]. by apply Join_good.
Qed.

Lemma tame_elem (c : string) : contains_char ch_slash c = false -> c <> ".." -> tame c.
Proof.
  intros Hc Hd. destruct (decide (c = "" \/ c = ".")) as [[->| ->]|Hn]; [by exists []..|].
  apply (tame_names [c]). apply Forall_one. unfold good. tauto.
Qed.

Lemma tame_Base (p : string) : Base p <> ".." -> tame (Base p).
Proof.
  unfold Base. case_bool_decide; [intros _; by exists []|]. cbv zeta.
  set (b := default "" _). assert (contains_char ch_slash b = false) as Hb.
  { unfold b. destruct (last _) as [x|] eqn:E; [|done]. apply last_Some_elem_of in E.
    pose proof (split_parts ch_slash (trim_trailing_slashes p)) as Hp. rewrite Forall_forall in Hp. by apply Hp. }
  case_bool_decide; [intros _; by exists []|]. by apply tame_elem.
Qed.

Lemma Join_three (root a b : string) : root <> "" -> Join [root; a; b] = Join [root; a +:+ slash +:+ b].
Proof. intros Hr. cbn [Join]. by rewrite !(bool_decide_eq_false_2 (root = "")). Qed.
