(* ===== verification/GoJson.v ===== *)
(** * The part of [encoding/json] the sources use

    A JSON value, the decoder for one value ([json.Decoder.Decode] stops after
    it, [json.Unmarshal] also wants the end of the input), the struct-field
    matching rules, and the encoder for flat objects of strings and numbers.
    Strings are byte strings; bytes from 0x80 on are copied as they are.  The
    decoder's fuel bounds its nesting depth and its number of elements;
    [decode_value] gives it the length of the input, which both are below. *)

From S2P Require Import Prelude GoStrings.

Open Scope string_scope.
Open Scope list_scope.

Inductive jvalue :=
  | JNull
  | JBool (b : bool)
  | JNum (text : string)
  | JStr (s : string)
  | JArr (l : list jvalue)
  | JObj (l : list (string * jvalue)).

(** ** Lexical level *)

Definition code (c : ascii) : nat := Ascii.nat_of_ascii c.

Definition json_space (c : ascii) : bool :=
  bool_decide (code c = 32) || bool_decide (code c = 9) || bool_decide (code c = 10)
  || bool_decide (code c = 13).

Fixpoint skip_ws (s : string) : string :=
  match s with
  | String c s' => if json_space c then skip_ws s' else s
  | EmptyString => EmptyString
  end.

Definition hex_digit (c : ascii) : option N :=
  let n := N.of_nat (code c) in
  if ((48 <=? n) && (n <=? 57))%N then Some (n - 48)%N
  else if ((97 <=? n) && (n <=? 102))%N then Some (n - 87)%N
  else if ((65 <=? n) && (n <=? 70))%N then Some (n - 55)%N
  else None.

Definition hex4 (a b c d : ascii) : option N :=
  w ← hex_digit a; x ← hex_digit b; y ← hex_digit c; z ← hex_digit d;
  Some (w * 4096 + x * 256 + y * 16 + z)%N.

Definition chrN (n : N) : ascii := Ascii.ascii_of_N n.

(** The UTF-8 encoding of a code point below 0x110000. *)
Definition utf8 (r : N) : string :=
  let cont sh := chrN (128 + (N.shiftr r sh) mod 64) in
  (if r <? 128 then String (chrN r) ""
   else if r <? 2048 then String (chrN (192 + N.shiftr r 6)) (String (cont 0) "")
   else if r <? 65536 then String (chrN (224 + N.shiftr r 12)) (String (cont 6) (String (cont 0) ""))
   else String (chrN (240 + N.shiftr r 18)) (String (cont 12) (String (cont 6) (String (cont 0) ""))))%N.

Definition is_high (n : N) : bool := ((55296 <=? n) && (n <=? 56319))%N.
Definition is_low (n : N) : bool := ((56320 <=? n) && (n <=? 57343))%N.
Definition replacement : N := 65533%N.

Definition ch_quote : ascii := chr 34.
Definition ch_backslash : ascii := chr 92.
Definition ch_u : ascii := "u"%char.

Definition simple_escape (c : ascii) : option ascii :=
  if bool_decide (c = ch_quote) then Some ch_quote
  else if bool_decide (c = ch_backslash) then Some ch_backslash
  else if bool_decide (c = ch_slash) then Some ch_slash
  else if bool_decide (c = "b"%char) then Some (chr 8)
  else if bool_decide (c = "f"%char) then Some (chr 12)
  else if bool_decide (c = "n"%char) then Some (chr 10)
  else if bool_decide (c = "r"%char) then Some (chr 13)
  else if bool_decide (c = "t"%char) then Some (chr 9)
  else None.

(** A lone \u escape of code [n]; surrogates become U+FFFD. *)
Definition unicode_char (n : N) : string :=
  utf8 (if is_high n || is_low n then replacement else n).

(** The low surrogate of a pair, when one follows directly. *)
Definition low_surrogate (s : string) : option N :=
  match s with
  | String b (String u (String h1 (String h2 (String h3 (String h4 _))))) =>
      if bool_decide (b = ch_backslash) && bool_decide (u = ch_u) then
        n ← hex4 h1 h2 h3 h4; if is_low n then Some n else None
      else None
  | _ => None
  end.

(** The rest of a string literal after its opening quote: contents and remainder.
    [skip] is set while the second half of a surrogate pair is passed over. *)
Fixpoint lit_body (skip : nat) (s : string) : option (string * string) :=
  match s with
  | EmptyString => None
  | String c s1 =>
      match skip with
      | S k => lit_body k s1
      | O =>
        if bool_decide (c = ch_quote) then Some ("", s1)
        else if (code c <? 32)%nat then None
        else if bool_decide (c = ch_backslash) then
          match s1 with
          | EmptyString => None
          | String e s2 =>
              if bool_decide (e = ch_u) then
                match s2 with
                | String h1 (String h2 (String h3 (String h4 s3))) =>
                    n ← hex4 h1 h2 h3 h4;
                    match (if is_high n then low_surrogate s3 else None) with
                    | Some lo =>
                        '(t, r) ← lit_body 6 s3;
                        Some (utf8 (65536 + (n - 55296) * 1024 + (lo - 56320))%N +:+ t, r)
                    | None => '(t, r) ← lit_body 0 s3; Some (unicode_char n +:+ t, r)
                    end
                | _ => None
                end
              else
                x ← simple_escape e; '(t, r) ← lit_body 0 s2; Some (String x t, r)
          end
        else '(t, r) ← lit_body 0 s1; Some (String c t, r)
      end
  end.

(** ** Numbers: the longest prefix of the JSON grammar, kept as text *)

Fixpoint span_digits (s : string) : string * string :=
  match s with
  | String c s' => if is_digit c then let '(d, r) := span_digits s' in (String c d, r) else ("", s)
  | EmptyString => ("", "")
  end.

Definition int_part (s : string) : option (string * string) :=
  match s with
  | String c s' =>
      if bool_decide (c = "0"%char) then Some ("0", s')
      else if is_digit c then Some (span_digits s) else None
  | EmptyString => None
  end.

Definition frac_part (s : string) : option (string * string) :=
  match s with
  | String c s' =>
      if bool_decide (c = "."%char) then
        let '(d, r) := span_digits s' in
        if bool_decide (d = "") then None else Some (String c d, r)
      else Some ("", s)
  | EmptyString => Some ("", "")
  end.

Definition exp_part (s : string) : option (string * string) :=
  match s with
  | String c s' =>
      if bool_decide (c = "e"%char) || bool_decide (c = "E"%char) then
        let '(sg, s2) := match s' with
                         | String x s2 => if bool_decide (x = "+"%char) || bool_decide (x = "-"%char)
                                          then (String x "", s2) else ("", s')
                         | EmptyString => ("", s')
                         end in
        let '(d, r) := span_digits s2 in
        if bool_decide (d = "") then None else Some (String c (sg +:+ d), r)
      else Some ("", s)
  | EmptyString => Some ("", "")
  end.

Definition number_lit (s : string) : option (string * string) :=
  let '(sg, s1) := match s with
                   | String c s' => if bool_decide (c = "-"%char) then ("-", s') else ("", s)
                   | EmptyString => ("", s)
                   end in
  '(i, s2) ← int_part s1; '(f, s3) ← frac_part s2; '(e, s4) ← exp_part s3;
  Some (sg +:+ i +:+ f +:+ e, s4).

(** ** Values *)

Definition expect (w : string) (v : jvalue) (s : string) : option (jvalue * string) :=
  if has_prefix w s then Some (v, drop_str (String.length w) s) else None.

Definition next_char (s : string) : option (ascii * string) :=
  match skip_ws s with String c s' => Some (c, s') | EmptyString => None end.

Fixpoint value (fuel : nat) (s : string) : option (jvalue * string) :=
  match fuel with
  | O => None
  | S n =>
      match skip_ws s with
      | EmptyString => None
      | String c s1 =>
          if bool_decide (c = ch_quote) then '(t, r) ← lit_body 0 s1; Some (JStr t, r)
          else if bool_decide (c = "["%char) then
            match next_char s1 with
            | Some (c2, s2) =>
                if bool_decide (c2 = "]"%char) then Some (JArr [], s2)
                else '(l, r) ← items n s1; Some (JArr l, r)
            | None => None
            end
          else if bool_decide (c = "{"%char) then
            match next_char s1 with
            | Some (c2, s2) =>
                if bool_decide (c2 = "}"%char) then Some (JObj [], s2)
                else '(l, r) ← members n s1; Some (JObj l, r)
            | None => None
            end
          else if bool_decide (c = "t"%char) then expect "true" (JBool true) (String c s1)
          else if bool_decide (c = "f"%char) then expect "false" (JBool false) (String c s1)
          else if bool_decide (c = "n"%char) then expect "null" JNull (String c s1)
          else '(t, r) ← number_lit (String c s1); Some (JNum t, r)
      end
  end
with items (fuel : nat) (s : string) : option (list jvalue * string) :=
  match fuel with
  | O => None
  | S n =>
      '(v, r) ← value n s;
      '(c, r2) ← next_char r;
      if bool_decide (c = "]"%char) then Some ([v], r2)
      else if bool_decide (c = ch_comma) then '(l, r3) ← items n r2; Some (v :: l, r3)
      else None
  end
with members (fuel : nat) (s : string) : option (list (string * jvalue) * string) :=
  match fuel with
  | O => None
  | S n =>
      '(q, s1) ← next_char s;
      if negb (bool_decide (q = ch_quote)) then None else
      '(k, s2) ← lit_body 0 s1;
      '(col, s3) ← next_char s2;
      if negb (bool_decide (col = ch_colon)) then None else
      '(v, r) ← value n s3;
      '(c, r2) ← next_char r;
      if bool_decide (c = "}"%char) then Some ([(k, v)], r2)
      else if bool_decide (c = ch_comma) then '(l, r3) ← members n r2; Some ((k, v) :: l, r3)
      else None
  end.

(** One value off the input, as [Decoder.Decode] reads it. *)
Definition decode_value (s : string) : result (jvalue * string) :=
  match value (2 * String.length s + 2) s with
  | Some x => Ok x
  | None => Err (ErrNew "invalid JSON")
  end.

(** Whether a further [Decode] would report [io.EOF]. *)
Definition at_eof (s : string) : bool := bool_decide (skip_ws s = "").

(** The value [json.Unmarshal] reads: it must be the whole input. *)
Definition unmarshal_value (s : string) : result jvalue :=
  '(v, rest) ← decode_value s;
  if at_eof rest then Ok v else Err (ErrNew "invalid character after top-level value").

(** ** Struct fields *)

Definition lower (c : ascii) : ascii :=
  if ((65 <=? code c) && (code c <=? 90))%nat then chr (code c + 32) else c.

Fixpoint to_lower (s : string) : string :=
  match s with EmptyString => EmptyString | String c s' => String (lower c) (to_lower s') end.

(** A key matches a field whatever its case. *)
Definition field_matches (key field : string) : bool := bool_decide (to_lower key = to_lower field).

Definition ErrType : error := ErrNew "json: cannot unmarshal value into Go value".

Definition as_string (old : string) (v : jvalue) : result string :=
  match v with JStr s => Ok s | JNull => Ok old | _ => Err ErrType end.

Definition as_bool (old : bool) (v : jvalue) : result bool :=
  match v with JBool b => Ok b | JNull => Ok old | _ => Err ErrType end.

Fixpoint strings_of (l : list jvalue) : result (list string) :=
  match l with
  | [] => Ok []
  | v :: l' => s ← as_string "" v; r ← strings_of l'; Ok (s :: r)
  end.

Definition as_strings (v : jvalue) : result (list string) :=
  match v with JArr l => strings_of l | JNull => Ok [] | _ => Err ErrType end.

(** ** Encoding *)

Definition hex_char (n : nat) : ascii := if (n <? 10)%nat then chr (48 + n) else chr (87 + n).

(** [json.Marshal] of a string: quotes, backslashes, control characters and the
    HTML characters are escaped. *)
Definition escape_char (c : ascii) : string :=
  let n := code c in
  if bool_decide (c = ch_quote) || bool_decide (c = ch_backslash) then String ch_backslash (String c "")
  else if bool_decide (n = 10) then String ch_backslash "n"
  else if bool_decide (n = 13) then String ch_backslash "r"
  else if bool_decide (n = 9) then String ch_backslash "t"
  else if bool_decide (n = 8) then String ch_backslash "b"
  else if bool_decide (n = 12) then String ch_backslash "f"
  else if (n <? 32)%nat || bool_decide (n = 60) || bool_decide (n = 62) || bool_decide (n = 38)
  then String ch_backslash (String ch_u (String "0"%char (String "0"%char
         (String (hex_char (n / 16)) (String (hex_char (n mod 16)) "")))))
  else String c "".

Fixpoint escape (s : string) : string :=
  match s with EmptyString => EmptyString | String c s' => escape_char c +:+ escape s' end.

Definition quoted (s : string) : string := String ch_quote (escape s +:+ String ch_quote "").

(** An object member with a string value, without separator. *)
Definition member (k v : string) : string := quoted k +:+ String ch_colon v.

(** ** Lemmas: what the encoder prints, the decoder reads back *)

Lemma lit_body_escape_char (c : ascii) (t : string) :
  lit_body 0 (escape_char c +:+ t) = ('(x, r) ← lit_body 0 t; Some (String c x, r)).
Proof. destruct c as [[] [] [] [] [] [] [] []]; reflexivity. Qed.

Lemma lit_body_escape (s r : string) : lit_body 0 (escape s +:+ String ch_quote r) = Some (s, r).
Proof.
  induction s as [|c s IH]; [reflexivity|]. cbn [escape].
  by rewrite app_assoc_str, lit_body_escape_char, IH.
Qed.

Lemma quoted_app (s r : string) : quoted s +:+ r = String ch_quote (escape s +:+ String ch_quote r).
Proof. unfold quoted. by rewrite app_cons, app_assoc_str. Qed.

Lemma value_quoted (n : nat) (v r : string) : value (S n) (quoted v +:+ r) = Some (JStr v, r).
Proof.
  rewrite quoted_app.
  change (value (S n) (String ch_quote (escape v +:+ String ch_quote r)))
    with ('(t, r') ← lit_body 0 (escape v +:+ String ch_quote r); Some (JStr t, r')).
  by rewrite lit_body_escape.
Qed.

(** The member list after its first key. *)
Lemma members_key (n : nat) (k r : string) :
  members (S n) (quoted k +:+ String ch_colon r) =
    ('(v, r1) ← value n r;
     '(c, r2) ← next_char r1;
     if bool_decide (c = "}"%char) then Some ([(k, v)], r2)
     else if bool_decide (c = ch_comma) then '(l, r3) ← members n r2; Some ((k, v) :: l, r3)
     else None).
Proof.
  rewrite quoted_app.
  change (members (S n) (String ch_quote (escape k +:+ String ch_quote (String ch_colon r)))) with
    ('(k, s2) ← lit_body 0 (escape k +:+ String ch_quote (String ch_colon r));
     '(col, s3) ← next_char s2;
     if negb (bool_decide (col = ch_colon)) then None else
     '(v, r) ← value n s3;
     '(c, r2) ← next_char r;
     if bool_decide (c = "}"%char) then Some ([(k, v)], r2)
     else if bool_decide (c = ch_comma) then '(l, r3) ← members n r2; Some ((k, v) :: l, r3)
     else None).
  by rewrite lit_body_escape.
Qed.

Example decode_annotation :
  unmarshal_value (String ch_quote "" +:+ "a\u0041\ud83d\ude00" +:+ String ch_quote "") =
  Ok (JStr ("aA" +:+ String (chr 240) (String (chr 159) (String (chr 152) (String (chr 128) ""))))).
Proof. vm_compute. reflexivity. Qed.

(** *** Objects of strings *)

Lemma members_string (n : nat) (k v rest : string) :
  members (S (S n)) (member k (quoted v) +:+ String ch_comma rest) =
    ('(l, r) ← members (S n) rest; Some ((k, JStr v) :: l, r)).
Proof.
  unfold member. rewrite app_assoc_str, app_cons, members_key, value_quoted. reflexivity.
Qed.

Lemma members_last (n : nat) (k v rest : string) :
  members (S (S n)) (member k (quoted v) +:+ String "}"%char rest) = Some ([(k, JStr v)], rest).
Proof.
  unfold member. rewrite app_assoc_str, app_cons, members_key, value_quoted. reflexivity.
Qed.

(** The key of an object member after the opening brace. *)
Lemma value_object (n : nat) (k s : string) :
  value (S n) (String "{"%char (quoted k +:+ s)) = ('(l, r) ← members n (quoted k +:+ s); Some (JObj l, r)).
Proof. rewrite quoted_app. reflexivity. Qed.
