(* ===== verification/GoFs.v ===== *)
(** * A POSIX file tree and the [os] calls of the sources

    A tree maps absolute element lists to nodes; the root always exists.  Paths
    are resolved as the kernel does it: element by element, following symbolic
    links (at most [max_links], as in Linux), ".." against the directory reached.
    The calls fail only for reasons visible in the tree (no such file, not a
    directory, too many links, file exists); I/O faults are not modelled here. *)

From S2P Require Import Prelude GoStrings GoPath.

Open Scope string_scope.
Open Scope list_scope.

Inductive node :=
  | NDir (perm : Z)
  | NFile (perm : Z) (data : string)
  | NLink (target : string).

#[global] Instance node_eq_dec : EqDecision node.
Proof. solve_decision. Defined.

Abbreviation epath := (list string).

Record fs := mkFs { nodes : gmap epath node; cwd : epath; umask : Z }.

(** File modes, in octal in the sources. *)
Definition mode_0755 : Z := 493.
Definition mode_0711 : Z := 457.
Definition mode_0700 : Z := 448.
Definition mode_0600 : Z := 384.

Definition ErrNotExist : error := ErrNew "no such file or directory".
Definition ErrExist : error := ErrNew "file exists".
Definition ErrNotDir : error := ErrNew "not a directory".
Definition ErrLoop : error := ErrNew "too many levels of symbolic links".
Definition ErrIsDir : error := ErrNew "is a directory".

(** [os.IsNotExist] looks at the error itself, not through wrappers of the caller. *)
Definition os_IsNotExist (e : error) : bool := bool_decide (e = ErrNotExist).

Definition node_at (f : fs) (p : epath) : option node :=
  match p with [] => Some (NDir mode_0755) | _ => nodes f !! p end.

Definition set_node (f : fs) (p : epath) (n : node) : fs :=
  mkFs (<[p := n]> (nodes f)) (cwd f) (umask f).
Definition del_node (f : fs) (p : epath) : fs := mkFs (delete p (nodes f)) (cwd f) (umask f).

Definition is_dir (n : node) : bool := match n with NDir _ => true | _ => false end.
Definition is_link (n : node) : bool := match n with NLink _ => true | _ => false end.

(** ** Path resolution *)

Definition max_links : nat := 40.

(** [walk links follow f cur rest]: from directory [cur], the elements [rest];
    the location reached, whose last element need not exist.  A link in last
    position is followed when [follow] is set. *)
Fixpoint walk (links : nat) (follow : bool) (f : fs) : epath -> epath -> result epath :=
  fix go (cur rest : epath) : result epath :=
    match rest with
    | [] => Ok cur
    | c :: rest' =>
        if bool_decide (c = "") || bool_decide (c = ".") then go cur rest'
        else if bool_decide (c = "..") then go (removelast cur) rest'
        else
          match node_at f (cur ++ [c]) with
          | None => if forallb (fun x => bool_decide (x = "")) rest' then Ok (cur ++ [c]) else Err ErrNotExist
          | Some (NDir _) => go (cur ++ [c]) rest'
          | Some (NFile _ _) => if bool_decide (rest' = []) then Ok (cur ++ [c]) else Err ErrNotDir
          | Some (NLink t) =>
              if bool_decide (rest' = []) && negb follow then Ok (cur ++ [c])
              else match links with
                   | O => Err ErrLoop
                   | S n => walk n follow f (if IsAbs t then [] else cur) (split ch_slash t ++ rest')
                   end
          end
    end.

Definition resolve (follow : bool) (f : fs) (p : string) : result epath :=
  if bool_decide (p = "") then Err ErrNotExist
  else walk max_links follow f (if IsAbs p then [] else cwd f) (split ch_slash p).

(** ** The calls *)

Definition stat_with (follow : bool) (f : fs) (p : string) : result node :=
  q ← resolve follow f p;
  match node_at f q with Some n => Ok n | None => Err ErrNotExist end.

Definition Lstat : fs -> string -> result node := stat_with false.
Definition StatF : fs -> string -> result node := stat_with true.

Definition Getwd (f : fs) : result string := Ok (render true (cwd f)).

(** mkdir(2): the last element is not followed. *)
Definition Mkdir (f : fs) (p : string) (perm : Z) : result fs :=
  q ← resolve false f p;
  match node_at f q with
  | Some _ => Err ErrExist
  | None => Ok (set_node f q (NDir (and_not perm (umask f))))
  end.

Definition text_of (rooted : bool) (cs : epath) : string :=
  if rooted then slash +:+ join slash cs else join slash cs.

(** [os.MkdirAll] on a path given by its reversed elements. *)
Fixpoint mkdir_all (f : fs) (rooted : bool) (rcs : epath) (perm : Z) : fs * result unit :=
  match rcs with
  | [] => (f, Ok tt)
  | _ :: parent =>
      let p := text_of rooted (rev rcs) in
      match StatF f p with
      | Ok n => (f, if is_dir n then Ok tt else Err ErrNotDir)
      | Err _ =>
          let '(f1, r) := mkdir_all f rooted parent perm in
          match r with
          | Err e => (f1, Err e)
          | Ok _ =>
              match Mkdir f1 p perm with
              | Ok f2 => (f2, Ok tt)
              | Err e => match Lstat f1 p with
                         | Ok n => (f1, if is_dir n then Ok tt else Err e)
                         | Err _ => (f1, Err e)
                         end
              end
          end
      end
  end.

Definition MkdirAll (f : fs) (p : string) (perm : Z) : fs * result unit :=
  if bool_decide (p = "") then (f, Err ErrNotExist)
  else mkdir_all f (IsAbs p) (rev (filter (fun c => c <> "") (split ch_slash p))) perm.

Definition Chmod (f : fs) (p : string) (perm : Z) : fs * result unit :=
  match resolve true f p with
  | Err e => (f, Err e)
  | Ok q => match node_at f q with
            | None => (f, Err ErrNotExist)
            | Some (NDir _) => (set_node f q (NDir perm), Ok tt)
            | Some (NFile _ d) => (set_node f q (NFile perm d), Ok tt)
            | Some (NLink _) => (f, Err ErrLoop)
            end
  end.

(** The names in a directory, in no particular order. *)
Definition child_of (d : epath) (p : epath) : option string :=
  match last p with
  | Some c => if bool_decide (p = d ++ [c]) then Some c else None
  | None => None
  end.
Definition children (f : fs) (d : epath) : list string :=
  omap (fun kv => child_of d kv.1) (map_to_list (nodes f)).

Definition ReadDir (f : fs) (p : string) : result (list string) :=
  q ← resolve true f p;
  match node_at f q with
  | None => Err ErrNotExist
  | Some (NDir _) => Ok (children f q)
  | Some _ => Err ErrNotDir
  end.

(** unlink(2) or rmdir(2), as [os.Remove] tries them. *)
Definition Remove (f : fs) (p : string) : result fs :=
  q ← resolve false f p;
  match node_at f q with
  | None => Err ErrNotExist
  | Some (NDir _) => if bool_decide (children f q = []) then Ok (del_node f q)
                     else Err (ErrNew "directory not empty")
  | Some _ => Ok (del_node f q)
  end.

Definition ReadFile (f : fs) (p : string) : result string :=
  q ← resolve true f p;
  match node_at f q with
  | None => Err ErrNotExist
  | Some (NFile _ d) => Ok d
  | Some _ => Err ErrIsDir
  end.

(** ** Well-formed trees *)

(** Every node sits in a directory and is named by proper elements. *)
Record fs_wf (f : fs) : Prop := {
  wf_parent : forall p c n, nodes f !! (p ++ [c]) = Some n -> exists m, node_at f p = Some (NDir m);
  wf_good : forall p n, nodes f !! p = Some n -> Forall good p;
  wf_root : nodes f !! [] = None }.

Lemma node_at_app (f : fs) (p : epath) (c : string) : node_at f (p ++ [c]) = nodes f !! (p ++ [c]).
Proof. by destruct p. Qed.

Lemma wf_prefix_dir (f : fs) (p q : epath) (n : node) :
  fs_wf f -> node_at f (p ++ q) = Some n -> q <> [] -> exists m, node_at f p = Some (NDir m).
Proof.
  intros Hwf. revert n. induction q as [|c q IH] using rev_ind; intros n H Hq; [done|].
  rewrite app_assoc, node_at_app in H. apply (wf_parent _ Hwf) in H as [m H].
  destruct q as [|x q]; [|by eapply IH]. exists m. by rewrite app_nil_r in H.
Qed.

Lemma wf_absent (f : fs) (p q : epath) : fs_wf f -> node_at f p = None -> node_at f (p ++ q) = None.
Proof.
  intros Hwf Hp. destruct q as [|c q]; [by rewrite app_nil_r|].
  destruct (node_at f (p ++ c :: q)) eqn:E; [|done].
  apply wf_prefix_dir in E as [m E]; [congruence|done..].
Qed.

(** No symbolic link on the way to [cs], [cs] included. *)
Definition plain_path (f : fs) (cs : epath) : Prop :=
  forall pre t, pre `prefix_of` cs -> node_at f pre <> Some (NLink t).

Lemma plain_path_prefix (f : fs) (p q : epath) : plain_path f (p ++ q) -> plain_path f p.
Proof. intros H pre t Hp. apply H. by apply prefix_app_r. Qed.

Lemma prefix_snoc_inv {A} (l k : list A) (x : A) :
  l `prefix_of` k ++ [x] -> l = k ++ [x] \/ l `prefix_of` k.
Proof.
  intros [s E]. destruct s as [|y s _] using rev_ind; [left; by rewrite app_nil_r in E|].
  right. rewrite app_assoc in E. apply app_inj_tail in E as [-> _]. by exists s.
Qed.

Lemma plain_path_snoc (f : fs) (p : epath) (c : string) :
  plain_path f p -> (forall t, node_at f (p ++ [c]) <> Some (NLink t)) -> plain_path f (p ++ [c]).
Proof. intros Hp Hc pre t [->|H]%prefix_snoc_inv; [done|by apply Hp]. Qed.

Lemma prefix_app_cases {A} (l k j : list A) :
  l `prefix_of` k ++ j -> l `prefix_of` k \/ exists s, l = k ++ s /\ s `prefix_of` j.
Proof.
  revert l. induction k as [|x k IH]; intros l H; [right; by exists l|].
  destruct l as [|y l]; [left; apply prefix_nil|]. cbn in H.
  pose proof (prefix_cons_inv_1 _ _ _ _ H) as ->. apply prefix_cons_inv_2 in H.
  destruct (IH l H) as [?|(s & -> & ?)]; [left; by apply prefix_cons|right; by exists s].
Qed.

Lemma plain_path_absent (f : fs) (p q : epath) :
  fs_wf f -> plain_path f p -> node_at f p = None -> plain_path f (p ++ q).
Proof.
  intros Hwf Hp Hn pre t Hpre. apply prefix_app_cases in Hpre as [H|(s & -> & H)]; [by apply Hp|].
  rewrite wf_absent by done. done.
Qed.

Lemma walk_cons (n : nat) (fol : bool) (f : fs) (cur rest : epath) (c : string) :
  good c ->
  walk n fol f cur (c :: rest) =
    match node_at f (cur ++ [c]) with
    | None => if forallb (fun x => bool_decide (x = "")) rest then Ok (cur ++ [c]) else Err ErrNotExist
    | Some (NDir _) => walk n fol f (cur ++ [c]) rest
    | Some (NFile _ _) => if bool_decide (rest = []) then Ok (cur ++ [c]) else Err ErrNotDir
    | Some (NLink t) =>
        if bool_decide (rest = []) && negb fol then Ok (cur ++ [c])
        else match n with
             | O => Err ErrLoop
             | S m => walk m fol f (if IsAbs t then [] else cur) (split ch_slash t ++ rest)
             end
    end.
Proof.
  intros (H1 & H2 & H3 & _). destruct n; cbn [walk];
    rewrite (bool_decide_eq_false_2 (c = "")), (bool_decide_eq_false_2 (c = ".")),
      (bool_decide_eq_false_2 (c = "..")) by done; reflexivity.
Qed.

Lemma walk_nil (n : nat) (fol : bool) (f : fs) (cur : epath) : walk n fol f cur [] = Ok cur.
Proof. by destruct n. Qed.

(** Without links to follow, resolution reaches the path as it is written, or
    nothing is there. *)
Lemma walk_plain (n : nat) (fol : bool) (f : fs) (cs cur : epath) :
  fs_wf f -> Forall good cs ->
  (forall pre t, pre `prefix_of` cs -> (pre = cs -> fol = true) -> node_at f (cur ++ pre) <> Some (NLink t)) ->
  match walk n fol f cur cs with
  | Ok q => q = cur ++ cs
  | Err _ => node_at f (cur ++ cs) = None
  end.
Proof.
  intros Hwf Hg. revert cur. induction Hg as [|c cs Hc Hcs IH]; intros cur Hl.
  { rewrite walk_nil. by rewrite app_nil_r. }
  rewrite walk_cons by done. specialize (IH (cur ++ [c])). rewrite <- app_assoc in IH. cbn [app] in IH.
  assert (cs <> [] -> (forall m, node_at f (cur ++ [c]) <> Some (NDir m)) ->
    node_at f (cur ++ c :: cs) = None) as Hno.
  { intros Hne Hd. destruct (node_at f (cur ++ c :: cs)) eqn:En; [|done].
    replace (cur ++ c :: cs) with ((cur ++ [c]) ++ cs) in En by (by rewrite <- app_assoc).
    apply wf_prefix_dir in En as [m En]; [|done..]. by destruct (Hd m). }
  destruct (node_at f (cur ++ [c])) as [[m|m d|t]|] eqn:E.
  - apply IH. intros pre t Hp He. rewrite <- app_assoc. apply Hl; [by apply prefix_cons|].
    intros [= ->]. by apply He.
  - case_bool_decide; [by subst|]. apply Hno; [done|]. intros ?. congruence.
  - destruct (bool_decide (cs = []) && negb fol) eqn:Eb.
    { by apply andb_true_iff in Eb as [->%bool_decide_eq_true_1 _]. }
    exfalso. eapply (Hl [c]); [by apply prefix_cons, prefix_nil| |exact E].
    intros [= <-]. by destruct fol.
  - destruct (forallb _ cs) eqn:Ef; [|].
    + destruct cs as [|x cs]; [done|]. apply Forall_cons in Hcs as [(Hx & _) _]. cbn in Ef.
      by rewrite bool_decide_eq_false_2 in Ef.
    + replace (cur ++ c :: cs) with ((cur ++ [c]) ++ cs) by (by rewrite <- app_assoc). by apply wf_absent.
Qed.

Lemma good_norm (r : bool) (cs : epath) : Forall good cs -> norm r cs.
Proof. intros H. by exists 0, cs. Qed.

Lemma split_render (cs : epath) :
  Forall good cs -> split ch_slash (render true cs) = "" :: (if bool_decide (cs = []) then [""] else cs).
Proof.
  intros Hg. unfold render, slash. rewrite app_cons, <- (app_empty_l (String ch_slash _)), split_app_sep.
  rewrite app_empty_l. cbn [split split_func app]. f_equal. case_bool_decide; [by subst|].
  rewrite split_join; [done|done|]. by eapply norm_parts, (good_norm true).
Qed.

Lemma resolve_render (fol : bool) (f : fs) (cs : epath) :
  Forall good cs -> resolve fol f (render true cs) = walk max_links fol f [] cs.
Proof.
  intros Hg. unfold resolve. rewrite bool_decide_eq_false_2 by (by apply render_not_empty, good_norm).
  rewrite IsAbs_render by (by apply good_norm). rewrite split_render by done.
  case_bool_decide; [by subst|reflexivity].
Qed.

Lemma stat_plain (fol : bool) (f : fs) (cs : epath) :
  fs_wf f -> Forall good cs ->
  (forall pre t, pre `prefix_of` cs -> (pre = cs -> fol = true) -> node_at f pre <> Some (NLink t)) ->
  match stat_with fol f (render true cs) with
  | Ok n => node_at f cs = Some n
  | Err _ => node_at f cs = None
  end.
Proof.
  intros Hwf Hg Hl. unfold stat_with. rewrite resolve_render by done.
  pose proof (walk_plain max_links fol f cs [] Hwf Hg Hl) as H. cbn [app] in H.
  destruct (walk _ _ _ _ _) as [q|e]; cbn [mbind result_bind]; [subst q|done].
  by destruct (node_at f cs).
Qed.

Lemma StatF_plain (f : fs) (cs : epath) :
  fs_wf f -> Forall good cs -> plain_path f cs ->
  match StatF f (render true cs) with Ok n => node_at f cs = Some n | Err _ => node_at f cs = None end.
Proof. intros Hwf Hg Hp. apply stat_plain; [done..|]. intros pre t Hpre _. by apply Hp. Qed.

Lemma Lstat_plain (f : fs) (cs : epath) (c : string) :
  fs_wf f -> Forall good (cs ++ [c]) -> plain_path f cs ->
  match Lstat f (render true (cs ++ [c])) with
  | Ok n => node_at f (cs ++ [c]) = Some n
  | Err _ => node_at f (cs ++ [c]) = None
  end.
Proof.
  intros Hwf Hg Hp. apply stat_plain; [done..|].
  intros pre t [->|Hpre]%prefix_snoc_inv He; [by specialize (He eq_refl)|by apply Hp].
Qed.

(** ** [MkdirAll] on a path without links *)

(** [f'] adds directories on the way to [cs], and nothing else, to [f]. *)
Record grows (cs : epath) (f f' : fs) : Prop := {
  grows_keep : forall p n, node_at f p = Some n -> node_at f' p = Some n;
  grows_new : forall p, node_at f p = None -> node_at f' p = None \/
      p `prefix_of` cs /\ exists m, node_at f' p = Some (NDir m);
  grows_wf : fs_wf f';
  grows_cwd : cwd f' = cwd f;
  grows_umask : umask f' = umask f }.

Definition all_dirs (f : fs) (cs : epath) : Prop :=
  forall pre, pre `prefix_of` cs -> exists m, node_at f pre = Some (NDir m).

Lemma grows_refl (cs : epath) (f : fs) : fs_wf f -> grows cs f f.
Proof. intros H. split; auto. Qed.

Lemma grows_plain (cs ds : epath) (f f' : fs) : grows cs f f' -> plain_path f ds -> plain_path f' ds.
Proof.
  intros H Hp pre t Hpre E. destruct (node_at f pre) as [n|] eqn:En.
  - pose proof (grows_keep _ _ _ H _ _ En). apply (Hp pre t Hpre). congruence.
  - destruct (grows_new _ _ _ H _ En) as [?|(_ & m & ?)]; congruence.
Qed.

Lemma all_dirs_wf (f : fs) (cs : epath) (m : Z) :
  fs_wf f -> node_at f cs = Some (NDir m) -> all_dirs f cs.
Proof.
  intros Hwf Hn pre [q ->]. destruct q as [|c q]; [exists m; by rewrite app_nil_r in Hn|].
  by eapply wf_prefix_dir.
Qed.

Lemma node_at_set (f : fs) (p q : epath) (n : node) :
  p <> [] -> node_at (set_node f p n) q = if bool_decide (p = q) then Some n else node_at f q.
Proof.
  intros Hp. unfold node_at, set_node. destruct q as [|x q]; cbn.
  - by rewrite bool_decide_eq_false_2.
  - case_bool_decide; [subst; apply lookup_insert_eq|by apply lookup_insert_ne].
Qed.

Lemma grows_set (cs : epath) (c : string) (f : fs) (m k : Z) :
  fs_wf f -> good c -> Forall good cs -> node_at f cs = Some (NDir k) -> node_at f (cs ++ [c]) = None ->
  grows (cs ++ [c]) f (set_node f (cs ++ [c]) (NDir m)).
Proof.
  intros Hwf Hc Hg Hd Hn. assert (cs ++ [c] <> []) as Hne by (by destruct cs).
  split; [| | |done|done].
  - intros p n Hp. rewrite node_at_set by done. case_bool_decide; [congruence|done].
  - intros p Hp. rewrite node_at_set by done. case_bool_decide; [right|by left]. subst p.
    split; [done|]. by exists m.
  - split.
    + intros p x n. rewrite <- node_at_app, !node_at_set by done. case_bool_decide as E.
      * apply app_inj_tail in E as [-> ->]. intros _.
        rewrite bool_decide_eq_false_2; [by exists k|]. intros E.
        apply (f_equal length) in E. rewrite length_app in E. cbn in E. lia.
      * rewrite node_at_app. intros [j H]%(wf_parent _ Hwf). case_bool_decide; [by exists m|by exists j].
    + intros p n. cbn. intros [[<- _]|[_ H]]%lookup_insert_Some; [by apply Forall_snoc_2|].
      by eapply (wf_good _ Hwf).
    + cbn. rewrite lookup_insert_ne by done. apply (wf_root _ Hwf).
Qed.

Lemma grows_trans (cs ds : epath) (f1 f2 f3 : fs) :
  cs `prefix_of` ds -> grows cs f1 f2 -> grows ds f2 f3 -> grows ds f1 f3.
Proof.
  intros Hc H1 H2. split.
  - intros p n Hp. by apply (grows_keep _ _ _ H2), (grows_keep _ _ _ H1).
  - intros p Hp. destruct (grows_new _ _ _ H1 p Hp) as [Hn|(Hpre & m & Hn)].
    + by apply (grows_new _ _ _ H2).
    + right. split; [by transitivity cs|]. exists m. by apply (grows_keep _ _ _ H2).
  - apply H2.
  - by rewrite (grows_cwd _ _ _ H2), (grows_cwd _ _ _ H1).
  - by rewrite (grows_umask _ _ _ H2), (grows_umask _ _ _ H1).
Qed.

Lemma walk_dirs (n : nat) (fol : bool) (f : fs) (cs cur : epath) (c : string) :
  Forall good cs -> good c ->
  (forall pre, pre `prefix_of` cs -> exists m, node_at f (cur ++ pre) = Some (NDir m)) ->
  node_at f (cur ++ cs ++ [c]) = None ->
  walk n fol f cur (cs ++ [c]) = Ok (cur ++ cs ++ [c]).
Proof.
  intros Hg Hc. revert cur. induction Hg as [|x cs Hx _ IH]; intros cur Hd Hn; cbn [app].
  - rewrite walk_cons by done. cbn [app] in Hn. by rewrite Hn.
  - rewrite walk_cons by done.
    destruct (Hd [x]) as [m ->]; [by apply prefix_cons, prefix_nil|].
    rewrite IH; [by rewrite <- app_assoc| |by rewrite <- app_assoc].
    intros pre Hp. rewrite <- app_assoc. by apply Hd, prefix_cons.
Qed.

Lemma Mkdir_plain (f : fs) (cs : epath) (c : string) (perm : Z) :
  Forall good cs -> good c -> all_dirs f cs -> node_at f (cs ++ [c]) = None ->
  Mkdir f (render true (cs ++ [c])) perm
    = Ok (set_node f (cs ++ [c]) (NDir (and_not perm (umask f)))).
Proof.
  intros Hg Hc Hd Hn. unfold Mkdir. rewrite resolve_render by (by apply Forall_snoc_2).
  rewrite (walk_dirs _ _ _ _ []) by done. cbn [mbind result_bind app]. by rewrite Hn.
Qed.

Lemma mkdir_all_spec (f : fs) (cs : epath) (perm : Z) :
  fs_wf f -> Forall good cs -> plain_path f cs ->
  let '(f', r) := mkdir_all f true (rev cs) perm in
  grows cs f f' /\
  match r with
  | Ok _ => all_dirs f' cs
  | Err _ => exists pre m d, pre `prefix_of` cs /\ node_at f pre = Some (NFile m d)
  end.
Proof.
  intros Hwf. induction cs as [|c cs IH] using rev_ind; intros Hg Hp.
  { cbn. split; [by apply grows_refl|]. intros pre ->%prefix_nil_inv. by exists mode_0755. }
  apply Forall_app in Hg as [Hg [Hc _]%Forall_cons].
  rewrite rev_app_distr. cbn [rev app mkdir_all]. rewrite rev_involutive.
  change (text_of true (cs ++ [c])) with (render true (cs ++ [c])).
  pose proof (StatF_plain f (cs ++ [c]) Hwf (Forall_snoc_2 _ _ _ Hg Hc) Hp) as Hs.
  destruct (StatF _ _) as [n|e].
  { split; [by apply grows_refl|]. destruct n as [m|m d|t]; cbn [is_dir].
    - by eapply all_dirs_wf.
    - exists (cs ++ [c]), m, d. split; [done|done].
    - by apply (Hp (cs ++ [c]) t) in Hs. }
  specialize (IH Hg (plain_path_prefix _ _ _ Hp)).
  destruct (mkdir_all f true (rev cs) perm) as [f1 [u|e1]]; destruct IH as [Hgr Hr].
  2: { split; [by eapply grows_trans; [..|apply grows_refl; apply Hgr]; [apply prefix_app_r|]|].
       destruct Hr as (pre & m & d & Hpre & ?). exists pre, m, d. split; [by apply prefix_app_r|done]. }
  assert (node_at f1 (cs ++ [c]) = None) as Hn1.
  { destruct (grows_new _ _ _ Hgr _ Hs) as [?|[[s E] _]]; [done|]. apply (f_equal length) in E.
    rewrite !length_app in E. cbn in E. lia. }
  rewrite Mkdir_plain by done. destruct (Hr cs) as [m Hm]; [done|].
  pose proof (grows_set cs c f1 (and_not perm (umask f1)) m (grows_wf _ _ _ Hgr) Hc Hg Hm Hn1) as Hs2.
  split; [eapply grows_trans; [by apply prefix_app_r|exact Hgr|exact Hs2]|].
  eapply all_dirs_wf; [apply Hs2|]. rewrite node_at_set by (by destruct cs). by rewrite bool_decide_eq_true_2.
Qed.

Lemma MkdirAll_render (f : fs) (cs : epath) (perm : Z) :
  Forall good cs -> MkdirAll f (render true cs) perm = mkdir_all f true (rev cs) perm.
Proof.
  intros Hg. unfold MkdirAll. rewrite bool_decide_eq_false_2 by (by apply render_not_empty, good_norm).
  rewrite IsAbs_render by (by apply good_norm). rewrite split_render by done. do 3 f_equal.
  rewrite filter_cons_False by (by intros []). case_bool_decide; [by subst|].
  apply filter_all. eapply Forall_impl; [exact Hg|]. by intros c (? & _).
Qed.

(** Whatever exists on the way to [cs] is a directory. *)
Definition clear_path (f : fs) (cs : epath) : Prop :=
  forall pre n, pre `prefix_of` cs -> node_at f pre = Some n -> is_dir n = true.

Lemma clear_path_prefix (f : fs) (p q : epath) : clear_path f (p ++ q) -> clear_path f p.
Proof. intros H pre n Hp. apply H. by apply prefix_app_r. Qed.

Lemma clear_plain (f : fs) (cs : epath) : clear_path f cs -> plain_path f cs.
Proof. intros H pre t Hp Hn. by apply (H pre _ Hp) in Hn. Qed.

Lemma walk_clear (n : nat) (fol : bool) (f : fs) (cs cur : epath) :
  fs_wf f -> Forall good cs -> (forall pre x, pre `prefix_of` cs -> node_at f (cur ++ pre) = Some x -> is_dir x = true) ->
  walk n fol f cur cs = Ok (cur ++ cs) \/
  walk n fol f cur cs = Err ErrNotExist /\ node_at f (cur ++ cs) = None.
Proof.
  intros Hwf Hg. revert cur. induction Hg as [|c cs Hc Hcs IH]; intros cur Hl.
  { left. by rewrite walk_nil, app_nil_r. }
  rewrite walk_cons by done. replace (cur ++ c :: cs) with ((cur ++ [c]) ++ cs) by (by rewrite <- app_assoc).
  destruct (node_at f (cur ++ [c])) as [x|] eqn:E.
  - pose proof (Hl [c] x) as Hx. destruct x; [|by (discriminate Hx; [apply prefix_cons, prefix_nil|])..].
    apply IH. intros pre x Hp. rewrite <- app_assoc. by apply Hl, prefix_cons.
  - destruct cs as [|y cs]; [left; by rewrite app_nil_r|]. right.
    apply Forall_cons in Hcs as [(Hy & _) _]. cbn. rewrite (bool_decide_eq_false_2 (y = "")) by done.
    split; [done|]. by apply wf_absent.
Qed.

Lemma stat_clear (fol : bool) (f : fs) (cs : epath) :
  fs_wf f -> Forall good cs -> clear_path f cs ->
  stat_with fol f (render true cs) = match node_at f cs with Some n => Ok n | None => Err ErrNotExist end.
Proof.
  intros Hwf Hg Hc. unfold stat_with. rewrite resolve_render by done.
  destruct (walk_clear max_links fol f cs [] Hwf Hg Hc) as [->|[-> Hn]]; [done|].
  cbn [mbind result_bind app] in *. by rewrite Hn.
Qed.

(** A test for well-formedness. *)
Definition fs_wfb (f : fs) : bool :=
  forallb (fun kv => negb (bool_decide (kv.1 = [])) && bool_decide (Forall good kv.1)
      && match node_at f (removelast kv.1) with Some (NDir _) => true | _ => false end)
    (map_to_list (nodes f)).

Lemma fs_wfb_sound (f : fs) : fs_wfb f = true -> fs_wf f.
Proof.
  unfold fs_wfb. rewrite forallb_forall. intros H.
  assert (forall p n, nodes f !! p = Some n -> p <> [] /\ Forall good p /\
    exists m, node_at f (removelast p) = Some (NDir m)) as Hp.
  { intros p n Hn. apply elem_of_map_to_list, list_elem_of_In, H in Hn. cbn in Hn.
    apply andb_true_iff in Hn as [[Hne Hg]%andb_true_iff Hd].
    apply negb_true_iff, bool_decide_eq_false_1 in Hne. apply bool_decide_eq_true_1 in Hg.
    split_and!; [done..|]. destruct (node_at f (removelast p)) as [[m| |]|]; [by exists m|done..]. }
  split.
  - intros p c n (_ & _ & Hd)%Hp. by rewrite removelast_last in Hd.
  - by intros p n (_ & ? & _)%Hp.
  - destruct (nodes f !! []) eqn:E; [|done]. by apply Hp in E as [? _].
Qed.

Lemma clear_path_check (f : fs) (cs : epath) :
  forallb (fun k => match node_at f (take k cs) with Some n => is_dir n | None => true end)
    (seq 0 (S (length cs))) = true -> clear_path f cs.
Proof.
  rewrite forallb_forall. intros H pre n [s ->] Hn. specialize (H (length pre)).
  rewrite take_app_length, Hn in H. apply H, in_seq. rewrite length_app. lia.
Qed.

(** *** Entries of a directory that is reached without links *)

Lemma walk_entry (n : nat) (f : fs) (cs cur : epath) (c : string) :
  Forall good cs -> good c ->
  (forall pre, pre `prefix_of` cs -> exists m, node_at f (cur ++ pre) = Some (NDir m)) ->
  walk n false f cur (cs ++ [c]) = Ok (cur ++ cs ++ [c]).
Proof.
  intros Hg Hc. revert cur. induction Hg as [|x cs Hx _ IH]; intros cur Hd; cbn [app].
  - rewrite walk_cons by done. destruct (node_at f (cur ++ [c])) as [[]|]; by rewrite ?walk_nil.
  - rewrite walk_cons by done.
    destruct (Hd [x]) as [m ->]; [by apply prefix_cons, prefix_nil|].
    rewrite IH; [by rewrite <- app_assoc|].
    intros pre Hp. rewrite <- app_assoc. by apply Hd, prefix_cons.
Qed.

Lemma resolve_entry (f : fs) (cs : epath) (c : string) :
  Forall good cs -> good c -> all_dirs f cs -> resolve false f (render true (cs ++ [c])) = Ok (cs ++ [c]).
Proof.
  intros Hg Hc Hd. rewrite resolve_render by (by apply Forall_snoc_2). by apply (walk_entry _ _ _ []).
Qed.

Lemma walk_file (n : nat) (f : fs) (cs cur : epath) (c : string) (m : Z) (d : string) :
  Forall good cs -> good c ->
  (forall pre, pre `prefix_of` cs -> exists m, node_at f (cur ++ pre) = Some (NDir m)) ->
  node_at f (cur ++ cs ++ [c]) = Some (NFile m d) ->
  walk n true f cur (cs ++ [c]) = Ok (cur ++ cs ++ [c]).
Proof.
  intros Hg Hc. revert cur. induction Hg as [|x cs Hx _ IH]; intros cur Hd Hf; cbn [app].
  - rewrite walk_cons by done. cbn [app] in Hf. by rewrite Hf.
  - rewrite walk_cons by done.
    destruct (Hd [x]) as [k ->]; [by apply prefix_cons, prefix_nil|].
    rewrite IH; [by rewrite <- app_assoc| |by rewrite <- app_assoc].
    intros pre Hp. rewrite <- app_assoc. by apply Hd, prefix_cons.
Qed.

Lemma ReadFile_entry (f : fs) (cs : epath) (c : string) (m : Z) (d : string) :
  Forall good cs -> good c -> all_dirs f cs -> node_at f (cs ++ [c]) = Some (NFile m d) ->
  ReadFile f (render true (cs ++ [c])) = Ok d.
Proof.
  intros Hg Hc Hd Hf. unfold ReadFile. rewrite resolve_render by (by apply Forall_snoc_2).
  rewrite (walk_file _ _ _ [] _ m d) by done. cbn [mbind result_bind app]. by rewrite Hf.
Qed.

Lemma grows_outside (cs p : epath) (f f' : fs) :
  grows cs f f' -> ~ p `prefix_of` cs -> node_at f' p = node_at f p.
Proof.
  intros H Hp. destruct (node_at f p) as [n|] eqn:E; [by apply (grows_keep _ _ _ H)|].
  by destruct (grows_new _ _ _ H p E) as [?|[? _]].
Qed.

Lemma all_dirs_set (f : fs) (cs p : epath) (n : node) :
  p <> [] -> all_dirs f cs -> (p `prefix_of` cs -> is_dir n = true) -> all_dirs (set_node f p n) cs.
Proof.
  intros Hp Hd Hn pre Hpre. rewrite node_at_set by done. case_bool_decide; [|by apply Hd].
  subst. destruct n as [m| |]; [by exists m|by discriminate Hn..].
Qed.

Lemma node_at_del (f : fs) (p q : epath) :
  p <> [] -> node_at (del_node f p) q = if bool_decide (p = q) then None else node_at f q.
Proof.
  intros Hp. unfold node_at, del_node. destruct q as [|x q]; cbn.
  - by rewrite bool_decide_eq_false_2.
  - case_bool_decide; [subst; apply lookup_delete_eq|by apply lookup_delete_ne].
Qed.

Lemma not_prefix_longer (cs : epath) (c : string) : ~ (cs ++ [c]) `prefix_of` cs.
Proof. intros H%prefix_length. rewrite length_app in H. cbn in H. lia. Qed.
