(* ===== verification/GoSha.v ===== *)
(** * [crypto/sha256] and [encoding/hex]

    FIPS 180-4 on byte strings, with 32-bit words as [Z] and their wrap-around
    written out; [hex_encode] is [hex.EncodeToString]. *)

From S2P Require Import Prelude GoStrings.

Open Scope string_scope.
Open Scope list_scope.
#[local] Open Scope Z_scope.

Definition rotr (n x : Z) : Z := Z.lor (Z.shiftr x n) (uint32 (Z.shiftl x (32 - n))).
Definition add32 (x y : Z) : Z := uint32 (x + y).
Definition xor3 (a b c : Z) : Z := Z.lxor a (Z.lxor b c).
Definition not32 (x : Z) : Z := max_uint32 - x.

(** The primes up to 311. *)
Definition is_prime (n : Z) : bool :=
  forallb (fun d => negb (n mod Z.of_nat d =? 0)) (seq 2 (Z.to_nat (Z.sqrt n) - 1)).
Definition primes : list Z := List.filter is_prime (map Z.of_nat (seq 2 310)).

(** The integer cube root below [2 ^ n], bit by bit from above. *)
Fixpoint cube_root (n : nat) (acc x : Z) : Z :=
  match n with
  | O => acc
  | S n' => let acc' := acc + 2 ^ Z.of_nat n' in
            cube_root n' (if acc' * acc' * acc' <=? x then acc' else acc) x
  end.

(** The first 32 bits of the fractional parts of the cube roots of the 64 primes. *)
Definition round_constants : list Z :=
  Eval vm_compute in map (fun p => uint32 (cube_root 36 0 (p * 2 ^ 96))) primes.

Record digest := mkDigest { da : Z; db : Z; dc : Z; dd : Z; de : Z; df : Z; dg : Z; dh : Z }.

(** The same of the square roots of the first eight primes. *)
Definition initial : digest :=
  Eval vm_compute in
  match map (fun p => uint32 (Z.sqrt (p * 2 ^ 64))) primes with
  | a :: b :: c :: d :: e :: f :: g :: h :: _ => mkDigest a b c d e f g h
  | _ => mkDigest 0 0 0 0 0 0 0 0
  end.

(** One round with round constant [k] and schedule word [w]. *)
Definition sha_round (s : digest) (kw : Z * Z) : digest :=
  let '(k, w) := kw in
  let s1 := xor3 (rotr 6 (de s)) (rotr 11 (de s)) (rotr 25 (de s)) in
  let ch := Z.lxor (Z.land (de s) (df s)) (Z.land (not32 (de s)) (dg s)) in
  let t1 := uint32 (dh s + s1 + ch + k + w) in
  let s0 := xor3 (rotr 2 (da s)) (rotr 13 (da s)) (rotr 22 (da s)) in
  let maj := xor3 (Z.land (da s) (db s)) (Z.land (da s) (dc s)) (Z.land (db s) (dc s)) in
  mkDigest (uint32 (t1 + s0 + maj)) (da s) (db s) (dc s) (add32 (dd s) t1) (de s) (df s) (dg s).

(** The message schedule, newest word first. *)
Fixpoint schedule (n : nat) (ws : list Z) : list Z :=
  match n with
  | O => ws
  | S n' =>
      let w k := nth k ws 0 in
      let s0 := xor3 (rotr 7 (w 14%nat)) (rotr 18 (w 14%nat)) (Z.shiftr (w 14%nat) 3) in
      let s1 := xor3 (rotr 17 (w 1%nat)) (rotr 19 (w 1%nat)) (Z.shiftr (w 1%nat) 10) in
      schedule n' (uint32 (w 15%nat + s0 + w 6%nat + s1) :: ws)
  end.

Definition compress (s : digest) (block : list Z) : digest :=
  let ws := rev (schedule 48 (rev block)) in
  let t := fold_left sha_round (zip round_constants ws) s in
  mkDigest (add32 (da s) (da t)) (add32 (db s) (db t)) (add32 (dc s) (dc t)) (add32 (dd s) (dd t))
           (add32 (de s) (de t)) (add32 (df s) (df t)) (add32 (dg s) (dg t)) (add32 (dh s) (dh t)).

(** Big-endian bytes of a [k]-byte word. *)
Fixpoint be_bytes (k : nat) (x : Z) : list Z :=
  match k with O => [] | S k' => Z.land (Z.shiftr x (8 * Z.of_nat k')) 255 :: be_bytes k' x end.

Fixpoint words (bs : list Z) : list Z :=
  match bs with
  | a :: b :: c :: d :: r => (Z.shiftl a 24 + Z.shiftl b 16 + Z.shiftl c 8 + d) :: words r
  | _ => []
  end.

Fixpoint blocks (n : nat) (ws : list Z) : list (list Z) :=
  match n with O => [] | S n' => take 16 ws :: blocks n' (drop 16 ws) end.

Fixpoint bytes_of (s : string) : list Z :=
  match s with EmptyString => [] | String c s' => Z.of_N (Ascii.N_of_ascii c) :: bytes_of s' end.

Definition pad (bs : list Z) : list Z :=
  let n := Z.of_nat (length bs) in
  bs ++ [128] ++ replicate (Z.to_nat ((55 - n) mod 64)) 0 ++ be_bytes 8 (8 * n).

(** [sha256.Sum256] *)
Definition Sum256 (s : string) : list Z :=
  let p := pad (bytes_of s) in
  let d := fold_left compress (blocks (Nat.div (length p) 64) (words p)) initial in
  concat (map (be_bytes 4) [da d; db d; dc d; dd d; de d; df d; dg d; dh d]).

Definition hex_nibble (n : Z) : ascii :=
  if n <? 10 then chr (48 + Z.to_nat n) else chr (87 + Z.to_nat n).

(** [hex.EncodeToString] *)
Fixpoint hex_encode (bs : list Z) : string :=
  match bs with
  | [] => EmptyString
  | b :: r => String (hex_nibble (Z.shiftr b 4)) (String (hex_nibble (Z.land b 15)) (hex_encode r))
  end.

Example sha256_abc :
  hex_encode (Sum256 "abc") = "ba7816bf8f01cfea414140de5dae2223b00361a396177a9cb410ff61f20015ad".
Proof. vm_compute. reflexivity. Qed.

Example sha256_long :
  hex_encode (Sum256 "abcdbcdecdefdefgefghfghighijhijkijkljklmklmnlmnomnopnopq")
    = "248d6a61d20638b8e5c026930c3e6039a33ce45964ff2167f6ecedd419db06c1".
Proof. vm_compute. reflexivity. Qed.

(** ** A digest in hexadecimal is a plain file name *)

Definition is_hex (c : ascii) : bool :=
  let n := Ascii.nat_of_ascii c in ((48 <=? n) && (n <=? 57) || (97 <=? n) && (n <=? 102))%nat.

Lemma hex_nibble_hex (n : Z) : 0 <= n < 16 -> is_hex (hex_nibble n) = true.
Proof.
  intros H. assert (n ∈ seqZ 0 16) as Hin by (apply elem_of_seqZ; lia). revert Hin.
  rewrite <- (bool_decide_eq_true (n ∈ _)).
  assert (Forall (fun n => is_hex (hex_nibble n) = true) (seqZ 0 16)) as Hf by (by vm_compute; repeat constructor).
  rewrite Forall_forall in Hf. intros Hin%bool_decide_eq_true_1. by apply Hf.
Qed.

Lemma hex_encode_hex (bs : list Z) :
  Forall (fun b => 0 <= b < 256) bs -> str_forall is_hex (hex_encode bs) = true.
Proof.
  induction 1 as [|b bs Hb _ IH]; [done|]. cbn. rewrite IH, !hex_nibble_hex; [done|..].
  - change 15 with (Z.ones 4). rewrite Z.land_ones by lia. by apply Z.mod_pos_bound.
  - rewrite Z.shiftr_div_pow2 by lia. change (2 ^ 4) with 16.
    split; [apply Z.div_pos; lia|apply Z.div_lt_upper_bound; lia].
Qed.

Lemma be_bytes_range (k : nat) (x : Z) : Forall (fun b => 0 <= b < 256) (be_bytes k x).
Proof.
  induction k as [|k IH]; cbn [be_bytes]; constructor; [|done].
  change 255 with (Z.ones 8). rewrite Z.land_ones by lia. by apply Z.mod_pos_bound.
Qed.

Lemma Sum256_hex (s : string) : str_forall is_hex (hex_encode (Sum256 s)) = true.
Proof.
  apply hex_encode_hex. unfold Sum256. set (d := fold_left _ _ _). cbn [map].
  apply Forall_concat. repeat (apply Forall_cons; split; [apply be_bytes_range|]). constructor.
Qed.

Lemma Sum256_not_empty (s : string) : hex_encode (Sum256 s) <> "".
Proof. unfold Sum256. by set (d := fold_left _ _ _). Qed.
