(* ===== verification/Rootfs.v ===== *)
(** * Persistent rootfs layers: [sysbox-snapshotter/rootfs]

    types.go, path.go, sidecar_metadata.go, pvc_mountpath_resolver.go,
    containerd_identity.go, containerd_sidecar_spec.go, local_preparer.go and
    persistent_special_handoff.go.  The containerd client is a class
    ([ContainerdClient]); a context is the error [ctx.Err()] would report.  The
    OCI spec keeps the fields the sources read. *)

From S2P Require Import Prelude GoStrings GoPath GoJson GoFs GoSha.

Open Scope string_scope.
Open Scope list_scope.

(** ** Data *)

Abbreviation gomap := (option (gmap string string)).
(** [m[k]] on a map that may be nil. *)
Definition map_index (m : gomap) (k : string) : string := default "" (default ∅ m !! k).

(** OCI runtime spec *)
Record Mount := mkMount { Destination : string; MType : string; MSource : string; Options : list string }.
Record OciSpec := mkOciSpec { Root : option string; Mounts : list Mount; OAnnotations : gomap }.

#[global] Instance Mount_eq_dec : EqDecision Mount.
Proof. solve_decision. Defined.
#[global] Instance OciSpec_eq_dec : EqDecision OciSpec.
Proof. solve_decision. Defined.

Definition AnnotationRootfsRwLayer : string := "sysbox/rootfs-rw-layer".
Definition SidecarMountPath : string := "/var/lib/sysbox/rootfs-rw-volume".
Definition SidecarContainerName : string := "sysbox-rootfs".

Record RootfsRwLayerRequest := mkRequest {
  rq_SnapshotKey : string; rq_PodUID : string; rq_ContainerName : string;
  RootfsRwLayerAnnotation : string }.

Record RootfsRwLayerSpec := mkSpec {
  VolumeName : string; Path : string; PersistentSpecialMounts : bool; SpecialPath : list string;
  Sidecar : bool; sidecarSpec : option OciSpec }.

Record PrepareRootfsRequest := mkPrepare {
  pr_SnapshotKey : string; pr_PodUID : string; pr_ContainerName : string; pr_Path : string;
  PVCMountPath : string }.

Record PreparedRootfs := mkPrepared { UpperDir : string; WorkDir : string }.

Record PersistentSpecialHandoff := mkHandoff {
  Version : Z; h_SnapshotKey : string; h_PodUID : string; h_ContainerName : string;
  h_VolumeName : string; h_PVCMountPath : string }.

Record IntentEntry := mkIntentEntry {
  ie_ContainerName : string; ie_VolumeName : string; ie_Path : string;
  ie_PersistentSpecialMounts : bool; ie_SpecialPath : list string; PVCClaimName : string }.
Abbreviation Intent := (list IntentEntry).

Definition ErrRootfsRwLayerNotConfigured : error := ErrNew "rootfs rw-layer not configured".
Definition ErrUnsafeLayerPath : error := ErrNew "unsafe rootfs rw-layer path".
Definition ErrUnmanagedRootfsLayer : error := ErrNew "rootfs rw-layer directory is not managed by sysbox".
Definition ErrSidecarSpecUnavailable : error := ErrNew "sysbox sidecar oci spec unavailable".
Definition ErrSidecarSpecAmbiguous : error := ErrNew "sysbox sidecar oci spec ambiguous".
Definition ErrSidecarSpecMalformed : error := ErrNew "sysbox sidecar oci spec malformed".
Definition ErrPVCMountNotFound : error := ErrNew "sysbox sidecar pvc mount not found".
Definition ErrContainerIdentityUnavailable : error := ErrNew "containerd CRI container identity unavailable".
Definition ErrContainerIdentityIncomplete : error := ErrNew "containerd CRI container identity is incomplete".

(** ** path.go *)

Definition safeLayerPath (path : string) : result string :=
  if bool_decide (path = "") || bool_decide (path = ".") then Ok "" else
  if IsAbs path then Err ErrUnsafeLayerPath else
  let cleaned := Clean path in
  if bool_decide (cleaned = ".") then Ok "" else
  if bool_decide (".." ∈ split ch_slash cleaned) then Err ErrUnsafeLayerPath else Ok cleaned.

Definition safeJoin (wd : result string) (root path : string) : result string :=
  cleaned ← safeLayerPath path; Abs wd (Join [root; cleaned]).

(** ** sidecar_metadata.go *)

(** The anonymous struct the annotation is decoded into; unknown fields are ignored. *)
Record pod_entry := mkPodEntry {
  pe_Name : string; pe_VolumeName : string; pe_Path : string;
  pe_PersistentSpecialMounts : bool; pe_SpecialPath : list string }.

Definition pod_field (e : pod_entry) (kv : string * jvalue) : result pod_entry :=
  let '(k, v) := kv in
  let '(mkPodEntry n vn p b sp) := e in
  if field_matches k "name" then s ← as_string n v; Ok (mkPodEntry s vn p b sp)
  else if field_matches k "volumeName" then s ← as_string vn v; Ok (mkPodEntry n s p b sp)
  else if field_matches k "path" then s ← as_string p v; Ok (mkPodEntry n vn s b sp)
  else if field_matches k "persistentSpecialMounts" then c ← as_bool b v; Ok (mkPodEntry n vn p c sp)
  else if field_matches k "specialPath" then l ← as_strings v; Ok (mkPodEntry n vn p b l)
  else Ok e.

Fixpoint pod_fields (e : pod_entry) (l : list (string * jvalue)) : result pod_entry :=
  match l with
  | [] => Ok e
  | kv :: l' => e' ← pod_field e kv; pod_fields e' l'
  end.

Definition pod_entry_of (v : jvalue) : result pod_entry :=
  match v with
  | JObj l => pod_fields (mkPodEntry "" "" "" false []) l
  | JNull => Ok (mkPodEntry "" "" "" false [])
  | _ => Err ErrType
  end.

Fixpoint pod_entries (l : list jvalue) : result (list pod_entry) :=
  match l with
  | [] => Ok []
  | v :: l' => e ← pod_entry_of v; r ← pod_entries l'; Ok (e :: r)
  end.

Definition unmarshal_entries (raw : string) : result (list pod_entry) :=
  v ← unmarshal_value raw;
  match v with JArr l => pod_entries l | JNull => Ok [] | _ => Err ErrType end.

Definition intent_entry (e : pod_entry) : IntentEntry :=
  mkIntentEntry (pe_Name e) (pe_VolumeName e) (pe_Path e) (pe_PersistentSpecialMounts e)
    (pe_SpecialPath e) "".

Definition parsePodAnnotationIntent (raw : string) : result Intent :=
  entries ← wrap_err "decode rootfs rw-layer annotation" (unmarshal_entries raw);
  Ok (map intent_entry entries).

(** [SidecarSpecStore]: what loading the sidecar's OCI spec returns; the spec pointer may be nil. *)
Definition SidecarSpecStore : Type := RootfsRwLayerRequest -> result (option OciSpec).

Fixpoint resolve_entries (store : SidecarSpecStore) (request : RootfsRwLayerRequest) (l : Intent)
    : result RootfsRwLayerSpec :=
  match l with
  | [] => Err ErrRootfsRwLayerNotConfigured
  | entry :: l' =>
      if negb (bool_decide (ie_ContainerName entry = rq_ContainerName request))
      then resolve_entries store request l' else
      _ ← safeLayerPath (ie_Path entry);
      spec ← store request;
      Ok (mkSpec (ie_VolumeName entry) (ie_Path entry) (ie_PersistentSpecialMounts entry)
            (ie_SpecialPath entry) false spec)
  end.

Definition ResolveRootfsRwLayer (store : SidecarSpecStore) (request : RootfsRwLayerRequest)
    : result RootfsRwLayerSpec :=
  if bool_decide (rq_ContainerName request = "")
  then Err (ErrWrap "missing container name in rootfs rw-layer request" ErrContainerIdentityIncomplete) else
  if bool_decide (RootfsRwLayerAnnotation request = "") then Err ErrRootfsRwLayerNotConfigured else
  intent ← parsePodAnnotationIntent (RootfsRwLayerAnnotation request);
  if bool_decide (rq_ContainerName request = SidecarContainerName) then
    if bool_decide (intent = []) then Err ErrRootfsRwLayerNotConfigured
    else Ok (mkSpec "" "" false [] true None)
  else resolve_entries store request intent.

(** ** pvc_mountpath_resolver.go *)

Definition cleanOCIDestination (destination : string) : string := Clean (trim_space destination).

Definition sysboxSpecialRoot : string := "/rootfs/special".

(** One escape of mountinfo: the character it stands for. *)
Definition octal_escape (a b c : ascii) : option ascii :=
  let s := String a (String b (String c "")) in
  if bool_decide (s = "040") then Some ch_space
  else if bool_decide (s = "011") then Some (chr 9)
  else if bool_decide (s = "012") then Some ch_newline
  else if bool_decide (s = "134") then Some ch_backslash
  else None.

Fixpoint unescapeMountInfoPath (value : string) : string :=
  match value with
  | EmptyString => EmptyString
  | String x rest =>
      match rest with
      | String a (String b (String c r)) =>
          match (if bool_decide (x = ch_backslash) then octal_escape a b c else None) with
          | Some y => String y (unescapeMountInfoPath r)
          | None => String x (unescapeMountInfoPath rest)
          end
      | _ => String x (unescapeMountInfoPath rest)
      end
  end.

Definition mountinfo_root (root source : string) : string :=
  if bool_decide (root = sysboxSpecialRoot) || negb (has_prefix (sysboxSpecialRoot +:+ slash) root)
  then source else trim_prefix root sysboxSpecialRoot.

Fixpoint find_mountinfo (source : string) (lines : list string) : string :=
  match lines with
  | [] => source
  | line :: lines' =>
      match fields line with
      | _ :: _ :: _ :: root :: mountpoint :: _ =>
          if bool_decide (Clean (unescapeMountInfoPath mountpoint) = source)
          then mountinfo_root (Clean (unescapeMountInfoPath root)) source
          else find_mountinfo source lines'
      | _ => find_mountinfo source lines'
      end
  end.

Definition stablePVCMountPathFromMountInfo (source : string) (readMountInfo : result string) : result string :=
  data ← wrap_err "read mountinfo" readMountInfo;
  Ok (find_mountinfo (Clean source) (split ch_newline data)).

(** [mountinfo] is the outcome of reading /proc/self/mountinfo. *)
Definition stablePVCMountPath (mountinfo : result string) (source : string) : result string :=
  stablePVCMountPathFromMountInfo source mountinfo.

Fixpoint find_sidecar_mount (mountinfo : result string) (target : string) (l : list Mount) : result string :=
  match l with
  | [] => Err ErrPVCMountNotFound
  | m :: l' =>
      if negb (bool_decide (cleanOCIDestination (Destination m) = target))
      then find_sidecar_mount mountinfo target l' else
      if bool_decide (MSource m = "") then Err ErrSidecarSpecMalformed
      else stablePVCMountPath mountinfo (MSource m)
  end.

Definition ResolvePVCMountPath (store : SidecarSpecStore) (mountinfo : result string)
    (request : RootfsRwLayerRequest) (spec : RootfsRwLayerSpec) : result string :=
  if bool_decide (VolumeName spec = "")
  then Err (ErrWrap "volume name is required to resolve sidecar pvc mount path" ErrSidecarSpecMalformed) else
  loaded ← (match sidecarSpec spec with Some s => Ok (Some s) | None => store request end);
  match loaded with
  | None => Err ErrSidecarSpecUnavailable
  | Some s => find_sidecar_mount mountinfo (Join [SidecarMountPath; VolumeName spec]) (Mounts s)
  end.

(** ** The containerd client *)

Definition ErrCtrdNotFound : error := ErrNew "not found".

Record ctrd_container := mkCtrd { ctr_Labels : result gomap; ctr_Spec : result (option OciSpec) }.

(** Connecting, loading a container by id, and listing by filters; the answer
    to the listing may change with time, here with the attempt number. *)
Class ContainerdClient := {
  client_New : result unit;
  client_LoadContainer : string -> result ctrd_container;
  client_Containers : nat -> list string -> result (list ctrd_container) }.

Section Client.
Context `{ContainerdClient}.

(** *** containerd_identity.go *)

Definition rootfsRwLayerRequestFromLabels (snapshotKey : string) (labels : gomap)
    : result RootfsRwLayerRequest :=
  let podUID := map_index labels "io.kubernetes.pod.uid" in
  if bool_decide (podUID = "")
  then Err (ErrWrap "missing io.kubernetes.pod.uid label" ErrContainerIdentityIncomplete) else
  let containerName := map_index labels "io.kubernetes.container.name" in
  if bool_decide (containerName = "")
  then Err (ErrWrap "missing io.kubernetes.container.name label" ErrContainerIdentityUnavailable)
  else Ok (mkRequest snapshotKey podUID containerName "").

(** The loop over the lookup keys: the container found and the key it was found under. *)
Fixpoint load_first (keys : list string) : result (ctrd_container * string) :=
  match keys with
  | [] => Err (ErrWrap "container not found for identity lookup" ErrContainerIdentityUnavailable)
  | k :: keys' =>
      match client_LoadContainer k with
      | Ok c => Ok (c, k)
      | Err e => if errors_is e ErrCtrdNotFound then load_first keys'
                 else Err (ErrWrap "load container for identity lookup" e)
      end
  end.

Definition ResolveIdentity (snapshotKey : string) : result RootfsRwLayerRequest :=
  _ ← wrap_err "connect containerd for identity lookup" client_New;
  let baseKey := Base snapshotKey in
  let lookupKeys := if bool_decide (baseKey = snapshotKey) then [snapshotKey] else [snapshotKey; baseKey] in
  '(container, key) ← load_first lookupKeys;
  labels ← wrap_err "read container labels for identity lookup" (ctr_Labels container);
  spec ← wrap_err "read container spec for identity lookup" (ctr_Spec container);
  request ← rootfsRwLayerRequestFromLabels key labels;
  Ok (match spec with
      | Some s => match OAnnotations s with
                  | Some a => mkRequest (rq_SnapshotKey request) (rq_PodUID request) (rq_ContainerName request)
                                (map_index (Some a) AnnotationRootfsRwLayer)
                  | None => request
                  end
      | None => request
      end).

(** *** containerd_sidecar_spec.go *)

Definition uniqueSidecarSpec (specs : list OciSpec) : result (option OciSpec) :=
  match specs with
  | [] => Err ErrSidecarSpecUnavailable
  | [s] => Ok (Some s)
  | _ => Err ErrSidecarSpecAmbiguous
  end.

Definition dquoted (s : string) : string := String ch_quote (s +:+ String ch_quote "").

Definition sidecarContainerFilters (request : RootfsRwLayerRequest) : list string :=
  if bool_decide (rq_PodUID request = "") then [] else
  ["labels." +:+ dquoted "io.kubernetes.pod.uid" +:+ "==" +:+ rq_PodUID request +:+ ",labels."
     +:+ dquoted "io.kubernetes.container.name" +:+ "==" +:+ SidecarContainerName].

Fixpoint collect_specs (l : list ctrd_container) : result (list OciSpec) :=
  match l with
  | [] => Ok []
  | c :: l' =>
      spec ← wrap_err "read sidecar oci spec" (ctr_Spec c);
      match spec with
      | None => Err ErrSidecarSpecMalformed
      | Some s => r ← collect_specs l'; Ok (s :: r)
      end
  end.

Definition loadOnce (attempt : nat) (request : RootfsRwLayerRequest) : result (option OciSpec) :=
  containers ← wrap_err "list containerd containers for sidecar spec lookup"
    (client_Containers attempt (sidecarContainerFilters request));
  specs ← collect_specs containers;
  uniqueSidecarSpec specs.

(** The retry loop; [done i] is what [ctx.Done()] reports while waiting after attempt [i]. *)
Fixpoint load_retry (n attempt : nat) (ctx_done : nat -> option error) (request : RootfsRwLayerRequest)
    : result (option OciSpec) :=
  match n with
  | O => Err ErrSidecarSpecUnavailable
  | S n' =>
      match loadOnce attempt request with
      | Err e =>
          if errors_is e ErrSidecarSpecUnavailable then
            match ctx_done attempt with
            | Some err => Err err
            | None => load_retry n' (S attempt) ctx_done request
            end
          else Err e
      | Ok s => Ok s
      end
  end.

Definition max_attempts : nat := 20.

Definition LoadSidecarSpec (ctx_done : nat -> option error) (request : RootfsRwLayerRequest)
    : result (option OciSpec) :=
  if bool_decide (rq_PodUID request = "") then Err ErrSidecarSpecUnavailable else
  _ ← wrap_err "connect containerd for sidecar spec lookup" client_New;
  load_retry max_attempts 0 ctx_done request.
End Client.

(** ** local_preparer.go *)

Definition rejectSymlinkPath (f : fs) (path : string) : result unit :=
  match Lstat f path with
  | Err e => if errors_is e ErrNotExist then Ok tt else Err (ErrWrap "stat rootfs rw-layer path" e)
  | Ok info => if is_link info then Err ErrUnsafeLayerPath else Ok tt
  end.

Fixpoint reject_elems (f : fs) (current : string) (elems : list string) : result unit :=
  match elems with
  | [] => Ok tt
  | elem :: elems' =>
      if bool_decide (elem = "") || bool_decide (elem = ".") then reject_elems f current elems' else
      let current := Join [current; elem] in
      match Lstat f current with
      | Err e => if errors_is e ErrNotExist then Ok tt else Err (ErrWrap "stat rootfs rw-layer path" e)
      | Ok info => if is_link info then Err ErrUnsafeLayerPath else reject_elems f current elems'
      end
  end.

Definition rejectSymlink (f : fs) (root path : string) : result unit :=
  _ ← rejectSymlinkPath f root;
  rel ← wrap_err "resolve rootfs rw-layer path" (Rel root path);
  reject_elems f root (split ch_slash rel).

(** The first loop over upper and work: a link or a file there is refused. *)
Definition check_managed (f : fs) (path : string) : result unit :=
  match Lstat f path with
  | Ok info => guard_err (is_link info || negb (is_dir info)) ErrUnmanagedRootfsLayer
  | Err _ => Ok tt
  end.

(** The second one: they must exist too. *)
Definition check_created (f : fs) (path : string) : result unit :=
  info ← wrap_err "stat rootfs rw-layer path" (Lstat f path);
  guard_err (is_link info || negb (is_dir info)) ErrUnmanagedRootfsLayer.

(** What happens before the first directory is created. *)
Definition prepare_checks (ctx_err : option error) (f : fs) (request : PrepareRootfsRequest) : result string :=
  _ ← (match ctx_err with Some e => Err e | None => Ok tt end);
  _ ← guard_err (bool_decide (PVCMountPath request = "")) (ErrNew "pvc mount path is required");
  layerRoot ← safeJoin (Getwd f) (PVCMountPath request) (pr_Path request);
  _ ← rejectSymlink f (PVCMountPath request) layerRoot;
  _ ← check_managed f (Join [layerRoot; "upper"]);
  _ ← check_managed f (Join [layerRoot; "work"]);
  Ok layerRoot.

Definition PrepareRootfsRwLayer (ctx_err : option error) (f : fs) (request : PrepareRootfsRequest)
    : fs * result PreparedRootfs :=
  match prepare_checks ctx_err f request with
  | Err e => (f, Err e)
  | Ok layerRoot =>
      let upper := Join [layerRoot; "upper"] in
      let work := Join [layerRoot; "work"] in
      let '(f1, r1) := MkdirAll f upper mode_0755 in
      match r1 with
      | Err e => (f1, Err (ErrWrap "create rootfs upperdir" e))
      | Ok _ =>
          let '(f2, r2) := MkdirAll f1 work mode_0711 in
          match r2 with
          | Err e => (f2, Err (ErrWrap "create rootfs workdir" e))
          | Ok _ =>
              (f2, _ ← check_created f2 upper; _ ← check_created f2 work; Ok (mkPrepared upper work))
          end
      end
  end.
