(* ===== verification/RootfsThms.v ===== *)
(** * Correctness of the persistent rootfs layer

    Path safety, symlink safety of the layer preparation, the mountinfo lookup,
    the retry loop, and the agreement of the three readers of the annotation. *)

From S2P Require Import Prelude GoStrings GoPath GoJson GoFs GoSha Rootfs.

Open Scope string_scope.
Open Scope list_scope.

(** ** Layer paths *)

(** The elements of an accepted layer path. *)
Lemma safeLayerPath_ok (p cleaned : string) :
  safeLayerPath p = Ok cleaned ->
  exists L, Forall good L /\ forall root, IsAbs root = true ->
    Join [root; cleaned] = render true (comps true root ++ L).
Proof.
  unfold safeLayerPath. intros H.
  assert (cleaned = "" -> exists L, Forall good L /\ forall root, IsAbs root = true ->
    Join [root; cleaned] = render true (comps true root ++ L)) as Hnil.
  { intros ->. exists []. split; [done|]. intros root Hr. rewrite app_nil_r, Join_two by done.
    f_equal. apply rev_involutive. }
  destruct (bool_decide (p = "") || bool_decide (p = ".")) eqn:Ep; [injection H as <-; by apply Hnil|].
  apply orb_false_iff in Ep as [Hp%bool_decide_eq_false_1 _].
  destruct (IsAbs p) eqn:Ha; [done|]. case_bool_decide as Hd; [injection H as <-; by apply Hnil|].
  case_bool_decide as Hdd; [done|]. injection H as <-.
  destruct (Clean_spec p) as (cs & Hn & Hc). rewrite Ha in *. rewrite Hc in *.
  assert (cs <> []) as Hne by (intros ->; by apply Hd).
  assert (split ch_slash (render false cs) = cs) as Hs.
  { unfold render. rewrite (bool_decide_eq_false_2 (cs = [])) by done. unfold slash.
    apply split_join; [done|]. by eapply norm_parts. }
  rewrite Hs in Hdd. exists cs. split; [by eapply norm_no_dotdot|].
  intros root Hr. rewrite Join_relative; [|done|]; by rewrite (comps_render false).
Qed.

Lemma safeJoin_ok (wd : result string) (root p layer : string) :
  IsAbs root = true -> safeJoin wd root p = Ok layer ->
  exists L, Forall good L /\ layer = render true (comps true root ++ L).
Proof.
  intros Hr (cleaned & Hc & H)%bind_ok. apply safeLayerPath_ok in Hc as (L & Hg & HJ).
  exists L. split; [done|]. rewrite HJ in H by done. unfold Abs in H.
  assert (norm true (comps true root ++ L)) as Hn by (by apply norm_app_good; [apply comps_norm|]).
  rewrite IsAbs_render, Clean_render in H by done. by injection H as <-.
Qed.

(** ** [Rel] from a root to a path below it *)

Lemma strip_common_prefix (a b : list string) : strip_common a (a ++ b) = ([], b).
Proof.
  induction a as [|x a IH]; cbn; [by destruct b|]. by rewrite bool_decide_eq_true_2.
Qed.

Lemma Rel_below (cs L : list string) :
  Forall good cs -> Forall good L ->
  Rel (render true cs) (render true (cs ++ L)) = Ok (if bool_decide (L = []) then "." else join slash L).
Proof.
  intros Hc HL. assert (Forall good (cs ++ L)) as HcL by (by apply Forall_app).
  unfold Rel. rewrite !Clean_render by (by apply good_norm). case_bool_decide as E.
  - apply (f_equal (comps true)) in E. rewrite !comps_render in E by (by apply good_norm).
    rewrite <- (app_nil_r cs) in E at 2. apply app_inv_head in E as ->. by rewrite bool_decide_eq_true_2.
  - rewrite (bool_decide_eq_false_2 (L = [])) by (intros ->; by rewrite app_nil_r in E).
    rewrite (bool_decide_eq_false_2 (render true cs = ".")) by done.
    rewrite !IsAbs_render by (by apply good_norm). cbn [Bool.eqb negb].
    rewrite !elements_render, strip_common_prefix by done. done.
Qed.

(** ** Symlink rejection *)

Lemma Join_render (cs : list string) (c : string) :
  Forall good cs -> good c -> Join [render true cs; c] = render true (cs ++ [c]).
Proof.
  intros Hg Hc. rewrite Join_good_elem by (done || apply has_prefix_app).
  by rewrite comps_render by (by apply good_norm).
Qed.

Lemma reject_elems_spec (f : fs) (L cur : list string) :
  fs_wf f -> Forall good cur -> Forall good L -> plain_path f cur ->
  (reject_elems f (render true cur) L = Ok tt -> plain_path f (cur ++ L)) /\
  (clear_path f (cur ++ L) -> reject_elems f (render true cur) L = Ok tt).
Proof.
  intros Hwf Hcur HL. revert cur Hcur. induction HL as [|c L Hc HL IH]; intros cur Hcur Hp; cbn [reject_elems].
  { by rewrite app_nil_r. }
  destruct Hc as (H1 & H2 & H3 & H4). assert (good c) as Hc by done.
  rewrite (bool_decide_eq_false_2 (c = "")), (bool_decide_eq_false_2 (c = ".")) by done. cbn [orb].
  rewrite Join_render by done. assert (Forall good (cur ++ [c])) as Hcc by (by apply Forall_snoc_2).
  replace (cur ++ c :: L) with ((cur ++ [c]) ++ L) by (by rewrite <- app_assoc).
  pose proof (Lstat_plain f cur c Hwf Hcc Hp) as Hl. split.
  - destruct (Lstat _ _) as [n|e].
    + destruct (is_link n) eqn:El; [done|]. apply IH; [done|]. apply plain_path_snoc; [done|].
      intros t Ht. rewrite Ht in Hl. by injection Hl as <-.
    + destruct (errors_is e ErrNotExist); [|done]. intros _. apply plain_path_absent; [done| |done].
      apply plain_path_snoc; [done|]. by rewrite Hl.
  - intros Hcl. unfold Lstat in *. pose proof (clear_path_prefix _ _ _ Hcl) as Hcl1.
    rewrite stat_clear in * by done. destruct (node_at f (cur ++ [c])) as [n|] eqn:En; [|done].
    assert (is_dir n = true) as Hd by (by eapply Hcl1).
    assert (is_link n = false) as -> by (by destruct n).
    apply IH; [done| |done]. by apply clear_plain.
Qed.

Lemma rejectSymlinkPath_spec (f : fs) (R : list string) (c : string) :
  fs_wf f -> Forall good (R ++ [c]) -> plain_path f R ->
  (rejectSymlinkPath f (render true (R ++ [c])) = Ok tt -> plain_path f (R ++ [c])) /\
  (clear_path f (R ++ [c]) -> rejectSymlinkPath f (render true (R ++ [c])) = Ok tt).
Proof.
  intros Hwf Hg Hp. pose proof (Lstat_plain f R c Hwf Hg Hp) as Hl. unfold rejectSymlinkPath. split.
  - destruct (Lstat _ _) as [n|e]; intros H; apply plain_path_snoc; try done.
    + intros t Ht. rewrite Ht in Hl. injection Hl as <-. done.
    + by rewrite Hl.
  - intros Hc. unfold Lstat in *. rewrite stat_clear in * by done.
    destruct (node_at f (R ++ [c])) as [n|] eqn:En; [|done].
    assert (is_dir n = true) as Hd by (by eapply Hc). by destruct n.
Qed.

Lemma rejectSymlink_spec (f : fs) (R L : list string) (c : string) :
  fs_wf f -> Forall good (R ++ [c]) -> Forall good L -> plain_path f R ->
  let root := render true (R ++ [c]) in
  let path := render true ((R ++ [c]) ++ L) in
  (rejectSymlink f root path = Ok tt -> plain_path f ((R ++ [c]) ++ L)) /\
  (clear_path f ((R ++ [c]) ++ L) -> rejectSymlink f root path = Ok tt).
Proof.
  intros Hwf Hg HL Hp root path. subst root path. unfold rejectSymlink.
  destruct (rejectSymlinkPath_spec f R c Hwf Hg Hp) as [H1 H2].
  rewrite Rel_below by done. unfold wrap_err.
  assert (forall cur, reject_elems f cur (split ch_slash (if bool_decide (L = []) then "." else join slash L))
    = reject_elems f cur L) as Hs.
  { intros cur. case_bool_decide; [by subst|]. unfold slash. rewrite split_join; [done|done|].
    by eapply norm_parts, (good_norm true). }
  split.
  - intros (u & Hr & H)%bind_ok. destruct u. cbn [mbind result_bind] in H. rewrite Hs in H.
    eapply reject_elems_spec; [done|done|done|by apply H1|done].
  - intros Hc. rewrite H2 by (by eapply clear_path_prefix). cbn [mbind result_bind]. rewrite Hs.
    eapply reject_elems_spec; [done|done|done| |done]. by eapply clear_plain, clear_path_prefix.
Qed.

Lemma check_managed_spec (f : fs) (cs : list string) (c : string) :
  fs_wf f -> Forall good (cs ++ [c]) -> plain_path f cs ->
  (check_managed f (render true (cs ++ [c])) = Ok tt -> plain_path f (cs ++ [c])) /\
  (clear_path f (cs ++ [c]) -> check_managed f (render true (cs ++ [c])) = Ok tt).
Proof.
  intros Hwf Hg Hp. pose proof (Lstat_plain f cs c Hwf Hg Hp) as Hl. unfold check_managed. split.
  - destruct (Lstat _ _) as [n|e]; intros H; apply plain_path_snoc; try done.
    + intros t Ht. rewrite Ht in Hl. injection Hl as <-. done.
    + by rewrite Hl.
  - intros Hc. destruct (Lstat _ _) as [n|e]; [|done].
    assert (is_dir n = true) as Hd by (by eapply Hc). by destruct n.
Qed.

Lemma check_created_dir (f : fs) (cs : list string) (m : Z) :
  fs_wf f -> Forall good cs -> node_at f cs = Some (NDir m) -> check_created f (render true cs) = Ok tt.
Proof.
  intros Hwf Hg Hd. unfold check_created, Lstat. rewrite stat_clear, Hd; [done|done|done|].
  intros pre n Hpre Hn. destruct (all_dirs_wf f cs m Hwf Hd pre Hpre) as [k Hk].
  rewrite Hk in Hn. by injection Hn as <-.
Qed.

Lemma good_upper : good "upper". Proof. by vm_compute. Qed.
Lemma good_work : good "work". Proof. by vm_compute. Qed.

(** What the checks before any directory is created establish. *)
Lemma prepare_checks_spec (f : fs) (req : PrepareRootfsRequest) (R L : list string) (c layer : string) :
  fs_wf f -> Forall good (R ++ [c]) -> Forall good L -> plain_path f R ->
  PVCMountPath req = render true (R ++ [c]) ->
  safeJoin (Getwd f) (PVCMountPath req) (pr_Path req) = Ok (render true ((R ++ [c]) ++ L)) ->
  let u := ((R ++ [c]) ++ L) ++ ["upper"] in let w := ((R ++ [c]) ++ L) ++ ["work"] in
  (prepare_checks None f req = Ok layer ->
     layer = render true ((R ++ [c]) ++ L) /\ plain_path f u /\ plain_path f w) /\
  (clear_path f u -> clear_path f w -> prepare_checks None f req = Ok (render true ((R ++ [c]) ++ L))).
Proof.
  intros Hwf Hg HL Hp HP HJ u w. subst u w.
  assert (Forall good ((R ++ [c]) ++ L)) as HgL by (by apply Forall_app).
  assert (Forall good (((R ++ [c]) ++ L) ++ ["upper"])) as Hgu by (apply Forall_snoc_2; [done|apply good_upper]).
  assert (Forall good (((R ++ [c]) ++ L) ++ ["work"])) as Hgw by (apply Forall_snoc_2; [done|apply good_work]).
  destruct (rejectSymlink_spec f R L c Hwf Hg HL Hp) as [Hr1 Hr2].
  unfold prepare_checks. rewrite HJ, HP.
  rewrite bool_decide_eq_false_2 by (by apply render_not_empty, good_norm). cbn [mbind result_bind guard_err].
  rewrite !Join_render by (done || apply good_upper || apply good_work). split.
  - intros ([] & Hr & H)%bind_ok. apply Hr1 in Hr. apply bind_ok in H as ([] & Hu & H).
    apply bind_ok in H as ([] & Hw & H). injection H as <-. split; [done|].
    split; by eapply check_managed_spec.
  - intros Hu Hw. pose proof (clear_path_prefix _ _ _ Hu) as HcL.
    rewrite Hr2 by done. cbn [mbind result_bind]. pose proof (clear_plain _ _ HcL).
    destruct (check_managed_spec f ((R ++ [c]) ++ L) "upper") as [_ Hmu]; [done..|]. rewrite Hmu by done.
    cbn [mbind result_bind].
    destruct (check_managed_spec f ((R ++ [c]) ++ L) "work") as [_ Hmw]; [done..|]. by rewrite Hmw.
Qed.

Lemma all_dirs_clear (f : fs) (cs : list string) : all_dirs f cs -> clear_path f cs.
Proof. intros H pre n Hp Hn. destruct (H pre Hp) as [m Hm]. rewrite Hm in Hn. by injection Hn as <-. Qed.

Lemma resolve_dirs (fol : bool) (f : fs) (cs : list string) :
  fs_wf f -> Forall good cs -> all_dirs f cs -> resolve fol f (render true cs) = Ok cs.
Proof.
  intros Hwf Hg Hd. rewrite resolve_render by done.
  destruct (walk_clear max_links fol f cs [] Hwf Hg (all_dirs_clear _ _ Hd)) as [->|[_ Hn]]; [done|].
  destruct (Hd cs) as [m Hm]; [done|]. cbn in Hn. congruence.
Qed.

Lemma grows_all_dirs (cs ds : list string) (f f' : fs) : grows cs f f' -> all_dirs f ds -> all_dirs f' ds.
Proof. intros H Hd pre Hp. destruct (Hd pre Hp) as [m Hm]. exists m. by apply (grows_keep _ _ _ H). Qed.

(** The two directories are created, or a file is in the way. *)
Lemma create_layer (f : fs) (u w : list string) :
  fs_wf f -> Forall good u -> Forall good w -> plain_path f u -> plain_path f w ->
  let '(f1, r1) := MkdirAll f (render true u) mode_0755 in
  let '(f2, r2) := MkdirAll f1 (render true w) mode_0711 in
  grows u f f1 /\ grows w f1 f2 /\
  (r1 = Ok tt -> r2 = Ok tt -> all_dirs f2 u /\ all_dirs f2 w) /\
  (clear_path f u -> clear_path f w -> r1 = Ok tt /\ r2 = Ok tt).
Proof.
  intros Hwf Hu Hw Hpu Hpw. rewrite MkdirAll_render by done.
  pose proof (mkdir_all_spec f u mode_0755 Hwf Hu Hpu) as H1.
  destruct (mkdir_all f true (rev u) mode_0755) as [f1 r1]. destruct H1 as [Hg1 H1].
  rewrite MkdirAll_render by done.
  pose proof (mkdir_all_spec f1 w mode_0711 (grows_wf _ _ _ Hg1) Hw (grows_plain _ _ _ _ Hg1 Hpw)) as H2.
  destruct (mkdir_all f1 true (rev w) mode_0711) as [f2 r2]. destruct H2 as [Hg2 H2].
  split_and!; [done|done| |].
  - intros -> ->. split; [by eapply grows_all_dirs|done].
  - intros Hcu Hcw. destruct r1 as [[]|e].
    2: { destruct H1 as (pre & m & d & Hpre & Hn). by apply (Hcu _ _ Hpre) in Hn. }
    split; [done|]. destruct r2 as [[]|e]; [done|]. destruct H2 as (pre & m & d & Hpre & Hn).
    destruct (node_at f pre) as [n|] eqn:En.
    + pose proof (grows_keep _ _ _ Hg1 _ _ En) as E. rewrite E in Hn. injection Hn as ->.
      by apply (Hcw _ _ Hpre) in En.
    + destruct (grows_new _ _ _ Hg1 _ En) as [?|(_ & k & ?)]; congruence.
Qed.

Lemma prepare_spec (f f' : fs) (req : PrepareRootfsRequest) (R : list string) (c : string)
    (out : PreparedRootfs) :
  fs_wf f -> Forall good (R ++ [c]) -> plain_path f R ->
  PVCMountPath req = render true (R ++ [c]) ->
  PrepareRootfsRwLayer None f req = (f', Ok out) ->
  fs_wf f' /\
  exists L, Forall good L /\
    let u := ((R ++ [c]) ++ L) ++ ["upper"] in let w := ((R ++ [c]) ++ L) ++ ["work"] in
    out = mkPrepared (render true u) (render true w) /\
    resolve true f' (UpperDir out) = Ok u /\ resolve true f' (WorkDir out) = Ok w /\
    all_dirs f' u /\ all_dirs f' w /\
    (forall p n, node_at f p = Some n -> node_at f' p = Some n) /\
    (forall p, node_at f p = None -> node_at f' p = None \/ p `prefix_of` u \/ p `prefix_of` w).
Proof.
  intros Hwf Hg Hp HP. unfold PrepareRootfsRwLayer.
  destruct (prepare_checks None f req) as [layer|e] eqn:Ec; [|done].
  assert (exists l, safeJoin (Getwd f) (PVCMountPath req) (pr_Path req) = Ok l) as [l Hl].
  { unfold prepare_checks in Ec. apply bind_ok in Ec as (? & _ & Ec). apply bind_ok in Ec as (? & _ & Ec).
    apply bind_ok in Ec as (l & Hl & _). by exists l. }
  pose proof Hl as Hj. rewrite HP in Hj. apply safeJoin_ok in Hj as (L & HL & El); [|apply has_prefix_app].
  rewrite comps_render in El by (by apply good_norm). subst l.
  destruct (prepare_checks_spec f req R L c layer Hwf Hg HL Hp HP Hl) as [Hchk _].
  destruct (Hchk Ec) as (-> & Hpu & Hpw).
  assert (Forall good ((R ++ [c]) ++ L)) as HgL by (by apply Forall_app).
  rewrite !Join_render by (done || apply good_upper || apply good_work).
  set (u := ((R ++ [c]) ++ L) ++ ["upper"]) in *. set (w := ((R ++ [c]) ++ L) ++ ["work"]) in *.
  assert (Forall good u) as Hgu by (apply Forall_snoc_2; [done|apply good_upper]).
  assert (Forall good w) as Hgw by (apply Forall_snoc_2; [done|apply good_work]).
  pose proof (create_layer f u w Hwf Hgu Hgw Hpu Hpw) as Hc.
  destruct (MkdirAll f _ _) as [f1 [[]|e1]]; destruct (MkdirAll f1 _ _) as [f2 [[]|e2]]; try done.
  destruct Hc as (Hg1 & Hg2 & Hd & _). destruct Hd as [Hdu Hdw]; [done..|].
  pose proof (grows_wf _ _ _ Hg2) as Hwf2.
  intros [<- H]%pair_equal_spec. destruct (Hdu u) as [mu Hmu]; [done|]. destruct (Hdw w) as [mw Hmw]; [done|].
  rewrite (check_created_dir f2 u mu), (check_created_dir f2 w mw) in H by done.
  cbn [mbind result_bind] in H. assert (out = mkPrepared (render true u) (render true w)) as -> by congruence.
  split; [done|]. exists L. split; [done|]. cbn [UpperDir WorkDir]. rewrite !resolve_dirs by done.
  split_and!; try done.
  - intros p n Hn. by apply (grows_keep _ _ _ Hg2), (grows_keep _ _ _ Hg1).
  - intros p Hn. destruct (grows_new _ _ _ Hg1 p Hn) as [Hn1|[? _]]; [|by right; left].
    destruct (grows_new _ _ _ Hg2 p Hn1) as [?|[? _]]; [by left|by right; right].
Qed.

(** C9. A prepared rootfs layer is confined to its PVC: for a clean mount path
    whose parents are not symlinks, a successful [PrepareRootfsRwLayer] returns
    upper and work directories below the mount path whose every parent is a real
    directory, so that the kernel resolves them to themselves whatever links the
    volume holds; nothing that existed is changed and only parents of the two
    directories are created. *)
Theorem prepare_confined (f f' : fs) (req : PrepareRootfsRequest) (R : list string) (c : string)
    (out : PreparedRootfs) :
  fs_wf f -> Forall good (R ++ [c]) -> plain_path f R ->
  PVCMountPath req = render true (R ++ [c]) ->
  PrepareRootfsRwLayer None f req = (f', Ok out) ->
  exists L, Forall good L /\
    let u := ((R ++ [c]) ++ L) ++ ["upper"] in let w := ((R ++ [c]) ++ L) ++ ["work"] in
    out = mkPrepared (render true u) (render true w) /\
    resolve true f' (UpperDir out) = Ok u /\ resolve true f' (WorkDir out) = Ok w /\
    all_dirs f' u /\ all_dirs f' w /\
    (forall p n, node_at f p = Some n -> node_at f' p = Some n) /\
    (forall p, node_at f p = None -> node_at f' p = None \/ p `prefix_of` u \/ p `prefix_of` w).
Proof. intros. eapply prepare_spec; eassumption. Qed.

(** Preparation succeeds whenever the layer path is safe and everything that
    already exists on the way to the two directories is a directory. *)
Theorem prepare_succeeds (f : fs) (req : PrepareRootfsRequest) (R L : list string) (c : string) :
  fs_wf f -> Forall good (R ++ [c]) -> Forall good L ->
  PVCMountPath req = render true (R ++ [c]) ->
  safeJoin (Getwd f) (PVCMountPath req) (pr_Path req) = Ok (render true ((R ++ [c]) ++ L)) ->
  clear_path f (((R ++ [c]) ++ L) ++ ["upper"]) -> clear_path f (((R ++ [c]) ++ L) ++ ["work"]) ->
  (PrepareRootfsRwLayer None f req).2 =
    Ok (mkPrepared (render true (((R ++ [c]) ++ L) ++ ["upper"])) (render true (((R ++ [c]) ++ L) ++ ["work"]))).
Proof.
  intros Hwf Hg HL HP HJ Hcu Hcw. pose proof (clear_plain _ _ Hcu) as Hpu.
  assert (plain_path f R) as HpR.
  { rewrite <- !app_assoc in Hpu. by eapply plain_path_prefix. }
  assert (Forall good ((R ++ [c]) ++ L)) as HgL by (by apply Forall_app).
  destruct (prepare_checks_spec f req R L c "" Hwf Hg HL HpR HP HJ) as [_ Hchk].
  unfold PrepareRootfsRwLayer. rewrite Hchk by done.
  rewrite !Join_render by (done || apply good_upper || apply good_work).
  set (u := ((R ++ [c]) ++ L) ++ ["upper"]) in *. set (w := ((R ++ [c]) ++ L) ++ ["work"]) in *.
  assert (Forall good u) as Hgu by (apply Forall_snoc_2; [done|apply good_upper]).
  assert (Forall good w) as Hgw by (apply Forall_snoc_2; [done|apply good_work]).
  pose proof (create_layer f u w Hwf Hgu Hgw Hpu (clear_plain _ _ Hcw)) as Hc.
  destruct (MkdirAll f _ _) as [f1 r1]; destruct (MkdirAll f1 _ _) as [f2 r2].
  destruct Hc as (Hg1 & Hg2 & Hd & Hok). destruct Hok as [-> ->]; [done..|].
  destruct Hd as [Hdu Hdw]; [done..|].
  destruct (Hdu u) as [mu Hmu]; [done|]. destruct (Hdw w) as [mw Hmw]; [done|]. cbn [snd].
  by rewrite (check_created_dir f2 u mu), (check_created_dir f2 w mw) by (done || apply (grows_wf _ _ _ Hg2)).
Qed.

(** A volume with a link out of it. *)
Definition wit_fs : fs :=
  mkFs (<[["pvc"] := NDir mode_0755]> (<[["pvc"; "data"] := NDir mode_0755]>
        (<[["pvc"; "evil"] := NLink "/etc"]> (<[["etc"] := NDir mode_0755]> ∅)))) [] 18.
Definition wit_prepare (p : string) : PrepareRootfsRequest := mkPrepare "k" "uid" "app" p "/pvc".

Lemma wit_fs_wf : fs_wf wit_fs.
Proof. apply fs_wfb_sound. vm_compute. reflexivity. Qed.

Lemma prepare_confined_witness :
  exists f' out, PrepareRootfsRwLayer None wit_fs (wit_prepare "data/./x") = (f', Ok out) /\
    UpperDir out = "/pvc/data/x/upper" /\
    resolve true f' (UpperDir out) = Ok ["pvc"; "data"; "x"; "upper"] /\
    (PrepareRootfsRwLayer None wit_fs (wit_prepare "evil/x")).2 = Err ErrUnsafeLayerPath.
Proof.
  exists (PrepareRootfsRwLayer None wit_fs (wit_prepare "data/./x")).1.
  exists (mkPrepared "/pvc/data/x/upper" "/pvc/data/x/work"). split; [vm_compute; reflexivity|].
  destruct (prepare_confined wit_fs (PrepareRootfsRwLayer None wit_fs (wit_prepare "data/./x")).1
    (wit_prepare "data/./x") [] "pvc" (mkPrepared "/pvc/data/x/upper" "/pvc/data/x/work"))
    as (L & HL & E & Hu & _).
  - exact wit_fs_wf.
  - by repeat constructor.
  - intros pre t ->%prefix_nil_inv. done.
  - reflexivity.
  - vm_compute. reflexivity.
  - split; [reflexivity|]. split; [vm_compute; reflexivity|vm_compute; reflexivity].
Defined.

Lemma prepare_succeeds_witness :
  (PrepareRootfsRwLayer None wit_fs (wit_prepare "data/x/..")).2
    = Ok (mkPrepared "/pvc/data/upper" "/pvc/data/work").
Proof.
  apply (prepare_succeeds wit_fs (wit_prepare "data/x/..") [] ["data"] "pvc").
  - exact wit_fs_wf.
  - by repeat constructor.
  - by repeat constructor.
  - reflexivity.
  - vm_compute. reflexivity.
  - apply clear_path_check. vm_compute. reflexivity.
  - apply clear_path_check. vm_compute. reflexivity.
Defined.

(** ** The mountinfo lookup

    The lines as the kernel prints them: words separated by spaces, the two paths
    with space, tab, newline and backslash in octal. *)

Definition mangle_char (c : ascii) : string :=
  if bool_decide (c = ch_space) then String ch_backslash "040"
  else if bool_decide (c = chr 9) then String ch_backslash "011"
  else if bool_decide (c = ch_newline) then String ch_backslash "012"
  else if bool_decide (c = ch_backslash) then String ch_backslash "134"
  else String c "".

Fixpoint mangle (s : string) : string :=
  match s with EmptyString => EmptyString | String c s' => mangle_char c +:+ mangle s' end.

Lemma unescape_mangle (s : string) : unescapeMountInfoPath (mangle s) = s.
Proof.
  induction s as [|c s IH]; [done|]. cbn [mangle]. unfold mangle_char.
  case_bool_decide as H1; [subst; rewrite !app_cons, app_empty_l; cbn; by rewrite IH|].
  case_bool_decide as H2; [subst; rewrite !app_cons, app_empty_l; cbn; by rewrite IH|].
  case_bool_decide as H3; [subst; rewrite !app_cons, app_empty_l; cbn; by rewrite IH|].
  case_bool_decide as H4; [subst; rewrite !app_cons, app_empty_l; cbn; by rewrite IH|].
  rewrite app_cons, app_empty_l. cbn [unescapeMountInfoPath].
  destruct (mangle s) as [|a [|b [|d r]]] eqn:E; try (by rewrite IH).
  rewrite (bool_decide_eq_false_2 (c = ch_backslash)) by done. by rewrite IH.
Qed.

(** White space the kernel does not escape: vertical tab, form feed, carriage return. *)
Definition printable (c : ascii) : bool :=
  negb (is_space c) || bool_decide (c = ch_space) || bool_decide (c = chr 9) || bool_decide (c = ch_newline).

Lemma mangle_word (s : string) : s <> "" -> str_forall printable s = true -> word (mangle s).
Proof.
  intros Hne Hp. split.
  - destruct s as [|c s]; [done|]. cbn [mangle]. unfold mangle_char. by repeat case_bool_decide.
  - clear Hne. induction s as [|c s IH]; [done|]. cbn in Hp. apply andb_true_iff in Hp as [Hc Hp].
    cbn [mangle]. rewrite str_forall_app, IH by done. rewrite andb_true_r. unfold mangle_char, printable in *.
    repeat case_bool_decide; try done. cbn in *. rewrite !orb_false_r in Hc. by rewrite Hc.
Qed.

Record mi_line := mkMi { mi_id : string; mi_parent : string; mi_dev : string;
                         mi_root : string; mi_mount : string; mi_tail : list string }.

Record mi_ok (e : mi_line) : Prop := {
  mi_words : Forall word (mi_id e :: mi_parent e :: mi_dev e :: mi_tail e);
  mi_root_abs : IsAbs (mi_root e) = true;
  mi_root_print : str_forall printable (mi_root e) = true;
  mi_mount_print : mi_mount e <> "" /\ str_forall printable (mi_mount e) = true }.

Definition mi_fields_of (e : mi_line) : list string :=
  mi_id e :: mi_parent e :: mi_dev e :: mangle (mi_root e) :: mangle (mi_mount e) :: mi_tail e.

Definition mi_print (e : mi_line) : string :=
  join (String ch_space "") (mi_fields_of e).

(** The stable path, on the mount table itself: the source of the first mount at
    [source], without the prefix of a special mount; [source] if there is none. *)
Definition stable_spec (tbl : list mi_line) (source : string) : string :=
  match find (fun e => bool_decide (Clean (mi_mount e) = Clean source)) tbl with
  | None => Clean source
  | Some e => match comps true (mi_root e) with
              | "rootfs" :: "special" :: x :: P => render true (x :: P)
              | _ => Clean source
              end
  end.

Lemma mi_all_words (e : mi_line) : mi_ok e -> Forall word (mi_fields_of e).
Proof.
  intros [Hw Ha Hr [Hm1 Hm2]].
  apply Forall_cons in Hw as [? Hw], Hw as [? Hw], Hw as [? Hw].
  repeat (constructor; [first [done|apply mangle_word; [|done]; (done || by intros E; rewrite E in Ha)]|]).
  done.
Qed.

Lemma mi_fields (e : mi_line) : mi_ok e -> fields (mi_print e) = mi_fields_of e.
Proof. intros H. by apply fields_join, mi_all_words. Qed.

Lemma special_prefix (cs : list string) :
  norm true cs -> has_prefix (sysboxSpecialRoot +:+ slash) (render true cs) = true <->
    exists c, c <> [] /\ cs = ["rootfs"; "special"] ++ c.
Proof.
  intros Hn. change sysboxSpecialRoot with (render true ["rootfs"; "special"]).
  apply comps_prefix_slash; [|done|done]. apply good_norm. by repeat constructor.
Qed.

Lemma trim_special (c : list string) :
  c <> [] -> trim_prefix (render true (["rootfs"; "special"] ++ c)) sysboxSpecialRoot = render true c.
Proof.
  intros Hc. unfold render. rewrite join_app by done.
  replace (slash +:+ join slash ["rootfs"; "special"] +:+ slash +:+ join slash c)
    with (sysboxSpecialRoot +:+ (slash +:+ join slash c)) by (by rewrite <- !app_assoc_str).
  apply trim_prefix_app.
Qed.

Lemma mountinfo_root_spec (root source : string) :
  IsAbs root = true ->
  mountinfo_root (Clean root) source =
    match comps true root with
    | "rootfs" :: "special" :: x :: P => render true (x :: P)
    | _ => source
    end.
Proof.
  intros Ha. rewrite Clean_abs by done. set (cs := comps true root).
  assert (norm true cs) as Hn by apply comps_norm. unfold mountinfo_root.
  destruct (has_prefix _ (render true cs)) eqn:E.
  - apply special_prefix in E as (c & Hc & E); [|done]. rewrite E, trim_special by done.
    rewrite bool_decide_eq_false_2.
    2: { intros E2. apply (f_equal (comps true)) in E2. rewrite <- E, comps_render in E2 by done.
         rewrite E in E2. by destruct c. }
    cbn. by destruct c.
  - cbn [negb]. rewrite orb_true_r.
    assert (forall x P, cs <> "rootfs" :: "special" :: x :: P) as Hno.
    { intros x P Ec. enough (false = true) by done. rewrite <- E. apply special_prefix; [done|].
      by exists (x :: P). }
    clear E Hn. destruct cs as [|a [|b [|x P]]]; repeat case_match; try done; exfalso; by eapply Hno.
Qed.

Lemma word_no_newline (w : string) :
  str_forall (fun a => negb (is_space a)) w = true -> contains_char ch_newline w = false.
Proof.
  induction w as [|c w IH]; [done|]. cbn. intros [Hc Hw]%andb_true_iff. rewrite IH by done.
  rewrite orb_false_r. apply bool_decide_eq_false_2. intros ->. done.
Qed.

Lemma mi_no_newline (e : mi_line) : mi_ok e -> contains_char ch_newline (mi_print e) = false.
Proof.
  intros Hw%mi_all_words. unfold mi_print. revert Hw. unfold mi_fields_of. generalize (mi_id e) as w.
  generalize (mi_parent e :: mi_dev e :: mangle (mi_root e) :: mangle (mi_mount e) :: mi_tail e) as l.
  induction l as [|x l IH]; intros w [[_ Hw] Hl]%Forall_cons; [by apply word_no_newline|].
  change (join ?s (w :: x :: l)) with (w +:+ s +:+ join s (x :: l)).
  by rewrite !contains_char_app, IH, (word_no_newline w).
Qed.

(** On a mount table printed the way the kernel prints it, the lookup
    returns the stable path of the specification: the bind source of the first
    mount at the given path with the "/rootfs/special" prefix of a special mount
    removed, or the given path itself. *)
Theorem stable_path_lookup (tbl : list mi_line) (source : string) :
  Forall mi_ok tbl ->
  stablePVCMountPathFromMountInfo source (Ok (unlines (map mi_print tbl))) = Ok (stable_spec tbl source).
Proof.
  intros Ht. unfold stablePVCMountPathFromMountInfo, wrap_err. cbn [mbind result_bind]. f_equal.
  rewrite split_unlines.
  2: { apply Forall_map. eapply Forall_impl; [exact Ht|]. intros e He. apply mi_no_newline. done. }
  unfold stable_spec. induction Ht as [|e tbl He Ht IH]; [done|]. cbn [map app find_mountinfo find].
  rewrite mi_fields by done. unfold mi_fields_of. rewrite !unescape_mangle. case_bool_decide; [|done].
  apply mountinfo_root_spec, He.
Qed.

Definition wit_table : list mi_line :=
  [mkMi "21" "1" "8:1" "/" "/" ["rw"];
   mkMi "36" "21" "98:0" "/rootfs/special/var/lib/k8s vol/pvc" "/var/lib/kubelet/pods/u/v" ["rw"; "-"; "ext4"]].

Lemma stable_path_lookup_witness :
  stablePVCMountPathFromMountInfo "/var/lib/kubelet/pods/u/v/" (Ok (unlines (map mi_print wit_table)))
    = Ok "/var/lib/k8s vol/pvc".
Proof.
  rewrite (stable_path_lookup wit_table "/var/lib/kubelet/pods/u/v/"); [vm_compute; reflexivity|].
  repeat constructor; done.
Defined.

(** ** Waiting for the sidecar *)

Section Retry.
Context `{ContainerdClient} (ctx_done : nat -> option error) (request : RootfsRwLayerRequest).

(** The sidecar is not there yet at attempt [i]. *)
Definition pending (i : nat) : Prop :=
  exists e, loadOnce i request = Err e /\ errors_is e ErrSidecarSpecUnavailable = true.

Lemma load_retry_skip (k n i : nat) :
  (forall j, i <= j < i + k -> pending j /\ ctx_done j = None) ->
  load_retry (k + n) i ctx_done request = load_retry n (i + k) ctx_done request.
Proof.
  revert i. induction k as [|k IH]; intros i Hp; [by rewrite Nat.add_0_r|]. cbn [Nat.add load_retry].
  destruct (Hp i) as [(e & -> & ->) ->]; [lia|]. rewrite IH by (intros j Hj; apply Hp; lia).
  f_equal. lia.
Qed.
End Retry.

(** Waiting for the sidecar spec: when the sidecar is missing for the first
    [k < 20] attempts and attempt [k] is decisive (its spec is found, or another
    error occurs), that answer is returned at once; when it is missing twenty
    times, the spec is reported unavailable. *)
Theorem sidecar_retry `{ContainerdClient} (ctx_done : nat -> option error) (request : RootfsRwLayerRequest)
    (k : nat) :
  client_New = Ok tt -> rq_PodUID request <> "" -> k <= max_attempts ->
  (forall i, i < k -> pending request i /\ ctx_done i = None) ->
  LoadSidecarSpec ctx_done request =
    if bool_decide (k = max_attempts) then Err ErrSidecarSpecUnavailable
    else match loadOnce k request with
         | Ok s => Ok s
         | Err e => if errors_is e ErrSidecarSpecUnavailable then
                      match ctx_done k with
                      | Some err => Err err
                      | None => load_retry (max_attempts - S k) (S k) ctx_done request
                      end
                    else Err e
         end.
Proof.
  intros HN HU Hk Hp. unfold LoadSidecarSpec. rewrite bool_decide_eq_false_2, HN by done.
  unfold wrap_err. cbn [mbind result_bind].
  replace max_attempts with (k + (max_attempts - k)) at 1 by lia.
  rewrite load_retry_skip by (intros j Hj; apply Hp; lia). cbn [Nat.add].
  case_bool_decide as E; [by rewrite E, Nat.sub_diag|].
  by replace (max_attempts - k) with (S (max_attempts - S k)) by lia.
Qed.

Definition wit_sidecar : OciSpec := mkOciSpec None [mkMount "/var/lib/sysbox/rootfs-rw-volume/data" "bind" "/src" []] None.

(** A client whose sidecar shows up at the third attempt. *)
Definition wit_client : ContainerdClient := {|
  client_New := Ok tt;
  client_LoadContainer := fun _ => Err ErrCtrdNotFound;
  client_Containers := fun i _ => Ok (if (i <? 2)%nat then [] else [mkCtrd (Ok None) (Ok (Some wit_sidecar))]) |}.

Lemma sidecar_retry_witness :
  @LoadSidecarSpec wit_client (fun _ => None) (mkRequest "k" "uid" "app" "") = Ok (Some wit_sidecar).
Proof.
  rewrite (@sidecar_retry wit_client (fun _ => None) (mkRequest "k" "uid" "app" "") 2).
  - reflexivity.
  - reflexivity.
  - discriminate.
  - unfold max_attempts. lia.
  - intros [|[|i]] Hi; [| |lia]; (split; [|reflexivity]); eexists; split; reflexivity.
Defined.
