(* ===== verification/Handoff.v ===== *)
(** * The persistent special handoff store: persistent_special_handoff.go

    One JSON file per snapshot key, published by writing a temporary file and
    renaming it.  The outcomes of the writes to the temporary file, which the
    file tree does not decide (a full disk, say), are given by [tmp_env]. *)

From S2P Require Import Prelude GoStrings GoPath GoJson GoFs GoSha Rootfs.

Open Scope string_scope.
Open Scope list_scope.

Definition PersistentSpecialHandoffVersion : Z := 1.
Definition PersistentSpecialHandoffDir : string := "/run/sysbox/rootfs-pvc-handoff".

Record FilePersistentSpecialHandoffStore := mkStore { root : string }.

Definition handoff_path (s : FilePersistentSpecialHandoffStore) (snapshotKey : string) : string :=
  Join [root s; hex_encode (Sum256 snapshotKey) +:+ ".json"].

(** [json.Marshal(handoff)] *)
Definition marshal_handoff (h : PersistentSpecialHandoff) : string :=
  String "{"%char (join (String ch_comma "")
    [member "version" (format_int (Version h));
     member "snapshotKey" (quoted (h_SnapshotKey h));
     member "podUID" (quoted (h_PodUID h));
     member "containerName" (quoted (h_ContainerName h));
     member "volumeName" (quoted (h_VolumeName h));
     member "pvcMountPath" (quoted (h_PVCMountPath h))] +:+ "}").

(** The random part of the temporary name, and how the calls on the open file end. *)
Record tmp_env := mkTmpEnv {
  tmp_random : string; tmp_chmod : result unit; tmp_write : result unit; tmp_close : result unit }.

(** [os.CreateTemp(dir, ".handoff-")]: a new empty file, mode 0600. *)
Definition CreateTemp (f : fs) (dir random : string) : result (fs * string) :=
  let name := dir +:+ slash +:+ ".handoff-" +:+ random in
  q ← resolve false f name;
  match node_at f q with
  | Some _ => Err ErrExist
  | None => Ok (set_node f q (NFile mode_0600 ""), name)
  end.

(** The contents of an open file, by the name it was opened under. *)
Definition put_data (f : fs) (p data : string) : fs :=
  match resolve false f p with
  | Ok q => match node_at f q with
            | Some (NFile m d) => set_node f q (NFile m (d +:+ data))
            | _ => f
            end
  | Err _ => f
  end.

(** [os.Rename]: the target is replaced unless it is a directory. *)
Definition Rename (f : fs) (old new : string) : result fs :=
  q1 ← resolve false f old;
  q2 ← resolve false f new;
  match node_at f q1, node_at f q2 with
  | None, _ => Err ErrNotExist
  | Some _, Some (NDir _) => Err ErrExist
  | Some n, _ => Ok (set_node (del_node f q1) q2 n)
  end.

(** [os.Remove] of the temporary file, its error ignored. *)
Definition remove_quietly (f : fs) (p : string) : fs :=
  match Remove f p with Ok f' => f' | Err _ => f end.

Definition complete (h : PersistentSpecialHandoff) : bool :=
  bool_decide (Version h = PersistentSpecialHandoffVersion) && negb (bool_decide (h_SnapshotKey h = ""))
  && negb (bool_decide (h_PodUID h = "")) && negb (bool_decide (h_ContainerName h = ""))
  && negb (bool_decide (h_VolumeName h = "")) && negb (bool_decide (h_PVCMountPath h = "")).

(** From the open temporary file to the rename. *)
Definition commit_tmp (s : FilePersistentSpecialHandoffStore) (env : tmp_env) (f : fs) (tmpName : string)
    (h : PersistentSpecialHandoff) : fs * result unit :=
  match tmp_chmod env with
  | Err e => (f, Err (ErrWrap "chmod persistent special handoff" e))
  | Ok _ =>
      match tmp_write env with
      | Err e => (f, Err (ErrWrap "write persistent special handoff" e))
      | Ok _ =>
          let f := put_data f tmpName (marshal_handoff h) in
          match tmp_close env with
          | Err e => (f, Err (ErrWrap "close persistent special handoff" e))
          | Ok _ =>
              match Rename f tmpName (handoff_path s (h_SnapshotKey h)) with
              | Err e => (f, Err (ErrWrap "commit persistent special handoff" e))
              | Ok f' => (f', Ok tt)
              end
          end
      end
  end.

Definition Write (s : FilePersistentSpecialHandoffStore) (ctx_err : option error) (env : tmp_env) (f : fs)
    (h : PersistentSpecialHandoff) : fs * result unit :=
  match ctx_err with
  | Some e => (f, Err e)
  | None =>
      if negb (complete h) then (f, Err (ErrNew "persistent special handoff is incomplete")) else
      let '(f1, r1) := MkdirAll f (root s) mode_0700 in
      match r1 with
      | Err e => (f1, Err (ErrWrap "create persistent special handoff directory" e))
      | Ok _ =>
          let '(f2, r2) := Chmod f1 (root s) mode_0700 in
          match r2 with
          | Err e => (f2, Err (ErrWrap "chmod persistent special handoff directory" e))
          | Ok _ =>
              match CreateTemp f2 (root s) (tmp_random env) with
              | Err e => (f2, Err (ErrWrap "create persistent special handoff" e))
              | Ok (f3, tmpName) =>
                  let '(f4, r) := commit_tmp s env f3 tmpName h in
                  (remove_quietly f4 tmpName, r)
              end
          end
      end
  end.

Definition Remove_ (s : FilePersistentSpecialHandoffStore) (ctx_err : option error) (f : fs) (snapshotKey : string)
    : fs * result unit :=
  match ctx_err with
  | Some e => (f, Err e)
  | None =>
      if bool_decide (snapshotKey = "") then (f, Ok tt) else
      match Remove f (handoff_path s snapshotKey) with
      | Ok f' => (f', Ok tt)
      | Err e => (f, if os_IsNotExist e then Ok tt else Err (ErrWrap "remove persistent special handoff" e))
      end
  end.
