(* ===== verification/HandoffThms.v ===== *)
(** * Correctness of the handoff store: atomic publication *)

From S2P Require Import Prelude GoStrings GoPath GoJson GoFs GoSha Rootfs RootfsThms Handoff.

Open Scope string_scope.
Open Scope list_scope.

Lemma is_hex_not (c d : ascii) : is_hex c = true -> is_hex d = false -> c <> d.
Proof. congruence. Qed.

Lemma hex_no_slash (s : string) : str_forall is_hex s = true -> contains_char ch_slash s = false.
Proof.
  induction s as [|c s IH]; [done|]. cbn. intros [Hc Hs]%andb_true_iff. rewrite IH, orb_false_r by done.
  apply bool_decide_eq_false_2. by apply is_hex_not.
Qed.

Definition handoff_file (key : string) : string := hex_encode (Sum256 key) +:+ ".json".
Definition tmp_file (random : string) : string := ".handoff-" +:+ random.

Lemma handoff_file_spec (key : string) :
  exists c s, handoff_file key = String c s /\ is_hex c = true /\ contains_char ch_slash s = false.
Proof.
  unfold handoff_file. pose proof (Sum256_hex key) as Hh. pose proof (Sum256_not_empty key) as Hn.
  destruct (hex_encode (Sum256 key)) as [|c s]; [done|]. cbn in Hh. apply andb_true_iff in Hh as [Hc Hs].
  exists c, (s +:+ ".json"). rewrite app_cons, contains_char_app, hex_no_slash by done. done.
Qed.

Lemma good_handoff_file (key : string) : good (handoff_file key).
Proof.
  destruct (handoff_file_spec key) as (c & s & -> & Hc & Hs).
  assert (c <> "."%char) as Hd by (by apply is_hex_not). split_and!; [done|congruence|congruence|].
  cbn. rewrite Hs, orb_false_r. apply bool_decide_eq_false_2. by apply is_hex_not.
Qed.

Lemma good_tmp_file (r : string) : contains_char ch_slash r = false -> good (tmp_file r).
Proof. intros Hr. unfold tmp_file. split_and!; [done..|]. rewrite contains_char_app. by rewrite Hr. Qed.

Lemma tmp_file_ne (key r : string) : handoff_file key <> tmp_file r.
Proof.
  destruct (handoff_file_spec key) as (c & s & -> & Hc & _). unfold tmp_file. rewrite app_cons.
  intros [= -> _]. done.
Qed.

Lemma snoc_ne (R : list string) (c : string) : R ++ [c] <> [].
Proof. by destruct R. Qed.

Section Store.
Context (R : list string) (HR : Forall good R) (Hne : R <> []).

Let store : FilePersistentSpecialHandoffStore := mkStore (render true R).

Lemma handoff_path_render (key : string) : handoff_path store key = render true (R ++ [handoff_file key]).
Proof. apply Join_render; [done|apply good_handoff_file]. Qed.

Lemma tmp_name_render (r : string) :
  render true R +:+ slash +:+ ".handoff-" +:+ r = render true (R ++ [tmp_file r]).
Proof. unfold render. by rewrite join_app, !app_assoc_str by done. Qed.

(** The directory is there, private, and nothing outside it has changed. *)
Lemma prepare_dir (f f1 f2 : fs) :
  fs_wf f -> clear_path f R ->
  MkdirAll f (render true R) mode_0700 = (f1, Ok tt) -> Chmod f1 (render true R) mode_0700 = (f2, Ok tt) ->
  all_dirs f2 R /\ (forall p, ~ p `prefix_of` R -> node_at f2 p = node_at f p).
Proof.
  intros Hwf Hc H1 H2. rewrite MkdirAll_render in H1 by done.
  pose proof (mkdir_all_spec f R mode_0700 Hwf HR (clear_plain _ _ Hc)) as Hm.
  rewrite H1 in Hm. destruct Hm as [Hg Hd]. unfold Chmod in H2.
  rewrite resolve_dirs in H2 by (done || apply Hg). destruct (Hd R) as [m Hm]; [done|].
  rewrite Hm in H2. injection H2 as <-. split; [by apply all_dirs_set|].
  intros p Hp. rewrite node_at_set by done. rewrite bool_decide_eq_false_2 by (by intros <-).
  by apply (grows_outside R).
Qed.
Lemma remove_file (f : fs) (c : string) (m : Z) (d : string) :
  good c -> all_dirs f R -> node_at f (R ++ [c]) = Some (NFile m d) ->
  remove_quietly f (render true (R ++ [c])) = del_node f (R ++ [c]).
Proof.
  intros Hc Hd Hn. unfold remove_quietly, Remove. rewrite resolve_entry by done.
  cbn [mbind result_bind]. by rewrite Hn.
Qed.

Lemma remove_absent (f : fs) (c : string) :
  good c -> all_dirs f R -> node_at f (R ++ [c]) = None -> remove_quietly f (render true (R ++ [c])) = f.
Proof.
  intros Hc Hd Hn. unfold remove_quietly, Remove. rewrite resolve_entry by done.
  cbn [mbind result_bind]. by rewrite Hn.
Qed.

Lemma put_data_entry (f : fs) (c : string) (m : Z) (d data : string) :
  good c -> all_dirs f R -> node_at f (R ++ [c]) = Some (NFile m d) ->
  put_data f (render true (R ++ [c])) data = set_node f (R ++ [c]) (NFile m (d +:+ data)).
Proof. intros Hc Hd Hn. unfold put_data. rewrite resolve_entry by done. by rewrite Hn. Qed.

Lemma Rename_entry (f : fs) (a b : string) (n : node) :
  good a -> good b -> all_dirs f R -> node_at f (R ++ [a]) = Some n ->
  Rename f (render true (R ++ [a])) (render true (R ++ [b])) =
    match node_at f (R ++ [b]) with
    | Some (NDir _) => Err ErrExist
    | _ => Ok (set_node (del_node f (R ++ [a])) (R ++ [b]) n)
    end.
Proof.
  intros Ha Hb Hd Hn. unfold Rename. rewrite !resolve_entry by done. cbn [mbind result_bind].
  rewrite Hn. by destruct (node_at f (R ++ [b])) as [[]|].
Qed.

(** The trees before ([f]) and after ([f5]) agree but for the temporary file [t],
    which is gone, and the published file [T]. *)
Definition tmp_gone (t T : list string) (f f5 : fs) : Prop :=
  (forall p, p <> t -> p <> T -> node_at f5 p = node_at f p) /\ node_at f5 t = None.

(** Removing the temporary file after a failure. *)
Lemma commit_fail (f g : fs) (r d : string) (T : list string) :
  let t := R ++ [tmp_file r] in
  contains_char ch_slash r = false -> T <> t -> all_dirs g R -> node_at g t = Some (NFile mode_0600 d) ->
  (forall p, p <> t -> node_at g p = node_at f p) ->
  tmp_gone t T f (remove_quietly g (render true t)) /\
  node_at (remove_quietly g (render true t)) T = node_at f T.
Proof.
  intros t Hr HTt Hdg Hg Hgf.
  assert (remove_quietly g (render true t) = del_node g t) as ->.
  { eapply remove_file; [by apply good_tmp_file|done..]. }
  assert (forall p, p <> t -> node_at (del_node g t) p = node_at f p) as Hp.
  { intros p Hp. rewrite node_at_del by apply snoc_ne. rewrite bool_decide_eq_false_2 by done. by apply Hgf. }
  split; [split|by apply Hp]; [by auto|]. rewrite node_at_del by apply snoc_ne. by rewrite bool_decide_eq_true_2.
Qed.

(** After the rename there is nothing left to remove. *)
Lemma commit_done (f g : fs) (r : string) (T : list string) (n : node) :
  let t := R ++ [tmp_file r] in
  let g' := set_node (del_node g t) T n in
  contains_char ch_slash r = false -> T <> t -> T <> [] -> ~ T `prefix_of` R -> all_dirs g R ->
  (forall p, p <> t -> node_at g p = node_at f p) ->
  remove_quietly g' (render true t) = g' /\ tmp_gone t T f g' /\ node_at g' T = Some n.
Proof.
  intros t g' Hr HTt HT HTR Hd Hgf.
  assert (forall p, node_at g' p = if bool_decide (T = p) then Some n else
    if bool_decide (t = p) then None else node_at g p) as Hg.
  { intros p. subst g'. rewrite node_at_set, node_at_del by (done || apply snoc_ne). done. }
  assert (node_at g' t = None) as Hgn.
  { rewrite Hg, (bool_decide_eq_false_2 (T = t)), (bool_decide_eq_true_2 (t = t)) by done. done. }
  split_and!; [|split; [|done]|by rewrite Hg, bool_decide_eq_true_2].
  - apply remove_absent; [by apply good_tmp_file| |done]. intros pre Hpre.
    rewrite Hg, !bool_decide_eq_false_2; [by apply Hd| |by intros <-].
    intros <-. by apply not_prefix_longer in Hpre.
  - intros p Hp HpT. rewrite Hg, !bool_decide_eq_false_2 by done. by apply Hgf.
Qed.

(** From the open temporary file to the end of the deferred removal. *)
Lemma commit_spec (f : fs) (env : tmp_env) (h : PersistentSpecialHandoff) (r : string) :
  contains_char ch_slash r = false -> all_dirs f R ->
  let t := R ++ [tmp_file r] in let T := R ++ [handoff_file (h_SnapshotKey h)] in
  node_at f t = Some (NFile mode_0600 "") ->
  let '(f4, res) := commit_tmp store env f (render true t) h in
  let f5 := remove_quietly f4 (render true t) in
  tmp_gone t T f f5 /\
  match res with
  | Ok _ => node_at f5 T = Some (NFile mode_0600 (marshal_handoff h))
  | Err _ => node_at f5 T = node_at f T
  end /\
  (tmp_chmod env = Ok tt -> tmp_write env = Ok tt -> tmp_close env = Ok tt ->
   (forall m, node_at f T <> Some (NDir m)) -> res = Ok tt).
Proof.
  intros Hr Hd t T Ht. assert (T <> t) as HTt.
  { intros E. apply app_inj_tail in E as [_ E]. by apply tmp_file_ne in E. }
  pose proof (good_tmp_file r Hr) as Hgt. pose proof (good_handoff_file (h_SnapshotKey h)) as HgT.
  pose proof (commit_fail f f r "" T Hr HTt Hd Ht (fun _ _ => eq_refl)) as [? ?].
  unfold commit_tmp. destruct (tmp_chmod env) as [[]|e]; [|by split_and!].
  destruct (tmp_write env) as [[]|e]; [|by split_and!].
  assert (put_data f (render true t) (marshal_handoff h) = set_node f t (NFile mode_0600 (marshal_handoff h))) as ->.
  { rewrite <- (app_empty_l (marshal_handoff h)) at 2. by apply put_data_entry. }
  set (f4 := set_node f t _).
  assert (forall p, node_at f4 p = if bool_decide (t = p) then Some (NFile mode_0600 (marshal_handoff h))
    else node_at f p) as H4 by (intros p; apply node_at_set, snoc_ne).
  assert (node_at f4 t = Some (NFile mode_0600 (marshal_handoff h))) as Ht4 by (by rewrite H4, bool_decide_eq_true_2).
  assert (forall p, p <> t -> node_at f4 p = node_at f p) as Hp4 by (intros p Hp; by rewrite H4, bool_decide_eq_false_2).
  assert (all_dirs f4 R) as Hd4 by (apply all_dirs_set; [apply snoc_ne|done|by intros ?%not_prefix_longer]).
  pose proof (commit_fail f f4 r _ T Hr HTt Hd4 Ht4 Hp4) as [? ?].
  destruct (tmp_close env) as [[]|e]; [|by split_and!].
  rewrite handoff_path_render. pose proof (Rename_entry f4 _ _ _ Hgt HgT Hd4 Ht4) as HRn. fold t T in HRn |- *.
  destruct (commit_done f f4 r T (NFile mode_0600 (marshal_handoff h)) Hr HTt (snoc_ne _ _)
    (not_prefix_longer _ _) Hd4 Hp4) as (Hg1 & Hg2 & Hg3). fold t in Hg1, Hg2, Hg3.
  rewrite HRn, (Hp4 T HTt). destruct (node_at f T) as [[m| |]|] eqn:ET; [|by rewrite Hg1; split_and!..].
  split_and!; [done..|]. intros _ _ _ Hno. by destruct (Hno m).
Qed.
End Store.

Lemma Write_spec (R : list string) (f f' : fs) (env : tmp_env) (h : PersistentSpecialHandoff)
    (r : result unit) :
  let s := mkStore (render true R) in
  let t := R ++ [tmp_file (tmp_random env)] in
  let T := R ++ [handoff_file (h_SnapshotKey h)] in
  Forall good R -> R <> [] -> contains_char ch_slash (tmp_random env) = false ->
  fs_wf f -> clear_path f R ->
  Write s None env f h = (f', r) ->
  (forall p, ~ p `prefix_of` R -> p <> T -> node_at f' p = node_at f p) /\
  match r with
  | Ok _ => complete h = true /\ ReadFile f' (handoff_path s (h_SnapshotKey h)) = Ok (marshal_handoff h)
  | Err _ => node_at f' T = node_at f T
  end /\
  (complete h = true -> tmp_chmod env = Ok tt -> tmp_write env = Ok tt -> tmp_close env = Ok tt ->
   node_at f t = None -> (forall m, node_at f T <> Some (NDir m)) -> r = Ok tt).
Proof.
  intros s t T HR Hne Hr Hwf Hc HW. unfold Write in HW.
  destruct (complete h) eqn:Ecomp; cbn [negb] in HW.
  2: { injection HW as <- <-. by split_and!. }
  pose proof (mkdir_all_spec f R mode_0700 Hwf HR (clear_plain _ _ Hc)) as Hm.
  rewrite <- (MkdirAll_render f R mode_0700 HR) in Hm. cbn [root s] in HW.
  destruct (MkdirAll f (render true R) mode_0700) as [f1 [[]|e]] eqn:E1; destruct Hm as [Hg Hd].
  2: { destruct Hd as (pre & m & d & Hpre & Hn). by apply (Hc _ _ Hpre) in Hn. }
  destruct (Chmod f1 (render true R) mode_0700) as [f2 [[]|e]] eqn:E2.
  2: { unfold Chmod in E2. rewrite resolve_dirs in E2 by (done || apply Hg).
       destruct (Hd R) as [m Hm]; [done|]. by rewrite Hm in E2. }
  destruct (prepare_dir R HR Hne f f1 f2 Hwf Hc E1 E2) as [Hd2 Hout].
  unfold CreateTemp in HW. rewrite tmp_name_render in HW by done.
  rewrite resolve_entry in HW by (done || by apply good_tmp_file). cbn [mbind result_bind] in HW.
  assert (node_at f2 t = node_at f t) as Et by (apply Hout, not_prefix_longer).
  assert (node_at f2 T = node_at f T) as ET by (apply Hout, not_prefix_longer). fold t in HW.
  destruct (node_at f2 t) as [n|] eqn:En.
  { injection HW as <- <-. split_and!; [by auto|done|]. intros _ _ _ _ Hn. congruence. }
  set (f3 := set_node f2 t (NFile mode_0600 "")) in HW.
  assert (forall p, p <> t -> node_at f3 p = node_at f2 p) as H3.
  { intros p Hp. subst f3. rewrite node_at_set by (apply snoc_ne). by rewrite bool_decide_eq_false_2. }
  assert (all_dirs f3 R) as Hd3 by (apply all_dirs_set; [apply snoc_ne|done|by intros ?%not_prefix_longer]).
  pose proof (commit_spec R HR f3 env h (tmp_random env) Hr Hd3) as Hcs. fold t T in Hcs.
  assert (T <> t) as HTt.
  { intros E. apply app_inj_tail in E as [_ E]. by apply tmp_file_ne in E. }
  assert (node_at f3 t = Some (NFile mode_0600 "")) as Ht3.
  { subst f3. rewrite node_at_set by (apply snoc_ne). by rewrite bool_decide_eq_true_2. }
  specialize (Hcs Ht3). fold s in Hcs. destruct (commit_tmp s env f3 (render true t) h) as [f4 res].
  destruct Hcs as ([Hk Hgone] & Hres & Hok). injection HW as <- <-. set (f5 := remove_quietly f4 _) in *.
  assert (forall p, ~ p `prefix_of` R -> p <> T -> node_at f5 p = node_at f p) as Hframe.
  { intros p Hp HpT. destruct (decide (p = t)) as [->|Hpt]; [by rewrite Hgone, <- Et|].
    rewrite Hk, H3 by done. by apply Hout. }
  split_and!; [done| |].
  - destruct res as [u|e]; [|by rewrite Hres, H3]. split; [done|]. subst s. rewrite handoff_path_render by done.
    eapply ReadFile_entry; [done|apply good_handoff_file| |exact Hres].
    intros pre Hpre. rewrite Hk; [by apply Hd3|..]; intros ->; by apply not_prefix_longer in Hpre.
  - intros _ ? ? ? _ Hno. apply Hok; [done..|]. by rewrite H3, ET.
Qed.

(** C10. Publication is atomic: whatever the calls on the temporary file return,
    after [Write] no temporary file is left, nothing outside the store's
    directory and its parents has changed, and the file of the snapshot key
    either holds the whole encoded handoff, exactly when [Write] succeeded, or is
    as it was before; and [Write] succeeds when nothing goes wrong. *)
Theorem Write_atomic (R : list string) (f f' : fs) (env : tmp_env) (h : PersistentSpecialHandoff)
    (r : result unit) :
  let s := mkStore (render true R) in
  let t := R ++ [tmp_file (tmp_random env)] in
  let T := R ++ [handoff_file (h_SnapshotKey h)] in
  Forall good R -> R <> [] -> contains_char ch_slash (tmp_random env) = false ->
  fs_wf f -> clear_path f R ->
  Write s None env f h = (f', r) ->
  (forall p, ~ p `prefix_of` R -> p <> T -> node_at f' p = node_at f p) /\
  match r with
  | Ok _ => complete h = true /\ ReadFile f' (handoff_path s (h_SnapshotKey h)) = Ok (marshal_handoff h)
  | Err _ => node_at f' T = node_at f T
  end /\
  (complete h = true -> tmp_chmod env = Ok tt -> tmp_write env = Ok tt -> tmp_close env = Ok tt ->
   node_at f t = None -> (forall m, node_at f T <> Some (NDir m)) -> r = Ok tt).
Proof. apply Write_spec. Qed.

Definition wit_handoff : PersistentSpecialHandoff := mkHandoff 1 "snap-7" "uid-1" "app" "data" "/pvc/vol".
Definition wit_env (write : result unit) : tmp_env := mkTmpEnv "123" (Ok tt) write (Ok tt).
Definition empty_fs : fs := mkFs ∅ [] 18.

Lemma empty_fs_wf : fs_wf empty_fs.
Proof. apply fs_wfb_sound. vm_compute. reflexivity. Qed.

Lemma Write_atomic_witness :
  let s := mkStore "/run/handoff" in
  let w := Write s None (wit_env (Ok tt)) empty_fs wit_handoff in
  w.2 = Ok tt /\ ReadFile w.1 (handoff_path s "snap-7") = Ok (marshal_handoff wit_handoff) /\
  (Write s None (wit_env (Err ErrExist)) w.1 (mkHandoff 1 "snap-7" "u" "a" "v" "/other")).2
    = Err (ErrWrap "write persistent special handoff" ErrExist).
Proof.
  intros s w. assert (w.2 = Ok tt) as Hw by (vm_compute; reflexivity).
  split; [exact Hw|]. split; [|vm_compute; reflexivity].
  destruct (Write_atomic ["run"; "handoff"] empty_fs w.1 (wit_env (Ok tt)) wit_handoff (Ok tt)) as (_ & H & _).
  - by repeat constructor.
  - discriminate.
  - reflexivity.
  - exact empty_fs_wf.
  - apply clear_path_check. vm_compute. reflexivity.
  - change (Write _ None (wit_env (Ok tt)) empty_fs wit_handoff) with w. rewrite <- Hw. by destruct w.
  - apply H.
Defined.
