(* ===== verification/Lite.v ===== *)
(** * The runc-lite spec hook: sysbox-runc-lite/lite.go

    Initialising empty PVC mounts from the image, and adding the persistent
    special mounts, over the file tree of GoFs.  The spec is the one of Rootfs. *)

From S2P Require Import Prelude GoStrings GoPath GoJson GoFs GoSha Rootfs.

Open Scope string_scope.
Open Scope list_scope.

Definition liteRootfsAnnotation : string := "sysbox/rootfs-rw-layer".
Definition liteContainerName : string := "io.kubernetes.cri.container-name".
Definition liteSandboxUID : string := "io.kubernetes.cri.sandbox-uid".
Definition liteHandoffDir : string := "/run/sysbox/rootfs-pvc-handoff".
Definition liteKubeletPodsDir : string := "/var/lib/kubelet/pods".

Record liteRootfsEntry := mkLiteEntry {
  le_Name : string; le_VolumeName : string; le_Path : string;
  le_PersistentSpecialMounts : bool; le_SpecialPath : list string }.

Record liteHandoff := mkLiteHandoff {
  lh_SnapshotKey : string; lh_PodUID : string; lh_ContainerName : string; lh_VolumeName : string;
  lh_PVCMountPath : string }.

(** A state computation over the file tree that may fail. *)
Abbreviation io A := (fs * result A)%type.

Definition io_bind {A B} (x : io A) (k : fs -> A -> io B) : io B :=
  match x with
  | (f, Ok a) => k f a
  | (f, Err e) => (f, Err e)
  end.

(** ** Copying a directory *)

Definition perm_of (n : node) : Z :=
  match n with NDir m => Z.land m 511 | NFile m _ => Z.land m 511 | NLink _ => 511 end.

(** [os.Symlink(link, target)] *)
Definition Symlink (f : fs) (link target : string) : result fs :=
  q ← resolve false f target;
  match node_at f q with Some _ => Err ErrExist | None => Ok (set_node f q (NLink link)) end.

Definition Readlink (f : fs) (p : string) : result string :=
  q ← resolve false f p;
  match node_at f q with
  | Some (NLink t) => Ok t
  | Some _ => Err (ErrNew "invalid argument")
  | None => Err ErrNotExist
  end.

(** [os.OpenFile(p, O_CREATE|O_EXCL|O_WRONLY, perm)] followed by writing [data]. *)
Definition create_excl (f : fs) (p : string) (perm : Z) (data : string) : result fs :=
  q ← resolve false f p;
  match node_at f q with
  | Some _ => Err ErrExist
  | None => Ok (set_node f q (NFile (and_not perm (umask f)) data))
  end.

(** The function [copyDir] passes to [filepath.Walk]. *)
Definition copy_one (src dst : string) (f : fs) (path : string) (info : result node) : io unit :=
  match info with
  | Err e => (f, Err e)
  | Ok info =>
      match Rel src path with
      | Err e => (f, Err e)
      | Ok rel =>
          if bool_decide (rel = ".") then (f, Ok tt) else
          let target := Join [dst; rel] in
          match info with
          | NDir _ =>
              io_bind (MkdirAll f target (perm_of info)) (fun f _ => Chmod f target (perm_of info))
          | NLink _ =>
              match (link ← Readlink f path; Symlink f link target) with
              | Ok f' => (f', Ok tt)
              | Err e => (f, Err e)
              end
          | NFile _ _ =>
              match (data ← ReadFile f path; create_excl f target (perm_of info) data) with
              | Ok f' => Chmod f' target (perm_of info)
              | Err e => (f, Err e)
              end
          end
      end
  end.


Section Walk.
Context (fn : fs -> string -> result node -> io unit).

(** [filepath.Walk] below [path]; the fuel bounds the depth. *)
Fixpoint walk_tree (fuel : nat) (f : fs) (path : string) (info : node) : io unit :=
  match fuel with
  | O => (f, Err (ErrNew "walk: out of fuel"))
  | S n =>
      if negb (is_dir info) then fn f path (Ok info) else
      match ReadDir f path with
      | Err e => fn f path (Err e)
      | Ok names =>
          io_bind (fn f path (Ok info)) (fun f _ =>
            (fix each (f : fs) (names : list string) : io unit :=
               match names with
               | [] => (f, Ok tt)
               | name :: names' =>
                   let filename := Join [path; name] in
                   match Lstat f filename with
                   | Err e => io_bind (fn f filename (Err e)) (fun f _ => each f names')
                   | Ok fileInfo => io_bind (walk_tree n f filename fileInfo) (fun f _ => each f names')
                   end
               end) f (merge_sort string_le names))
      end
  end.

Definition Walk (f : fs) (root : string) : io unit :=
  match Lstat f root with
  | Err e => fn f root (Err e)
  | Ok info => walk_tree (S (size (nodes f))) f root info
  end.
End Walk.

Definition copyDir (f : fs) (src dst : string) : io unit := Walk (copy_one src dst) f src.

Definition dirEmpty (f : fs) (path : string) : result bool :=
  names ← ReadDir f path; Ok (forallb (fun n => bool_decide (n = "lost+found")) names).

(** ** PVC mounts *)

Definition liteMountReadOnly (mount : Mount) : bool :=
  existsb (fun o => bool_decide (o = "ro")) (Options mount).

Definition volumeRoots (podRoot : string) : list string :=
  [Join [podRoot; "volumes"; "kubernetes.io~csi"]; Join [podRoot; "volumes"; "kubernetes.io~local-volume"]].

(** The volume directory itself, or its "mount" subdirectory. *)
Definition direct_volume (directRoot cleanSource : string) : bool :=
  match Rel directRoot cleanSource with
  | Err _ => false
  | Ok rel =>
      match split ch_slash rel with
      | [p] => negb (bool_decide (p = ""))
      | [p; q] => negb (bool_decide (p = "")) && bool_decide (q = "mount")
      | _ => false
      end
  end.

Definition volume_exists (f : fs) (name directRoot : string) : bool :=
  is_ok (StatF f (Join [directRoot; name; "mount"])) || is_ok (StatF f (Join [directRoot; name])).

Definition subpath_volume (f : fs) (podRoot containerName cleanSource : string) : bool :=
  match Rel (Join [podRoot; "volume-subpaths"]) cleanSource with
  | Err _ => false
  | Ok rel =>
      match split ch_slash rel with
      | [p0; p1; p2] =>
          if bool_decide (p0 = "") || bool_decide (p1 = "") || bool_decide (p2 = "") then false else
          let containerMatches := bool_decide (p1 = containerName) || has_prefix (p1 +:+ "-") containerName in
          let volumeMatches := has_prefix "pvc-" p0 || existsb (volume_exists f p0) (volumeRoots podRoot) in
          containerMatches && volumeMatches
      | _ => false
      end
  end.

Definition detectLitePVCSourceAt (f : fs) (source podUID containerName podsDir : string) : string * bool :=
  match Abs (Getwd f) source with
  | Err _ => ("", false)
  | Ok cleanSource =>
      let podRoot := Join [podsDir; podUID] in
      if existsb (fun r => direct_volume r cleanSource) (volumeRoots podRoot) then (cleanSource, true)
      else if subpath_volume f podRoot containerName cleanSource then (cleanSource, true)
      else ("", false)
  end.

Definition detectLitePVCSource (f : fs) (source podUID containerName : string) : string * bool :=
  detectLitePVCSourceAt f source podUID containerName liteKubeletPodsDir.

(** One mount of the loop: skipped, or initialised from the image. *)
Definition init_mount (podUID name podsDir rootfs : string) (f : fs) (mount : Mount) : io unit :=
  if negb (bool_decide (MType mount = "bind")) || liteMountReadOnly mount then (f, Ok tt) else
  let '(source, ok) := detectLitePVCSourceAt f (MSource mount) podUID name podsDir in
  if negb ok then (f, Ok tt) else
  match Lstat f source with
  | Err _ => (f, Ok tt)
  | Ok info =>
      if negb (is_dir info) || is_link info then (f, Ok tt) else
      match dirEmpty f source with
      | Ok true =>
          let relative := trim_prefix (Clean (Destination mount)) slash in
          if bool_decide (relative = ".") || bool_decide (relative = "") then (f, Ok tt) else
          let imagePath := Join [rootfs; relative] in
          match Lstat f imagePath with
          | Err e => if os_IsNotExist e then (f, Ok tt) else (f, Err (ErrWrap "inspect image volume path" e))
          | Ok info =>
              if negb (is_dir info) then (f, Ok tt) else
              if is_link info then (f, Err (ErrNew "image volume path is a symlink")) else
              match copyDir f imagePath source with
              | (f', Err e) => (f', Err (ErrWrap "initialize PVC mount" e))
              | (f', Ok _) => (f', Ok tt)
              end
          end
      | _ => (f, Ok tt)
      end
  end.

Fixpoint init_mounts (podUID name podsDir rootfs : string) (f : fs) (l : list Mount) : io unit :=
  match l with
  | [] => (f, Ok tt)
  | m :: l' => io_bind (init_mount podUID name podsDir rootfs f m) (fun f _ =>
                 init_mounts podUID name podsDir rootfs f l')
  end.

Definition initLiteVolumesAt (f : fs) (spec : OciSpec) (podsDir : string) : io unit :=
  match Root spec with
  | None => (f, Ok tt)
  | Some path =>
      if bool_decide (path = "") then (f, Ok tt) else
      let name := map_index (OAnnotations spec) liteContainerName in
      let podUID := map_index (OAnnotations spec) liteSandboxUID in
      if bool_decide (name = "") || bool_decide (podUID = "") then (f, Ok tt) else
      match Abs (Getwd f) path with
      | Err e => (f, Err (ErrWrap "resolve container rootfs" e))
      | Ok rootfs => init_mounts podUID name podsDir rootfs f (Mounts spec)
      end
  end.

Definition initLiteVolumes (f : fs) (spec : OciSpec) : io unit := initLiteVolumesAt f spec liteKubeletPodsDir.

(** ** Persistent special mounts *)

(** The struct decoder; keys match field names whatever their case, unknown keys are ignored. *)
Definition lite_field (e : liteRootfsEntry) (kv : string * jvalue) : result liteRootfsEntry :=
  let '(k, v) := kv in
  let '(mkLiteEntry n vn p b sp) := e in
  if field_matches k "Name" then s ← as_string n v; Ok (mkLiteEntry s vn p b sp)
  else if field_matches k "VolumeName" then s ← as_string vn v; Ok (mkLiteEntry n s p b sp)
  else if field_matches k "Path" then s ← as_string p v; Ok (mkLiteEntry n vn s b sp)
  else if field_matches k "persistentSpecialMounts" then c ← as_bool b v; Ok (mkLiteEntry n vn p c sp)
  else if field_matches k "specialPath" then l ← as_strings v; Ok (mkLiteEntry n vn p b l)
  else Ok e.

Fixpoint lite_fields (e : liteRootfsEntry) (l : list (string * jvalue)) : result liteRootfsEntry :=
  match l with
  | [] => Ok e
  | kv :: l' => e' ← lite_field e kv; lite_fields e' l'
  end.

Definition lite_entry_of (v : jvalue) : result liteRootfsEntry :=
  match v with
  | JObj l => lite_fields (mkLiteEntry "" "" "" false []) l
  | JNull => Ok (mkLiteEntry "" "" "" false [])
  | _ => Err ErrType
  end.

Fixpoint lite_entries (l : list jvalue) : result (list liteRootfsEntry) :=
  match l with
  | [] => Ok []
  | v :: l' => e ← lite_entry_of v; r ← lite_entries l'; Ok (e :: r)
  end.

Definition unmarshal_lite_entries (raw : string) : result (list liteRootfsEntry) :=
  v ← unmarshal_value raw;
  match v with JArr l => lite_entries l | JNull => Ok [] | _ => Err ErrType end.

Definition handoff_field (h : liteHandoff) (kv : string * jvalue) : result liteHandoff :=
  let '(k, v) := kv in
  let '(mkLiteHandoff s u c vn m) := h in
  if field_matches k "SnapshotKey" then x ← as_string s v; Ok (mkLiteHandoff x u c vn m)
  else if field_matches k "PodUID" then x ← as_string u v; Ok (mkLiteHandoff s x c vn m)
  else if field_matches k "ContainerName" then x ← as_string c v; Ok (mkLiteHandoff s u x vn m)
  else if field_matches k "VolumeName" then x ← as_string vn v; Ok (mkLiteHandoff s u c x m)
  else if field_matches k "PVCMountPath" then x ← as_string m v; Ok (mkLiteHandoff s u c vn x)
  else Ok h.

Fixpoint handoff_fields (h : liteHandoff) (l : list (string * jvalue)) : result liteHandoff :=
  match l with
  | [] => Ok h
  | kv :: l' => h' ← handoff_field h kv; handoff_fields h' l'
  end.

(** [json.NewDecoder(f).Decode(&h)]: what follows the first value is not looked at. *)
Definition decode_handoff (data : string) : result liteHandoff :=
  '(v, _) ← decode_value data;
  match v with
  | JObj l => handoff_fields (mkLiteHandoff "" "" "" "" "") l
  | JNull => Ok (mkLiteHandoff "" "" "" "" "")
  | _ => Err ErrType
  end.

Definition loadLiteHandoff (f : fs) (id : string) : result liteHandoff :=
  let path := Join [liteHandoffDir; hex_encode (Sum256 id) +:+ ".json"] in
  data ← wrap_err "open persistent special handoff" (ReadFile f path);
  decode_handoff data.

Definition liteSpecialPaths : list string :=
  ["/var/lib/docker"; "/var/lib/kubelet"; "/var/lib/rancher/k3s"; "/var/lib/rancher/rke2"; "/var/lib/buildkit";
   "/var/lib/containerd/io.containerd.snapshotter.v1.overlayfs"].

Definition special_source (root dest : string) : string := Join [root; trim_prefix (Clean dest) slash].

Definition special_mount (root dest : string) : Mount :=
  mkMount dest "bind" (special_source root dest) ["rbind"; "rprivate"].

Definition add_mount (spec : OciSpec) (m : Mount) : OciSpec :=
  mkOciSpec (Root spec) (Mounts spec ++ [m]) (OAnnotations spec).

Definition ErrNilRoot : error := ErrNew "panic: invalid memory address or nil pointer dereference".

(** The loop over the destinations; the spec grows as it goes. *)
Fixpoint add_paths (root : string) (f : fs) (spec : OciSpec) (paths : list string) : fs * OciSpec * result unit :=
  match paths with
  | [] => (f, spec, Ok tt)
  | dest :: paths' =>
      let src := special_source root dest in
      match MkdirAll f src mode_0755 with
      | (f1, Err e) => (f1, spec, Err e)
      | (f1, Ok _) =>
          match dirEmpty f1 src with
          | Err e => (f1, spec, Err e)
          | Ok empty =>
              let '(f2, r) :=
                if empty then
                  match Root spec with
                  | None => (f1, Err ErrNilRoot)
                  | Some rp =>
                      match copyDir f1 (Join [rp; Clean dest]) src with
                      | (f2, Err e) => (f2, if os_IsNotExist e then Ok tt
                                            else Err (ErrWrap "initialize special mount" e))
                      | (f2, Ok _) => (f2, Ok tt)
                      end
                  end
                else (f1, Ok tt) in
              match r with
              | Err e => (f2, spec, Err e)
              | Ok _ => add_paths root f2 (add_mount spec (special_mount root dest)) paths'
              end
          end
      end
  end.

Definition ErrHandoffMismatch : error := ErrNew "persistent special handoff does not match container".

Definition check_handoff (f : fs) (name id : string) (entry : liteRootfsEntry) : result liteHandoff :=
  handoff ← loadLiteHandoff f id;
  _ ← guard_err (negb (bool_decide (lh_ContainerName handoff = name))
                 || negb (bool_decide (lh_VolumeName handoff = le_VolumeName entry))
                 || negb (bool_decide (lh_SnapshotKey handoff = id))) ErrHandoffMismatch;
  Ok handoff.

Definition special_root (handoff : liteHandoff) (entry : liteRootfsEntry) : string :=
  Join [lh_PVCMountPath handoff; Clean (le_Path entry); "special"].

Fixpoint add_entries (name id : string) (f : fs) (spec : OciSpec) (entries : list liteRootfsEntry)
    : fs * OciSpec * result unit :=
  match entries with
  | [] => (f, spec, Ok tt)
  | entry :: entries' =>
      if negb (bool_decide (le_Name entry = name)) || negb (le_PersistentSpecialMounts entry)
      then add_entries name id f spec entries' else
      match check_handoff f name id entry with
      | Err e => (f, spec, Err e)
      | Ok handoff =>
          match add_paths (special_root handoff entry) f spec (liteSpecialPaths ++ le_SpecialPath entry) with
          | (f', spec', Err e) => (f', spec', Err e)
          | (f', spec', Ok _) => add_entries name id f' spec' entries'
          end
      end
  end.

Definition addLiteSpecialMounts (f : fs) (spec : OciSpec) (id : string) : fs * OciSpec * result unit :=
  let raw := map_index (OAnnotations spec) liteRootfsAnnotation in
  if bool_decide (raw = "") then (f, spec, Ok tt) else
  match wrap_err "decode annotation" (unmarshal_lite_entries raw) with
  | Err e => (f, spec, Err e)
  | Ok entries => add_entries (map_index (OAnnotations spec) liteContainerName) id f spec entries
  end.

Definition prepareLiteSpec (f : fs) (spec : OciSpec) (id : string) : fs * OciSpec * result unit :=
  match initLiteVolumes f spec with
  | (f1, Err e) => (f1, spec, Err e)
  | (f1, Ok _) => addLiteSpecialMounts f1 spec id
  end.
