(* ===== verification/LiteThms.v ===== *)
(** * Correctness of the runc-lite hook and its contracts with the other components *)

From S2P Require Import Prelude GoStrings GoPath GoJson GoFs GoSha Rootfs RootfsThms Handoff HandoffThms Lite.

Open Scope string_scope.
Open Scope list_scope.

(** ** The handoff crosses from the snapshotter to runc-lite *)

Definition lite_view (h : PersistentSpecialHandoff) : liteHandoff :=
  mkLiteHandoff (h_SnapshotKey h) (h_PodUID h) (h_ContainerName h) (h_VolumeName h) (h_PVCMountPath h).

Lemma decode_fuel (s : string) (m : nat) (v : jvalue) (rest : string) :
  (m <= 2 * String.length s + 2)%nat -> (forall k, value (m + k) s = Some (v, rest)) ->
  decode_value s = Ok (v, rest).
Proof.
  intros Hm Hv. unfold decode_value.
  replace (2 * String.length s + 2)%nat with (m + (2 * String.length s + 2 - m))%nat by lia. by rewrite Hv.
Qed.

Lemma string_length_app (s t : string) : String.length (s +:+ t) = (String.length s + String.length t)%nat.
Proof. induction s as [|c s IH]; [done|]. rewrite app_cons. cbn. by rewrite IH. Qed.

Lemma decode_marshal (h : PersistentSpecialHandoff) :
  Version h = PersistentSpecialHandoffVersion -> decode_handoff (marshal_handoff h) = Ok (lite_view h).
Proof.
  intros Hv. unfold decode_handoff.
  rewrite (decode_fuel _ 8 (JObj
    [("version", JNum "1"); ("snapshotKey", JStr (h_SnapshotKey h)); ("podUID", JStr (h_PodUID h));
     ("containerName", JStr (h_ContainerName h)); ("volumeName", JStr (h_VolumeName h));
     ("pvcMountPath", JStr (h_PVCMountPath h))]) ""); [reflexivity|..].
  - unfold marshal_handoff. cbn [String.length]. rewrite string_length_app. cbn [join].
    unfold member at 1. rewrite !string_length_app. cbn. lia.
  - intros k. unfold marshal_handoff. rewrite Hv. cbn [join].
    rewrite !app_assoc_str. unfold member at 1. rewrite !app_assoc_str.
    change (8 + k)%nat with (S (7 + k)). rewrite value_object. rewrite !app_cons, !app_empty_l.
    change (7 + k)%nat with (S (S (5 + k))). rewrite members_key.
    change (value (S (5 + k)) (format_int PersistentSpecialHandoffVersion +:+ ?s)) with (Some (JNum "1", s)).
    cbn [mbind option_bind]. change (next_char (String ch_comma ?s)) with (Some (ch_comma, s)).
    cbn [mbind option_bind]. rewrite (bool_decide_eq_false_2 (ch_comma = "}"%char)) by done.
    rewrite (bool_decide_eq_true_2 (ch_comma = ch_comma)) by done.
    change (S (5 + k))%nat with (S (S (4 + k))). rewrite members_string.
    change (S (4 + k))%nat with (S (S (3 + k))). rewrite members_string.
    change (S (3 + k))%nat with (S (S (2 + k))). rewrite members_string.
    change (S (2 + k))%nat with (S (S (1 + k))). rewrite members_string.
    change (S (1 + k))%nat with (S (S k)). rewrite members_last. reflexivity.
Qed.

Definition handoff_elems : list string := ["run"; "sysbox"; "rootfs-pvc-handoff"].

(** The encoder model is exact on ASCII text (GoJson). *)
Definition ascii_text (s : string) : Prop := str_forall (fun c => (code c <? 128)%nat) s = true.
Definition ascii_handoff (h : PersistentSpecialHandoff) : Prop :=
  Forall ascii_text [h_SnapshotKey h; h_PodUID h; h_ContainerName h; h_VolumeName h; h_PVCMountPath h].

Lemma handoff_read_back (f f' : fs) (env : tmp_env) (h : PersistentSpecialHandoff) :
  ascii_handoff h -> contains_char ch_slash (tmp_random env) = false -> fs_wf f -> clear_path f handoff_elems ->
  Write (mkStore PersistentSpecialHandoffDir) None env f h = (f', Ok tt) ->
  loadLiteHandoff f' (h_SnapshotKey h) = Ok (lite_view h).
Proof.
  intros _ Hr Hwf Hc HW. change PersistentSpecialHandoffDir with (render true handoff_elems) in HW.
  apply Write_spec in HW as (_ & [Hcomp Hread] & _); [|by repeat constructor|done..].
  unfold loadLiteHandoff. change liteHandoffDir with (render true handoff_elems).
  unfold handoff_path in Hread. cbn [root] in Hread. rewrite Hread. cbn [wrap_err mbind result_bind].
  apply decode_marshal. unfold complete in Hcomp. rewrite !andb_true_iff in Hcomp.
  by destruct Hcomp as [[[[[Hv%bool_decide_eq_true_1 _] _] _] _] _].
Qed.

(** What the snapshotter publishes, runc-lite reads: after a successful
    [Write] to the handoff directory, [loadLiteHandoff] with the snapshot key
    returns exactly the published record, although the two programs declare the
    directory and the record independently. *)
Theorem handoff_contract (f f' : fs) (env : tmp_env) (h : PersistentSpecialHandoff) :
  ascii_handoff h -> contains_char ch_slash (tmp_random env) = false -> fs_wf f -> clear_path f handoff_elems ->
  Write (mkStore PersistentSpecialHandoffDir) None env f h = (f', Ok tt) ->
  loadLiteHandoff f' (h_SnapshotKey h) = Ok (lite_view h).
Proof. apply handoff_read_back. Qed.

Lemma handoff_contract_witness :
  loadLiteHandoff (Write (mkStore PersistentSpecialHandoffDir) None (wit_env (Ok tt)) empty_fs wit_handoff).1 "snap-7"
    = Ok (mkLiteHandoff "snap-7" "uid-1" "app" "data" "/pvc/vol").
Proof.
  apply (handoff_contract empty_fs _ (wit_env (Ok tt)) wit_handoff).
  - by repeat constructor.
  - reflexivity.
  - exact empty_fs_wf.
  - apply clear_path_check. vm_compute. reflexivity.
  - assert ((Write (mkStore PersistentSpecialHandoffDir) None (wit_env (Ok tt)) empty_fs wit_handoff).2 = Ok tt) as Hw
      by (vm_compute; reflexivity).
    rewrite <- Hw. apply surjective_pairing.
Defined.

(** ** Which sources are PVCs *)

Lemma strip_common_spec (a b a' b' : list string) :
  strip_common a b = (a', b') -> exists c, a = c ++ a' /\ b = c ++ b'.
Proof.
  revert b a' b'. induction a as [|x a IH]; intros b a' b'; cbn; [injection 1 as <- <-; by exists []|].
  destruct b as [|y b]; [injection 1 as <- <-; by exists []|].
  case_bool_decide as E; [|injection 1 as <- <-; by exists []].
  intros (c & -> & ->)%IH. subst y. by exists (x :: c).
Qed.

(** A relative path between clean absolute paths: some steps up from the base,
    then the rest of the target. *)
Lemma Rel_inv (b t : list string) (rel : string) :
  Forall good b -> Forall good t -> Rel (render true b) (render true t) = Ok rel ->
  exists c b' t', b = c ++ b' /\ t = c ++ t' /\
    split ch_slash rel = (if bool_decide (b' ++ t' = []) then ["."] else replicate (length b') ".." ++ t').
Proof.
  intros Hb Ht. unfold Rel. rewrite !Clean_render by (by apply good_norm). case_bool_decide as E.
  { apply (f_equal (comps true)) in E. rewrite !comps_render in E by (by apply good_norm). subst t.
    injection 1 as <-. exists b, [], []. by rewrite app_nil_r. }
  rewrite (bool_decide_eq_false_2 (render true b = ".")) by done.
  rewrite !IsAbs_render by (by apply good_norm). cbn [Bool.eqb negb].
  rewrite !elements_render by done. destruct (strip_common b t) as [b' t'] eqn:Es.
  apply strip_common_spec in Es as (c & -> & ->). case_bool_decide; [done|]. injection 1 as <-.
  exists c, b', t'. split_and!; [done..|].
  rewrite (bool_decide_eq_false_2 (b' ++ t' = [])).
  2: { intros [-> ->]%app_eq_nil. by apply E. }
  unfold slash. apply split_join.
  - intros [Hr ->]%app_eq_nil. destruct b'; [|done]. by apply E.
  - apply Forall_app. split; [by apply Forall_replicate|]. apply Forall_app in Ht as [_ Ht].
    by eapply norm_parts, (good_norm true).
Qed.

Lemma Abs_good (wd p s : string) :
  IsAbs wd = true -> Abs (Ok wd) p = Ok s -> exists cs, Forall good cs /\ s = render true cs.
Proof.
  intros Hw. unfold Abs. destruct (IsAbs p) eqn:Ha.
  - injection 1 as <-. exists (comps true p). rewrite <- Clean_abs by done. split; [|done].
    apply norm_true_good, comps_norm.
  - cbn [mbind result_bind]. intros H. assert (s = Join [wd; p]) as -> by congruence. rewrite Join_two by done.
    assert (exists q, IsAbs q = true /\ render true (rev (fold_left (comp_step true) (split ch_slash p)
      (rev (comps true wd)))) = Clean q) as (q & Hq & ->).
    { exists (wd +:+ String ch_slash p). split; [by apply IsAbs_app|].
      rewrite Clean_abs by (by apply IsAbs_app). unfold comps.
      by rewrite split_app_sep, fold_left_app, rev_involutive. }
    exists (comps true q). rewrite <- Clean_abs by done. split; [|done]. apply norm_true_good, comps_norm.
Qed.

Lemma Join_render2 (cs : list string) (a b : string) :
  Forall good cs -> good a -> good b -> Join [render true cs; a; b] = render true (cs ++ [a; b]).
Proof.
  intros Hg Ha Hb. transitivity (Join [render true cs; a +:+ slash +:+ b]); [done|].
  assert (Forall good [a; b]) as Hab by (constructor; [done|by apply Forall_one]).
  rewrite (Join_good _ _ [a; b]); [by rewrite comps_render by (by apply good_norm)|apply has_prefix_app|done|].
  intros stk. unfold slash. rewrite app_cons, app_empty_l, split_app_sep, !split_no_sep by (apply Ha || apply Hb).
  cbn. by rewrite !comp_step_good.
Qed.

Definition plugins : list string := ["kubernetes.io~csi"; "kubernetes.io~local-volume"].

Lemma good_volumes : good "volumes". Proof. by vm_compute. Qed.
Lemma good_subpaths : good "volume-subpaths". Proof. by vm_compute. Qed.
Lemma good_plugins : Forall good plugins. Proof. by repeat constructor. Qed.

Section Detect.
Context (PR : list string) (HPR : Forall good PR).

Lemma volumeRoots_render :
  volumeRoots (render true PR) = map (fun p => render true (PR ++ ["volumes"; p])) plugins.
Proof.
  unfold volumeRoots, plugins. cbn [map]. pose proof good_plugins as Hg.
  apply Forall_cons in Hg as [H1 Hg], Hg as [H2 _].
  by rewrite !Join_render2 by (done || apply good_volumes).
Qed.

Lemma direct_confined (p : string) (t : list string) :
  good p -> Forall good t -> direct_volume (render true (PR ++ ["volumes"; p])) (render true t) = true ->
  PR `prefix_of` t.
Proof.
  intros Hp Ht. unfold direct_volume. destruct (Rel _ _) as [rel|] eqn:E; [|done].
  assert (Forall good (PR ++ ["volumes"; p])) as Hb.
  { apply Forall_app. split; [done|]. constructor; [apply good_volumes|by apply Forall_one]. }
  apply Rel_inv in E as (c & b' & t' & Eb & -> & ->); [|done..].
  intros H. apply prefix_app_r. apply (prefix_short _ _ b' ["volumes"; p]); [done|].
  destruct b' as [|x [|y b']]; cbn; try lia. exfalso. cbn in H. destruct (replicate _ _ ++ t'); done.
Qed.

Lemma subpath_confined (f : fs) (name : string) (t : list string) :
  has_prefix ".." name = false -> Forall good t ->
  subpath_volume f (render true PR) name (render true t) = true -> PR `prefix_of` t.
Proof.
  intros Hn Ht. unfold subpath_volume. rewrite Join_render by (done || apply good_subpaths).
  destruct (Rel _ _) as [rel|] eqn:E; [|done].
  apply Rel_inv in E as (c & b' & t' & Eb & -> & ->); [|by apply Forall_snoc_2; [|apply good_subpaths]|done].
  intros H. apply prefix_app_r. apply (prefix_short _ _ b' ["volume-subpaths"]); [done|].
  destruct b' as [|x [|y b']]; cbn; try lia. exfalso.
  rewrite (bool_decide_eq_false_2 (_ = [])) in H by done. cbn [length replicate app] in H.
  destruct (replicate (length b') ".." ++ t') as [|p2 [|]]; [done| |done]. cbn [andb] in H.
  destruct (_ || _ || _); [done|]. apply andb_true_iff in H as [Hm _]. apply orb_true_iff in Hm as [Hm|Hm].
  - apply bool_decide_eq_true_1 in Hm. by rewrite <- Hm in Hn.
  - apply has_prefix_spec in Hm as [s ->]. rewrite app_assoc_str, has_prefix_app in Hn. done.
Qed.
End Detect.

(** Whatever source a mount names, links included, runc-lite takes it for a
    PVC only if it lies in the directory kubelet keeps for this very pod. *)
Theorem detect_confined (f : fs) (P : list string) (u source name s : string) :
  Forall good P -> good u -> has_prefix ".." name = false ->
  detectLitePVCSourceAt f source u name (render true P) = (s, true) ->
  Abs (Getwd f) source = Ok s /\ below (render true (P ++ [u])) s.
Proof.
  intros HP Hu Hn. unfold detectLitePVCSourceAt. destruct (Abs _ _) as [cs|] eqn:Ea; [|done].
  rewrite Join_render by done. assert (Forall good (P ++ [u])) as HPR by (by apply Forall_snoc_2).
  intros H. assert (cs = s) as -> by (by repeat case_match; simplify_eq).
  split; [done|]. apply Abs_good in Ea as (t & Ht & ->); [|apply has_prefix_app].
  assert ((P ++ [u]) `prefix_of` t) as [l ->].
  { destruct (existsb _ _) eqn:Ee.
    - rewrite volumeRoots_render in Ee by done. pose proof good_plugins as Hg.
      apply existsb_exists in Ee as (r & Hr & Hd). apply in_map_iff in Hr as (p & <- & Hp).
      rewrite Forall_forall in Hg. eapply direct_confined; [done|by apply Hg, list_elem_of_In|done|done].
    - destruct (subpath_volume _ _ _ _) eqn:Es; [|done]. by eapply subpath_confined. }
  exists l. apply Forall_app in Ht as [_ Hl]. split; [done|]. by rewrite comps_render by (by apply good_norm).
Qed.

Definition wit_uid : string := "3f2b".

Lemma detect_confined_witness :
  detectLitePVCSourceAt empty_fs "/var/lib/kubelet/pods/3f2b/volumes/kubernetes.io~csi/pvc-1/../pvc-1/mount/"
    wit_uid "app" "/var/lib/kubelet/pods"
    = ("/var/lib/kubelet/pods/3f2b/volumes/kubernetes.io~csi/pvc-1/mount", true) /\
  below "/var/lib/kubelet/pods/3f2b" "/var/lib/kubelet/pods/3f2b/volumes/kubernetes.io~csi/pvc-1/mount".
Proof.
  assert (detectLitePVCSourceAt empty_fs "/var/lib/kubelet/pods/3f2b/volumes/kubernetes.io~csi/pvc-1/../pvc-1/mount/"
    wit_uid "app" "/var/lib/kubelet/pods"
    = ("/var/lib/kubelet/pods/3f2b/volumes/kubernetes.io~csi/pvc-1/mount", true)) as H
    by (vm_compute; reflexivity).
  split; [exact H|].
  apply (detect_confined empty_fs ["var"; "lib"; "kubelet"; "pods"] wit_uid _ "app" _) in H.
  - apply H.
  - by repeat constructor.
  - by vm_compute.
  - reflexivity.
Defined.

Lemma strip_common_app (c a b : list string) : strip_common (c ++ a) (c ++ b) = strip_common a b.
Proof. induction c as [|x c IH]; [done|]. cbn. by rewrite bool_decide_eq_true_2. Qed.

Lemma Rel_forward (c b' t' : list string) (x y : string) :
  Forall good (c ++ x :: b') -> Forall good (c ++ t') -> head t' = Some y -> x <> y ->
  exists rel, Rel (render true (c ++ x :: b')) (render true (c ++ t')) = Ok rel /\
    split ch_slash rel = replicate (S (length b')) ".." ++ t'.
Proof.
  intros Hb Ht Hh Hxy. destruct t' as [|z t']; [done|]. injection Hh as ->.
  assert (x <> "..") as Hx.
  { apply Forall_app in Hb as [_ Hb]. apply Forall_cons in Hb as [(_ & _ & ? & _) _]. done. }
  assert (strip_common (x :: b') (y :: t') = (x :: b', y :: t')) as Hs.
  { cbn. by rewrite bool_decide_eq_false_2. }
  unfold Rel. rewrite !Clean_render by (by apply good_norm). rewrite bool_decide_eq_false_2.
  2: { intros E. apply (f_equal (comps true)) in E. rewrite !comps_render in E by (by apply good_norm).
       apply app_inv_head in E. congruence. }
  rewrite (bool_decide_eq_false_2 (render true _ = ".")) by done.
  rewrite !IsAbs_render by (by apply good_norm). cbn [Bool.eqb negb].
  rewrite !elements_render, strip_common_app, Hs by done.
  rewrite (bool_decide_eq_false_2 (head (x :: b') = Some "..")) by (cbn; congruence).
  eexists. split; [done|]. unfold slash. apply split_join; [done|].
  apply Forall_app. split; [by apply Forall_replicate|].
  apply Forall_app in Ht as [_ Ht]. by eapply norm_parts, (good_norm true).
Qed.

Lemma direct_volume_below (b l : list string) :
  Forall good b -> Forall good l ->
  direct_volume (render true b) (render true (b ++ l)) =
    match l with [] => true | [_] => true | [_; q] => bool_decide (q = "mount") | _ => false end.
Proof.
  intros Hb Hl. unfold direct_volume. rewrite Rel_below by done. case_bool_decide as E; [by subst|].
  unfold slash. rewrite split_join; [|done|by eapply norm_parts, (good_norm true)].
  destruct l as [|p [|q [|]]]; [done|..]; apply Forall_cons in Hl as [(Hp & _) _];
    by rewrite ?(bool_decide_eq_false_2 (p = "")).
Qed.

Lemma Forall_good2 (a b : string) : good a -> good b -> Forall good [a; b].
Proof. intros. constructor; [done|by apply Forall_one]. Qed.

Lemma detect_unfold (f : fs) (P cs : list string) (u name : string) :
  Forall good P -> good u -> Forall good cs ->
  detectLitePVCSourceAt f (render true cs) u name (render true P) =
    if existsb (fun q => direct_volume (render true ((P ++ [u]) ++ ["volumes"; q])) (render true cs)) plugins
       || subpath_volume f (render true (P ++ [u])) name (render true cs)
    then (render true cs, true) else ("", false).
Proof.
  intros HP Hu Hcs. unfold detectLitePVCSourceAt, Abs.
  rewrite IsAbs_render, Clean_render by (by apply good_norm). rewrite Join_render by done.
  rewrite volumeRoots_render by (by apply Forall_snoc_2). cbn [map existsb plugins].
  by destruct (_ || _), (subpath_volume _ _ _ _).
Qed.

Lemma direct_other (PR : list string) (p q v : string) :
  Forall good PR -> good p -> good q -> good v -> q <> p ->
  direct_volume (render true (PR ++ ["volumes"; q])) (render true (PR ++ ["volumes"; p; v])) = false.
Proof.
  intros HPR Hp Hq Hv Hne. pose proof good_volumes as Hvol.
  destruct (Rel_forward (PR ++ ["volumes"]) [] [p; v] q p) as (rel & Hrel & Hs); [..|done|done|].
  - apply Forall_app. split; [by apply Forall_snoc_2|by apply Forall_one].
  - apply Forall_app. split; [by apply Forall_snoc_2|by apply Forall_good2].
  - rewrite <- !app_assoc in Hrel. cbn [app] in Hrel. unfold direct_volume. by rewrite Hrel, Hs.
Qed.

Lemma subpath_other (f : fs) (PR : list string) (name p v : string) :
  Forall good PR -> good p -> good v ->
  subpath_volume f (render true PR) name (render true (PR ++ ["volumes"; p; v])) = false.
Proof.
  intros HPR Hp Hv. pose proof good_volumes as Hvol. unfold subpath_volume.
  rewrite Join_render by (done || apply good_subpaths).
  destruct (Rel_forward PR [] ["volumes"; p; v] "volume-subpaths" "volumes") as (rel & Hrel & Hs); [..|done|done|].
  - apply Forall_snoc_2; [done|apply good_subpaths].
  - apply Forall_app. split; [done|]. constructor; [done|by apply Forall_good2].
  - by rewrite Hrel, Hs.
Qed.

Lemma detect_plugin (f : fs) (P l : list string) (u name p : string) :
  Forall good P -> good u -> p ∈ plugins -> Forall good l ->
  match l with [_] => True | [_; q] => q = "mount" | _ => False end ->
  let cs := ((P ++ [u]) ++ ["volumes"; p]) ++ l in
  detectLitePVCSourceAt f (render true cs) u name (render true P) = (render true cs, true).
Proof.
  intros HP Hu Hp Hl Hshape cs. assert (Forall good (P ++ [u])) as HPR by (by apply Forall_snoc_2).
  assert (good p) as Hgp by (pose proof good_plugins as Hg; rewrite Forall_forall in Hg; by apply Hg).
  assert (Forall good ((P ++ [u]) ++ ["volumes"; p])) as Hb.
  { apply Forall_app. split; [done|]. apply Forall_good2; [apply good_volumes|done]. }
  rewrite detect_unfold; [|done|done|by apply Forall_app].
  assert (existsb (fun q => direct_volume (render true ((P ++ [u]) ++ ["volumes"; q])) (render true cs)) plugins = true)
    as ->; [|done].
  apply existsb_exists. exists p. split; [by apply list_elem_of_In|]. subst cs.
  rewrite direct_volume_below by done. destruct l as [|x [|q [|]]]; try done. subst q. done.
Qed.

(** runc-lite recognises exactly the volume layouts it documents: below the
    pod's "volumes" directory, a volume of the CSI or the local-volume plugin and
    its "mount" subdirectory are PVCs, and a volume of any other plugin (an
    emptyDir, a projected volume) is not. *)
Theorem detect_selects (f : fs) (P : list string) (u name p v : string) :
  Forall good P -> good u -> good p -> good v ->
  let dir := ((P ++ [u]) ++ ["volumes"; p]) ++ [v] in
  let sub := ((P ++ [u]) ++ ["volumes"; p]) ++ [v; "mount"] in
  let detect cs := detectLitePVCSourceAt f (render true cs) u name (render true P) in
  if bool_decide (p ∈ plugins) then detect dir = (render true dir, true) /\ detect sub = (render true sub, true)
  else detect dir = ("", false).
Proof.
  intros HP Hu Hp Hv dir sub detect. subst detect. cbv beta. case_bool_decide as Hin.
  - split; apply detect_plugin; try done; [by apply Forall_one|]. apply Forall_good2; [done|by vm_compute].
  - assert (Forall good (P ++ [u])) as HPR by (by apply Forall_snoc_2).
    assert (dir = (P ++ [u]) ++ ["volumes"; p; v]) as -> by (subst dir; by rewrite <- app_assoc).
    rewrite detect_unfold; [|done|done|].
    2: { apply Forall_app. split; [done|]. constructor; [apply good_volumes|by apply Forall_good2]. }
    rewrite subpath_other by done. pose proof good_plugins as Hg. unfold plugins in *.
    apply Forall_cons in Hg as [Hg1 Hg], Hg as [Hg2 _]. cbn [existsb].
    rewrite !direct_other by (done || intros <-; apply Hin; set_solver). done.
Qed.

Lemma detect_selects_witness :
  detectLitePVCSourceAt empty_fs "/pods/u/volumes/kubernetes.io~empty-dir/cache" "u" "app" "/pods" = ("", false).
Proof.
  apply (detect_selects empty_fs ["pods"] "u" "app" "kubernetes.io~empty-dir" "cache");
    by repeat constructor.
Defined.

(** The source check accepts more than the documented paths: the directory
    that holds all of the pod's volumes, of every plugin, is itself taken for a
    PVC (its path relative to a plugin directory is the single element ".."). *)
Theorem detect_accepts_volumes_dir :
  detectLitePVCSource empty_fs "/var/lib/kubelet/pods/3f2b/volumes" "3f2b" "app"
    = ("/var/lib/kubelet/pods/3f2b/volumes", true).
Proof. vm_compute. reflexivity. Qed.

(** ** The special mounts *)

(** [spec'] is [spec] with [extra] mounts at the end. *)
Definition appends (spec spec' : OciSpec) (extra : list Mount) : Prop :=
  spec' = mkOciSpec (Root spec) (Mounts spec ++ extra) (OAnnotations spec).

Lemma appends_refl (spec : OciSpec) : appends spec spec [].
Proof. unfold appends. rewrite app_nil_r. by destruct spec. Qed.

Lemma appends_trans (s1 s2 s3 : OciSpec) (l k : list Mount) :
  appends s1 s2 l -> appends s2 s3 k -> appends s1 s3 (l ++ k).
Proof. unfold appends. intros -> ->. cbn. by rewrite app_assoc. Qed.

Lemma add_paths_ok (root : string) (paths : list string) (f f' : fs) (spec spec' : OciSpec) :
  add_paths root f spec paths = (f', spec', Ok tt) -> appends spec spec' (map (special_mount root) paths).
Proof.
  revert f spec. induction paths as [|dest paths IH]; intros f spec H; cbn [add_paths map] in *.
  { injection H as _ <-. apply appends_refl. }
  destruct (MkdirAll f _ _) as [f1 [u|e]]; [|done].
  destruct (dirEmpty f1 _) as [empty|e]; [|done].
  destruct (if empty then _ else _) as [f2 [w|e]]; [|done]. apply IH in H.
  apply (appends_trans _ (add_mount spec (special_mount root dest)) _ [_]); [|done]. by destruct spec.
Qed.

(** Where an added mount comes from. *)
Definition special_origin (name id : string) (entries : list liteRootfsEntry) (m : Mount) : Prop :=
  exists e h dest, e ∈ entries /\ le_Name e = name /\ le_PersistentSpecialMounts e = true /\
    lh_ContainerName h = name /\ lh_VolumeName h = le_VolumeName e /\ lh_SnapshotKey h = id /\
    dest ∈ liteSpecialPaths ++ le_SpecialPath e /\ m = special_mount (special_root h e) dest.

Lemma add_entries_ok (name id : string) (entries : list liteRootfsEntry) (f f' : fs) (spec spec' : OciSpec) :
  add_entries name id f spec entries = (f', spec', Ok tt) ->
  exists extra, appends spec spec' extra /\ Forall (special_origin name id entries) extra.
Proof.
  revert f spec. induction entries as [|e l IH]; intros f spec H; cbn [add_entries] in H.
  { injection H as _ <-. exists []. split; [apply appends_refl|done]. }
  assert (forall k, Forall (special_origin name id l) k -> Forall (special_origin name id (e :: l)) k) as Hw.
  { intros k Hk. eapply Forall_impl; [exact Hk|]. intros m (e' & h & d & Hin & ?). exists e', h, d.
    split; [by right|done]. }
  destruct (negb _ || negb _) eqn:Es.
  { apply IH in H as (extra & ? & ?). exists extra. auto. }
  apply orb_false_iff in Es as [En%negb_false_iff%bool_decide_eq_true_1 Ep%negb_false_iff].
  unfold check_handoff in H. destruct (loadLiteHandoff f id) as [h|]; [|done]. cbn [mbind result_bind] in H.
  destruct (_ || _ || _) eqn:Eh; cbn [guard_err mbind result_bind] in H; [done|].
  rewrite !orb_false_iff, !negb_false_iff, !bool_decide_eq_true in Eh. destruct Eh as [[? ?] ?].
  destruct (add_paths _ _ _ _) as [[f1 spec1] [[]|]] eqn:Ea; [|done].
  apply add_paths_ok in Ea. apply IH in H as (extra & Hx & Ho).
  exists (map (special_mount (special_root h e)) (liteSpecialPaths ++ le_SpecialPath e) ++ extra).
  split; [by eapply appends_trans|]. apply Forall_app. split; [|by apply Hw].
  apply Forall_map, Forall_forall. intros d Hd. exists e, h, d. split_and!; try done. by left.
Qed.

Lemma addLite_ok (f f' : fs) (spec spec' : OciSpec) (id : string) :
  addLiteSpecialMounts f spec id = (f', spec', Ok tt) ->
  let raw := map_index (OAnnotations spec) liteRootfsAnnotation in
  let name := map_index (OAnnotations spec) liteContainerName in
  exists extra entries, appends spec spec' extra /\ Forall (special_origin name id entries) extra /\
    (raw = "" -> extra = []) /\ (raw <> "" -> unmarshal_lite_entries raw = Ok entries).
Proof.
  intros H raw name. unfold addLiteSpecialMounts in H. fold raw name in H. case_bool_decide as Er.
  { injection H as _ <-. exists [], []. split_and!; [apply appends_refl|done|done|done]. }
  destruct (unmarshal_lite_entries raw) as [entries|e]; [|done]. cbn [wrap_err] in H.
  apply add_entries_ok in H as (extra & ? & ?). by exists extra, entries.
Qed.

(** A successful [addLiteSpecialMounts] only appends mounts to the spec, and
    each one is a bind of a special path of an entry of the annotation that is for
    this container and opted in, backed by the volume of a handoff that carries
    this container's name, the entry's volume and this snapshot key. *)
Theorem special_mounts_sound (f f' : fs) (spec spec' : OciSpec) (id : string) :
  addLiteSpecialMounts f spec id = (f', spec', Ok tt) ->
  let raw := map_index (OAnnotations spec) liteRootfsAnnotation in
  let name := map_index (OAnnotations spec) liteContainerName in
  exists extra entries, appends spec spec' extra /\ Forall (special_origin name id entries) extra /\
    (raw = "" -> extra = []) /\ (raw <> "" -> unmarshal_lite_entries raw = Ok entries).
Proof. apply addLite_ok. Qed.

(** A pod whose image has something in /var/lib/docker. *)
Definition wit_lite_fs : fs :=
  let f := (Write (mkStore PersistentSpecialHandoffDir) None (wit_env (Ok tt)) empty_fs wit_handoff).1 in
  let f := (MkdirAll f "/img/var/lib/docker/sub" mode_0755).1 in
  let f := set_node f ["img"; "var"; "lib"; "docker"; "sub"; "cfg"] (NFile mode_0600 "hello") in
  set_node f ["img"; "var"; "lib"; "docker"; "lnk"] (NLink "sub/cfg").

Definition jq (s : string) : string := String ch_quote (s +:+ String ch_quote "").

Definition wit_lite_annotation : string :=
  "[{" +:+ jq "name" +:+ ":" +:+ jq "app" +:+ "," +:+ jq "volumeName" +:+ ":" +:+ jq "data" +:+ ","
  +:+ jq "path" +:+ ":" +:+ jq "layer" +:+ "," +:+ jq "persistentSpecialMounts" +:+ ":true}]".

Definition wit_lite_spec : OciSpec :=
  mkOciSpec (Some "/img") [mkMount "/data" "bind" "/src" []]
    (Some {[ liteRootfsAnnotation := wit_lite_annotation; liteContainerName := "app" ]}).

Definition wit_lite_run : fs * OciSpec * result unit := addLiteSpecialMounts wit_lite_fs wit_lite_spec "snap-7".

Example wit_lite_copies :
  ReadFile wit_lite_run.1.1 "/pvc/vol/layer/special/var/lib/docker/lnk" = Ok "hello" /\
  map MSource (Mounts wit_lite_run.1.2) =
    ["/src"; "/pvc/vol/layer/special/var/lib/docker"; "/pvc/vol/layer/special/var/lib/kubelet";
     "/pvc/vol/layer/special/var/lib/rancher/k3s"; "/pvc/vol/layer/special/var/lib/rancher/rke2";
     "/pvc/vol/layer/special/var/lib/buildkit";
     "/pvc/vol/layer/special/var/lib/containerd/io.containerd.snapshotter.v1.overlayfs"].
Proof. vm_compute. split; reflexivity. Qed.

Lemma special_mounts_sound_witness :
  exists extra, appends wit_lite_spec wit_lite_run.1.2 extra /\ length extra = 6.
Proof.
  destruct (special_mounts_sound wit_lite_fs wit_lite_run.1.1 wit_lite_spec wit_lite_run.1.2 "snap-7")
    as (extra & entries & Ha & _).
  - assert (wit_lite_run.2 = Ok tt) as Hr by (vm_compute; reflexivity).
    rewrite <- Hr. fold wit_lite_run. by destruct wit_lite_run as [[? ?] ?].
  - exists extra. split; [exact Ha|]. apply (f_equal (fun s => length (Mounts s))) in Ha.
    assert (length (Mounts wit_lite_run.1.2) = 7) as Hl by (vm_compute; reflexivity).
    rewrite Hl in Ha. cbn in Ha. lia.
Defined.
