(* ===== verification/Admission.v ===== *)
(** * The mutating admission webhook: [sysbox-admission/admission]

    mutate.go, sidecar.go, patch.go, server.go and webhook.go.  A pod keeps the
    fields the webhook reads or writes; everything else of a pod, a spec, a
    container, a volume or a mount is carried in an opaque [rest] field, which
    the code copies with the record.  Go maps may be nil. *)

From S2P Require Import Prelude GoStrings GoPath GoJson.

Open Scope string_scope.
Open Scope list_scope.

(** ** Data *)

Definition AnnotationRootfsRwLayer : string := "sysbox/rootfs-rw-layer".
Definition AnnotationVolumeInit : string := "sysbox/volume-init".
Definition RuntimeClassSysboxRunc : string := "sysbox-runc".
Definition RuntimeClassRuncLite : string := "sysbox-runc-lite".
Definition SidecarMountPath : string := "/var/lib/sysbox/rootfs-rw-volume".
Definition SidecarContainerName : string := "sysbox-rootfs".

Record VolumeMount := mkVolumeMount { vm_name : string; MountPath : string; vm_rest : string }.
Record Container := mkContainer {
  c_name : string; Image : string; VolumeMounts : list VolumeMount; c_rest : string }.
(** A volume; [pvc] is the claim name of its PersistentVolumeClaim source. *)
Record Volume := mkVolume { v_name : string; pvc : option string; v_rest : string }.
Record PodSpec := mkPodSpec {
  RuntimeClassName : option string; Containers : list Container; Volumes : list Volume;
  spec_rest : string }.
Abbreviation gomap := (option (gmap string string)).
Record Pod := mkPod { Annotations : gomap; Labels : gomap; Spec : PodSpec; pod_rest : string }.

#[global] Instance VolumeMount_eq_dec : EqDecision VolumeMount.
Proof. solve_decision. Defined.
#[global] Instance Container_eq_dec : EqDecision Container.
Proof. solve_decision. Defined.
#[global] Instance Volume_eq_dec : EqDecision Volume.
Proof. solve_decision. Defined.
#[global] Instance PodSpec_eq_dec : EqDecision PodSpec.
Proof. solve_decision. Defined.
#[global] Instance Pod_eq_dec : EqDecision Pod.
Proof. solve_decision. Defined.

Definition map_get (m : gomap) (k : string) : option string := default ∅ m !! k.
Definition map_del (m : gomap) (k : string) : gomap := delete k <$> m.

Record RootfsRwLayerEntry := mkEntry {
  e_name : string; VolumeName : string; e_path : string;
  PersistentSpecialMounts : bool; SpecialPath : list string }.

Record Mutator := mkMutator { sandboxImage : string }.

(** ** Decoding the annotation *)

Definition zero_entry : RootfsRwLayerEntry := mkEntry "" "" "" false [].

(** One member of an entry object; unknown fields are refused. *)
Definition set_field (e : RootfsRwLayerEntry) (kv : string * jvalue) : result RootfsRwLayerEntry :=
  let '(k, v) := kv in
  if field_matches k "name" then
    s ← as_string (e_name e) v; Ok (mkEntry s (VolumeName e) (e_path e) (PersistentSpecialMounts e) (SpecialPath e))
  else if field_matches k "volumeName" then
    s ← as_string (VolumeName e) v; Ok (mkEntry (e_name e) s (e_path e) (PersistentSpecialMounts e) (SpecialPath e))
  else if field_matches k "path" then
    s ← as_string (e_path e) v; Ok (mkEntry (e_name e) (VolumeName e) s (PersistentSpecialMounts e) (SpecialPath e))
  else if field_matches k "persistentSpecialMounts" then
    b ← as_bool (PersistentSpecialMounts e) v; Ok (mkEntry (e_name e) (VolumeName e) (e_path e) b (SpecialPath e))
  else if field_matches k "specialPath" then
    l ← as_strings v; Ok (mkEntry (e_name e) (VolumeName e) (e_path e) (PersistentSpecialMounts e) l)
  else Err (ErrNew "json: unknown field").

Fixpoint set_fields (e : RootfsRwLayerEntry) (l : list (string * jvalue)) : result RootfsRwLayerEntry :=
  match l with
  | [] => Ok e
  | kv :: l' => e' ← set_field e kv; set_fields e' l'
  end.

Definition entry_of (v : jvalue) : result RootfsRwLayerEntry :=
  match v with
  | JObj l => set_fields zero_entry l
  | JNull => Ok zero_entry
  | _ => Err ErrType
  end.

Fixpoint entries_of (l : list jvalue) : result (list RootfsRwLayerEntry) :=
  match l with
  | [] => Ok []
  | v :: l' => e ← entry_of v; r ← entries_of l'; Ok (e :: r)
  end.

(** [decoder.Decode(&entries)] with [DisallowUnknownFields], and the unread input. *)
Definition decode_entries (raw : string) : result (list RootfsRwLayerEntry * string) :=
  '(v, rest) ← decode_value raw;
  l ← (match v with JArr l => entries_of l | JNull => Ok [] | _ => Err ErrType end);
  Ok (l, rest).

(** ** Validation (mutate.go) *)

Definition isManagedRuntime (name : string) : bool :=
  bool_decide (name = RuntimeClassSysboxRunc) || bool_decide (name = RuntimeClassRuncLite).

Definition managed (spec : PodSpec) : bool :=
  match RuntimeClassName spec with Some n => isManagedRuntime n | None => false end.

Definition builtinSpecialPaths : list string :=
  ["/var/lib/docker"; "/var/lib/kubelet"; "/var/lib/k0s"; "/var/lib/rancher/k3s";
   "/var/lib/rancher/rke2"; "/var/lib/buildkit";
   "/var/lib/containerd/io.containerd.snapshotter.v1.overlayfs"].

Definition validateSpecialPath (path : string) : result string :=
  if negb (IsAbs path) then Err (ErrNew "path must be absolute") else
  let cleaned := Clean path in
  if bool_decide (cleaned = slash) then Err (ErrNew "path must not be root") else Ok cleaned.

Definition pathsOverlap (left right : string) : bool :=
  bool_decide (left = right) || has_prefix (right +:+ slash) left || has_prefix (left +:+ slash) right.

Fixpoint findContainer_from (i : nat) (l : list Container) (name : string) : nat * bool :=
  match l with
  | [] => (0, false)
  | c :: l' => if bool_decide (c_name c = name) then (i, true) else findContainer_from (S i) l' name
  end.

Definition findContainer (spec : PodSpec) (name : string) : nat * bool :=
  findContainer_from 0 (Containers spec) name.

Fixpoint findPVCVolume_from (i : nat) (l : list Volume) (name : string) : nat * string * bool :=
  match l with
  | [] => (0, "", false)
  | v :: l' =>
      match pvc v with
      | Some claim => if bool_decide (v_name v = name) then (i, claim, true)
                      else findPVCVolume_from (S i) l' name
      | None => findPVCVolume_from (S i) l' name
      end
  end.

Definition findPVCVolume (spec : PodSpec) (volumeName : string) : nat * string * bool :=
  findPVCVolume_from 0 (Volumes spec) volumeName.

Definition validateRelativePath (path : string) : result unit :=
  if bool_decide (path = "") then Ok tt else
  if IsAbs path then Err (ErrNew "path must be relative") else
  let cleaned := Clean path in
  if bool_decide (cleaned = ".") then Ok tt else
  if bool_decide (cleaned = "..") || has_prefix "../" cleaned
  then Err (ErrNew "path must not escape volume root") else Ok tt.

(** The loop over the special paths; [paths] are the ones accepted so far. *)
Fixpoint check_special (paths : list string) (l : list string) : result unit :=
  match l with
  | [] => Ok tt
  | p :: l' =>
      cleaned ← wrap_err "specialPath invalid" (validateSpecialPath p);
      if existsb (pathsOverlap cleaned) paths then Err (ErrNew "specialPath overlaps")
      else check_special (paths ++ [cleaned]) l'
  end.

Definition validateEntry (spec : PodSpec) (entry : RootfsRwLayerEntry) : result unit :=
  _ ← guard_err (bool_decide (VolumeName entry = "")) (ErrNew "volumeName is required");
  _ ← guard_err (negb (findContainer spec (e_name entry)).2) (ErrNew "container not found in pod spec");
  let '(_, claimName, found) := findPVCVolume spec (VolumeName entry) in
  _ ← guard_err (negb found) (ErrNew "volume must be a persistentVolumeClaim volume");
  _ ← guard_err (bool_decide (claimName = "")) (ErrNew "pvc claim name is empty");
  _ ← wrap_err "path invalid" (validateRelativePath (e_path entry));
  _ ← guard_err (negb (bool_decide (SpecialPath entry = [])) && negb (PersistentSpecialMounts entry))
                (ErrNew "specialPath requires persistentSpecialMounts");
  check_special builtinSpecialPaths (SpecialPath entry).

Fixpoint validateEntries (spec : PodSpec) (seen : list string) (l : list RootfsRwLayerEntry) : result unit :=
  match l with
  | [] => Ok tt
  | entry :: l' =>
      _ ← guard_err (bool_decide (e_name entry = "")) (ErrNew "rootfs rw-layer entry name is required");
      _ ← guard_err (bool_decide (e_name entry ∈ seen)) (ErrNew "container configured more than once");
      _ ← validateEntry spec entry;
      validateEntries spec (e_name entry :: seen) l'
  end.

Definition ErrEmptyAnnotation : error := ErrNew "annotation must not be empty".

Definition parseRootfsAnnotation (annotations : gomap) (spec : PodSpec)
    : result (list RootfsRwLayerEntry * bool) :=
  match map_get annotations AnnotationRootfsRwLayer with
  | None => Ok ([], false)
  | Some raw =>
      _ ← guard_err (bool_decide (trim_space raw = "")) ErrEmptyAnnotation;
      '(entries, rest) ← wrap_err "invalid annotation" (decode_entries raw);
      _ ← guard_err (negb (at_eof rest)) (ErrNew "invalid annotation: trailing JSON data");
      _ ← guard_err (bool_decide (entries = [])) ErrEmptyAnnotation;
      _ ← validateEntries spec [] entries;
      Ok (entries, true)
  end.

(** ** The sidecar (sidecar.go) *)

Fixpoint sidecarMounts (seen : list string) (entries : list RootfsRwLayerEntry) : list VolumeMount :=
  match entries with
  | [] => []
  | entry :: l =>
      if bool_decide (VolumeName entry ∈ seen) then sidecarMounts seen l
      else mkVolumeMount (VolumeName entry) (Join [SidecarMountPath; VolumeName entry]) ""
           :: sidecarMounts (VolumeName entry :: seen) l
  end.

Definition requiredSidecarMounts (entries : list RootfsRwLayerEntry) : list VolumeMount :=
  sidecarMounts [] entries.

Definition canonicalSidecar (entries : list RootfsRwLayerEntry) (image : string) : Container :=
  mkContainer SidecarContainerName image (requiredSidecarMounts entries) "".

Definition ensureSidecar (spec : PodSpec) (entries : list RootfsRwLayerEntry) (image : string) : PodSpec :=
  mkPodSpec (RuntimeClassName spec)
    (filter (fun c => c_name c <> SidecarContainerName) (Containers spec)
       ++ [canonicalSidecar entries image])
    (Volumes spec) (spec_rest spec).

(** ** Mutation *)

Definition ErrNeedsRuntimeClass : error := ErrNew "annotation requires runtimeClassName".

Definition with_annotations (pod : Pod) (a : gomap) : Pod :=
  mkPod a (Labels pod) (Spec pod) (pod_rest pod).
Definition with_spec (pod : Pod) (s : PodSpec) : Pod :=
  mkPod (Annotations pod) (Labels pod) s (pod_rest pod).

(** [mutatePod] updates the pod in place: it returns the updated pod with the
    entries and whether the pod is managed.  [ctx_err] is [ctx.Err()]. *)
Definition mutatePod (m : Mutator) (ctx_err : option error) (pod : Pod)
    : Pod * result (list RootfsRwLayerEntry * bool) :=
  let spec := Spec pod in
  if bool_decide (is_Some (map_get (Annotations pod) AnnotationRootfsRwLayer)) && negb (managed spec)
  then (pod, Err ErrNeedsRuntimeClass)
  else if negb (managed spec) then (pod, Ok ([], false)) else
  let pod := with_annotations pod (map_del (Annotations pod) AnnotationVolumeInit) in
  match parseRootfsAnnotation (Annotations pod) spec with
  | Err e => (pod, Err e)
  | Ok (entries, enabled) =>
      match ctx_err with
      | Some e => (pod, Err e)
      | None =>
          ((if enabled then with_spec pod (ensureSidecar spec entries (sandboxImage m)) else pod),
           Ok (entries, true))
      end
  end.

(** [Mutate] works on a deep copy and returns it with the error, if any. *)
Definition Mutate (m : Mutator) (ctx_err : option error) (pod : Pod) : Pod * option error :=
  match mutatePod m ctx_err pod with
  | (mutated, Ok _) => (mutated, None)
  | (mutated, Err e) => (mutated, Some e)
  end.

(** ** The JSON patch (patch.go) *)

Inductive patch_value :=
  | PVRuntimeClass (v : option string)
  | PVContainers (v : list Container)
  | PVAnnotations (v : gomap)
  | PVLabels (v : gomap).

Record jsonPatch := mkPatch { p_op : string; p_path : string; p_value : patch_value }.

Definition add_or_replace {A} (original : option A) : string :=
  match original with Some _ => "replace" | None => "add" end.

Definition patchForPod (original mutated : Pod) : list jsonPatch :=
  (if bool_decide (RuntimeClassName (Spec original) = RuntimeClassName (Spec mutated)) then [] else
     [mkPatch (add_or_replace (RuntimeClassName (Spec original))) "/spec/runtimeClassName"
        (PVRuntimeClass (RuntimeClassName (Spec mutated)))])
  ++ (if bool_decide (Containers (Spec original) = Containers (Spec mutated)) then [] else
     [mkPatch "replace" "/spec/containers" (PVContainers (Containers (Spec mutated)))])
  ++ (if bool_decide (Annotations original = Annotations mutated) then [] else
     [mkPatch (add_or_replace (Annotations original)) "/metadata/annotations"
        (PVAnnotations (Annotations mutated))])
  ++ (if bool_decide (Labels original = Labels mutated) then [] else
     [mkPatch (add_or_replace (Labels original)) "/metadata/labels" (PVLabels (Labels mutated))]).

(** ** The HTTP server (server.go)

    The decoders of the Kubernetes API types and the encoder of the patch are
    parameters. *)

Definition admissionReviewBodyLimit : Z := Z.shiftl 1 20.

Record AdmissionRequest := mkAdmissionRequest { UID : string; Resource : string; ObjectRaw : string }.
Record TypeMeta := mkTypeMeta { APIVersion : string; Kind : string }.
Record AdmissionReview := mkAdmissionReview { review_type : TypeMeta; Request : option AdmissionRequest }.
Record AdmissionResponse := mkAdmissionResponse {
  resp_uid : string; Allowed : bool; PatchType : option string; Patch : option string;
  Result : option error }.

(** The request body is its content, and the error that ends it early, if any. *)
Record http_request := mkHttpRequest {
  URLPath : string; Body : string; body_err : option error; ctx_Err : option error }.

Inductive http_response :=
  | StatusOK
  | NotFound
  | ReviewJSON (t : TypeMeta) (r : AdmissionResponse).

Definition ErrBodyTooLarge : error := ErrNew "request body too large".
Definition ErrMissingRequest : error := ErrNew "missing admission request".
Definition ErrUnsupportedResource : error := ErrNew "unsupported resource".

(** [io.ReadAll(http.MaxBytesReader(w, r.Body, admissionReviewBodyLimit))] *)
Definition read_body (r : http_request) : result string :=
  if (admissionReviewBodyLimit <? Z.of_nat (String.length (Body r)))%Z then Err ErrBodyTooLarge
  else match body_err r with Some e => Err e | None => Ok (Body r) end.

Definition admissionError (uid : string) (e : error) : AdmissionResponse :=
  mkAdmissionResponse uid false None None (Some e).

Definition writeAdmissionResponse (t : TypeMeta) (r : AdmissionResponse) : http_response := ReviewJSON t r.

Definition writeAdmissionError (uid : string) (e : error) : http_response :=
  writeAdmissionResponse (mkTypeMeta "admission.k8s.io/v1" "AdmissionReview") (admissionError uid e).

Section Server.
Context (unmarshal_review : string -> result AdmissionReview)
        (unmarshal_pod : string -> result Pod)
        (marshal_patches : list jsonPatch -> result string).
Context (mutator : Mutator).

Definition server_patch (r : http_request) (request : AdmissionRequest) : result string :=
  if bool_decide (Resource request = "pods") then
    pod ← unmarshal_pod (ObjectRaw request);
    match Mutate mutator (ctx_Err r) pod with
    | (_, Some e) => Err e
    | (mutated, None) => marshal_patches (patchForPod pod mutated)
    end
  else Err ErrUnsupportedResource.

Definition server_mutate (r : http_request) (review : AdmissionReview) : AdmissionResponse :=
  match Request review with
  | None => admissionError "" ErrMissingRequest
  | Some request =>
      match server_patch r request with
      | Err e => admissionError (UID request) e
      | Ok patch => mkAdmissionResponse (UID request) true (Some "JSONPatch") (Some patch) None
      end
  end.

Definition ServeHTTP (r : http_request) : http_response :=
  if bool_decide (URLPath r = "/healthz") then StatusOK
  else if negb (bool_decide (URLPath r = "/mutate")) then NotFound
  else match read_body r with
  | Err e => writeAdmissionError "" e
  | Ok body =>
      match unmarshal_review body with
      | Err e => writeAdmissionError "" e
      | Ok review => writeAdmissionResponse (review_type review) (server_mutate r review)
      end
  end.
End Server.

(** ** The webhook registration (webhook.go) *)

(** [SysboxPodMatchConditionExpression], evaluated on the pod as the API server
    does: absent annotations or an absent runtime class make [has] false. *)
Definition SysboxPodMatchCondition (pod : Pod) : bool :=
  match Annotations pod with
  | Some a => bool_decide (is_Some (a !! "sysbox/rootfs-rw-layer"))
  | None => false
  end ||
  match RuntimeClassName (Spec pod) with
  | Some n => bool_decide (n = "sysbox-runc") || bool_decide (n = "sysbox-runc-lite")
  | None => false
  end.

Record WebhookConfig := mkWebhookConfig {
  wc_Name : string; ServiceName : string; wc_Namespace : string; ServicePort : Z; CABundle : string }.

Record MutatingWebhook := mkMutatingWebhook {
  wh_name : string; AdmissionReviewVersions : list string;
  svc_namespace : string; svc_name : string; svc_path : string; svc_port : Z; wh_ca : string;
  Operations : list string; APIGroups : list string; APIVersions : list string; Resources : list string;
  FailurePolicy : string; ReinvocationPolicy : string; SideEffects : string; TimeoutSeconds : Z;
  MatchCondition : Pod -> bool }.

Record MutatingWebhookConfiguration := mkWebhookConfiguration {
  mwc_name : string; Webhooks : list MutatingWebhook }.

Definition BuildMutatingWebhookConfiguration (config : WebhookConfig)
    : result MutatingWebhookConfiguration :=
  _ ← guard_err (bool_decide (wc_Name config = "")) (ErrNew "webhook name is required");
  _ ← guard_err (bool_decide (ServiceName config = "")) (ErrNew "service name is required");
  _ ← guard_err (bool_decide (wc_Namespace config = "")) (ErrNew "namespace is required");
  Ok (mkWebhookConfiguration (wc_Name config)
    [{| wh_name := "pod.sysbox.nestybox.com"; AdmissionReviewVersions := ["v1"];
        svc_namespace := wc_Namespace config; svc_name := ServiceName config;
        svc_path := "/mutate"; svc_port := ServicePort config; wh_ca := CABundle config;
        Operations := ["CREATE"]; APIGroups := [""]; APIVersions := ["v1"]; Resources := ["pods"];
        FailurePolicy := "Fail"; ReinvocationPolicy := "IfNeeded"; SideEffects := "None";
        TimeoutSeconds := 10%Z; MatchCondition := SysboxPodMatchCondition |}]).
