(* ===== verification/AdmissionThms.v ===== *)
(** * Correctness of the admission webhook

    What an accepted annotation guarantees, that the mutation is idempotent and
    touches only what it says, that the patch sent to the API server rebuilds
    the mutated pod, and that the server fails closed. *)

From S2P Require Import Prelude GoStrings GoPath GoJson Admission.

Open Scope string_scope.
Open Scope list_scope.

(** ** Overlap of cleaned paths is nesting of their elements *)

Definition nested (a b : list string) : Prop := a `prefix_of` b \/ b `prefix_of` a.

#[global] Instance nested_sym : Symmetric nested.
Proof. intros a b [|]; [right|left]; done. Qed.

Lemma pathsOverlap_spec (a b : list string) :
  norm true a -> norm true b -> a <> [] -> b <> [] ->
  pathsOverlap (render true a) (render true b) = true <-> nested a b.
Proof.
  intros Ha Hb Hna Hnb. unfold pathsOverlap. rewrite !orb_true_iff, bool_decide_eq_true.
  rewrite !comps_prefix_slash by done. unfold nested. split.
  - intros [[E|(c & _ & ->)]|(c & _ & ->)]; [|right; by exists c|left; by exists c].
    apply (f_equal (comps true)) in E. rewrite !comps_render in E by done. subst. by left.
  - intros [[c ->]|[c ->]]; destruct c as [|x c].
    1, 3: left; left; by rewrite app_nil_r.
    + right. by exists (x :: c).
    + left; right. by exists (x :: c).
Qed.

(** ** What validation guarantees *)

(** A cleaned absolute path that is not the root. *)
Definition clean_abs (p : string) : Prop :=
  exists cs, norm true cs /\ cs <> [] /\ p = render true cs.

Lemma validateSpecialPath_ok (p c : string) :
  validateSpecialPath p = Ok c -> IsAbs p = true /\ c = Clean p /\ clean_abs c.
Proof.
  unfold validateSpecialPath. destruct (IsAbs p) eqn:Ha; cbn [negb]; [|done].
  case_bool_decide as Hr; [done|]. injection 1 as <-. split_and!; [done..|].
  exists (comps true p). rewrite Clean_abs in * by done. split_and!; [apply comps_norm| |done].
  intros E. rewrite E in Hr. by apply Hr.
Qed.

(** No path of the list is another one or nested in it. *)
Definition apart (l : list string) : Prop :=
  forall i j p q, i <> j -> l !! i = Some p -> l !! j = Some q -> ~ nested (comps true p) (comps true q).

Lemma apart_snoc (l : list string) (x : string) :
  apart l -> Forall (fun p => ~ nested (comps true x) (comps true p)) l -> apart (l ++ [x]).
Proof.
  intros Hl Hx i j p q Hij Hi Hj. rewrite Forall_lookup in Hx.
  assert (forall k r, (l ++ [x]) !! k = Some r -> l !! k = Some r \/ k = length l /\ r = x) as Hk.
  { intros k r [?|[? Hr]]%lookup_app_Some; [by left|]. right.
    apply list_lookup_singleton_Some in Hr as [??]. split; [lia|done]. }
  apply Hk in Hi as [Hi|[-> ->]], Hj as [Hj|[-> ->]]; [by eapply Hl| | |done].
  - intros ?%symmetry. by eapply Hx.
  - by eapply Hx.
Qed.

Lemma overlap_free (c : string) (l : list string) :
  clean_abs c -> Forall clean_abs l -> existsb (pathsOverlap c) l = false ->
  Forall (fun p => ~ nested (comps true c) (comps true p)) l.
Proof.
  intros (cs & Hn & Hne & ->) Hl He. induction Hl as [|p l (ps & Hpn & Hpe & ->) Hl IH]; [done|].
  cbn [existsb] in He. apply orb_false_iff in He as [Hp He]. constructor; [|by apply IH].
  rewrite !comps_render by done. intros ?%pathsOverlap_spec; [congruence|done..].
Qed.

Lemma check_special_ok (l acc : list string) :
  Forall clean_abs acc -> apart acc -> check_special acc l = Ok tt ->
  Forall (fun p => IsAbs p = true) l /\ apart (acc ++ map Clean l).
Proof.
  revert acc. induction l as [|p l IH]; intros acc Ha Hp H.
  { split; [done|]. cbn. by rewrite app_nil_r. }
  cbn [check_special] in H. apply bind_ok in H as (c & Hc & H).
  apply wrap_err_ok, validateSpecialPath_ok in Hc as (Habs & -> & Hca).
  destruct (existsb _ _) eqn:E; [done|]. apply IH in H as [Hl H].
  - split; [by constructor|]. cbn. by rewrite <- app_assoc in H.
  - by apply Forall_snoc_2.
  - apply apart_snoc; [done|]. by apply overlap_free.
Qed.

Lemma builtins_clean : Forall clean_abs builtinSpecialPaths.
Proof.
  assert (forall p, IsAbs p = true -> Clean p = p -> p <> slash -> clean_abs p) as H.
  { intros p Ha Hc Hr. exists (comps true p). rewrite <- Clean_abs by done.
    split_and!; [apply comps_norm| |done]. intros E. apply Hr. rewrite <- Hc, Clean_abs, E by done. done. }
  repeat (constructor; [by apply H; vm_compute|]). constructor.
Qed.

Lemma builtins_apart : apart builtinSpecialPaths.
Proof.
  assert (apart ([] ++ map Clean builtinSpecialPaths)) as H.
  { apply (check_special_ok builtinSpecialPaths []); [done| |by vm_compute]. intros ??????. done. }
  by replace (map Clean builtinSpecialPaths) with builtinSpecialPaths in H by by vm_compute.
Qed.

(** A relative path that was accepted stays below any absolute root it is joined to. *)
Lemma validateRelativePath_below (root p : string) :
  IsAbs root = true -> validateRelativePath p = Ok tt -> below root (Join [root; p]).
Proof.
  intros Hr H. unfold validateRelativePath in H. case_bool_decide as Hp.
  { subst p. exists []. split; [done|]. rewrite app_nil_r, Join_two by done. f_equal. apply rev_involutive. }
  destruct (IsAbs p) eqn:Ha; [done|]. apply not_climbs_below; [done..|]. unfold climbs.
  case_bool_decide as Hd; [by rewrite Hd|]. by destruct (_ || _).
Qed.

Lemma validateRelativePath_elems (p : string) :
  validateRelativePath p = Ok tt -> IsAbs p = false /\ ".." ∉ comps false p.
Proof.
  intros H. unfold validateRelativePath in H. case_bool_decide as Hp.
  { subst p. split; [done|]. vm_compute. intros Hin. by apply elem_of_nil in Hin. }
  destruct (IsAbs p) eqn:Ha; [done|]. split; [done|]. apply not_climbs; [done..|]. unfold climbs.
  case_bool_decide as Hd; [by rewrite Hd|]. by destruct (_ || _).
Qed.

Lemma findContainer_spec (spec : PodSpec) (name : string) :
  (findContainer spec name).2 = true <-> exists c, c ∈ Containers spec /\ c_name c = name.
Proof.
  unfold findContainer. generalize 0. induction (Containers spec) as [|c l IH]; intros i; cbn.
  { split; [done|]. intros (c & H & _). by apply elem_of_nil in H. }
  case_bool_decide as Hc.
  - split; [|done]. intros _. exists c. split; [by left|done].
  - rewrite IH. split; intros (d & Hd & E); exists d; (split; [|done]); [by right|].
    apply elem_of_cons in Hd as [->|Hd]; done.
Qed.

Lemma findPVCVolume_spec (spec : PodSpec) (name : string) (i : nat) (claim : string) :
  findPVCVolume spec name = (i, claim, true) ->
  exists v, v ∈ Volumes spec /\ v_name v = name /\ pvc v = Some claim.
Proof.
  unfold findPVCVolume. generalize 0. induction (Volumes spec) as [|v l IH]; intros k; cbn; [done|].
  assert (findPVCVolume_from (S k) l name = (i, claim, true) ->
    exists w, w ∈ v :: l /\ v_name w = name /\ pvc w = Some claim) as Hl.
  { intros (w & Hw & ?)%IH. exists w. split; [by right|done]. }
  destruct (pvc v) as [cl|] eqn:E; [|done]. case_bool_decide; [|done].
  injection 1 as -> ->. exists v. split; [by left|done].
Qed.

(** What an accepted entry guarantees about the pod and its paths. *)
Record entry_safe (spec : PodSpec) (e : RootfsRwLayerEntry) : Prop := {
  es_container : exists c, c ∈ Containers spec /\ c_name c = e_name e;
  es_volume : exists v claim, v ∈ Volumes spec /\ v_name v = VolumeName e /\
      pvc v = Some claim /\ claim <> "";
  es_path : forall root, IsAbs root = true -> below root (Join [root; e_path e]);
  es_path_elems : IsAbs (e_path e) = false /\ ".." ∉ comps false (e_path e);
  es_special_abs : Forall (fun p => IsAbs p = true) (SpecialPath e);
  es_special_apart : apart (builtinSpecialPaths ++ map Clean (SpecialPath e));
  es_special_opt_in : SpecialPath e <> [] -> PersistentSpecialMounts e = true }.

Lemma validateEntry_safe (spec : PodSpec) (e : RootfsRwLayerEntry) :
  validateEntry spec e = Ok tt -> entry_safe spec e.
Proof.
  unfold validateEntry. intros (? & Hv%guard_err_ok & H)%bind_ok.
  apply bind_ok in H as (? & Hc%guard_err_ok & H). apply negb_false_iff in Hc.
  destruct (findPVCVolume spec (VolumeName e)) as [[i claim] found] eqn:Ef.
  apply bind_ok in H as (? & Hf%guard_err_ok & H). apply negb_false_iff in Hf. subst found.
  apply bind_ok in H as (? & Hcl%guard_err_ok%bool_decide_eq_false_1 & H).
  apply bind_ok in H as ([] & Hp%wrap_err_ok & H).
  apply bind_ok in H as (? & Hs%guard_err_ok & H).
  apply check_special_ok in H as [Ha Hap]; [|apply builtins_clean|apply builtins_apart].
  split; [by apply findContainer_spec| | |by apply validateRelativePath_elems|done|done|].
  - apply findPVCVolume_spec in Ef as (v & ? & ? & ?). by exists v, claim.
  - intros root Hr. by apply validateRelativePath_below.
  - intros Hne. by destruct (PersistentSpecialMounts e); [|rewrite bool_decide_eq_false_2 in Hs].
Qed.

Lemma validateEntries_safe (spec : PodSpec) (l : list RootfsRwLayerEntry) (seen : list string) :
  validateEntries spec seen l = Ok tt ->
  Forall (entry_safe spec) l /\ NoDup (map e_name l) /\ (forall n, n ∈ map e_name l -> n ∉ seen).
Proof.
  revert seen. induction l as [|e l IH]; intros seen H.
  { split_and!; [done|constructor|]. intros n Hn. by apply elem_of_nil in Hn. }
  cbn [validateEntries] in H. apply bind_ok in H as (? & _ & H).
  apply bind_ok in H as (? & Hs%guard_err_ok%bool_decide_eq_false_1 & H).
  apply bind_ok in H as ([] & He & H). apply IH in H as (Hl & Hd & Hn).
  split_and!; [constructor; [by apply validateEntry_safe|done]| |].
  - cbn. constructor; [|done]. intros Hin%Hn. apply Hin. by left.
  - intros n. cbn. rewrite elem_of_cons. intros [->|Hin%Hn]; [done|]. intros ?. apply Hin. by right.
Qed.

Lemma parseRootfsAnnotation_entries (a : gomap) (spec : PodSpec) (l : list RootfsRwLayerEntry) :
  parseRootfsAnnotation a spec = Ok (l, true) -> l <> [] /\ validateEntries spec [] l = Ok tt.
Proof.
  unfold parseRootfsAnnotation. destruct (map_get _ _) as [raw|]; [|done].
  intros (? & _ & H)%bind_ok. apply bind_ok in H as ([es rest] & _ & H).
  apply bind_ok in H as (? & _ & H). apply bind_ok in H as (? & He%guard_err_ok%bool_decide_eq_false_1 & H).
  apply bind_ok in H as ([] & Hv & H). by injection H as <-.
Qed.

(** C5. An accepted rootfs annotation is safe: the entries name distinct
    existing containers, each volume is a PVC volume of the pod with a claim, the
    sub-path joined to any absolute volume root stays at or below that root, and
    the special paths are absolute, opted into, and pairwise neither equal to
    nor nested in one another or a built-in special path. *)
Theorem annotation_entries_safe (a : gomap) (spec : PodSpec) (l : list RootfsRwLayerEntry) :
  parseRootfsAnnotation a spec = Ok (l, true) ->
  l <> [] /\ NoDup (map e_name l) /\ Forall (entry_safe spec) l.
Proof.
  intros [Hne H]%parseRootfsAnnotation_entries. by apply validateEntries_safe in H as (? & ? & _).
Qed.

Definition json_string (s : string) : string := String (chr 34) (s +:+ String (chr 34) "").

Definition wit_annotation : string :=
  "[{" +:+ json_string "name" +:+ ": " +:+ json_string "app" +:+ ", "
  +:+ json_string "volumeName" +:+ ":" +:+ json_string "data" +:+ ","
  +:+ json_string "path" +:+ ":" +:+ json_string "a/./b" +:+ ","
  +:+ json_string "persistentSpecialMounts" +:+ ":true,"
  +:+ json_string "specialPath" +:+ ":[" +:+ json_string "/srv//x/" +:+ "," +:+ json_string "/srv/y" +:+ "]"
  +:+ "}] ".

Definition wit_spec : PodSpec :=
  mkPodSpec (Some "sysbox-runc") [mkContainer "app" "img" [] "c"; mkContainer "sysbox-rootfs" "old" [] ""]
    [mkVolume "tmp" None ""; mkVolume "data" (Some "claim") ""] "spec".
Definition wit_annotations : gomap :=
  Some {[ AnnotationRootfsRwLayer := wit_annotation; AnnotationVolumeInit := "1"; "other" := "x" ]}.
Definition wit_pod : Pod := mkPod wit_annotations None wit_spec "rest".
Definition wit_entry : RootfsRwLayerEntry := mkEntry "app" "data" "a/./b" true ["/srv//x/"; "/srv/y"].

Lemma annotation_entries_safe_witness :
  entry_safe wit_spec wit_entry /\ parseRootfsAnnotation wit_annotations wit_spec = Ok ([wit_entry], true).
Proof.
  assert (parseRootfsAnnotation wit_annotations wit_spec = Ok ([wit_entry], true)) as H
    by (vm_compute; reflexivity).
  split; [|exact H]. destruct (annotation_entries_safe _ _ _ H) as (_ & _ & Hf).
  inversion Hf; assumption.
Defined.

(** ** The mutation *)

Lemma map_get_del (m : gomap) (k k' : string) :
  map_get (map_del m k) k' = if bool_decide (k = k') then None else map_get m k'.
Proof.
  unfold map_get, map_del. destruct m as [m|]; cbn.
  - case_bool_decide; [subst; apply lookup_delete_eq|by apply lookup_delete_ne].
  - rewrite lookup_empty. by case_bool_decide.
Qed.

Lemma map_del_idemp (m : gomap) (k : string) : map_del (map_del m k) k = map_del m k.
Proof. destruct m as [m|]; cbn; [|done]. unfold map_del. cbn. by rewrite delete_delete_eq. Qed.

Lemma map_get_rootfs_del (m : gomap) :
  map_get (map_del m AnnotationVolumeInit) AnnotationRootfsRwLayer = map_get m AnnotationRootfsRwLayer.
Proof. rewrite map_get_del. by rewrite bool_decide_eq_false_2. Qed.

(** Validation looks at container names and volumes only. *)
Lemma validateEntries_mono (s s' : PodSpec) (l : list RootfsRwLayerEntry) (seen : list string) :
  (forall n, (findContainer s n).2 = true -> (findContainer s' n).2 = true) ->
  Volumes s = Volumes s' ->
  validateEntries s seen l = Ok tt -> validateEntries s' seen l = Ok tt.
Proof.
  intros Hc Hv. revert seen. induction l as [|e l IH]; intros seen H; [done|].
  cbn [validateEntries] in *. apply bind_ok in H as (u1 & -> & H).
  apply bind_ok in H as (u2 & -> & H). apply bind_ok in H as ([] & He & H). apply IH in H.
  cbn [mbind result_bind]. enough (validateEntry s' e = Ok tt) as -> by done.
  unfold validateEntry in *. apply bind_ok in He as (u3 & -> & He).
  apply bind_ok in He as (? & Hg%guard_err_ok%negb_false_iff & He). apply Hc in Hg.
  cbn [mbind result_bind]. rewrite Hg. unfold findPVCVolume in *. by rewrite <- Hv.
Qed.

Lemma ensureSidecar_found (s : PodSpec) (l : list RootfsRwLayerEntry) (img n : string) :
  (findContainer s n).2 = true -> (findContainer (ensureSidecar s l img) n).2 = true.
Proof.
  rewrite !findContainer_spec. intros (c & Hc & <-). cbn.
  destruct (decide (c_name c = SidecarContainerName)) as [E|E].
  - exists (canonicalSidecar l img). rewrite E. set_solver.
  - exists c. split; [|done]. apply elem_of_app. left. by apply list_elem_of_filter.
Qed.

Lemma ensureSidecar_idemp (s : PodSpec) (l : list RootfsRwLayerEntry) (img : string) :
  ensureSidecar (ensureSidecar s l img) l img = ensureSidecar s l img.
Proof.
  unfold ensureSidecar. cbn. f_equal. rewrite filter_app. f_equal.
  rewrite filter_idemp. cbn. rewrite decide_False by (by intros []). by rewrite app_nil_r.
Qed.

Lemma parse_same (a a' : gomap) (s s' : PodSpec) (l : list RootfsRwLayerEntry) (b : bool) :
  map_get a AnnotationRootfsRwLayer = map_get a' AnnotationRootfsRwLayer ->
  (forall n, (findContainer s n).2 = true -> (findContainer s' n).2 = true) ->
  Volumes s = Volumes s' ->
  parseRootfsAnnotation a s = Ok (l, b) -> parseRootfsAnnotation a' s' = Ok (l, b).
Proof.
  intros Ha Hc Hv. unfold parseRootfsAnnotation. rewrite <- Ha. destruct (map_get a _); [|done].
  intros (u & -> & H)%bind_ok. apply bind_ok in H as ([es rest] & -> & H).
  apply bind_ok in H as (u2 & E2 & H). apply bind_ok in H as (u3 & E3 & H).
  apply bind_ok in H as ([] & Hval & H). cbn [mbind result_bind]. rewrite E2, E3.
  cbn [mbind result_bind]. by rewrite (validateEntries_mono s s').
Qed.

(** The shape of a successful mutation of a managed pod. *)
Lemma Mutate_cases (m : Mutator) (ctx : option error) (pod pod' : Pod) :
  Mutate m ctx pod = (pod', None) ->
  (managed (Spec pod) = false /\ map_get (Annotations pod) AnnotationRootfsRwLayer = None /\ pod' = pod) \/
  exists entries enabled,
    managed (Spec pod) = true /\ ctx = None /\
    parseRootfsAnnotation (Annotations pod) (Spec pod) = Ok (entries, enabled) /\
    pod' = mkPod (map_del (Annotations pod) AnnotationVolumeInit) (Labels pod)
             (if enabled then ensureSidecar (Spec pod) entries (sandboxImage m) else Spec pod)
             (pod_rest pod).
Proof.
  unfold Mutate, mutatePod. destruct (managed (Spec pod)) eqn:Em; cbn [negb].
  - rewrite andb_false_r. cbn [Annotations with_annotations].
    destruct (parseRootfsAnnotation (map_del _ _) _) as [[l b]|e] eqn:Ep; [|done].
    destruct ctx; [done|]. intros H. right. exists l, b. split_and!; [done|done| |].
    + eapply (parse_same _ _ (Spec pod)); [apply map_get_rootfs_del|done|done|exact Ep].
    + by destruct b; injection H as <-.
  - rewrite andb_true_r. case_bool_decide as Hs; [done|]. injection 1 as <-. left.
    split_and!; [done| |done]. by apply eq_None_not_Some.
Qed.

(** Mutation is idempotent: the webhook is registered with reinvocation
    [IfNeeded], and mutating an already mutated pod changes nothing. *)
Theorem Mutate_idempotent (m : Mutator) (pod pod' : Pod) :
  Mutate m None pod = (pod', None) -> Mutate m None pod' = (pod', None).
Proof.
  intros H. destruct (Mutate_cases _ _ _ _ H) as [(_ & _ & ->)|(l & b & Hm & _ & Hp & ->)]; [done|].
  set (spec' := if b then _ else _). assert (managed spec' = true) as Hm' by (by destruct b).
  assert (parseRootfsAnnotation (map_del (Annotations pod) AnnotationVolumeInit) spec' = Ok (l, b)) as Hp'.
  { eapply parse_same; [..|exact Hp]; [by rewrite map_get_rootfs_del| |by destruct b].
    destruct b; [|done]. intros n. apply ensureSidecar_found. }
  unfold Mutate, mutatePod. cbn [Spec Annotations]. rewrite Hm'. cbn [negb]. rewrite andb_false_r.
  unfold with_annotations. cbn [Annotations Spec Labels pod_rest].
  rewrite map_del_idemp, Hp'. destruct b; [|done]. subst spec'. unfold with_spec.
  cbn [Annotations Labels pod_rest]. by rewrite ensureSidecar_idemp.
Qed.

Definition wit_mutator : Mutator := mkMutator "sandbox:1".

Lemma Mutate_idempotent_witness :
  exists pod', Mutate wit_mutator None wit_pod = (pod', None) /\ pod' <> wit_pod /\
    Mutate wit_mutator None pod' = (pod', None).
Proof.
  assert ((Mutate wit_mutator None wit_pod).2 = None) as He by (vm_compute; reflexivity).
  exists (Mutate wit_mutator None wit_pod).1. split; [rewrite <- He; by destruct (Mutate _ _ _)|].
  split; [by vm_compute|]. apply (Mutate_idempotent _ wit_pod). rewrite <- He.
  by destruct (Mutate _ _ _).
Defined.

(** ** The patch

    RFC 6902 on the members a patch of the webhook can name: [replace] needs the
    member to be present, [add] does not.  A nil map or pointer is an absent
    member; an empty container list is taken to be absent too, the less
    favourable reading. *)

Definition op_allowed (op : string) (present : bool) : bool :=
  bool_decide (op = "add") || bool_decide (op = "replace") && present.

Definition with_containers (pod : Pod) (l : list Container) : Pod :=
  with_spec pod (mkPodSpec (RuntimeClassName (Spec pod)) l (Volumes (Spec pod)) (spec_rest (Spec pod))).

Definition apply_patch (pod : Pod) (p : jsonPatch) : option Pod :=
  let run (path : string) (present : bool) (pod' : Pod) :=
    if bool_decide (p_path p = path) && op_allowed (p_op p) present then Some pod' else None in
  match p_value p with
  | PVRuntimeClass v =>
      run "/spec/runtimeClassName" (bool_decide (is_Some (RuntimeClassName (Spec pod))))
        (with_spec pod (mkPodSpec v (Containers (Spec pod)) (Volumes (Spec pod)) (spec_rest (Spec pod))))
  | PVContainers v => run "/spec/containers" (negb (bool_decide (Containers (Spec pod) = []))) (with_containers pod v)
  | PVAnnotations v => run "/metadata/annotations" (bool_decide (is_Some (Annotations pod))) (with_annotations pod v)
  | PVLabels v =>
      run "/metadata/labels" (bool_decide (is_Some (Labels pod)))
        (mkPod (Annotations pod) v (Spec pod) (pod_rest pod))
  end.

Fixpoint apply_patches (pod : Pod) (l : list jsonPatch) : option Pod :=
  match l with
  | [] => Some pod
  | p :: l' => pod' ← apply_patch pod p; apply_patches pod' l'
  end.

(** The parts of a pod no patch names. *)
Definition same_rest (p q : Pod) : Prop :=
  pod_rest p = pod_rest q /\ Volumes (Spec p) = Volumes (Spec q) /\ spec_rest (Spec p) = spec_rest (Spec q).

Lemma apply_patches_app (pod : Pod) (l k : list jsonPatch) :
  apply_patches pod (l ++ k) = (pod' ← apply_patches pod l; apply_patches pod' k).
Proof.
  revert pod. induction l as [|p l IH]; intros pod; [done|]. cbn [app apply_patches].
  destruct (apply_patch pod p); cbn; [apply IH|done].
Qed.

Lemma apply_one (pod pod' : Pod) (P : Prop) `{Decision P} (p : jsonPatch) :
  (P -> pod = pod') -> (~ P -> apply_patch pod p = Some pod') ->
  apply_patches pod (if bool_decide P then [] else [p]) = Some pod'.
Proof. intros H1 H2. case_bool_decide; cbn; [f_equal; auto|]. by rewrite H2. Qed.

Lemma op_add_or_replace {A} (x : option A) : op_allowed (add_or_replace x) (bool_decide (is_Some x)) = true.
Proof. by destruct x. Qed.

Lemma patchForPod_apply (o m : Pod) :
  same_rest o m -> (Containers (Spec o) = [] -> Containers (Spec m) = []) ->
  apply_patches o (patchForPod o m) = Some m.
Proof.
  destruct o as [oa ol [orc oc ov os] orest], m as [ma ml [mrc mc mv ms] mrest].
  intros (Hr & Hv & Hs) Hc. cbn in Hr, Hv, Hs, Hc. subst mrest mv ms.
  unfold patchForPod. cbn [Spec RuntimeClassName Containers Annotations Labels].
  rewrite apply_patches_app, (apply_one _ (mkPod oa ol (mkPodSpec mrc oc ov os) orest));
    [cbn [mbind option_bind]|by intros ->|by cbn -[op_allowed add_or_replace]; rewrite op_add_or_replace].
  rewrite apply_patches_app, (apply_one _ (mkPod oa ol (mkPodSpec mrc mc ov os) orest));
    [cbn [mbind option_bind]|by intros ->|].
  2: { intros Hne. cbn. rewrite (bool_decide_eq_false_2 (oc = [])); [done|]. intros ->. by rewrite Hc in Hne. }
  rewrite apply_patches_app, (apply_one _ (mkPod ma ol (mkPodSpec mrc mc ov os) orest));
    [cbn [mbind option_bind]|by intros ->|by cbn -[op_allowed add_or_replace]; rewrite op_add_or_replace].
  apply apply_one; [by intros ->|by cbn -[op_allowed add_or_replace]; rewrite op_add_or_replace].
Qed.

(** C6. The JSON patch the webhook returns turns the submitted pod into the
    mutated one, and every one of its operations is applicable. *)
Theorem patch_rebuilds_mutated (m : Mutator) (ctx : option error) (pod pod' : Pod) :
  Mutate m ctx pod = (pod', None) -> apply_patches pod (patchForPod pod pod') = Some pod'.
Proof.
  intros [(_ & _ & ->)|(l & b & _ & _ & Hp & ->)]%Mutate_cases.
  { by apply patchForPod_apply. }
  apply patchForPod_apply; [by destruct b|]. cbn. destruct b; [|done]. intros Hn.
  apply parseRootfsAnnotation_entries in Hp as [Hne Hp]. apply validateEntries_safe in Hp as (Hs & _).
  destruct l as [|e l]; [done|]. apply Forall_cons in Hs as [[(c & Hc & _)] _].
  rewrite Hn in Hc. by apply elem_of_nil in Hc.
Qed.

Lemma patch_rebuilds_mutated_witness :
  apply_patches wit_pod (patchForPod wit_pod (Mutate wit_mutator None wit_pod).1)
    = Some (Mutate wit_mutator None wit_pod).1 /\
  map p_path (patchForPod wit_pod (Mutate wit_mutator None wit_pod).1)
    = ["/spec/containers"; "/metadata/annotations"].
Proof.
  split; [|vm_compute; reflexivity].
  apply (patch_rebuilds_mutated wit_mutator None). vm_compute. reflexivity.
Defined.

Lemma parse_enabled (a : gomap) (s : PodSpec) (l : list RootfsRwLayerEntry) (b : bool) :
  parseRootfsAnnotation a s = Ok (l, b) -> b = bool_decide (is_Some (map_get a AnnotationRootfsRwLayer)).
Proof.
  unfold parseRootfsAnnotation. destruct (map_get _ _) as [raw|]; [|by injection 1].
  intros (? & _ & H)%bind_ok. apply bind_ok in H as ([es rest] & _ & H).
  do 3 apply bind_ok in H as (? & _ & H). by injection H.
Qed.

Lemma sidecarMounts_names (l : list RootfsRwLayerEntry) (seen : list string) :
  NoDup (map vm_name (sidecarMounts seen l)) /\
  forall v, v ∈ map vm_name (sidecarMounts seen l) <-> v ∈ map VolumeName l /\ v ∉ seen.
Proof.
  revert seen. induction l as [|e l IH]; intros seen; cbn [sidecarMounts map].
  { split; [constructor|]. set_solver. }
  case_bool_decide as Hs.
  - destruct (IH seen) as [Hd Hv]. split; [done|]. intros v. rewrite Hv, elem_of_cons.
    split; [naive_solver|]. intros [[->|]]; naive_solver.
  - destruct (IH (VolumeName e :: seen)) as [Hd Hv]. cbn [map vm_name]. split.
    + constructor; [|done]. rewrite Hv. set_solver.
    + intros v. rewrite !elem_of_cons, Hv, not_elem_of_cons.
      destruct (decide (v = VolumeName e)) as [->|]; naive_solver.
Qed.

(** A successful mutation touches nothing but the containers and the
    annotations: the containers other than the sidecar keep their order and
    content, the annotations lose only "sysbox/volume-init", an unmanaged pod is
    returned as it is; when the pod is configured, its last container is the only
    one with the sidecar's name and mounts each volume of the entries once. *)
Theorem Mutate_frame (m : Mutator) (ctx : option error) (pod pod' : Pod) :
  Mutate m ctx pod = (pod', None) ->
  same_rest pod pod' /\ Labels pod' = Labels pod /\
  RuntimeClassName (Spec pod') = RuntimeClassName (Spec pod) /\
  (forall k, k <> AnnotationVolumeInit -> map_get (Annotations pod') k = map_get (Annotations pod) k) /\
  (managed (Spec pod) = false -> pod' = pod) /\
  (managed (Spec pod) = true -> map_get (Annotations pod') AnnotationVolumeInit = None) /\
  match map_get (Annotations pod) AnnotationRootfsRwLayer with
  | None => Containers (Spec pod') = Containers (Spec pod)
  | Some _ => exists entries, parseRootfsAnnotation (Annotations pod) (Spec pod) = Ok (entries, true) /\
      Containers (Spec pod') =
        filter (fun c => c_name c <> SidecarContainerName) (Containers (Spec pod))
          ++ [mkContainer SidecarContainerName (sandboxImage m) (requiredSidecarMounts entries) ""] /\
      NoDup (map vm_name (requiredSidecarMounts entries)) /\
      forall v, v ∈ map vm_name (requiredSidecarMounts entries) <-> v ∈ map VolumeName entries
  end.
Proof.
  intros [(Hm & Hn & ->)|(l & b & Hm & -> & Hp & ->)]%Mutate_cases.
  { rewrite Hn, Hm. by split_and!. }
  rewrite Hm. split_and!; [by destruct b|done|by destruct b| |done| |].
  - intros k Hk. cbn. by rewrite map_get_del, bool_decide_eq_false_2.
  - intros _. cbn. by rewrite map_get_del, bool_decide_eq_true_2.
  - pose proof (parse_enabled _ _ _ _ Hp) as ->. destruct (map_get _ _) as [raw|] eqn:Er.
    + destruct (sidecarMounts_names l []) as [Hd Hv]. exists l. split_and!; [done..|].
      intros v. unfold requiredSidecarMounts. rewrite Hv. set_solver.
    + done.
Qed.

Lemma Mutate_frame_witness :
  Containers (Spec (Mutate wit_mutator None wit_pod).1) =
    [mkContainer "app" "img" [] "c";
     mkContainer "sysbox-rootfs" "sandbox:1" [mkVolumeMount "data" "/var/lib/sysbox/rootfs-rw-volume/data" ""] ""] /\
  map_get (Annotations (Mutate wit_mutator None wit_pod).1) AnnotationVolumeInit = None.
Proof.
  split; [vm_compute; reflexivity|].
  destruct (Mutate_frame wit_mutator None wit_pod (Mutate wit_mutator None wit_pod).1)
    as (_ & _ & _ & _ & _ & H & _); [vm_compute; reflexivity|].
  apply H. vm_compute. reflexivity.
Defined.

(** ** Registration and server *)

(** The match condition the webhook registers never filters out a pod the
    mutator would change or refuse: on every other pod the mutation is the
    identity and succeeds. *)
Theorem match_condition_sound (m : Mutator) (ctx : option error) (pod : Pod) :
  SysboxPodMatchCondition pod = false -> Mutate m ctx pod = (pod, None).
Proof.
  unfold SysboxPodMatchCondition. intros [Ha Hr]%orb_false_iff.
  assert (managed (Spec pod) = false) as Hm by exact Hr.
  unfold Mutate, mutatePod. rewrite Hm. cbn [negb]. rewrite andb_true_r.
  rewrite bool_decide_eq_false_2; [done|]. unfold map_get.
  destruct (Annotations pod) as [a|]; cbn; [by apply bool_decide_eq_false_1 in Ha|].
  rewrite lookup_empty. by intros [].
Qed.

Lemma match_condition_sound_witness :
  Mutate wit_mutator (Some ErrEmptyAnnotation) (mkPod None None (mkPodSpec (Some "runc") [] [] "") "")
    = (mkPod None None (mkPodSpec (Some "runc") [] [] "") "", None).
Proof. apply match_condition_sound. reflexivity. Defined.

(** C7. The server fails closed: a review it answers is allowed only when the
    body was within the limit and decoded, the resource is a pod, and the
    mutation succeeded, and then the answer carries the request's UID and the
    patch that rebuilds the mutated pod; every other review is refused with a
    message and without a patch. *)
Theorem server_fails_closed (um : string -> result AdmissionReview) (up : string -> result Pod)
    (mp : list jsonPatch -> result string) (m : Mutator) (r : http_request) (t : TypeMeta)
    (resp : AdmissionResponse) :
  ServeHTTP um up mp m r = ReviewJSON t resp ->
  URLPath r = "/mutate" /\
  if Allowed resp then
    exists review request pod pod' patch,
      (Z.of_nat (String.length (Body r)) <= admissionReviewBodyLimit)%Z /\ um (Body r) = Ok review /\
      Request review = Some request /\ Resource request = "pods" /\
      up (ObjectRaw request) = Ok pod /\ Mutate m (ctx_Err r) pod = (pod', None) /\
      mp (patchForPod pod pod') = Ok patch /\
      resp = mkAdmissionResponse (UID request) true (Some "JSONPatch") (Some patch) None
  else Patch resp = None /\ is_Some (Result resp).
Proof.
  unfold ServeHTTP. case_bool_decide as Hh; [done|]. case_bool_decide as Hu; [|done]. cbn [negb].
  intros H. split; [done|]. unfold read_body, writeAdmissionError, writeAdmissionResponse in H.
  destruct (_ <? _)%Z eqn:El; [by injection H as _ <-|].
  destruct (body_err r); [by injection H as _ <-|].
  destruct (um (Body r)) as [review|] eqn:Eu; [|by injection H as _ <-]. injection H as _ <-.
  unfold server_mutate. destruct (Request review) as [request|] eqn:Er; [|done].
  unfold server_patch. case_bool_decide as Hres; [|done].
  destruct (up _) as [pod|] eqn:Ep; [|done]. cbn [mbind result_bind].
  destruct (Mutate _ _ _) as [pod' [e|]] eqn:Em; [done|].
  destruct (mp _) as [patch|] eqn:Empt; [|done]. cbn [Allowed].
  exists review, request, pod, pod', patch. split_and!; try done. lia.
Qed.

Lemma server_fails_closed_witness :
  exists resp,
    ServeHTTP (fun _ => Ok (mkAdmissionReview (mkTypeMeta "v1" "AdmissionReview")
                              (Some (mkAdmissionRequest "uid-1" "pods" "raw"))))
      (fun _ => Ok wit_pod) (fun l => Ok (join "," (map p_path l))) wit_mutator
      (mkHttpRequest "/mutate" "body" None None) = ReviewJSON (mkTypeMeta "v1" "AdmissionReview") resp /\
    URLPath (mkHttpRequest "/mutate" "body" None None) = "/mutate" /\
    Patch resp = Some "/spec/containers,/metadata/annotations".
Proof.
  eexists. split; [vm_compute; reflexivity|]. split; [|vm_compute; reflexivity].
  eapply (server_fails_closed (fun _ => Ok (mkAdmissionReview (mkTypeMeta "v1" "AdmissionReview")
                              (Some (mkAdmissionRequest "uid-1" "pods" "raw"))))
      (fun _ => Ok wit_pod) (fun l => Ok (join "," (map p_path l))) wit_mutator).
  vm_compute. reflexivity.
Defined.
