(* ===== verification/Certificates.v ===== *)
(** * Certificates of the webhook: certs.go, cert_health.go, certificate_resources.go,
    lifecycle.go, rotation.go, tls_reload.go and the serving mode of main.go

    The webhook generates its own certificate authority and serving certificate, keeps
    them in two secrets, publishes the authority in its registration, and renews them.
    Cryptography is the interface [X509]: certificates as the record of the fields the
    sources use, their encodings, their creation and verification.  The cluster, the
    clock and the source of randomness are the interface [Env]: every call takes the
    world to another one, so that what other replicas do between two calls is part of
    the call. *)

From S2P Require Import Prelude GoAct GoStrings Admission.

Open Scope string_scope.
Open Scope list_scope.
#[local] Open Scope Z_scope.

(** ** Times, in nanoseconds *)

Definition Second : Z := 1000000000.
Definition Minute : Z := 60 * Second.
Definition Hour : Z := 60 * Minute.

(** A certificate keeps whole seconds. *)
Definition truncate (t : Z) : Z := t / Second * Second.

(** ** crypto/x509, crypto/rsa, encoding/pem and crypto/tls *)

Definition KeyUsageDigitalSignature : Z := 1.
Definition KeyUsageKeyEncipherment : Z := 4.
Definition KeyUsageCertSign : Z := 32.
Definition KeyUsageCRLSign : Z := 64.
Definition ExtKeyUsageServerAuth : Z := 1.

(** A certificate; as a template it has no public key and no signature.  [Constraints]
    are the name constraints and the unknown critical extensions. *)
Record Certificate (PublicKey : Type) := mkCertificate {
  SerialNumber : Z;
  CommonName : string;
  DNSNames : list string;
  NotBefore : Z;
  NotAfter : Z;
  KeyUsage : Z;
  ExtKeyUsage : list Z;
  BasicConstraintsValid : bool;
  IsCA : bool;
  Constraints : list string;
  cert_PublicKey : option PublicKey;
  Signature : string }.
Arguments mkCertificate {_} _ _ _ _ _ _ _ _ _ _ _ _.
Arguments SerialNumber {_} _.
Arguments CommonName {_} _.
Arguments DNSNames {_} _.
Arguments NotBefore {_} _.
Arguments NotAfter {_} _.
Arguments KeyUsage {_} _.
Arguments ExtKeyUsage {_} _.
Arguments BasicConstraintsValid {_} _.
Arguments IsCA {_} _.
Arguments Constraints {_} _.
Arguments cert_PublicKey {_} _.
Arguments Signature {_} _.

(** The libraries.  [cert_PublicKey] of a parsed certificate is [None] when its key is
    not an RSA key. *)
Class X509 := {
  PrivateKey : Type;
  PublicKey : Type;
  PublicKey_eq_dec :: EqDecision PublicKey;
  Public : PrivateKey -> PublicKey;
  pem_Decode : string -> option string;
  pem_Encode : string -> string -> string;
  ParseCertificate : string -> result (Certificate PublicKey);
  ParsePKCS1PrivateKey : string -> result PrivateKey;
  MarshalPKCS1PrivateKey : PrivateKey -> string;
  (** template, parent, public key of the certificate, key of the signer *)
  CreateCertificate : Certificate PublicKey -> Certificate PublicKey -> PublicKey -> PrivateKey -> result string;
  (** leaf, only root, host name, time; the extended key usage is the default one *)
  Verify : Certificate PublicKey -> Certificate PublicKey -> string -> Z -> result unit;
  tls_Certificate : Type;
  X509KeyPair : string -> string -> result tls_Certificate }.

(** ** The cluster *)

Record Secret := mkSecret {
  s_Name : string; s_Namespace : string; s_Type : string;
  s_Labels : gmap string string; s_ResourceVersion : string; s_Data : gmap string string }.

(** A stored registration: its metadata and its webhooks. *)
Record WebhookObject := mkWebhookObject {
  wo_Labels : gmap string string; wo_ResourceVersion : string; wo_config : MutatingWebhookConfiguration }.

Definition ErrNotFound : error := ErrNew "NotFound".
Definition ErrAlreadyExists : error := ErrNew "AlreadyExists".
Definition ErrConflict : error := ErrNew "Conflict".
Definition IsNotFound (e : error) : bool := errors_is e ErrNotFound.
Definition IsAlreadyExists (e : error) : bool := errors_is e ErrAlreadyExists.
Definition IsConflict (e : error) : bool := errors_is e ErrConflict.

(** ** The world *)

Class Env (W : Type) `{X509} := {
  (** the clock ([config.Now], or the time of the system) and randomness *)
  clock : W -> Z;
  GenerateKey : Act W PrivateKey;
  rand_Int : Z -> Act W Z;
  (** the clients of the lifecycle manager *)
  Secrets_Get : string -> Act W Secret;
  Secrets_Create : Secret -> Act W Secret;
  Secrets_Update : Secret -> Act W Secret;
  Leases_Get : string -> Act W unit;
  Leases_Create : string -> Act W unit;
  Webhooks_Get : string -> Act W WebhookObject;
  Webhooks_Create : MutatingWebhookConfiguration -> Act W WebhookObject;
  Webhooks_Update : WebhookObject -> Act W WebhookObject }.

(** ** certs.go *)

Definition caValidity : Z := 10 * 365 * 24 * Hour.
Definition leafValidity : Z := 365 * 24 * Hour.
Definition serialBits : Z := 128.

Definition ServiceDNSNames (serviceName namespace : string) : list string :=
  [serviceName;
   serviceName +:+ "." +:+ namespace;
   serviceName +:+ "." +:+ namespace +:+ ".svc";
   serviceName +:+ "." +:+ namespace +:+ ".svc.cluster.local"].

Section Model.
Context {W : Type} {X : X509} {E : @Env W X}.
(** The number of zero samples [randomSerialNumber] accepts before the model gives up,
    and the number of times an update is repeated (one less than the steps of
    [retry.DefaultRetry]). *)
Context (fuel : nat) (retries : nat).

Notation Cert := (Certificate PublicKey).
Notation M := (Act W).

Definition now : M Z := fun w => (w, Ok (clock w)).

Record CertificateBundle := mkBundle { CACertPEM : string; CAKeyPEM : string; TLSCertPEM : string; TLSKeyPEM : string }.

Definition ErrOutOfFuel : error := ErrNew "out of fuel".

Fixpoint randomSerialNumber (n : nat) : M Z :=
  match n with
  | O => throw ErrOutOfFuel
  | S n' =>
      serial ← rand_Int (Z.shiftl 1 serialBits);
      if 0 <? serial then mret serial else randomSerialNumber n'
  end.

Definition caTemplate (serial issuedAt : Z) : Cert :=
  mkCertificate serial "sysbox-admission-webhook-ca" [] (issuedAt - Minute) (issuedAt + caValidity)
    (Z.lor KeyUsageCertSign KeyUsageCRLSign) [] true true [] None "".

Definition leafTemplate (serial issuedAt : Z) (dnsNames : list string) : Cert :=
  mkCertificate serial (default "" (dnsNames !! 0%nat)) dnsNames (issuedAt - Minute) (issuedAt + leafValidity)
    (Z.lor KeyUsageDigitalSignature KeyUsageKeyEncipherment) [ExtKeyUsageServerAuth] false false [] None "".

Definition encode_cert (der : string) : string := pem_Encode "CERTIFICATE" der.
Definition encode_key (k : PrivateKey) : string := pem_Encode "RSA PRIVATE KEY" (MarshalPKCS1PrivateKey k).

(** [pem.Decode], and the error when there is no block. *)
Definition decode_pem (text pem : string) : result string :=
  match pem_Decode pem with Some b => Ok b | None => Err (ErrNew text) end.

Definition GenerateTLSCertificate (serviceName namespace caCertPEM caKeyPEM : string) : M (string * string) :=
  _ ← lift (guard_err (bool_decide (serviceName = "")) (ErrNew "service name is required"));
  _ ← lift (guard_err (bool_decide (namespace = "")) (ErrNew "namespace is required"));
  caBlock ← lift (decode_pem "decode ca certificate" caCertPEM);
  caCert ← lift (wrap_err "parse ca certificate" (ParseCertificate caBlock));
  caKeyBlock ← lift (decode_pem "decode ca key" caKeyPEM);
  caKey ← lift (wrap_err "parse ca key" (ParsePKCS1PrivateKey caKeyBlock));
  issuedAt ← now;
  leafKey ← wrapping "generate leaf key" GenerateKey;
  leafSerial ← wrapping "generate leaf serial number" (randomSerialNumber fuel);
  let dnsNames := ServiceDNSNames serviceName namespace in
  leafDER ← lift (wrap_err "create leaf certificate"
    (CreateCertificate (leafTemplate leafSerial issuedAt dnsNames) caCert (Public leafKey) caKey));
  mret (encode_cert leafDER, encode_key leafKey).

Definition GenerateCertificateBundle (serviceName namespace : string) : M CertificateBundle :=
  _ ← lift (guard_err (bool_decide (serviceName = "")) (ErrNew "service name is required"));
  _ ← lift (guard_err (bool_decide (namespace = "")) (ErrNew "namespace is required"));
  issuedAt ← now;
  caKey ← wrapping "generate ca key" GenerateKey;
  caSerial ← wrapping "generate ca serial number" (randomSerialNumber fuel);
  let caTemplate := caTemplate caSerial issuedAt in
  caDER ← lift (wrap_err "create ca certificate" (CreateCertificate caTemplate caTemplate (Public caKey) caKey));
  '(tlsCertPEM, tlsKeyPEM) ← GenerateTLSCertificate serviceName namespace (encode_cert caDER) (encode_key caKey);
  mret (mkBundle (encode_cert caDER) (encode_key caKey) tlsCertPEM tlsKeyPEM).

(** ** cert_health.go *)

Inductive CertificateHealthAction := CertificateHealthy | RotateLeafCertificate | RotateCertificateBundle.

Record CertificateHealthConfig := mkHealthConfig { hc_ServiceName : string; hc_Namespace : string; hc_RenewalWindow : Z }.

Definition parseCertificate (certPEM : string) : result Cert :=
  block ← decode_pem "decode certificate" certPEM;
  wrap_err "parse certificate" (ParseCertificate block).

Definition parseRSAKey (keyPEM : string) : result PrivateKey :=
  block ← decode_pem "decode rsa private key" keyPEM;
  wrap_err "parse rsa private key" (ParsePKCS1PrivateKey block).

Definition certTimeHealthy (cert : Cert) (now renewalWindow : Z) : bool :=
  negb (now <? NotBefore cert) && (now <? NotAfter cert) && (now + renewalWindow <? NotAfter cert).

Definition leafVerifiesAgainstCA (leafCert caCert : Cert) (serviceName namespace : string) (now : Z) : bool :=
  forallb (fun dnsName => is_ok (Verify leafCert caCert dnsName now)) (ServiceDNSNames serviceName namespace).

(** The certificate holds the public half of the key. *)
Definition key_matches (cert : Cert) (key : PrivateKey) : bool := bool_decide (cert_PublicKey cert = Some (Public key)).

Definition EvaluateCertificateHealth (caCertPEM caKeyPEM tlsCertPEM tlsKeyPEM : string) (config : CertificateHealthConfig)
    (checkedAt : Z) : CertificateHealthAction :=
  match parseCertificate caCertPEM with
  | Err _ => RotateCertificateBundle
  | Ok caCert =>
      if negb (certTimeHealthy caCert checkedAt (hc_RenewalWindow config)) || negb (BasicConstraintsValid caCert)
         || negb (IsCA caCert) || bool_decide (Z.land (KeyUsage caCert) KeyUsageCertSign = 0)
      then RotateCertificateBundle else
      match parseRSAKey caKeyPEM with
      | Err _ => RotateCertificateBundle
      | Ok caKey =>
          if negb (key_matches caCert caKey) then RotateCertificateBundle else
          match parseCertificate tlsCertPEM with
          | Err _ => RotateLeafCertificate
          | Ok leafCert =>
              if negb (certTimeHealthy leafCert checkedAt (hc_RenewalWindow config)) then RotateLeafCertificate else
              match parseRSAKey tlsKeyPEM with
              | Err _ => RotateLeafCertificate
              | Ok leafKey =>
                  if negb (key_matches leafCert leafKey) then RotateLeafCertificate else
                  if negb (leafVerifiesAgainstCA leafCert caCert (hc_ServiceName config) (hc_Namespace config) checkedAt)
                  then RotateLeafCertificate else CertificateHealthy
              end
          end
      end
  end.

(** ** lifecycle.go: data *)

Definition CASecretCertKey : string := "ca.crt".
Definition CASecretKeyKey : string := "ca.key".
Definition TLSCertKey : string := "tls.crt".
Definition TLSPrivateKeyKey : string := "tls.key".
Definition SecretTypeTLS : string := "kubernetes.io/tls".

Record LifecycleConfig := mkLifecycleConfig {
  lc_Namespace : string; lc_ServiceName : string; lc_ServicePort : Z; lc_CASecretName : string;
  lc_TLSSecretName : string; lc_LeaseName : string; lc_WebhookName : string; lc_RenewalWindow : Z }.

Record certificateResources := mkResources { caCertPEM : string; caKeyPEM : string; tlsCertPEM : string; tlsKeyPEM : string }.

(** [secret.Data[key]]: nothing when the key is missing. *)
Definition data (s : Secret) (key : string) : string := default "" (s_Data s !! key).

Context (config : LifecycleConfig).

(** ** certificate_resources.go *)

Definition readCertificateResources : M (certificateResources * bool) :=
  r ← try_ (Secrets_Get (lc_CASecretName config));
  match r with
  | Err e => if IsNotFound e then mret (mkResources "" "" "" "", false) else throw (ErrWrap "get ca secret" e)
  | Ok caSecret =>
      r ← try_ (Secrets_Get (lc_TLSSecretName config));
      match r with
      | Err e => if IsNotFound e then mret (mkResources (data caSecret CASecretCertKey) (data caSecret CASecretKeyKey) "" "", true)
                 else throw (ErrWrap "get tls secret" e)
      | Ok tlsSecret =>
          mret (mkResources (data caSecret CASecretCertKey) (data caSecret CASecretKeyKey)
                  (data tlsSecret TLSCertKey) (data tlsSecret TLSPrivateKeyKey), true)
      end
  end.

(** The closure of [retry.RetryOnConflict] and its repetition: a conflict reads the
    object again, and any other error ends the loop.  (A read reports no conflict, so the
    wrapped error of the second read ends it too.) *)
Section Apply.
Context {A : Type} (what : string) (get : M A) (create : M A) (update : A -> M A).

Fixpoint retry_update (n : nat) (current : A) : M A :=
  r ← try_ (update current);
  match r with
  | Ok updated => mret updated
  | Err e =>
      if IsConflict e then
        current' ← wrapping ("get " +:+ what +:+ " after update conflict") get;
        match n with O => throw e | S n' => retry_update n' current' end
      else throw e
  end.

(** Get, create when it is not there, and update otherwise. *)
Definition apply_object : M A :=
  let finish (current : A) := wrapping ("update " +:+ what) (retry_update retries current) in
  r ← try_ get;
  match r with
  | Ok current => finish current
  | Err e =>
      if IsNotFound e then
        c ← try_ create;
        match c with
        | Ok created => mret created
        | Err e' =>
            if IsAlreadyExists e' then
              current ← wrapping ("get " +:+ what +:+ " after create conflict") get;
              finish current
            else throw (ErrWrap ("create " +:+ what) e')
        end
      else throw (ErrWrap ("get " +:+ what) e)
  end.
End Apply.

Definition with_data (s : Secret) (d : gmap string string) : Secret :=
  mkSecret (s_Name s) (s_Namespace s) (s_Type s) (s_Labels s) (s_ResourceVersion s) d.
Definition with_type (s : Secret) (t : string) : Secret :=
  mkSecret (s_Name s) (s_Namespace s) t (s_Labels s) (s_ResourceVersion s) (s_Data s).

Definition applyCASecret (caCertPEM caKeyPEM : string) : M Secret :=
  let d := <[CASecretCertKey := caCertPEM]> (<[CASecretKeyKey := caKeyPEM]> ∅) in
  let secret := mkSecret (lc_CASecretName config) (lc_Namespace config) "" ∅ "" d in
  apply_object "ca secret" (Secrets_Get (lc_CASecretName config)) (Secrets_Create secret)
    (fun current => Secrets_Update (with_data current d)).

Definition applyTLSSecret (tlsCertPEM tlsKeyPEM : string) : M Secret :=
  let d := <[TLSCertKey := tlsCertPEM]> (<[TLSPrivateKeyKey := tlsKeyPEM]> ∅) in
  let secret := mkSecret (lc_TLSSecretName config) (lc_Namespace config) SecretTypeTLS ∅ "" d in
  apply_object "tls secret" (Secrets_Get (lc_TLSSecretName config)) (Secrets_Create secret)
    (fun current => Secrets_Update (with_data (with_type current SecretTypeTLS) d)).

Definition rotateCertificateBundle : M certificateResources :=
  bundle ← wrapping "generate webhook certificate bundle" (GenerateCertificateBundle (lc_ServiceName config) (lc_Namespace config));
  caSecret ← applyCASecret (CACertPEM bundle) (CAKeyPEM bundle);
  '(tlsCert, tlsKey) ← wrapping "generate tls secret"
    (GenerateTLSCertificate (lc_ServiceName config) (lc_Namespace config)
       (data caSecret CASecretCertKey) (data caSecret CASecretKeyKey));
  tlsSecret ← applyTLSSecret tlsCert tlsKey;
  mret (mkResources (data caSecret CASecretCertKey) (data caSecret CASecretKeyKey)
          (data tlsSecret TLSCertKey) (data tlsSecret TLSPrivateKeyKey)).

Definition rotateLeafCertificate (caCertPEM caKeyPEM : string) : M certificateResources :=
  '(tlsCert, tlsKey) ← wrapping "generate tls secret"
    (GenerateTLSCertificate (lc_ServiceName config) (lc_Namespace config) caCertPEM caKeyPEM);
  tlsSecret ← applyTLSSecret tlsCert tlsKey;
  mret (mkResources caCertPEM caKeyPEM (data tlsSecret TLSCertKey) (data tlsSecret TLSPrivateKeyKey)).

Definition health_config : CertificateHealthConfig :=
  mkHealthConfig (lc_ServiceName config) (lc_Namespace config) (lc_RenewalWindow config).
Definition health (r : certificateResources) (t : Z) : CertificateHealthAction :=
  EvaluateCertificateHealth (caCertPEM r) (caKeyPEM r) (tlsCertPEM r) (tlsKeyPEM r) health_config t.

Definition ensureCertificateResources : M certificateResources :=
  '(current, ok) ← readCertificateResources;
  if negb ok then rotateCertificateBundle else
  checkedAt ← now;
  match health current checkedAt with
  | CertificateHealthy => mret current
  | RotateLeafCertificate =>
      match parseRSAKey (caKeyPEM current) with
      | Err _ => rotateCertificateBundle
      | Ok _ => rotateLeafCertificate (caCertPEM current) (caKeyPEM current)
      end
  | RotateCertificateBundle => rotateCertificateBundle
  end.

(** ** lifecycle.go: operations *)

Definition ensureLease : M unit :=
  r ← try_ (Leases_Get (lc_LeaseName config));
  match r with
  | Ok _ => mret tt
  | Err e =>
      if negb (IsNotFound e) then throw (ErrWrap "get lifecycle lease" e) else
      c ← try_ (Leases_Create (lc_LeaseName config));
      match c with
      | Ok _ => mret tt
      | Err e' => if negb (IsAlreadyExists e') then throw (ErrWrap "create lifecycle lease" e') else mret tt
      end
  end.

Definition with_webhooks (current : WebhookObject) (webhook : MutatingWebhookConfiguration) : WebhookObject :=
  mkWebhookObject (wo_Labels current) (wo_ResourceVersion current)
    (mkWebhookConfiguration (mwc_name (wo_config current)) (Webhooks webhook)).

Definition ensureWebhook (caBundle : string) : M unit :=
  webhook ← lift (wrap_err "build mutating webhook configuration"
    (BuildMutatingWebhookConfiguration
       (mkWebhookConfig (lc_WebhookName config) (lc_ServiceName config) (lc_Namespace config) (lc_ServicePort config) caBundle)));
  _ ← apply_object "mutating webhook configuration" (Webhooks_Get (lc_WebhookName config)) (Webhooks_Create webhook)
        (fun current => Webhooks_Update (with_webhooks current webhook));
  mret tt.

Definition Ensure : M tls_Certificate :=
  _ ← ensureLease;
  certificates ← ensureCertificateResources;
  _ ← ensureWebhook (caCertPEM certificates);
  lift (wrap_err "load tls secret key pair" (X509KeyPair (tlsCertPEM certificates) (tlsKeyPEM certificates))).

(** ** tls_reload.go

    The reloader is an atomic pointer to the certificate that is served; the
    certificates it hands out are copies. *)

Definition CertificateReloader : Type := option tls_Certificate.
Definition ErrTLSCertificateNotLoaded : error := ErrNew "tls certificate not loaded".

Definition NewEmptyCertificateReloader : CertificateReloader := None.
Definition SetCertificate (certificate : tls_Certificate) (r : CertificateReloader) : CertificateReloader := Some certificate.
Definition NewCertificateReloader (initial : tls_Certificate) : CertificateReloader := SetCertificate initial None.
Definition GetCertificate (r : CertificateReloader) : result tls_Certificate :=
  match r with None => Err ErrTLSCertificateNotLoaded | Some c => Ok c end.

Definition LoadTLSCertificateFromSecret (secretName : string) : M tls_Certificate :=
  secret ← wrapping "get tls secret" (Secrets_Get secretName);
  lift (wrap_err "load tls secret key pair" (X509KeyPair (data secret TLSCertKey) (data secret TLSPrivateKeyKey))).

(** What the process holds: the world, the reloader and the errors it has reported. *)
Record Process := mkProcess { p_world : W; p_reloader : CertificateReloader; p_reported : list error }.

Definition store_result (w : W) (r : result tls_Certificate) (p : Process) : Process * result unit :=
  match r with
  | Ok c => (mkProcess w (SetCertificate c (p_reloader p)) (p_reported p), Ok tt)
  | Err e => (mkProcess w (p_reloader p) (p_reported p), Err e)
  end.
Definition report (e : error) (p : Process) : Process := mkProcess (p_world p) (p_reloader p) (p_reported p ++ [e]).

Definition RefreshTLSCertificateFromSecret (secretName : string) (p : Process) : Process * result unit :=
  let '(w, r) := LoadTLSCertificateFromSecret secretName (p_world p) in store_result w r p.

(** The loops wait for a tick or for the end of their context; what happens to the world
    in the meantime is part of the event. *)
Inductive event := Tick (f : W -> W) | Done (e : error).
Definition advance (f : W -> W) (p : Process) : Process := mkProcess (f (p_world p)) (p_reloader p) (p_reported p).

(** [None]: still waiting when the events are used up. *)
Fixpoint wait_loop (secretName : string) (events : list event) (p : Process) : Process * option (result unit) :=
  match RefreshTLSCertificateFromSecret secretName p with
  | (p', Ok _) => (p', Some (Ok tt))
  | (p', Err e) =>
      let p' := report e p' in
      match events with
      | [] => (p', None)
      | Done e :: _ => (p', Some (Err e))
      | Tick f :: events' => wait_loop secretName events' (advance f p')
      end
  end.

Definition WaitForTLSCertificateFromSecret (secretName : string) (interval : Z) (events : list event) (p : Process)
    : Process * option (result unit) :=
  if interval <=? 0 then (p, Some (Err (ErrNew "tls certificate refresh interval must be positive"))) else
  wait_loop secretName events p.

Fixpoint refresh_loop (secretName : string) (events : list event) (p : Process) : Process * option (result unit) :=
  match events with
  | [] => (p, None)
  | Done _ :: _ => (p, Some (Ok tt))
  | Tick f :: events' =>
      match RefreshTLSCertificateFromSecret secretName (advance f p) with
      | (p', Ok _) => refresh_loop secretName events' p'
      | (p', Err e) => refresh_loop secretName events' (report e p')
      end
  end.

Definition RunTLSCertificateRefreshLoop (secretName : string) (interval : Z) (events : list event) (p : Process)
    : Process * option (result unit) :=
  if interval <=? 0 then (p, Some (Err (ErrNew "tls certificate refresh interval must be positive"))) else
  refresh_loop secretName events p.

(** ** rotation.go *)

Definition Canceled : error := ErrNew "context canceled".
Definition DeadlineExceeded : error := ErrNew "context deadline exceeded".

Definition ensureAndReload (p : Process) : Process :=
  let '(w, r) := Ensure (p_world p) in
  match store_result w r p with
  | (p', Ok _) => p'
  | (p', Err e) =>
      if negb (errors_is e Canceled) && negb (errors_is e DeadlineExceeded)
      then report (ErrWrap "ensure admission certificate lifecycle" e) p' else p'
  end.

Fixpoint rotation_events (events : list event) (p : Process) : Process * option (result unit) :=
  match events with
  | [] => (p, None)
  | Done _ :: _ => (p, Some (Ok tt))
  | Tick f :: events' => rotation_events events' (ensureAndReload (advance f p))
  end.

Definition rotation_run (events : list event) (p : Process) : Process * option (result unit) :=
  rotation_events events (ensureAndReload p).

Definition Run (interval : Z) (events : list event) (p : Process) : Process * option (result unit) :=
  if interval <=? 0 then (p, Some (Err (ErrNew "certificate rotation interval must be positive"))) else
  rotation_run events p.
End Model.

(** ** main.go: how the server is started *)

Record serveConfig := mkServeConfig { bootstrapWebhook : bool; tlsCert : string; tlsKey : string; allowInsecureHTTP : bool }.

Definition errIncompleteTLSFiles : error := ErrNew "tls-cert and tls-key must be configured together".
Definition errInsecureHTTPDisabled : error := ErrNew "plaintext HTTP requires --allow-insecure-http".

Definition validateServeConfig (config : serveConfig) : option error :=
  if negb (Bool.eqb (bool_decide (tlsCert config = "")) (bool_decide (tlsKey config = ""))) then Some errIncompleteTLSFiles else
  if bootstrapWebhook config || negb (bool_decide (tlsCert config = "")) || allowInsecureHTTP config then None else
  Some errInsecureHTTPDisabled.

(** The way [main] serves, after the check. *)
Inductive serving := ServeReloaded | ServeFiles (cert key : string) | ServePlaintext | Refused (e : error).
Definition serve_mode (config : serveConfig) : serving :=
  match validateServeConfig config with
  | Some e => Refused e
  | None =>
      if bootstrapWebhook config then ServeReloaded
      else if negb (bool_decide (tlsCert config = "")) && negb (bool_decide (tlsKey config = ""))
           then ServeFiles (tlsCert config) (tlsKey config)
           else ServePlaintext
  end.
