(* ===== verification/CertificateThms.v ===== *)
(** * The certificate life cycle: theorems

    [X509Laws] is what crypto/x509, crypto/rsa and encoding/pem document about the
    certificates they create, [EnvLaws] what the API server documents about its
    answers.  Both leave everything else open, in particular what other clients do
    between two calls. *)

From S2P Require Import Prelude GoAct GoStrings Admission Certificates.

Open Scope string_scope.
Open Scope list_scope.
#[local] Open Scope Z_scope.

(** ** Host names *)

Definition label_char (c : ascii) : bool :=
  let n := Ascii.nat_of_ascii c in
  ((97 <=? n)%nat && (n <=? 122)%nat) || ((48 <=? n)%nat && (n <=? 57)%nat) || (n =? 45)%nat.
(** A DNS-1123 label, as the names of services and namespaces are. *)
Definition dns_label (s : string) : bool := negb (bool_decide (s = "")) && str_forall label_char s.
Definition dot : ascii := chr 46.
(** A host name; one with four labels might be an address. *)
Definition dns_name (s : string) : bool :=
  forallb dns_label (split dot s) && negb (bool_decide (length (split dot s) = 4%nat)).

(** ** Laws of the libraries *)

(** The certificate made from a template. *)
Definition issued {PK} (template : Certificate PK) (pk : PK) (signature : string) : Certificate PK :=
  mkCertificate (SerialNumber template) (CommonName template) (DNSNames template)
    (truncate (NotBefore template)) (truncate (NotAfter template)) (KeyUsage template) (ExtKeyUsage template)
    (BasicConstraintsValid template) (IsCA template) (Constraints template) (Some pk) signature.

(** A certificate that may sign others, without restriction on what for. *)
Definition unconstrained {PK} (c : Certificate PK) : bool :=
  bool_decide (Constraints c = []) && bool_decide (ExtKeyUsage c = []).
Definition authority {PK} (c : Certificate PK) : bool :=
  BasicConstraintsValid c && IsCA c && negb (bool_decide (Z.land (KeyUsage c) KeyUsageCertSign = 0)).
Definition valid_at {PK} (c : Certificate PK) (t : Z) : Prop := NotBefore c <= t <= NotAfter c.

Class X509Laws (X : X509) : Prop := {
  pem_roundtrip (type d : string) : pem_Decode (pem_Encode type d) = Some d;
  key_roundtrip (k : PrivateKey) : ParsePKCS1PrivateKey (MarshalPKCS1PrivateKey k) = Ok k;
  create_parse (template parent : Certificate PublicKey) (pk : PublicKey) (key : PrivateKey) (der : string) :
    0 < SerialNumber template -> forallb dns_name (DNSNames template) = true ->
    CreateCertificate template parent pk key = Ok der ->
    exists signature, ParseCertificate der = Ok (issued template pk signature);
  (** a certificate signed with the key of an authority verifies against it *)
  verify_issued (template root c : Certificate PublicKey) (pk : PublicKey) (key : PrivateKey)
      (der rootDER name : string) (t : Z) :
    CreateCertificate template root pk key = Ok der -> ParseCertificate der = Ok c -> ParseCertificate rootDER = Ok root ->
    cert_PublicKey root = Some (Public key) -> authority root = true -> unconstrained root = true ->
    valid_at root t -> valid_at c t ->
    Constraints c = [] -> ExtKeyUsageServerAuth ∈ ExtKeyUsage c -> name ∈ DNSNames c -> dns_name name = true ->
    Verify c root name t = Ok tt }.

(** ** Laws of the cluster *)

Section Laws.
Context {W : Type} {X : X509} {E : @Env W X}.

(** Time does not run backwards during an action. *)
Definition forward {A} (m : Act W A) : Prop := forall w, clock w <= clock (m w).1.

(** [registered w n] is the registration the server holds under [n]. *)
Class EnvLaws (registered : W -> string -> option WebhookObject) : Prop := {
  GenerateKey_forward : forward GenerateKey;
  rand_Int_forward n : forward (rand_Int n);
  Secrets_Get_forward n : forward (Secrets_Get n);
  Secrets_Create_forward s : forward (Secrets_Create s);
  Secrets_Update_forward s : forward (Secrets_Update s);
  Leases_Get_forward n : forward (Leases_Get n);
  Leases_Create_forward n : forward (Leases_Create n);
  Webhooks_Get_forward n : forward (Webhooks_Get n);
  Webhooks_Create_forward c : forward (Webhooks_Create c);
  Webhooks_Update_forward o : forward (Webhooks_Update o);
  (** a write that succeeds answers with the data that were sent *)
  Secrets_Create_data s w w' s' : Secrets_Create s w = (w', Ok s') -> s_Data s' = s_Data s;
  Secrets_Update_data s w w' s' : Secrets_Update s w = (w', Ok s') -> s_Data s' = s_Data s;
  Webhooks_Get_name n w w' o : Webhooks_Get n w = (w', Ok o) -> mwc_name (wo_config o) = n;
  Webhooks_Create_stores c w w' o :
    Webhooks_Create c w = (w', Ok o) -> exists o', registered w' (mwc_name c) = Some o' /\ wo_config o' = c;
  Webhooks_Update_stores o w w' o' :
    Webhooks_Update o w = (w', Ok o') ->
    exists o'', registered w' (mwc_name (wo_config o)) = Some o'' /\ wo_config o'' = wo_config o }.
End Laws.

#[export] Hint Resolve GenerateKey_forward rand_Int_forward Secrets_Get_forward Secrets_Create_forward
  Secrets_Update_forward Leases_Get_forward Leases_Create_forward Webhooks_Get_forward Webhooks_Create_forward
  Webhooks_Update_forward : sysbox.

(** Turn a successful action of the context into its steps. *)
Ltac inv_act :=
  repeat (GoAct.inv_act; match goal with H : now ?w = (_, Ok _) |- _ => injection H as <- <- end); GoAct.inv_act.

Section Theorems.
Context {W : Type} {X : X509} {E : @Env W X} {L : X509Laws X}.
Context {registered : W -> string -> option WebhookObject} {EL : EnvLaws registered}.
Context (fuel retries : nat).

(** ** Time *)

Lemma forward_bind {A B} (m : Act W A) (k : A -> Act W B) : forward m -> (forall a, forward (k a)) -> forward (m ≫= k).
Proof.
  intros Hm Hk w. unfold mbind, Act_bind. specialize (Hm w). destruct (m w) as [w1 [a|e]]; [|done]. cbn in Hm.
  specialize (Hk a w1). lia.
Qed.
Lemma forward_ret {A} (a : A) : forward (mret a : Act W A).
Proof. intros w. cbn. lia. Qed.
Lemma forward_throw {A} (e : error) : forward (throw e : Act W A).
Proof. intros w. cbn. lia. Qed.
Lemma forward_lift {A} (r : result A) : forward (lift r : Act W A).
Proof. intros w. cbn. lia. Qed.
Lemma forward_now : forward (now : Act W Z).
Proof. intros w. cbn. lia. Qed.
Lemma forward_try {A} (m : Act W A) : forward m -> forward (try_ m).
Proof. intros H w. specialize (H w). unfold try_. by destruct (m w). Qed.
Lemma forward_wrapping {A} (t : string) (m : Act W A) : forward m -> forward (wrapping t m).
Proof. intros H w. specialize (H w). unfold wrapping. by destruct (m w). Qed.

Hint Resolve forward_ret forward_throw forward_lift forward_now : sysbox.
Ltac forward_step :=
  repeat match goal with
  | |- forward (mbind _ _) => apply forward_bind
  | |- forward (try_ _) => apply forward_try
  | |- forward (wrapping _ _) => apply forward_wrapping
  | |- forward (match _ with _ => _ end) => case_match
  | |- forward _ => solve [eauto 3 with sysbox]
  | |- forall _, _ => intros ?
  end.

Lemma forward_serial (n : nat) : forward (randomSerialNumber n : Act W Z).
Proof. induction n as [|n IH]; cbn [randomSerialNumber]; forward_step. Qed.
Hint Resolve forward_serial : sysbox.

Lemma forward_retry {A} (what : string) (get : Act W A) (update : A -> Act W A) (n : nat) (a : A) :
  forward get -> (forall b, forward (update b)) -> forward (retry_update what get update n a).
Proof.
  intros Hg Hu. revert a. induction n as [|n IH]; intros a; cbn [retry_update]; forward_step.
Qed.
Lemma forward_apply {A} (what : string) (get create : Act W A) (update : A -> Act W A) :
  forward get -> forward create -> (forall b, forward (update b)) -> forward (apply_object retries what get create update).
Proof.
  intros Hg Hc Hu. unfold apply_object. pose proof (fun n a => forward_retry what get update n a Hg Hu). forward_step.
Qed.
Hint Resolve forward_apply : sysbox.

Lemma forward_tls (s n c k : string) : forward (GenerateTLSCertificate fuel s n c k : Act W _).
Proof. unfold GenerateTLSCertificate. forward_step. Qed.
Lemma forward_bundle (s n : string) : forward (GenerateCertificateBundle fuel s n : Act W _).
Proof. unfold GenerateCertificateBundle. pose proof forward_tls. forward_step. Qed.

(** ** Host names of the service *)

Lemma dns_label_no_dot (s : string) : dns_label s = true -> contains_char dot s = false.
Proof.
  intros [_ H]%andb_true_iff. induction s as [|c s IH]; [done|]. cbn in *. apply andb_true_iff in H as [Hc Hs].
  rewrite IH by done. rewrite orb_false_r. apply bool_decide_eq_false_2. intros ->. by vm_compute in Hc.
Qed.

Lemma split_labels (l : list string) : l <> [] -> forallb dns_label l = true -> split dot (join "." l) = l.
Proof.
  intros Hne Hl. apply (split_join dot); [done|]. apply Forall_forall. intros s Hs. apply dns_label_no_dot.
  rewrite forallb_forall in Hl. apply Hl. by apply list_elem_of_In.
Qed.

Lemma dns_name_join (l : list string) :
  l <> [] -> length l <> 4%nat -> forallb dns_label l = true -> dns_name (join "." l) = true.
Proof.
  intros Hne H4 Hl. unfold dns_name. rewrite split_labels, Hl by done. by rewrite bool_decide_eq_false_2.
Qed.

Lemma ServiceDNSNames_valid (s n : string) :
  dns_label s = true -> dns_label n = true -> forallb dns_name (ServiceDNSNames s n) = true.
Proof.
  intros Hs Hn. pose proof (fun l a b => dns_name_join l a b) as H. unfold ServiceDNSNames. cbn [forallb].
  rewrite !andb_true_iff. repeat split.
  - apply (H [s]); [done|done|]. cbn. by rewrite Hs.
  - apply (H [s; n]); [done|done|]. cbn. by rewrite Hs, Hn.
  - apply (H [s; n; "svc"]); [done|done|]. cbn -[dns_label]. by rewrite Hs, Hn.
  - apply (H [s; n; "svc"; "cluster"; "local"]); [done|done|]. cbn -[dns_label]. by rewrite Hs, Hn.
Qed.

(** ** Generation *)

Lemma serial_positive (n : nat) (w w' : W) (s : Z) : randomSerialNumber n w = (w', Ok s) -> 0 < s.
Proof.
  revert w. induction n as [|n IH]; intros w H; cbn [randomSerialNumber] in H; [done|]. inv_act.
  destruct (0 <? _) eqn:Hs; [inv_act; lia|by eapply IH].
Qed.

Lemma decode_encode (text type d : string) : decode_pem text (pem_Encode type d) = Ok d.
Proof. unfold decode_pem. by rewrite pem_roundtrip. Qed.
Lemma parseRSAKey_encode (k : PrivateKey) : parseRSAKey (encode_key k) = Ok k.
Proof. unfold parseRSAKey, encode_key. rewrite decode_encode. cbn. by rewrite key_roundtrip. Qed.
Lemma parseCertificate_encode (der : string) (c : Certificate PublicKey) :
  ParseCertificate der = Ok c -> parseCertificate (encode_cert der) = Ok c.
Proof. intros H. unfold parseCertificate, encode_cert. rewrite decode_encode. cbn. by rewrite H. Qed.

(** The steps of a serving certificate that was generated. *)
Lemma GenerateTLS_ok (s n ca cak c k : string) (w w' : W) :
  GenerateTLSCertificate fuel s n ca cak w = (w', Ok (c, k)) ->
  exists rootDER root key leafKey serial der,
    decode_pem "decode certificate" ca = Ok rootDER /\ ParseCertificate rootDER = Ok root /\
    parseRSAKey cak = Ok key /\ 0 < serial /\
    CreateCertificate (leafTemplate serial (clock w) (ServiceDNSNames s n)) root (Public leafKey) key = Ok der /\
    c = encode_cert der /\ k = encode_key leafKey.
Proof.
  unfold GenerateTLSCertificate, parseRSAKey, decode_pem. intros H. inv_act.
  destruct (pem_Decode ca) as [rootDER|]; [|done]. destruct (pem_Decode cak) as [keyDER|]; [|done]. inv_ok.
  match goal with H : randomSerialNumber _ _ = _ |- _ => pose proof (serial_positive _ _ _ _ H) end.
  match goal with H : ParsePKCS1PrivateKey _ = _ |- _ => cbn; rewrite H; cbn end.
  repeat eexists; by eauto.
Qed.

(** What a generated authority and a generated serving certificate are. *)
Definition fresh_ca (ca cak : string) (t0 : Z) : Prop :=
  exists root key, parseCertificate ca = Ok root /\ parseRSAKey cak = Ok key /\ key_matches root key = true /\
    authority root = true /\ unconstrained root = true /\
    NotBefore root = truncate (t0 - Minute) /\ NotAfter root = truncate (t0 + caValidity).

Definition fresh_leaf (s n ca cak c k : string) (t0 : Z) : Prop :=
  exists root key leaf leafKey,
    parseCertificate ca = Ok root /\ parseRSAKey cak = Ok key /\
    parseCertificate c = Ok leaf /\ parseRSAKey k = Ok leafKey /\ key_matches leaf leafKey = true /\
    NotBefore leaf = truncate (t0 - Minute) /\ NotAfter leaf = truncate (t0 + leafValidity) /\
    (key_matches root key = true -> authority root = true -> unconstrained root = true ->
     forall t, valid_at root t -> valid_at leaf t -> leafVerifiesAgainstCA leaf root s n t = true).

Lemma key_matches_true (c : Certificate PublicKey) (k : PrivateKey) :
  key_matches c k = true <-> cert_PublicKey c = Some (Public k).
Proof. apply bool_decide_eq_true. Qed.

Lemma GenerateTLS_fresh (s n ca cak c k : string) (w w' : W) :
  dns_label s = true -> dns_label n = true ->
  GenerateTLSCertificate fuel s n ca cak w = (w', Ok (c, k)) -> fresh_leaf s n ca cak c k (clock w).
Proof.
  intros Hs Hn (rootDER & root & key & leafKey & serial & der & Hd & Hr & Hk & Hp & Hc & -> & ->)%GenerateTLS_ok.
  pose proof (ServiceDNSNames_valid s n Hs Hn) as Hv.
  destruct (create_parse (leafTemplate serial (clock w) (ServiceDNSNames s n)) _ _ _ _ Hp Hv Hc) as [sig Hl].
  exists root, key, (issued (leafTemplate serial (clock w) (ServiceDNSNames s n)) (Public leafKey) sig), leafKey.
  repeat split.
  - unfold parseCertificate. rewrite Hd. cbn. by rewrite Hr.
  - done.
  - by apply parseCertificate_encode.
  - apply parseRSAKey_encode.
  - by apply key_matches_true.
  - intros Hkm%key_matches_true Ha Hu t Ht Hlt. apply forallb_forall. intros name Hname.
    rewrite forallb_forall in Hv.
    rewrite (verify_issued _ _ _ _ _ _ _ name t Hc Hl Hr Hkm Ha Hu Ht Hlt); [done|done|by apply list_elem_of_singleton| |by apply Hv].
    by apply list_elem_of_In.
Qed.

Lemma bundle_fresh (s n : string) (b : CertificateBundle) (w w' : W) :
  dns_label s = true -> dns_label n = true ->
  GenerateCertificateBundle fuel s n w = (w', Ok b) ->
  fresh_ca (CACertPEM b) (CAKeyPEM b) (clock w) /\
  exists t1, clock w <= t1 <= clock w' /\
    fresh_leaf s n (CACertPEM b) (CAKeyPEM b) (TLSCertPEM b) (TLSKeyPEM b) t1.
Proof.
  intros Hs Hn H. unfold GenerateCertificateBundle in H. inv_act. cbn [CACertPEM CAKeyPEM TLSCertPEM TLSKeyPEM].
  match goal with
  | H1 : GenerateKey ?w0 = (?w1, _), H2 : randomSerialNumber _ ?w1 = (?w2, Ok ?serial), H3 : GenerateTLSCertificate _ _ _ _ _ ?w2 = (?w3, _),
    H4 : CreateCertificate ?template _ (Public ?caKey) _ = Ok ?der |- _ =>
      pose proof (GenerateKey_forward w0) as F1; rewrite H1 in F1;
      pose proof (forward_serial fuel w1) as F2; rewrite H2 in F2;
      pose proof (forward_tls s n (encode_cert der) (encode_key caKey) w2) as F3; rewrite H3 in F3;
      pose proof (serial_positive _ _ _ _ H2) as Hp;
      destruct (create_parse template _ _ _ _ Hp eq_refl H4) as [sig Hca];
      apply GenerateTLS_fresh in H3; [|done|done]
  end.
  cbn in F1, F2, F3. split.
  - eexists _, _. split; [by apply parseCertificate_encode|]. split; [apply parseRSAKey_encode|].
    repeat split. by apply key_matches_true.
  - eexists. split; [|done]. lia.
Qed.

(** ** Health *)

(** The authority is usable, and the serving certificate is, under an authority. *)
Definition ca_ok (root : Certificate PublicKey) (ca cak : string) (hc : CertificateHealthConfig) (t : Z) : Prop :=
  parseCertificate ca = Ok root /\ certTimeHealthy root t (hc_RenewalWindow hc) = true /\ authority root = true /\
  exists key, parseRSAKey cak = Ok key /\ key_matches root key = true.
Definition leaf_ok (root : Certificate PublicKey) (c k : string) (hc : CertificateHealthConfig) (t : Z) : Prop :=
  exists leaf key, parseCertificate c = Ok leaf /\ certTimeHealthy leaf t (hc_RenewalWindow hc) = true /\
    parseRSAKey k = Ok key /\ key_matches leaf key = true /\
    leafVerifiesAgainstCA leaf root (hc_ServiceName hc) (hc_Namespace hc) t = true.

Lemma authority_negb (root : Certificate PublicKey) (b : bool) :
  (negb b || negb (BasicConstraintsValid root) || negb (IsCA root)
     || bool_decide (Z.land (KeyUsage root) KeyUsageCertSign = 0)) = negb (b && authority root).
Proof.
  unfold authority.
  by destruct b, (BasicConstraintsValid root), (IsCA root), (bool_decide (Z.land (KeyUsage root) KeyUsageCertSign = 0)).
Qed.

Lemma health_spec (ca cak c k : string) (hc : CertificateHealthConfig) (t : Z) :
  match EvaluateCertificateHealth ca cak c k hc t with
  | CertificateHealthy => exists root, ca_ok root ca cak hc t /\ leaf_ok root c k hc t
  | RotateLeafCertificate => exists root, ca_ok root ca cak hc t /\ ~ leaf_ok root c k hc t
  | RotateCertificateBundle => ~ exists root, ca_ok root ca cak hc t
  end.
Proof.
  unfold EvaluateCertificateHealth, ca_ok, leaf_ok.
  destruct (parseCertificate ca) as [root|]; [|naive_solver]. rewrite authority_negb.
  destruct (certTimeHealthy root t _ && authority root) eqn:Ea; cbn [negb].
  2: { apply andb_false_iff in Ea. intros (root' & [= <-] & Ht & Ha & _). by destruct Ea; congruence. }
  apply andb_true_iff in Ea as [Ht Ha].
  destruct (parseRSAKey cak) as [key|]; [|naive_solver].
  destruct (key_matches root key) eqn:Hk; cbn [negb]; [|naive_solver congruence].
  destruct (parseCertificate c) as [leaf|]; [|naive_solver].
  destruct (certTimeHealthy leaf t _) eqn:Hl; cbn [negb]; [|naive_solver congruence].
  destruct (parseRSAKey k) as [lk|]; [|naive_solver].
  destruct (key_matches leaf lk) eqn:Hlk; cbn [negb]; [|naive_solver congruence].
  destruct (leafVerifiesAgainstCA leaf root _ _ t) eqn:Hv; cbn [negb]; naive_solver congruence.
Qed.

(** The health check decides exactly by the two parts: the whole bundle is replaced
    when the authority is unusable (unreadable, outside its time, without the rights of
    an authority, or without its key), only the serving certificate when that part alone
    is unusable, and nothing otherwise. *)
Theorem health_decision (ca cak c k : string) (hc : CertificateHealthConfig) (t : Z) :
  (EvaluateCertificateHealth ca cak c k hc t = RotateCertificateBundle <-> ~ exists root, ca_ok root ca cak hc t) /\
  (EvaluateCertificateHealth ca cak c k hc t = RotateLeafCertificate <->
     exists root, ca_ok root ca cak hc t /\ ~ leaf_ok root c k hc t) /\
  (EvaluateCertificateHealth ca cak c k hc t = CertificateHealthy <->
     exists root, ca_ok root ca cak hc t /\ leaf_ok root c k hc t).
Proof.
  pose proof (health_spec ca cak c k hc t) as H.
  assert (forall r r', ca_ok r ca cak hc t -> ca_ok r' ca cak hc t -> r = r') as Hu.
  { intros r r' [H1 _] [H2 _]. congruence. }
  destruct (EvaluateCertificateHealth ca cak c k hc t); split_and!; split; try done; try naive_solver.
  - destruct H as (r & Hr & Hl). intros (r' & Hr' & Hl'). by rewrite (Hu r' r) in Hl'.
  - destruct H as (r & Hr & Hl). intros (r' & Hr' & Hl'). by rewrite (Hu r' r) in Hl'.
Qed.

Lemma truncate_bounds (t : Z) : t - Second < truncate t <= t.
Proof. unfold truncate. pose proof (Z.div_mod t Second). pose proof (Z.mod_pos_bound t Second). unfold Second in *. lia. Qed.

(** A certificate from [t0 - Minute] on for a time [d]. *)
Lemma fresh_time (c : Certificate PublicKey) (t0 d t window : Z) :
  NotBefore c = truncate (t0 - Minute) -> NotAfter c = truncate (t0 + d) -> 0 <= window ->
  t0 <= t -> t + window + Second <= t0 + d -> certTimeHealthy c t window = true /\ valid_at c t.
Proof.
  intros Hb Ha Hw H0 Hd. pose proof (truncate_bounds (t0 - Minute)). pose proof (truncate_bounds (t0 + d)).
  unfold certTimeHealthy, valid_at. rewrite Hb, Ha.
  rewrite !andb_true_iff, negb_true_iff, Z.ltb_ge, !Z.ltb_lt. unfold Minute, Second in *. lia.
Qed.

Lemma fresh_healthy (s n ca cak c k : string) (t0 t1 window t : Z) :
  fresh_ca ca cak t0 -> fresh_leaf s n ca cak c k t1 -> 0 <= window -> t0 <= t1 <= t ->
  t + window + Second <= t0 + leafValidity ->
  EvaluateCertificateHealth ca cak c k (mkHealthConfig s n window) t = CertificateHealthy.
Proof.
  intros (root & key & Hr & Hk & Hm & Ha & Hu & Hnb & Hna) (root' & key' & leaf & lk & Hr' & Hk' & Hl & Hlk & Hlm & Hlb & Hla & Hv) Hw Ht Hd.
  rewrite Hr in Hr'. injection Hr' as <-. rewrite Hk in Hk'. injection Hk' as <-.
  destruct (fresh_time root t0 caValidity t window) as [Hc1 Hc2]; [done..|lia| |].
  { unfold caValidity, leafValidity, Hour, Minute, Second in *. lia. }
  destruct (fresh_time leaf t1 leafValidity t window) as [Hl1 Hl2]; [done..|lia|lia|].
  pose proof (health_spec ca cak c k (mkHealthConfig s n window) t) as H.
  assert (ca_ok root ca cak (mkHealthConfig s n window) t) as Hca by (repeat split; by eauto).
  assert (leaf_ok root c k (mkHealthConfig s n window) t) as Hle.
  { exists leaf, lk. repeat split; [done..|]. by apply Hv. }
  destruct (EvaluateCertificateHealth _ _ _ _ _ _); [done| |naive_solver].
  destruct H as (r & [Hr' _] & Hn). rewrite Hr in Hr'. by injection Hr' as <-.
Qed.

(** A generated bundle is healthy from its generation until the renewal window before
    the end of the serving certificate, so that checking it again changes nothing, and it
    is not healthy from the beginning of that window on, so that it is renewed in time. *)
Theorem renewal_on_time (s n : string) (b : CertificateBundle) (window : Z) (w w' : W) :
  dns_label s = true -> dns_label n = true -> 0 <= window ->
  GenerateCertificateBundle fuel s n w = (w', Ok b) ->
  let check := EvaluateCertificateHealth (CACertPEM b) (CAKeyPEM b) (TLSCertPEM b) (TLSKeyPEM b) (mkHealthConfig s n window) in
  (forall t, clock w' <= t -> t + window + Second <= clock w + leafValidity -> check t = CertificateHealthy) /\
  (forall t, clock w' + leafValidity <= t + window -> check t <> CertificateHealthy).
Proof.
  intros Hs Hn Hw (Hca & t1 & Ht1 & Hl)%bundle_fresh; [|done..]. split.
  - intros t Ht Hd. eapply fresh_healthy; [done|done|done|lia|lia].
  - intros t Ht Hh. pose proof (health_spec (CACertPEM b) (CAKeyPEM b) (TLSCertPEM b) (TLSKeyPEM b) (mkHealthConfig s n window) t) as H.
    rewrite Hh in H. destruct H as (root & _ & leaf & lk & Hp & Htl & _).
    destruct Hl as (? & ? & leaf' & ? & _ & _ & Hp' & _ & _ & _ & Hna & _). rewrite Hp in Hp'. injection Hp' as <-.
    unfold certTimeHealthy in Htl. apply andb_true_iff in Htl as [_ Htl%Z.ltb_lt]. rewrite Hna in Htl. cbn in Htl.
    pose proof (truncate_bounds (t1 + leafValidity)). lia.
Qed.

(** ** Applying objects *)

Lemma retry_ok {A} (what : string) (get : Act W A) (update : A -> Act W A) (P : A -> Prop) (m : nat) (cur a : A) (w w' : W) :
  (forall w1 w2 b, get w1 = (w2, Ok b) -> P b) -> P cur ->
  retry_update what get update m cur w = (w', Ok a) -> exists b w0, P b /\ update b w0 = (w', Ok a).
Proof.
  intros Hg. revert cur w. induction m as [|m IH]; intros cur w HP H; cbn [retry_update] in H; inv_act.
  all: case_match; inv_act; [by eauto|]; case_match; inv_act; try done.
  eapply IH; [|done]. by eauto.
Qed.

(** An object that was applied is the answer of the last write: of the creation, or of an
    update of an object that was read. *)
Lemma apply_ok {A} (what : string) (get create : Act W A) (update : A -> Act W A) (P : A -> Prop) (a : A) (w w' : W) :
  (forall w1 w2 b, get w1 = (w2, Ok b) -> P b) ->
  apply_object retries what get create update w = (w', Ok a) ->
  (exists w0, create w0 = (w', Ok a)) \/ (exists b w0, P b /\ update b w0 = (w', Ok a)).
Proof.
  intros Hg H. unfold apply_object in H. inv_act. case_match; inv_act.
  - right. eapply retry_ok; [done| |done]. by eauto.
  - case_match; inv_act. case_match; inv_act; [by eauto|]. case_match; inv_act.
    right. eapply retry_ok; [done| |done]. by eauto.
Qed.

Context (config : LifecycleConfig).

Lemma applyCA_data (c k : string) (s : Secret) (w w' : W) :
  applyCASecret retries config c k w = (w', Ok s) -> data s CASecretCertKey = c /\ data s CASecretKeyKey = k.
Proof.
  intros [[w0 H]|(b & w0 & _ & H)]%(apply_ok _ _ _ _ (fun _ => True)); [..|done];
    [apply Secrets_Create_data in H|apply Secrets_Update_data in H]; unfold data; rewrite H; done.
Qed.
Lemma applyTLS_data (c k : string) (s : Secret) (w w' : W) :
  applyTLSSecret retries config c k w = (w', Ok s) -> data s TLSCertKey = c /\ data s TLSPrivateKeyKey = k.
Proof.
  intros [[w0 H]|(b & w0 & _ & H)]%(apply_ok _ _ _ _ (fun _ => True)); [..|done];
    [apply Secrets_Create_data in H|apply Secrets_Update_data in H]; unfold data; rewrite H; done.
Qed.

(** The authority the registration tells the API server to trust. *)
Definition published (w : W) (name ca : string) : Prop :=
  exists o, registered w name = Some o /\ map wh_ca (Webhooks (wo_config o)) = [ca].

Lemma ensureWebhook_published (ca : string) (w w' : W) :
  ensureWebhook retries config ca w = (w', Ok tt) -> published w' (lc_WebhookName config) ca.
Proof.
  intros H. unfold ensureWebhook in H. inv_act.
  match goal with H : BuildMutatingWebhookConfiguration _ = Ok _ |- _ => unfold BuildMutatingWebhookConfiguration in H; inv_ok end.
  match goal with H : apply_object _ _ _ _ _ _ = _ |- _ =>
    apply (apply_ok _ _ _ _ (fun o => mwc_name (wo_config o) = lc_WebhookName config)) in H as [[w0 Hw]|(b & w0 & Hb & Hw)] end.
  - apply Webhooks_Create_stores in Hw as (o & Ho & Hc). exists o. rewrite Hc. by split.
  - apply Webhooks_Update_stores in Hw as (o & Ho & Hc). exists o. rewrite Hc. cbn in Ho. rewrite Hb in Ho. by split.
  - intros. by eapply Webhooks_Get_name.
Qed.

(** ** Ensure *)

Lemma forward_ok {A} (m : Act W A) (w w' : W) (r : result A) : forward m -> m w = (w', r) -> clock w <= clock w'.
Proof. intros H Hm. specialize (H w). by rewrite Hm in H. Qed.

Lemma forward_applyCA (c k : string) : forward (applyCASecret retries config c k).
Proof. unfold applyCASecret. forward_step. apply forward_apply; eauto with sysbox. Qed.
Lemma forward_applyTLS (c k : string) : forward (applyTLSSecret retries config c k).
Proof. unfold applyTLSSecret. forward_step. apply forward_apply; eauto with sysbox. Qed.
Lemma forward_read : forward (readCertificateResources config).
Proof. unfold readCertificateResources. forward_step. Qed.
Lemma forward_lease : forward (ensureLease config).
Proof. unfold ensureLease. forward_step. Qed.
Lemma forward_webhook (ca : string) : forward (ensureWebhook retries config ca).
Proof. unfold ensureWebhook. forward_step. apply forward_apply; eauto with sysbox. Qed.

(** The serving certificate verifies at [t] against the authority, if that one is an
    authority without constraints on names and uses. *)
Definition verified (r : certificateResources) (t : Z) : Prop :=
  exists root leaf, parseCertificate (caCertPEM r) = Ok root /\ parseCertificate (tlsCertPEM r) = Ok leaf /\
    authority root = true /\
    (unconstrained root = true -> leafVerifiesAgainstCA leaf root (lc_ServiceName config) (lc_Namespace config) t = true).

Lemma fresh_leaf_verified (ca cak c k : string) (root : Certificate PublicKey) (key : PrivateKey) (t : Z) :
  parseCertificate ca = Ok root -> parseRSAKey cak = Ok key -> key_matches root key = true -> authority root = true ->
  valid_at root t -> fresh_leaf (lc_ServiceName config) (lc_Namespace config) ca cak c k t ->
  verified (mkResources ca cak c k) t.
Proof.
  intros Hr Hk Hm Ha Ht (root' & key' & leaf & lk & Hr' & Hk' & Hl & _ & _ & Hlb & Hla & Hv).
  rewrite Hr in Hr'. injection Hr' as <-. rewrite Hk in Hk'. injection Hk' as <-.
  exists root, leaf. repeat split; [done..|]. intros Hu. apply Hv; [done..|].
  apply (fresh_time leaf t leafValidity t 0 Hlb Hla); [lia|lia|]. unfold leafValidity, Hour, Minute, Second. lia.
Qed.

Hypothesis Hservice : dns_label (lc_ServiceName config) = true.
Hypothesis Hnamespace : dns_label (lc_Namespace config) = true.

Lemma rotateBundle_verified (r : certificateResources) (w w' : W) :
  rotateCertificateBundle fuel retries config w = (w', Ok r) -> clock w' - clock w + Second <= caValidity ->
  exists t, clock w <= t <= clock w' /\ verified r t.
Proof.
  intros H Hd. unfold rotateCertificateBundle in H. inv_act.
  match goal with
  | H1 : GenerateCertificateBundle _ _ _ ?w0 = (?w1, _), H2 : applyCASecret _ _ _ _ ?w1 = (?w2, _),
    H3 : GenerateTLSCertificate _ _ _ _ _ ?w2 = (?w3, _), H4 : applyTLSSecret _ _ _ _ ?w3 = _ |- _ =>
      pose proof (forward_ok _ _ _ _ (forward_bundle _ _) H1); pose proof (forward_ok _ _ _ _ (forward_applyCA _ _) H2);
      pose proof (forward_ok _ _ _ _ (forward_tls _ _ _ _) H3); pose proof (forward_ok _ _ _ _ (forward_applyTLS _ _) H4);
      apply bundle_fresh in H1 as [(root & key & Hr & Hk & Hm & Ha & _ & Hb & Hn) _]; [|done..];
      apply applyCA_data in H2 as [E1 E2]; rewrite E1, E2 in *; apply GenerateTLS_fresh in H3; [|done..]; apply applyTLS_data in H4 as [-> ->];
      exists (clock w2); split; [lia|]; eapply fresh_leaf_verified; [done..| |done];
      apply (fresh_time root (clock w0) caValidity _ 0 Hb Hn); lia
  end.
Qed.

Lemma rotateLeaf_verified (ca cak : string) (root : Certificate PublicKey) (r : certificateResources) (t0 : Z) (w w' : W) :
  ca_ok root ca cak (health_config config) t0 -> t0 <= clock w -> clock w' - t0 <= lc_RenewalWindow config ->
  rotateLeafCertificate fuel retries config ca cak w = (w', Ok r) ->
  exists t, clock w <= t <= clock w' /\ verified r t.
Proof.
  intros (Hr & Ht & Ha & key & Hk & Hm) Hle Hd H. unfold rotateLeafCertificate in H. inv_act.
  match goal with
  | H3 : GenerateTLSCertificate _ _ _ _ _ ?w2 = (?w3, _), H4 : applyTLSSecret _ _ _ _ ?w3 = _ |- _ =>
      pose proof (forward_ok _ _ _ _ (forward_tls _ _ _ _) H3); pose proof (forward_ok _ _ _ _ (forward_applyTLS _ _) H4);
      apply GenerateTLS_fresh in H3; [|done..]; apply applyTLS_data in H4 as [-> ->];
      exists (clock w2); split; [lia|]; eapply fresh_leaf_verified; [done..| |done]
  end.
  unfold certTimeHealthy in Ht. rewrite !andb_true_iff, negb_true_iff, Z.ltb_ge, !Z.ltb_lt in Ht. cbn in Ht.
  unfold valid_at. lia.
Qed.

Lemma ensureResources_verified (r : certificateResources) (w w' : W) :
  ensureCertificateResources fuel retries config w = (w', Ok r) -> clock w' - clock w <= lc_RenewalWindow config ->
  lc_RenewalWindow config + Second <= caValidity ->
  exists t, clock w <= t <= clock w' /\ verified r t.
Proof.
  intros H Hd Hw. unfold ensureCertificateResources in H. inv_act.
  match goal with H1 : readCertificateResources _ _ = _ |- _ => pose proof (forward_ok _ _ _ _ forward_read H1) end.
  destruct (negb _).
  { match goal with H : rotateCertificateBundle _ _ _ _ = _ |- _ => apply rotateBundle_verified in H as (t & Ht & Hv); [|lia] end.
    exists t. split; [lia|done]. }
  inv_act. unfold health in *.
  match goal with H : context [EvaluateCertificateHealth ?a ?b ?c ?d ?e ?f] |- _ =>
    pose proof (health_spec a b c d e f) as Hs; destruct (EvaluateCertificateHealth a b c d e f) end.
  - inv_act. destruct Hs as (root & (Hr & _ & Ha & _) & leaf & lk & Hl & _ & _ & _ & Hv). eexists. split; [split; [done|]; lia|].
    exists root, leaf. by repeat split.
  - destruct Hs as (root & Hca & _). pose proof Hca as (_ & _ & _ & key & Hk & _). rewrite Hk in *.
    match goal with H : rotateLeafCertificate _ _ _ _ _ _ = _ |- _ =>
      eapply rotateLeaf_verified in H as (t & Ht & Hv); [|exact Hca|lia|lia] end.
    exists t. split; [lia|done].
  - match goal with H : rotateCertificateBundle _ _ _ _ = _ |- _ => apply rotateBundle_verified in H as (t & Ht & Hv); [|lia] end.
    exists t. split; [lia|done].
Qed.

(** C8. The certificate the webhook serves is one the API server accepts: after a
    successful [Ensure] the registration holds exactly one authority, and the certificate
    that is returned verifies against it under every name of the service, whether it was
    kept, renewed, or generated with a new authority, and whatever other clients do.  The
    authority must not restrict names and uses, and the call must take less than the
    renewal window. *)
Theorem Ensure_serves_verified (cert : tls_Certificate) (w w' : W) :
  Ensure fuel retries config w = (w', Ok cert) ->
  clock w' - clock w <= lc_RenewalWindow config -> lc_RenewalWindow config + Second <= caValidity ->
  exists r t, X509KeyPair (tlsCertPEM r) (tlsKeyPEM r) = Ok cert /\ published w' (lc_WebhookName config) (caCertPEM r) /\
    clock w <= t <= clock w' /\ verified r t.
Proof.
  intros H Hd Hw. unfold Ensure in H. inv_act.
  match goal with
  | H1 : ensureLease _ _ = _, H3 : ensureWebhook _ _ _ _ = _, H2 : ensureCertificateResources _ _ _ _ = (_, Ok ?r) |- _ =>
      pose proof (forward_ok _ _ _ _ forward_lease H1); pose proof (forward_ok _ _ _ _ (forward_webhook _) H3);
      apply ensureResources_verified in H2 as (t & Ht & Hv); [|lia..]; apply ensureWebhook_published in H3; exists r, t
  end.
  repeat split; [done|done|lia|lia|done].
Qed.

(** Renewal replaces no more than it has to: healthy certificates are only read, and
    when the serving certificate alone is unusable the authority stays the one of the
    secret. *)
Theorem ensure_minimal (current : certificateResources) (w w1 : W) :
  readCertificateResources config w = (w1, Ok (current, true)) ->
  (health config current (clock w1) = CertificateHealthy ->
     ensureCertificateResources fuel retries config w = (w1, Ok current)) /\
  (health config current (clock w1) = RotateLeafCertificate ->
     ensureCertificateResources fuel retries config w
       = rotateLeafCertificate fuel retries config (caCertPEM current) (caKeyPEM current) w1 /\
     forall w' r, ensureCertificateResources fuel retries config w = (w', Ok r) ->
       caCertPEM r = caCertPEM current /\ caKeyPEM r = caKeyPEM current).
Proof.
  intros Hr. unfold ensureCertificateResources. rewrite (act_bind_run _ _ _ _ _ Hr). cbn [negb].
  rewrite (act_bind_run now _ w1 w1 (clock w1) eq_refl).
  pose proof (health_spec (caCertPEM current) (caKeyPEM current) (tlsCertPEM current) (tlsKeyPEM current) (health_config config) (clock w1)) as Hs.
  change (EvaluateCertificateHealth _ _ _ _ _ _) with (health config current (clock w1)) in Hs.
  split; intros Hh; rewrite Hh in *; [done|].
  destruct Hs as (root & (_ & _ & _ & key & Hk & _) & _). rewrite Hk. split; [done|].
  intros w' r H. unfold rotateLeafCertificate in H. inv_act. by split.
Qed.

(** ** Conflicts *)

(** [contended n cur w cur' w']: [n] updates in a row meet a conflict and read again. *)
Inductive contended {A} (get : Act W A) (update : A -> Act W A) : nat -> A -> W -> A -> W -> Prop :=
  | contended_none cur w : contended get update 0 cur w cur w
  | contended_more n cur w w1 e cur1 w2 cur' w' :
      update cur w = (w1, Err e) -> IsConflict e = true -> get w1 = (w2, Ok cur1) ->
      contended get update n cur1 w2 cur' w' -> contended get update (S n) cur w cur' w'.

Lemma retry_converges {A} (what : string) (get : Act W A) (update : A -> Act W A) (n m : nat) (cur cur' a : A) (w w1 w2 : W) :
  contended get update n cur w cur' w1 -> update cur' w1 = (w2, Ok a) -> (n <= m)%nat ->
  retry_update what get update m cur w = (w2, Ok a).
Proof.
  intros Hc. revert m. induction Hc as [cur w|n cur w wa e curb wb cur' w' Hu He Hg _ IH]; intros m Ha Hm.
  - destruct m; cbn [retry_update]; by rewrite (act_bind_run _ _ w w2 (Ok a)) by (by apply try_run).
  - destruct m as [|m]; [lia|]. cbn [retry_update]. rewrite (act_bind_run _ _ w wa (Err e)) by (by apply try_run).
    rewrite He. rewrite (act_bind_run _ _ wa wb curb) by (by apply wrapping_run). apply IH; [done|lia].
Qed.

(** Concurrent writers do not defeat a renewal: when the updates of the serving
    secret meet conflicts, but no more in a row than are retried, the secret is written in
    the end, on top of the version that was read last. *)
Theorem applyTLSSecret_converges (c k : string) (n : nat) (cur cur' s : Secret) (w w1 w2 w3 : W) :
  let d := <[TLSCertKey := c]> (<[TLSPrivateKeyKey := k]> ∅) in
  let update current := Secrets_Update (with_data (with_type current SecretTypeTLS) d) in
  Secrets_Get (lc_TLSSecretName config) w = (w1, Ok cur) ->
  contended (Secrets_Get (lc_TLSSecretName config)) update n cur w1 cur' w2 -> (n <= retries)%nat ->
  update cur' w2 = (w3, Ok s) ->
  applyTLSSecret retries config c k w = (w3, Ok s).
Proof.
  intros d update Hg Hc Hn Hu. unfold applyTLSSecret, apply_object.
  rewrite (act_bind_run _ _ w w1 (Ok cur)) by (by apply try_run).
  apply wrapping_run. by eapply retry_converges.
Qed.
End Theorems.

(** ** Serving *)

Section Serving.
Context {W : Type} {X : X509} {E : @Env W X}.
Context (fuel retries : nat) (config : LifecycleConfig) (secretName : string).
Notation Proc := (@Process W X).

(** What is served was read from a certificate and its key, and once something is served
    something stays served. *)
Definition sane (p : Proc) : Prop := forall c, p_reloader p = Some c -> exists a b, X509KeyPair a b = Ok c.
Definition keeps (p p' : Proc) : Prop := (sane p -> sane p') /\ (p_reloader p <> None -> p_reloader p' <> None).

Lemma keeps_trans (p q r : Proc) : keeps p q -> keeps q r -> keeps p r.
Proof. unfold keeps. naive_solver. Qed.
Lemma keeps_advance (f : W -> W) (p : Proc) : keeps p (advance f p).
Proof. done. Qed.
Lemma keeps_report (e : error) (p : Proc) : keeps p (report e p).
Proof. done. Qed.

Lemma store_keeps (w : W) (r : result tls_Certificate) (p p' : Proc) (res : result unit) :
  (forall c, r = Ok c -> exists a b, X509KeyPair a b = Ok c) -> store_result w r p = (p', res) ->
  keeps p p' /\ (is_ok res = true -> p_reloader p' <> None).
Proof.
  intros Hr. destruct r as [c|e]; cbn; intros [= <- <-]; [|done]. split; [|done]. split; [|done].
  intros _ c' [= <-]. by apply Hr.
Qed.

Lemma refresh_keeps (p p' : Proc) (res : result unit) :
  RefreshTLSCertificateFromSecret secretName p = (p', res) -> keeps p p' /\ (is_ok res = true -> p_reloader p' <> None).
Proof.
  unfold RefreshTLSCertificateFromSecret. destruct (LoadTLSCertificateFromSecret _ _) as [w r] eqn:H.
  apply store_keeps. intros c ->. unfold LoadTLSCertificateFromSecret in H. inv_act. by eauto.
Qed.

Lemma ensureAndReload_keeps (p : Proc) : keeps p (ensureAndReload fuel retries config p).
Proof.
  unfold ensureAndReload. destruct (Ensure _ _ _ _) as [w r] eqn:H. destruct (store_result w r p) as [p' res] eqn:Hs.
  apply store_keeps in Hs as [Hk _].
  - destruct res; [done|]. by destruct (_ && _).
  - intros c ->. unfold Ensure in H. inv_act. by eauto.
Qed.

Lemma wait_keeps (events : list (@event W)) (p p' : Proc) (res : option (result unit)) :
  wait_loop secretName events p = (p', res) -> keeps p p' /\ (res = Some (Ok tt) -> p_reloader p' <> None).
Proof.
  revert p. induction events as [|ev events IH]; intros p; cbn [wait_loop];
    destruct (RefreshTLSCertificateFromSecret secretName p) as [q [?|e]] eqn:H; apply refresh_keeps in H as [Hk Hs].
  1,3: intros [= <- <-]; by auto.
  - intros [= <- <-]. done.
  - destruct ev as [f|e']; [|intros [= <- <-]; done].
    intros [Hk' ?]%IH. split; [|done]. by apply (keeps_trans p q).
Qed.

Lemma refresh_loop_keeps (events : list (@event W)) (p p' : Proc) (res : option (result unit)) :
  refresh_loop secretName events p = (p', res) -> keeps p p'.
Proof.
  revert p. induction events as [|[f|e] events IH]; intros p; cbn [refresh_loop]; [by intros [= <- <-]| |by intros [= <- <-]].
  destruct (RefreshTLSCertificateFromSecret _ _) as [q [?|e]] eqn:H; apply refresh_keeps in H as [Hk _].
  - intros Hk'%IH. by apply (keeps_trans p q).
  - intros Hk'%IH. by apply (keeps_trans p q).
Qed.

Lemma rotation_keeps (events : list (@event W)) (p p' : Proc) (res : option (result unit)) :
  rotation_events fuel retries config events p = (p', res) -> keeps p p'.
Proof.
  revert p. induction events as [|[f|e] events IH]; intros p; cbn [rotation_events]; [by intros [= <- <-]| |by intros [= <- <-]].
  intros Hk%IH. eapply keeps_trans; [|done]. apply (keeps_trans p (advance f p)); [done|]. apply ensureAndReload_keeps.
Qed.

(** Serving never stops: whatever fails in the rotation loop, in the refresh loop or
    while waiting, a certificate that is served stays until another one was read together
    with its key, and waiting ends successfully only with a certificate to serve. *)
Theorem serving_never_stops (interval : Z) (events : list (@event W)) (p p' : Proc) (res : option (result unit)) :
  (Run fuel retries config interval events p = (p', res) -> keeps p p') /\
  (RunTLSCertificateRefreshLoop secretName interval events p = (p', res) -> keeps p p') /\
  (WaitForTLSCertificateFromSecret secretName interval events p = (p', res) ->
     keeps p p' /\ (res = Some (Ok tt) -> exists c, GetCertificate (p_reloader p') = Ok c)).
Proof.
  unfold Run, RunTLSCertificateRefreshLoop, WaitForTLSCertificateFromSecret. destruct (interval <=? 0).
  { split; [|split]; intros [= <- <-]; [done..|]. by split. }
  repeat apply conj.
  - intros H%rotation_keeps. eapply keeps_trans; [apply ensureAndReload_keeps|done].
  - apply refresh_loop_keeps.
  - intros [Hk Hs]%wait_keeps. split; [done|]. intros Hr%Hs. destruct (p_reloader p') as [c|]; [by exists c|done].
Qed.
End Serving.

(** The server speaks plaintext exactly when the flag allows it and nothing is
    configured for TLS; one of two TLS files without the other is refused. *)
Theorem plaintext_only_if_allowed (c : serveConfig) :
  (serve_mode c = ServePlaintext <->
     allowInsecureHTTP c = true /\ bootstrapWebhook c = false /\ tlsCert c = "" /\ tlsKey c = "") /\
  (serve_mode c = Refused errIncompleteTLSFiles <-> ~ (tlsCert c = "" <-> tlsKey c = "")).
Proof.
  destruct c as [b cert key a]. unfold serve_mode, validateServeConfig. cbn [bootstrapWebhook tlsCert tlsKey allowInsecureHTTP].
  repeat case_bool_decide; destruct b, a; cbn; naive_solver.
Qed.
