(* ===== verification/CertificateExample.v ===== *)
(** * The certificate life cycle on a concrete cluster

    A symbolic public-key infrastructure (a signature names the key that made it) and an
    API server with optimistic concurrency, both satisfying the laws, and the theorems of
    the life cycle on them. *)

From S2P Require Import Prelude GoAct GoStrings Admission Certificates CertificateThms.

Open Scope string_scope.
Open Scope list_scope.
#[local] Open Scope Z_scope.

(** ** A symbolic infrastructure *)

#[global] Instance Certificate_eq_dec {PK} `{EqDecision PK} : EqDecision (Certificate PK).
Proof. solve_decision. Defined.

Definition semi : ascii := chr 59.
Definition bool_text (b : bool) : string := if b then "1" else "0".
Definition list_text (l : list string) : string := join (String ch_comma "") l.
Definition text_list (s : string) : list string := if bool_decide (s = "") then [] else split ch_comma s.
Definition text_int (s : string) : Z := default 0 (parse_digits 0 s).

Definition cert_text (c : Certificate string) : string :=
  join (String semi "")
    [format_int (SerialNumber c); CommonName c; list_text (DNSNames c); format_int (NotBefore c); format_int (NotAfter c);
     format_int (KeyUsage c); list_text (map format_int (ExtKeyUsage c)); bool_text (BasicConstraintsValid c);
     bool_text (IsCA c); list_text (Constraints c); default "" (cert_PublicKey c); Signature c].
Definition text_cert (s : string) : option (Certificate string) :=
  match split semi s with
  | [serial; cn; dns; nb; na; ku; eku; bc; ca; limits; pk; sig] =>
      Some (mkCertificate (text_int serial) cn (text_list dns) (text_int nb) (text_int na) (text_int ku)
              (map text_int (text_list eku)) (bool_decide (bc = "1")) (bool_decide (ca = "1")) (text_list limits) (Some pk) sig)
  | _ => None
  end.

Definition sym_parse (s : string) : result (Certificate string) :=
  match text_cert s with Some c => Ok c | None => Err (ErrNew "malformed certificate") end.
Definition strip (p s : string) : option string := if has_prefix p s then Some (drop_str (String.length p) s) else None.
Definition sym_parse_key (s : string) : result string :=
  match strip "KEY " s with Some k => Ok k | None => Err (ErrNew "malformed key") end.

Definition sym_create (template parent : Certificate string) (pk key : string) : result string :=
  let c := issued template pk key in
  let signer_ok := match cert_PublicKey parent with Some p => bool_decide (p = key) | None => true end in
  if signer_ok && bool_decide (text_cert (cert_text c) = Some c) then Ok (cert_text c) else Err (ErrNew "cannot create").

Definition sym_verify (c root : Certificate string) (name : string) (t : Z) : result unit :=
  if bool_decide (cert_PublicKey root = Some (Signature c)) && authority root && unconstrained root
     && (NotBefore root <=? t) && (t <=? NotAfter root) && (NotBefore c <=? t) && (t <=? NotAfter c)
     && bool_decide (ExtKeyUsageServerAuth ∈ ExtKeyUsage c) && bool_decide (name ∈ DNSNames c)
  then Ok tt else Err (ErrNew "certificate does not verify").

Definition sym_key_pair (c k : string) : result (string * string) :=
  match strip "PEM " c, strip "PEM " k with
  | Some c', Some k' => Ok (c', k')
  | _, _ => Err (ErrNew "cannot load key pair")
  end.

#[global] Instance Symbolic : X509 := {
  PrivateKey := string; PublicKey := string; Public k := k;
  pem_Decode := strip "PEM "; pem_Encode _ d := "PEM " +:+ d;
  ParseCertificate := sym_parse; ParsePKCS1PrivateKey := sym_parse_key; MarshalPKCS1PrivateKey k := "KEY " +:+ k;
  CreateCertificate := sym_create; Verify := sym_verify; tls_Certificate := string * string; X509KeyPair := sym_key_pair }.

Lemma strip_app (p s : string) : strip p (p +:+ s) = Some s.
Proof.
  unfold strip. assert (has_prefix p (p +:+ s) = true /\ drop_str (String.length p) (p +:+ s) = s) as [-> ->]; [|done].
  induction p as [|c p IH]; [done|]. rewrite app_cons. cbn. by rewrite bool_decide_eq_true_2.
Qed.

Lemma sym_create_ok (template parent : Certificate string) (pk key der : string) :
  sym_create template parent pk key = Ok der -> sym_parse der = Ok (issued template pk key).
Proof.
  unfold sym_create. destruct (_ && _) eqn:H; [|done]. intros [= <-].
  apply andb_true_iff in H as [_ H%bool_decide_eq_true_1]. unfold sym_parse. by rewrite H.
Qed.

#[global] Instance Symbolic_laws : X509Laws Symbolic.
Proof.
  split; cbn.
  - intros. apply strip_app.
  - intros k. unfold sym_parse_key. by rewrite (strip_app "KEY ").
  - intros template parent pk key der _ _ H. exists key. by eapply sym_create_ok.
  - intros template root c pk key der rootDER name t Hc Hp _ Hk Ha Hu [] [] _ He Hn _.
    apply sym_create_ok in Hc. rewrite Hp in Hc. injection Hc as ->. unfold sym_verify. cbn in *.
    rewrite Ha, Hu, !bool_decide_eq_true_2 by done. by rewrite !(proj2 (Z.leb_le _ _)) by done.
Qed.

(** ** An API server *)

Record World := mkWorld {
  w_clock : Z; w_counter : Z; w_secrets : gmap string Secret; w_hooks : gmap string WebhookObject; w_leases : gset string;
  (** how many more times another client writes to a secret right after it was read *)
  w_rivals : nat }.

(** Every call takes a millisecond. *)
Definition tick (w : World) : World :=
  mkWorld (w_clock w + 1000000) (w_counter w + 1) (w_secrets w) (w_hooks w) (w_leases w) (w_rivals w).
Definition version (w : World) : string := format_int (w_counter w).

Definition put_secret (s : Secret) (w : World) : World * result Secret :=
  let s' := mkSecret (s_Name s) (s_Namespace s) (s_Type s) (s_Labels s) (version w) (s_Data s) in
  (mkWorld (w_clock w) (w_counter w) (<[s_Name s := s']> (w_secrets w)) (w_hooks w) (w_leases w) (w_rivals w), Ok s').
Definition put_hook (o : WebhookObject) (w : World) : World * result WebhookObject :=
  let o' := mkWebhookObject (wo_Labels o) (version w) (wo_config o) in
  (mkWorld (w_clock w) (w_counter w) (w_secrets w) (<[mwc_name (wo_config o) := o']> (w_hooks w)) (w_leases w) (w_rivals w), Ok o').
Definition rival (n : string) (w : World) : World :=
  match w_rivals w, w_secrets w !! n with
  | S k, Some s => (put_secret s (mkWorld (w_clock w) (w_counter w) (w_secrets w) (w_hooks w) (w_leases w) k)).1
  | _, _ => w
  end.
Definition found {A} (o : option A) : result A := match o with Some a => Ok a | None => Err ErrNotFound end.

#[global] Instance Server : Env World := {
  clock := w_clock;
  GenerateKey w := (tick w, Ok ("k" +:+ format_int (w_counter w)));
  rand_Int n w := (tick w, Ok (w_counter w mod n));
  Secrets_Get n w := (rival n (tick w), found (w_secrets w !! n));
  Secrets_Create s w := match w_secrets w !! s_Name s with
                        | Some _ => (tick w, Err ErrAlreadyExists)
                        | None => put_secret s (tick w)
                        end;
  Secrets_Update s w := match w_secrets w !! s_Name s with
                        | None => (tick w, Err ErrNotFound)
                        | Some old => if bool_decide (s_ResourceVersion old = s_ResourceVersion s) then put_secret s (tick w)
                                      else (tick w, Err ErrConflict)
                        end;
  Leases_Get n w := (tick w, if bool_decide (n ∈ w_leases w) then Ok tt else Err ErrNotFound);
  Leases_Create n w := (mkWorld (w_clock w) (w_counter w) (w_secrets w) (w_hooks w) ({[ n ]} ∪ w_leases w) (w_rivals w), Ok tt);
  Webhooks_Get n w := (tick w, o ← found (w_hooks w !! n);
                               if bool_decide (mwc_name (wo_config o) = n) then Ok o else Err ErrNotFound);
  Webhooks_Create c w := match w_hooks w !! mwc_name c with
                         | Some _ => (tick w, Err ErrAlreadyExists)
                         | None => put_hook (mkWebhookObject ∅ "" c) (tick w)
                         end;
  Webhooks_Update o w := match w_hooks w !! mwc_name (wo_config o) with
                         | None => (tick w, Err ErrNotFound)
                         | Some old => if bool_decide (wo_ResourceVersion old = wo_ResourceVersion o) then put_hook o (tick w)
                                       else (tick w, Err ErrConflict)
                         end }.

Definition hooks_of (w : World) (n : string) : option WebhookObject := w_hooks w !! n.

#[global] Instance Server_laws : EnvLaws hooks_of.
Proof.
  split.
  all: try (intros; intros w; cbn; unfold rival; repeat case_match; cbn; lia).
  - intros s w w' s'. cbn. case_match; intros [= <- <-]; done.
  - intros s w w' s'. cbn. repeat case_match; intros [= <- <-]; done.
  - intros n w w' o. cbn. intros [= _ H]. inv_ok. case_bool_decide; inv_ok. done.
  - intros c w w' o. cbn. case_match; intros [= <- <-]. eexists. unfold hooks_of. cbn. by rewrite lookup_insert_eq.
  - intros o w w' o'. cbn. repeat case_match; intros [= <- <-]. eexists. unfold hooks_of. cbn. by rewrite lookup_insert_eq.
Qed.

(** ** The theorems at work *)

Definition cfg : LifecycleConfig :=
  mkLifecycleConfig "sysbox-system" "sysbox-admission" 443 "webhook-ca" "webhook-tls" "webhook-init" "sysbox-webhook-mutator" (90 * 24 * Hour).
Definition w0 : World := mkWorld 1700000000000000000 1 ∅ ∅ ∅ 0.
(** The first run generates everything, the second one finds it healthy. *)
Definition run1 : World * result (string * string) := Ensure 3 4 cfg w0.
Definition run2 : World * result (string * string) := Ensure 3 4 cfg run1.1.

Lemma pair_snd {A B} (p : A * B) (b : B) : p.2 = b -> p = (p.1, b).
Proof. intros <-. by destruct p. Qed.

Definition bundle1 : World * result CertificateBundle := GenerateCertificateBundle 3 "sysbox-admission" "sysbox-system" w0.
Definition day : Z := 24 * Hour.

Lemma renewal_on_time_witness :
  exists b, bundle1.2 = Ok b /\
  let check d := EvaluateCertificateHealth (CACertPEM b) (CAKeyPEM b) (TLSCertPEM b) (TLSKeyPEM b)
                   (mkHealthConfig "sysbox-admission" "sysbox-system" (90 * day)) (w_clock w0 + d * day) in
  check 200 = CertificateHealthy /\ check 276 <> CertificateHealthy.
Proof.
  destruct (bundle1.2) as [b|e] eqn:H; [|by vm_compute in H]. exists b. split; [done|]. cbv zeta.
  destruct (renewal_on_time 3 "sysbox-admission" "sysbox-system" b (90 * day) w0 bundle1.1) as [H1 H2];
    [vm_compute; reflexivity|vm_compute; reflexivity|vm_compute; discriminate|by apply pair_snd|].
  split; [apply H1|apply H2]; vm_compute; discriminate.
Defined.

Lemma Ensure_serves_verified_witness :
  exists cert r t, run1.2 = Ok cert /\ X509KeyPair (tlsCertPEM r) (tlsKeyPEM r) = Ok cert /\
    published (registered := hooks_of) run1.1 "sysbox-webhook-mutator" (caCertPEM r) /\ verified cfg r t.
Proof.
  destruct (run1.2) as [cert|e] eqn:H; [|by vm_compute in H].
  destruct (Ensure_serves_verified (X := Symbolic) (E := Server) (registered := hooks_of) 3 4 cfg eq_refl eq_refl cert w0 run1.1) as (r & t & Hk & Hp & _ & Hv);
    [by apply pair_snd|vm_compute; discriminate|vm_compute; discriminate|].
  exists cert, r, t. split; [reflexivity|]. split; [exact Hk|]. split; [exact Hp|exact Hv].
Defined.

Definition read2 : World * result (certificateResources * bool) := readCertificateResources cfg run1.1.
(** The second run serves the certificate of the first one. *)
Lemma ensure_minimal_witness :
  exists current, read2.2 = Ok (current, true) /\
    ensureCertificateResources 3 4 cfg run1.1 = (read2.1, Ok current) /\ run2.2 = run1.2.
Proof.
  destruct (read2.2) as [[current b]|e] eqn:H; [|by vm_compute in H].
  assert (b = true) as -> by (vm_compute in H; congruence).
  exists current. split; [done|]. split; [|vm_compute; reflexivity].
  apply (ensure_minimal 3 4 cfg current run1.1 read2.1); [by apply pair_snd|].
  vm_compute in H. injection H as <-. vm_compute. reflexivity.
Defined.

(** A rival writes to the secret once: the first update meets a conflict. *)
Definition w1 : World :=
  mkWorld 1700000000000000000 7 {[ "webhook-tls" := mkSecret "webhook-tls" "sysbox-system" "" ∅ "1" ∅ ]} ∅ ∅ 1.
Definition cur1 : Secret := mkSecret "webhook-tls" "sysbox-system" "" ∅ "1" ∅.
Definition cur2 : Secret := mkSecret "webhook-tls" "sysbox-system" "" ∅ "8" ∅.
Definition get_tls : Act World Secret := Secrets_Get "webhook-tls".
Definition update_tls (s : Secret) : Act World Secret :=
  Secrets_Update (with_data (with_type s SecretTypeTLS) (<[TLSCertKey := "c"]> (<[TLSPrivateKeyKey := "k"]> ∅))).

Lemma applyTLSSecret_converges_witness :
  exists s, (applyTLSSecret 4 cfg "c" "k" w1).2 = Ok s /\ data s TLSCertKey = "c".
Proof.
  set (wa := (get_tls w1).1). set (wb := (update_tls cur1 wa).1). set (wc := (get_tls wb).1).
  destruct ((update_tls cur2 wc).2) as [s|e] eqn:H; [|by vm_compute in H].
  exists s. split; [|vm_compute in H; injection H as <-; reflexivity].
  rewrite (applyTLSSecret_converges 4 cfg "c" "k" 1 cur1 cur2 s w1 wa wc (update_tls cur2 wc).1); [done| | |lia|by apply pair_snd].
  - apply pair_snd. vm_compute. reflexivity.
  - eapply contended_more; [apply pair_snd; vm_compute; reflexivity|reflexivity|apply pair_snd; vm_compute; reflexivity|].
    apply contended_none.
Defined.
