(* ===== verification/Contracts.v ===== *)
(** * Contracts between the components

    The webhook, the snapshotter and runc-lite each decode the rootfs annotation
    on their own.  What the webhook accepts, the other two read alike; and what it
    validates is enough for the paths the other two derive from it. *)

From S2P Require Import Prelude GoStrings GoPath GoJson GoFs GoSha.
From S2P Require Import Rootfs RootfsThms Lite LiteThms Admission AdmissionThms.

Open Scope string_scope.
Open Scope list_scope.

Definition as_pod_entry (e : RootfsRwLayerEntry) : pod_entry :=
  mkPodEntry (Admission.e_name e) (Admission.VolumeName e) (Admission.e_path e)
    (Admission.PersistentSpecialMounts e) (Admission.SpecialPath e).

Definition as_lite_entry (e : RootfsRwLayerEntry) : liteRootfsEntry :=
  mkLiteEntry (Admission.e_name e) (Admission.VolumeName e) (Admission.e_path e)
    (Admission.PersistentSpecialMounts e) (Admission.SpecialPath e).

Section Readers.
Lemma field_agrees (e e' : RootfsRwLayerEntry) (kv : string * jvalue) :
  set_field e kv = Ok e' ->
  pod_field (as_pod_entry e) kv = Ok (as_pod_entry e') /\ lite_field (as_lite_entry e) kv = Ok (as_lite_entry e').
Proof.
  destruct kv as [k v], e as [n vn p b sp]. unfold set_field, pod_field, lite_field, as_pod_entry, as_lite_entry.
  cbn [Admission.e_name Admission.VolumeName Admission.e_path Admission.PersistentSpecialMounts Admission.SpecialPath].
  change (field_matches k "Name") with (field_matches k "name").
  change (field_matches k "VolumeName") with (field_matches k "volumeName").
  change (field_matches k "Path") with (field_matches k "path").
  destruct (field_matches k "name"); [intros (x & -> & [= <-])%bind_ok; split; reflexivity|].
  destruct (field_matches k "volumeName"); [intros (x & -> & [= <-])%bind_ok; split; reflexivity|].
  destruct (field_matches k "path"); [intros (x & -> & [= <-])%bind_ok; split; reflexivity|].
  destruct (field_matches k "persistentSpecialMounts"); [intros (x & -> & [= <-])%bind_ok; split; reflexivity|].
  destruct (field_matches k "specialPath"); [intros (x & -> & [= <-])%bind_ok; split; reflexivity|done].
Qed.

Lemma fields_agree (l : list (string * jvalue)) (e e' : RootfsRwLayerEntry) :
  set_fields e l = Ok e' ->
  pod_fields (as_pod_entry e) l = Ok (as_pod_entry e') /\ lite_fields (as_lite_entry e) l = Ok (as_lite_entry e').
Proof.
  revert e. induction l as [|kv l IH]; intros e H; cbn [set_fields] in H; [by injection H as ->|].
  apply bind_ok in H as (e1 & H1 & H). apply field_agrees in H1 as [H1 H2]. apply IH in H as [H3 H4].
  cbn [pod_fields lite_fields]. by rewrite H1, H2.
Qed.

Lemma entries_agree (l : list jvalue) (es : list RootfsRwLayerEntry) :
  entries_of l = Ok es ->
  pod_entries l = Ok (map as_pod_entry es) /\ lite_entries l = Ok (map as_lite_entry es).
Proof.
  revert es. induction l as [|v l IH]; intros es H; cbn [entries_of] in H; [by injection H as <-|].
  apply bind_ok in H as (e & He & H). apply bind_ok in H as (r & Hr & H). injection H as <-.
  apply IH in Hr as [Hp Hl].
  assert (pod_entry_of v = Ok (as_pod_entry e) /\ lite_entry_of v = Ok (as_lite_entry e)) as [H1 H2].
  { destruct v; cbn in *; try done; [by injection He as <-|]. by apply fields_agree in He. }
  cbn [pod_entries lite_entries]. by rewrite H1, H2, Hp, Hl.
Qed.
End Readers.

Lemma readers_agree_l (a : gmap string string) (raw : string) (spec : PodSpec) (l : list RootfsRwLayerEntry) :
  a !! "sysbox/rootfs-rw-layer" = Some raw ->
  parseRootfsAnnotation (Some a) spec = Ok (l, true) ->
  parsePodAnnotationIntent raw = Ok (map (fun e => intent_entry (as_pod_entry e)) l) /\
  unmarshal_lite_entries raw = Ok (map as_lite_entry l).
Proof.
  intros Ha H. unfold parseRootfsAnnotation in H.
  change (map_get (Some a) Admission.AnnotationRootfsRwLayer) with (a !! "sysbox/rootfs-rw-layer") in H. rewrite Ha in H.
  apply bind_ok in H as (? & _ & H). apply bind_ok in H as ([es rest] & Hd%wrap_err_ok & H).
  apply bind_ok in H as (? & He%guard_err_ok%negb_false_iff & H).
  do 2 apply bind_ok in H as (? & _ & H). injection H as ->.
  unfold decode_entries in Hd. apply bind_ok in Hd as ([v rest'] & Hv & Hd).
  apply bind_ok in Hd as (l' & Hl & Hd). injection Hd as -> ->.
  assert (unmarshal_value raw = Ok v) as Hu.
  { unfold unmarshal_value. rewrite Hv. cbn [mbind result_bind]. by rewrite He. }
  unfold parsePodAnnotationIntent, unmarshal_entries, unmarshal_lite_entries. rewrite Hu.
  cbn [mbind result_bind]. destruct v; try done.
  - injection Hl as <-. done.
  - apply entries_agree in Hl as [-> ->]. cbn [wrap_err mbind result_bind]. by rewrite map_map.
Qed.

(** C11. The three readers of the annotation agree: when the webhook accepts an
    annotation, the snapshotter and runc-lite decode it, without error, to the
    same entries in the same order. *)
Theorem readers_agree (a : gmap string string) (raw : string) (spec : PodSpec) (l : list RootfsRwLayerEntry) :
  a !! "sysbox/rootfs-rw-layer" = Some raw ->
  parseRootfsAnnotation (Some a) spec = Ok (l, true) ->
  parsePodAnnotationIntent raw = Ok (map (fun e => intent_entry (as_pod_entry e)) l) /\
  unmarshal_lite_entries raw = Ok (map as_lite_entry l).
Proof. apply readers_agree_l. Qed.

Lemma readers_agree_witness :
  parsePodAnnotationIntent wit_annotation
    = Ok [mkIntentEntry "app" "data" "a/./b" true ["/srv//x/"; "/srv/y"] ""] /\
  unmarshal_lite_entries wit_annotation = Ok [mkLiteEntry "app" "data" "a/./b" true ["/srv//x/"; "/srv/y"]].
Proof.
  apply (readers_agree {[ Admission.AnnotationRootfsRwLayer := wit_annotation ]} wit_annotation wit_spec [wit_entry]).
  - reflexivity.
  - vm_compute. reflexivity.
Defined.

(** ** Special mounts stay on the volume *)

Lemma Join_special (pvc : string) (p : string) :
  IsAbs pvc = true -> IsAbs p = false -> ".." ∉ comps false p ->
  Join [pvc; Clean p; "special"] = render true (comps true pvc ++ comps false p ++ ["special"]).
Proof.
  intros Hp Ha Hd. assert (Forall good (comps false p)) as Hg by (apply (norm_no_dotdot false); [apply comps_norm|done]).
  transitivity (Join [pvc; Clean p +:+ slash +:+ "special"]); [cbn [Join]; by rewrite !(bool_decide_eq_false_2 (pvc = "")) by (by intros ->)|].
  apply Join_good; [done| |].
  - apply Forall_snoc_2; [done|by vm_compute].
  - intros stk. unfold slash. rewrite app_cons, app_empty_l, split_app_sep, fold_left_app, rev_app_distr.
    cbn [split split_func]. assert (Clean p = render false (comps false p)) as ->.
    { unfold Clean. rewrite Ha. case_bool_decide; [by subst|done]. }
    enough (fold_left (comp_step true) (split ch_slash (render false (comps false p))) stk
      = rev (comps false p) ++ stk) as -> by done.
    unfold render. case_bool_decide as E; [by rewrite E|]. unfold slash.
    rewrite split_join; [by apply fold_good|done|]. by eapply norm_parts, (good_norm true).
Qed.

Lemma special_source_below (pvc root dest : string) :
  below pvc root -> IsAbs dest = true -> below pvc (special_source root dest).
Proof.
  intros (names & Hg & ->) Hd. unfold special_source. rewrite Clean_abs by done. unfold render at 2.
  rewrite trim_prefix_app. set (cs := comps true dest).
  assert (Forall good cs) as Hcs by (apply norm_true_good, comps_norm).
  exists (names ++ cs). split; [by apply Forall_app|]. rewrite app_assoc.
  rewrite (Join_good _ _ cs); [by rewrite comps_below| |done|];
    [apply has_prefix_app|]. intros stk. destruct cs as [|c l]; [done|].
  unfold slash. rewrite split_join; [by apply fold_good|done|]. by eapply norm_parts, (good_norm true).
Qed.

Lemma builtin_special_abs : Forall (fun d => IsAbs d = true) liteSpecialPaths.
Proof. by repeat constructor. Qed.

(** End to end: for a pod the webhook accepted, every mount
    [addLiteSpecialMounts] appends has its source on the PVC of the handoff, at or
    below the mount path, although runc-lite does not check the annotation's paths
    itself. *)
Theorem special_mounts_on_volume (f f' : fs) (spec spec' : OciSpec) (id raw : string)
    (a : gmap string string) (pod : PodSpec) (l : list RootfsRwLayerEntry) :
  a !! "sysbox/rootfs-rw-layer" = Some raw -> parseRootfsAnnotation (Some a) pod = Ok (l, true) ->
  map_index (OAnnotations spec) liteRootfsAnnotation = raw ->
  addLiteSpecialMounts f spec id = (f', spec', Ok tt) ->
  exists extra, appends spec spec' extra /\
    Forall (fun m => exists h, lh_SnapshotKey h = id /\
      lh_ContainerName h = map_index (OAnnotations spec) liteContainerName /\
      (IsAbs (lh_PVCMountPath h) = true -> below (lh_PVCMountPath h) (MSource m))) extra.
Proof.
  intros Ha Hp Hraw Hadd. pose proof (readers_agree_l _ _ _ _ Ha Hp) as [_ Hl].
  destruct (addLite_ok _ _ _ _ _ Hadd) as (extra & entries & Happ & Ho & _ & Hent).
  exists extra. split; [done|]. rewrite Hraw in Hent.
  assert (raw <> "") as Hne. { intros ->. by vm_compute in Hl. }
  rewrite Hl in Hent. assert (entries = map as_lite_entry l) as -> by (specialize (Hent Hne); congruence).
  pose proof (parseRootfsAnnotation_entries _ _ _ Hp) as [_ Hval].
  apply validateEntries_safe in Hval as (Hsafe & _ & _). rewrite Forall_forall in Hsafe.
  eapply Forall_impl; [exact Ho|]. intros m (e & h & d & Hin & _ & _ & Hc & _ & Hk & Hd & ->).
  exists h. split_and!; [done..|]. intros Habs. cbn [MSource special_mount].
  apply list_elem_of_fmap in Hin as (e0 & -> & He0). destruct (Hsafe _ He0) as [_ _ _ [Hrel Hdd] Hsp _ _].
  apply special_source_below.
  - unfold special_root. cbn [le_Path as_lite_entry]. rewrite Join_special by done.
    eexists. split; [|done]. apply Forall_snoc_2; [|by vm_compute].
    apply (norm_no_dotdot false); [apply comps_norm|done].
  - apply elem_of_app in Hd as [Hd|Hd]; [|by eapply Forall_forall in Hsp].
    pose proof builtin_special_abs as Hb. by eapply Forall_forall in Hb.
Qed.

Definition wit_e2e_spec : OciSpec :=
  mkOciSpec (Some "/img") [] (Some {[ liteRootfsAnnotation := wit_annotation; liteContainerName := "app" ]}).

Lemma special_mounts_on_volume_witness :
  let run := addLiteSpecialMounts wit_lite_fs wit_e2e_spec "snap-7" in
  map MSource (Mounts run.1.2) !! 6 = Some "/pvc/vol/a/b/special/srv/x" /\
  exists extra, appends wit_e2e_spec run.1.2 extra /\ length extra = 8.
Proof.
  intros run. split; [vm_compute; reflexivity|].
  destruct (special_mounts_on_volume wit_lite_fs run.1.1 wit_e2e_spec run.1.2 "snap-7" wit_annotation
    {[ Admission.AnnotationRootfsRwLayer := wit_annotation ]} wit_spec [wit_entry]) as (extra & Ha & _).
  - reflexivity.
  - vm_compute. reflexivity.
  - vm_compute. reflexivity.
  - assert (run.2 = Ok tt) as Hr by (vm_compute; reflexivity).
    rewrite <- Hr. subst run. by destruct (addLiteSpecialMounts _ _ _) as [[? ?] ?].
  - exists extra. split; [exact Ha|]. apply (f_equal (fun s => length (Mounts s))) in Ha.
    assert (length (Mounts run.1.2) = 8) as Hl by (vm_compute; reflexivity). rewrite Hl in Ha. cbn in Ha. lia.
Defined.
