(* ===== verification/SnapshotMounts.v ===== *)
(** * Mounts of the snapshotter: the mount-building half of fuseoverlayfs.go

    The mounts of a snapshot, the rootfs hook that moves the writable layer of a
    configured container to its PVC, and the option rewriting.  The hook's
    collaborators are interfaces in the source; here they are functions, absent
    when the interface is nil, over the file tree the preparer and the handoff
    store change. *)

From S2P Require Import Prelude GoStrings GoPath GoFs Rootfs.

Open Scope string_scope.
Open Scope list_scope.

Inductive Kind := KindView | KindActive | KindCommitted.

#[global] Instance Kind_eq_dec : EqDecision Kind.
Proof. solve_decision. Defined.

(** [storage.Snapshot] and the labels of [snapshots.Info] *)
Record Snapshot := mkSnapshot { s_Kind : Kind; ID : string; ParentIDs : list string }.
Record Info := mkInfo { i_Kind : Kind; i_Labels : gomap }.

(** containerd's [mount.Mount] *)
Record CMount := mkCMount { cm_Type : string; cm_Source : string; cm_Options : list string }.

#[global] Instance CMount_eq_dec : EqDecision CMount.
Proof. solve_decision. Defined.

Definition fuseoverlayfsBinary : string := "fuse-overlayfs".
Definition fuseType : string := "fuse3." +:+ fuseoverlayfsBinary.

Definition convertIDMappingOption (label : string) : string := replace_char ch_comma ch_colon label.

Definition upperPath (root id : string) : string := Join [root; "snapshots"; id; "fs"].
Definition workPath (root id : string) : string := Join [root; "snapshots"; id; "work"].

(** ** The hook *)

Record RootfsHooks := mkHooks {
  IdentityResolver : option (string -> result RootfsRwLayerRequest);
  MetadataResolver : option (RootfsRwLayerRequest -> result RootfsRwLayerSpec);
  PVCResolver : option (RootfsRwLayerRequest -> RootfsRwLayerSpec -> result string);
  Preparer : option (fs -> PrepareRootfsRequest -> fs * result PreparedRootfs);
  HandoffWrite : option (fs -> PersistentSpecialHandoff -> fs * result unit);
  HandoffRemove : option (fs -> string -> fs * result unit) }.

Definition rewrite_option (type upperDir workDir option : string) : string :=
  if bool_decide (type = fuseType) && has_prefix "upperdir=" option then "upperdir=" +:+ upperDir
  else if bool_decide (type = fuseType) && has_prefix "workdir=" option then "workdir=" +:+ workDir
  else option.

Definition rewriteFuseOverlayMounts (mounts : list CMount) (upperDir workDir : string) : list CMount :=
  map (fun m => mkCMount (cm_Type m) (cm_Source m)
                  (map (rewrite_option (cm_Type m) upperDir workDir) (cm_Options m))) mounts.

Definition handoff_for (request : RootfsRwLayerRequest) (spec : RootfsRwLayerSpec) (pvcMountPath : string)
    : PersistentSpecialHandoff :=
  mkHandoff 1 (rq_SnapshotKey request) (rq_PodUID request) (rq_ContainerName request) (VolumeName spec) pvcMountPath.

(** The part of the hook after the layer is prepared. *)
Definition publish (hooks : RootfsHooks) (f : fs) (request : RootfsRwLayerRequest) (spec : RootfsRwLayerSpec)
    (pvcMountPath : string) (prepared : PreparedRootfs) (mounts : list CMount) : fs * result (list CMount) :=
  let done f := (f, Ok (rewriteFuseOverlayMounts mounts (UpperDir prepared) (WorkDir prepared))) in
  if PersistentSpecialMounts spec then
    match HandoffWrite hooks with
    | None => (f, Err (ErrNew "persistent special handoff store is not configured"))
    | Some write =>
        match write f (handoff_for request spec pvcMountPath) with
        | (f', Err e) => (f', Err e)
        | (f', Ok _) => done f'
        end
    end
  else done f.

Definition applyRootfsHook (hooks : RootfsHooks) (f : fs) (snapshotKey : string) (mounts : list CMount)
    : fs * result (list CMount) :=
  match IdentityResolver hooks, MetadataResolver hooks, PVCResolver hooks, Preparer hooks with
  | Some identity, Some metadata, Some pvc, Some preparer =>
      match identity snapshotKey with
      | Err e => (f, if errors_is e ErrContainerIdentityUnavailable then Ok mounts else Err e)
      | Ok request =>
          match metadata request with
          | Err e => (f, if errors_is e ErrRootfsRwLayerNotConfigured then Ok mounts else Err e)
          | Ok spec =>
              if Sidecar spec then (f, Ok mounts) else
              match pvc request spec with
              | Err e => (f, Err e)
              | Ok pvcMountPath =>
                  match preparer f (mkPrepare (rq_SnapshotKey request) (rq_PodUID request)
                                      (rq_ContainerName request) (Path spec) pvcMountPath) with
                  | (f', Err e) => (f', Err e)
                  | (f', Ok prepared) => publish hooks f' request spec pvcMountPath prepared mounts
                  end
              end
          end
      end
  | _, _, _, _ => (f, Ok mounts)
  end.

(** ** Mounts of a snapshot *)

Definition bind_mount (source flag : string) : CMount := mkCMount "bind" source [flag; "rbind"].

Definition idMappingOptions (labels : gomap) : list string :=
  (match default ∅ labels !! "containerd.io/snapshot/uidmapping" with
   | Some m => ["uidmapping=" +:+ convertIDMappingOption m] | None => [] end)
  ++ (match default ∅ labels !! "containerd.io/snapshot/gidmapping" with
      | Some m => ["gidmapping=" +:+ convertIDMappingOption m] | None => [] end).

Definition overlay_options (root : string) (s : Snapshot) (info : Info) : list string :=
  (if bool_decide (s_Kind s = KindActive)
   then ["workdir=" +:+ workPath root (ID s); "upperdir=" +:+ upperPath root (ID s)] else [])
  ++ ["lowerdir=" +:+ join (String ch_colon "") (map (upperPath root) (ParentIDs s))]
  ++ (if bool_decide (idMappingOptions (i_Labels info) = []) then []
      else ["nodev," +:+ join (String ch_comma "") (idMappingOptions (i_Labels info))]).

(** What [mounts] builds before any hook runs; [inr] mounts are final. *)
Definition plain_mounts (root : string) (s : Snapshot) (info : Info) : list CMount + list CMount :=
  match ParentIDs s with
  | [] => inr [bind_mount (upperPath root (ID s)) (if bool_decide (s_Kind s = KindView) then "ro" else "rw")]
  | p :: ps =>
      if negb (bool_decide (s_Kind s = KindActive)) && bool_decide (ps = [])
      then inr [bind_mount (upperPath root p) "ro"]
      else inl [mkCMount fuseType "overlay" (overlay_options root s info)]
  end.

Definition runningInNestedUserNS (uid_map : result string) : bool :=
  match uid_map with
  | Err _ => false
  | Ok b =>
      match fields b with
      | f0 :: f1 :: _ :: _ =>
          if negb (bool_decide (f0 = "0")) then false else
          match parse_uint 32 f1 with Ok hostID => negb (hostID =? 0)%Z | Err _ => false end
      | _ => false
      end
  end.

(** The last upperdir and workdir options of the list. *)
Fixpoint scan_options (upper work : string) (options : list string) : string * string :=
  match options with
  | [] => (upper, work)
  | o :: l =>
      if has_prefix "upperdir=" o then scan_options (trim_prefix o "upperdir=") work l
      else if has_prefix "workdir=" o then scan_options upper (trim_prefix o "workdir=") l
      else scan_options upper work l
  end.

Definition materializedRootfsPaths (mounts : list CMount) : result (string * string) :=
  match mounts with
  | [m] =>
      if negb (bool_decide (cm_Type m = fuseType)) then Err (ErrNew "expected one active fuse-overlayfs mount") else
      let '(upper, work) := scan_options "" "" (cm_Options m) in
      if bool_decide (upper = "") || bool_decide (work = "")
      then Err (ErrNew "active fuse-overlayfs mount has no upperdir or workdir") else Ok (upper, work)
  | _ => Err (ErrNew "expected one active fuse-overlayfs mount")
  end.
