(* ===== verification/Snapshotter.v ===== *)
(** * The snapshotter's state: the rest of fuseoverlayfs.go

    The state of the snapshotter is the metadata database of containerd's
    [storage] package (an interface here, [MetaStore]), the directories below
    <root>/snapshots by name, and what the hooks change.  Operations are state
    transformers that may fail; every system call consults a stream of faults, so
    that a statement for all streams covers every error path.  A write
    transaction works on a copy of the database that [Commit] publishes. *)

From S2P Require Import Prelude GoStrings GoPath GoFs Rootfs SnapshotMounts.

Open Scope string_scope.
Open Scope list_scope.

(** ** The metadata store *)

Record Usage := mkUsage { u_Inodes : Z; u_Size : Z }.

(** The operations of [storage] on a database; the options of a call are the
    change they make to the snapshot's info. *)
Class MetaStore (DB : Type) := {
  CreateSnapshot : DB -> Kind -> string -> string -> (Info -> Info) -> result (DB * Snapshot);
  GetSnapshot : DB -> string -> result Snapshot;
  GetInfo : DB -> string -> result (string * Info * Usage);
  UpdateInfo : DB -> string -> Info -> list string -> result (DB * Info);
  CommitActive : DB -> string -> string -> Usage -> (Info -> Info) -> result DB;
  RemoveKey : DB -> string -> result DB;
  IDMap : DB -> gset string }.

(** What a snapshot directory holds. *)
Record SnapDir := mkSnapDir { has_fs : bool; has_work : bool; has_merged : bool }.

#[global] Instance SnapDir_eq_dec : EqDecision SnapDir.
Proof. solve_decision. Defined.

(** [tx] is the write transaction in progress, [readers] the read transactions
    not yet ended; [mounted] are the temporary merged mounts in place, [copied]
    the rootfs trees copied so far and [markers] the work directories that carry
    the materialization marker. *)
Record World (DB : Type) := mkWorld {
  db : DB; tx : option DB; readers : nat; dirs : gmap string SnapDir; tree : fs;
  mounted : gset string; copied : list (string * string); markers : gset string; clock : nat }.
Arguments mkWorld {DB} _ _ _ _ _ _ _ _ _.
Arguments db {DB} _.
Arguments tx {DB} _.
Arguments readers {DB} _.
Arguments dirs {DB} _.
Arguments tree {DB} _.
Arguments mounted {DB} _.
Arguments copied {DB} _.
Arguments markers {DB} _.
Arguments clock {DB} _.

(** The configured snapshotter and its surroundings. *)
Record Config := mkConfig {
  c_root : string; asyncRemove : bool; rootfsHooks : RootfsHooks;
  uid_map : result string; fault : nat -> option error; random : nat -> string; disk_usage : nat -> Usage }.

(** State and error. *)
Definition M (DB A : Type) : Type := World DB -> World DB * result A.

#[global] Instance M_ret (DB : Type) : MRet (M DB) := fun A a w => (w, Ok a).
#[global] Instance M_bind (DB : Type) : MBind (M DB) := fun A B k m w =>
  match m w with (w', Ok a) => k a w' | (w', Err e) => (w', Err e) end.
Definition throw {DB A} (e : error) : M DB A := fun w => (w, Err e).
(** The outcome as a value. *)
Definition try {DB A} (m : M DB A) : M DB (result A) := fun w => let '(w', r) := m w in (w', Ok r).
Definition lift {DB A} (r : result A) : M DB A := fun w => (w, r).
Definition get {DB} : M DB (World DB) := fun w => (w, Ok w).

Section Ops.
Context {DB : Type} `{MetaStore DB} (cfg : Config).

(** A system call that only succeeds or fails. *)
Definition sys : M DB unit := fun w =>
  (mkWorld (db w) (tx w) (readers w) (dirs w) (tree w) (mounted w) (copied w) (markers w) (S (clock w)),
   match fault cfg (clock w) with Some e => Err e | None => Ok tt end).

Definition set_dirs (d : gmap string SnapDir) : M DB unit := fun w =>
  (mkWorld (db w) (tx w) (readers w) d (tree w) (mounted w) (copied w) (markers w) (clock w), Ok tt).
Definition set_tx (t : option DB) : M DB unit := fun w =>
  (mkWorld (db w) t (readers w) (dirs w) (tree w) (mounted w) (copied w) (markers w) (clock w), Ok tt).
Definition set_mounted (s : gset string) : M DB unit := fun w =>
  (mkWorld (db w) (tx w) (readers w) (dirs w) (tree w) s (copied w) (markers w) (clock w), Ok tt).

(** *** Transactions *)

(** [TransactionContext(ctx, true)] *)
Definition begin_write : M DB unit := _ ← sys; w ← get; set_tx (Some (db w)).
Definition Rollback : M DB unit := set_tx None.
Definition publish_db (d : DB) : M DB unit := fun w =>
  (mkWorld d None (readers w) (dirs w) (tree w) (mounted w) (copied w) (markers w) (clock w), Ok tt).
(** [Commit]: publishes the copy, or fails and drops it. *)
Definition CommitTx : M DB unit :=
  r ← try sys;
  w ← get;
  match r, tx w with
  | Ok _, Some d => publish_db d
  | Ok _, None => throw (ErrNew "tx closed")
  | Err e, _ => _ ← set_tx None; throw e
  end.

Definition set_readers (n : nat) : M DB unit := fun w =>
  (mkWorld (db w) (tx w) n (dirs w) (tree w) (mounted w) (copied w) (markers w) (clock w), Ok tt).
Definition begin_read : M DB unit := _ ← sys; w ← get; set_readers (S (readers w)).
Definition end_read : M DB unit := w ← get; set_readers (pred (readers w)).

(** A write to the copy of the transaction. *)
Definition tx_db : M DB DB := w ← get;
  match tx w with Some d => mret d | None => throw (ErrNew "tx closed") end.

(** *** Directories below <root>/snapshots *)

Definition RemoveAllDir (name : string) : M DB unit :=
  _ ← sys; w ← get; set_dirs (delete name (dirs w)).

Definition MkdirTemp : M DB string :=
  w ← get;
  let name := "new-" +:+ random cfg (clock w) in
  _ ← sys;
  w ← get;
  if bool_decide (is_Some (dirs w !! name)) then throw ErrExist
  else _ ← set_dirs (<[name := mkSnapDir false false false]> (dirs w)); mret name.

Definition upd_dir (name : string) (g : SnapDir -> SnapDir) : M DB unit :=
  _ ← sys; w ← get;
  match dirs w !! name with
  | Some d => set_dirs (<[name := g d]> (dirs w))
  | None => throw ErrNotExist
  end.

(** [os.Rename] of one directory to a new name; a directory there is an error. *)
Definition RenameDir (old new : string) : M DB unit :=
  _ ← sys; w ← get;
  match dirs w !! new, dirs w !! old with
  | Some _, _ => throw ErrExist
  | None, Some d => set_dirs (<[new := d]> (delete old (dirs w)))
  | None, None => throw ErrNotExist
  end.

(** [os.Stat] of the fs directory of a snapshot. *)
Definition StatUpper (id : string) : M DB unit :=
  _ ← sys; w ← get;
  match dirs w !! id with
  | Some d => if has_fs d then mret tt else throw ErrNotExist
  | None => throw ErrNotExist
  end.

(** [fs.DiskUsage] of the upper directory. *)
Definition DiskUsage (id : string) : M DB Usage :=
  _ ← StatUpper id; w ← get; mret (disk_usage cfg (clock w)).

(** *** Mounts *)

Definition run_hook (key : string) (ms : list CMount) : M DB (list CMount) := fun w =>
  let '(f, r) := applyRootfsHook (rootfsHooks cfg) (tree w) key ms in
  (mkWorld (db w) (tx w) (readers w) (dirs w) f (mounted w) (copied w) (markers w) (clock w), r).

(** [m], then [fin] whatever [m] returned, as a deferred call. *)
Definition finally {A} (m : M DB A) (fin : M DB unit) : M DB A := r ← try m; _ ← fin; lift r.

Definition stat_marker (work : string) : M DB unit :=
  _ ← sys; w ← get; if bool_decide (work ∈ markers w) then mret tt else throw ErrNotExist.
Definition add_marker (work : string) : M DB unit := fun w =>
  (mkWorld (db w) (tx w) (readers w) (dirs w) (tree w) (mounted w) (copied w) ({[ work ]} ∪ markers w) (clock w), Ok tt).
Definition set_marker (work : string) : M DB unit := _ ← sys; add_marker work.
Definition mkdir_merged (id : string) : M DB unit :=
  _ ← sys; w ← get;
  let d := default (mkSnapDir false false false) (dirs w !! id) in
  set_dirs (<[id := mkSnapDir (has_fs d) (has_work d) true]> (dirs w)).
Definition mount_merged (id : string) : M DB unit := _ ← sys; w ← get; set_mounted ({[ id ]} ∪ mounted w).
(** [mount.UnmountAll], its error only logged. *)
Definition unmount_merged (id : string) : M DB unit :=
  r ← try sys; w ← get; match r with Ok _ => set_mounted (mounted w ∖ {[ id ]}) | Err _ => mret tt end.
Definition add_copy (upper id : string) : M DB unit := fun w =>
  (mkWorld (db w) (tx w) (readers w) (dirs w) (tree w) (mounted w) (copied w ++ [(upper, id)]) (markers w) (clock w), Ok tt).
Definition copy_dir (upper id : string) : M DB unit := _ ← sys; add_copy upper id.

Definition wrap_m {A} (text : string) (m : M DB A) : M DB A := fun w => let '(w', r) := m w in (w', wrap_err text r).

Definition materializeActiveSnapshot (snapshotID upper work : string) : M DB unit :=
  r ← try (stat_marker work);
  match r with
  | Ok _ => mret tt
  | Err e =>
      if negb (os_IsNotExist e) then throw (ErrWrap "stat rootfs materialization marker" e) else
      _ ← wrap_m "create temporary merged rootfs" (mkdir_merged snapshotID);
      _ ← wrap_m "mount temporary merged rootfs" (mount_merged snapshotID);
      finally (_ ← wrap_m "materialize active rootfs" (copy_dir upper snapshotID);
               wrap_m "write rootfs materialization marker" (set_marker work))
        (unmount_merged snapshotID)
  end.

Definition mounts_ (key : string) (s : Snapshot) (info : Info) : M DB (list CMount) :=
  match plain_mounts (c_root cfg) s info with
  | inr ms => mret ms
  | inl ms =>
      if bool_decide (s_Kind s = KindActive) && runningInNestedUserNS (uid_map cfg) then
        rewritten ← run_hook key ms;
        '(upper, work) ← lift (materializedRootfsPaths rewritten);
        _ ← materializeActiveSnapshot (ID s) upper work;
        mret [mkCMount "bind" upper ["rw"; "rbind"]]
      else if negb (bool_decide (s_Kind s = KindActive)) then mret ms
      else run_hook key ms
  end.

(** *** Read operations *)

Definition StatKey (key : string) : M DB Info :=
  _ ← begin_read;
  w ← get;
  finally ('(_, info, _) ← lift (GetInfo (db w) key); mret info) end_read.

Definition Usage_ (key : string) : M DB Usage :=
  _ ← begin_read;
  w ← get;
  _ ← end_read;
  '(id, info, usage) ← lift (GetInfo (db w) key);
  if bool_decide (i_Kind info = KindActive) then DiskUsage id else mret usage.

(** The read transaction is ended only once [GetSnapshot] has succeeded. *)
Definition Mounts_ (key : string) : M DB (list CMount) :=
  _ ← begin_read;
  w ← get;
  s ← lift (GetSnapshot (db w) key);
  _ ← end_read;
  '(_, info, _) ← wrap_m "failed to get active mount" (lift (GetInfo (db w) key));
  mounts_ key s info.

(** *** Write operations *)

Definition Update (key : string) (info : Info) (fieldpaths : list string) : M DB Info :=
  _ ← begin_write;
  d ← tx_db;
  match UpdateInfo d key info fieldpaths with
  | Err e => _ ← Rollback; throw e
  | Ok (d', info') => _ ← set_tx (Some d'); _ ← CommitTx; mret info'
  end.

(** [m] with the transaction rolled back when it fails. *)
Definition rollback_on_err {A} (m : M DB A) : M DB A :=
  r ← try m; match r with Ok a => mret a | Err e => _ ← Rollback; throw e end.

Definition Commit (name key : string) (opts : Info -> Info) : M DB unit :=
  _ ← begin_write;
  rollback_on_err (
    d ← tx_db;
    '(id, _, _) ← lift (GetInfo d key);
    usage ← DiskUsage id;
    d' ← wrap_m "failed to commit snapshot" (lift (CommitActive d key name usage opts));
    _ ← set_tx (Some d');
    CommitTx).

Definition getCleanupDirectories : M DB (list string) :=
  d ← tx_db;
  _ ← sys;
  _ ← sys;
  w ← get;
  mret (filter (fun n => n ∉ IDMap d) (elements (dom (dirs w)))).

(** Failures to remove a directory are only logged. *)
Fixpoint remove_dirs (names : list string) : M DB unit :=
  match names with
  | [] => mret tt
  | n :: l => _ ← try (RemoveAllDir n); remove_dirs l
  end.

Definition remove_handoffs (keys : list string) : M DB unit := fun w =>
  (mkWorld (db w) (tx w) (readers w) (dirs w)
     (match HandoffRemove (rootfsHooks cfg) with
      | Some rm => fold_left (fun f k => (rm f k).1) keys (tree w)
      | None => tree w
      end) (mounted w) (copied w) (markers w) (clock w), Ok tt).

Definition handoff_keys (key : string) : list string :=
  if bool_decide (Base key = key) then [key] else [key; Base key].

Definition Remove (key : string) : M DB unit :=
  _ ← begin_write;
  removals ← rollback_on_err (
    d ← tx_db;
    d' ← wrap_m "failed to remove" (lift (RemoveKey d key));
    _ ← set_tx (Some d');
    removals ← (if asyncRemove cfg then mret []
                else wrap_m "unable to get directories for removal" getCleanupDirectories);
    _ ← CommitTx;
    mret removals);
  _ ← remove_handoffs (handoff_keys key);
  remove_dirs removals.

Definition cleanupDirectories : M DB (list string) :=
  _ ← begin_write; finally getCleanupDirectories Rollback.

Definition Cleanup : M DB unit := cleanup ← cleanupDirectories; remove_dirs cleanup.

(** [prepareDirectory]: the new directory, if it was created, and the error. *)
Definition prepareDirectory (kind : Kind) : M DB (option string * option error) :=
  r ← try MkdirTemp;
  match r with
  | Err e => mret (None, Some (ErrWrap "failed to create temp dir" e))
  | Ok td =>
      r ← try (upd_dir td (fun d => mkSnapDir true (has_work d) (has_merged d)));
      match r with
      | Err e => mret (Some td, Some e)
      | Ok _ =>
          if bool_decide (kind = KindActive) then
            r ← try (upd_dir td (fun d => mkSnapDir (has_fs d) true (has_merged d)));
            mret (Some td, match r with Err e => Some e | Ok _ => None end)
          else mret (Some td, None)
      end
  end.

(** The deferred reclaim of the temporary and of the final directory, on error [e]. *)
Definition reclaim {A} (td path : option string) (e : error) : M DB A :=
  _ ← (match td with Some d => _ ← try (RemoveAllDir d); mret tt | None => mret tt end);
  match path with
  | None => throw e
  | Some p => r ← try (RemoveAllDir p);
              match r with Ok _ => throw e | Err _ => throw (ErrWrap "failed to remove path" e) end
  end.

(** Inside the transaction, up to the rename: the snapshot and its id as a
    directory name; [inl] carries the error and whether the rename was tried. *)
Definition install (kind : Kind) (key parent : string) (opts : Info -> Info) (td : string)
    : M DB (error * option string + Snapshot) :=
  d ← tx_db;
  match CreateSnapshot d kind key parent opts with
  | Err e => mret (inl (ErrWrap "failed to create snapshot" e, None))
  | Ok (d', s) =>
      _ ← set_tx (Some d');
      r ← (match ParentIDs s with
           | [] => mret (Ok tt)
           | p :: _ => try (_ ← wrap_m "failed to stat parent" (StatUpper p); wrap_m "failed to chown" sys)
           end);
      match r with
      | Err e => mret (inl (e, None))
      | Ok _ =>
          r ← try (wrap_m "failed to rename" (RenameDir td (ID s)));
          match r with
          | Err e => mret (inl (e, Some (ID s)))
          | Ok _ => mret (inr s)
          end
      end
  end.

Definition createSnapshot (kind : Kind) (key parent : string) (opts : Info -> Info) : M DB (list CMount) :=
  _ ← begin_write;
  '(td, err) ← prepareDirectory kind;
  match td, err with
  | _, Some e => _ ← Rollback; reclaim td None (ErrWrap "failed to create prepare snapshot dir" e)
  | None, None => mret [] (* not reached: without an error there is a directory *)
  | Some td, None =>
      r ← install kind key parent opts td;
      match r with
      | inl (e, path) => _ ← Rollback; reclaim (Some td) path e
      | inr s =>
          d ← tx_db;
          let info := match GetInfo d key with Ok (_, info, _) => info | Err _ => mkInfo KindView None end in
          r ← try (wrap_m "commit failed" CommitTx);
          match r with
          | Err e => reclaim None (Some (ID s)) e
          | Ok _ =>
              r ← try (mounts_ key s info);
              match r with
              | Err e => reclaim None (Some (ID s)) e
              | Ok ms => mret ms
              end
          end
      end
  end.

Definition Prepare (key parent : string) (opts : Info -> Info) : M DB (list CMount) :=
  createSnapshot KindActive key parent opts.
Definition View (key parent : string) (opts : Info -> Info) : M DB (list CMount) :=
  createSnapshot KindView key parent opts.
End Ops.
