(* ===== verification/SnapshotterThms.v ===== *)
(** * Correctness of the snapshotter

    The invariant that every snapshot in the database has its directory, under
    every stream of faults; the operation and the circumstances that break it;
    what cleanup removes; and the at-most-once materialization of a rootfs. *)

From S2P Require Import Prelude GoStrings GoPath GoFs Rootfs SnapshotMounts Snapshotter.

Open Scope string_scope.
Open Scope list_scope.

(** ** What the metadata store promises *)

Class MetaStoreLaws (DB : Type) `{MetaStore DB} := {
  create_ids : forall d k key p o d' s, CreateSnapshot d k key p o = Ok (d', s) ->
      IDMap d' = {[ ID s ]} ∪ IDMap d /\ ID s ∉ IDMap d;
  create_info : forall d k key p o d' s, CreateSnapshot d k key p o = Ok (d', s) ->
      s_Kind s = k /\ exists info u, GetInfo d' key = Ok (ID s, info, u);
  commit_ids : forall d key name u o d', CommitActive d key name u o = Ok d' -> IDMap d' = IDMap d;
  update_ids : forall d key i l d' i', UpdateInfo d key i l = Ok (d', i') -> IDMap d' = IDMap d;
  remove_ids : forall d key d', RemoveKey d key = Ok d' -> IDMap d' ⊆ IDMap d }.

(** ** Triples *)

Definition triple {DB A} (P : World DB -> Prop) (m : M DB A) (Q : result A -> World DB -> Prop) : Prop :=
  forall w, P w -> Q (m w).2 (m w).1.

Section Rules.
Context {DB : Type}.

Lemma triple_bind {A B} (P : World DB -> Prop) (m : M DB A) (k : A -> M DB B) R Q :
  triple P m (fun r w => match r with Ok a => R a w | Err e => Q (Err e) w end) ->
  (forall a, triple (R a) (k a) Q) -> triple P (mbind k m) Q.
Proof.
  intros Hm Hk w Hw. specialize (Hm w Hw). unfold mbind, M_bind. destruct (m w) as [w' [a|e]]; cbn in *.
  - by apply Hk.
  - done.
Qed.

Lemma triple_ret {A} (P : World DB -> Prop) (a : A) Q : (forall w, P w -> Q (Ok a) w) -> triple P (mret a) Q.
Proof. intros H w Hw. by apply H. Qed.

Lemma triple_throw {A} (P : World DB -> Prop) (e : error) (Q : result A -> World DB -> Prop) :
  (forall w, P w -> Q (Err e) w) -> triple P (throw e) Q.
Proof. intros H w Hw. by apply H. Qed.

Lemma triple_lift {A} (P : World DB -> Prop) (r : result A) Q : (forall w, P w -> Q r w) -> triple P (lift r) Q.
Proof. intros H w Hw. by apply H. Qed.

Lemma triple_try {A} (P : World DB -> Prop) (m : M DB A) (Q : result (result A) -> World DB -> Prop) :
  triple P m (fun r w => Q (Ok r) w) -> triple P (try m) Q.
Proof. intros H w Hw. specialize (H w Hw). unfold try. by destruct (m w). Qed.

Lemma triple_weaken {A} (P P' : World DB -> Prop) (m : M DB A) Q Q' :
  triple P m Q -> (forall w, P' w -> P w) -> (forall r w, Q r w -> Q' r w) -> triple P' m Q'.
Proof. intros H HP HQ w Hw. by apply HQ, H, HP. Qed.

Lemma triple_get (P : World DB -> Prop) Q : (forall w, P w -> Q (Ok w) w) -> triple P get Q.
Proof. intros H w Hw. by apply H. Qed.

Lemma triple_wrap {A} (P : World DB -> Prop) (t : string) (m : M DB A) Q :
  triple P m (fun r w => Q (wrap_err t r) w) -> triple P (wrap_m t m) Q.
Proof. intros H w Hw. specialize (H w Hw). unfold wrap_m. by destruct (m w). Qed.

Lemma triple_finally {A} (P : World DB -> Prop) (m : M DB A) (fin : M DB unit) R Q :
  triple P m R -> (forall r, triple (R r) fin (fun _ w => Q r w)) ->
  (forall w, exists w', fin w = (w', Ok tt)) -> triple P (finally m fin) Q.
Proof.
  intros Hm Hf Hok. unfold finally. eapply triple_bind; [apply triple_try, Hm|]. intros r. cbv beta.
  intros w Hw. specialize (Hf r w Hw). destruct (Hok w) as [w' E].
  unfold mbind, M_bind. rewrite E in *. done.
Qed.
Lemma triple_step {A B} (P : World DB -> Prop) (m : M DB A) (k : A -> M DB B) X Y Q :
  triple P m (fun r w => match r with Ok a => X a w | Err e => Y e w end) ->
  (forall e w, Y e w -> Q (Err e) w) -> (forall a, triple (X a) (k a) Q) -> triple P (mbind k m) Q.
Proof.
  intros Hm HY Hk. eapply (triple_bind _ _ _ X); [|done]. eapply triple_weaken; [exact Hm|done|].
  intros [a|e] w Hw; [done|by apply HY].
Qed.

Lemma triple_try_step {A B} (P : World DB -> Prop) (m : M DB A) (k : result A -> M DB B) X Y Q :
  triple P m (fun r w => match r with Ok a => X a w | Err e => Y e w end) ->
  (forall a, triple (X a) (k (Ok a)) Q) -> (forall e, triple (Y e) (k (Err e)) Q) ->
  triple P (mbind k (try m)) Q.
Proof.
  intros Hm HX HY. eapply (triple_bind _ _ _ (fun r w => match r with Ok a => X a w | Err e => Y e w end));
    [apply triple_try, Hm|]. by intros [a|e].
Qed.

Lemma triple_pure {A} (phi : Prop) (P : World DB -> Prop) (m : M DB A) Q :
  (phi -> triple P m Q) -> triple (fun w => phi /\ P w) m Q.
Proof. intros H w [Hp Hw]. by apply H. Qed.

Lemma triple_exists {A X} (P : X -> World DB -> Prop) (m : M DB A) Q :
  (forall x, triple (P x) m Q) -> triple (fun w => exists x, P x w) m Q.
Proof. intros H w [x Hw]. by eapply H. Qed.
End Rules.

(** The database, the transaction and the directories of a state. *)
Definition st {DB} (d : DB) (t : option DB) (D : gmap string SnapDir) (w : World DB) : Prop :=
  db w = d /\ tx w = t /\ dirs w = D.

(** [m] leaves all three alone. *)
Definition quiet {DB A} (m : M DB A) : Prop :=
  forall w, db (m w).1 = db w /\ tx (m w).1 = tx w /\ dirs (m w).1 = dirs w.

Lemma quiet_triple {DB A} (m : M DB A) d t D :
  quiet m -> triple (st d t D) m (fun _ w => st d t D w).
Proof. intros Hq w (<- & <- & <-). destruct (Hq w) as (E1 & E2 & E3). by split_and!. Qed.

Lemma quiet_bind {DB A B} (m : M DB A) (k : A -> M DB B) :
  quiet m -> (forall a, quiet (k a)) -> quiet (mbind k m).
Proof.
  intros Hm Hk w. unfold mbind, M_bind. specialize (Hm w). destruct (m w) as [w' [a|e]]; cbn in *; [|done].
  destruct Hm as (<- & <- & <-). apply Hk.
Qed.

Lemma quiet_try {DB A} (m : M DB A) : quiet m -> quiet (try m).
Proof. intros H w. specialize (H w). unfold try. by destruct (m w). Qed.
Lemma quiet_wrap {DB A} (t : string) (m : M DB A) : quiet m -> quiet (wrap_m t m).
Proof. intros H w. specialize (H w). unfold wrap_m. by destruct (m w). Qed.
Lemma quiet_ret {DB A} (a : A) : quiet (mret a : M DB A).
Proof. by intros w. Qed.
Lemma quiet_throw {DB A} (e : error) : quiet (throw e : M DB A).
Proof. by intros w. Qed.
Lemma quiet_lift {DB A} (r : result A) : quiet (lift r : M DB A).
Proof. by intros w. Qed.
Lemma quiet_get {DB} : quiet (get : M DB _).
Proof. by intros w. Qed.
#[export] Hint Resolve quiet_bind quiet_try quiet_wrap quiet_ret quiet_throw quiet_lift quiet_get : sysbox.

(** Every snapshot of the database has a directory with its fs tree. *)
Definition covered {DB} `{MetaStore DB} (d : DB) (D : gmap string SnapDir) : Prop :=
  forall id, id ∈ IDMap d -> exists x, D !! id = Some x /\ has_fs x = true.

Section Invariant.
Context {DB : Type} `{MetaStoreLaws DB} (cfg : Config).

Lemma quiet_sys : quiet (sys cfg : M DB unit).
Proof. by intros w. Qed.
Lemma quiet_readers (n : nat) : quiet (set_readers n : M DB unit).
Proof. by intros w. Qed.
Lemma quiet_mounted (s : gset string) : quiet (set_mounted s : M DB unit).
Proof. by intros w. Qed.
Lemma quiet_marker (s : string) : quiet (add_marker s : M DB unit).
Proof. by intros w. Qed.
Lemma quiet_copy (u i : string) : quiet (add_copy u i : M DB unit).
Proof. by intros w. Qed.
Lemma quiet_hook (key : string) (ms : list CMount) : quiet (run_hook cfg key ms : M DB _).
Proof. intros w. unfold run_hook. by destruct (applyRootfsHook _ _ _ _). Qed.
Lemma quiet_handoffs (l : list string) : quiet (remove_handoffs cfg l : M DB unit).
Proof. by intros w. Qed.

#[local] Hint Resolve quiet_sys quiet_readers quiet_mounted quiet_marker quiet_copy quiet_hook quiet_handoffs : sysbox.

Lemma sys_triple (d : DB) t D : triple (st d t D) (sys cfg) (fun _ w => st d t D w).
Proof. apply quiet_triple, quiet_sys. Qed.

Lemma tx_db_triple (d x : DB) D : triple (st d (Some x) D) tx_db (fun r w => r = Ok x /\ st d (Some x) D w).
Proof. intros w (E1 & E2 & E3). unfold tx_db, mbind, M_bind, get. cbn. rewrite E2. by split_and!. Qed.

Lemma begin_write_triple (d : DB) D :
  triple (st d None D) (begin_write cfg)
    (fun r w => match r with Ok _ => st d (Some d) D w | Err _ => st d None D w end).
Proof.
  intros w (<- & E2 & <-). unfold begin_write, mbind, M_bind, sys, get. cbn.
  destruct (fault cfg (clock w)); cbn; by split_and!.
Qed.

Lemma Rollback_triple (d : DB) t D : triple (st d t D) Rollback (fun _ w => st d None D w).
Proof. intros w (<- & _ & <-). by split_and!. Qed.

Lemma CommitTx_triple (d x : DB) D :
  triple (st d (Some x) D) (CommitTx cfg)
    (fun r w => match r with Ok _ => st x None D w | Err _ => st d None D w end).
Proof.
  intros w (<- & E2 & <-). unfold CommitTx, mbind, M_bind, try, sys, get. cbn.
  destruct (fault cfg (clock w)); cbn; [by split_and!|]. rewrite E2. cbn. by split_and!.
Qed.

Lemma RemoveAllDir_triple (d : DB) t D (n : string) :
  triple (st d t D) (RemoveAllDir cfg n)
    (fun r w => match r with Ok _ => st d t (delete n D) w | Err _ => st d t D w end).
Proof.
  intros w (<- & <- & <-). unfold RemoveAllDir, mbind, M_bind, sys, get. cbn.
  destruct (fault cfg (clock w)); cbn; by split_and!.
Qed.

Lemma MkdirTemp_triple (d : DB) t D :
  triple (st d t D) (MkdirTemp cfg)
    (fun r w => match r with
                | Ok n => D !! n = None /\ st d t (<[n := mkSnapDir false false false]> D) w
                | Err _ => st d t D w end).
Proof.
  intros w (<- & <- & <-). unfold MkdirTemp, mbind, M_bind, sys, get. cbn.
  destruct (fault cfg (clock w)); cbn; [by split_and!|]. case_bool_decide as E; cbn; [by split_and!|].
  split; [by apply eq_None_not_Some|by split_and!].
Qed.

Lemma upd_dir_triple (d : DB) t D (n : string) (x : SnapDir) (g : SnapDir -> SnapDir) :
  D !! n = Some x ->
  triple (st d t D) (upd_dir cfg n g)
    (fun r w => match r with Ok _ => st d t (<[n := g x]> D) w | Err _ => st d t D w end).
Proof.
  intros Hn w (<- & <- & <-). unfold upd_dir, mbind, M_bind, sys, get. cbn.
  destruct (fault cfg (clock w)); cbn; [by split_and!|]. rewrite Hn. cbn. by split_and!.
Qed.

Lemma RenameDir_triple (d : DB) t D (old new : string) (x : SnapDir) :
  D !! old = Some x ->
  triple (st d t D) (RenameDir cfg old new)
    (fun r w => match r with
                | Ok _ => D !! new = None /\ st d t (<[new := x]> (delete old D)) w
                | Err _ => st d t D w end).
Proof.
  intros Hn w (<- & <- & <-). unfold RenameDir, mbind, M_bind, sys, get. cbn.
  destruct (fault cfg (clock w)); cbn; [by split_and!|].
  destruct (dirs w !! new) eqn:E; cbn; [by split_and!|]. rewrite Hn. cbn. by split_and!.
Qed.

Lemma quiet_StatUpper (id : string) : quiet (StatUpper cfg id : M DB unit).
Proof.
  apply quiet_bind; [apply quiet_sys|]. intros _. apply quiet_bind; [apply quiet_get|]. intros w.
  destruct (dirs w !! id) as [x|]; [destruct (has_fs x)|]; auto with sysbox.
Qed.

(** ** Coverage *)

Lemma covered_insert (d : DB) D (n : string) (x : SnapDir) :
  covered d D -> has_fs x = true -> covered d (<[n := x]> D).
Proof.
  intros Hc Hx id Hid. destruct (decide (n = id)) as [->|Hn].
  - exists x. by rewrite lookup_insert_eq.
  - rewrite lookup_insert_ne by done. by apply Hc.
Qed.

Lemma covered_new (d : DB) D (n : string) (x : SnapDir) :
  covered d D -> D !! n = None -> covered d (<[n := x]> D).
Proof.
  intros Hc Hn id Hid. destruct (Hc id Hid) as (y & Hy & Hf). exists y. split; [|done].
  rewrite lookup_insert_ne; [done|]. intros ->. congruence.
Qed.

Lemma covered_delete (d : DB) D (n : string) : covered d D -> n ∉ IDMap d -> covered d (delete n D).
Proof.
  intros Hc Hn id Hid. rewrite lookup_delete_ne; [by apply Hc|]. intros ->. done.
Qed.

Lemma covered_sub (d d' : DB) D : covered d D -> IDMap d' ⊆ IDMap d -> covered d' D.
Proof. intros Hc Hs id Hid. apply Hc. set_solver. Qed.

Lemma covered_fresh (d : DB) D (n : string) : covered d D -> D !! n = None -> n ∉ IDMap d.
Proof. intros Hc Hn Hid. destruct (Hc n Hid) as (x & Hx & _). congruence. Qed.

(** ** Creating a snapshot *)

Lemma prepareDirectory_triple (d : DB) t D (kind : Kind) :
  triple (st d t D) (prepareDirectory cfg kind)
    (fun r w => match r with
       | Ok (None, Some _) => st d t D w
       | Ok (Some n, Some _) => exists x, D !! n = None /\ st d t (<[n := x]> D) w
       | Ok (Some n, None) => exists x, D !! n = None /\ has_fs x = true /\ st d t (<[n := x]> D) w
       | _ => False end).
Proof.
  unfold prepareDirectory. eapply triple_try_step; [apply MkdirTemp_triple| |].
  2: { intros e. by apply triple_ret. }
  intros n. apply triple_pure. intros Hn. eapply triple_try_step; [apply upd_dir_triple, lookup_insert_eq| |].
  2: { intros e. apply triple_ret. intros w Hw. eexists. split; [done|exact Hw]. }
  intros []. rewrite insert_insert_eq. case_bool_decide.
  2: { apply triple_ret. intros w Hw. eexists. split; [done|]. split; [|exact Hw]. done. }
  eapply triple_try_step; [apply upd_dir_triple, lookup_insert_eq| |].
  - intros []. apply triple_ret. intros w Hw. rewrite insert_insert_eq in Hw. eexists. split; [done|]. split; [|exact Hw]. done.
  - intros e. apply triple_ret. intros w Hw. eexists. split; [done|exact Hw].
Qed.

(** The reclaim of the temporary directory [n], and of the final one [p]. *)
Lemma reclaim_triple {A} (d : DB) D (td path : option string) (e : error) :
  triple (st d None D) (reclaim cfg td path e : M DB A)
    (fun r w => (exists e', r = Err e') /\ exists D', st d None D' w /\
       (forall n x, D' !! n = Some x -> D !! n = Some x) /\
       (forall n x, D !! n = Some x -> Some n <> td -> Some n <> path -> D' !! n = Some x)).
Proof.
  unfold reclaim.
  set (post := fun (D1 D2 : gmap string SnapDir) => (forall n x, D2 !! n = Some x -> D1 !! n = Some x) /\
    (forall n x, D1 !! n = Some x -> Some n <> td -> D2 !! n = Some x)).
  eapply (triple_bind _ _ _ (fun _ w => exists D1, post D D1 /\ st d None D1 w)).
  - destruct td as [n|].
    + eapply triple_try_step; [apply RemoveAllDir_triple| |]; intros ?; apply triple_ret; intros w Hw.
      * exists (delete n D). split; [|done]. split.
        -- intros k x Hk. by apply lookup_delete_Some in Hk as [_ ?].
        -- intros k x Hk Hne. rewrite lookup_delete_ne; [done|]. congruence.
      * exists D. by split.
    + apply triple_ret. intros w Hw. exists D. by split.
  - intros _. apply triple_exists. intros D1. apply triple_pure. intros [Hs Hk]. destruct path as [p|].
    + eapply triple_try_step; [apply RemoveAllDir_triple| |]; intros ?; apply triple_throw; intros w Hw;
        (split; [by eexists|]).
      * exists (delete p D1). split; [done|]. split.
        -- intros k x [_ ?]%lookup_delete_Some. by apply Hs.
        -- intros k x Hx Ht Hp. rewrite lookup_delete_ne by congruence. by apply Hk.
      * exists D1. split; [done|]. split; [done|]. intros. by apply Hk.
    + apply triple_throw. intros w Hw. split; [by eexists|]. exists D1. split; [done|]. split; [done|].
      intros. by apply Hk.
Qed.

Lemma install_triple (d : DB) D (kind : Kind) (key parent : string) (opts : Info -> Info) (n : string) (x : SnapDir) :
  D !! n = None -> has_fs x = true ->
  triple (st d (Some d) (<[n := x]> D)) (install cfg kind key parent opts n)
    (fun r w => match r with
       | Ok (inl (_, None)) => exists t, st d t (<[n := x]> D) w
       | Ok (inl (_, Some id)) => exists t, id ∉ IDMap d /\ st d t (<[n := x]> D) w
       | Ok (inr s) => exists d', CreateSnapshot d kind key parent opts = Ok (d', s) /\
           D !! ID s = None /\ st d (Some d') (<[ID s := x]> D) w
       | Err _ => False end).
Proof.
  intros Hn Hx. unfold install.
  eapply (triple_bind _ _ _ (fun a w => a = d /\ st d (Some d) (<[n := x]> D) w)).
  { eapply triple_weaken; [apply tx_db_triple|done|]. by intros r w [-> ?]. }
  intros a. apply triple_pure. intros ->.
  destruct (CreateSnapshot d kind key parent opts) as [[d' s]|e] eqn:Ec.
  2: { apply triple_ret. intros w Hw. eexists. exact Hw. }
  destruct (create_ids _ _ _ _ _ _ _ Ec) as [_ Hfresh].
  eapply (triple_bind _ _ _ (fun _ w => st d (Some d') (<[n := x]> D) w)).
  { intros w (<- & _ & E). by split_and!. }
  intros _. eapply (triple_bind _ _ _ (fun _ w => st d (Some d') (<[n := x]> D) w)).
  { destruct (ParentIDs s) as [|p ps]; [by apply triple_ret|].
    apply triple_try. eapply triple_weaken; [apply quiet_triple|done|done].
    apply quiet_bind; [apply quiet_wrap, quiet_StatUpper|]. intros _. apply quiet_wrap, quiet_sys. }
  intros [[]|e]; [|apply triple_ret; intros w Hw; eexists; exact Hw].
  eapply (triple_try_step _ _ _ (fun _ w => <[n := x]> D !! ID s = None /\
      st d (Some d') (<[ID s := x]> (delete n (<[n := x]> D))) w) (fun _ w => st d (Some d') (<[n := x]> D) w)).
  { apply triple_wrap. eapply triple_weaken; [apply (RenameDir_triple d (Some d') (<[n := x]> D) n (ID s) x)|done|].
    - apply lookup_insert_eq.
    - intros [u|e] w Hw; cbn [wrap_err]; exact Hw. }
  - intros u. apply triple_pure. intros HID. apply triple_ret. intros w Hw. exists d'. split; [done|].
    rewrite delete_insert_id in Hw by done. split; [|done].
    apply lookup_insert_None in HID as [? _]. done.
  - intros e. apply triple_ret. intros w Hw. eexists. split; [done|exact Hw].
Qed.

(** Directories may gain a merged subdirectory, and keep their fs tree. *)
Definition keeps (D D' : gmap string SnapDir) : Prop :=
  forall n x, D !! n = Some x -> exists y, D' !! n = Some y /\ has_fs y = has_fs x.

Lemma keeps_refl D : keeps D D.
Proof. intros n x Hx. by exists x. Qed.

Lemma covered_keeps (d : DB) D D' : covered d D -> keeps D D' -> covered d D'.
Proof.
  intros Hc Hk id Hid. destruct (Hc id Hid) as (x & Hx & Hf). destruct (Hk id x Hx) as (y & Hy & E).
  exists y. by rewrite E.
Qed.

Lemma mkdir_merged_triple (d : DB) t D (id : string) :
  triple (st d t D) (mkdir_merged cfg id) (fun _ w => exists D', keeps D D' /\ st d t D' w).
Proof.
  intros w (<- & <- & <-). unfold mkdir_merged, mbind, M_bind, sys, get. cbn.
  destruct (fault cfg (clock w)); cbn; [exists (dirs w); split; [apply keeps_refl|by split_and!]|].
  eexists. split; [|by split_and!]. intros n x Hx. cbn. destruct (decide (id = n)) as [->|Hne].
  - rewrite lookup_insert_eq, Hx. by eexists.
  - rewrite lookup_insert_ne by done. by exists x.
Qed.

Lemma quiet_stat_marker (work : string) : quiet (stat_marker cfg work : M DB unit).
Proof.
  apply quiet_bind; [apply quiet_sys|]. intros _. apply quiet_bind; [apply quiet_get|]. intros w.
  case_bool_decide; auto with sysbox.
Qed.

Lemma quiet_unmount (id : string) : quiet (unmount_merged cfg id : M DB unit).
Proof.
  apply quiet_bind; [apply quiet_try, quiet_sys|]. intros r. apply quiet_bind; [apply quiet_get|]. intros w.
  destruct r; auto with sysbox.
Qed.

Lemma quiet_materialize_tail (upper work id : string) :
  quiet (_ ← wrap_m "mount temporary merged rootfs" (mount_merged cfg id);
         finally (_ ← wrap_m "materialize active rootfs" (copy_dir cfg upper id);
                  wrap_m "write rootfs materialization marker" (set_marker cfg work)) (unmount_merged cfg id) : M DB unit).
Proof.
  apply quiet_bind.
  - apply quiet_wrap, quiet_bind; [apply quiet_sys|]. intros _. apply quiet_bind; auto with sysbox.
  - intros _. unfold finally. apply quiet_bind; [apply quiet_try, quiet_bind|].
    + apply quiet_wrap, quiet_bind; auto with sysbox.
    + intros _. apply quiet_wrap, quiet_bind; auto with sysbox.
    + intros r. apply quiet_bind; [apply quiet_unmount|]. auto with sysbox.
Qed.

Lemma materialize_triple (d : DB) t D (id upper work : string) :
  triple (st d t D) (materializeActiveSnapshot cfg id upper work) (fun _ w => exists D', keeps D D' /\ st d t D' w).
Proof.
  assert (forall w, st d t D w -> exists D', keeps D D' /\ st d t D' w) as Hsame
    by (intros w Hw; exists D; split; [apply keeps_refl|done]).
  unfold materializeActiveSnapshot. eapply (triple_bind _ _ _ (fun _ => st d t D)).
  { apply triple_try. eapply triple_weaken; [apply quiet_triple, quiet_stat_marker|done|done]. }
  intros [u|e]; [by apply triple_ret|]. destruct (negb _); [by apply triple_throw|].
  eapply (triple_bind _ _ _ (fun _ w => exists D', keeps D D' /\ st d t D' w)).
  { apply triple_wrap. eapply triple_weaken; [apply mkdir_merged_triple|done|]. by intros [] w Hw. }
  intros _. apply triple_exists. intros D'. apply triple_pure. intros Hk.
  eapply triple_weaken; [apply quiet_triple, quiet_materialize_tail|done|]. intros r w Hw. by exists D'.
Qed.

Lemma mounts_triple (d : DB) t D (key : string) (s : Snapshot) (info : Info) :
  triple (st d t D) (mounts_ cfg key s info) (fun _ w => exists D', keeps D D' /\ st d t D' w).
Proof.
  assert (forall w, st d t D w -> exists D', keeps D D' /\ st d t D' w) as Hsame
    by (intros w Hw; exists D; split; [apply keeps_refl|done]).
  assert (forall ms, triple (st d t D) (run_hook cfg key ms) (fun _ => st d t D)) as Hh
    by (intros ms; apply quiet_triple, quiet_hook).
  unfold mounts_. destruct (plain_mounts _ _ _) as [ms|ms]; [|by apply triple_ret].
  destruct (_ && _).
  - eapply (triple_bind _ _ _ (fun _ => st d t D)).
    { eapply triple_weaken; [apply Hh|done|]. intros [] w Hw; auto. }
    intros rw. eapply (triple_bind _ _ _ (fun _ => st d t D)).
    { apply triple_lift. intros w Hw. destruct (materializedRootfsPaths rw); auto. }
    intros [upper work]. eapply (triple_bind _ _ _ (fun _ w => exists D', keeps D D' /\ st d t D' w)).
    { eapply triple_weaken; [apply materialize_triple|done|]. by intros [] w Hw. }
    intros _. by apply triple_ret.
  - destruct (negb _); [by apply triple_ret|]. eapply triple_weaken; [apply Hh|done|]. auto.
Qed.

(** What a failed creation may leave behind once the database has the snapshot. *)
Definition orphaned (d d' : DB) (D' : gmap string SnapDir) : Prop :=
  exists id, id ∈ IDMap d' /\ id ∉ IDMap d /\ IDMap d' = {[ id ]} ∪ IDMap d /\ D' !! id = None /\ covered d D'.

(** Building the mounts can fail (in the hook or the materialization). *)
Definition mounts_can_fail (key : string) : Prop :=
  exists s info (w : World DB) e, (mounts_ cfg key s info w).2 = Err e.

(** The outcome of a creation of [key] that started from [d]. *)
Definition created (d : DB) (key : string) (r : result (list CMount)) (w : World DB) : Prop :=
  tx w = None /\ (covered (db w) (dirs w) \/
    (exists e, r = Err e) /\ orphaned d (db w) (dirs w) /\ mounts_can_fail key).

Lemma reclaim_covered (d : DB) D (key : string) (td path : option string) (e : error) :
  covered d D -> (forall n, Some n = td \/ Some n = path -> n ∉ IDMap d) ->
  triple (st d None D) (reclaim cfg td path e) (created d key).
Proof.
  intros Hc Hn. eapply triple_weaken; [apply reclaim_triple|done|].
  intros r w ((e' & ->) & D' & (E1 & E2 & E3) & _ & Hk). split; [done|]. left. rewrite E1, E3.
  intros id Hid. destruct (Hc id Hid) as (x & Hx & Hf). exists x. split; [|done].
  apply Hk; [done|..]; intros E; apply (Hn id); auto.
Qed.

Lemma rollback_reclaim (d : DB) t D (key : string) (td path : option string) (e : error) :
  covered d D -> (forall n, Some n = td \/ Some n = path -> n ∉ IDMap d) ->
  triple (st d t D) (_ ← Rollback; reclaim cfg td path e) (created d key).
Proof.
  intros Hc Hn. eapply (triple_bind _ _ _ (fun _ => st d None D)).
  - intros w Hw. by apply Rollback_triple in Hw.
  - intros _. by apply reclaim_covered.
Qed.

(** After the commit: the mounts, or the reclaim of a directory the database needs. *)
Lemma finish_triple (d d' : DB) D (kind : Kind) (key parent : string) (opts : Info -> Info) (s : Snapshot) (info : Info) (x : SnapDir) :
  CreateSnapshot d kind key parent opts = Ok (d', s) -> covered d D -> has_fs x = true ->
  triple (st d' None (<[ID s := x]> D))
    (r ← try (mounts_ cfg key s info);
     match r with Err e => reclaim cfg None (Some (ID s)) e | Ok ms => mret ms end) (created d key).
Proof.
  intros Hcr Hc Hx. destruct (create_ids _ _ _ _ _ _ _ Hcr) as [HI Hfresh].
  assert (covered d' (<[ID s := x]> D)) as Hc'.
  { intros id. rewrite HI, elem_of_union, elem_of_singleton. intros [->|Hid]; [|by apply (covered_insert d D (ID s) x)].
    exists x. by rewrite lookup_insert_eq. }
  eapply (triple_bind _ _ _ (fun r w => (exists w0, (mounts_ cfg key s info w0).2 = r) /\
    exists D', keeps (<[ID s := x]> D) D' /\ st d' None D' w)).
  { apply triple_try. intros w Hw. split; [by exists w|]. by apply (mounts_triple d' None). }
  intros r. apply triple_pure. intros [w0 Hw0]. apply triple_exists. intros D'. apply triple_pure. intros Hk.
  assert (covered d' D') as HcD' by (by eapply covered_keeps).
  destruct r as [ms|e].
  { apply triple_ret. intros w (E1 & E2 & E3). split; [done|]. left. by rewrite E1, E3. }
  eapply triple_weaken; [apply reclaim_triple|done|].
  intros r w ((e' & ->) & D2 & (E1 & E2 & E3) & Hsub & Hkeep). split; [done|]. rewrite E1, E3.
  destruct (D2 !! ID s) as [y|] eqn:Ey.
  - left. intros id Hid. destruct (HcD' id Hid) as (z & Hz & Hf).
    destruct (decide (id = ID s)) as [->|Hne].
    + apply Hsub in Ey as Ey'. exists y. split; [done|]. congruence.
    + exists z. split; [|done]. apply Hkeep; congruence.
  - right. split; [by eexists|]. split; [|by exists s, info, w0, e]. exists (ID s). rewrite HI. split_and!; [set_solver|done|done|done|].
    intros id Hid. destruct (HcD' id) as (z & Hz & Hf); [set_solver|]. exists z. split; [|done].
    apply Hkeep; [done|done|]. intros [= ->]. done.
Qed.

Lemma createSnapshot_triple (d : DB) D (kind : Kind) (key parent : string) (opts : Info -> Info) :
  covered d D -> triple (st d None D) (createSnapshot cfg kind key parent opts) (created d key).
Proof.
  intros Hc. unfold createSnapshot. eapply triple_step; [apply begin_write_triple| |].
  { intros e w (E1 & E2 & E3). split; [done|]. left. by rewrite E1, E3. }
  intros u0. cbv beta. eapply (triple_bind _ _ _ (fun a w => match a with
       | (None, Some _) => st d (Some d) D w
       | (Some n, Some _) => exists x, D !! n = None /\ st d (Some d) (<[n := x]> D) w
       | (Some n, None) => exists x, D !! n = None /\ has_fs x = true /\ st d (Some d) (<[n := x]> D) w
       | (None, None) => False end)).
  { eapply triple_weaken; [apply prepareDirectory_triple|done|]. by intros [[[] []]|] w Hw. }
  intros [[n|] [e|]]; [| | |by intros w []].
  - apply triple_exists. intros x. apply triple_pure. intros Hn.
    apply rollback_reclaim; [by apply covered_new|]. intros m [[= ->]|?]; [by eapply covered_fresh|done].
  - apply triple_exists. intros x. apply triple_pure. intros Hn. apply triple_pure. intros Hx.
    eapply triple_step; [apply (install_triple d D kind key parent opts n x Hn Hx)|done|].
    intros [[e [id|]]|s]; [| |apply triple_exists; intros d'; apply triple_pure; intros Hcr;
      apply triple_pure; intros HID].
    + apply triple_exists. intros t. apply triple_pure. intros Hid.
      apply rollback_reclaim; [by apply covered_new|]. intros m [[= ->]|[= ->]]; [by eapply covered_fresh|done].
    + apply triple_exists. intros t. apply rollback_reclaim; [by apply covered_new|].
      intros m [[= ->]|?]; [by eapply covered_fresh|done].
    + destruct (create_ids _ _ _ _ _ _ _ Hcr) as [_ Hfresh].
      eapply (triple_bind _ _ _ (fun a => st d (Some d') (<[ID s := x]> D))).
      { eapply triple_weaken; [apply tx_db_triple|done|]. by intros r w [-> ?]. }
      intros d1. cbv zeta. eapply (triple_try_step _ _ _ (fun _ => st d' None (<[ID s := x]> D)) (fun _ => st d None (<[ID s := x]> D))).
      { apply triple_wrap. eapply triple_weaken; [apply CommitTx_triple|done|]. by intros [] w Hw. }
      * intros _. by eapply finish_triple.
      * intros e. apply reclaim_covered; [by apply covered_insert|]. intros m [?|[= ->]]; done.
  - apply rollback_reclaim; [done|]. intros m [?|?]; done.
Qed.

(** ** The other operations *)

(** The directories of [d] are untouched and no directory appears. *)
Definition trimmed (d : DB) (D D' : gmap string SnapDir) : Prop :=
  D' ⊆ D /\ forall id, id ∈ IDMap d -> D' !! id = D !! id.

Lemma trimmed_refl (d : DB) D : trimmed d D D.
Proof. by split. Qed.

Lemma covered_trimmed (d : DB) D D' : covered d D -> trimmed d D D' -> covered d D'.
Proof. intros Hc [_ Ht] id Hid. rewrite Ht by done. by apply Hc. Qed.

Lemma remove_dirs_triple (d : DB) (names : list string) D0 :
  Forall (fun n => n ∉ IDMap d) names -> forall D, trimmed d D0 D ->
  triple (st d None D) (remove_dirs cfg names) (fun r w => r = Ok tt /\ exists D', trimmed d D0 D' /\ st d None D' w).
Proof.
  induction 1 as [|n l Hn _ IH]; intros D Ht; cbn [remove_dirs].
  - apply triple_ret. intros w Hw. split; [done|]. by exists D.
  - eapply triple_try_step; [apply RemoveAllDir_triple| |]; intros ?; apply IH; [|done].
    destruct Ht as [Hs Hl]. split; [|].
    + etransitivity; [apply delete_subseteq|done].
    + intros id Hid. rewrite lookup_delete_ne; [by apply Hl|]. by intros ->.
Qed.

Lemma getCleanup_triple (d x : DB) D :
  triple (st d (Some x) D) (getCleanupDirectories cfg)
    (fun r w => st d (Some x) D w /\
       match r with Ok l => l = filter (fun n => n ∉ IDMap x) (elements (dom D)) | Err _ => True end).
Proof.
  unfold getCleanupDirectories.
  eapply (triple_bind _ _ _ (fun a w => a = x /\ st d (Some x) D w)).
  { eapply triple_weaken; [apply tx_db_triple|done|]. by intros r w [-> ?]. }
  intros a. apply triple_pure. intros ->.
  do 2 (eapply (triple_bind _ _ _ (fun _ => st d (Some x) D));
    [eapply triple_weaken; [apply sys_triple|done|]; by intros [] w Hw|intros _]).
  eapply (triple_bind _ _ _ (fun v w => dirs v = D /\ st d (Some x) D w)).
  { apply triple_get. intros w Hw. split; [apply Hw|done]. }
  intros v. apply triple_pure. intros <-. apply triple_ret. intros w Hw. by split.
Qed.

Lemma cleanup_list_dead (x : DB) (D : gmap string SnapDir) :
  Forall (fun n => n ∉ IDMap x) (filter (fun n => n ∉ IDMap x) (elements (dom D))).
Proof. apply Forall_forall. intros n Hn. by apply list_elem_of_filter in Hn as [? _]. Qed.

Lemma Cleanup_triple (d : DB) D :
  triple (st d None D) (Cleanup cfg) (fun _ w => exists D', trimmed d D D' /\ st d None D' w).
Proof.
  unfold Cleanup, cleanupDirectories.
  eapply (triple_bind _ _ _ (fun l w => Forall (fun n => n ∉ IDMap d) l /\ st d None D w)).
  - eapply triple_step; [apply begin_write_triple| |].
    { intros e w Hw. exists D. split; [apply trimmed_refl|done]. }
    intros u0. eapply (triple_finally _ _ _ _ _ (getCleanup_triple d d D)); [|by intros w; eexists].
    intros r w [Hst Hr]. destruct (Rollback_triple _ _ _ _ Hst) as (E1 & E2 & E3).
    destruct r as [l|e]; [|exists D; split; [apply trimmed_refl|by split_and!]].
    subst l. split; [apply cleanup_list_dead|by split_and!].
  - intros l. apply triple_pure. intros Hl.
    eapply triple_weaken; [apply (remove_dirs_triple d l D Hl D (trimmed_refl d D))|done|]. by intros r w [_ ?].
Qed.

Lemma rollback_on_err_triple {A} (d : DB) D (m : M DB A) t Q :
  triple (st d t D) m (fun r w => match r with Ok a => Q a w | Err _ => exists t', st d t' D w end) ->
  triple (st d t D) (rollback_on_err m) (fun r w => match r with Ok a => Q a w | Err _ => st d None D w end).
Proof.
  intros Hm. unfold rollback_on_err. eapply triple_try_step; [exact Hm| |].
  - intros a. by apply triple_ret.
  - intros e. apply triple_exists. intros t'. eapply (triple_bind _ _ _ (fun _ => st d None D)).
    + intros w Hw. by apply Rollback_triple in Hw.
    + intros u0. by apply triple_throw.
Qed.

Lemma set_tx_triple (d x : DB) t D : triple (st d t D) (set_tx (Some x)) (fun _ => st d (Some x) D).
Proof. intros w (<- & _ & <-). by split_and!. Qed.

Lemma quiet_DiskUsage (id : string) : quiet (DiskUsage cfg id : M DB Usage).
Proof. apply quiet_bind; [apply quiet_StatUpper|]. intros _. apply quiet_bind; auto with sysbox. Qed.

Lemma Commit_triple (d : DB) D (name key : string) (opts : Info -> Info) :
  triple (st d None D) (Commit cfg name key opts)
    (fun _ w => exists d', IDMap d' = IDMap d /\ st d' None D w).
Proof.
  unfold Commit. eapply triple_step; [apply begin_write_triple| |].
  { intros e w Hw. by exists d. }
  intros u0. eapply triple_weaken; [|done|].
  - apply (rollback_on_err_triple d D _ (Some d) (fun _ w => exists d', IDMap d' = IDMap d /\ st d' None D w)).
    eapply (triple_bind _ _ _ (fun a w => a = d /\ st d (Some d) D w)).
    { eapply triple_weaken; [apply tx_db_triple|done|]. by intros r w [-> ?]. }
    intros a. apply triple_pure. intros ->. eapply (triple_bind _ _ _ (fun _ => st d (Some d) D)).
    { apply triple_lift. intros w Hw. destruct (GetInfo d key); [done|by eexists]. }
    intros [[id info] u]. eapply (triple_bind _ _ _ (fun _ => st d (Some d) D)).
    { eapply triple_weaken; [apply quiet_triple, quiet_DiskUsage|done|]. intros [] w Hw; [done|by eexists]. }
    intros usage. eapply (triple_bind _ _ _ (fun x w => CommitActive d key name usage opts = Ok x /\ st d (Some d) D w)).
    { apply triple_wrap, triple_lift. intros w Hw. destruct (CommitActive _ _ _ _ _); cbn; [done|by eexists]. }
    intros x. apply triple_pure. intros Hx. eapply (triple_bind _ _ _ (fun _ => st d (Some x) D)).
    { intros w Hw. by apply (set_tx_triple d x) in Hw. }
    intros _. eapply triple_weaken; [apply CommitTx_triple|done|].
    intros [] w Hw; [exists x; split; [by eapply commit_ids|done]|by eexists].
  - intros [] w Hw; [done|]. by exists d.
Qed.

Lemma Update_triple (d : DB) D (key : string) (info : Info) (l : list string) :
  triple (st d None D) (Update cfg key info l) (fun _ w => exists d', IDMap d' = IDMap d /\ st d' None D w).
Proof.
  unfold Update. eapply triple_step; [apply begin_write_triple| |].
  { intros e w Hw. by exists d. }
  intros u0. eapply (triple_bind _ _ _ (fun a w => a = d /\ st d (Some d) D w)).
  { eapply triple_weaken; [apply tx_db_triple|done|]. by intros r w [-> ?]. }
  intros a. apply triple_pure. intros ->. destruct (UpdateInfo d key info l) as [[d' i']|e] eqn:Eu.
  - eapply (triple_bind _ _ _ (fun _ => st d (Some d') D)).
    { intros w Hw. by apply (set_tx_triple d d') in Hw. }
    intros u1. eapply triple_step; [apply CommitTx_triple| |].
    + intros e w Hw. by exists d.
    + intros u2. apply triple_ret. intros w Hw. exists d'. split; [by eapply update_ids|done].
  - eapply (triple_bind _ _ _ (fun _ => st d None D)).
    + intros w Hw. by apply Rollback_triple in Hw.
    + intros u1. apply triple_throw. intros w Hw. by exists d.
Qed.

Lemma Remove_triple (d : DB) D (key : string) :
  triple (st d None D) (Remove cfg key)
    (fun r w => exists d' D', trimmed d' D D' /\ st d' None D' w /\
       match r with Ok _ => RemoveKey d key = Ok d' | Err _ => d' = d /\ D' = D end).
Proof.
  unfold Remove. eapply triple_step; [apply begin_write_triple| |].
  { intros e w Hw. exists d, D. split; [apply trimmed_refl|done]. }
  intros u0. eapply triple_step; [apply (rollback_on_err_triple d D _ (Some d) (fun l w => exists d',
    RemoveKey d key = Ok d' /\ Forall (fun n => n ∉ IDMap d') l /\ st d' None D w))| |].
  - eapply (triple_bind _ _ _ (fun a w => a = d /\ st d (Some d) D w)).
    { eapply triple_weaken; [apply tx_db_triple|done|]. by intros r w [-> ?]. }
    intros a. apply triple_pure. intros ->.
    eapply (triple_bind _ _ _ (fun x w => RemoveKey d key = Ok x /\ st d (Some d) D w)).
    { apply triple_wrap, triple_lift. intros w Hw. destruct (RemoveKey d key); cbn; [done|by eexists]. }
    intros d'. apply triple_pure. intros Hd'. eapply (triple_bind _ _ _ (fun _ => st d (Some d') D)).
    { intros w Hw. by apply (set_tx_triple d d') in Hw. }
    intros _. eapply (triple_bind _ _ _ (fun l w => Forall (fun n => n ∉ IDMap d') l /\ st d (Some d') D w)).
    { destruct (asyncRemove cfg); [apply triple_ret; intros w Hw; by split|].
      apply triple_wrap. eapply triple_weaken; [apply getCleanup_triple|done|].
      intros [l|e] w [Hw Hl]; cbn; [|by eexists]. subst l. split; [apply cleanup_list_dead|done]. }
    intros l. apply triple_pure. intros Hl. eapply triple_step; [apply CommitTx_triple| |].
    + intros e w Hw. by exists None.
    + intros u1. apply triple_ret. intros w Hw. by exists d'.
  - intros e w Hw. exists d, D. split; [apply trimmed_refl|done].
  - intros l. apply triple_exists. intros d'. apply triple_pure. intros Hd'. apply triple_pure. intros Hl.
    eapply (triple_bind _ _ _ (fun _ => st d' None D)).
    { intros w Hw. by apply (quiet_triple _ _ _ _ (quiet_handoffs (handoff_keys key))) in Hw. }
    intros _. eapply triple_weaken; [apply (remove_dirs_triple d' l D Hl D (trimmed_refl d' D))|done|].
    intros r w [-> (D' & Ht & Hw)]. by exists d', D'.
Qed.
End Invariant.

(** ** Histories *)

Inductive op :=
  | OpStat (key : string)
  | OpUpdate (key : string) (info : Info) (fieldpaths : list string)
  | OpUsage (key : string)
  | OpPrepare (key parent : string) (opts : Info -> Info)
  | OpView (key parent : string) (opts : Info -> Info)
  | OpMounts (key : string)
  | OpCommit (name key : string) (opts : Info -> Info)
  | OpRemove (key : string)
  | OpCleanup.

Section Histories.
Context {DB : Type} `{MetaStoreLaws DB} (cfg : Config).

Definition run_op (o : op) (w : World DB) : World DB :=
  match o with
  | OpStat key => (StatKey cfg key w).1
  | OpUpdate key info l => (Update cfg key info l w).1
  | OpUsage key => (Usage_ cfg key w).1
  | OpPrepare key parent opts => (Prepare cfg key parent opts w).1
  | OpView key parent opts => (View cfg key parent opts w).1
  | OpMounts key => (Mounts_ cfg key w).1
  | OpCommit name key opts => (Commit cfg name key opts w).1
  | OpRemove key => (Remove cfg key w).1
  | OpCleanup => (Cleanup cfg w).1
  end.

(** Between operations: no write transaction, and every snapshot has its directory. *)
Definition snap_inv (w : World DB) : Prop := tx w = None /\ covered (db w) (dirs w).

Inductive reachable (w0 : World DB) : World DB -> Prop :=
  | reach_init : reachable w0 w0
  | reach_step w o : reachable w0 w -> reachable w0 (run_op o w).

Lemma quiet_inv {A} (m : M DB A) (w : World DB) : quiet m -> snap_inv w -> snap_inv (m w).1.
Proof. intros Hq [H1 H2]. destruct (Hq w) as (E1 & E2 & E3). split; [congruence|]. by rewrite E1, E3. Qed.

Lemma quiet_begin_read : quiet (begin_read cfg : M DB unit).
Proof. apply quiet_bind; [apply quiet_sys|]. intros _. apply quiet_bind; [apply quiet_get|]. intros w. apply quiet_readers. Qed.

Lemma quiet_end_read : quiet (end_read : M DB unit).
Proof. apply quiet_bind; [apply quiet_get|]. intros w. apply quiet_readers. Qed.

Lemma quiet_StatKey (key : string) : quiet (StatKey cfg key : M DB Info).
Proof.
  apply quiet_bind; [apply quiet_begin_read|]. intros _. apply quiet_bind; [apply quiet_get|]. intros w.
  unfold finally. apply quiet_bind; [apply quiet_try, quiet_bind; [apply quiet_lift|]|].
  - intros [[id i] u]. apply quiet_ret.
  - intros r. apply quiet_bind; [apply quiet_end_read|]. auto with sysbox.
Qed.

Lemma quiet_Usage (key : string) : quiet (Usage_ cfg key : M DB Usage).
Proof.
  apply quiet_bind; [apply quiet_begin_read|]. intros _. apply quiet_bind; [apply quiet_get|]. intros w.
  apply quiet_bind; [apply quiet_end_read|]. intros _. apply quiet_bind; [apply quiet_lift|].
  intros [[id i] u]. case_bool_decide; [apply quiet_DiskUsage|apply quiet_ret].
Qed.

Lemma Mounts_inv (key : string) (w : World DB) : snap_inv w -> snap_inv (Mounts_ cfg key w).1.
Proof.
  intros [H1 H2]. set (d := db w) in *. set (D := dirs w) in *.
  assert (forall v, (exists D', keeps D D' /\ st d None D' v) -> snap_inv v) as Hend.
  { intros v (D' & Hk & E1 & E2 & E3). split; [done|]. rewrite E1, E3. by eapply covered_keeps. }
  assert (forall v, st d None D v -> snap_inv v) as Hst.
  { intros v Hv. apply Hend. exists D. split; [apply keeps_refl|done]. }
  assert (triple (st d None D) (Mounts_ cfg key) (fun _ v => snap_inv v)) as Ht; [|by apply Ht].
  unfold Mounts_.
  eapply (triple_bind _ _ _ (fun _ => st d None D)).
  { eapply triple_weaken; [apply quiet_triple, quiet_begin_read|done|]. intros [] v Hv; auto. }
  intros _. eapply (triple_bind _ _ _ (fun _ => st d None D)); [by apply triple_get|].
  intros v. eapply (triple_bind _ _ _ (fun _ => st d None D)).
  { apply triple_lift. intros x Hx. destruct (GetSnapshot _ _); auto. }
  intros s. eapply (triple_bind _ _ _ (fun _ => st d None D)).
  { eapply triple_weaken; [apply quiet_triple, quiet_end_read|done|]. intros [] x Hx; auto. }
  intros _. eapply (triple_bind _ _ _ (fun _ => st d None D)).
  { apply triple_wrap, triple_lift. intros x Hx. destruct (GetInfo _ _); cbn; auto. }
  intros [[id info] u]. eapply triple_weaken; [apply mounts_triple|done|]. auto.
Qed.

Lemma create_inv (kind : Kind) (key parent : string) (opts : Info -> Info) (w : World DB) :
  snap_inv w -> ~ mounts_can_fail (DB := DB) cfg key -> snap_inv (createSnapshot cfg kind key parent opts w).1.
Proof.
  intros [H1 H2] Hno. destruct (createSnapshot_triple cfg (db w) (dirs w) kind key parent opts H2 w) as [Ht [Hc|(_ & _ & Hf)]];
    [by split_and!|by split|done].
Qed.

Lemma run_op_inv (o : op) (w : World DB) :
  snap_inv w -> match o with OpPrepare key _ _ | OpView key _ _ => ~ mounts_can_fail (DB := DB) cfg key | _ => True end ->
  snap_inv (run_op o w).
Proof.
  intros Hi Hno. pose proof Hi as [H1 H2]. assert (st (db w) None (dirs w) w) as Hst by (by split_and!).
  destruct o as [key|key info l|key|key p o|key p o|key|name key o|key|]; cbn [run_op].
  - by apply quiet_inv; [apply quiet_StatKey|].
  - destruct (Update_triple cfg (db w) (dirs w) key info l w Hst) as (d' & E & E1 & E2 & E3).
    split; [done|]. rewrite E1, E3. eapply covered_sub; [done|]. by rewrite E.
  - by apply quiet_inv; [apply quiet_Usage|].
  - by apply create_inv.
  - by apply create_inv.
  - by apply Mounts_inv.
  - destruct (Commit_triple cfg (db w) (dirs w) name key o w Hst) as (d' & E & E1 & E2 & E3).
    split; [done|]. rewrite E1, E3. eapply covered_sub; [done|]. by rewrite E.
  - destruct (Remove_triple cfg (db w) (dirs w) key w Hst) as (d' & D' & Ht & (E1 & E2 & E3) & Hr).
    split; [done|]. rewrite E1, E3. destruct (Remove cfg key w).2.
    + eapply covered_trimmed; [|done]. eapply covered_sub; [done|]. by eapply remove_ids.
    + destruct Hr as [-> ->]. done.
  - destruct (Cleanup_triple cfg (db w) (dirs w) w Hst) as (D' & Ht & E1 & E2 & E3).
    split; [done|]. rewrite E1, E3. by eapply covered_trimmed.
Qed.

(** Without rootfs hooks and outside a nested user namespace, building mounts cannot fail. *)
Lemma mounts_cannot_fail (key : string) :
  IdentityResolver (rootfsHooks cfg) = None -> runningInNestedUserNS (uid_map cfg) = false ->
  ~ mounts_can_fail (DB := DB) cfg key.
Proof.
  intros Hh Hn (s & info & w & e & Hm). unfold mounts_ in Hm.
  assert (forall ms v, (run_hook cfg key ms v : World DB * _).2 = Ok ms) as Hr.
  { intros ms v. unfold run_hook, applyRootfsHook. by rewrite Hh. }
  destruct (plain_mounts _ _ _) as [ms|ms]; [|done]. rewrite Hn, andb_false_r in Hm.
  destruct (negb _); [done|]. by rewrite Hr in Hm.
Qed.
End Histories.

(** C12. Along every history of operations, under every stream of system-call
    failures, a snapshotter whose mounts cannot fail (no rootfs hooks, not in a
    nested user namespace) keeps the directory of every snapshot the database
    knows, and never leaves a write transaction open. *)
Theorem snapshots_have_directories {DB : Type} `{MetaStoreLaws DB} (cfg : Config) (w0 w : World DB) :
  IdentityResolver (rootfsHooks cfg) = None -> runningInNestedUserNS (uid_map cfg) = false ->
  snap_inv w0 -> reachable cfg w0 w -> snap_inv w.
Proof.
  intros Hh Hn Hinit Hr. induction Hr as [|w o _ IH]; [done|]. apply run_op_inv; [done|].
  destruct o; try done; by apply mounts_cannot_fail.
Qed.

(** With hooks, the only operation that can lose a directory is a creation
    that reports an error after its transaction was committed: in every other
    case the invariant holds after the operation, whatever fails. *)
Theorem only_failed_mounts_orphan {DB : Type} `{MetaStoreLaws DB} (cfg : Config) (o : op) (w : World DB) :
  snap_inv w ->
  snap_inv (run_op cfg o w) \/
  match o with
  | OpPrepare key parent opts =>
      exists e, (Prepare cfg key parent opts w).2 = Err e /\ orphaned (db w) (db (run_op cfg o w)) (dirs (run_op cfg o w))
  | OpView key parent opts =>
      exists e, (View cfg key parent opts w).2 = Err e /\ orphaned (db w) (db (run_op cfg o w)) (dirs (run_op cfg o w))
  | _ => False
  end.
Proof.
  intros Hi. destruct o as [| | |key p o|key p o| | | |]; try (left; by apply run_op_inv).
  all: pose proof Hi as [H1 H2].
  - destruct (createSnapshot_triple cfg (db w) (dirs w) KindActive key p o H2 w) as [Ht [Hc|((e & He) & Ho & _)]];
      [by split_and!|left; by split|right; by exists e].
  - destruct (createSnapshot_triple cfg (db w) (dirs w) KindView key p o H2 w) as [Ht [Hc|((e & He) & Ho & _)]];
      [by split_and!|left; by split|right; by exists e].
Qed.

(** ** A concrete store *)

Record entry := mkEntry { en_id : string; en_kind : Kind; en_parents : list string; en_info : Info; en_usage : Usage }.
Record store := mkStoreDB { next_id : positive; entries : gmap string entry }.

Definition ErrAlreadyExists : error := ErrNew "already exists".

Definition store_parents (d : store) (parent : string) : result (list string) :=
  if bool_decide (parent = "") then Ok [] else
  match entries d !! parent with
  | Some e => Ok (en_id e :: en_parents e)
  | None => Err ErrCtrdNotFound
  end.

Definition store_find (d : store) (key : string) : result entry :=
  match entries d !! key with Some e => Ok e | None => Err ErrCtrdNotFound end.

Definition fresh_id (d : store) : string := pretty (next_id d).

Definition store_ids (d : store) : gset string := list_to_set (map (fun kv => en_id kv.2) (map_to_list (entries d))).

(** Identifiers count up, as bolt's sequence does; one already in use is refused. *)
#[global] Instance store_meta : MetaStore store := {
  CreateSnapshot d k key parent o :=
    match entries d !! key with
    | Some _ => Err ErrAlreadyExists
    | None =>
        ps ← store_parents d parent;
        if bool_decide (fresh_id d ∈ store_ids d) then Err ErrAlreadyExists else
        let info := o (mkInfo k None) in
        Ok (mkStoreDB (Pos.succ (next_id d))
              (<[key := mkEntry (fresh_id d) k ps info (mkUsage 0 0)]> (entries d)),
            mkSnapshot k (fresh_id d) ps)
    end;
  GetSnapshot d key := e ← store_find d key; Ok (mkSnapshot (en_kind e) (en_id e) (en_parents e));
  GetInfo d key := e ← store_find d key; Ok (en_id e, en_info e, en_usage e);
  UpdateInfo d key info l :=
    e ← store_find d key;
    Ok (mkStoreDB (next_id d) (<[key := mkEntry (en_id e) (en_kind e) (en_parents e) info (en_usage e)]> (entries d)), info);
  CommitActive d key name u o :=
    e ← store_find d key;
    if bool_decide (name = key) || bool_decide (is_Some (entries d !! name)) then Err ErrAlreadyExists else
    Ok (mkStoreDB (next_id d)
          (<[name := mkEntry (en_id e) KindCommitted (en_parents e) (o (en_info e)) u]> (delete key (entries d))));
  RemoveKey d key := _ ← store_find d key; Ok (mkStoreDB (next_id d) (delete key (entries d)));
  IDMap d := store_ids d }.

Lemma elem_of_store_ids (d : store) (i : string) :
  i ∈ store_ids d <-> exists k e, entries d !! k = Some e /\ en_id e = i.
Proof.
  unfold store_ids. rewrite elem_of_list_to_set, list_elem_of_fmap. split.
  - intros ([k e] & -> & H%elem_of_map_to_list). by exists k, e.
  - intros (k & e & H & <-). exists (k, e). split; [done|]. by apply elem_of_map_to_list.
Qed.

#[global] Instance store_laws : MetaStoreLaws store.
Proof.
  assert (forall d key e, store_find d key = Ok e -> entries d !! key = Some e) as Hf.
  { intros d key e. unfold store_find. destruct (entries d !! key); [by intros [= <-]|done]. }
  split.
  - intros d k key p o d' s. cbn. destruct (entries d !! key) eqn:Ek; [done|].
    intros (ps & Hps & H)%bind_ok. case_bool_decide as Hid; [done|]. injection H as <- <-. cbn.
    split; [|done]. apply set_eq. intros i. rewrite elem_of_union, elem_of_singleton, !elem_of_store_ids. cbn. split.
    + intros (k' & e & [[<- <-]|[Hne He]]%lookup_insert_Some & <-); [by left|right; by exists k', e].
    + intros [->|(k' & e & He & <-)]; [eexists key, _; split; [apply lookup_insert_eq|done]|].
      exists k', e. rewrite lookup_insert_ne; [done|]. intros ->. congruence.
  - intros d k key p o d' s. cbn. destruct (entries d !! key) eqn:Ek; [done|].
    intros (ps & Hps & H)%bind_ok. case_bool_decide as Hid; [done|]. injection H as <- <-. cbn.
    split; [done|]. unfold store_find. cbn. rewrite lookup_insert_eq. by eexists _, _.
  - intros d key name u o d'. cbn. intros (e & He%Hf & H)%bind_ok. destruct (_ || _) eqn:En; [done|].
    apply orb_false_iff in En as [Hn1%bool_decide_eq_false_1 Hn2%bool_decide_eq_false_1].
    apply eq_None_not_Some in Hn2. injection H as <-. apply set_eq. intros i. rewrite !elem_of_store_ids. cbn. split.
    + intros (k & x & [[<- <-]|[Hne Hx]]%lookup_insert_Some & <-); [by exists key, e|].
      apply lookup_delete_Some in Hx as [_ Hx]. by exists k, x.
    + intros (k & x & Hx & <-). destruct (decide (k = key)) as [->|Hk].
      * eexists name, _. split; [apply lookup_insert_eq|]. cbn. congruence.
      * exists k, x. rewrite lookup_insert_ne by congruence. by rewrite lookup_delete_ne.
  - intros d key info l d' i'. cbn. intros (e & He%Hf & H)%bind_ok. injection H as <- <-.
    apply set_eq. intros i. rewrite !elem_of_store_ids. cbn. split.
    + intros (k & x & [[<- <-]|[Hne Hx]]%lookup_insert_Some & <-); [by exists key, e|by exists k, x].
    + intros (k & x & Hx & <-). destruct (decide (k = key)) as [->|Hk].
      * eexists key, _. split; [apply lookup_insert_eq|]. cbn. congruence.
      * exists k, x. by rewrite lookup_insert_ne.
  - intros d key d'. cbn. intros (e & He & H)%bind_ok. injection H as <-. intros i.
    rewrite !elem_of_store_ids. cbn. intros (k & x & [_ Hx]%lookup_delete_Some & <-). by exists k, x.
Qed.

(** ** Scenarios *)

Definition no_hooks : RootfsHooks := mkHooks None None None None None None.
Definition quiet_fs : fs := mkFs ∅ [] 18.
Definition plain_cfg : Config :=
  mkConfig "/snap" false no_hooks (Ok "0 0 4294967295") (fun _ => None) (fun n => pretty (N.of_nat n)) (fun _ => mkUsage 1 1).
Definition new_world : World store := mkWorld (mkStoreDB 1 ∅) None 0 ∅ quiet_fs ∅ [] ∅ 0.

Lemma new_world_inv : snap_inv new_world.
Proof. split; [done|]. intros id Hid. apply elem_of_store_ids in Hid as (k & e & He & _). change (entries (db new_world)) with (∅ : gmap string entry) in He. by rewrite lookup_empty in He. Qed.

(** A committed base layer and a container on top of it. *)
Definition base_ops (w : World store) : World store :=
  let w := run_op plain_cfg (OpPrepare "extract" "" id) w in
  run_op plain_cfg (OpCommit "layer" "extract" id) w.

Lemma base_reachable : reachable plain_cfg new_world (run_op plain_cfg (OpPrepare "c1" "layer" id) (base_ops new_world)).
Proof. unfold base_ops. repeat constructor. Qed.

Lemma snapshots_have_directories_witness :
  let w := run_op plain_cfg (OpPrepare "c1" "layer" id) (base_ops new_world) in
  snap_inv w /\ IDMap (db w) = {[ "1"; "2" ]} /\ dirs w !! "2" = Some (mkSnapDir true true false).
Proof.
  split; [|by vm_compute].
  apply (snapshots_have_directories plain_cfg new_world); [reflexivity|reflexivity|exact new_world_inv|exact base_reachable].
Defined.

(** Hooks that know the container but find no PVC mount for it. *)
Definition failing_hooks : RootfsHooks :=
  mkHooks (Some (fun k => Ok (mkRequest k "uid" "app" ""))) (Some (fun _ => Ok (mkSpec "data" "" false [] false None)))
    (Some (fun _ _ => Err ErrPVCMountNotFound)) (Some (fun f _ => (f, Ok (mkPrepared "/u" "/w")))) None None.
Definition hook_cfg : Config :=
  mkConfig "/snap" false failing_hooks (Ok "0 0 4294967295") (fun _ => None) (fun n => pretty (N.of_nat n)) (fun _ => mkUsage 1 1).

Lemma only_failed_mounts_orphan_witness :
  exists e, (Prepare hook_cfg "c1" "layer" id (base_ops new_world)).2 = Err e /\
    orphaned (db (base_ops new_world)) (db (run_op hook_cfg (OpPrepare "c1" "layer" id) (base_ops new_world)))
      (dirs (run_op hook_cfg (OpPrepare "c1" "layer" id) (base_ops new_world))).
Proof.
  assert (snap_inv (base_ops new_world)) as Hi.
  { unfold base_ops. repeat (apply run_op_inv; [|try done; by apply mounts_cannot_fail]). apply new_world_inv. }
  destruct (only_failed_mounts_orphan hook_cfg (OpPrepare "c1" "layer" id) (base_ops new_world) Hi) as [Hbad|Hok];
    [exfalso|exact Hok].
  destruct Hbad as [_ Hc]. destruct (Hc "2") as (x & Hx & _); [by vm_compute|]. by vm_compute in Hx.
Defined.

(** When the rootfs hook fails, [Prepare] reports the error only after the
    database transaction was committed and then deletes the snapshot's directory:
    the key stays taken, its snapshot has no directory, and preparing it again
    fails because it exists. *)
Theorem prepare_error_orphans_snapshot :
  let w := (Prepare hook_cfg "c1" "layer" id (base_ops new_world)).1 in
  (Prepare hook_cfg "c1" "layer" id (base_ops new_world)).2 = Err ErrPVCMountNotFound /\
  is_ok (GetInfo (db w) "c1") = true /\ "2" ∈ IDMap (db w) /\ dirs w !! "2" = None /\
  (Prepare hook_cfg "c1" "layer" id w).2 = Err (ErrWrap "failed to create snapshot" ErrAlreadyExists).
Proof. by vm_compute. Qed.

(** [Mounts] of an unknown key never ends its read transaction, while [Stat]
    of the same key does. *)
Theorem mounts_leaks_read_transaction {DB : Type} `{MetaStore DB} (cfg : Config) (w : World DB) (key : string) (e e' : error) :
  fault cfg (clock w) = None -> GetSnapshot (db w) key = Err e -> GetInfo (db w) key = Err e' ->
  readers (Mounts_ cfg key w).1 = S (readers w) /\ readers (StatKey cfg key w).1 = readers w.
Proof.
  intros Hf Hs Hi. unfold Mounts_, StatKey, finally, begin_read, end_read, try, lift, mbind, M_bind, sys, get.
  cbn. rewrite Hf. cbn. rewrite Hs. cbn. split; [done|]. by rewrite Hi.
Qed.

Lemma mounts_leaks_read_transaction_witness :
  readers (Mounts_ plain_cfg "none" new_world).1 = 1 /\ readers (StatKey plain_cfg "none" new_world).1 = 0.
Proof.
  apply (mounts_leaks_read_transaction plain_cfg new_world "none" ErrCtrdNotFound ErrCtrdNotFound); reflexivity.
Defined.

(** ** Cleanup *)

Section Clean.
Context {DB : Type} `{MetaStore DB} (cfg : Config) (Hf : forall n, fault cfg n = None).

Lemma remove_dirs_cons (x : string) (l : list string) (w : World DB) :
  remove_dirs cfg (x :: l) w = remove_dirs cfg l (RemoveAllDir cfg x w).1.
Proof. cbn [remove_dirs]. unfold mbind, M_bind, try. by destruct (RemoveAllDir cfg x w). Qed.

Lemma RemoveAllDir_nofault (x : string) (w : World DB) :
  let w' := (RemoveAllDir cfg x w).1 in db w' = db w /\ tx w' = tx w /\ dirs w' = delete x (dirs w).
Proof. unfold RemoveAllDir, mbind, M_bind, sys, get. cbn. by rewrite Hf. Qed.

Lemma remove_dirs_nofault (names : list string) (w : World DB) :
  let w' := (remove_dirs cfg names w).1 in
  (remove_dirs cfg names w).2 = Ok tt /\ db w' = db w /\ tx w' = tx w /\
  forall n, dirs w' !! n = if bool_decide (n ∈ names) then None else dirs w !! n.
Proof.
  revert w. induction names as [|x l IH]; intros w.
  { cbn. by split_and!. }
  rewrite remove_dirs_cons. destruct (RemoveAllDir_nofault x w) as (R1 & R2 & R3).
  destruct (IH (RemoveAllDir cfg x w).1) as (E1 & E2 & E3 & E4).
  split_and!; [done|congruence|congruence|]. intros n. rewrite E4, R3.
  destruct (decide (n ∈ l)); [rewrite !bool_decide_eq_true_2 by (done || by right); done|].
  rewrite (bool_decide_eq_false_2 (n ∈ l)) by done. case_bool_decide as Hn.
  - apply elem_of_cons in Hn as [->|?]; [apply lookup_delete_eq|done].
  - rewrite lookup_delete_ne; [done|]. intros ->. apply Hn. by left.
Qed.
Lemma cleanupDirectories_nofault (w : World DB) :
  exists v, cleanupDirectories cfg w = (v, Ok (filter (fun n => n ∉ IDMap (db w)) (elements (dom (dirs w))))) /\
    db v = db w /\ tx v = None /\ dirs v = dirs w.
Proof.
  unfold cleanupDirectories, finally, getCleanupDirectories, begin_write, tx_db, Rollback, set_tx, try, lift, mbind, M_bind,
    sys, get. cbn. rewrite Hf. cbn. rewrite !Hf. cbn. rewrite ?Hf. cbn. by eexists.
Qed.
End Clean.

(** When the system calls succeed, [Cleanup] removes exactly the directories
    that belong to no snapshot and changes nothing else of the database or the
    remaining directories. *)
Theorem Cleanup_removes_orphans {DB : Type} `{MetaStore DB} (cfg : Config) (w : World DB) :
  (forall n, fault cfg n = None) -> tx w = None ->
  let w' := (Cleanup cfg w).1 in
  (Cleanup cfg w).2 = Ok tt /\ db w' = db w /\ tx w' = None /\
  forall n, dirs w' !! n = if bool_decide (n ∈ IDMap (db w)) then dirs w !! n else None.
Proof.
  intros Hf Ht w'. destruct (cleanupDirectories_nofault cfg Hf w) as (v & Ev & V1 & V2 & V3).
  assert (Cleanup cfg w = remove_dirs cfg (filter (fun n => n ∉ IDMap (db w)) (elements (dom (dirs w)))) v) as EC.
  { unfold Cleanup, mbind, M_bind. by rewrite Ev. }
  destruct (remove_dirs_nofault cfg Hf (filter (fun n => n ∉ IDMap (db w)) (elements (dom (dirs w)))) v)
    as (E1 & E2 & E3 & E4). subst w'. rewrite EC.
  split_and!; [done|congruence|congruence|]. intros n. rewrite E4, V3. case_bool_decide as Hn.
  - apply list_elem_of_filter in Hn as [Hn _]. by rewrite bool_decide_eq_false_2.
  - case_bool_decide as Hid; [done|]. destruct (dirs w !! n) eqn:E; [|done]. exfalso. apply Hn.
    apply list_elem_of_filter. split; [done|]. apply elem_of_elements, elem_of_dom. by eexists.
Qed.

Definition littered : World store :=
  let w := base_ops new_world in
  mkWorld (db w) None 0 (<["new-9" := mkSnapDir true true false]> (dirs w)) quiet_fs ∅ [] ∅ 0.

Lemma Cleanup_removes_orphans_witness :
  dirs (Cleanup plain_cfg littered).1 !! "new-9" = None /\ is_Some (dirs (Cleanup plain_cfg littered).1 !! "1").
Proof.
  destruct (Cleanup_removes_orphans plain_cfg littered) as (_ & _ & _ & Hd); [reflexivity|reflexivity|].
  split.
  - rewrite (Hd "new-9"). vm_compute. reflexivity.
  - rewrite (Hd "1"). vm_compute. eauto.
Defined.
