(* ===== verification/HookThms.v ===== *)
(** * The rootfs hook end to end

    The hook of the snapshotter with the resolvers, the preparer and the handoff
    store of the rootfs package plugged in, and the materialization of a rootfs in
    a nested user namespace. *)

From S2P Require Import Prelude GoStrings GoPath GoJson GoFs GoSha Rootfs RootfsThms Handoff HandoffThms.
From S2P Require Import Lite LiteThms SnapshotMounts Snapshotter SnapshotterThms.

Open Scope string_scope.
Open Scope list_scope.

(** ** Rewriting the overlay mount *)

(** The options that are not the writable layer. *)
Definition lower_options (l : list string) : list string :=
  filter (fun o => has_prefix "upperdir=" o = false /\ has_prefix "workdir=" o = false) l.

Lemma rewrite_upper (u w x : string) : rewrite_option fuseType u w ("upperdir=" +:+ x) = "upperdir=" +:+ u.
Proof. reflexivity. Qed.
Lemma rewrite_work (u w x : string) : rewrite_option fuseType u w ("workdir=" +:+ x) = "workdir=" +:+ w.
Proof. reflexivity. Qed.
Lemma rewrite_lower (u w x : string) : rewrite_option fuseType u w ("lowerdir=" +:+ x) = "lowerdir=" +:+ x.
Proof. reflexivity. Qed.
Lemma rewrite_nodev (u w x : string) : rewrite_option fuseType u w ("nodev," +:+ x) = "nodev," +:+ x.
Proof. reflexivity. Qed.

(** The mount of an active snapshot that has parents. *)
Definition active_overlay (root : string) (s : Snapshot) (info : Info) : list CMount :=
  [mkCMount fuseType "overlay" (overlay_options root s info)].

Lemma rewrite_active (root : string) (s : Snapshot) (info : Info) (u w : string) :
  s_Kind s = KindActive ->
  exists rest, overlay_options root s info
      = ("workdir=" +:+ workPath root (ID s)) :: ("upperdir=" +:+ upperPath root (ID s)) :: rest /\
    rewriteFuseOverlayMounts (active_overlay root s info) u w
      = [mkCMount fuseType "overlay" (("workdir=" +:+ w) :: ("upperdir=" +:+ u) :: rest)] /\
    forall a b, scan_options a b rest = (a, b).
Proof.
  intros Hk. unfold rewriteFuseOverlayMounts, active_overlay, overlay_options.
  rewrite bool_decide_eq_true_2 by done. cbn [app map cm_Type cm_Source cm_Options].
  rewrite rewrite_work, rewrite_upper, rewrite_lower. eexists. split; [reflexivity|].
  case_bool_decide; cbn [map]; [by split|]. rewrite rewrite_nodev. by split.
Qed.

Lemma rewrite_moves_layer_l (root : string) (s : Snapshot) (info : Info) (u w : string) :
  s_Kind s = KindActive -> u <> "" -> w <> "" ->
  let ms := rewriteFuseOverlayMounts (active_overlay root s info) u w in
  materializedRootfsPaths ms = Ok (u, w) /\
  map (fun m => lower_options (cm_Options m)) ms
    = map (fun m => lower_options (cm_Options m)) (active_overlay root s info) /\
  map (fun m => length (cm_Options m)) ms = map (fun m => length (cm_Options m)) (active_overlay root s info).
Proof.
  intros Hk Hu Hw ms. destruct (rewrite_active root s info u w Hk) as (rest & Eo & Er & Hs).
  subst ms. rewrite Er. unfold active_overlay. rewrite Eo. cbn [map cm_Options length]. split_and!; [|done|done].
  unfold materializedRootfsPaths. cbn [cm_Type cm_Options]. rewrite bool_decide_eq_true_2 by done. cbn [negb].
  change (scan_options "" "" (("workdir=" +:+ w) :: ("upperdir=" +:+ u) :: rest)) with (scan_options u w rest).
  rewrite Hs. by rewrite !bool_decide_eq_false_2.
Qed.

(** Redirecting the writable layer is exact: on the mount of an active
    snapshot, the rewriting replaces the upper and work directories by the given
    ones, keeps every other option in place, and reading the directories back off
    the rewritten mount gives the new ones. *)
Theorem rewrite_moves_layer (root : string) (s : Snapshot) (info : Info) (u w : string) :
  s_Kind s = KindActive -> u <> "" -> w <> "" ->
  let ms := rewriteFuseOverlayMounts (active_overlay root s info) u w in
  materializedRootfsPaths ms = Ok (u, w) /\
  map (fun m => lower_options (cm_Options m)) ms
    = map (fun m => lower_options (cm_Options m)) (active_overlay root s info) /\
  map (fun m => length (cm_Options m)) ms = map (fun m => length (cm_Options m)) (active_overlay root s info).
Proof. apply rewrite_moves_layer_l. Qed.

Lemma rewrite_moves_layer_witness :
  materializedRootfsPaths (rewriteFuseOverlayMounts
    (active_overlay "/snap" (mkSnapshot KindActive "7" ["3"; "1"]) (mkInfo KindActive None)) "/pvc/upper" "/pvc/work")
    = Ok ("/pvc/upper", "/pvc/work").
Proof.
  apply (rewrite_moves_layer "/snap" (mkSnapshot KindActive "7" ["3"; "1"]) (mkInfo KindActive None) "/pvc/upper" "/pvc/work");
    [reflexivity|discriminate|discriminate].
Defined.

(** ** Materialization *)

(** The rootfs is materialized at most once per work directory, and the
    marker is written only after the copy: when [materializeActiveSnapshot]
    succeeds the marker is there, and either it was there before and nothing was
    copied, or the tree was copied exactly once by this call; when it fails, for
    whatever reason, no marker appears, so that the next attempt copies. *)
Theorem materialize_once {DB : Type} `{MetaStore DB} (cfg : Config) (id upper work : string) (w : World DB) :
  let w' := (materializeActiveSnapshot cfg id upper work w).1 in
  match (materializeActiveSnapshot cfg id upper work w).2 with
  | Ok _ => work ∈ markers w' /\
      (work ∈ markers w /\ copied w' = copied w \/ copied w' = copied w ++ [(upper, id)])
  | Err _ => markers w' = markers w
  end.
Proof.
  unfold materializeActiveSnapshot, stat_marker, mkdir_merged, mount_merged, unmount_merged, copy_dir, set_marker,
    finally, wrap_m, try, lift, mbind, M_bind, sys, get.
  cbn. destruct (fault cfg (clock w)) as [e0|]; cbn.
  - destruct (os_IsNotExist e0); cbn; [|done].
    repeat (match goal with |- context [fault cfg ?n] => destruct (fault cfg n) end; cbn; try done);
      (split; [set_solver|by right]).
  - case_bool_decide as Hm; cbn; [split; [done|by left]|].
    change (os_IsNotExist ErrNotExist) with true. cbn.
    repeat (match goal with |- context [fault cfg ?n] => destruct (fault cfg n) end; cbn; try done);
      (split; [set_solver|by right]).
Qed.

(** ** The hook *)

Lemma hook_spec (hooks : RootfsHooks) (f f' : fs) (key : string) (ms ms' : list CMount)
    (identity : string -> result RootfsRwLayerRequest) (metadata : RootfsRwLayerRequest -> result RootfsRwLayerSpec)
    (request : RootfsRwLayerRequest) (spec : RootfsRwLayerSpec)
    (pvc : RootfsRwLayerRequest -> RootfsRwLayerSpec -> result string)
    (preparer : fs -> PrepareRootfsRequest -> fs * result PreparedRootfs) :
  IdentityResolver hooks = Some identity -> MetadataResolver hooks = Some metadata ->
  PVCResolver hooks = Some pvc -> Preparer hooks = Some preparer ->
  identity key = Ok request -> metadata request = Ok spec -> Sidecar spec = false ->
  applyRootfsHook hooks f key ms = (f', Ok ms') ->
  exists path prepared f1,
    pvc request spec = Ok path /\
    preparer f (mkPrepare (rq_SnapshotKey request) (rq_PodUID request) (rq_ContainerName request) (Path spec) path)
      = (f1, Ok prepared) /\
    ms' = rewriteFuseOverlayMounts ms (UpperDir prepared) (WorkDir prepared) /\
    if PersistentSpecialMounts spec
    then exists write, HandoffWrite hooks = Some write /\ write f1 (handoff_for request spec path) = (f', Ok tt)
    else f' = f1.
Proof.
  intros H1 H2 H3 H4 Hid Hm Hs. unfold applyRootfsHook. rewrite H1, H2, H3, H4, Hid, Hm, Hs.
  destruct (pvc request spec) as [path|]; [|done].
  destruct (preparer _ _) as [f1 [prepared|]] eqn:Ep; [|done]. unfold publish.
  intros H. exists path, prepared, f1. split; [done|]. split; [done|].
  destruct (PersistentSpecialMounts spec).
  - destruct (HandoffWrite hooks) as [write|]; [|done].
    destruct (write _ _) as [f2 [[]|]] eqn:Ew; [|done]. injection H as <- <-. split; [done|]. by exists write.
  - by injection H as <- <-.
Qed.

Lemma hook_sidecar (hooks : RootfsHooks) (f f' : fs) (key : string) (ms ms' : list CMount)
    (identity : string -> result RootfsRwLayerRequest) (metadata : RootfsRwLayerRequest -> result RootfsRwLayerSpec)
    (request : RootfsRwLayerRequest) (spec : RootfsRwLayerSpec) :
  IdentityResolver hooks = Some identity -> MetadataResolver hooks = Some metadata ->
  identity key = Ok request -> metadata request = Ok spec -> Sidecar spec = true ->
  applyRootfsHook hooks f key ms = (f', Ok ms') -> f' = f /\ ms' = ms.
Proof.
  intros H1 H2 Hid Hm Hs. unfold applyRootfsHook. rewrite H1, H2.
  destruct (PVCResolver hooks) as [pvc|], (Preparer hooks) as [prep|]; try rewrite Hid; try rewrite Hm; try rewrite Hs; naive_solver.
Qed.

(** The hook never silently drops persistence: for a container whose layer is
    configured (its identity and its entry resolve, and it is not the sidecar) it
    either fails or redirects the writable layer to the directories prepared on
    the volume, and in that case the handoff for the special mounts, if they are
    asked for, has been written for the same volume path. *)
Theorem hook_fails_closed (hooks : RootfsHooks) (f f' : fs) (key : string) (ms ms' : list CMount)
    (identity : string -> result RootfsRwLayerRequest) (metadata : RootfsRwLayerRequest -> result RootfsRwLayerSpec)
    (request : RootfsRwLayerRequest) (spec : RootfsRwLayerSpec)
    (pvc : RootfsRwLayerRequest -> RootfsRwLayerSpec -> result string)
    (preparer : fs -> PrepareRootfsRequest -> fs * result PreparedRootfs) :
  IdentityResolver hooks = Some identity -> MetadataResolver hooks = Some metadata ->
  PVCResolver hooks = Some pvc -> Preparer hooks = Some preparer ->
  identity key = Ok request -> metadata request = Ok spec -> Sidecar spec = false ->
  applyRootfsHook hooks f key ms = (f', Ok ms') ->
  exists path prepared f1,
    pvc request spec = Ok path /\
    preparer f (mkPrepare (rq_SnapshotKey request) (rq_PodUID request) (rq_ContainerName request) (Path spec) path)
      = (f1, Ok prepared) /\
    ms' = rewriteFuseOverlayMounts ms (UpperDir prepared) (WorkDir prepared) /\
    if PersistentSpecialMounts spec
    then exists write, HandoffWrite hooks = Some write /\ write f1 (handoff_for request spec path) = (f', Ok tt)
    else f' = f1.
Proof. apply hook_spec. Qed.

(** The hooks as the plugin wires them: [ctx_done] and [mountinfo] are what the
    resolvers see of the system. *)
Definition wired_hooks `{ContainerdClient} (ctx_done : nat -> option error) (mountinfo : result string) (env : tmp_env)
    : RootfsHooks :=
  {| IdentityResolver := Some ResolveIdentity;
     MetadataResolver := Some (ResolveRootfsRwLayer (LoadSidecarSpec ctx_done));
     PVCResolver := Some (ResolvePVCMountPath (LoadSidecarSpec ctx_done) mountinfo);
     Preparer := Some (PrepareRootfsRwLayer None);
     HandoffWrite := Some (Write (mkStore PersistentSpecialHandoffDir) None env);
     HandoffRemove := Some (Remove_ (mkStore PersistentSpecialHandoffDir) None) |}.

(** ** A concrete container

    The container [app] of pod [uid-1] keeps its rootfs on the volume [data],
    mounted from /pvc on the node. *)

Definition hook_annotation : string :=
  "[{" +:+ jq "name" +:+ ":" +:+ jq "app" +:+ "," +:+ jq "volumeName" +:+ ":" +:+ jq "data" +:+ ","
    +:+ jq "path" +:+ ":" +:+ jq "app/fs" +:+ "," +:+ jq "persistentSpecialMounts" +:+ ":true}]".

Definition hook_labels : gomap :=
  Some {[ "io.kubernetes.pod.uid" := "uid-1"; "io.kubernetes.container.name" := "app" ]}.
Definition hook_client (annotation : string) : ContainerdClient := {|
  client_New := Ok tt;
  client_LoadContainer := fun key => if bool_decide (key = "snap-7")
    then Ok (mkCtrd (Ok hook_labels) (Ok (Some (mkOciSpec None [] (Some {[ AnnotationRootfsRwLayer := annotation ]})))))
    else Err ErrCtrdNotFound;
  client_Containers := fun _ _ => Ok [mkCtrd (Ok None)
    (Ok (Some (mkOciSpec None [mkMount "/var/lib/sysbox/rootfs-rw-volume/data" "bind" "/pvc" []] None)))] |}.

Definition hook_example : RootfsHooks := @wired_hooks (hook_client hook_annotation) (fun _ => None) (Ok "") (wit_env (Ok tt)).
Definition hook_mounts : list CMount :=
  active_overlay "/snap" (mkSnapshot KindActive "7" ["3"]) (mkInfo KindActive None).
Definition hook_request : RootfsRwLayerRequest := mkRequest "snap-7" "uid-1" "app" hook_annotation.
Definition hook_spec_of : RootfsRwLayerSpec :=
  mkSpec "data" "app/fs" true [] false
    (Some (mkOciSpec None [mkMount "/var/lib/sysbox/rootfs-rw-volume/data" "bind" "/pvc" []] None)).
Definition hook_result : fs * result (list CMount) := applyRootfsHook hook_example wit_fs "k8s.io/snap-7" hook_mounts.

Definition hook_moved : list CMount := rewriteFuseOverlayMounts hook_mounts "/pvc/app/fs/upper" "/pvc/app/fs/work".

Lemma hook_result_ok : hook_result.2 = Ok hook_moved.
Proof. vm_cast_no_check (eq_refl (Ok hook_moved)). Qed.

Lemma hook_result_eq : applyRootfsHook hook_example wit_fs "k8s.io/snap-7" hook_mounts = (hook_result.1, Ok hook_moved).
Proof. rewrite <- hook_result_ok. apply surjective_pairing. Qed.

Lemma hook_identity : @ResolveIdentity (hook_client hook_annotation) "k8s.io/snap-7" = Ok hook_request.
Proof. vm_cast_no_check (eq_refl (Ok hook_request)). Qed.

Lemma hook_metadata :
  ResolveRootfsRwLayer (@LoadSidecarSpec (hook_client hook_annotation) (fun _ => None)) hook_request = Ok hook_spec_of.
Proof. vm_cast_no_check (eq_refl (Ok hook_spec_of)). Qed.

Lemma hook_pvc :
  ResolvePVCMountPath (@LoadSidecarSpec (hook_client hook_annotation) (fun _ => None)) (Ok "") hook_request hook_spec_of
    = Ok "/pvc".
Proof. vm_cast_no_check (eq_refl (Ok (A := string) "/pvc")). Qed.

Lemma hook_fails_closed_witness :
  exists path prepared f1,
    path = "/pvc" /\
    PrepareRootfsRwLayer None wit_fs (mkPrepare "snap-7" "uid-1" "app" "app/fs" path) = (f1, Ok prepared) /\
    hook_moved = rewriteFuseOverlayMounts hook_mounts (UpperDir prepared) (WorkDir prepared).
Proof.
  destruct (hook_fails_closed hook_example wit_fs hook_result.1 "k8s.io/snap-7" hook_mounts hook_moved
    (@ResolveIdentity (hook_client hook_annotation))
    (ResolveRootfsRwLayer (@LoadSidecarSpec (hook_client hook_annotation) (fun _ => None)))
    hook_request hook_spec_of
    (ResolvePVCMountPath (@LoadSidecarSpec (hook_client hook_annotation) (fun _ => None)) (Ok ""))
    (PrepareRootfsRwLayer None)) as (path & prepared & f1 & Hp & Hprep & Hms & _);
    [reflexivity|reflexivity|reflexivity|reflexivity|exact hook_identity|exact hook_metadata|reflexivity
    |exact hook_result_eq|].
  exists path, prepared, f1. rewrite hook_pvc in Hp.
  split; [congruence|]. split; [exact Hprep|exact Hms].
Defined.

(** ** From the container to the reader of the handoff *)

Lemma clear_after_prepare (f f1 : fs) (u w cs : epath) :
  clear_path f cs -> all_dirs f1 u -> all_dirs f1 w ->
  (forall p n, node_at f p = Some n -> node_at f1 p = Some n) ->
  (forall p, node_at f p = None -> node_at f1 p = None \/ p `prefix_of` u \/ p `prefix_of` w) ->
  clear_path f1 cs.
Proof.
  intros Hc Hu Hw Hk Hn pre n Hpre H1. destruct (node_at f pre) as [n0|] eqn:E.
  - pose proof (Hk _ _ E) as H2. assert (n = n0) as -> by congruence. by eapply Hc.
  - destruct (Hn _ E) as [?|[H2|H2]]; [congruence|apply Hu in H2|apply Hw in H2];
      destruct H2 as [m Hm]; assert (n = NDir m) as -> by congruence; done.
Qed.

(** The handoff file is neither of the layer's directories. *)
Lemma handoff_not_layer (key d : string) (p q : epath) : In d ["upper"; "work"] -> p ++ [d] <> q ++ [handoff_file key].
Proof.
  destruct (handoff_file_spec key) as (c & s & -> & Hc & _). intros Hd [_ [= E]]%app_inj_tail.
  destruct Hd as [<-|[<-|[]]]; injection E as <- _; by vm_compute in Hc.
Qed.

(** The handoff can be written and read back: the volume does not hold the handoff directory, no symbolic link
    or file is on the way to it, the random part of the temporary name has no slash and the record is ascii. *)
Record handoff_ready (env : tmp_env) (f : fs) (P : list string) (h : PersistentSpecialHandoff) : Prop := {
  hr_outside : ~ P `prefix_of` handoff_elems;
  hr_clear : clear_path f handoff_elems;
  hr_random : contains_char ch_slash (tmp_random env) = false;
  hr_ascii : ascii_handoff h }.

(** C13. End to end, for a key whose identity, entry and volume path P resolve (P with no symbolic link above it),
    on success of the hook as the plugin wires it.  For a sidecar nothing changes.  For any other container the runtime
    mounts the rootfs with upper and work directories below P, and both are directories there.  With special mounts,
    where the handoff directory is free of links and outside the volume and the record is ascii ([handoff_ready]),
    runc-lite reads back the handoff with the same volume path under the container's key; without special mounts (the default)
    there is no handoff: every file from before is kept and every new one is on the way to the two directories. *)
Theorem persistent_layer_end_to_end `{ContainerdClient} (ctx_done : nat -> option error) (mountinfo : result string)
    (env : tmp_env) (f f' : fs) (key root : string) (s : Snapshot) (info : Info) (ms' : list CMount)
    (request : RootfsRwLayerRequest) (spec : RootfsRwLayerSpec) (R : list string) (c : string) :
  let P := R ++ [c] in
  let h := handoff_for request spec (render true P) in
  fs_wf f -> Forall good P -> plain_path f R -> s_Kind s = KindActive ->
  ResolveIdentity key = Ok request ->
  ResolveRootfsRwLayer (LoadSidecarSpec ctx_done) request = Ok spec ->
  ResolvePVCMountPath (LoadSidecarSpec ctx_done) mountinfo request spec = Ok (render true P) ->
  (PersistentSpecialMounts spec = true -> handoff_ready env f P h) ->
  applyRootfsHook (wired_hooks ctx_done mountinfo env) f key (active_overlay root s info) = (f', Ok ms') ->
  if Sidecar spec then f' = f /\ ms' = active_overlay root s info else
  exists L, Forall good L /\
    materializedRootfsPaths ms' = Ok (render true ((P ++ L) ++ ["upper"]), render true ((P ++ L) ++ ["work"])) /\
    (forall d, In d ["upper"; "work"] -> exists m, node_at f' ((P ++ L) ++ [d]) = Some (NDir m)) /\
    if PersistentSpecialMounts spec then loadLiteHandoff f' (rq_SnapshotKey request) = Ok (lite_view h)
    else (forall p n, node_at f p = Some n -> node_at f' p = Some n) /\
         (forall p, node_at f p = None -> node_at f' p = None \/
            p `prefix_of` (P ++ L) ++ ["upper"] \/ p `prefix_of` (P ++ L) ++ ["work"]).
Proof.
  intros P h Hwf Hg Hp Hk Hid Hm Hpvc Hready Hh. destruct (Sidecar spec) eqn:Hs.
  { eapply hook_sidecar in Hh; [exact Hh|reflexivity|reflexivity|exact Hid|exact Hm|exact Hs]. }
  eapply hook_spec in Hh as (path & prepared & f1 & Hpath & Hprep & -> & Hw); [|reflexivity..|exact Hid|exact Hm|exact Hs].
  assert (path = render true P) as -> by congruence.
  apply (prepare_spec f f1 _ R c prepared) in Hprep as (Hwf1 & L & HL & -> & _ & _ & Hu & Hw1 & Hk1 & Hn1); [|done..].
  exists L. split; [done|]. split; [apply rewrite_moves_layer_l; done|].
  destruct (PersistentSpecialMounts spec).
  - destruct Hw as (write & [= <-] & HW). destruct (Hready eq_refl) as [Hout Hc Hr Ha].
    assert (clear_path f1 handoff_elems) as Hc1 by exact (clear_after_prepare f f1 _ _ _ Hc Hu Hw1 Hk1 Hn1).
    split; [|by apply (handoff_read_back f1 f' env h)].
    intros d Hd. change PersistentSpecialHandoffDir with (render true handoff_elems) in HW.
    apply Write_spec in HW as (Hf & _); [|by repeat constructor|done..].
    rewrite Hf; [|intros Hpre; apply Hout; etrans; [|exact Hpre]; rewrite <- app_assoc; by apply prefix_app_r
                 |by apply handoff_not_layer].
    destruct Hd as [<-|[<-|[]]]; [apply Hu|apply Hw1]; done.
  - subst f1. split; [|by split]. intros d Hd. destruct Hd as [<-|[<-|[]]]; [apply Hu|apply Hw1]; done.
Qed.

Lemma persistent_layer_end_to_end_witness :
  loadLiteHandoff hook_result.1 "snap-7" = Ok (mkLiteHandoff "snap-7" "uid-1" "app" "data" "/pvc") /\
  exists L m, node_at hook_result.1 ((["pvc"] ++ L) ++ ["upper"]) = Some (NDir m).
Proof.
  destruct (@persistent_layer_end_to_end (hook_client hook_annotation) (fun _ => None) (Ok "") (wit_env (Ok tt))
    wit_fs hook_result.1 "k8s.io/snap-7" "/snap" (mkSnapshot KindActive "7" ["3"]) (mkInfo KindActive None)
    hook_moved hook_request hook_spec_of [] "pvc") as (L & HL & Hms & Hd & Hh).
  - exact wit_fs_wf.
  - by repeat constructor.
  - intros pre t ->%prefix_nil_inv. done.
  - reflexivity.
  - exact hook_identity.
  - exact hook_metadata.
  - exact hook_pvc.
  - intros _. constructor.
    + intros [k Hk]. discriminate.
    + apply clear_path_check. vm_compute. reflexivity.
    + reflexivity.
    + by repeat constructor.
  - exact hook_result_eq.
  - split; [exact Hh|]. destruct (Hd "upper") as [m Hm]; [by left|]. exists L, m. exact Hm.
Defined.
