(* ===== verification/ProcStat.v ===== *)
(** * Process information: system/proc.go

    [parseStat] reads the name, the state and the start time of a process from a
    line of /proc/[pid]/stat, whose second field is the name in parentheses and may
    itself hold spaces and parentheses. *)

From S2P Require Import Prelude GoStrings.

Open Scope string_scope.
Open Scope list_scope.

Definition ch_open : ascii := chr 40.
Definition ch_close : ascii := chr 41.

Definition Dead : ascii := "X".
Definition Zombie : ascii := "Z".

Record Stat_t := mkStat { Name : string; State : ascii; StartTime : Z }.

(** [strings.IndexByte] and [strings.LastIndexByte], [None] for -1. *)
Fixpoint IndexByte (s : string) (c : ascii) : option nat :=
  match s with
  | EmptyString => None
  | String x s' => if bool_decide (x = c) then Some O else S <$> IndexByte s' c
  end.
Fixpoint LastIndexByte (s : string) (c : ascii) : option nat :=
  match s with
  | EmptyString => None
  | String x s' => match LastIndexByte s' c with
                   | Some i => Some (S i)
                   | None => if bool_decide (x = c) then Some O else None
                   end
  end.

(** The loop that skips [n] spaces: what is left when it stops. *)
Fixpoint skip_spaces (s : string) (n : nat) : string :=
  match n, s with
  | O, _ => s
  | _, EmptyString => EmptyString
  | S n', String c s' => if bool_decide (c = ch_space) then skip_spaces s' n' else skip_spaces s' n
  end.

Definition minAfterName : nat := 20 * 2 + 1.

Definition parseStat (data : string) : result Stat_t :=
  let short := ErrNew "invalid stat data (no comm or too short)" in
  match IndexByte data ch_open with
  | None => Err short
  | Some first =>
      if (String.length data <=? first + minAfterName)%nat then Err short else
      match LastIndexByte data ch_close with
      | None => Err short
      | Some last =>
          if (last <=? first)%nat || (String.length data <=? last + minAfterName)%nat then Err short else
          let name := take_str (last - (first + 1)) (drop_str (first + 1) data) in
          let data := drop_str (last + 2) data in
          match data with
          | EmptyString => Err (ErrNew "index out of range")
          | String st _ =>
              let rest := skip_spaces data (22 - 3) in
              match IndexByte rest ch_space with
              | None => Err (ErrNew "invalid stat data (too short)")
              | Some i =>
                  start ← wrap_err "invalid stat data (bad start time)" (parse_uint 64 (take_str i rest));
                  Ok (mkStat name st start)
              end
          end
      end
  end.

(** ** Reading what the kernel prints *)

Lemma IndexByte_app (c : ascii) (a b : string) :
  contains_char c a = false -> IndexByte (a +:+ String c b) c = Some (String.length a).
Proof.
  induction a as [|x a IH]; intros H; [rewrite app_empty_l; cbn; by rewrite bool_decide_eq_true_2|].
  cbn in H. apply orb_false_iff in H as [Hx H]. rewrite app_cons. cbn. by rewrite Hx, IH.
Qed.

Lemma LastIndexByte_none (c : ascii) (s : string) : contains_char c s = false -> LastIndexByte s c = None.
Proof. induction s as [|x s IH]; [done|]. cbn. intros [Hx H]%orb_false_iff. by rewrite IH, Hx. Qed.

Lemma LastIndexByte_app (c : ascii) (a b : string) :
  contains_char c b = false -> LastIndexByte (a +:+ String c b) c = Some (String.length a).
Proof.
  intros H. induction a as [|x a IH].
  - rewrite app_empty_l. cbn. by rewrite LastIndexByte_none, bool_decide_eq_true_2.
  - rewrite app_cons. cbn. by rewrite IH.
Qed.

Lemma skip_word (w s : string) (n : nat) :
  contains_char ch_space w = false -> skip_spaces (w +:+ String ch_space s) (S n) = skip_spaces s n.
Proof.
  induction w as [|x w IH]; intros H; cbn in H; [reflexivity|]. apply orb_false_iff in H as [Hx H].
  rewrite app_cons. cbn [skip_spaces]. rewrite Hx. by apply IH.
Qed.

Definition sp : string := String ch_space "".

Lemma join_cons_cons (x y : string) (l : list string) : join sp (x :: y :: l) = x +:+ String ch_space (join sp (y :: l)).
Proof. reflexivity. Qed.

(** The fields of a line. *)
Definition plain_field (w : string) : Prop :=
  w <> "" /\ contains_char ch_space w = false /\ contains_char ch_close w = false.

Lemma skip_fields (ws l : list string) (x : string) :
  Forall plain_field ws -> skip_spaces (join sp (ws ++ x :: l)) (length ws) = join sp (x :: l).
Proof.
  induction 1 as [|w ws (_ & Hs & _) _ IH]; [cbn [app length]; by destruct (join _ _)|]. cbn [app length].
  destruct (ws ++ x :: l) as [|y k] eqn:E; [by destruct ws|]. rewrite join_cons_cons, skip_word by done. exact IH.
Qed.

Lemma length_app_str (a b : string) : String.length (a +:+ b) = (String.length a + String.length b)%nat.
Proof. induction a as [|c a IH]; [done|]. rewrite app_cons. cbn. by rewrite IH. Qed.

Lemma join_length (ws : list string) :
  Forall plain_field ws -> ws <> [] -> (2 * length ws - 1 <= String.length (join sp ws))%nat.
Proof.
  induction 1 as [|w ws (Hw & _) _ IH]; [done|]. intros _.
  assert (1 <= String.length w)%nat by (destruct w; cbn; [done|lia]).
  destruct ws as [|y l]; [cbn in *; lia|]. rewrite join_cons_cons, length_app_str.
  specialize (IH ltac:(done)). cbn in *. lia.
Qed.

Lemma join_no_close (ws : list string) : Forall plain_field ws -> contains_char ch_close (join sp ws) = false.
Proof.
  intros H. apply join_no_char; [done|]. eapply Forall_impl; [exact H|]. by intros w (_ & _ & ?).
Qed.

Lemma take_str_app (a b : string) : take_str (String.length a) (a +:+ b) = a.
Proof. induction a as [|c a IH]; [by destruct b|]. rewrite app_cons. cbn. by rewrite IH. Qed.

Lemma digit_field (z : Z) : (0 <= z)%Z -> plain_field (format_int z).
Proof.
  intros Hz. split; [rewrite format_int_nonneg by done; apply pretty_N_not_empty|].
  split; by apply format_int_char.
Qed.

(** What proc(5) documents: the pid, the name in parentheses, the state, 18 fields,
    the start time, and more fields. *)
Definition stat_line (pid name : string) (st : ascii) (fs : list string) (start : Z) (rest : list string) : string :=
  pid +:+ " (" +:+ name +:+ ") " +:+ join sp (String st "" :: fs ++ format_int start :: rest).

(** Where the name is, and what follows it. *)
Lemma cut_name (a name tail : string) :
  contains_char ch_open a = false -> contains_char ch_close tail = false ->
  let D := a +:+ String ch_open (name +:+ String ch_close (sp +:+ tail)) in
  IndexByte D ch_open = Some (String.length a) /\
  LastIndexByte D ch_close = Some (String.length a + 1 + String.length name)%nat /\
  String.length D = (String.length a + String.length name + String.length tail + 3)%nat /\
  drop_str (String.length a + 1) D = name +:+ String ch_close (sp +:+ tail) /\
  drop_str (String.length a + 1 + String.length name + 2) D = tail.
Proof.
  intros Ha Ht D. assert (D = (a +:+ String ch_open name) +:+ String ch_close (sp +:+ tail)) as E2
    by (by rewrite (app_assoc_str a (String ch_open name))).
  assert (D = (a +:+ String ch_open "") +:+ (name +:+ String ch_close (sp +:+ tail))) as E3
    by (by rewrite (app_assoc_str a (String ch_open ""))).
  assert (D = ((a +:+ String ch_open name) +:+ ") ") +:+ tail) as E4
    by (by rewrite (app_assoc_str (a +:+ String ch_open name) ") ")).
  assert (String.length (a +:+ String ch_open name) = String.length a + 1 + String.length name)%nat as HL
    by (rewrite length_app_str; cbn [String.length]; lia).
  split_and!.
  - by apply IndexByte_app.
  - rewrite E2, LastIndexByte_app; [by rewrite HL|]. by rewrite contains_char_app, Ht.
  - unfold D. repeat (rewrite length_app_str; cbn [String.length]). change (String.length sp) with 1%nat. lia.
  - rewrite E3. replace (String.length a + 1)%nat with (String.length (a +:+ String ch_open ""))
      by (by rewrite length_app_str). apply drop_str_app.
  - rewrite E4. replace (String.length a + 1 + String.length name + 2)%nat
      with (String.length ((a +:+ String ch_open name) +:+ ") ")) by (rewrite length_app_str, HL; done).
    apply drop_str_app.
Qed.

(** [parseStat] reads back every line the kernel prints: whatever bytes the
    name of the process holds, spaces and parentheses included, the name, the state
    and the 64-bit start time are the printed ones. *)
Theorem parseStat_reads_line (pid name : string) (st : ascii) (fs : list string) (start : Z) (rest : list string) :
  contains_char ch_open pid = false -> plain_field (String st "") -> Forall plain_field fs -> length fs = 18%nat ->
  (0 <= start < 2 ^ 64)%Z -> Forall plain_field rest -> rest <> [] ->
  parseStat (stat_line pid name st fs start rest) = Ok (mkStat name st start).
Proof.
  intros Hpid Hst Hfs Hlen Hstart Hrest Hne. unfold stat_line.
  set (tail := join sp (String st "" :: fs ++ format_int start :: rest)).
  assert (Forall plain_field (String st "" :: fs ++ format_int start :: rest)) as Hall.
  { constructor; [done|]. apply Forall_app. split; [done|]. constructor; [apply digit_field; lia|done]. }
  assert (pid +:+ " (" +:+ name +:+ ") " +:+ tail
    = (pid +:+ sp) +:+ String ch_open (name +:+ String ch_close (sp +:+ tail))) as ->
    by (by rewrite (app_assoc_str pid sp)).
  assert (41 <= String.length tail)%nat as Hl.
  { pose proof (join_length _ Hall ltac:(done)) as H. fold tail in H. cbn [length] in H. rewrite length_app in H.
    destruct rest; [done|]. cbn [length] in H. lia. }
  destruct (cut_name (pid +:+ sp) name tail) as (Hfirst & Hlast & HD & Hd1 & Hd2);
    [by rewrite contains_char_app, Hpid|apply (join_no_close _ Hall)|].
  unfold parseStat. rewrite Hfirst, Hlast, HD, Hd1, Hd2. unfold minAfterName.
  rewrite (proj2 (Nat.leb_gt _ _)) by lia. rewrite (proj2 (Nat.leb_gt _ (String.length (pid +:+ sp)))) by lia.
  rewrite (proj2 (Nat.leb_gt _ _)) by lia. cbn [orb].
  replace (String.length (pid +:+ sp) + 1 + String.length name - (String.length (pid +:+ sp) + 1))%nat
    with (String.length name) by lia. rewrite take_str_app.
  assert (exists t, tail = String st t) as [t Et].
  { unfold tail. destruct (fs ++ format_int start :: rest) as [|y k] eqn:E; [by destruct fs|].
    rewrite join_cons_cons, app_cons. by eexists. }
  rewrite Et at 1. change (22 - 3)%nat with 19%nat.
  assert (skip_spaces tail 19 = join sp (format_int start :: rest)) as ->.
  { unfold tail. rewrite <- (skip_fields (String st "" :: fs) rest (format_int start)) by (by constructor).
    cbn [length]. by rewrite Hlen. }
  destruct (digit_field start) as (_ & Hsp & _); [lia|]. destruct rest as [|r rest]; [done|].
  rewrite join_cons_cons, IndexByte_app by done. rewrite take_str_app, parse_uint_format_int by done. done.
Qed.

Lemma parseStat_reads_line_witness :
  parseStat (stat_line "89653" "a) (b" "S" (replicate 18 "0") 2971844 ["52965376"; "3920"])
    = Ok (mkStat "a) (b" "S" 2971844).
Proof.
  apply (parseStat_reads_line "89653" "a) (b" "S" (replicate 18 "0") 2971844 ["52965376"; "3920"]).
  - reflexivity.
  - by repeat constructor.
  - by repeat constructor.
  - reflexivity.
  - lia.
  - by repeat constructor.
  - discriminate.
Defined.
