(* ===== verification/Configs.v ===== *)
(** * Container configurations: package configs and its validator

    The parts of [configs.Config] that the validator and the life cycle of a
    container read: namespaces, identity mappings, sysctls, cgroups and mounts.
    What the checks read of the running system (the file tree, SELinux, Intel RDT,
    the cgroup mode, the identity of a network namespace) is [SystemEnv]. *)

From S2P Require Import Prelude GoStrings GoPath GoFs.

Open Scope string_scope.
Open Scope list_scope.
#[local] Open Scope Z_scope.

(** [int] on a 64-bit machine. *)
Definition int64 (z : Z) : Z := (z + 2 ^ 63) mod 2 ^ 64 - 2 ^ 63.
Definition is_int64 (z : Z) : Prop := - 2 ^ 63 <= z < 2 ^ 63.

(** ** Namespaces (namespaces_linux.go) *)

Definition NEWNET : string := "NEWNET".
Definition NEWPID : string := "NEWPID".
Definition NEWNS : string := "NEWNS".
Definition NEWUTS : string := "NEWUTS".
Definition NEWIPC : string := "NEWIPC".
Definition NEWUSER : string := "NEWUSER".
Definition NEWCGROUP : string := "NEWCGROUP".

Record Namespace := mkNamespace { ns_Type : string; ns_Path : string }.
#[global] Instance Namespace_eq_dec : EqDecision Namespace.
Proof. solve_decision. Defined.
Abbreviation Namespaces := (list Namespace).

Definition NsName (ns : string) : string :=
  if bool_decide (ns = NEWNET) then "net"
  else if bool_decide (ns = NEWNS) then "mnt"
  else if bool_decide (ns = NEWPID) then "pid"
  else if bool_decide (ns = NEWIPC) then "ipc"
  else if bool_decide (ns = NEWUSER) then "user"
  else if bool_decide (ns = NEWUTS) then "uts"
  else if bool_decide (ns = NEWCGROUP) then "cgroup"
  else "".

Definition NamespaceTypes : list string := [NEWUSER; NEWIPC; NEWUTS; NEWNET; NEWPID; NEWNS; NEWCGROUP].

Definition GetPath (n : Namespace) (pid : Z) : string :=
  "/proc/" +:+ format_int pid +:+ "/ns/" +:+ NsName (ns_Type n).

(** The position of the first entry of a type, [None] for -1. *)
Fixpoint index (n : Namespaces) (t : string) : option nat :=
  match n with
  | [] => None
  | ns :: n' => if bool_decide (ns_Type ns = t) then Some O else S <$> index n' t
  end.

Definition Contains (n : Namespaces) (t : string) : bool := bool_decide (is_Some (index n t)).

Definition PathOf (n : Namespaces) (t : string) : string :=
  match index n t with
  | None => ""
  | Some i => match n !! i with Some ns => ns_Path ns | None => "" end
  end.

Definition RemoveNs (n : Namespaces) (t : string) : Namespaces * bool :=
  match index n t with
  | None => (n, false)
  | Some i => (take i n ++ drop (S i) n, true)
  end.

Definition AddNs (n : Namespaces) (t path : string) : Namespaces :=
  match index n t with
  | None => n ++ [mkNamespace t path]
  | Some i => match n !! i with Some ns => <[i := mkNamespace (ns_Type ns) path]> n | None => n end
  end.

(** *** namespaces_syscall.go *)

Definition CLONE_NEWNS : Z := 0x20000.
Definition CLONE_NEWCGROUP : Z := 0x2000000.
Definition CLONE_NEWUTS : Z := 0x4000000.
Definition CLONE_NEWIPC : Z := 0x8000000.
Definition CLONE_NEWUSER : Z := 0x10000000.
Definition CLONE_NEWPID : Z := 0x20000000.
Definition CLONE_NEWNET : Z := 0x40000000.

Definition namespaceInfo (t : string) : Z :=
  if bool_decide (t = NEWNET) then CLONE_NEWNET
  else if bool_decide (t = NEWNS) then CLONE_NEWNS
  else if bool_decide (t = NEWUSER) then CLONE_NEWUSER
  else if bool_decide (t = NEWIPC) then CLONE_NEWIPC
  else if bool_decide (t = NEWUTS) then CLONE_NEWUTS
  else if bool_decide (t = NEWPID) then CLONE_NEWPID
  else if bool_decide (t = NEWCGROUP) then CLONE_NEWCGROUP
  else 0.

Fixpoint clone_flags (flag : Z) (n : Namespaces) : Z :=
  match n with
  | [] => flag
  | v :: n' => if negb (bool_decide (ns_Path v = "")) then clone_flags flag n'
               else clone_flags (Z.lor flag (namespaceInfo (ns_Type v))) n'
  end.
Definition CloneFlags (n : Namespaces) : Z := clone_flags 0 n.

(** ** The configuration *)

Record IDMap := mkIDMap { ContainerID : Z; HostID : Z; Size : Z }.
Record ConfMount := mkConfMount { m_Destination : string; m_Data : string }.
Record IntelRdt := mkIntelRdt { ClosID : string; L3CacheSchema : string; MemBwSchema : string }.
Record Resources := mkResources { Unified : option (list (string * string)); MemorySwap : Z; Memory : Z; SkipDevices : bool }.
Record Cgroup := mkCgroup { cg_Name : string; cg_Parent : string; cg_Path : string; cg_Resources : option Resources }.

(** [c_Sysctl] is the keys of the map in the order of one iteration over it;
    networks and routes are counted; [c_Hooks] tells whether the map is not nil. *)
Record Config := mkConfig {
  c_Rootfs : string; c_Mounts : list ConfMount; c_Hostname : string; c_Namespaces : Namespaces;
  c_Networks : nat; c_Routes : nat; c_Cgroups : option Cgroup; c_ProcessLabel : string;
  c_UidMappings : option (list IDMap); c_GidMappings : option (list IDMap);
  c_MaskPaths : list string; c_ReadonlyPaths : list string; c_Sysctl : list string;
  c_IntelRdt : option IntelRdt; c_RootlessEUID : bool; c_RootlessCgroups : bool; c_Hooks : bool }.

(** ** Identity mappings (config_linux.go) *)

Definition errNoUIDMap : error := ErrNew "User namespaces enabled, but no uid mappings found.".
Definition errNoUserMap : error := ErrNew "User namespaces enabled, but no user mapping found.".
Definition errNoGIDMap : error := ErrNew "User namespaces enabled, but no gid mappings found.".
Definition errNoGroupMap : error := ErrNew "User namespaces enabled, but no group mapping found.".

Fixpoint hostIDFromMapping (containerID : Z) (uMap : list IDMap) : option Z :=
  match uMap with
  | [] => None
  | m :: l =>
      if (ContainerID m <=? containerID) && (containerID <=? int64 (int64 (ContainerID m + Size m) - 1))
      then Some (int64 (HostID m + int64 (containerID - ContainerID m)))
      else hostIDFromMapping containerID l
  end.

Definition host_id (noMap noEntry : error) (c : Config) (mappings : option (list IDMap)) (containerId : Z) : result Z :=
  if Contains (c_Namespaces c) NEWUSER then
    match mappings with
    | None => Err noMap
    | Some l => match hostIDFromMapping containerId l with None => Err noEntry | Some id => Ok id end
    end
  else Ok containerId.

Definition HostUID (c : Config) (containerId : Z) : result Z :=
  host_id errNoUIDMap errNoUserMap c (c_UidMappings c) containerId.
Definition HostGID (c : Config) (containerId : Z) : result Z :=
  host_id errNoGIDMap errNoGroupMap c (c_GidMappings c) containerId.
Definition HostRootUID (c : Config) : result Z := HostUID c 0.
Definition HostRootGID (c : Config) : result Z := HostGID c 0.
