(* ===== verification/Validator.v ===== *)
(** * The configuration validator: configs/validate, and the container id check

    Every check of [ConfigValidator.Validate] in its order, the conversion of the
    swap limit it relies on, and [validateID] of the factory; then what a
    configuration that passes is known to satisfy. *)

From S2P Require Import Prelude GoStrings GoPath GoFs Configs.

Open Scope string_scope.
Open Scope list_scope.
#[local] Open Scope Z_scope.

(** What the checks read of the running system. *)
Record SystemEnv := mkEnv {
  e_tree : fs; selinux_GetEnabled : bool; IsCATEnabled : bool; IsMBAEnabled : bool;
  IsCgroup2UnifiedMode : bool; netns_stat : string -> result (Z * Z) }.

Section Checks.
Context (env : SystemEnv).

(** [filepath.EvalSymlinks] of an absolute path. *)
Definition EvalSymlinks (f : fs) (p : string) : result string :=
  q ← resolve true f p;
  match node_at f q with Some _ => Ok (render true q) | None => Err ErrNotExist end.

Definition check_rootfs (config : Config) : result unit :=
  _ ← wrap_err "invalid rootfs" (StatF (e_tree env) (c_Rootfs config));
  cleaned ← wrap_err "invalid rootfs" (Abs (Getwd (e_tree env)) (c_Rootfs config));
  cleaned ← wrap_err "invalid rootfs" (EvalSymlinks (e_tree env) cleaned);
  guard_err (negb (bool_decide (Clean (c_Rootfs config) = cleaned)))
    (ErrNew "invalid rootfs: not an absolute path, or a symlink").

Definition check_network (config : Config) : result unit :=
  guard_err (negb (Contains (c_Namespaces config) NEWNET)
             && ((0 <? Z.of_nat (c_Networks config)) || (0 <? Z.of_nat (c_Routes config))))
    (ErrNew "unable to apply network settings without a private NET namespace").

Definition check_hostname (config : Config) : result unit :=
  guard_err (negb (bool_decide (c_Hostname config = "")) && negb (Contains (c_Namespaces config) NEWUTS))
    (ErrNew "unable to set hostname without a private UTS namespace").

Definition check_security (config : Config) : result unit :=
  _ ← guard_err ((negb (bool_decide (c_MaskPaths config = [])) || negb (bool_decide (c_ReadonlyPaths config = [])))
                 && negb (Contains (c_Namespaces config) NEWNS))
        (ErrNew "unable to restrict sys entries without a private MNT namespace");
  guard_err (negb (bool_decide (c_ProcessLabel config = "")) && negb (selinux_GetEnabled env))
    (ErrNew "selinux label is specified in config, but selinux is disabled or not supported").

(** [os.IsNotExist(err)] of a stat. *)
Definition missing (p : string) : bool :=
  match StatF (e_tree env) p with Err e => os_IsNotExist e | Ok _ => false end.

Definition check_usernamespace (config : Config) : result unit :=
  if Contains (c_Namespaces config) NEWUSER
  then guard_err (missing "/proc/self/ns/user") (ErrNew "USER namespaces aren't enabled in the kernel")
  else guard_err (bool_decide (is_Some (c_UidMappings config)) || bool_decide (is_Some (c_GidMappings config)))
         (ErrNew "User namespace mappings specified, but USER namespace isn't enabled in the config").

Definition check_cgroupnamespace (config : Config) : result unit :=
  guard_err (Contains (c_Namespaces config) NEWCGROUP && missing "/proc/self/ns/cgroup")
    (ErrNew "cgroup namespaces aren't enabled in the kernel").

(** *** Sysctls *)

Definition ch_dot : ascii := chr 46.

(** The first separator of a key. *)
Fixpoint first_sep (s : string) : option ascii :=
  match s with
  | EmptyString => None
  | String c s' => if bool_decide (c = ch_dot) || bool_decide (c = ch_slash) then Some c else first_sep s'
  end.

Definition swap_sep (c : ascii) : ascii :=
  if bool_decide (c = ch_dot) then ch_slash else if bool_decide (c = ch_slash) then ch_dot else c.

Fixpoint map_str (f : ascii -> ascii) (s : string) : string :=
  match s with EmptyString => EmptyString | String c s' => String (f c) (map_str f s') end.

Definition convertSysctlVariableToDotsSeparator (val : string) : string :=
  match first_sep val with
  | Some c => if bool_decide (c = ch_slash) then map_str swap_sep val else val
  | None => val
  end.

Definition validSysctlMap : list string :=
  ["kernel.msgmax"; "kernel.msgmnb"; "kernel.msgmni"; "kernel.sem"; "kernel.shmall"; "kernel.shmmax";
   "kernel.shmmni"; "kernel.shm_rmid_forced"].

Definition isHostNetNS (path : string) : result bool :=
  '(d1, i1) ← netns_stat env "/proc/self/ns/net";
  '(d2, i2) ← netns_stat env path;
  Ok (bool_decide (d1 = d2) && bool_decide (i1 = i2)).

(** What [netOnce] computes, once for all keys. *)
Definition hostnet (config : Config) : result bool :=
  if negb (Contains (c_Namespaces config) NEWNET) then Ok true else
  let path := PathOf (c_Namespaces config) NEWNET in
  if bool_decide (path = "") then Ok false else isHostNetNS path.

Definition check_sysctl_key (config : Config) (key : string) : result unit :=
  let s := convertSysctlVariableToDotsSeparator key in
  if bool_decide (s ∈ validSysctlMap) || has_prefix "fs.mqueue." s then
    guard_err (negb (Contains (c_Namespaces config) NEWIPC)) (ErrNew "sysctl is not allowed in the hosts ipc namespace")
  else if has_prefix "net." s then
    host ← wrap_err "invalid netns path" (hostnet config);
    guard_err host (ErrNew "sysctl not allowed in host network namespace")
  else if Contains (c_Namespaces config) NEWUTS && bool_decide (s = "kernel.domainname") then Ok tt
  else if Contains (c_Namespaces config) NEWUTS && bool_decide (s = "kernel.hostname")
  then Err (ErrNew "sysctl is not allowed as it conflicts with the OCI hostname field")
  else Err (ErrNew "sysctl is not in a separate kernel namespace").

Fixpoint check_sysctl_keys (config : Config) (keys : list string) : result unit :=
  match keys with
  | [] => Ok tt
  | k :: keys' => _ ← check_sysctl_key config k; check_sysctl_keys config keys'
  end.
Definition check_sysctl (config : Config) : result unit := check_sysctl_keys config (c_Sysctl config).

(** *** Intel RDT and cgroups *)

Definition check_intelrdt (config : Config) : result unit :=
  match c_IntelRdt config with
  | None => Ok tt
  | Some r =>
      _ ← guard_err (bool_decide (ClosID r = ".") || bool_decide (ClosID r = "..") || contains_char ch_slash (ClosID r))
            (ErrNew "invalid intelRdt.ClosID");
      _ ← guard_err (negb (IsCATEnabled env) && negb (bool_decide (L3CacheSchema r = "")))
            (ErrNew "intelRdt.l3CacheSchema is specified in config, but Intel RDT/CAT is not enabled");
      guard_err (negb (IsMBAEnabled env) && negb (bool_decide (MemBwSchema r = "")))
        (ErrNew "intelRdt.memBwSchema is specified in config, but Intel RDT/MBA is not enabled")
  end.

Definition ErrV1NoUnified : error := ErrNew "invalid configuration: cannot use unified on cgroup v1".

Definition ConvertMemorySwapToCgroupV2Value (memorySwap memory : Z) : result Z :=
  if (memory =? -1) && (memorySwap =? 0) then Ok (-1) else
  if (memorySwap =? -1) || (memorySwap =? 0) then Ok memorySwap else
  if (memory =? 0) || (memory =? -1) then Err (ErrNew "unable to set swap limit without memory limit") else
  if memory <? 0 then Err (ErrNew "invalid memory value") else
  if memorySwap <? memory then Err (ErrNew "memory+swap limit should be >= memory limit") else
  Ok (int64 (memorySwap - memory)).

Definition check_cgroups (config : Config) : result unit :=
  match c_Cgroups config with
  | None => Ok tt
  | Some c =>
      if (negb (bool_decide (cg_Name c = "")) || negb (bool_decide (cg_Parent c = ""))) && negb (bool_decide (cg_Path c = ""))
      then Err (ErrNew "cgroup: either Path or Name and Parent should be used") else
      match cg_Resources c with
      | None => Ok tt
      | Some r =>
          if negb (IsCgroup2UnifiedMode env) && bool_decide (is_Some (Unified r)) then Err ErrV1NoUnified else
          if IsCgroup2UnifiedMode env then _ ← ConvertMemorySwapToCgroupV2Value (MemorySwap r) (Memory r); Ok tt
          else Ok tt
      end
  end.

(** *** Rootless (rootless.go) *)

Fixpoint hasIDMapping (id : Z) (mappings : list IDMap) : bool :=
  match mappings with
  | [] => false
  | m :: l => (ContainerID m <=? id) && (id <? int64 (ContainerID m + Size m)) || hasIDMapping id l
  end.

Definition rootlessEUIDMappings (config : Config) : result unit :=
  _ ← guard_err (negb (Contains (c_Namespaces config) NEWUSER)) (ErrNew "rootless container requires user namespaces");
  _ ← guard_err (bool_decide (default [] (c_UidMappings config) = []))
        (ErrNew "rootless containers requires at least one UID mapping");
  guard_err (bool_decide (default [] (c_GidMappings config) = []))
    (ErrNew "rootless containers requires at least one GID mapping").

(** The leading digits of a string. *)
Fixpoint leading_digits (s : string) : string :=
  match s with
  | String c s' => if is_digit c then String c (leading_digits s') else EmptyString
  | EmptyString => EmptyString
  end.

(** [%d] of [fmt.Sscanf]: blanks (a newline is an error), an optional sign, then
    as many digits as there are; what follows is not read. *)
Fixpoint scan_d (s : string) : option Z :=
  match s with
  | EmptyString => None
  | String c s' =>
      if bool_decide (c = ch_newline) then None
      else if is_space c then scan_d s'
      else let '(sign, digits) := if bool_decide (c = chr 45) then (-1, s') else if bool_decide (c = chr 43) then (1, s') else (1, s) in
           match parse_digits 0 (leading_digits digits) with
           | Some z => if bool_decide (leading_digits digits = "") then None
                       else if (- 2 ^ 63 <=? sign * z) && (sign * z <? 2 ^ 63) then Some (sign * z) else None
           | None => None
           end
  end.

(** One option: an id it names has to be mapped. *)
Definition check_id_option (prefix : string) (mappings : list IDMap) (e : error) (opt : string) : result unit :=
  if has_prefix prefix opt then
    match scan_d (trim_prefix opt prefix) with
    | Some id => guard_err (negb (hasIDMapping id mappings)) e
    | None => Ok tt
    end
  else Ok tt.

Fixpoint check_options (config : Config) (opts : list string) : result unit :=
  match opts with
  | [] => Ok tt
  | opt :: opts' =>
      _ ← check_id_option "uid=" (default [] (c_UidMappings config))
            (ErrNew "cannot specify uid= mount options for unmapped uid in rootless containers") opt;
      _ ← check_id_option "gid=" (default [] (c_GidMappings config))
            (ErrNew "cannot specify gid= mount options for unmapped gid in rootless containers") opt;
      check_options config opts'
  end.

Fixpoint check_mount_options (config : Config) (ms : list ConfMount) : result unit :=
  match ms with
  | [] => Ok tt
  | m :: ms' => _ ← check_options config (split ch_comma (m_Data m)); check_mount_options config ms'
  end.
Definition rootlessEUIDMount (config : Config) : result unit := check_mount_options config (c_Mounts config).

Definition check_rootlessEUID (config : Config) : result unit :=
  if negb (c_RootlessEUID config) then Ok tt else
  _ ← rootlessEUIDMappings config;
  rootlessEUIDMount config.

(** *** All the checks *)

(** [v.mounts], whose error is only logged. *)
Fixpoint check_mounts (ms : list ConfMount) : result unit :=
  match ms with
  | [] => Ok tt
  | m :: ms' => if negb (IsAbs (m_Destination m)) then Err (ErrNew "invalid mount: mount destination not absolute")
                else check_mounts ms'
  end.

Definition Validate (config : Config) : result unit :=
  _ ← check_cgroups config;
  _ ← check_rootfs config;
  _ ← check_network config;
  _ ← check_hostname config;
  _ ← check_security config;
  _ ← check_usernamespace config;
  _ ← check_cgroupnamespace config;
  _ ← check_sysctl config;
  _ ← check_intelrdt config;
  check_rootlessEUID config.

End Checks.

(** ** The container id (factory_linux.go) *)

Definition ErrInvalidID : error := ErrNew "invalid container ID format".

(** The class [\w+-\.] of the expression: word characters and the range from + to . *)
Definition id_char (c : ascii) : bool :=
  let n := nat_of_ascii c in
  ((48 <=? n) && (n <=? 57) || (65 <=? n) && (n <=? 90) || (97 <=? n) && (n <=? 122) || (n =? 95)
   || (43 <=? n) && (n <=? 46))%nat.

Definition idRegex_match (id : string) : bool := negb (bool_decide (id = "")) && str_forall id_char id.

(** [utils.CleanPath] *)
Definition CleanPath (path : string) : string :=
  if bool_decide (path = "") then "" else
  let path := Clean path in
  let path := if negb (IsAbs path)
              then match Rel slash (Clean (slash +:+ path)) with Ok p => p | Err _ => "" end
              else path in
  Clean path.

Definition validateID (id : string) : result unit :=
  guard_err (negb (idRegex_match id) || negb (bool_decide (slash +:+ id = CleanPath (slash +:+ id)))) ErrInvalidID.

(** ** What a valid configuration satisfies *)

(** The sysctl belongs to a namespace the configuration lists; for the network
    namespace, one that is new or is not the current one.  (An IPC or UTS
    namespace that is listed may be joined by a path, the host's included.) *)
Inductive sysctl_namespaced (env : SystemEnv) (config : Config) : string -> Prop :=
  | ns_ipc (s : string) : s ∈ validSysctlMap \/ has_prefix "fs.mqueue." s = true ->
      Contains (c_Namespaces config) NEWIPC = true -> sysctl_namespaced env config s
  | ns_net (s : string) : has_prefix "net." s = true ->
      Contains (c_Namespaces config) NEWNET = true ->
      (PathOf (c_Namespaces config) NEWNET = "" \/ isHostNetNS env (PathOf (c_Namespaces config) NEWNET) = Ok false) ->
      sysctl_namespaced env config s
  | ns_uts : Contains (c_Namespaces config) NEWUTS = true -> sysctl_namespaced env config "kernel.domainname".

Lemma hostnet_false (env : SystemEnv) (config : Config) :
  hostnet env config = Ok false <->
  Contains (c_Namespaces config) NEWNET = true /\
  (PathOf (c_Namespaces config) NEWNET = "" \/ isHostNetNS env (PathOf (c_Namespaces config) NEWNET) = Ok false).
Proof.
  unfold hostnet. destruct (Contains _ _); cbn [negb]; [|naive_solver].
  case_bool_decide as E; [naive_solver|]. naive_solver.
Qed.

Lemma sysctl_key_iff (env : SystemEnv) (config : Config) (k : string) :
  check_sysctl_key env config k = Ok tt <->
  sysctl_namespaced env config (convertSysctlVariableToDotsSeparator k).
Proof.
  unfold check_sysctl_key. generalize (convertSysctlVariableToDotsSeparator k) as s. intros s. split.
  - destruct (bool_decide (s ∈ validSysctlMap) || has_prefix "fs.mqueue." s) eqn:E1.
    + intros H%guard_err_ok. apply negb_false_iff in H. apply ns_ipc; [|done].
      apply orb_true_iff in E1 as [H1%bool_decide_eq_true_1|H1]; auto.
    + destruct (has_prefix "net." s) eqn:E2.
      * intros ([] & H1%wrap_err_ok & H2%guard_err_ok)%bind_ok; [done|].
        apply hostnet_false in H1 as [? ?]. by apply ns_net.
      * destruct (Contains (c_Namespaces config) NEWUTS) eqn:E3; cbn [andb]; [|done].
        destruct (decide (s = "kernel.domainname")) as [->|E4]; [intros _; by apply ns_uts|].
        rewrite bool_decide_eq_false_2 by done. by destruct (bool_decide (s = "kernel.hostname")).
  - clear k. intros H. destruct H as [s Hs Hn|s Hs Hn Hp|Hn].
    + assert (bool_decide (s ∈ validSysctlMap) || has_prefix "fs.mqueue." s = true) as ->.
      { apply orb_true_iff. destruct Hs as [Hs|Hs]; [left; by apply bool_decide_eq_true_2|by right]. }
      by rewrite Hn.
    + assert (bool_decide (s ∈ validSysctlMap) || has_prefix "fs.mqueue." s = false) as ->.
      { apply has_prefix_spec in Hs as [t ->]. apply orb_false_iff. split; [|reflexivity].
        apply bool_decide_eq_false_2. unfold validSysctlMap. rewrite !elem_of_cons. set_solver. }
      rewrite Hs. apply bind_ok. exists false. split; [|done]. apply wrap_err_ok, hostnet_false. by split.
    + by rewrite Hn.
Qed.

Lemma sysctl_iff (env : SystemEnv) (config : Config) :
  check_sysctl env config = Ok tt <->
  Forall (fun k => sysctl_namespaced env config (convertSysctlVariableToDotsSeparator k)) (c_Sysctl config).
Proof.
  unfold check_sysctl. induction (c_Sysctl config) as [|k l IH]; cbn [check_sysctl_keys]; [done|].
  rewrite bind_ok, Forall_cons, <- IH, <- sysctl_key_iff. split; [by intros ([] & ? & ?)|intros [? ?]; by exists tt].
Qed.

(** *** Identity mappings *)

(** A mapping whose end does not overflow. *)
Definition map_fits (m : IDMap) : Prop := - 2 ^ 63 < ContainerID m + Size m < 2 ^ 63.

Lemma int64_id (z : Z) : is_int64 z -> int64 z = z.
Proof. unfold is_int64, int64. intros H. rewrite Z.mod_small; lia. Qed.

Lemma mapped_iff (l : list IDMap) (id : Z) :
  Forall map_fits l -> hasIDMapping id l = true <-> is_Some (hostIDFromMapping id l).
Proof.
  induction 1 as [|m l Hm _ IH]; cbn; [by split; [|intros [? ?]]|]. unfold map_fits in Hm.
  rewrite (int64_id (ContainerID m + Size m)), (int64_id (_ - 1)) by (unfold is_int64; lia).
  rewrite orb_true_iff, IH.
  replace (id <=? ContainerID m + Size m - 1) with (id <? ContainerID m + Size m) by lia.
  destruct ((ContainerID m <=? id) && (id <? ContainerID m + Size m)); [|naive_solver].
  split; [by eauto|by left].
Qed.

(** The ids an option names. *)
Definition names_id (prefix opt : string) (id : Z) : Prop :=
  has_prefix prefix opt = true /\ scan_d (trim_prefix opt prefix) = Some id.

Lemma id_option_ok (prefix opt : string) (l : list IDMap) (e : error) (id : Z) :
  check_id_option prefix l e opt = Ok tt -> names_id prefix opt id -> hasIDMapping id l = true.
Proof.
  unfold check_id_option. intros H [Hp Hs]. rewrite Hp, Hs in H. apply guard_err_ok in H. by destruct (hasIDMapping id l).
Qed.

Lemma options_ok (config : Config) (opts : list string) (opt : string) :
  check_options config opts = Ok tt -> opt ∈ opts ->
  (forall id, names_id "uid=" opt id -> hasIDMapping id (default [] (c_UidMappings config)) = true) /\
  (forall id, names_id "gid=" opt id -> hasIDMapping id (default [] (c_GidMappings config)) = true).
Proof.
  induction opts as [|o opts IH]; cbn [check_options]; [by rewrite elem_of_nil|].
  intros ([] & Hu & ([] & Hg & Hr)%bind_ok)%bind_ok [<-|Ho]%elem_of_cons; [|by apply IH].
  split; intros id Hid; by eapply id_option_ok.
Qed.

Lemma mount_options_ok (config : Config) (ms : list ConfMount) (m : ConfMount) :
  check_mount_options config ms = Ok tt -> m ∈ ms -> check_options config (split ch_comma (m_Data m)) = Ok tt.
Proof.
  induction ms as [|m' ms IH]; cbn [check_mount_options]; [by rewrite elem_of_nil|].
  intros ([] & H & Hr)%bind_ok [<-|Hm]%elem_of_cons; [done|by apply IH].
Qed.

(** *** The rootfs *)

Lemma rootfs_ok (env : SystemEnv) (config : Config) :
  check_rootfs env config = Ok tt ->
  IsAbs (c_Rootfs config) = true /\
  exists q n, Clean (c_Rootfs config) = render true q /\
    resolve true (e_tree env) (Clean (c_Rootfs config)) = Ok q /\ node_at (e_tree env) q = Some n.
Proof.
  unfold check_rootfs. intros (n0 & _ & H)%bind_ok. apply bind_ok in H as (p & Hp%wrap_err_ok & H).
  apply bind_ok in H as (cl & He%wrap_err_ok & H%guard_err_ok). apply negb_false_iff, bool_decide_eq_true_1 in H.
  unfold EvalSymlinks in He. apply bind_ok in He as (q & Hq & He).
  destruct (node_at (e_tree env) q) as [n|] eqn:En; [|done].
  assert (cl = render true q) as -> by congruence.
  assert (IsAbs (c_Rootfs config) = true) as Ha.
  { rewrite <- IsAbs_Clean, H. reflexivity. }
  split; [done|]. unfold Abs in Hp. rewrite Ha in Hp. assert (p = Clean (c_Rootfs config)) as -> by congruence.
  by exists q, n.
Qed.

(** C14. A configuration that passes validation names as its rootfs an absolute
    path that exists and holds no symbolic link; every sysctl it sets is one of
    the IPC namespace, the network namespace or the domain name, and the
    configuration lists that namespace, the network namespace being new or
    distinct from the current one (an IPC or UTS namespace may be joined by any
    path: [joined_ipc_accepted]); masked and read-only paths, a hostname, network
    settings and identity mappings come with the mount, UTS, network and user
    namespace listed; and in a rootless container with identity mappings whose
    ends do not overflow an int64, every uid= or gid= mount option names an id
    that the mapping translates. *)
Theorem Validate_sound (env : SystemEnv) (config : Config) :
  Validate env config = Ok tt ->
  (IsAbs (c_Rootfs config) = true /\
   exists q n, Clean (c_Rootfs config) = render true q /\
     resolve true (e_tree env) (Clean (c_Rootfs config)) = Ok q /\ node_at (e_tree env) q = Some n) /\
  (forall k, k ∈ c_Sysctl config -> sysctl_namespaced env config (convertSysctlVariableToDotsSeparator k)) /\
  (c_MaskPaths config <> [] \/ c_ReadonlyPaths config <> [] -> Contains (c_Namespaces config) NEWNS = true) /\
  (c_Hostname config <> "" -> Contains (c_Namespaces config) NEWUTS = true) /\
  (c_Networks config <> O \/ c_Routes config <> O -> Contains (c_Namespaces config) NEWNET = true) /\
  (is_Some (c_UidMappings config) \/ is_Some (c_GidMappings config) -> Contains (c_Namespaces config) NEWUSER = true) /\
  (c_RootlessEUID config = true -> Contains (c_Namespaces config) NEWUSER = true /\
     (Forall map_fits (default [] (c_UidMappings config)) -> Forall map_fits (default [] (c_GidMappings config)) ->
      forall m opt id, m ∈ c_Mounts config -> opt ∈ split ch_comma (m_Data m) ->
       (names_id "uid=" opt id -> exists h, HostUID config id = Ok h) /\
       (names_id "gid=" opt id -> exists h, HostGID config id = Ok h))).
Proof.
  unfold Validate. intros H.
  apply bind_ok in H as ([] & _ & H). apply bind_ok in H as ([] & Hroot%rootfs_ok & H).
  apply bind_ok in H as ([] & Hnet%guard_err_ok & H). apply bind_ok in H as ([] & Hhost%guard_err_ok & H).
  apply bind_ok in H as ([] & ([] & Hmask%guard_err_ok & _)%bind_ok & H). apply bind_ok in H as ([] & Huser & H). apply bind_ok in H as ([] & _ & H).
  apply bind_ok in H as ([] & Hsys%sysctl_iff & H). apply bind_ok in H as ([] & _ & Hrl).
  split; [done|]. split; [by apply Forall_forall|]. split_and!.
  - intros Hp. apply andb_false_iff in Hmask as [Hm|Hm]; [|by apply negb_false_iff].
    apply orb_false_iff in Hm as [H1%negb_false_iff%bool_decide_eq_true_1 H2%negb_false_iff%bool_decide_eq_true_1].
    tauto.
  - intros Hh. rewrite bool_decide_eq_false_2 in Hhost by done. cbn [negb andb] in Hhost. by apply negb_false_iff.
  - intros Hn. destruct (Contains _ NEWNET); [done|]. cbn in Hnet. apply orb_false_iff in Hnet. lia.
  - intros Hm. unfold check_usernamespace in Huser. destruct (Contains _ NEWUSER); [done|].
    apply guard_err_ok, orb_false_iff in Huser as [H1%bool_decide_eq_false_1 H2%bool_decide_eq_false_1]. tauto.
  - intros Hr. unfold check_rootlessEUID in Hrl. rewrite Hr in Hrl. cbn [negb] in Hrl.
    apply bind_ok in Hrl as ([] & ([] & Hns%guard_err_ok & _)%bind_ok & Hms). apply negb_false_iff in Hns.
    split; [done|]. intros Hu Hg m opt id Hm Ho.
    destruct (options_ok config _ opt (mount_options_ok _ _ _ Hms Hm) Ho) as [Ku Kg].
    split; intros Hid; [apply Ku in Hid|apply Kg in Hid]; apply mapped_iff in Hid as [h Hh]; try done;
      exists h; unfold HostUID, HostGID, host_id; rewrite Hns.
    + destruct (c_UidMappings config); [|done]. cbn in Hh. by rewrite Hh.
    + destruct (c_GidMappings config); [|done]. cbn in Hh. by rewrite Hh.
Qed.

(** A rootless container with its own network namespace. *)
Definition wit_config_fs : fs :=
  mkFs (list_to_map [(["bundle"], NDir mode_0755); (["bundle"; "rootfs"], NDir mode_0755);
    (["proc"], NDir mode_0755); (["proc"; "self"], NDir mode_0755); (["proc"; "self"; "ns"], NDir mode_0755);
    (["proc"; "self"; "ns"; "user"], NFile 0 "")]) [] 18.
Definition wit_sysenv : SystemEnv := mkEnv wit_config_fs false false false true (fun _ => Ok (0, 1)).
Definition wit_config : Config :=
  mkConfig "/bundle/./rootfs" [mkConfMount "/data" "mode=755,uid=5"] "web" [mkNamespace NEWUSER ""; mkNamespace NEWNET "";
    mkNamespace NEWUTS ""; mkNamespace NEWIPC ""] 1 0 None "" (Some [mkIDMap 0 100000 65536]) (Some [mkIDMap 0 100000 65536])
    [] [] ["net/ipv4/conf/eno2.100.rp_filter"; "kernel.domainname"; "kernel.shmmax"] None true false false.

Lemma Validate_sound_witness :
  Validate wit_sysenv wit_config = Ok tt /\
  sysctl_namespaced wit_sysenv wit_config "net.ipv4.conf.eno2/100/rp_filter" /\
  exists h, HostUID wit_config 5 = Ok h.
Proof.
  assert (Validate wit_sysenv wit_config = Ok tt) as H by (vm_compute; reflexivity).
  split; [exact H|].
  destruct (Validate_sound wit_sysenv wit_config H) as (_ & Hs & _ & _ & _ & _ & Hrl). split.
  - replace "net.ipv4.conf.eno2/100/rp_filter"
      with (convertSysctlVariableToDotsSeparator "net/ipv4/conf/eno2.100.rp_filter") by (vm_compute; reflexivity).
    apply Hs. by left.
  - destruct (Hrl eq_refl) as [_ Hid].
    destruct (Hid ltac:(apply Forall_one; unfold map_fits; cbn; lia)
                  ltac:(apply Forall_one; unfold map_fits; cbn; lia)
                  (mkConfMount "/data" "mode=755,uid=5") "uid=5" 5) as [Hu _].
    + by left.
    + vm_compute. right. by left.
    + apply Hu. by vm_compute.
Defined.

(** The IPC namespace of another process passes as the container's own: the
    network check compares the namespaces, the IPC and UTS checks do not. *)
Theorem joined_ipc_accepted :
  let config := mkConfig "/bundle/rootfs" [] "" [mkNamespace NEWIPC "/proc/1/ns/ipc"] 0 0 None "" None None
                  [] [] ["kernel.shmmax"] None false false false in
  Validate wit_sysenv config = Ok tt.
Proof. vm_compute. reflexivity. Qed.

(** The comment above the conversion gives net.ipv4.conf.eno2/100.rp_filter for this key. *)
Lemma sysctl_comment_example :
  convertSysctlVariableToDotsSeparator "net/ipv4/conf/eno2.100.rp_filter" = "net.ipv4.conf.eno2/100/rp_filter".
Proof. vm_compute. reflexivity. Qed.

(** ** Container ids *)

Lemma CleanPath_abs (p : string) : IsAbs p = true -> CleanPath p = Clean p.
Proof.
  intros H. unfold CleanPath. destruct p as [|c p]; [done|]. rewrite bool_decide_eq_false_2 by done.
  rewrite IsAbs_Clean, H. cbn [negb]. apply Clean_idemp.
Qed.

(** A cleaned path cannot climb out of the directory it is joined to. *)
Lemma tame_CleanPath (p : string) : tame (CleanPath p).
Proof.
  unfold CleanPath. case_bool_decide; [apply tame_empty|]. cbv zeta. apply tame_Clean.
  destruct (IsAbs (Clean p)) eqn:Ha; cbn [negb].
  - rewrite IsAbs_Clean in Ha. by apply tame_abs.
  - unfold Rel. set (q := Clean (slash +:+ Clean p)). assert (exists names, Forall good names /\ q = render true names) as (names & Hg & Eq).
    { exists (comps true (slash +:+ Clean p)). split; [apply norm_true_good, comps_norm|]. apply Clean_abs, has_prefix_app. }
    assert (norm true names) as Hn by by exists 0%nat, names. rewrite Eq, Clean_render by done.
    case_bool_decide; [by exists []|]. change (Clean slash) with slash. rewrite bool_decide_eq_false_2 by done.
    rewrite IsAbs_render by done. cbn [negb Bool.eqb IsAbs has_prefix]. rewrite elements_render by done.
    change (elements_of slash) with (@nil string). cbn. destruct names; by apply tame_names.
Qed.

Lemma id_char_no_slash (id : string) : str_forall id_char id = true -> contains_char ch_slash id = false.
Proof.
  induction id as [|c id IH]; [done|]. cbn. intros [Hc H]%andb_true_iff. rewrite IH by done.
  rewrite orb_false_r. apply bool_decide_eq_false_2. intros ->. by vm_compute in Hc.
Qed.

(** A container id that the factory accepts is one path element: not empty,
    without a slash, neither . nor .., so that below any root it names a direct
    child and two containers share no directory. *)
Theorem validateID_one_element (id : string) (root : string) :
  validateID id = Ok tt -> IsAbs root = true ->
  good id /\ Join [root; id] = render true (comps true root ++ [id]).
Proof.
  unfold validateID. intros H%guard_err_ok Hr. apply orb_false_iff in H as [H1 H2].
  apply negb_false_iff, andb_true_iff in H1 as [Hne Hch]. apply negb_true_iff, bool_decide_eq_false_1 in Hne.
  apply negb_false_iff, bool_decide_eq_true_1 in H2. rewrite CleanPath_abs in H2 by apply has_prefix_app.
  assert (good id) as Hg.
  { split_and!; [done|intros ->; by vm_compute in H2..|by apply id_char_no_slash]. }
  split; [done|by apply Join_good_elem].
Qed.

Lemma validateID_one_element_witness :
  good "web-1.2,a" /\ Join ["/run/runc"; "web-1.2,a"] = "/run/runc/web-1.2,a" /\ is_ok (validateID "..") = false.
Proof.
  destruct (validateID_one_element "web-1.2,a" "/run/runc") as [Hg Hj];
    [vm_compute; reflexivity|reflexivity|].
  split; [exact Hg|]. split; [exact Hj|vm_compute; reflexivity].
Defined.
