(* ===== verification/UserDb.v ===== *)
(** * Users and groups: user/user.go

    The parsers of passwd, group, subuid and id_map files and the resolution of a
    user specification ("user", "uid", "user:group", ...) for the process of a
    container.  A source is its text, and the error that ends it early, if any. *)

From S2P Require Import Prelude GoStrings Configs DeviceEmulator.

Open Scope string_scope.
Open Scope list_scope.
#[local] Open Scope Z_scope.

(** ** [strconv.Atoi]

    The value comes with the error: 0 for a syntax error, the nearest bound for a
    number out of range. *)

Definition max_int : Z := 2 ^ 63 - 1.
Definition min_int : Z := - 2 ^ 63.

Definition atoi (s : string) : Z * option error :=
  let '(sign, digits) :=
    match s with
    | String c s' => if bool_decide (c = chr 45) then (-1, s') else if bool_decide (c = chr 43) then (1, s') else (1, s)
    | EmptyString => (1, s)
    end in
  if bool_decide (digits = "") then (0, Some (ErrNew "invalid syntax")) else
  match parse_digits 0 digits with
  | None => (0, Some (ErrNew "invalid syntax"))
  | Some n =>
      if max_int <? sign * n then (max_int, Some (ErrNew "value out of range"))
      else if sign * n <? min_int then (min_int, Some (ErrNew "value out of range"))
      else (sign * n, None)
  end.

(** ** Data *)

Definition minID : Z := 0.
Definition maxID : Z := Z.shiftl 1 31 - 1.

Definition ErrNoPasswdEntries : error := ErrNew "no matching entries in passwd file".
Definition ErrNoGroupEntries : error := ErrNew "no matching entries in group file".
Definition ErrRange : error := ErrNew "uids and gids must be in range".

Record User := mkUser {
  u_Name : string; u_Pass : string; u_Uid : Z; u_Gid : Z; u_Gecos : string; u_Home : string; u_Shell : string }.
Record Group := mkGroup { g_Name : string; g_Pass : string; g_Gid : Z; g_List : list string }.
Record SubID := mkSubID { sub_Name : string; sub_SubID : Z; sub_Count : Z }.
Record UIDMap := mkUIDMap { id_ID : Z; id_ParentID : Z; id_Count : Z }.
Record ExecUser := mkExecUser { Uid : Z; Gid : Z; Sgids : list Z; Home : string }.

Record Reader := mkReader { rd_data : string; rd_err : option error }.

(** ** Fields (parseParts)

    A field that is missing keeps the zero value of its variable. *)

Definition str_field (parts : list string) (i : nat) : string := default "" (parts !! i).
Definition int_field (parts : list string) (i : nat) : Z := default 0 (fst ∘ atoi <$> parts !! i).
Definition list_field (parts : list string) (i : nat) : list string :=
  match parts !! i with
  | Some p => if bool_decide (p = "") then [] else split ch_comma p
  | None => []
  end.

Definition parse_user (line : string) : User :=
  let p := split ch_colon line in
  mkUser (str_field p 0) (str_field p 1) (int_field p 2) (int_field p 3) (str_field p 4) (str_field p 5) (str_field p 6).
Definition parse_group (line : string) : Group :=
  let p := split ch_colon line in mkGroup (str_field p 0) (str_field p 1) (int_field p 2) (list_field p 3).
Definition parse_subid (line : string) : SubID :=
  let p := split ch_colon line in mkSubID (str_field p 0) (int_field p 1) (int_field p 2).
Definition parse_idmap (line : string) : UIDMap :=
  let p := fields line in mkUIDMap (int_field p 0) (int_field p 1) (int_field p 2).

(** ** Files *)

(** [bufio.MaxScanTokenSize]: a longer line ends the scan with an error. *)
Definition MaxScanTokenSize : Z := 64 * 1024.
Definition ErrTooLong : error := ErrNew "bufio.Scanner: token too long".
Definition too_long (line : string) : bool := MaxScanTokenSize <=? Z.of_nat (String.length line).

(** The loops over a [bufio.Scanner]: blank lines are skipped. *)
Definition scan_entries {A} (parse : string -> A) (keep : A -> bool) (text : string) : list A :=
  List.filter keep (map parse (List.filter (fun l => negb (bool_decide (l = ""))) (map trim_space (scan_lines text)))).

Definition parse_file {A} (nil_error : error) (parse : string -> A) (r : option Reader) (keep : A -> bool) : result (list A) :=
  match r with
  | None => Err nil_error
  | Some rd =>
      match rd_err rd with
      | Some e => Err e
      | None => if existsb too_long (split ch_newline (rd_data rd)) then Err ErrTooLong
                else Ok (scan_entries parse keep (rd_data rd))
      end
  end.

Definition ParsePasswdFilter (r : option Reader) (keep : User -> bool) : result (list User) :=
  parse_file (ErrNew "nil source for passwd-formatted data") parse_user r keep.
Definition ParseSubIDFilter (r : option Reader) (keep : SubID -> bool) : result (list SubID) :=
  parse_file (ErrNew "nil source for subid-formatted data") parse_subid r keep.
Definition ParseIDMapFilter (r : option Reader) (keep : UIDMap -> bool) : result (list UIDMap) :=
  parse_file (ErrNew "nil source for idmap-formatted data") parse_idmap r keep.

(** [filter == nil] keeps everything. *)
Definition keep_all {A} (_ : A) : bool := true.
Definition ParsePasswd (r : option Reader) : result (list User) := ParsePasswdFilter r keep_all.
Definition ParseSubID (r : option Reader) : result (list SubID) := ParseSubIDFilter r keep_all.
Definition ParseIDMap (r : option Reader) : result (list UIDMap) := ParseIDMapFilter r keep_all.

(** A group file is read with [ReadLine], which has no limit on the length of a
    line; a line that starts with # is a comment. *)
Definition is_comment (line : string) : bool := has_prefix "#" line.
Definition group_entries (keep : Group -> bool) (text : string) : list Group :=
  List.filter keep (map parse_group
    (List.filter (fun l => negb (bool_decide (l = "")) && negb (is_comment l)) (map trim_space (scan_lines text)))).

Definition ParseGroupFilter (r : option Reader) (keep : Group -> bool) : result (list Group) :=
  match r with
  | None => Err (ErrNew "nil source for group-formatted data")
  | Some rd => match rd_err rd with Some e => Err e | None => Ok (group_entries keep (rd_data rd)) end
  end.
Definition ParseGroup (r : option Reader) : result (list Group) := ParseGroupFilter r keep_all.

(** ** GetExecUser *)

(** The filters over the two files. *)
Definition match_user (user : ExecUser) (userArg : string) (u : User) : bool :=
  if bool_decide (userArg = "") then bool_decide (u_Uid u = Uid user)
  else match atoi userArg with
       | (uidArg, None) => bool_decide (uidArg = u_Uid u)
       | (_, Some _) => bool_decide (u_Name u = userArg)
       end.

Definition match_group (groupArg matchedUserName : string) (g : Group) : bool :=
  if bool_decide (groupArg = "") then bool_decide (matchedUserName ∈ g_List g)
  else match atoi groupArg with
       | (gidArg, None) => bool_decide (gidArg = g_Gid g)
       | (_, Some _) => bool_decide (g_Name g = groupArg)
       end.

Definition in_range (id : Z) : bool := (minID <=? id) && (id <=? maxID).

(** A numeric argument without an entry. *)
Definition numeric_id (arg text : string) (e : error) : result Z :=
  match atoi arg with
  | (_, Some _) => Err (ErrWrap text e)
  | (id, None) => if in_range id then Ok id else Err ErrRange
  end.

(** The errors of a parser only count when there is a source. *)
Definition entries_of {A} (text : string) (source : option Reader) (r : result (list A)) : result (list A) :=
  match r, source with
  | Ok l, _ => Ok l
  | Err e, Some _ => Err (ErrWrap text e)
  | Err _, None => Ok []
  end.

(** The user part: the updated user and the name that matched. *)
Definition resolve_user (user : ExecUser) (userArg : string) (users : list User) : result (ExecUser * string) :=
  match users with
  | u :: _ => Ok (mkExecUser (u_Uid u) (u_Gid u) (Sgids user) (u_Home u), u_Name u)
  | [] =>
      if bool_decide (userArg = "") then Ok (user, "") else
      uid ← numeric_id userArg "unable to find user" ErrNoPasswdEntries;
      Ok (mkExecUser uid (Gid user) (Sgids user) (Home user), "")
  end.

(** The group part. *)
Definition resolve_group (user : ExecUser) (groupArg : string) (groups : list Group) : result ExecUser :=
  if negb (bool_decide (groupArg = "")) then
    match groups with
    | g :: _ => Ok (mkExecUser (Uid user) (g_Gid g) (Sgids user) (Home user))
    | [] => gid ← numeric_id groupArg "unable to find group" ErrNoGroupEntries;
            Ok (mkExecUser (Uid user) gid (Sgids user) (Home user))
    end
  else match groups with
       | [] => Ok user
       | _ => Ok (mkExecUser (Uid user) (Gid user) (map g_Gid groups) (Home user))
       end.

Definition GetExecUser (userSpec : string) (defaults : option ExecUser) (passwd group : option Reader) : result ExecUser :=
  let user := default (mkExecUser 0 0 [] "") defaults in
  let parts := split ch_colon userSpec in
  let userArg := str_field parts 0 in
  let groupArg := str_field parts 1 in
  users ← entries_of "unable to find user" passwd (ParsePasswdFilter passwd (match_user user userArg));
  '(user, matchedUserName) ← resolve_user user userArg users;
  if bool_decide (groupArg = "") && bool_decide (matchedUserName = "") then Ok user else
  groups ← entries_of "unable to find groups for spec" group (ParseGroupFilter group (match_group groupArg matchedUserName));
  resolve_group user groupArg groups.

(** ** GetAdditionalGroups *)

Definition names_group (ag : string) (g : Group) : bool :=
  bool_decide (g_Name g = ag) || bool_decide (format_int (g_Gid g) = ag).

(** The first match whose gid is not yet in the set. *)
Fixpoint first_new (gidMap : gset Z) (ag : string) (groups : list Group) : option Z :=
  match groups with
  | [] => None
  | g :: l => if names_group ag g && negb (bool_decide (g_Gid g ∈ gidMap)) then Some (g_Gid g) else first_new gidMap ag l
  end.

Fixpoint collect_gids (gidMap : gset Z) (groups : list Group) (ags : list string) : result (gset Z) :=
  match ags with
  | [] => Ok gidMap
  | ag :: ags' =>
      match first_new gidMap ag groups with
      | Some gid => collect_gids ({[ gid ]} ∪ gidMap) groups ags'
      | None =>
          gid ← numeric_id ag "Unable to find group" ErrNoGroupEntries;
          collect_gids ({[ gid ]} ∪ gidMap) groups ags'
      end
  end.

(** The order of the result is that of an iteration over a map: a set here. *)
Definition GetAdditionalGroups (additionalGroups : list string) (group : option Reader) : result (gset Z) :=
  groups ← match group with
           | None => Ok []
           | Some _ => wrap_err "Unable to find additional groups"
                         (ParseGroupFilter group (fun g => existsb (fun ag => names_group ag g) additionalGroups))
           end;
  collect_gids ∅ groups additionalGroups.

(** ** Reading back printed files *)

Definition colon : string := String ch_colon "".
Definition print_user (u : User) : string :=
  join colon [u_Name u; u_Pass u; format_int (u_Uid u); format_int (u_Gid u); u_Gecos u; u_Home u; u_Shell u].
Definition print_group (g : Group) : string :=
  join colon [g_Name g; g_Pass g; format_int (g_Gid g); join (String ch_comma "") (g_List g)].

(** A field holds no separator and no end of line. *)
Definition field_ok (s : string) : bool :=
  negb (contains_char ch_colon s) && negb (contains_char ch_newline s) && negb (contains_char (chr 13) s).
Definition id_ok (z : Z) : bool := (0 <=? z) && (z <=? max_int).

(** A line that survives the trimming and the limits of the scanner. *)
Definition line_ok (s : string) : bool :=
  bool_decide (trim_space s = s) && negb (bool_decide (s = "")) && negb (too_long s).

Definition user_ok (u : User) : bool :=
  forallb field_ok [u_Name u; u_Pass u; u_Gecos u; u_Home u; u_Shell u] && id_ok (u_Uid u) && id_ok (u_Gid u)
  && line_ok (print_user u).
Definition group_ok (g : Group) : bool :=
  forallb field_ok (g_Name g :: g_Pass g :: g_List g) && id_ok (g_Gid g)
  && forallb (fun m => negb (contains_char ch_comma m) && negb (bool_decide (m = ""))) (g_List g)
  && line_ok (print_group g) && negb (is_comment (print_group g)).

Lemma field_ok_int (z : Z) : id_ok z = true -> field_ok (format_int z) = true.
Proof.
  intros [Hz _]%andb_true_iff. apply Z.leb_le in Hz. unfold field_ok. by rewrite !format_int_char by done.
Qed.

Lemma atoi_digits (s : string) (n : Z) :
  s <> "" -> str_forall is_digit s = true -> parse_digits 0 s = Some n -> n <= max_int -> 0 <= n -> atoi s = (n, None).
Proof.
  intros Hne Hd Hp Hn H0. unfold atoi.
  assert (match s with
    | String c s' => if bool_decide (c = chr 45) then (-1, s') else if bool_decide (c = chr 43) then (1, s') else (1, s)
    | EmptyString => (1, s) end = (1, s)) as ->.
  { destruct s as [|c s']; [done|]. cbn in Hd. apply andb_true_iff in Hd as [Hc _].
    rewrite !bool_decide_eq_false_2; [done|intros ->; by vm_compute in Hc..]. }
  rewrite bool_decide_eq_false_2, Hp, Z.mul_1_l by done. unfold max_int, min_int in *.
  rewrite (proj2 (Z.ltb_ge _ _)), (proj2 (Z.ltb_ge _ _)) by lia. done.
Qed.

Lemma atoi_format_int (z : Z) : id_ok z = true -> atoi (format_int z) = (z, None).
Proof.
  intros [H0 H1]%andb_true_iff. apply Z.leb_le in H0, H1. rewrite format_int_nonneg by done.
  apply atoi_digits; [apply pretty_N_not_empty|apply digits_pretty_N| |done|done].
  by rewrite parse_digits_pretty, Z2N.id by lia.
Qed.

Lemma no_colon_iff (l : list string) :
  forallb field_ok l = true -> Forall (fun s => contains_char ch_colon s = false) l.
Proof.
  intros H. apply Forall_forall. intros s Hs. rewrite forallb_forall in H. apply list_elem_of_In in Hs.
  apply H in Hs. unfold field_ok in Hs. by destruct (contains_char ch_colon s).
Qed.

Lemma field_parts (c : ascii) (l : list string) :
  c = ch_colon \/ c = ch_newline \/ c = chr 13 -> forallb field_ok l = true -> Forall (fun s => contains_char c s = false) l.
Proof.
  intros Hc H. apply Forall_forall. intros s Hs. rewrite forallb_forall in H. apply list_elem_of_In in Hs.
  apply H in Hs. unfold field_ok in Hs. apply andb_true_iff in Hs as [[H1 H2]%andb_true_iff H3].
  apply negb_true_iff in H1, H2, H3. by destruct Hc as [->|[->| ->]].
Qed.

(** *** The lines of a printed file *)

Lemma drop_cr_id (s : string) : contains_char (chr 13) s = false -> drop_cr s = s.
Proof.
  induction s as [|c s IH]; [done|]. cbn [contains_char]. intros [Hc H]%orb_false_iff.
  specialize (IH H). cbn [drop_cr]. destruct s as [|d s]; [by rewrite Hc|]. by rewrite IH.
Qed.

Lemma removelast_snoc {A} (l : list A) (x : A) : removelast (l ++ [x]) = l.
Proof. by apply removelast_last. Qed.

Lemma scan_written_lines (l : list string) :
  Forall (fun s => contains_char ch_newline s = false /\ contains_char (chr 13) s = false) l ->
  scan_lines (unlines l) = l.
Proof.
  intros H. unfold scan_lines. rewrite split_unlines by (eapply Forall_impl; [exact H|]; by intros ? [? _]).
  rewrite last_snoc, bool_decide_eq_true_2, removelast_snoc by done.
  induction H as [|s l [_ Hs] _ IH]; [done|]. cbn. by rewrite drop_cr_id, IH.
Qed.

(** What makes a printer and a parser of lines inverse on good entries. *)
Section RoundTrip.
Context {A : Type} (print : A -> string) (parse : string -> A) (ok : A -> bool).
Context (print_line : forall a, ok a = true ->
  contains_char ch_newline (print a) = false /\ contains_char (chr 13) (print a) = false /\ line_ok (print a) = true).
Context (parse_print : forall a, ok a = true -> parse (print a) = a).

Lemma trim_lines (l : list A) : forallb ok l = true -> map trim_space (map print l) = map print l.
Proof.
  rewrite forallb_forall. intros H. rewrite map_map. apply map_ext_in. intros a Ha%H.
  destruct (print_line a Ha) as (_ & _ & [[Ht _]%andb_true_iff _]%andb_true_iff). by apply bool_decide_eq_true_1 in Ht.
Qed.

Lemma scan_printed (l : list A) : forallb ok l = true -> scan_lines (unlines (map print l)) = map print l.
Proof.
  rewrite forallb_forall. intros H. apply scan_written_lines, Forall_forall. intros s Hs%list_elem_of_In.
  apply in_map_iff in Hs as (a & <- & Ha%H). destruct (print_line a Ha) as (? & ? & _). done.
Qed.

Lemma parse_printed (l : list A) : forallb ok l = true -> map parse (map print l) = l.
Proof.
  rewrite forallb_forall. intros H. rewrite map_map. rewrite <- (map_id l) at 2. apply map_ext_in. intros a Ha%H.
  by apply parse_print.
Qed.

Lemma keep_printed (P : string -> bool) (l : list A) :
  forallb ok l = true -> (forall a, ok a = true -> P (print a) = true) -> List.filter P (map print l) = map print l.
Proof.
  intros H HP. induction l as [|a l IH]; [done|]. cbn in *. apply andb_true_iff in H as [Ha Hl]. by rewrite HP, IH.
Qed.

Lemma short_lines (l : list A) : forallb ok l = true -> existsb too_long (split ch_newline (unlines (map print l))) = false.
Proof.
  intros H. rewrite split_unlines.
  - rewrite existsb_app. cbn. rewrite orb_false_r. rewrite forallb_forall in H.
    apply not_true_iff_false. intros (s & Hs & Hl)%existsb_exists. apply in_map_iff in Hs as (a & <- & Ha%H).
    destruct (print_line a Ha) as (_ & _ & [_ Hn]%andb_true_iff). by rewrite Hl in Hn.
  - rewrite forallb_forall in H. apply Forall_forall. intros s (a & <- & Ha%H)%list_elem_of_In%in_map_iff.
    by destruct (print_line a Ha) as (? & _).
Qed.
End RoundTrip.

Lemma user_line (u : User) : user_ok u = true ->
  contains_char ch_newline (print_user u) = false /\ contains_char (chr 13) (print_user u) = false /\
  line_ok (print_user u) = true.
Proof.
  intros [[[Hf Hu]%andb_true_iff Hg]%andb_true_iff Hl]%andb_true_iff.
  assert (forallb field_ok [u_Name u; u_Pass u; format_int (u_Uid u); format_int (u_Gid u); u_Gecos u; u_Home u; u_Shell u]
    = true) as H.
  { cbn [forallb] in *. rewrite !field_ok_int by done. repeat (apply andb_true_iff in Hf as [-> Hf]). done. }
  split_and!; [apply join_no_char, field_parts; auto..|done].
Qed.

Lemma parse_print_user (u : User) : user_ok u = true -> parse_user (print_user u) = u.
Proof.
  intros [[[Hf Hu]%andb_true_iff Hg]%andb_true_iff _]%andb_true_iff. unfold parse_user, print_user.
  rewrite split_join.
  - unfold str_field, int_field. cbn. rewrite !atoi_format_int by done. by destruct u.
  - done.
  - apply field_parts; [by left|]. cbn [forallb] in *. rewrite !field_ok_int by done.
    repeat (apply andb_true_iff in Hf as [-> Hf]). done.
Qed.

Lemma group_list (g : Group) : group_ok g = true ->
  Forall (fun m => contains_char ch_comma m = false /\ m <> "") (g_List g).
Proof.
  intros [[[[_ _]%andb_true_iff Hl]%andb_true_iff _]%andb_true_iff _]%andb_true_iff.
  apply Forall_forall. intros m Hm%list_elem_of_In. rewrite forallb_forall in Hl. apply Hl in Hm.
  apply andb_true_iff in Hm as [H1%negb_true_iff H2%negb_true_iff]. split; [done|by apply bool_decide_eq_false_1 in H2].
Qed.

Lemma group_fields (g : Group) (c : ascii) : group_ok g = true ->
  c = ch_colon \/ c = ch_newline \/ c = chr 13 ->
  Forall (fun s => contains_char c s = false) [g_Name g; g_Pass g; format_int (g_Gid g); join (String ch_comma "") (g_List g)].
Proof.
  intros [[[[Hf Hg]%andb_true_iff _]%andb_true_iff _]%andb_true_iff _]%andb_true_iff Hc.
  cbn [forallb] in Hf. apply andb_true_iff in Hf as [H1 Hf]. apply andb_true_iff in Hf as [H2 Hf].
  assert (Forall (fun s => contains_char c s = false) [g_Name g; g_Pass g; format_int (g_Gid g)]) as H
    by (apply field_parts; [done|]; cbn; by rewrite H1, H2, field_ok_int).
  rewrite !Forall_cons in H. destruct H as (? & ? & ? & _). repeat constructor; try done.
  apply join_no_char; [by destruct Hc as [->|[->| ->]]|by apply field_parts].
Qed.

Lemma group_line (g : Group) : group_ok g = true ->
  contains_char ch_newline (print_group g) = false /\ contains_char (chr 13) (print_group g) = false /\
  line_ok (print_group g) = true.
Proof.
  intros H. pose proof H as [[_ Hl]%andb_true_iff _]%andb_true_iff.
  split_and!; [apply join_no_char, group_fields; auto..|done].
Qed.

Lemma parse_print_group (g : Group) : group_ok g = true -> parse_group (print_group g) = g.
Proof.
  intros H. pose proof H as [[[[_ Hg]%andb_true_iff _]%andb_true_iff _]%andb_true_iff _]%andb_true_iff.
  unfold parse_group, print_group. rewrite split_join; [|done|by apply group_fields; auto].
  unfold str_field, int_field, list_field. cbn. rewrite atoi_format_int by done.
  pose proof (group_list g H) as Hl. destruct g as [n p i l]; cbn in *. f_equal.
  destruct l as [|m l]; [done|]. apply Forall_cons in Hl as Hl'. destruct Hl' as [[_ Hm] _].
  rewrite bool_decide_eq_false_2; [|destruct l; [done|]].
  - apply split_join; [done|]. eapply Forall_impl; [exact Hl|]. by intros ? [? _].
  - intros E. change (join (String ch_comma "") (m :: s :: l)) with (m +:+ String ch_comma (join (String ch_comma "") (s :: l))) in E.
    by destruct m.
Qed.

Definition file (lines : list string) : option Reader := Some (mkReader (unlines lines) None).

Lemma read_users (l : list User) (keep : User -> bool) :
  forallb user_ok l = true -> ParsePasswdFilter (file (map print_user l)) keep = Ok (List.filter keep l).
Proof.
  intros H. unfold ParsePasswdFilter, parse_file, file. cbn [rd_err rd_data].
  rewrite (short_lines print_user user_ok user_line) by done. unfold scan_entries.
  rewrite (scan_printed print_user user_ok user_line), (trim_lines print_user user_ok user_line) by done.
  rewrite (keep_printed print_user user_ok); [by rewrite (parse_printed print_user parse_user user_ok parse_print_user)|done|].
  intros u (_ & _ & [[_ Hn]%andb_true_iff _]%andb_true_iff)%user_line. done.
Qed.

Lemma read_groups (l : list Group) (keep : Group -> bool) :
  forallb group_ok l = true -> ParseGroupFilter (file (map print_group l)) keep = Ok (List.filter keep l).
Proof.
  intros H. unfold ParseGroupFilter, file. cbn [rd_err rd_data]. unfold group_entries.
  rewrite (scan_printed print_group group_ok group_line), (trim_lines print_group group_ok group_line) by done.
  rewrite (keep_printed print_group group_ok);
    [by rewrite (parse_printed print_group parse_group group_ok parse_print_group)|done|].
  intros g Hg. pose proof Hg as [_ Hc]%andb_true_iff. apply group_line in Hg as (_ & _ & [[_ Hn]%andb_true_iff _]%andb_true_iff).
  by rewrite Hn.
Qed.

(** ** Resolving names *)

(** A name: not empty, not a number, without a colon. *)
Definition is_name (s : string) : bool :=
  negb (bool_decide (s = "")) && negb (contains_char ch_colon s)
  && match atoi s with (_, Some _) => true | _ => false end.

Definition user_spec (name : string) (grp : option string) : string :=
  match grp with None => name | Some g => name +:+ String ch_colon g end.

Lemma filter_head {A} (P : A -> bool) (l : list A) :
  List.filter P l = match List.find P l with Some x => x :: tail (List.filter P l) | None => [] end.
Proof. induction l as [|a l IH]; [done|]. cbn. destruct (P a); [done|exact IH]. Qed.

Lemma spec_parts (name : string) (grp : option string) :
  is_name name = true -> (forall g, grp = Some g -> is_name g = true) ->
  str_field (split ch_colon (user_spec name grp)) 0 = name /\
  str_field (split ch_colon (user_spec name grp)) 1 = default "" grp.
Proof.
  intros [[_ Hn%negb_true_iff]%andb_true_iff _]%andb_true_iff Hg. destruct grp as [g|]; cbn [user_spec].
  - specialize (Hg g eq_refl). apply andb_true_iff in Hg as [[_ Hc%negb_true_iff]%andb_true_iff _].
    by rewrite split_cons_app, split_no_sep.
  - by rewrite split_no_sep.
Qed.

Lemma match_name_user (user : ExecUser) (name : string) (u : User) :
  is_name name = true -> match_user user name u = bool_decide (u_Name u = name).
Proof.
  intros [[Hne%negb_true_iff _]%andb_true_iff Ha]%andb_true_iff. unfold match_user. rewrite Hne.
  by destruct (atoi name) as [? [?|]].
Qed.

Lemma match_name_group (g m : string) (gr : Group) :
  is_name g = true -> match_group g m gr = bool_decide (g_Name gr = g).
Proof.
  intros [[Hne%negb_true_iff _]%andb_true_iff Ha]%andb_true_iff. unfold match_group. rewrite Hne.
  by destruct (atoi g) as [? [?|]].
Qed.

(** A user specification by name resolves as the files say: with well-formed
    passwd and group files, the first entry of the name gives the uid, the gid and
    the home; without a group the supplementary groups are those that list the
    user; with a group its first entry gives the gid, and an unknown user or group
    is an error. *)
Theorem GetExecUser_by_name (users : list User) (groups : list Group) (d : option ExecUser) (name : string)
    (grp : option string) :
  forallb user_ok users = true -> forallb group_ok groups = true -> is_name name = true ->
  (forall g, grp = Some g -> is_name g = true) ->
  let user := default (mkExecUser 0 0 [] "") d in
  GetExecUser (user_spec name grp) d (file (map print_user users)) (file (map print_group groups)) =
    match List.find (fun u => bool_decide (u_Name u = name)) users with
    | None => Err (ErrWrap "unable to find user" ErrNoPasswdEntries)
    | Some u =>
        match grp with
        | None => match List.filter (fun g => bool_decide (name ∈ g_List g)) groups with
                  | [] => Ok (mkExecUser (u_Uid u) (u_Gid u) (Sgids user) (u_Home u))
                  | gs => Ok (mkExecUser (u_Uid u) (u_Gid u) (map g_Gid gs) (u_Home u))
                  end
        | Some g => match List.find (fun gr => bool_decide (g_Name gr = g)) groups with
                    | Some gr => Ok (mkExecUser (u_Uid u) (g_Gid gr) (Sgids user) (u_Home u))
                    | None => Err (ErrWrap "unable to find group" ErrNoGroupEntries)
                    end
        end
    end.
Proof.
  intros Hu Hg Hn Hgn user. unfold GetExecUser. destruct (spec_parts name grp Hn Hgn) as [-> ->]. fold user.
  rewrite read_users by done. cbn [entries_of mbind result_bind].
  rewrite (filter_ext _ (fun u => bool_decide (u_Name u = name))) by (intros; by apply match_name_user).
  rewrite filter_head. destruct (List.find _ users) as [u|] eqn:Ef; cbn [resolve_user mbind result_bind].
  2: { pose proof Hn as [[Hne%negb_true_iff _]%andb_true_iff Ha]%andb_true_iff. rewrite Hne. unfold numeric_id.
       by destruct (atoi name) as [? [?|]]. }
  apply List.find_some in Ef as [_ ->%bool_decide_eq_true_1].
  pose proof Hn as [[Hne%negb_true_iff _]%andb_true_iff _]%andb_true_iff. rewrite Hne, andb_false_r.
  rewrite read_groups by done. cbn [entries_of mbind result_bind]. unfold resolve_group. destruct grp as [g|]; cbn [from_option id].
  - specialize (Hgn g eq_refl). pose proof Hgn as [[Hge%negb_true_iff _]%andb_true_iff Ha]%andb_true_iff. rewrite Hge. cbn [negb].
    rewrite (filter_ext _ (fun gr => bool_decide (g_Name gr = g))) by (intros; by apply match_name_group).
    rewrite filter_head. destruct (List.find _ groups) as [gr|]; [done|]. unfold numeric_id.
    by destruct (atoi g) as [? [?|]].
  - rewrite bool_decide_eq_true_2 by done. cbn [negb].
    rewrite (filter_ext (match_group "" name) (fun gr => bool_decide (name ∈ g_List gr)))
      by (intros gr; reflexivity). by destruct (List.filter _ groups).
Qed.

Definition wit_users : list User :=
  [mkUser "root" "x" 0 0 "root" "/root" "/bin/sh"; mkUser "web" "x" 33 33 "" "/var/www" "/bin/false"].
Definition wit_groups : list Group :=
  [mkGroup "adm" "x" 4 ["root"; "web"]; mkGroup "www" "x" 33 []; mkGroup "audio" "x" 29 ["web"]].

Lemma GetExecUser_by_name_witness :
  GetExecUser "web" None (file (map print_user wit_users)) (file (map print_group wit_groups))
    = Ok (mkExecUser 33 33 [4; 29] "/var/www") /\
  GetExecUser "web:audio" None (file (map print_user wit_users)) (file (map print_group wit_groups))
    = Ok (mkExecUser 33 29 [] "/var/www").
Proof.
  split.
  - refine (eq_trans (GetExecUser_by_name wit_users wit_groups None "web" None _ _ _ _) _);
      [vm_compute; reflexivity|vm_compute; reflexivity|vm_compute; reflexivity|discriminate|vm_compute; reflexivity].
  - refine (eq_trans (GetExecUser_by_name wit_users wit_groups None "web" (Some "audio") _ _ _ _) _);
      [vm_compute; reflexivity|vm_compute; reflexivity|vm_compute; reflexivity| |vm_compute; reflexivity].
    intros g [= <-]. vm_compute. reflexivity.
Defined.

(** ** Ranges *)

Lemma numeric_id_range (arg text : string) (e : error) (id : Z) : numeric_id arg text e = Ok id -> in_range id = true.
Proof.
  unfold numeric_id. destruct (atoi arg) as [n [?|]]; [done|]. destruct (in_range n) eqn:E; [|done]. by injection 1 as <-.
Qed.

(** An entry of a source. *)
Definition in_passwd (passwd : option Reader) (u : User) : Prop :=
  exists l, ParsePasswd passwd = Ok l /\ In u l.
Definition in_group (group : option Reader) (g : Group) : Prop :=
  exists l, ParseGroup group = Ok l /\ In g l.

Lemma filter_keep_all {A} (l : list A) : List.filter keep_all l = l.
Proof. induction l as [|a l IH]; [done|]. cbn. by rewrite IH. Qed.

Lemma users_in_passwd (passwd : option Reader) (keep : User -> bool) (text : string) (l : list User) (u : User) :
  entries_of text passwd (ParsePasswdFilter passwd keep) = Ok l -> In u l -> in_passwd passwd u.
Proof.
  unfold entries_of, in_passwd, ParsePasswd, ParsePasswdFilter, parse_file. destruct passwd as [rd|]; [|by intros [= <-]].
  destruct (rd_err rd); [done|]. destruct (existsb _ _); [done|]. intros [= <-] Hu. eexists. split; [reflexivity|].
  unfold scan_entries in *. rewrite filter_keep_all. by apply filter_In in Hu as [? _].
Qed.

Lemma groups_in_group (group : option Reader) (keep : Group -> bool) (text : string) (l : list Group) (g : Group) :
  entries_of text group (ParseGroupFilter group keep) = Ok l -> In g l -> in_group group g.
Proof.
  unfold entries_of, in_group, ParseGroup, ParseGroupFilter. destruct group as [rd|]; [|by intros [= <-]].
  destruct (rd_err rd); [done|]. intros [= <-] Hg. eexists. split; [reflexivity|].
  unfold group_entries in *. rewrite filter_keep_all. by apply filter_In in Hg as [? _].
Qed.

(** No id comes from nowhere: whatever the specification and the files, the
    uid and the gid of a resolved user are the defaults, those of an entry of the
    files, or a number of the specification in the range of 31-bit ids, and the
    supplementary groups are the default ones or groups of the group file. *)
Theorem ids_accounted (spec : string) (d : option ExecUser) (passwd group : option Reader) (eu : ExecUser) :
  GetExecUser spec d passwd group = Ok eu ->
  let user := default (mkExecUser 0 0 [] "") d in
  (Uid eu = Uid user \/ in_range (Uid eu) = true \/ exists u, in_passwd passwd u /\ Uid eu = u_Uid u) /\
  (Gid eu = Gid user \/ in_range (Gid eu) = true \/ (exists u, in_passwd passwd u /\ Gid eu = u_Gid u) \/
   exists g, in_group group g /\ Gid eu = g_Gid g) /\
  (Sgids eu = Sgids user \/ forall i, In i (Sgids eu) -> exists g, in_group group g /\ i = g_Gid g).
Proof.
  intros H user. unfold GetExecUser in H. fold user in H.
  apply bind_ok in H as (users & Hu & H). apply bind_ok in H as ([user1 m] & H1 & H).
  assert ((Uid user1 = Uid user \/ in_range (Uid user1) = true \/ exists u, in_passwd passwd u /\ Uid user1 = u_Uid u) /\
    (Gid user1 = Gid user \/ exists u, in_passwd passwd u /\ Gid user1 = u_Gid u) /\ Sgids user1 = Sgids user) as (Ku & Kg & Ks).
  { destruct users as [|u users]; cbn [resolve_user] in H1.
    - destruct (bool_decide (str_field _ 0 = "")); [injection H1 as <- <-; by auto|]. apply bind_ok in H1 as (uid & Hr%numeric_id_range & H1).
      injection H1 as <- <-. cbn. by auto.
    - injection H1 as <- <-. pose proof (users_in_passwd _ _ _ _ u Hu (or_introl eq_refl)) as Hp. cbn.
      split; [by eauto|]. split; [by eauto|done]. }
  destruct (bool_decide _ && bool_decide _); [injection H as <-; by naive_solver|].
  apply bind_ok in H as (groups & Hg & H). unfold resolve_group in H.
  destruct (negb _); destruct groups as [|g groups].
  - apply bind_ok in H as (gid & Hr%numeric_id_range & H). injection H as <-. cbn. by naive_solver.
  - injection H as <-. pose proof (groups_in_group _ _ _ _ g Hg (or_introl eq_refl)) as Hp. cbn. by naive_solver.
  - injection H as <-. by naive_solver.
  - injection H as <-. cbn. split; [done|]. split; [by naive_solver|]. right. intros i Hi.
    change (In i (map g_Gid (g :: groups))) in Hi. apply in_map_iff in Hi as (g' & <- & Hi).
    exists g'. split; [|done]. by eapply groups_in_group.
Qed.

Lemma ids_accounted_witness :
  GetExecUser "1000:50" None None None = Ok (mkExecUser 1000 50 [] "") /\
  (1000 = 0 \/ in_range 1000 = true \/ exists u, in_passwd None u /\ 1000 = u_Uid u).
Proof.
  assert (GetExecUser "1000:50" None None None = Ok (mkExecUser 1000 50 [] "")) as H by (vm_compute; reflexivity).
  split; [exact H|]. destruct (ids_accounted "1000:50" None None None _ H) as [Hu _]. exact Hu.
Defined.

(** ** Additional groups *)

(** A group that is asked for twice by its name is reported as unknown: the second
    time its gid is already in the set, the search goes on, and the name is not a
    number. *)
Lemma additional_group_twice :
  GetAdditionalGroups ["adm"] (file (map print_group wit_groups)) = Ok {[ 4 ]} /\
  GetAdditionalGroups ["adm"; "adm"] (file (map print_group wit_groups))
    = Err (ErrWrap "Unable to find group" ErrNoGroupEntries).
Proof. split; vm_compute; reflexivity. Qed.

Lemma first_new_in (m : gset Z) (ag : string) (l : list Group) (gid : Z) :
  first_new m ag l = Some gid -> exists g, In g l /\ names_group ag g = true /\ g_Gid g = gid.
Proof.
  induction l as [|g l IH]; cbn; [done|]. destruct (names_group ag g && _) eqn:E.
  - injection 1 as <-. apply andb_true_iff in E as [E _]. by eauto.
  - intros (g' & ? & ? & ?)%IH. by eauto.
Qed.

(** Every gid of the result was asked for, by the name or number of a group or as
    a number in range. *)
Lemma collect_gids_sound (groups : list Group) (ags : list string) (m m' : gset Z) :
  collect_gids m groups ags = Ok m' ->
  m ⊆ m' /\ forall gid, gid ∈ m' -> gid ∈ m \/
    exists ag, In ag ags /\ ((exists g, In g groups /\ names_group ag g = true /\ g_Gid g = gid) \/
                            (atoi ag = (gid, None) /\ in_range gid = true)).
Proof.
  revert m. induction ags as [|ag ags IH]; intros m; cbn [collect_gids]; [intros [= <-]; by auto|].
  destruct (first_new m ag groups) as [gid|] eqn:Ef.
  - intros (Hsub & Hin)%IH. split; [set_solver|]. intros i [Hi|(a & Ha & Hi)]%Hin; [|right; exists a; split; [by right|done]].
    apply elem_of_union in Hi as [->%elem_of_singleton|Hi]; [|by left]. right. exists ag. split; [by left|].
    left. by eapply first_new_in.
  - intros (gid & Hn & (Hsub & Hin)%IH)%bind_ok. split; [set_solver|].
    intros i [Hi|(a & Ha & Hi)]%Hin; [|right; exists a; split; [by right|done]].
    apply elem_of_union in Hi as [->%elem_of_singleton|Hi]; [|by left]. right. exists ag. split; [by left|]. right.
    unfold numeric_id in Hn. destruct (atoi ag) as [n [?|]]; [done|]. destruct (in_range n) eqn:E; [|done].
    by injection Hn as <-.
Qed.
