(* ===== verification/ContainerState.v ===== *)
(** * The life cycle of a container: state_linux.go and container_linux.go

    The in-process state of a container ([containerState]), its transitions, and
    the operations that consult it: refreshing it against the running system,
    pausing, resuming, signalling, updating and destroying.  The system itself
    (processes, the cgroup manager, the container's state directory, hooks) is the
    interface [Machine]; [MachineLaws] is what the kernel documents about freezing. *)

From S2P Require Import Prelude GoStrings Configs ProcStat.

Open Scope string_scope.
Open Scope list_scope.

(** ** Data *)

Inductive Status := Created | Running | Pausing | Paused | Stopped.
#[global] Instance Status_eq_dec : EqDecision Status.
Proof. solve_decision. Defined.

Definition status_String (s : Status) : string :=
  match s with
  | Created => "created" | Running => "running" | Pausing => "pausing" | Paused => "paused" | Stopped => "stopped"
  end.

Inductive FreezerState := Undefined | Frozen | Thawed.
#[global] Instance FreezerState_eq_dec : EqDecision FreezerState.
Proof. solve_decision. Defined.

Inductive containerState :=
  | stoppedState
  | runningState
  | createdState
  | pausedState
  | restoredState (imageDir : string)
  | loadedState (s : Status).
#[global] Instance containerState_eq_dec : EqDecision containerState.
Proof. solve_decision. Defined.

Definition state_status (s : containerState) : Status :=
  match s with
  | stoppedState => Stopped | runningState => Running | createdState => Created | pausedState => Paused
  | restoredState _ => Running | loadedState st => st
  end.

(** A process of the container: its pid and the start time it reports. *)
Record parentProcess := mkProcess { pid : Z; startTime : Z }.

Record linuxContainer := mkContainer {
  initProcess : option parentProcess; initProcessStartTime : Z; config : Config; intelRdtManager : bool;
  state : containerState }.

(** The part of the OCI state that changes, for the hooks. *)
Record OciState := mkOciState { o_Status : string; o_Pid : Z }.

(** What [saveState] writes. *)
Record StateFile := mkStateFile {
  InitProcessPid : Z; InitProcessStartTime : Z; s_Config : Config; NamespacePaths : gmap string string }.

Definition ErrPaused : error := ErrNew "container paused".
Definition ErrRunning : error := ErrNew "container still running".
Definition ErrNotRunning : error := ErrNew "container not running".
Definition ErrNotPaused : error := ErrNew "container not paused".
Definition stateTransitionError : error := ErrNew "invalid state transition".
Definition ErrNotExist_stat : error := ErrNew "no such file or directory".
Definition SIGKILL : Z := 9.

(** ** The system *)

Class Machine (W : Type) := {
  (** processes *)
  read_stat : W -> Z -> result string;
  kill : Z -> Z -> W -> W * result unit;
  isWaitable : W -> Z -> result bool;
  wait_pid : Z -> W -> W;
  GetSubreaper : W -> result Z;
  ns_supported : W -> string -> bool;
  (** the state directory of the container *)
  stat_root : W -> string -> result unit;
  RemoveAll_root : W -> W * result unit;
  write_state : StateFile -> W -> W * result unit;
  (** the cgroup and Intel RDT managers *)
  Freeze : FreezerState -> W -> W * result unit;
  GetFreezerState : W -> result FreezerState;
  GetAllPids : W -> result (list Z);
  Exists : W -> bool;
  cg_Destroy : W -> W * result unit;
  cg_Set : option Resources -> W -> W * result unit;
  rdt_Destroy : W -> W * result unit;
  rdt_Set : Config -> W -> W * result unit;
  (** the hooks of the configuration *)
  RunPoststop : OciState -> W -> W * result unit }.

Section Container.
Context {W : Type} `{Machine W}.

(** ** State and error *)

Definition St : Type := W * linuxContainer.
Definition CM (A : Type) : Type := St -> St * result A.

#[global] Instance CM_ret : MRet CM := fun A a s => (s, Ok a).
#[global] Instance CM_bind : MBind CM := fun A B k m s =>
  match m s with (s', Ok a) => k a s' | (s', Err e) => (s', Err e) end.
Definition fail {A} (e : error) : CM A := fun s => (s, Err e).
Definition attempt {A} (m : CM A) : CM (result A) := fun s => let '(s', r) := m s in (s', Ok r).
Definition reads {A} (f : W -> linuxContainer -> A) : CM A := fun s => (s, Ok (f s.1 s.2)).
Definition returns {A} (r : result A) : CM A := fun s => (s, r).
Definition call (f : W -> W * result unit) : CM unit := fun '(w, c) => let '(w', r) := f w in ((w', c), r).
Definition set_state (t : containerState) : CM unit := fun '(w, c) =>
  ((w, mkContainer (initProcess c) (initProcessStartTime c) (config c) (intelRdtManager c) t), Ok tt).
Definition set_initProcess (p : option parentProcess) : CM unit := fun '(w, c) =>
  ((w, mkContainer p (initProcessStartTime c) (config c) (intelRdtManager c) (state c)), Ok tt).
Definition set_config (cfg : Config) : CM unit := fun '(w, c) =>
  ((w, mkContainer (initProcess c) (initProcessStartTime c) cfg (intelRdtManager c) (state c)), Ok tt).

(** ** The state of the system *)

Definition system_Stat (w : W) (p : Z) : result Stat_t := data ← read_stat w p; parseStat data.

Definition runType (w : W) (c : linuxContainer) : Status :=
  match initProcess c with
  | None => Stopped
  | Some p =>
      match system_Stat w (pid p) with
      | Err _ => Stopped
      | Ok stat =>
          if negb (bool_decide (StartTime stat = initProcessStartTime c))
             || bool_decide (State stat = Zombie) || bool_decide (State stat = Dead) then Stopped
          else if is_ok (stat_root w "exec.fifo") then Created else Running
      end
  end.

Definition isPaused (w : W) : result bool := st ← GetFreezerState w; Ok (bool_decide (st = Frozen)).

(** ** Transitions *)

Definition stoppedState_transition (to : containerState) : CM unit :=
  match to with
  | runningState | restoredState _ => set_state to
  | stoppedState => mret tt
  | _ => fail stateTransitionError
  end.

Definition runningState_transition (to : containerState) : CM unit :=
  match to with
  | stoppedState =>
      t ← reads runType;
      if bool_decide (t = Running) then fail ErrRunning else set_state to
  | pausedState => set_state to
  | runningState => mret tt
  | _ => fail stateTransitionError
  end.

Definition createdState_transition (to : containerState) : CM unit :=
  match to with
  | runningState | pausedState | stoppedState => set_state to
  | createdState => mret tt
  | _ => fail stateTransitionError
  end.

Definition pausedState_transition (to : containerState) : CM unit :=
  match to with
  | runningState | stoppedState => set_state to
  | pausedState => mret tt
  | _ => fail stateTransitionError
  end.

Definition restoredState_transition (to : containerState) : CM unit :=
  match to with
  | stoppedState | runningState => mret tt
  | _ => fail stateTransitionError
  end.

Definition loadedState_transition (to : containerState) : CM unit := set_state to.

(** [c.state.transition(to)] *)
Definition transition (to : containerState) : CM unit :=
  from ← reads (fun _ c => state c);
  match from with
  | stoppedState => stoppedState_transition to
  | runningState => runningState_transition to
  | createdState => createdState_transition to
  | pausedState => pausedState_transition to
  | restoredState _ => restoredState_transition to
  | loadedState _ => loadedState_transition to
  end.

Definition refreshState : CM unit :=
  paused ← (r ← reads (fun w _ => isPaused w); returns r);
  if (paused : bool) then transition pausedState else
  t ← reads runType;
  match t with
  | Created => transition createdState
  | Running => transition runningState
  | _ => transition stoppedState
  end.

Definition currentStatus : CM Status := _ ← refreshState; reads (fun _ c => state_status (state c)).

Definition currentOCIState : CM OciState :=
  status ← currentStatus;
  reads (fun _ c => mkOciState (status_String status)
    (if bool_decide (status = Stopped) then 0 else match initProcess c with Some p => pid p | None => 0 end)).

(** ** Signals *)

Fixpoint signal_all (pids : list Z) (s : Z) : CM unit :=
  match pids with
  | [] => mret tt
  | p :: pids' => _ ← attempt (call (kill p s)); signal_all pids' s
  end.

Fixpoint reap_all (pids : list Z) (s subreaper : Z) : CM unit :=
  match pids with
  | [] => mret tt
  | p :: pids' =>
      waitable ← reads (fun w _ => isWaitable w p);
      let skip := negb (bool_decide (s = SIGKILL)) && match waitable with Ok b => negb b | Err _ => true end in
      _ ← (if negb skip && bool_decide (subreaper = 0%Z) then call (fun w => (wait_pid p w, Ok tt)) else mret tt);
      reap_all pids' s subreaper
  end.

Definition signalAllProcesses (s : Z) : CM unit :=
  _ ← attempt (call (Freeze Frozen));
  r ← reads (fun w _ => GetAllPids w);
  match r with
  | Err e => _ ← attempt (call (Freeze Thawed)); fail e
  | Ok pids =>
      _ ← signal_all pids s;
      _ ← attempt (call (Freeze Thawed));
      sub ← reads (fun w _ => GetSubreaper w);
      reap_all pids s (match sub with Ok z => z | Err _ => 0%Z end)
  end.

(** ** Destruction *)

Definition runPoststopHooks : CM unit :=
  hooks ← reads (fun _ c => c_Hooks (config c));
  if negb (hooks : bool) then mret tt else
  s ← currentOCIState;
  call (RunPoststop (mkOciState (status_String Stopped) (o_Pid s))).

(** The first error wins. *)
Definition first_err (a b : result unit) : result unit := match a with Ok _ => b | Err _ => a end.

Definition destroy : CM unit :=
  shared ← reads (fun _ c => negb (Contains (c_Namespaces (config c)) NEWPID)
                             || negb (bool_decide (PathOf (c_Namespaces (config c)) NEWPID = "")));
  _ ← (if (shared : bool) then (_ ← attempt (signalAllProcesses SIGKILL); mret tt) else mret tt);
  err ← attempt (call cg_Destroy);
  rdt ← reads (fun _ c => intelRdtManager c);
  err ← (if (rdt : bool) then (ierr ← attempt (call rdt_Destroy); mret (first_err err ierr)) else mret err);
  rerr ← attempt (call RemoveAll_root);
  _ ← set_initProcess None;
  herr ← attempt runPoststopHooks;
  _ ← set_state stoppedState;
  returns (first_err (first_err err rerr) herr).

(** [c.initProcess] where a method of it is called: a container without one panics. *)
Definition the_init : CM parentProcess :=
  p ← reads (fun _ c => initProcess c);
  match p with Some p => mret p | None => fail ErrNilDeref end.

Definition stoppedState_destroy : CM unit := destroy.

Definition runningState_destroy : CM unit :=
  t ← reads runType;
  if bool_decide (t = Running) then fail ErrRunning else destroy.

Definition createdState_destroy : CM unit :=
  p ← the_init;
  _ ← attempt (call (kill (pid p) SIGKILL));
  destroy.

Definition pausedState_destroy : CM unit :=
  t ← reads runType;
  if negb (bool_decide (t = Running)) && negb (bool_decide (t = Created))
  then (_ ← call (Freeze Thawed); destroy) else fail ErrPaused.

Definition restoredState_destroy : CM unit :=
  r ← reads (fun w _ => stat_root w "checkpoint");
  match r with
  | Err e => if bool_decide (e = ErrNotExist_stat) then destroy else fail e
  | Ok _ => destroy
  end.

(** [c.state.destroy()]; a loaded state refreshes and asks again, and the fuel
    counts these turns: one is enough, since a refreshed state is never loaded. *)
Fixpoint state_destroy (fuel : nat) : CM unit :=
  from ← reads (fun _ c => state c);
  match from, fuel with
  | stoppedState, _ => stoppedState_destroy
  | runningState, _ => runningState_destroy
  | createdState, _ => createdState_destroy
  | pausedState, _ => pausedState_destroy
  | restoredState _, _ => restoredState_destroy
  | loadedState _, O => fail (ErrNew "still loaded")
  | loadedState _, S fuel' => _ ← refreshState; state_destroy fuel'
  end.

(** ** Operations *)

Definition Destroy : CM unit := state_destroy 1.

Definition GetStatus : CM Status := currentStatus.

Definition Pause : CM unit :=
  status ← currentStatus;
  match status with
  | Running | Created => _ ← call (Freeze Frozen); transition pausedState
  | _ => fail ErrNotRunning
  end.

Definition Resume : CM unit :=
  status ← currentStatus;
  if negb (bool_decide (status = Paused)) then fail ErrNotPaused else
  _ ← call (Freeze Thawed);
  transition runningState.

Definition Signal (s : Z) (all : bool) : CM unit :=
  status ← currentStatus;
  if all then
    gone ← reads (fun w _ => bool_decide (status = Stopped) && negb (Exists w));
    if (gone : bool) then mret tt else signalAllProcesses s
  else match status with
  | Running | Created | Paused =>
      p ← the_init;
      r ← attempt (call (kill (pid p) s));
      match r with
      | Err e => fail (ErrWrap "unable to signal init" e)
      | Ok _ => if bool_decide (status = Paused) && bool_decide (s = SIGKILL)
                then (_ ← attempt (call (Freeze Thawed)); mret tt) else mret tt
      end
  | _ => fail ErrNotRunning
  end.

Definition Processes : CM (list Z) :=
  status ← currentStatus;
  gone ← reads (fun w _ => bool_decide (status = Stopped) && negb (Exists w));
  if (gone : bool) then mret [] else
  r ← reads (fun w _ => GetAllPids w);
  returns (wrap_err "unable to get all container pids" r).

(** The paths of the namespaces of the init process: the configured types, then
    the other supported ones. *)
Definition namespace_paths (w : W) (p : Z) (n : Namespaces) : gmap string string :=
  let configured := foldl (fun m ns => <[ns_Type ns := GetPath ns p]> m) ∅ n in
  foldl (fun m t => if negb (ns_supported w t) then m else
                    match m !! t with Some _ => m | None => <[t := GetPath (mkNamespace t "") p]> m end)
    configured NamespaceTypes.

Definition currentState (w : W) (c : linuxContainer) : StateFile :=
  let '(p, st) := match initProcess c with Some q => (pid q, startTime q) | None => (-1, 0)%Z end in
  mkStateFile p st (config c) (if (0 <? p)%Z then namespace_paths w p (c_Namespaces (config c)) else ∅).

Definition updateState (process : option parentProcess) : CM unit :=
  _ ← match process with Some p => set_initProcess (Some p) | None => mret tt end;
  s ← reads currentState;
  call (write_state s).

Definition resources (cfg : Config) : option Resources :=
  match c_Cgroups cfg with Some cg => cg_Resources cg | None => None end.

Definition Set_ (cfg : Config) : CM unit :=
  status ← currentStatus;
  if bool_decide (status = Stopped) then fail ErrNotRunning else
  old ← reads (fun _ c => config c);
  r ← attempt (call (cg_Set (resources cfg)));
  match r with
  | Err e => _ ← attempt (call (cg_Set (resources old))); fail e
  | Ok _ =>
      rdt ← reads (fun _ c => intelRdtManager c);
      r ← (if (rdt : bool) then attempt (call (rdt_Set cfg)) else mret (Ok tt));
      match r with
      | Err e => _ ← attempt (call (cg_Set (resources old))); _ ← attempt (call (rdt_Set old)); fail e
      | Ok _ => _ ← set_config cfg; updateState None
      end
  end.

End Container.
Arguments St : clear implicits.
Arguments CM : clear implicits.
