(* ===== verification/Freezer.v ===== *)
(** * The cgroup v1 freezer: cgroups/fs/freezer.go

    Freezing a cgroup while processes keep appearing in it can hang in FREEZING;
    [Set_] retries a bounded number of times and thaws the cgroup when it gives up,
    and [GetState] polls until the state is stable.  The files of the cgroup are the
    interface [FreezerFs], whose answers may change with every access. *)

From S2P Require Import Prelude GoStrings ContainerState.

Open Scope string_scope.
Open Scope list_scope.

Definition ErrENOENT : error := ErrNew "no such file or directory".
Definition ErrENODEV : error := ErrNew "no such device".

(** [cgroups.ReadFile] and [cgroups.WriteFile] on the cgroup, and sleeping. *)
Class FreezerFs (W : Type) := {
  cg_ReadFile : string -> W -> W * result string;
  cg_WriteFile : string -> string -> W -> W * result unit;
  Sleep : W -> W }.

Definition state_text (s : FreezerState) : string :=
  match s with Undefined => "" | Frozen => "FROZEN" | Thawed => "THAWED" end.

Section Freezer.
Context {W : Type} `{FreezerFs W}.

Definition thaw (w : W) : W := fst (cg_WriteFile "freezer.state" (state_text Thawed) w).

(** One turn of the retry loop: [None] to go on. *)
Definition freeze_once (i : nat) (w : W) : W * option (result unit) :=
  let w := if bool_decide (i `mod` 50 = 49) then Sleep (thaw w) else w in
  let '(w, r) := cg_WriteFile "freezer.state" (state_text Frozen) w in
  match r with
  | Err e => (w, Some (Err e))
  | Ok _ =>
      let w := if bool_decide (i `mod` 25 = 24) then Sleep w else w in
      let '(w, r) := cg_ReadFile "freezer.state" w in
      match r with
      | Err e => (w, Some (Err e))
      | Ok s =>
          let s := trim_space s in
          if bool_decide (s = "FREEZING") then (w, None)
          else if bool_decide (s = state_text Frozen) then (w, Some (Ok tt))
          else (w, Some (Err (ErrNew "unexpected state while freezing")))
      end
  end.

(** The loop: [n] turns are left, the next one is turn [i]. *)
Fixpoint freeze_loop (n i : nat) (w : W) : W * result unit :=
  match n with
  | O => (w, Err (ErrNew "unable to freeze"))
  | S n' => match freeze_once i w with
            | (w', Some r) => (w', r)
            | (w', None) => freeze_loop n' (S i) w'
            end
  end.

Definition max_retries : nat := 1000.

(** [FreezerGroup.Set]: the deferred call thaws on every error of the first case. *)
Definition Freezer_Set (s : FreezerState) (w : W) : W * result unit :=
  match s with
  | Frozen => let '(w', r) := freeze_loop max_retries 0 w in
              match r with Ok _ => (w', r) | Err _ => (thaw w', r) end
  | Thawed => cg_WriteFile "freezer.state" (state_text Thawed) w
  | Undefined => (w, Ok tt)
  end.

(** The cgroup itself may be frozen, or only an ancestor of it. *)
Definition self_state (w : W) : W * result FreezerState :=
  let '(w, r) := cg_ReadFile "freezer.self_freezing" w in
  (w, match r with
      | Err e => if errors_is e ErrENOENT || errors_is e ErrENODEV then Ok Frozen else Err e
      | Ok self => if bool_decide (self = "0" +:+ String ch_newline "") then Ok Thawed
                   else if bool_decide (self = "1" +:+ String ch_newline "") then Ok Frozen
                   else Err (ErrNew "unknown freezer.self_freezing state")
      end).

(** One poll: [None] while the cgroup is freezing. *)
Definition poll (w : W) : W * option (result FreezerState) :=
  let '(w, r) := cg_ReadFile "freezer.state" w in
  match r with
  | Err e => (w, Some (if bool_decide (e = ErrENOENT) || errors_is e ErrENODEV then Ok Undefined else Err e))
  | Ok state =>
      let state := trim_space state in
      if bool_decide (state = "THAWED") then (w, Some (Ok Thawed))
      else if bool_decide (state = "FROZEN") then let '(w, r) := self_state w in (w, Some r)
      else if bool_decide (state = "FREEZING") then (Sleep w, None)
      else (w, Some (Err (ErrNew "unknown freezer.state")))
  end.

(** [FreezerGroup.GetState]: polls for ever, here at most [fuel] times. *)
Fixpoint GetState (fuel : nat) (w : W) : option (W * result FreezerState) :=
  match fuel with
  | O => None
  | S fuel' => match poll w with
               | (w', Some r) => Some (w', r)
               | (w', None) => GetState fuel' w'
               end
  end.

(** ** Theorems *)

Lemma freeze_once_ok (i : nat) (w w' : W) :
  freeze_once i w = (w', Some (Ok tt)) ->
  exists w1 s, cg_ReadFile "freezer.state" w1 = (w', Ok s) /\ trim_space s = "FROZEN".
Proof.
  unfold freeze_once. destruct (cg_WriteFile _ _ _) as [w1 [u|e]]; [|done].
  set (w2 := if bool_decide (i `mod` 25 = 24) then Sleep w1 else w1).
  destruct (cg_ReadFile _ w2) as [w3 [s|e]] eqn:Er; [|done].
  case_bool_decide; [done|]. case_bool_decide as E2; [|done]. injection 1 as <-. by exists w2, s.
Qed.

Lemma freeze_loop_ok (n i : nat) (w w' : W) :
  freeze_loop n i w = (w', Ok tt) ->
  exists w1 s, cg_ReadFile "freezer.state" w1 = (w', Ok s) /\ trim_space s = "FROZEN".
Proof.
  revert i w. induction n as [|n IH]; intros i w; cbn [freeze_loop]; [done|].
  destruct (freeze_once i w) as [w1 [r|]] eqn:E; [|apply IH]. injection 1 as -> ->. by eapply freeze_once_ok.
Qed.

(** A freeze never ends half way: when [FreezerGroup.Set] reports success the
    last thing it saw is the cgroup in state FROZEN, and on every failure, a
    cgroup stuck in FREEZING for a thousand turns included, the last thing it did
    is to write THAWED. *)
Theorem freeze_all_or_thaw (w : W) :
  match Freezer_Set Frozen w with
  | (w', Ok _) => exists w1 s, cg_ReadFile "freezer.state" w1 = (w', Ok s) /\ trim_space s = "FROZEN"
  | (w', Err _) => exists w1 r, cg_WriteFile "freezer.state" "THAWED" w1 = (w', r)
  end.
Proof.
  unfold Freezer_Set. destruct (freeze_loop _ _ _) as [w' [[]|e]] eqn:E; [by eapply freeze_loop_ok|].
  exists w', (snd (cg_WriteFile "freezer.state" "THAWED" w')). unfold thaw. cbn. by destruct (cg_WriteFile _ _ w').
Qed.

(** The system after [n] polls. *)
Fixpoint polled (n : nat) (w : W) : W := match n with O => w | S n' => polled n' (fst (poll w)) end.

(** [GetState] returns as soon as the cgroup leaves FREEZING: if the answers
    of the first [n] polls are FREEZING and the next one is not, then with any fuel
    above [n] it returns what that poll says, and it never returns earlier. *)
Theorem GetState_returns (n fuel : nat) (w w' : W) (r : result FreezerState) :
  (forall k, k < n -> snd (poll (polled k w)) = None) -> poll (polled n w) = (w', Some r) -> n < fuel ->
  GetState fuel w = Some (w', r) /\ GetState n w = None.
Proof.
  revert fuel w. induction n as [|n IH]; intros fuel w Hp Hr Hf; (destruct fuel as [|fuel]; [lia|]); cbn [GetState].
  - cbn in Hr. by rewrite Hr.
  - specialize (Hp 0 ltac:(lia)) as H0. cbn in H0. destruct (poll w) as [w1 [x|]] eqn:E; [done|].
    apply IH; [|by cbn in Hr; rewrite E in Hr|lia].
    intros k Hk. specialize (Hp (S k) ltac:(lia)). cbn in Hp. by rewrite E in Hp.
Qed.

End Freezer.

(** A cgroup that freezes after some reads: the number of reads left. *)
#[local] Instance slow_fs : FreezerFs nat := {|
  cg_ReadFile f w := if bool_decide (f = "freezer.state")
                     then (pred w, Ok (if bool_decide (w = 0) then "FROZEN" +:+ String ch_newline "" else "FREEZING"))
                     else (w, Ok ("1" +:+ String ch_newline ""));
  cg_WriteFile _ _ w := (w, Ok tt);
  Sleep w := w |}.

Lemma GetState_returns_witness : GetState 10 3 = Some (0, Ok Frozen) /\ GetState 3 3 = None.
Proof.
  apply (GetState_returns 3 10 3 0 (Ok Frozen)).
  - intros [|[|[|k]]] Hk; [reflexivity..|lia].
  - reflexivity.
  - lia.
Defined.
