(* ===== verification/Bpf.v ===== *)
(** * Classic BPF: golang.org/x/net/bpf and the machine that runs seccomp filters

    Instructions, their raw form, assembling and disassembling as the vendored package
    does them, and the kernel's machine for the operations a seccomp filter may use.  A
    filter is read from a program by its remaining instructions: all jumps go forward. *)

From S2P Require Import Prelude.

Open Scope string_scope.
Open Scope list_scope.
#[local] Open Scope Z_scope.

(** ** Instructions *)

Record RawInstruction := mkRaw { Op : Z; Jt : Z; Jf : Z; K : Z }.
#[global] Instance RawInstruction_eq_dec : EqDecision RawInstruction.
Proof. solve_decision. Defined.

Inductive Register := RegA | RegX.

Definition ALUOpAdd : Z := 0.
Definition ALUOpSub : Z := 16.
Definition ALUOpMul : Z := 32.
Definition ALUOpDiv : Z := 48.
Definition ALUOpOr : Z := 64.
Definition ALUOpAnd : Z := 80.
Definition ALUOpShiftLeft : Z := 96.
Definition ALUOpShiftRight : Z := 112.
Definition aluOpNeg : Z := 128.
Definition ALUOpMod : Z := 144.
Definition ALUOpXor : Z := 160.

Inductive JumpTest :=
  | JumpEqual | JumpNotEqual | JumpGreaterThan | JumpLessThan
  | JumpGreaterOrEqual | JumpLessOrEqual | JumpBitsSet | JumpBitsNotSet.

Definition extOffset : Z := - 4096.
Definition ExtLen : Z := 1.

Inductive Instruction :=
  | Raw (ri : RawInstruction)
  | LoadConstant (Dst : Register) (Val : Z)
  | LoadScratch (Dst : Register) (N : Z)
  | LoadAbsolute (Off : Z) (Size : Z)
  | LoadIndirect (Off : Z) (Size : Z)
  | LoadMemShift (Off : Z)
  | LoadExtension (Num : Z)
  | StoreScratch (Src : Register) (N : Z)
  | ALUOpConstant (AOp : Z) (Val : Z)
  | ALUOpX (AOp : Z)
  | NegateA
  | Jump (Skip : Z)
  | JumpIf (Cond : JumpTest) (Val : Z) (SkipTrue SkipFalse : Z)
  | JumpIfX (Cond : JumpTest) (SkipTrue SkipFalse : Z)
  | RetA
  | RetConstant (Val : Z)
  | TXA
  | TAX.

(** *** Bit patterns of operations *)

Definition opMaskCls : Z := 7.
Definition opMaskLoadDest : Z := 1.
Definition opMaskLoadWidth : Z := 24.
Definition opMaskLoadMode : Z := 224.
Definition opMaskOperand : Z := 8.
Definition opMaskOperator : Z := 240.

Definition opClsLoadA : Z := 0.
Definition opClsLoadX : Z := 1.
Definition opClsStoreA : Z := 2.
Definition opClsStoreX : Z := 3.
Definition opClsALU : Z := 4.
Definition opClsJump : Z := 5.
Definition opClsReturn : Z := 6.
Definition opClsMisc : Z := 7.

Definition opAddrModeImmediate : Z := 0.
Definition opAddrModeAbsolute : Z := 32.
Definition opAddrModeIndirect : Z := 64.
Definition opAddrModeScratch : Z := 96.
Definition opAddrModePacketLen : Z := 128.
Definition opAddrModeMemShift : Z := 160.

Definition opLoadWidth4 : Z := 0.
Definition opLoadWidth2 : Z := 8.
Definition opLoadWidth1 : Z := 16.

Definition opOperandConstant : Z := 0.
Definition opOperandX : Z := 8.

Definition opJumpAlways : Z := 0.
Definition opJumpEqual : Z := 16.
Definition opJumpGT : Z := 32.
Definition opJumpGE : Z := 48.
Definition opJumpSet : Z := 64.

Definition opRetSrcConstant : Z := 0.
Definition opRetSrcA : Z := 16.
Definition opMiscTAX : Z := 0.
Definition opMiscTXA : Z := 128.

(** ** Disassembling *)

Definition jumpOpToTest (op skipTrue skipFalse : Z) : JumpTest * Z * Z :=
  if skipTrue =? 0 then
    (if op =? opJumpEqual then JumpNotEqual else if op =? opJumpGT then JumpLessOrEqual
     else if op =? opJumpGE then JumpLessThan else JumpBitsNotSet, skipFalse, 0)
  else
    (if op =? opJumpEqual then JumpEqual else if op =? opJumpGT then JumpGreaterThan
     else if op =? opJumpGE then JumpGreaterOrEqual else JumpBitsSet, skipTrue, skipFalse).

Definition disassembleLoad (ri : RawInstruction) : Instruction :=
  let reg := if Z.land (Op ri) opMaskLoadDest =? 0 then RegA else RegX in
  let width := Z.land (Op ri) opMaskLoadWidth in
  let mode := Z.land (Op ri) opMaskLoadMode in
  let sized (sz : Z) :=
    if mode =? opAddrModeImmediate then if negb (sz =? 4) then Raw ri else LoadConstant reg (K ri)
    else if mode =? opAddrModeScratch then if negb (sz =? 4) || (15 <? K ri) then Raw ri else LoadScratch reg (K ri)
    else if mode =? opAddrModeAbsolute then
      if extOffset + 4294967295 <? K ri then LoadExtension (uint32 (- extOffset + K ri)) else LoadAbsolute (K ri) sz
    else if mode =? opAddrModeIndirect then LoadIndirect (K ri) sz
    else if mode =? opAddrModePacketLen then if negb (sz =? 4) then Raw ri else LoadExtension ExtLen
    else if mode =? opAddrModeMemShift then LoadMemShift (K ri)
    else Raw ri in
  if width =? opLoadWidth4 then sized 4 else if width =? opLoadWidth2 then sized 2
  else if width =? opLoadWidth1 then sized 1 else Raw ri.

Definition disassembleALU (ri : RawInstruction) : Instruction :=
  let op := Z.land (Op ri) opMaskOperator in
  if op =? aluOpNeg then NegateA
  else if existsb (Z.eqb op)
      [ALUOpAdd; ALUOpSub; ALUOpMul; ALUOpDiv; ALUOpOr; ALUOpAnd; ALUOpShiftLeft; ALUOpShiftRight; ALUOpMod; ALUOpXor]
  then if Z.land (Op ri) opMaskOperand =? opOperandX then ALUOpX op else ALUOpConstant op (K ri)
  else Raw ri.

Definition disassembleJump (ri : RawInstruction) : Instruction :=
  let op := Z.land (Op ri) opMaskOperator in
  if op =? opJumpAlways then Jump (K ri)
  else if existsb (Z.eqb op) [opJumpEqual; opJumpGT; opJumpGE; opJumpSet] then
    let '(cond, skipTrue, skipFalse) := jumpOpToTest op (Jt ri) (Jf ri) in
    if Z.land (Op ri) opMaskOperand =? opOperandX then JumpIfX cond skipTrue skipFalse else JumpIf cond (K ri) skipTrue skipFalse
  else Raw ri.

Definition disassemble1 (ri : RawInstruction) : Instruction :=
  let cls := Z.land (Op ri) opMaskCls in
  if (cls =? opClsLoadA) || (cls =? opClsLoadX) then disassembleLoad ri
  else if cls =? opClsStoreA then if negb (Op ri =? opClsStoreA) || (15 <? K ri) then Raw ri else StoreScratch RegA (K ri)
  else if cls =? opClsStoreX then if negb (Op ri =? opClsStoreX) || (15 <? K ri) then Raw ri else StoreScratch RegX (K ri)
  else if cls =? opClsALU then disassembleALU ri
  else if cls =? opClsJump then disassembleJump ri
  else if cls =? opClsReturn then
    if Op ri =? Z.lor opClsReturn opRetSrcA then RetA
    else if Op ri =? Z.lor opClsReturn opRetSrcConstant then RetConstant (K ri) else Raw ri
  else
    if Op ri =? Z.lor opClsMisc opMiscTAX then TAX else if Op ri =? Z.lor opClsMisc opMiscTXA then TXA else Raw ri.

Definition is_raw (i : Instruction) : bool := match i with Raw _ => true | _ => false end.
Definition Disassemble (raw : list RawInstruction) : list Instruction * bool :=
  let insts := map disassemble1 raw in (insts, negb (existsb is_raw insts)).

(** ** Assembling *)

Definition assembleLoad (dst : Register) (loadSize mode k : Z) : result RawInstruction :=
  let cls := match dst with RegA => opClsLoadA | RegX => opClsLoadX end in
  let raw sz := Ok (mkRaw (Z.lor (Z.lor cls sz) mode) 0 0 k) in
  if loadSize =? 1 then raw opLoadWidth1 else if loadSize =? 2 then raw opLoadWidth2
  else if loadSize =? 4 then raw opLoadWidth4 else Err (ErrNew "invalid load byte length").

Definition jumpToRaw (test : JumpTest) (operand k skipTrue skipFalse : Z) : RawInstruction :=
  let '(cond, flip) :=
    match test with
    | JumpEqual => (opJumpEqual, false) | JumpNotEqual => (opJumpEqual, true)
    | JumpGreaterThan => (opJumpGT, false) | JumpLessThan => (opJumpGE, true)
    | JumpGreaterOrEqual => (opJumpGE, false) | JumpLessOrEqual => (opJumpGT, true)
    | JumpBitsSet => (opJumpSet, false) | JumpBitsNotSet => (opJumpSet, true)
    end in
  let '(jt, jf) := if flip : bool then (skipFalse, skipTrue) else (skipTrue, skipFalse) in
  mkRaw (Z.lor (Z.lor opClsJump cond) operand) jt jf k.

Definition scratch_ok (n : Z) : result unit :=
  guard_err ((n <? 0) || (15 <? n)) (ErrNew "invalid scratch slot").

Definition assemble1 (i : Instruction) : result RawInstruction :=
  match i with
  | Raw ri => Ok ri
  | LoadConstant dst val => assembleLoad dst 4 opAddrModeImmediate val
  | LoadScratch dst n => _ ← scratch_ok n; assembleLoad dst 4 opAddrModeScratch (uint32 n)
  | LoadAbsolute off size => assembleLoad RegA size opAddrModeAbsolute off
  | LoadIndirect off size => assembleLoad RegA size opAddrModeIndirect off
  | LoadMemShift off => assembleLoad RegX 1 opAddrModeMemShift off
  | LoadExtension num =>
      if num =? ExtLen then assembleLoad RegA 4 opAddrModePacketLen 0
      else assembleLoad RegA 4 opAddrModeAbsolute (uint32 (extOffset + num))
  | StoreScratch src n =>
      _ ← scratch_ok n;
      Ok (mkRaw (match src with RegA => opClsStoreA | RegX => opClsStoreX end) 0 0 (uint32 n))
  | ALUOpConstant op val => Ok (mkRaw (Z.lor (Z.lor opClsALU opOperandConstant) op) 0 0 val)
  | ALUOpX op => Ok (mkRaw (Z.lor (Z.lor opClsALU opOperandX) op) 0 0 0)
  | NegateA => Ok (mkRaw (Z.lor opClsALU aluOpNeg) 0 0 0)
  | Jump skip => Ok (mkRaw (Z.lor opClsJump opJumpAlways) 0 0 skip)
  | JumpIf cond val st sf => Ok (jumpToRaw cond opOperandConstant val st sf)
  | JumpIfX cond st sf => Ok (jumpToRaw cond opOperandX 0 st sf)
  | RetA => Ok (mkRaw (Z.lor opClsReturn opRetSrcA) 0 0 0)
  | RetConstant val => Ok (mkRaw (Z.lor opClsReturn opRetSrcConstant) 0 0 val)
  | TXA => Ok (mkRaw (Z.lor opClsMisc opMiscTXA) 0 0 0)
  | TAX => Ok (mkRaw (Z.lor opClsMisc opMiscTAX) 0 0 0)
  end.

Fixpoint Assemble (insts : list Instruction) : result (list RawInstruction) :=
  match insts with
  | [] => Ok []
  | i :: l => r ← wrap_err "assembling instruction" (assemble1 i); rs ← Assemble l; Ok (r :: rs)
  end.

(** ** The machine

    [sd k] is the 32-bit word at offset [k] of the seccomp data of a system call. *)

Record Machine := mkMachine { rA : Z; rX : Z; scratch : list Z }.
Definition start : Machine := mkMachine 0 0 (replicate 16 0).
Definition withA (a : Z) (s : Machine) : Machine := mkMachine a (rX s) (scratch s).
Definition withX (x : Z) (s : Machine) : Machine := mkMachine (rA s) x (scratch s).
Definition store (n v : Z) (s : Machine) : Machine := mkMachine (rA s) (rX s) (<[Z.to_nat n := v]> (scratch s)).
Definition slot (n : Z) (s : Machine) : Z := default 0 (scratch s !! Z.to_nat n).

(** The end with a value, the instruction to go on with, or an operation the kernel
    refuses in a filter. *)
Inductive outcome := Return (v : Z) | Continue (skip : Z) (s : Machine) | Refused.

Definition jump_cond (b : bool) (ri : RawInstruction) (s : Machine) : outcome :=
  Continue (if b then Jt ri else Jf ri) s.
Definition division (a b : Z) (s : Machine) : outcome :=
  if b =? 0 then Return 0 else Continue 0 (withA (a / b) s).

Section Exec.
Context (sd : Z -> Z).

Definition exec (ri : RawInstruction) (s : Machine) : outcome :=
  let alu (v : Z) := Continue 0 (withA (uint32 v) s) in
  let k := K ri in
  match Op ri with
  | 32 => if (k mod 4 =? 0) && (0 <=? k) && (k <? 64) then Continue 0 (withA (sd k) s) else Refused
  | 128 => Continue 0 (withA 64 s)
  | 129 => Continue 0 (withX 64 s)
  | 0 => Continue 0 (withA k s)
  | 1 => Continue 0 (withX k s)
  | 96 => if (0 <=? k) && (k <=? 15) then Continue 0 (withA (slot k s) s) else Refused
  | 97 => if (0 <=? k) && (k <=? 15) then Continue 0 (withX (slot k s) s) else Refused
  | 2 => if (0 <=? k) && (k <=? 15) then Continue 0 (store k (rA s) s) else Refused
  | 3 => if (0 <=? k) && (k <=? 15) then Continue 0 (store k (rX s) s) else Refused
  | 4 => alu (rA s + k) | 12 => alu (rA s + rX s)
  | 20 => alu (rA s - k) | 28 => alu (rA s - rX s)
  | 36 => alu (rA s * k) | 44 => alu (rA s * rX s)
  | 52 => division (rA s) k s | 60 => division (rA s) (rX s) s
  | 68 => alu (Z.lor (rA s) k) | 76 => alu (Z.lor (rA s) (rX s))
  | 84 => alu (Z.land (rA s) k) | 92 => alu (Z.land (rA s) (rX s))
  | 100 => alu (Z.shiftl (rA s) (Z.land k 31)) | 108 => alu (Z.shiftl (rA s) (Z.land (rX s) 31))
  | 116 => alu (Z.shiftr (rA s) (Z.land k 31)) | 124 => alu (Z.shiftr (rA s) (Z.land (rX s) 31))
  | 164 => alu (Z.lxor (rA s) k) | 172 => alu (Z.lxor (rA s) (rX s))
  | 132 => alu (- rA s)
  | 5 => Continue k s
  | 21 => jump_cond (rA s =? k) ri s | 29 => jump_cond (rA s =? rX s) ri s
  | 37 => jump_cond (k <? rA s) ri s | 45 => jump_cond (rX s <? rA s) ri s
  | 53 => jump_cond (k <=? rA s) ri s | 61 => jump_cond (rX s <=? rA s) ri s
  | 69 => jump_cond (negb (Z.land (rA s) k =? 0)) ri s | 77 => jump_cond (negb (Z.land (rA s) (rX s) =? 0)) ri s
  | 6 => Return k
  | 22 => Return (rA s)
  | 7 => Continue 0 (withX (rA s) s)
  | 135 => Continue 0 (withA (rX s) s)
  | _ => Refused
  end.

(** [None]: the program ends without a return, or uses what a filter may not. *)
Fixpoint run (fuel : nat) (p : list RawInstruction) (s : Machine) : option Z :=
  match fuel, p with
  | S fuel', ri :: rest =>
      match exec ri s with
      | Return v => Some v
      | Continue skip s' => run fuel' (drop (Z.to_nat skip) rest) s'
      | Refused => None
      end
  | _, _ => None
  end.

(** Every step leaves fewer instructions, so that their number is enough. *)
Definition eval (p : list RawInstruction) (s : Machine) : option Z := run (length p) p s.

Lemma run_enough (m n : nat) (p : list RawInstruction) (s : Machine) :
  (length p <= m)%nat -> (length p <= n)%nat -> run n p s = run m p s.
Proof.
  revert n p s. induction m as [|m IH]; intros n [|ri p] s Hm Hn; cbn in Hm, Hn; try lia; [by destruct n..|].
  destruct n as [|n]; [lia|]. cbn. destruct (exec ri s); [done| |done]. apply IH; rewrite length_drop; lia.
Qed.

(** One step. *)
Lemma eval_cons (ri : RawInstruction) (rest : list RawInstruction) (s : Machine) :
  eval (ri :: rest) s =
    match exec ri s with
    | Return v => Some v
    | Continue skip s' => eval (drop (Z.to_nat skip) rest) s'
    | Refused => None
    end.
Proof.
  unfold eval. cbn [length run]. destruct (exec ri s); [done| |done]. apply run_enough; rewrite length_drop; lia.
Qed.
End Exec.

(** ** Assembling what was disassembled

    [accepted ri] holds of the operations seccomp accepts with the operands it checks;
    loading the length into X is left out, which the package turns into a load into A. *)

Definition accepted_ops : list Z :=
  [32; 128; 0; 1; 96; 97; 2; 3; 4; 12; 20; 28; 36; 44; 52; 60; 68; 76; 84; 92; 100; 108; 116; 124; 164; 172; 132;
   5; 21; 29; 37; 45; 53; 61; 69; 77; 6; 22; 7; 135].
Definition accepted (ri : RawInstruction) : bool :=
  existsb (Z.eqb (Op ri)) accepted_ops && (0 <=? K ri) && (K ri <=? 4294967295) && (0 <=? Jt ri) && (0 <=? Jf ri) &&
  (negb (existsb (Z.eqb (Op ri)) [2; 3; 96; 97]) || (K ri <=? 15)) &&
  (negb (Op ri =? 32) || ((K ri mod 4 =? 0) && (K ri <? 64))).

(** The raw form of an instruction after disassembling and assembling it. *)
Definition reassembled (ri ri' : RawInstruction) : Prop :=
  is_raw (disassemble1 ri) = false /\ assemble1 (disassemble1 ri) = Ok ri'.

Lemma small_uint32 (z : Z) : 0 <= z <= 15 -> uint32 z = z.
Proof. intros. unfold uint32. rewrite Z.mod_small; lia. Qed.

Lemma reassemble_scratch (op jt jf k : Z) :
  In op [2; 3; 96; 97] -> 0 <= k <= 15 -> reassembled (mkRaw op jt jf k) (mkRaw op 0 0 k).
Proof.
  intros Hop Hk. assert ((15 <? k) = false) as E1 by lia. assert ((k <? 0) = false) as E2 by lia.
  unfold reassembled. cbn [In] in Hop.
  destruct Hop as [<-|[<-|[<-|[<-|[]]]]];
    [assert (disassemble1 (mkRaw 2 jt jf k) = StoreScratch RegA k) as -> by (lazy -[Z.ltb]; rewrite E1; reflexivity)
    |assert (disassemble1 (mkRaw 3 jt jf k) = StoreScratch RegX k) as -> by (lazy -[Z.ltb]; rewrite E1; reflexivity)
    |assert (disassemble1 (mkRaw 96 jt jf k) = LoadScratch RegA k) as -> by (lazy -[Z.ltb]; rewrite E1; reflexivity)
    |assert (disassemble1 (mkRaw 97 jt jf k) = LoadScratch RegX k) as -> by (lazy -[Z.ltb]; rewrite E1; reflexivity)];
    (split; [reflexivity|]); unfold assemble1, scratch_ok; rewrite E1, E2, small_uint32 by exact Hk; reflexivity.
Qed.

Lemma reassemble_jump (op jt jf k : Z) :
  In op [21; 29; 37; 45; 53; 61; 69; 77] ->
  reassembled (mkRaw op jt jf k) (mkRaw op jt jf (if Z.land op opMaskOperand =? opOperandX then 0 else k)).
Proof.
  intros Hop. cbn [In] in Hop. unfold reassembled.
  repeat destruct Hop as [<-|Hop]; try done; destruct jt; split; reflexivity.
Qed.

Lemma reassemble_load (jt jf k : Z) : 0 <= k < 64 -> reassembled (mkRaw 32 jt jf k) (mkRaw 32 0 0 k).
Proof.
  intros Hk. assert ((extOffset + 4294967295 <? k) = false) as E by (apply Z.ltb_ge; unfold extOffset; lia).
  unfold reassembled. assert (disassemble1 (mkRaw 32 jt jf k) = LoadAbsolute k 4) as -> by (lazy -[Z.ltb Z.add extOffset]; rewrite E; reflexivity).
  split; reflexivity.
Qed.

(** Reassembling an accepted instruction changes nothing of what it does. *)
Lemma reassemble (ri : RawInstruction) :
  accepted ri = true -> exists ri', reassembled ri ri' /\ forall sd s, exec sd ri' s = exec sd ri s.
Proof.
  destruct ri as [op jt jf k]. unfold accepted. cbn [Op Jt Jf K]. rewrite !andb_true_iff, !orb_true_iff, !negb_true_iff.
  intros [[[[[[H Hk0%Z.leb_le] Hk1] Hjt] Hjf] Hs] Ha]. apply existsb_exists in H as (o & Hin & ->%Z.eqb_eq).
  unfold accepted_ops in Hin. cbn [In] in Hin.
  repeat match type of Hin with _ \/ _ => destruct Hin as [<-|Hin] end; try done.
  all: first
    [ destruct Ha as [?|[_ Ha%Z.ltb_lt]%andb_true_iff]; [done|]; eexists; split; [apply reassemble_load; lia|reflexivity]
    | destruct Hs as [?|Hs%Z.leb_le]; [done|]; eexists; split; [apply reassemble_scratch; [cbn; tauto|lia]|reflexivity]
    | eexists; split; [apply reassemble_jump; cbn; tauto|reflexivity]
    | eexists; split; [split; reflexivity|reflexivity] ].
Qed.

(** Disassembling an accepted program and assembling it again succeeds and gives a
    program that does the same. *)
Definition same_steps (p p' : list RawInstruction) : Prop := Forall2 (fun ri ri' => forall sd s, exec sd ri' s = exec sd ri s) p p'.

Lemma same_steps_eval (sd : Z -> Z) (p p' : list RawInstruction) (s : Machine) : same_steps p p' -> eval sd p' s = eval sd p s.
Proof.
  unfold eval. intros H. rewrite (Forall2_length _ _ _ H). generalize (length p') as n. intros n. revert p p' s H.
  induction n as [|n IH]; intros p p' s H; [done|]. destruct H as [|ri ri' p p' Hri H]; [done|]. cbn. rewrite Hri.
  destruct (exec sd ri s); [done| |done]. apply IH. by apply Forall2_drop.
Qed.

Lemma reassemble_program (p : list RawInstruction) :
  forallb accepted p = true ->
  exists p', Disassemble p = (map disassemble1 p, true) /\ Assemble (map disassemble1 p) = Ok p' /\ same_steps p p'.
Proof.
  unfold Disassemble. induction p as [|ri p IH]; cbn [forallb map existsb Assemble]; [exists []; repeat split; constructor|].
  intros [Hri Hp]%andb_true_iff. destruct (reassemble ri Hri) as (ri' & [Hr Ha] & He).
  destruct (IH Hp) as (p' & Hd & Hp' & Hs). injection Hd as Hd. exists (ri' :: p').
  rewrite Hr, Ha, Hp'. cbn. apply negb_true_iff in Hd. rewrite Hd. repeat split. by constructor.
Qed.

Lemma Assemble_app (a b : list Instruction) (ra rb : list RawInstruction) :
  Assemble a = Ok ra -> Assemble b = Ok rb -> Assemble (a ++ b) = Ok (ra ++ rb).
Proof.
  revert ra. induction a as [|i a IH]; cbn; intros ra Ha Hb; inv_ok; [done|].
  match goal with H : assemble1 i = _ |- _ => rewrite H end. cbn. by erewrite IH.
Qed.
