(* ===== verification/Seccomp.v ===== *)
(** * Seccomp configurations: configs/config.go and seccomp/config.go

    The rules of a container, and the conversion of the names that specifications use. *)

From S2P Require Import Prelude.

Open Scope string_scope.
Open Scope list_scope.
#[local] Open Scope Z_scope.

Inductive Action := Kill | Errno | Trap | Allow | Trace | Log | Notify | KillThread | KillProcess.
#[global] Instance Action_eq_dec : EqDecision Action.
Proof. solve_decision. Defined.

Inductive Operator :=
  | EqualTo | NotEqualTo | GreaterThan | GreaterThanOrEqualTo | LessThan | LessThanOrEqualTo | MaskEqualTo.
#[global] Instance Operator_eq_dec : EqDecision Operator.
Proof. solve_decision. Defined.

Record Arg := mkArg { a_Index : Z; a_Value : Z; a_ValueTwo : Z; a_Op : Operator }.
Record Syscall := mkSyscall { sc_Name : string; sc_Action : Action; sc_ErrnoRet : option Z; sc_Args : list Arg }.
Record Seccomp := mkSeccomp {
  DefaultAction : Action; Architectures : list string; Syscalls : list Syscall; DefaultErrnoRet : option Z;
  ListenerPath : string; ListenerMetadata : string }.

(** ** Names *)

Definition operators : list (string * Operator) :=
  [("SCMP_CMP_NE", NotEqualTo); ("SCMP_CMP_LT", LessThan); ("SCMP_CMP_LE", LessThanOrEqualTo); ("SCMP_CMP_EQ", EqualTo);
   ("SCMP_CMP_GE", GreaterThanOrEqualTo); ("SCMP_CMP_GT", GreaterThan); ("SCMP_CMP_MASKED_EQ", MaskEqualTo)].

Definition actions : list (string * Action) :=
  [("SCMP_ACT_KILL", Kill); ("SCMP_ACT_ERRNO", Errno); ("SCMP_ACT_TRAP", Trap); ("SCMP_ACT_ALLOW", Allow);
   ("SCMP_ACT_TRACE", Trace); ("SCMP_ACT_LOG", Log); ("SCMP_ACT_NOTIFY", Notify); ("SCMP_ACT_KILL_THREAD", KillThread);
   ("SCMP_ACT_KILL_PROCESS", KillProcess)].

Definition archs : list (string * string) :=
  [("SCMP_ARCH_X86", "x86"); ("SCMP_ARCH_X86_64", "amd64"); ("SCMP_ARCH_X32", "x32"); ("SCMP_ARCH_ARM", "arm");
   ("SCMP_ARCH_AARCH64", "arm64"); ("SCMP_ARCH_MIPS", "mips"); ("SCMP_ARCH_MIPS64", "mips64");
   ("SCMP_ARCH_MIPS64N32", "mips64n32"); ("SCMP_ARCH_MIPSEL", "mipsel"); ("SCMP_ARCH_MIPSEL64", "mipsel64");
   ("SCMP_ARCH_MIPSEL64N32", "mipsel64n32"); ("SCMP_ARCH_PPC", "ppc"); ("SCMP_ARCH_PPC64", "ppc64");
   ("SCMP_ARCH_PPC64LE", "ppc64le"); ("SCMP_ARCH_S390", "s390"); ("SCMP_ARCH_S390X", "s390x")].

(** A lookup in one of the tables. *)
Fixpoint named {A} (table : list (string * A)) (name : string) : option A :=
  match table with
  | [] => None
  | (n, a) :: t => if bool_decide (n = name) then Some a else named t name
  end.
Definition convert {A} (table : list (string * A)) (what name : string) : result A :=
  match named table name with Some a => Ok a | None => Err (ErrNew what) end.

Definition ConvertStringToOperator : string -> result Operator := convert operators "string is not a valid operator for seccomp".
Definition ConvertStringToAction : string -> result Action := convert actions "string is not a valid action for seccomp".
Definition ConvertStringToArch : string -> result string := convert archs "string is not a valid arch for seccomp".
