(* ===== verification/Enosys.v ===== *)
(** * Answering unknown system calls: seccomp/patchbpf/enosys_linux.go

    A container's filter denies what its profile does not name.  A program that probes
    for a newer system call should get ENOSYS, so the runtime puts a stub in front of the
    filter which answers ENOSYS for every number above the largest one the profile names.
    libseccomp, which compiles the filter, is the interface [Libseccomp]; the kernel that
    loads it is the interface [SeccompKernel]. *)

From S2P Require Import Prelude Bpf Seccomp.

Open Scope string_scope.
Open Scope list_scope.
#[local] Open Scope Z_scope.

(** ** libseccomp and the constants of the kernel *)

Inductive ScmpArch :=
  | ArchInvalid | ArchNative | ArchX86 | ArchAMD64 | ArchX32 | ArchARM | ArchARM64 | ArchMIPS | ArchMIPS64 | ArchMIPS64N32
  | ArchMIPSEL | ArchMIPSEL64 | ArchMIPSEL64N32 | ArchPPC | ArchPPC64 | ArchPPC64LE | ArchS390 | ArchS390X
  | ArchPARISC | ArchPARISC64 | ArchRISCV64.
#[global] Instance ScmpArch_eq_dec : EqDecision ScmpArch.
Proof. solve_decision. Defined.

Definition all_archs : list ScmpArch :=
  [ArchInvalid; ArchNative; ArchX86; ArchAMD64; ArchX32; ArchARM; ArchARM64; ArchMIPS; ArchMIPS64; ArchMIPS64N32; ArchMIPSEL;
   ArchMIPSEL64; ArchMIPSEL64N32; ArchPPC; ArchPPC64; ArchPPC64LE; ArchS390; ArchS390X; ArchPARISC; ArchPARISC64; ArchRISCV64].
Definition arch_index (a : ScmpArch) : nat := default 0%nat (fst <$> list_find (eq a) all_archs).
#[global] Instance ScmpArch_countable : Countable ScmpArch.
Proof. apply (inj_countable' arch_index (fun n => default ArchInvalid (all_archs !! n))). by intros []. Defined.

(** What the program asks of libseccomp: names of architectures, the architecture of the
    host, and the number of a system call on an architecture. *)
Class Libseccomp := {
  GetArchFromString : string -> result ScmpArch;
  GetNativeArch : result ScmpArch;
  GetSyscallFromNameByArch : string -> ScmpArch -> result Z }.

(** A compiled filter: the attempt to create a pipe, the export of the program and its
    reading, as bytes, and the flags of the filter. *)
Record ScmpFilter := mkFilter {
  f_pipe : result unit; f_export : result unit; f_read : result (list Z);
  f_noNewPrivs : result bool; f_log : result bool; f_api : Z }.

Definition ENOSYS : Z := 38.
(** [SCMP_ACT_ERRNO(ENOSYS)] *)
Definition retErrnoEnosys : Z := Z.lor 327680 (Z.land ENOSYS 65535).
Definition s390xMultiplexSyscall : Z := 0.

Definition AUDIT_ARCH_I386 : Z := 1073741827.
Definition AUDIT_ARCH_X86_64 : Z := 3221225534.
Definition AUDIT_ARCH_ARM : Z := 1073741864.
Definition AUDIT_ARCH_AARCH64 : Z := 3221225655.
Definition AUDIT_ARCH_MIPS : Z := 8.
Definition AUDIT_ARCH_MIPS64 : Z := 2147483656.
Definition AUDIT_ARCH_MIPS64N32 : Z := 2684354568.
Definition AUDIT_ARCH_MIPSEL : Z := 1073741832.
Definition AUDIT_ARCH_MIPSEL64 : Z := 3221225480.
Definition AUDIT_ARCH_MIPSEL64N32 : Z := 3758096392.
Definition AUDIT_ARCH_PPC : Z := 20.
Definition AUDIT_ARCH_PPC64 : Z := 2147483669.
Definition AUDIT_ARCH_PPC64LE : Z := 3221225493.
Definition AUDIT_ARCH_S390 : Z := 22.
Definition AUDIT_ARCH_S390X : Z := 2147483670.

Definition uint8 (z : Z) : Z := z mod 256.
Definition len {A} (l : list A) : Z := Z.of_nat (length l).

Definition isAllowAction (action : Action) : bool :=
  match action with Allow | Log | Trace => true | _ => false end.

(** ** Reading a program *)

Definition ErrUnexpectedEOF : error := ErrNew "unexpected EOF".

Section Model.
(** [big]: the byte order of the host. *)
Context `{Libseccomp} (big : bool).

Definition word16 (b0 b1 : Z) : Z := if big then b0 * 256 + b1 else b1 * 256 + b0.
Definition word32 (b0 b1 b2 b3 : Z) : Z :=
  if big then word16 b0 b1 * 65536 + word16 b2 b3 else word16 b2 b3 * 65536 + word16 b0 b1.

Fixpoint parseProgram (bytes : list Z) : result (list RawInstruction) :=
  match bytes with
  | [] => Ok []
  | c0 :: c1 :: jt :: jf :: k0 :: k1 :: k2 :: k3 :: rest =>
      program ← parseProgram rest;
      Ok (mkRaw (word16 c0 c1) jt jf (word32 k0 k1 k2 k3) :: program)
  | _ => Err (ErrWrap "program parsing halted mid-instruction" ErrUnexpectedEOF)
  end.

Definition disassembleFilter (filter : ScmpFilter) : result (list Instruction) :=
  _ ← wrap_err "error creating scratch pipe" (f_pipe filter);
  _ ← wrap_err "error exporting BPF" (f_export filter);
  bytes ← wrap_err "error reading from ExportBPF pipe" (f_read filter);
  rawProgram ← wrap_err "parsing generated BPF filter" (parseProgram bytes);
  let '(program, ok) := Disassemble rawProgram in
  if negb ok then Err (ErrNew "could not disassemble entire BPF filter") else Ok program.

(** ** Architectures *)

(** The table of [archToNative], without the case of the native architecture. *)
Definition audit_arch (arch : ScmpArch) : option Z :=
  match arch with
  | ArchX86 => Some AUDIT_ARCH_I386
  | ArchAMD64 | ArchX32 => Some AUDIT_ARCH_X86_64
  | ArchARM => Some AUDIT_ARCH_ARM
  | ArchARM64 => Some AUDIT_ARCH_AARCH64
  | ArchMIPS => Some AUDIT_ARCH_MIPS
  | ArchMIPS64 => Some AUDIT_ARCH_MIPS64
  | ArchMIPS64N32 => Some AUDIT_ARCH_MIPS64N32
  | ArchMIPSEL => Some AUDIT_ARCH_MIPSEL
  | ArchMIPSEL64 => Some AUDIT_ARCH_MIPSEL64
  | ArchMIPSEL64N32 => Some AUDIT_ARCH_MIPSEL64N32
  | ArchPPC => Some AUDIT_ARCH_PPC
  | ArchPPC64 => Some AUDIT_ARCH_PPC64
  | ArchPPC64LE => Some AUDIT_ARCH_PPC64LE
  | ArchS390 => Some AUDIT_ARCH_S390
  | ArchS390X => Some AUDIT_ARCH_S390X
  | _ => None
  end.
Definition known_arch (arch : ScmpArch) : result Z :=
  match audit_arch arch with Some n => Ok n | None => Err (ErrNew "unknown architecture") end.

(** The recursion for the native architecture is one step: libseccomp never answers that
    the native architecture is "native". *)
Definition archToNative (arch : ScmpArch) : result Z :=
  match arch with
  | ArchNative => arch ← wrap_err "unable to get native arch" GetNativeArch; known_arch arch
  | _ => known_arch arch
  end.

Definition lastSyscallMap : Type := gmap Z (gmap ScmpArch Z).

(** The largest number of the named system calls; those that are unknown are ignored. *)
Definition largestSyscall (calls : list Syscall) (arch : ScmpArch) : Z :=
  fold_left (fun largest rule =>
    match GetSyscallFromNameByArch (sc_Name rule) arch with
    | Err _ => largest
    | Ok sysno => if largest <? sysno then sysno else largest
    end) calls 0.

Definition addArch (calls : list Syscall) (lastSyscalls : lastSyscallMap) (ociArch : string) : result lastSyscallMap :=
  arch ← wrap_err "unable to validate seccomp architecture" (GetArchFromString ociArch);
  arch ← (if bool_decide (arch = ArchNative) then wrap_err "unable to get native architecture" GetNativeArch else Ok arch);
  nativeArch ← wrap_err "cannot map architecture to AUDIT_ARCH_ constant" (archToNative arch);
  let maxSyscalls := default ∅ (lastSyscalls !! nativeArch) in
  let lastSyscalls := <[nativeArch := maxSyscalls]> lastSyscalls in
  match maxSyscalls !! arch with
  | Some _ => Ok lastSyscalls
  | None =>
      let largest := largestSyscall calls arch in
      if negb (largest =? 0) then Ok (<[nativeArch := <[arch := largest]> maxSyscalls]> lastSyscalls)
      else Ok (<[nativeArch := delete arch maxSyscalls]> lastSyscalls)
  end.

Fixpoint addArchs (calls : list Syscall) (lastSyscalls : lastSyscallMap) (ociArchs : list string) : result lastSyscallMap :=
  match ociArchs with
  | [] => Ok lastSyscalls
  | a :: l => m ← addArch calls lastSyscalls a; addArchs calls m l
  end.

Definition findLastSyscalls (config : Seccomp) : result lastSyscallMap :=
  addArchs (Syscalls config) ∅ (Architectures config).

(** ** The stub *)

(** The end of a section with one limit. *)
Definition single_tail (sysno baseJumpEnosys baseJumpFilter : Z) : list Instruction :=
  if uint32 (baseJumpEnosys + 1) <=? 255 then
    [JumpIf JumpGreaterThan (uint32 sysno) (uint8 (uint32 (baseJumpEnosys + 1))) 0;
     Jump baseJumpFilter]
  else
    [JumpIf JumpLessOrEqual (uint32 sysno) 1 0;
     Jump (uint32 (baseJumpEnosys + 1));
     Jump baseJumpFilter].

(** On x86 the section is skipped in the wrong mode. *)
Definition check_mode (nativeArch : Z) (scmpArch : ScmpArch) (sectionTail : list Instruction) : result (list Instruction) :=
  if nativeArch =? AUDIT_ARCH_X86_64 then
    match scmpArch with
    | ArchAMD64 => Ok (JumpIf JumpBitsSet (Z.shiftl 1 30) (uint8 (len sectionTail - 1)) 0 :: sectionTail)
    | ArchX32 => Ok (JumpIf JumpBitsNotSet (Z.shiftl 1 30) (uint8 (len sectionTail - 1)) 0 :: sectionTail)
    | _ => Err (ErrNew "unknown amd64 native architecture")
    end
  else Ok sectionTail.

(** System call 0 multiplexes the large ones on s390. *)
Definition multiplex (scmpArch : ScmpArch) : list Instruction :=
  match scmpArch with
  | ArchS390 | ArchS390X => [JumpIf JumpNotEqual (uint32 s390xMultiplexSyscall) 1 0; RetConstant retErrnoEnosys]
  | _ => []
  end.

(** The rules of a section with the limits of x86_64 and of x32. *)
Definition double_rules (x86sysno x32sysno baseJumpEnosys baseJumpFilter : Z) : list Instruction :=
  if uint32 (baseJumpEnosys + 2) <=? 255 then
    [JumpIf JumpBitsSet (Z.shiftl 1 30) 1 0;
     JumpIf JumpGreaterThan (uint32 x86sysno) (uint8 (uint32 (baseJumpEnosys + 2))) 1;
     JumpIf JumpGreaterThan (uint32 x32sysno) (uint8 (uint32 (baseJumpEnosys + 1))) 0;
     Jump baseJumpFilter]
  else
    [JumpIf JumpBitsSet (Z.shiftl 1 30) 1 0;
     JumpIf JumpGreaterThan (uint32 x86sysno) 1 2;
     JumpIf JumpLessOrEqual (uint32 x32sysno) 1 0;
     Jump (uint32 (baseJumpEnosys + 1));
     Jump baseJumpFilter].

Definition loadSyscall : Instruction := LoadAbsolute 0 4.
Definition loadArch : Instruction := LoadAbsolute 4 4.

(** The section of one architecture in front of [tail]; [None] when nothing is known of it. *)
Definition section (nativeArch : Z) (maxSyscalls : gmap ScmpArch Z) (tail : list Instruction) : result (option (list Instruction)) :=
  let baseJumpEnosys := uint32 (len tail - 1) in
  let baseJumpFilter := uint32 (baseJumpEnosys + 1) in
  match map_to_list maxSyscalls with
  | [] => Ok None
  | [(scmpArch, sysno)] =>
      sectionTail ← check_mode nativeArch scmpArch (single_tail sysno baseJumpEnosys baseJumpFilter);
      Ok (Some (loadSyscall :: multiplex scmpArch ++ sectionTail))
  | [_; _] =>
      if negb (nativeArch =? AUDIT_ARCH_X86_64) then Err (ErrNew "unknown architecture overlap on native arch") else
      match maxSyscalls !! ArchX32, maxSyscalls !! ArchAMD64 with
      | None, _ | _, None => Err (ErrNew "missing in overlapping x86_64 arch")
      | Some x32sysno, Some x86sysno =>
          Ok (Some (loadSyscall :: double_rules x86sysno x32sysno baseJumpEnosys baseJumpFilter))
      end
  | _ => Err (ErrNew "invalid number of architecture overlaps")
  end.

(** The two loops go over the map, each in an order of its own. *)
Fixpoint sections (lastSyscalls : lastSyscallMap) (order : list Z) (programTail : list Instruction) (archJumpTable : gmap Z Z)
    : result (list Instruction * gmap Z Z) :=
  match order with
  | [] => Ok (programTail, archJumpTable)
  | nativeArch :: order' =>
      s ← section nativeArch (default ∅ (lastSyscalls !! nativeArch)) programTail;
      match s with
      | None => sections lastSyscalls order' programTail archJumpTable
      | Some s =>
          let programTail := s ++ programTail in
          sections lastSyscalls order' programTail (<[nativeArch := uint32 (len programTail)]> archJumpTable)
      end
  end.

Fixpoint archJumps (archJumpTable : gmap Z Z) (order : list Z) (programTail : list Instruction) : list Instruction :=
  match order with
  | [] => programTail
  | nativeArch :: order' =>
      let jump := uint32 (len programTail - default 0 (archJumpTable !! nativeArch)) in
      archJumps archJumpTable order'
        (if jump <=? 255 then JumpIf JumpEqual (uint32 nativeArch) (uint8 jump) 0 :: programTail
         else JumpIf JumpNotEqual (uint32 nativeArch) 1 0 :: Jump jump :: programTail)
  end.

Definition generateEnosysStub (order1 order2 : list Z) (lastSyscalls : lastSyscallMap) : result (list Instruction) :=
  '(programTail, archJumpTable) ← sections lastSyscalls order1 [Jump 1; RetConstant retErrnoEnosys] ∅;
  let programTail := Jump (uint32 (len programTail)) :: programTail in
  Ok (loadArch :: archJumps archJumpTable order2 programTail).

(** The orders of the two loops, as functions of the map. *)
Context (order1 order2 : lastSyscallMap -> list Z).

Definition generatePatch (config : Seccomp) : result (list Instruction) :=
  if bool_decide (DefaultErrnoRet config = Some retErrnoEnosys) then Ok [] else
  if isAllowAction (DefaultAction config) then Ok [] else
  lastSyscalls ← wrap_err "error finding last syscalls for -ENOSYS stub" (findLastSyscalls config);
  wrap_err "error generating -ENOSYS stub" (generateEnosysStub (order1 lastSyscalls) (order2 lastSyscalls) lastSyscalls).

Definition assemble (program : list Instruction) : result (list RawInstruction) :=
  wrap_err "error assembling program" (Assemble program).

Definition enosysPatchFilter (config : Seccomp) (filter : ScmpFilter) : result (list RawInstruction) :=
  program ← wrap_err "error disassembling original filter" (disassembleFilter filter);
  patch ← wrap_err "error generating patch for filter" (generatePatch config);
  wrap_err "error assembling modified filter" (assemble (patch ++ program)).

(** ** Loading *)

Definition C_FILTER_FLAG_LOG : Z := 2.
Definition C_FILTER_FLAG_NEW_LISTENER : Z := 8.

Definition notifies (config : Seccomp) : bool := existsb (fun call => bool_decide (sc_Action call = Notify)) (Syscalls config).

Definition filterFlags (config : Seccomp) (filter : ScmpFilter) : result (Z * bool) :=
  noNewPrivs ← wrap_err "unable to fetch no_new_privs filter bit" (f_noNewPrivs filter);
  flags ← (if 3 <=? f_api filter then
             logBit ← wrap_err "unable to fetch SECCOMP_FILTER_FLAG_LOG bit" (f_log filter);
             Ok (if logBit : bool then C_FILTER_FLAG_LOG else 0)
           else Ok 0);
  Ok (if notifies config then Z.lor flags C_FILTER_FLAG_NEW_LISTENER else flags, noNewPrivs).

(** The calls that load a filter: with its length as 16 bits and its instructions, and for
    seccomp(2) the flags and the descriptor in return. *)
Class SeccompKernel (W : Type) := {
  prctl_no_new_privs : W -> W * result unit;
  prctl_set_seccomp : Z -> list RawInstruction -> W -> W * result unit;
  seccomp_set_mode_filter : Z -> Z -> list RawInstruction -> W -> W * (Z * option error) }.

Section Load.
Context {W : Type} `{SeccompKernel W}.

(** The descriptor, and the error; the address of the first instruction does not exist in
    an empty filter. *)
Definition sysSeccompSetFilter (flags : Z) (filter : list RawInstruction) (w : W) : W * (Z * option error) :=
  if bool_decide (filter = []) then (w, (-1, Some (ErrNew "panic: index out of range"))) else
  let count := len filter mod 65536 in
  if flags =? 0 then
    let '(w, r) := prctl_set_seccomp count filter w in
    (w, (-1, match r with Ok _ => None | Err e => Some e end))
  else
    let '(w, (fdptr, errno)) := seccomp_set_mode_filter flags count filter w in
    (w, (if negb (Z.land flags C_FILTER_FLAG_NEW_LISTENER =? 0) then fdptr else -1, errno)).

Definition PatchAndLoad (config : Seccomp) (filter : ScmpFilter) (w : W) : W * result Z :=
  match enosysPatchFilter config filter with
  | Err e => (w, Err (ErrWrap "error patching filter" e))
  | Ok fprog =>
      match filterFlags config filter with
      | Err e => (w, Err (ErrWrap "unable to fetch seccomp filter flags" e))
      | Ok (seccompFlags, noNewPrivs) =>
          let '(w, r) := if noNewPrivs : bool then prctl_no_new_privs w else (w, Ok tt) in
          match r with
          | Err e => (w, Err (ErrWrap "error enabling no_new_privs bit" e))
          | Ok _ =>
              match sysSeccompSetFilter seccompFlags fprog w with
              | (w, (_, Some e)) => (w, Err (ErrWrap "error loading seccomp filter" e))
              | (w, (fd, None)) => (w, Ok fd)
              end
          end
      end
  end.
End Load.
End Model.
