(* ===== verification/EnosysThms.v ===== *)
(** * The ENOSYS stub: theorems

    The program the runtime loads answers ENOSYS exactly for the system calls above the
    largest one the profile names for their ABI, and is the original filter otherwise. *)

From S2P Require Import Prelude Bpf Seccomp Enosys.

Open Scope string_scope.
Open Scope list_scope.
#[local] Open Scope Z_scope.

(** ** What the stub is for *)

(** The ABI of a call: x32 calls have bit 30 set. *)
Definition in_abi (nativeArch : Z) (scmpArch : ScmpArch) (nr : Z) : bool :=
  if nativeArch =? AUDIT_ARCH_X86_64 then
    match scmpArch with ArchX32 => Z.testbit nr 30 | _ => negb (Z.testbit nr 30) end
  else true.
Definition is_s390 (scmpArch : ScmpArch) : bool := match scmpArch with ArchS390 | ArchS390X => true | _ => false end.

(** The call is above a limit of its ABI, or it is the one s390 uses for unknown calls. *)
Definition above (nativeArch nr : Z) (l : ScmpArch * Z) : bool :=
  (is_s390 l.1 && (nr =? s390xMultiplexSyscall)) || (in_abi nativeArch l.1 nr && (l.2 <? nr)).
Definition unknown_call (limits : lastSyscallMap) (nativeArch nr : Z) : bool :=
  existsb (above nativeArch nr) (map_to_list (default ∅ (limits !! nativeArch))).

(** ** Steps of assembled instructions *)

Definition raw1 (i : Instruction) : RawInstruction :=
  match assemble1 i with Ok r => r | Err _ => mkRaw 0 0 0 0 end.
Definition code (l : list Instruction) : list RawInstruction := map raw1 l.
Definition assembles (i : Instruction) : bool := is_ok (assemble1 i).

Lemma Assemble_code (l : list Instruction) : forallb assembles l = true -> Assemble l = Ok (code l).
Proof.
  unfold assembles. induction l as [|i l IH]; cbn; [done|]. intros [Hi Hl]%andb_true_iff. rewrite IH by done.
  unfold raw1. by destruct (assemble1 i).
Qed.

Section Steps.
Context (sd : Z -> Z).
Implicit Types (rest F : list RawInstruction) (s : Bpf.Machine).

Definition compares (cond : JumpTest) (a v : Z) : bool :=
  match cond with
  | JumpEqual => a =? v | JumpNotEqual => negb (a =? v)
  | JumpGreaterThan => v <? a | JumpLessThan => negb (v <=? a)
  | JumpGreaterOrEqual => v <=? a | JumpLessOrEqual => negb (v <? a)
  | JumpBitsSet => negb (Z.land a v =? 0) | JumpBitsNotSet => Z.land a v =? 0
  end.

Lemma eval_load (k : Z) rest s : k = 0 \/ k = 4 -> eval sd (raw1 (LoadAbsolute k 4) :: rest) s = eval sd rest (withA (sd k) s).
Proof. intros [-> | ->]; by rewrite eval_cons. Qed.
Lemma eval_jump (n : Z) rest s : eval sd (raw1 (Jump n) :: rest) s = eval sd (drop (Z.to_nat n) rest) s.
Proof. by rewrite eval_cons. Qed.
Lemma eval_ret (v : Z) rest s : eval sd (raw1 (RetConstant v) :: rest) s = Some v.
Proof. by rewrite eval_cons. Qed.
Lemma eval_jumpif (cond : JumpTest) (v t f : Z) rest s :
  eval sd (raw1 (JumpIf cond v t f) :: rest) s = eval sd (drop (Z.to_nat (if compares cond (rA s) v then t else f)) rest) s.
Proof.
  rewrite eval_cons. destruct cond; cbn [raw1 assemble1 exec Op K jumpToRaw];
    unfold raw1, assemble1, jumpToRaw, exec, jump_cond; cbn [Op K Jt Jf compares]; try reflexivity;
    match goal with |- context [if negb ?b then _ else _] => by destruct b | |- _ => by case_match end.
Qed.
End Steps.

(** ** Offsets *)

(** A program that ends with the answer, and is short enough for its offsets. *)
Definition tail_ok (tail : list Instruction) : Prop :=
  (exists pre, tail = pre ++ [RetConstant retErrnoEnosys]) /\ len tail + 16 < 2 ^ 32 /\ forallb assembles tail = true.

Lemma uint32_small (z : Z) : 0 <= z < 2 ^ 32 -> uint32 z = z.
Proof. intros. unfold uint32. by apply Z.mod_small. Qed.
Lemma uint8_small (z : Z) : 0 <= z <= 255 -> uint8 z = z.
Proof. intros. unfold uint8. apply Z.mod_small. lia. Qed.

Lemma tail_len (tail : list Instruction) : tail_ok tail -> 1 <= len tail /\ len tail + 16 < 2 ^ 32.
Proof. intros [[pre ->] [? _]]. unfold len in *. rewrite length_app in *. cbn in *. lia. Qed.

Lemma base_offset (tail : list Instruction) : tail_ok tail -> uint32 (len tail - 1) = len tail - 1.
Proof. intros H%tail_len. apply uint32_small. lia. Qed.

Lemma drop_tail (tail : list Instruction) (F : list RawInstruction) : drop (length tail) (code tail ++ F) = F.
Proof. rewrite drop_app_ge by (unfold code; rewrite length_map; lia). unfold code. rewrite length_map, Nat.sub_diag. done. Qed.

Lemma drop_answer (tail : list Instruction) (F : list RawInstruction) :
  tail_ok tail -> drop (length tail - 1) (code tail ++ F) = raw1 (RetConstant retErrnoEnosys) :: F.
Proof.
  intros [[pre ->] _]. rewrite length_app. cbn [length]. unfold code. rewrite map_app, <- app_assoc.
  replace (length pre + 1 - 1)%nat with (length (map raw1 pre)) by (rewrite length_map; lia). by rewrite drop_app_length.
Qed.

Section Sections.
Context (sd : Z -> Z).
Implicit Types (F : list RawInstruction) (s : Bpf.Machine) (tail : list Instruction).

(** From the last instructions of a section into the answer, and into the filter. *)
Lemma jump_answer tail F s (before : list RawInstruction) (n : Z) :
  tail_ok tail -> n = len tail - 1 + Z.of_nat (length before) ->
  eval sd (drop (Z.to_nat n) (before ++ code tail ++ F)) s = Some retErrnoEnosys.
Proof.
  intros Ht ->. pose proof (tail_len tail Ht). unfold len in *.
  replace (Z.to_nat _) with (length before + (length tail - 1))%nat by lia.
  rewrite <- drop_drop, drop_app_length, drop_answer by done. apply eval_ret.
Qed.
Lemma jump_filter tail F s : eval sd (drop (Z.to_nat (len tail)) (code tail ++ F)) s = eval sd F s.
Proof. unfold len. by rewrite Nat2Z.id, drop_tail. Qed.

Lemma bit30 (a : Z) : (Z.land a (Z.shiftl 1 30) =? 0) = negb (Z.testbit a 30).
Proof.
  change (Z.shiftl 1 30) with (2 ^ 30). by rewrite <- (land_pow2 a 30), negb_involutive.
Qed.

(** The section of one limit: the mode is checked before. *)
Lemma single_tail_eval (no : Z) tail F s :
  tail_ok tail -> 0 <= no < 2 ^ 32 ->
  eval sd (code (single_tail no (uint32 (len tail - 1)) (uint32 (uint32 (len tail - 1) + 1))) ++ code tail ++ F) s
  = if no <? rA s then Some retErrnoEnosys else eval sd F s.
Proof.
  intros Ht Hno. pose proof (tail_len tail Ht). rewrite base_offset by done. unfold single_tail.
  replace (len tail - 1 + 1) with (len tail) by lia. rewrite (uint32_small (len tail)), (uint32_small no) by lia.
  destruct (Z.leb_spec (len tail) 255); cbn [code map app]; rewrite eval_jumpif; cbn [compares].
  - rewrite uint8_small by lia. destruct (no <? rA s).
    + apply (jump_answer tail F s [raw1 (Jump (len tail))]); [done|]. cbn. lia.
    + rewrite ?Z2Nat.inj_0; cbn [drop]. rewrite eval_jump. apply jump_filter.
  - destruct (no <? rA s); cbn [negb].
    + rewrite ?Z2Nat.inj_0; cbn [drop]. rewrite eval_jump. apply (jump_answer tail F s [raw1 (Jump (len tail))]); [done|]. cbn. lia.
    + change (Z.to_nat 1) with 1%nat. cbn [drop]. rewrite eval_jump. apply jump_filter.
Qed.

(** The last instruction of the section jumps to the filter. *)
Lemma single_tail_skip (no : Z) tail F s :
  tail_ok tail ->
  let t := single_tail no (uint32 (len tail - 1)) (uint32 (uint32 (len tail - 1) + 1)) in
  eval sd (drop (Z.to_nat (uint8 (len t - 1))) (code t ++ code tail ++ F)) s = eval sd F s.
Proof.
  intros Ht. pose proof (tail_len tail Ht). rewrite base_offset by done. unfold single_tail.
  replace (len tail - 1 + 1) with (len tail) by lia. rewrite (uint32_small (len tail)) by lia.
  destruct (len tail <=? 255); cbn [code map app];
    [change (Z.to_nat _) with 1%nat|change (Z.to_nat _) with 2%nat]; cbn [drop]; rewrite eval_jump; apply jump_filter.
Qed.

Lemma check_mode_eval (nativeArch no : Z) (sa : ScmpArch) (l : list Instruction) tail F s :
  tail_ok tail -> 0 <= no < 2 ^ 32 ->
  check_mode nativeArch sa (single_tail no (uint32 (len tail - 1)) (uint32 (uint32 (len tail - 1) + 1))) = Ok l ->
  eval sd (code l ++ code tail ++ F) s = if in_abi nativeArch sa (rA s) && (no <? rA s) then Some retErrnoEnosys else eval sd F s.
Proof.
  intros Ht Hno. unfold check_mode, in_abi. destruct (nativeArch =? AUDIT_ARCH_X86_64).
  2: { intros [= <-]. cbn [andb]. by apply single_tail_eval. }
  destruct sa; try done; intros [= <-]; cbn [code map app]; rewrite eval_jumpif; cbn [compares]; rewrite bit30, ?negb_involutive;
    destruct (Z.testbit (rA s) 30); cbn [negb andb]; first [by apply single_tail_skip|rewrite ?Z2Nat.inj_0; cbn [drop]; by apply single_tail_eval].
Qed.

Lemma multiplex_eval (sa : ScmpArch) (rest : list RawInstruction) s :
  eval sd (code (multiplex sa) ++ rest) s
  = if is_s390 sa && (rA s =? s390xMultiplexSyscall) then Some retErrnoEnosys else eval sd rest s.
Proof.
  destruct sa; try done; cbn [multiplex code map app is_s390 andb]; rewrite eval_jumpif; cbn [compares];
    change (uint32 s390xMultiplexSyscall) with s390xMultiplexSyscall; destruct (rA s =? _); cbn [negb]; [|done| |done];
    rewrite ?Z2Nat.inj_0; cbn [drop]; apply eval_ret.
Qed.

Lemma double_eval (x86 x32 : Z) tail F s :
  tail_ok tail -> 0 <= x86 < 2 ^ 32 -> 0 <= x32 < 2 ^ 32 ->
  eval sd (code (double_rules x86 x32 (uint32 (len tail - 1)) (uint32 (uint32 (len tail - 1) + 1))) ++ code tail ++ F) s
  = if (if Z.testbit (rA s) 30 then x32 <? rA s else x86 <? rA s) then Some retErrnoEnosys else eval sd F s.
Proof.
  intros Ht H86 H32. pose proof (tail_len tail Ht). rewrite base_offset by done. unfold double_rules.
  replace (len tail - 1 + 1) with (len tail) by lia. replace (len tail - 1 + 2) with (len tail + 1) by lia.
  rewrite (uint32_small (len tail)), (uint32_small (len tail + 1)), (uint32_small x86), (uint32_small x32) by lia.
  destruct (Z.leb_spec (len tail + 1) 255); cbn [code map app]; rewrite eval_jumpif; cbn [compares]; rewrite bit30, negb_involutive;
    rewrite ?(uint8_small (len tail)), ?(uint8_small (len tail + 1)) by lia;
    destruct (Z.testbit (rA s) 30); change (Z.to_nat 1) with 1%nat; rewrite ?Z2Nat.inj_0; cbn [drop]; rewrite eval_jumpif; cbn [compares].
  - destruct (x32 <? rA s); [|rewrite ?Z2Nat.inj_0; cbn [drop]; rewrite eval_jump; apply jump_filter].
    apply (jump_answer tail F s [raw1 (Jump (len tail))]); [done|cbn; lia].
  - destruct (x86 <? rA s).
    + apply (jump_answer tail F s [raw1 (JumpIf JumpGreaterThan x32 (len tail) 0); raw1 (Jump (len tail))]); [done|cbn; lia].
    + change (Z.to_nat 1) with 1%nat. cbn [drop]. rewrite eval_jump. apply jump_filter.
  - destruct (x32 <? rA s); cbn [negb]; [|change (Z.to_nat 1) with 1%nat]; rewrite ?Z2Nat.inj_0; cbn [drop]; rewrite eval_jump.
    + apply (jump_answer tail F s [raw1 (Jump (len tail))]); [done|cbn; lia].
    + apply jump_filter.
  - destruct (x86 <? rA s); [change (Z.to_nat 1) with 1%nat|change (Z.to_nat 2) with 2%nat]; cbn [drop]; rewrite eval_jump.
    + apply (jump_answer tail F s [raw1 (Jump (len tail))]); [done|cbn; lia].
    + apply jump_filter.
Qed.
End Sections.

(** ** Sections *)

Definition limits_ok (limits : gmap ScmpArch Z) : Prop := map_Forall (fun _ no => 0 <= no < 2 ^ 32) limits.

Lemma limit_in (limits : gmap ScmpArch Z) (sa : ScmpArch) (no : Z) :
  limits_ok limits -> (sa, no) ∈ map_to_list limits -> 0 <= no < 2 ^ 32.
Proof. intros H Hin%elem_of_map_to_list. by eapply H. Qed.

(** With two limits, which are those of x86_64 and x32, their order does not matter. *)
Lemma two_limits (limits : gmap ScmpArch Z) (p q : ScmpArch * Z) (x86 x32 nr : Z) :
  map_to_list limits = [p; q] -> limits !! ArchX32 = Some x32 -> limits !! ArchAMD64 = Some x86 ->
  existsb (above AUDIT_ARCH_X86_64 nr) (map_to_list limits) = if Z.testbit nr 30 then x32 <? nr else x86 <? nr.
Proof.
  intros Hl H32%elem_of_map_to_list H86%elem_of_map_to_list.
  rewrite Hl in H32, H86. rewrite Hl. apply list_elem_of_In in H32, H86. cbn [In] in H32, H86.
  destruct H32 as [->|[->|[]]], H86 as [H|[H|[]]]; try discriminate H; subst;
    unfold above, in_abi; cbn -[Z.testbit]; by destruct (Z.testbit nr 30), (x32 <? nr), (x86 <? nr).
Qed.

Section Stub.
Context (sd : Z -> Z).

(** What a piece of the program in front of [F] does, when [F] does not use A. *)
Definition answers (l : list RawInstruction) (b : bool) : Prop :=
  forall F s, (forall a s, eval sd F (withA a s) = eval sd F s) ->
    eval sd (l ++ F) s = if b then Some retErrnoEnosys else eval sd F s.

Lemma section_answers (n : Z) (limits : gmap ScmpArch Z) (tail s : list Instruction) :
  section n limits tail = Ok (Some s) -> tail_ok tail -> limits_ok limits ->
  answers (code (s ++ tail)) (existsb (above n (sd 0)) (map_to_list limits)) /\ (length s <= 8)%nat /\ forallb assembles s = true.
Proof.
  intros H Ht Hok. unfold section in H. pose proof (limit_in limits) as Hin.
  destruct (map_to_list limits) as [|[sa no] [|q [|]]] eqn:El; [done| | |done].
  - inv_ok. rename x into l. assert (0 <= no < 2 ^ 32) as Hno by (eapply Hin; [done|left]). split; [|split].
    + intros F st HF. unfold code. rewrite map_app. cbn [map app]. rewrite <- app_assoc. unfold loadSyscall.
      rewrite eval_load, map_app, <- app_assoc by auto. fold (code (multiplex sa)). rewrite multiplex_eval. fold (code l) (code tail).
      erewrite check_mode_eval by done. cbn [rA withA existsb]. unfold above. cbn [fst snd]. rewrite HF, orb_false_r.
      by destruct (is_s390 sa && _).
    + match goal with H : check_mode _ _ _ = Ok l |- _ => unfold check_mode, single_tail in H end.
      assert (length (multiplex sa) <= 2)%nat by (destruct sa; cbn; lia).
      repeat case_match; inv_ok; cbn [length]; rewrite length_app; cbn [length] in *; lia.
    + match goal with H : check_mode _ _ _ = Ok l |- _ => unfold check_mode, single_tail in H end.
      assert (forallb assembles (multiplex sa) = true) as Hm by by destruct sa.
      repeat case_match; inv_ok; cbn [forallb]; rewrite forallb_app, Hm; done.
  - destruct (negb (n =? AUDIT_ARCH_X86_64)) eqn:En; [done|]. apply negb_false_iff, Z.eqb_eq in En as ->.
    destruct (limits !! ArchX32) as [x32|] eqn:E32; [|done]. destruct (limits !! ArchAMD64) as [x86|] eqn:E86; [|done]. inv_ok.
    rewrite <- El. pose proof (Hok _ _ E32) as H32. pose proof (Hok _ _ E86) as H86. cbn in H32, H86. split; [|split].
    + intros F st HF. unfold code. rewrite map_app. cbn [map app]. rewrite <- app_assoc. unfold loadSyscall. rewrite eval_load by auto.
      fold (code tail). etrans; [by apply double_eval|]. cbn [rA withA]. rewrite HF. by erewrite two_limits.
    + unfold double_rules. case_match; cbn; lia.
    + unfold double_rules. by case_match.
Qed.

Context (limits : lastSyscallMap).
Hypothesis Hlimits : map_Forall (fun _ l => limits_ok l) limits.

(** Every entry of the jump table leads into a section of its architecture; an
    architecture without an entry has no limits. *)
Definition table_ok (order : list Z) (tail : list Instruction) (tbl : gmap Z Z) : Prop :=
  forall n,
    match tbl !! n with
    | Some j => 0 <= j <= len tail /\ answers (code (drop (length tail - Z.to_nat j) tail)) (unknown_call limits n (sd 0))
    | None => n ∈ order -> unknown_call limits n (sd 0) = false
    end.

Lemma table_ok_app (order : list Z) (s tail : list Instruction) (tbl : gmap Z Z) :
  table_ok order tail tbl -> table_ok order (s ++ tail) tbl.
Proof.
  intros H n. specialize (H n). destruct (tbl !! n) as [j|]; [|done]. destruct H as [Hj Ha]. unfold len in *.
  rewrite length_app. split; [lia|]. rewrite drop_app_ge by lia.
  by replace (length s + length tail - Z.to_nat j - length s)%nat with (length tail - Z.to_nat j)%nat by lia.
Qed.

(** The program as it is now is the section of [n]. *)
Lemma table_ok_insert (order : list Z) (tail : list Instruction) (tbl : gmap Z Z) (n : Z) :
  table_ok order tail tbl -> answers (code tail) (unknown_call limits n (sd 0)) -> len tail < 2 ^ 32 ->
  table_ok (order ++ [n]) tail (<[n := uint32 (len tail)]> tbl).
Proof.
  intros H Ha Hl m. destruct (decide (m = n)) as [->|Hne].
  - rewrite lookup_insert_eq, uint32_small by (unfold len in *; lia). unfold len. split; [lia|]. by rewrite Nat2Z.id, Nat.sub_diag, drop_0.
  - rewrite lookup_insert_ne by done. specialize (H m). destruct (tbl !! m); [done|].
    intros [Hm|?%list_elem_of_singleton]%elem_of_app; [by apply H|done].
Qed.

Lemma section_limits (n : Z) : limits_ok (default ∅ (limits !! n)).
Proof. destruct (limits !! n) as [l|] eqn:E; [by eapply Hlimits|]. cbn. apply map_Forall_empty. Qed.

Lemma section_none (n : Z) (tail : list Instruction) :
  section n (default ∅ (limits !! n)) tail = Ok None -> unknown_call limits n (sd 0) = false.
Proof.
  unfold unknown_call, section. destruct (map_to_list _) as [|[sa no] [|q [|]]]; [done| | |done].
  - intros H. apply bind_ok in H as (? & _ & H). discriminate H.
  - repeat case_match; discriminate.
Qed.

Lemma sections_ok (order seen : list Z) (tail tail' : list Instruction) (tbl tbl' : gmap Z Z) :
  sections limits order tail tbl = Ok (tail', tbl') -> tail_ok tail -> table_ok seen tail tbl ->
  len tail + 8 * len order + 16 < 2 ^ 32 ->
  tail_ok tail' /\ table_ok (seen ++ order) tail' tbl' /\ len tail' <= len tail + 8 * len order.
Proof.
  revert seen tail tbl. induction order as [|n order IH]; intros seen tail tbl H Ht Htbl Hlen; cbn [sections] in H.
  { injection H as <- <-. rewrite app_nil_r. split; [done|]. split; [done|]. unfold len. cbn. lia. }
  apply bind_ok in H as (s & Hs & H). rewrite cons_middle, app_assoc.
  assert (len (n :: order) = 1 + len order) as El by (unfold len; cbn [length]; lia). rewrite El in *.
  destruct s as [s|].
  - apply section_answers in Hs as (Ha & Hl & Has); [|done|apply section_limits].
    assert (len (s ++ tail) <= len tail + 8) as El' by (unfold len; rewrite length_app; lia).
    assert (tail_ok (s ++ tail)) as Ht'.
    { destruct Ht as [[pre ->] [_ Hta]]. split; [exists (s ++ pre); by rewrite app_assoc|]. split; [unfold len in *; lia|].
      by rewrite forallb_app, Has. }
    apply (IH (seen ++ [n])) in H as (? & ? & ?); [|done| |lia]; [split; [done|split; [done|lia]]|].
    apply table_ok_insert; [by apply table_ok_app|done|]. unfold len in *. lia.
  - apply (IH (seen ++ [n])) in H as (? & ? & ?); [|done| |lia]; [split; [done|split; [done|lia]]|].
    intros m. specialize (Htbl m). destruct (tbl !! m); [done|].
    intros [Hm| ->%list_elem_of_singleton]%elem_of_app; [by apply Htbl|by eapply section_none].
Qed.

(** ** The jumps to the sections *)

Section Jumps.
Context (order1 : list Z) (tail : list Instruction) (tbl : gmap Z Z) (F : list RawInstruction).
Hypothesis Htable : table_ok order1 tail tbl.
Hypothesis HF : forall a s, eval sd F (withA a s) = eval sd F s.

Lemma jump_section (front : list Instruction) (n : Z) (s : Bpf.Machine) :
  n ∈ order1 ->
  eval sd (drop (Z.to_nat (len (front ++ tail) - default 0 (tbl !! n))) (code (front ++ tail) ++ F)) s
  = if unknown_call limits n (sd 0) then Some retErrnoEnosys else eval sd F s.
Proof.
  intros Hn. specialize (Htable n). unfold len, code in *. rewrite length_app, map_app, <- app_assoc.
  destruct (tbl !! n) as [j|]; cbn [from_option id].
  - destruct Htable as [Hj Ha]. replace (Z.to_nat _) with (length (map raw1 front) + (length tail - Z.to_nat j))%nat
      by (rewrite length_map; lia).
    rewrite <- drop_drop, drop_app_length, drop_app_le by (rewrite length_map; lia). rewrite skipn_map. by apply Ha.
  - rewrite Htable by done. replace (Z.to_nat _) with (length (map raw1 front) + length tail)%nat by (rewrite length_map; lia).
    rewrite <- drop_drop, drop_app_length. fold (code tail). by rewrite drop_tail.
Qed.

Lemma archJumps_eval (order : list Z) (front : list Instruction) (s : Bpf.Machine) :
  (forall n, n ∈ order -> n ∈ order1 /\ 0 <= n < 2 ^ 32) -> (forall n j, tbl !! n = Some j -> 0 <= j <= len tail) ->
  len (front ++ tail) + 2 * len order < 2 ^ 32 ->
  eval sd (code (archJumps tbl order (front ++ tail)) ++ F) s
  = if bool_decide (rA s ∈ order)
    then if unknown_call limits (rA s) (sd 0) then Some retErrnoEnosys else eval sd F s
    else eval sd (code (front ++ tail) ++ F) s.
Proof.
  intros Ho Hj. revert front. induction order as [|n order IH]; intros front Hl; cbn [archJumps].
  { by rewrite bool_decide_eq_false_2 by apply not_elem_of_nil. }
  destruct (Ho n) as [Hn1 Hn2]; [left|].
  set (j := default 0 (tbl !! n)). assert (0 <= j <= len tail) as Hjb.
  { unfold j. destruct (tbl !! n) eqn:E; [by eapply Hj|unfold len; cbn; lia]. }
  assert (len (n :: order) = 1 + len order) as El by (unfold len; cbn [length]; lia). rewrite El in Hl.
  assert (len (front ++ tail) = len front + len tail) as Ef by (unfold len; rewrite length_app; lia).
  assert (0 <= len front /\ 0 <= len order) as [Hf0 Ho0] by (unfold len; lia).
  rewrite (uint32_small (len (front ++ tail) - j)), (uint32_small n) by lia.
  match goal with |- context [archJumps tbl order ?p] => set (P := p) end. assert (exists front', P = front' ++ tail /\ len (front' ++ tail) <= len (front ++ tail) + 2 /\
    eval sd (code (front' ++ tail) ++ F) s
    = if rA s =? n then if unknown_call limits n (sd 0) then Some retErrnoEnosys else eval sd F s
      else eval sd (code (front ++ tail) ++ F) s) as (front' & -> & Hl' & He).
  { unfold P. destruct (Z.leb_spec (len (front ++ tail) - j) 255);
      [exists (JumpIf JumpEqual n (uint8 (len (front ++ tail) - j)) 0 :: front)
      |exists (JumpIf JumpNotEqual n 1 0 :: Jump (len (front ++ tail) - j) :: front)];
      (split; [done|]); (split; [unfold len; rewrite !length_app; cbn [length]; lia|]);
      unfold code; cbn [map app]; fold (code (front ++ tail)); rewrite eval_jumpif; cbn [compares].
    - rewrite uint8_small by lia. destruct (rA s =? n); [by apply jump_section|by rewrite Z2Nat.inj_0].
    - destruct (rA s =? n); cbn [negb]; rewrite ?Z2Nat.inj_0; change (Z.to_nat 1) with 1%nat; cbn [drop]; [|done].
      rewrite eval_jump. by apply jump_section. }
  rewrite IH; [|intros; apply Ho; by right|lia]. rewrite He.
  destruct (Z.eqb_spec (rA s) n) as [Heq|Hne].
  - rewrite Heq, (bool_decide_eq_true_2 (n ∈ n :: order)) by left. by destruct (bool_decide (n ∈ order)).
  - rewrite (bool_decide_ext (rA s ∈ n :: order) (rA s ∈ order)); [done|]. rewrite elem_of_cons. naive_solver.
Qed.
End Jumps.

Lemma stub_answers (order1 order2 : list Z) (stub : list Instruction) :
  generateEnosysStub order1 order2 limits = Ok stub ->
  (forall n, n ∈ order2 -> n ∈ order1) -> (forall n, n ∈ order1 -> 0 <= n < 2 ^ 32) ->
  (forall n, is_Some (limits !! n) -> n ∈ order2) -> 8 * len order1 + 2 * len order2 + 32 < 2 ^ 32 ->
  answers (code stub) (unknown_call limits (sd 4) (sd 0)).
Proof.
  intros H H21 Hrange Hdom Hl F s HF. unfold generateEnosysStub in H. apply bind_ok in H as ([tail tbl] & Hs & [= <-]).
  assert (0 <= len order1 /\ 0 <= len order2) as [? ?] by (unfold len; lia).
  eapply (sections_ok order1 []) in Hs as (Ht & Htbl & Hlen); cycle 1.
  { split; [by exists [Jump 1]|]. split; [unfold len; cbn; lia|done]. }
  { intros n. rewrite lookup_empty. by intros ?%not_elem_of_nil. }
  { change (len [Jump 1; RetConstant retErrnoEnosys]) with 2. lia. }
  change (len [Jump 1; RetConstant retErrnoEnosys]) with 2 in Hlen. pose proof (tail_len tail Ht).
  unfold code. cbn [map app]. unfold loadArch. rewrite eval_load by auto. fold (code (archJumps tbl order2 (Jump (uint32 (len tail)) :: tail))).
  change (Jump (uint32 (len tail)) :: tail) with ([Jump (uint32 (len tail))] ++ tail).
  erewrite archJumps_eval; [|exact Htbl|done| | |].
  - cbn [rA withA]. rewrite HF. case_bool_decide as Hin; [done|].
    unfold code. cbn [map app]. rewrite eval_jump, uint32_small by lia. fold (code tail). rewrite jump_filter, HF.
    unfold unknown_call. destruct (limits !! sd 4) eqn:E; [exfalso; apply Hin, Hdom; by rewrite E|]. cbn. by rewrite map_to_list_empty.
  - intros n Hn%H21. cbn. by auto.
  - intros n j Hj. specialize (Htbl n). rewrite Hj in Htbl. apply Htbl.
  - unfold len in *. cbn [length app]. lia.
Qed.
End Stub.

(** ** Limits of a profile *)

(** What libseccomp documents: the native architecture is a real one, and numbers of
    system calls are C integers. *)
Class LibseccompLaws (L : Libseccomp) : Prop := {
  native_real a : GetNativeArch = Ok a -> a <> ArchNative;
  syscall_int name a no : GetSyscallFromNameByArch name a = Ok no -> no < 2 ^ 31 }.

Lemma audit_arch_range (sa : ScmpArch) (n : Z) : audit_arch sa = Some n -> 0 <= n < 2 ^ 32.
Proof. destruct sa; try done; intros [= <-]; by compute. Qed.

(** Two architectures of a kernel architecture are the same, or x86_64 and x32. *)
Lemma audit_arch_overlap (a b : ScmpArch) (n : Z) :
  audit_arch a = Some n -> audit_arch b = Some n ->
  a = b \/ (n = AUDIT_ARCH_X86_64 /\ (a = ArchAMD64 /\ b = ArchX32 \/ a = ArchX32 /\ b = ArchAMD64)).
Proof. destruct a; try done; intros [= <-]; destruct b; try done; by auto 6. Qed.

Lemma audit_arch_x86 (sa : ScmpArch) : audit_arch sa = Some AUDIT_ARCH_X86_64 -> sa = ArchAMD64 \/ sa = ArchX32.
Proof. destruct sa; try done; by auto. Qed.

Section Profile.
Context {L : Libseccomp} {LL : LibseccompLaws L}.

(** The architecture a profile names. *)
Definition resolve (ociArch : string) : result ScmpArch :=
  arch ← GetArchFromString ociArch;
  if bool_decide (arch = ArchNative) then GetNativeArch else Ok arch.

Definition limit2 (m : gmap Z (gmap ScmpArch Z)) (n : Z) (sa : ScmpArch) : option Z := m !! n ≫= lookup sa.

(** The call is above the largest number the profile names for its ABI. *)
Definition profile_unknown (config : Seccomp) (n nr : Z) : bool :=
  existsb (fun oci =>
    match resolve oci with
    | Ok sa => bool_decide (audit_arch sa = Some n) && negb (largestSyscall (Syscalls config) sa =? 0)
               && above n nr (sa, largestSyscall (Syscalls config) sa)
    | Err _ => false
    end) (Architectures config).

(** *** The largest number *)

Definition larger (sa : ScmpArch) (largest : Z) (rule : Syscall) : Z :=
  match GetSyscallFromNameByArch (sc_Name rule) sa with
  | Err _ => largest
  | Ok sysno => if largest <? sysno then sysno else largest
  end.
Lemma largest_fold (sa : ScmpArch) (calls : list Syscall) (b : Z) :
  b < 2 ^ 31 ->
  b <= fold_left (larger sa) calls b < 2 ^ 31 /\
  (forall rule no, In rule calls -> GetSyscallFromNameByArch (sc_Name rule) sa = Ok no -> no <= fold_left (larger sa) calls b).
Proof.
  revert b. induction calls as [|c calls IH]; intros b Hb; cbn [fold_left]; [split; [lia|by intros ? ? []]|].
  assert (b <= larger sa b c < 2 ^ 31 /\ (forall no, GetSyscallFromNameByArch (sc_Name c) sa = Ok no -> no <= larger sa b c)) as [Hc Hc'].
  { unfold larger. destruct (GetSyscallFromNameByArch _ sa) as [no|] eqn:E; [|by split; [lia|]].
    apply syscall_int in E. destruct (Z.ltb_spec b no); (split; [lia|]); intros ? [= <-]; lia. }
  destruct (IH (larger sa b c)) as [H1 H2]; [lia|]. split; [lia|]. intros rule no [<-|Hin] Hn; [apply Hc' in Hn; lia|by eapply H2].
Qed.

Lemma largest_bounds (calls : list Syscall) (sa : ScmpArch) : 0 <= largestSyscall calls sa < 2 ^ 31.
Proof. destruct (largest_fold sa calls 0) as [H _]; [lia|]. exact H. Qed.
Lemma largest_max (calls : list Syscall) (sa : ScmpArch) (rule : Syscall) (no : Z) :
  In rule calls -> GetSyscallFromNameByArch (sc_Name rule) sa = Ok no -> no <= largestSyscall calls sa.
Proof. destruct (largest_fold sa calls 0) as [_ H]; [lia|]. apply H. Qed.

(** *** The map *)

Lemma limit2_insert (m : lastSyscallMap) (n n' : Z) (l : gmap ScmpArch Z) (sa : ScmpArch) :
  limit2 (<[n := l]> m) n' sa = if bool_decide (n' = n) then l !! sa else limit2 m n' sa.
Proof.
  unfold limit2, lastSyscallMap in *. case_bool_decide as H; [subst; by rewrite lookup_insert_eq|by rewrite lookup_insert_ne].
Qed.

Definition limit_of (calls : list Syscall) (sa : ScmpArch) : option Z :=
  if largestSyscall calls sa =? 0 then None else Some (largestSyscall calls sa).

(** The map after some architectures of the profile: their limits, and nothing else. *)
Definition map_of (calls : list Syscall) (seen : list string) (m : lastSyscallMap) : Prop :=
  (forall n sa no, limit2 m n sa = Some no <->
     exists oci, oci ∈ seen /\ resolve oci = Ok sa /\ audit_arch sa = Some n /\ limit_of calls sa = Some no) /\
  (forall n, is_Some (m !! n) -> exists oci sa, oci ∈ seen /\ resolve oci = Ok sa /\ audit_arch sa = Some n) /\
  (size m <= length seen)%nat.

Lemma resolve_real (oci : string) (sa : ScmpArch) : resolve oci = Ok sa -> sa <> ArchNative.
Proof.
  unfold resolve. intros (a & Ha & H)%bind_ok. case_bool_decide as Hn; [by apply native_real|]. by injection H as <-.
Qed.

Lemma archToNative_real (sa : ScmpArch) : sa <> ArchNative -> archToNative sa = known_arch sa.
Proof. by destruct sa. Qed.

(** One architecture: the limit of the new one joins the map. *)
Lemma addArch_steps (calls : list Syscall) (m : lastSyscallMap) (oci : string) (sa : ScmpArch) (n : Z) :
  resolve oci = Ok sa -> audit_arch sa = Some n ->
  exists m', addArch calls m oci = Ok m' /\ (size m' <= S (size m))%nat /\
    (forall k, is_Some (m' !! k) -> is_Some (m !! k) \/ k = n) /\
    (forall k b, limit2 m' k b =
       if bool_decide (k = n /\ b = sa)
       then match limit2 m n sa with Some no => Some no | None => limit_of calls sa end else limit2 m k b).
Proof.
  intros Hr Ha. unfold addArch, lastSyscallMap in *. pose proof (resolve_real _ _ Hr) as Hreal. unfold resolve in Hr.
  apply bind_ok in Hr as (a0 & -> & Hr). cbn [wrap_err mbind result_bind].
  replace (if bool_decide (a0 = ArchNative) then wrap_err _ _ else _) with (Ok sa)
    by (case_bool_decide; [by rewrite Hr|done]).
  cbn [mbind result_bind]. rewrite archToNative_real by done. unfold known_arch. rewrite Ha. cbn [wrap_err mbind result_bind].
  set (l := default ∅ (m !! n)).
  assert (forall b, limit2 m n b = l !! b) as Hl.
  { intros b. unfold limit2, l. destruct (m !! n); [done|]. symmetry. apply lookup_empty. }
  assert (forall l', (size (<[n := l']> m) <= S (size m))%nat) as Hsize.
  { intros l'. rewrite map_size_insert. destruct (m !! n); unfold id; lia. }
  assert (forall l' k, is_Some (<[n := l']> m !! k) -> is_Some (m !! k) \/ k = n) as Hdom.
  { intros l' k. destruct (decide (k = n)) as [->|]; [by right|]. rewrite lookup_insert_ne by done. by left. }
  rewrite !insert_insert_eq || rewrite !insert_insert.
  destruct (l !! sa) as [no|] eqn:El; [|destruct (negb _) eqn:Ez];
    (eexists; split; [reflexivity|]); (split; [apply Hsize|]); (split; [apply Hdom|]); intros k b; rewrite limit2_insert;
    (destruct (decide (k = n)) as [->|Hk]; [rewrite (bool_decide_eq_true_2 (n = n)) by done|rewrite (bool_decide_eq_false_2 (k = n)) by done]);
    rewrite ?Hl, ?El.
  - destruct (decide (b = sa)) as [->|]; [by rewrite bool_decide_eq_true_2, El by done|]. rewrite bool_decide_eq_false_2 by naive_solver. done.
  - by rewrite bool_decide_eq_false_2 by naive_solver.
  - apply negb_true_iff in Ez. unfold limit_of. rewrite Ez.
    destruct (decide (b = sa)) as [->|]; [by rewrite bool_decide_eq_true_2, lookup_insert_eq by done|].
    rewrite bool_decide_eq_false_2 by naive_solver. by rewrite lookup_insert_ne.
  - by rewrite bool_decide_eq_false_2 by naive_solver.
  - apply negb_false_iff in Ez. unfold limit_of. rewrite Ez.
    destruct (decide (b = sa)) as [->|]; [by rewrite bool_decide_eq_true_2, lookup_delete_eq by done|].
    rewrite bool_decide_eq_false_2 by naive_solver. by rewrite lookup_delete_ne.
  - by rewrite bool_decide_eq_false_2 by naive_solver.
Qed.

Definition known_oci (oci : string) : Prop := exists sa n, resolve oci = Ok sa /\ audit_arch sa = Some n.

Lemma map_of_step (calls : list Syscall) (seen : list string) (m : lastSyscallMap) (oci : string) :
  known_oci oci -> map_of calls seen m -> exists m', addArch calls m oci = Ok m' /\ map_of calls (seen ++ [oci]) m'.
Proof.
  intros (sa & n & Hr & Ha) (Hm & Hd & Hs). destruct (addArch_steps calls m oci sa n Hr Ha) as (m' & -> & Hs' & Hd' & Hm').
  exists m'. split; [done|]. split; [|split].
  - intros k b no. rewrite Hm'. case_bool_decide as Hk.
    + destruct Hk as [-> ->]. destruct (limit2 m n sa) as [no'|] eqn:E.
      * apply Hm in E as (oci' & Hin & Hr' & _ & Hlim). rewrite <- Hlim. split.
        -- intros Hno. exists oci. rewrite elem_of_app, list_elem_of_singleton. by auto.
        -- by intros (? & _ & _ & _ & ?).
      * split; [|by intros (? & _ & _ & _ & ?)]. intros Hno. exists oci. rewrite elem_of_app, list_elem_of_singleton. by auto.
    + rewrite Hm. split; intros (oci' & Hin & Hr' & Ha' & Hl); exists oci'.
      * rewrite elem_of_app. by auto.
      * apply elem_of_app in Hin as [Hin| ->%list_elem_of_singleton]; [done|]. rewrite Hr in Hr'. injection Hr' as <-.
        rewrite Ha in Ha'. injection Ha' as <-. exfalso. by apply Hk.
  - intros k [Hk|Hk]%Hd'.
    + destruct (Hd k Hk) as (oci' & sa' & Hin & ? & ?). exists oci', sa'. rewrite elem_of_app. by auto.
    + subst k. exists oci, sa. rewrite elem_of_app, list_elem_of_singleton. by auto.
  - rewrite length_app. cbn. lia.
Qed.

Lemma addArchs_ok (calls : list Syscall) (seen rest : list string) (m : lastSyscallMap) :
  (forall oci, oci ∈ rest -> known_oci oci) -> map_of calls seen m ->
  exists m', addArchs calls m rest = Ok m' /\ map_of calls (seen ++ rest) m'.
Proof.
  revert seen m. induction rest as [|oci rest IH]; intros seen m Hk Hm; cbn [addArchs].
  { exists m. by rewrite app_nil_r. }
  destruct (map_of_step calls seen m oci) as (m1 & -> & Hm1); [apply Hk; left|done|]. cbn.
  rewrite cons_middle, app_assoc. apply IH; [|done]. intros o Ho. apply Hk. by right.
Qed.

Lemma findLastSyscalls_ok (config : Seccomp) :
  (forall oci, oci ∈ Architectures config -> known_oci oci) ->
  exists m, findLastSyscalls config = Ok m /\ map_of (Syscalls config) (Architectures config) m.
Proof.
  intros Hk. apply (addArchs_ok _ []); [done|]. unfold map_of, lastSyscallMap. split; [|split].
  - intros n sa no. unfold limit2. rewrite lookup_empty. split; [done|by intros (? & ?%not_elem_of_nil & _)].
  - intros n. rewrite lookup_empty. by intros [? ?].
  - by rewrite map_size_empty.
Qed.

Lemma limit2_elem (m : lastSyscallMap) (n no : Z) (sa : ScmpArch) :
  limit2 m n sa = Some no <-> (sa, no) ∈ map_to_list (default ∅ (m !! n)).
Proof.
  unfold limit2, lastSyscallMap in *. rewrite elem_of_map_to_list. destruct (m !! n); cbn; [done|]. by rewrite lookup_empty.
Qed.

Lemma unknown_profile (config : Seccomp) (m : lastSyscallMap) (n nr : Z) :
  map_of (Syscalls config) (Architectures config) m -> unknown_call m n nr = profile_unknown config n nr.
Proof.
  intros (Hm & _ & _). apply Bool.eq_iff_eq_true. unfold unknown_call, profile_unknown. rewrite !existsb_exists. split.
  - intros ([sa no] & Hin & Ha). apply list_elem_of_In, limit2_elem, Hm in Hin as (oci & Hoci & Hr & Haa & Hl).
    exists oci. split; [by apply list_elem_of_In|]. rewrite Hr, bool_decide_eq_true_2 by done. unfold limit_of in Hl.
    destruct (_ =? 0); [done|]. by injection Hl as ->.
  - intros (oci & Hoci%list_elem_of_In & H). destruct (resolve oci) as [sa|] eqn:Hr; [|done].
    apply andb_true_iff in H as [[Haa%bool_decide_eq_true_1 Hz%negb_true_iff]%andb_true_iff Ha].
    exists (sa, largestSyscall (Syscalls config) sa). split; [|done]. apply list_elem_of_In, limit2_elem, Hm.
    exists oci. repeat split; [done..|]. unfold limit_of. by rewrite Hz.
Qed.

(** *** The stub is always generated *)

Lemma section_total (n : Z) (limits : gmap ScmpArch Z) (tail : list Instruction) :
  (forall sa no, (sa, no) ∈ map_to_list limits -> audit_arch sa = Some n) -> exists s, section n limits tail = Ok s.
Proof.
  intros H. pose proof (NoDup_fst_map_to_list limits) as Hnd. pose proof (fun sa no => elem_of_map_to_list limits sa no) as Hel.
  unfold section. destruct (map_to_list limits) as [|[a no] [|[b no'] [|[c no''] l]]]; [by eauto| | |].
  - pose proof (H a no) as Ha. unfold check_mode. destruct (Z.eqb_spec n AUDIT_ARCH_X86_64) as [->|]; [|by eauto].
    destruct (audit_arch_x86 a) as [-> | ->]; [apply Ha; left|by eauto..].
  - apply NoDup_cons in Hnd as [Hab _]. cbn in Hab. rewrite list_elem_of_singleton in Hab.
    destruct (audit_arch_overlap a b n) as [?|[-> Hor]]; [apply (H a no); left|apply (H b no'); right; left|done|].
    rewrite Z.eqb_refl. cbn [negb].
    destruct Hor as [[-> ->]|[-> ->]];
      [rewrite (proj1 (Hel ArchX32 no')), (proj1 (Hel ArchAMD64 no)) by (first [left|right; left])
      |rewrite (proj1 (Hel ArchX32 no)), (proj1 (Hel ArchAMD64 no')) by (first [left|right; left])]; by eauto.
  - exfalso. cbn in Hnd. rewrite !NoDup_cons, !elem_of_cons in Hnd. destruct Hnd as (Hna & Hnb & _).
    pose proof (H a no ltac:(left)) as Ha. pose proof (H b no' ltac:(right; left)) as Hb. pose proof (H c no'' ltac:(do 2 right; left)) as Hc.
    destruct (audit_arch_overlap a b n) as [?|[_ Hab]]; [done..|naive_solver|].
    destruct (audit_arch_overlap a c n) as [?|[_ Hac]]; [done..|naive_solver|].
    destruct (audit_arch_overlap b c n) as [?|[_ Hbc]]; [done..|naive_solver|]. naive_solver.
Qed.

Lemma sections_total (m : lastSyscallMap) (order : list Z) (tail : list Instruction) (tbl : gmap Z Z) :
  (forall n sa no, limit2 m n sa = Some no -> audit_arch sa = Some n) -> exists r, sections m order tail tbl = Ok r.
Proof.
  intros H. revert tail tbl. induction order as [|n order IH]; intros tail tbl; cbn [sections]; [by eauto|].
  destruct (section_total n (default ∅ (m !! n)) tail) as [s ->].
  { intros sa no Hin%limit2_elem. by eapply H. }
  cbn. destruct s; apply IH.
Qed.
End Profile.

(** ** The bytes libseccomp exports *)

Definition bytes16 (big : bool) (v : Z) : list Z := if big then [v / 256; v mod 256] else [v mod 256; v / 256].
Definition bytes32 (big : bool) (v : Z) : list Z :=
  if big then bytes16 big (v / 65536) ++ bytes16 big (v mod 65536) else bytes16 big (v mod 65536) ++ bytes16 big (v / 65536).
Definition export1 (big : bool) (ri : RawInstruction) : list Z := bytes16 big (Op ri) ++ [Jt ri; Jf ri] ++ bytes32 big (K ri).
Definition export (big : bool) (p : list RawInstruction) : list Z := flat_map (export1 big) p.

Lemma parse_export (big : bool) (p : list RawInstruction) : parseProgram big (export big p) = Ok p.
Proof.
  induction p as [|[op jt jf k] p IH]; [done|]. cbn [export flat_map]. fold (export big p). unfold export1, bytes32, bytes16. cbn [Op Jt Jf K].
  pose proof (Z.div_mod op 256). pose proof (Z.div_mod k 65536). pose proof (Z.div_mod (k / 65536) 256). pose proof (Z.div_mod (k mod 65536) 256).
  destruct big; cbn [app parseProgram]; rewrite IH; cbn [mbind result_bind]; unfold word32, word16; do 3 f_equal; lia.
Qed.

(** ** The patched filter *)

(** The first instruction of the filter loads A. *)
Definition starts_with_load (p : list RawInstruction) : bool := match p with ri :: _ => Op ri =? 32 | [] => false end.

Lemma load_ignores_A (sd : Z -> Z) (p : list RawInstruction) (a : Z) (s : Bpf.Machine) :
  starts_with_load p = true -> eval sd p (withA a s) = eval sd p s.
Proof.
  destruct p as [|[op jt jf k] p]; [done|]. intros H%Z.eqb_eq. cbn in H. subst op. rewrite !eval_cons. unfold exec. cbn [Op K]. by destruct (_ && _).
Qed.

(** An order of the keys of a map. *)
Definition iterates (order : lastSyscallMap -> list Z) : Prop := forall m, order m ≡ₚ (map_to_list m).*1.

Lemma iterates_dom (order : lastSyscallMap -> list Z) (m : lastSyscallMap) (n : Z) :
  iterates order -> n ∈ order m <-> is_Some (m !! n).
Proof.
  intros H. rewrite (H m). rewrite list_elem_of_fmap. split.
  - intros ([? l] & -> & Hin%elem_of_map_to_list). by exists l.
  - intros [l Hl]. exists (n, l). split; [done|]. by apply elem_of_map_to_list.
Qed.
Lemma iterates_len (order : lastSyscallMap -> list Z) (m : lastSyscallMap) : iterates order -> len (order m) = Z.of_nat (size m).
Proof. intros H. unfold len. rewrite (H m), length_fmap. unfold lastSyscallMap in *. by rewrite length_map_to_list. Qed.

Section Patch.
Context {L : Libseccomp} {LL : LibseccompLaws L} (big : bool) (order1 order2 : lastSyscallMap -> list Z).
Hypothesis Horder1 : iterates order1.
Hypothesis Horder2 : iterates order2.

Definition exports (filter : ScmpFilter) (p : list RawInstruction) : Prop :=
  f_pipe filter = Ok tt /\ f_export filter = Ok tt /\ f_read filter = Ok (export big p).

(** The stub is put in front of the filter. *)
Definition patched (config : Seccomp) : bool :=
  negb (isAllowAction (DefaultAction config)) && negb (bool_decide (DefaultErrnoRet config = Some retErrnoEnosys)).

Lemma archJumps_assembles (order : list Z) (tail : list Instruction) (tbl : gmap Z Z) :
  forallb assembles tail = true -> forallb assembles (archJumps tbl order tail) = true.
Proof.
  revert tail. induction order as [|n order IH]; intros tail H; cbn [archJumps]; [done|]. apply IH. case_match; cbn; by rewrite H.
Qed.

Lemma generatePatch_ok (config : Seccomp) :
  (forall oci, oci ∈ Architectures config -> known_oci oci) -> len (Architectures config) < 2 ^ 24 ->
  exists stub, generatePatch order1 order2 config = Ok stub /\ Assemble stub = Ok (code stub) /\
    forall sd, answers sd (code stub) (patched config && profile_unknown config (sd 4) (sd 0)).
Proof.
  intros Hk Hlen. unfold generatePatch, patched. destruct (bool_decide (DefaultErrnoRet config = _)).
  { exists []. rewrite andb_false_r. by repeat split; intros ? ? ? ?. }
  destruct (isAllowAction _). { exists []. by repeat split; intros ? ? ? ?. }
  destruct (findLastSyscalls_ok config Hk) as (m & -> & Hm). cbn [wrap_err mbind result_bind negb andb].
  pose proof Hm as (Hlim & Hdom & Hsize). pose proof (iterates_len order1 m Horder1) as Hl1. pose proof (iterates_len order2 m Horder2) as Hl2.
  assert (8 * len (order1 m) + 2 * len (order2 m) + 32 < 2 ^ 32) as Hsmall by (unfold len in *; lia).
  assert (map_Forall (fun _ l => limits_ok l) m) as Hok.
  { intros n l Hl sa no Hno. assert (limit2 m n sa = Some no) as (oci & _ & _ & _ & Hlo)%Hlim by (unfold limit2, lastSyscallMap in *; by rewrite Hl).
    unfold limit_of in Hlo. pose proof (largest_bounds (Syscalls config) sa). destruct (_ =? 0); [done|]. injection Hlo as <-. lia. }
  destruct (sections_total m (order1 m) [Jump 1; RetConstant retErrnoEnosys] ∅) as [[tail tbl] Hs].
  { intros n sa no (oci & _ & _ & Ha & _)%Hlim. done. }
  unfold generateEnosysStub. rewrite Hs. cbn [mbind result_bind wrap_err]. eexists. split; [reflexivity|]. split.
  - apply Assemble_code. cbn. apply archJumps_assembles. cbn.
    eapply (sections_ok (fun _ => 0) m Hok (order1 m) []) in Hs as ((_ & _ & ?) & _); [done|..].
    + split; [by exists [Jump 1]|]. split; [unfold len; cbn; lia|done].
    + intros n. rewrite lookup_empty. by intros ?%not_elem_of_nil.
    + change (len [Jump 1; RetConstant retErrnoEnosys]) with 2. unfold len in *. lia.
  - intros sd. rewrite <- (unknown_profile config m) by done.
    apply (stub_answers sd m Hok (order1 m) (order2 m)).
    + unfold generateEnosysStub. by rewrite Hs.
    + intros n. by rewrite !iterates_dom.
    + intros n. rewrite iterates_dom by done. intros (oci & sa & _ & _ & Ha)%Hdom. by eapply audit_arch_range.
    + intros n. by rewrite iterates_dom.
    + done.
Qed.

Lemma patch_spec (config : Seccomp) (filter : ScmpFilter) (p : list RawInstruction) :
  (forall oci, oci ∈ Architectures config -> known_oci oci) -> len (Architectures config) < 2 ^ 24 ->
  exports filter p -> forallb accepted p = true -> starts_with_load p = true ->
  exists fprog, enosysPatchFilter big order1 order2 config filter = Ok fprog /\
    forall sd, eval sd fprog start =
      if patched config && profile_unknown config (sd 4) (sd 0) then Some retErrnoEnosys else eval sd p start.
Proof.
  intros Hk Hlen (Hpipe & Hexp & Hread) Hacc Hload. unfold enosysPatchFilter, disassembleFilter.
  rewrite Hpipe, Hexp, Hread. cbn [wrap_err mbind result_bind]. rewrite parse_export. cbn [wrap_err mbind result_bind].
  destruct (reassemble_program p Hacc) as (p' & -> & Hp' & Hsame). cbn [negb wrap_err mbind result_bind].
  destruct (generatePatch_ok config Hk Hlen) as (stub & -> & Hstub & Hans). cbn [wrap_err mbind result_bind].
  unfold assemble. rewrite (Assemble_app _ _ _ _ Hstub Hp'). eexists. split; [reflexivity|]. intros sd.
  rewrite (Hans sd p' start), (same_steps_eval sd p p') by (intros; rewrite ?(same_steps_eval sd p p') by done; by rewrite ?load_ignores_A). done.
Qed.

(** C16. The patched filter is always made, and decides every system call of every
    architecture as it should: ENOSYS for the calls above the largest one the profile
    names for their ABI, unless the profile allows by default, and the decision of the
    original filter for all others, in whatever order the maps are traversed.  The
    original filter is one that the kernel accepts and that starts by loading a word. *)
Theorem patched_filter_correct (config : Seccomp) (filter : ScmpFilter) (p : list RawInstruction) :
  (forall oci, oci ∈ Architectures config -> known_oci oci) -> len (Architectures config) < 2 ^ 24 ->
  exports filter p -> forallb accepted p = true -> starts_with_load p = true ->
  exists fprog, enosysPatchFilter big order1 order2 config filter = Ok fprog /\
    forall sd, eval sd fprog start =
      if patched config && profile_unknown config (sd 4) (sd 0) then Some retErrnoEnosys else eval sd p start.
Proof. apply patch_spec. Qed.

(** ** Loading *)

Section Loading.
Context {W : Type} {SK : SeccompKernel W} (loaded : W -> list RawInstruction).
(** The kernel takes as many instructions as it is told. *)
Hypothesis prctl_loads : forall n l w w', prctl_set_seccomp n l w = (w', Ok tt) -> loaded w' = take (Z.to_nat n) l.
Hypothesis seccomp_loads : forall f n l w w' fd, seccomp_set_mode_filter f n l w = (w', (fd, None)) -> loaded w' = take (Z.to_nat n) l.

Lemma load_all (flags : Z) (l : list RawInstruction) (w w' : W) (fd : Z) :
  sysSeccompSetFilter flags l w = (w', (fd, None)) -> len l < 65536 -> loaded w' = l.
Proof.
  unfold sysSeccompSetFilter. intros H Hl. case_bool_decide; [done|].
  assert (take (Z.to_nat (len l mod 65536)) l = l) as Ht.
  { rewrite Z.mod_small by (unfold len in *; lia). unfold len. by rewrite Nat2Z.id, firstn_all. }
  rewrite <- Ht. destruct (flags =? 0).
  - destruct (prctl_set_seccomp _ _ w) as [w1 [[]|e]] eqn:E; [|done]. injection H as <- _. by eapply prctl_loads.
  - destruct (seccomp_set_mode_filter _ _ _ w) as [w1 [fd1 [e|]]] eqn:E; [done|]. injection H as <- _. by eapply seccomp_loads.
Qed.

(** C17. When [PatchAndLoad] succeeds, the kernel enforces the patched filter, for filters
    that fit the 16 bits of their length; and a descriptor for notifications is returned
    only when a rule asks for notifications. *)
Theorem PatchAndLoad_enforces (config : Seccomp) (filter : ScmpFilter) (p : list RawInstruction) (fd : Z) (w w' : W) :
  (forall oci, oci ∈ Architectures config -> known_oci oci) -> len (Architectures config) < 2 ^ 24 ->
  exports filter p -> forallb accepted p = true -> starts_with_load p = true ->
  (forall fprog, enosysPatchFilter big order1 order2 config filter = Ok fprog -> len fprog < 65536) ->
  PatchAndLoad big order1 order2 config filter w = (w', Ok fd) ->
  (forall sd, eval sd (loaded w') start =
     if patched config && profile_unknown config (sd 4) (sd 0) then Some retErrnoEnosys else eval sd p start) /\
  (notifies config = false -> fd = -1).
Proof.
  intros Hk Hlen He Ha Hs Hfit H. destruct (patch_spec config filter p Hk Hlen He Ha Hs) as (fprog & Hf & Hev).
  unfold PatchAndLoad in H. rewrite Hf in H. destruct (filterFlags config filter) as [[flags nnp]|e] eqn:Hflags; [|done].
  destruct (if nnp then _ else _) as [w1 [[]|e]]; [|done].
  destruct (sysSeccompSetFilter flags fprog w1) as [w2 [fd2 [e|]]] eqn:Hset; [done|]. injection H as <- <-. split.
  - intros sd. rewrite (load_all _ _ _ _ _ Hset) by by apply Hfit. apply Hev.
  - intros Hn. unfold filterFlags in Hflags. rewrite Hn in Hflags.
    assert (Z.land flags C_FILTER_FLAG_NEW_LISTENER = 0) as Hz.
    { destruct (3 <=? f_api filter); inv_ok; repeat case_match; inv_ok; simplify_eq; done. }
    unfold sysSeccompSetFilter in Hset. case_bool_decide; [done|]. rewrite Hz in Hset. cbn in Hset.
    destruct (flags =? 0); [|destruct (seccomp_set_mode_filter _ _ _ _) as [? [? ?]]]; repeat case_match; by simplify_eq.
Qed.
End Loading.

(** A call the profile names is never taken away from the filter: the stub does not
    answer it under any architecture. *)
Theorem named_calls_reach_filter (config : Seccomp) (rule : Syscall) (sa : ScmpArch) (n nr : Z) :
  audit_arch sa = Some n ->
  In rule (Syscalls config) -> GetSyscallFromNameByArch (sc_Name rule) sa = Ok nr -> 0 < nr -> in_abi n sa nr = true ->
  profile_unknown config n nr = false.
Proof.
  intros Ha Hin Hnr Hpos Habi. apply not_true_is_false. intros H. unfold profile_unknown in H.
  apply existsb_exists in H as (oci' & _ & H). destruct (resolve oci') as [sb|]; [|done].
  apply andb_true_iff in H as [[Hb%bool_decide_eq_true_1 _]%andb_true_iff H]. unfold above in H. cbn [fst snd] in H.
  apply orb_true_iff in H as [[_ H%Z.eqb_eq]%andb_true_iff|[Hb2 H%Z.ltb_lt]%andb_true_iff].
  - unfold s390xMultiplexSyscall in H. lia.
  - assert (sb = sa) as ->.
    { destruct (audit_arch_overlap sb sa n Hb Ha) as [?|[-> Hor]]; [done|]. unfold in_abi in *. rewrite Z.eqb_refl in *.
      destruct Hor as [[-> ->]|[-> ->]]; cbn -[Z.testbit] in *; by destruct (Z.testbit nr 30). }
    pose proof (largest_max (Syscalls config) sa rule nr Hin Hnr). lia.
Qed.
End Patch.

(** ** A concrete profile *)

(** The host is x86_64. *)
Definition wit_number (name : string) : option Z := named [("read", 0); ("write", 1); ("openat", 257)] name.
#[local] Instance wit_lib : Libseccomp := {
  GetArchFromString s := match named [("amd64", ArchAMD64); ("x32", ArchX32); ("s390x", ArchS390X)] s with
                         | Some a => Ok a | None => Err (ErrNew "cannot convert unrecognized string") end;
  GetNativeArch := Ok ArchAMD64;
  GetSyscallFromNameByArch s a := match wit_number s with
                                  | Some n => Ok (if bool_decide (a = ArchX32) then n + 1073741824 else n)
                                  | None => Err (ErrNew "could not resolve name to syscall") end }.
#[local] Instance wit_lib_laws : LibseccompLaws wit_lib.
Proof.
  split; [by intros a [= <-]|]. intros name a no. cbn -[wit_number]. destruct (wit_number name) as [n|] eqn:E; [|done]. intros [= <-].
  unfold wit_number in E. cbn in E. repeat case_match; simplify_eq; repeat case_bool_decide; lia.
Qed.

Definition wit_rule (name : string) : Syscall := mkSyscall name Allow None [].
Definition wit_profile (archs : list string) (ret : option Z) : Seccomp :=
  mkSeccomp Errno archs [wit_rule "read"; wit_rule "openat"] ret "" "".
(** ld [4]; jne x86_64 -> kill; ld [0]; jeq 257 -> allow; jeq 0 -> allow; ret EPERM *)
Definition wit_program : list RawInstruction :=
  [mkRaw 32 0 0 4; mkRaw 21 1 0 AUDIT_ARCH_X86_64; mkRaw 6 0 0 0; mkRaw 32 0 0 0; mkRaw 21 2 0 257; mkRaw 21 1 0 0;
   mkRaw 6 0 0 327681; mkRaw 6 0 0 2147418112].
Definition wit_filter : ScmpFilter := mkFilter (Ok tt) (Ok tt) (Ok (export false wit_program)) (Ok false) (Ok false) 6.
Definition keys (m : lastSyscallMap) : list Z := (map_to_list m).*1.
Definition rkeys (m : lastSyscallMap) : list Z := reverse (keys m).

Lemma keys_iterate : iterates keys.
Proof. by intros m. Qed.
Lemma rkeys_iterate : iterates rkeys.
Proof. intros m. apply reverse_Permutation. Qed.

Lemma wit_archs_known (oci : string) : oci ∈ ["amd64"; "s390x"] -> known_oci oci.
Proof.
  rewrite !elem_of_cons. intros [->|[->|[]%not_elem_of_nil]]; [exists ArchAMD64|exists ArchS390X]; eexists; split; reflexivity.
Qed.

(** The data of a call. *)
Definition call (arch nr : Z) (k : Z) : Z := if k =? 4 then arch else if k =? 0 then nr else 0.

Lemma patched_filter_correct_witness :
  exists fprog, enosysPatchFilter false keys rkeys (wit_profile ["amd64"; "s390x"] None) wit_filter = Ok fprog /\
    eval (call AUDIT_ARCH_X86_64 257) fprog start = Some 2147418112 /\
    eval (call AUDIT_ARCH_X86_64 1) fprog start = Some 327681 /\
    eval (call AUDIT_ARCH_X86_64 435) fprog start = Some retErrnoEnosys.
Proof.
  destruct (patched_filter_correct false keys rkeys keys_iterate rkeys_iterate (wit_profile ["amd64"; "s390x"] None) wit_filter wit_program)
    as (fprog & Hf & He); [exact wit_archs_known|reflexivity|by repeat split|reflexivity|reflexivity|].
  exists fprog. split; [exact Hf|]. rewrite !He. repeat split; vm_compute; reflexivity.
Defined.

Lemma named_calls_reach_filter_witness :
  profile_unknown (wit_profile ["amd64"; "s390x"] None) AUDIT_ARCH_X86_64 257 = false.
Proof.
  apply (named_calls_reach_filter (wit_profile ["amd64"; "s390x"] None) (wit_rule "openat") ArchAMD64); try reflexivity.
  right. left. reflexivity.
Defined.

(** A kernel that remembers the filter. *)
#[local] Instance wit_kernel : SeccompKernel (list RawInstruction) := {
  prctl_no_new_privs w := (w, Ok tt);
  prctl_set_seccomp n l w := (take (Z.to_nat n) l, Ok tt);
  seccomp_set_mode_filter _ n l w := (take (Z.to_nat n) l, (7, None)) }.

Lemma wit_prctl n l (w w' : list RawInstruction) : prctl_set_seccomp n l w = (w', Ok tt) -> w' = take (Z.to_nat n) l.
Proof. intros H. by injection H as <-. Qed.
Lemma wit_seccomp f n l (w w' : list RawInstruction) fd :
  seccomp_set_mode_filter f n l w = (w', (fd, None)) -> w' = take (Z.to_nat n) l.
Proof. intros H. by injection H as <-. Qed.

Lemma PatchAndLoad_enforces_witness :
  exists w, PatchAndLoad false keys rkeys (wit_profile ["amd64"; "s390x"] None) wit_filter [] = (w, Ok (-1)) /\
    eval (call AUDIT_ARCH_X86_64 435) w start = Some retErrnoEnosys.
Proof.
  eexists. split; [vm_compute; reflexivity|]. match goal with |- eval _ ?w _ = _ => set (w' := w) end.
  destruct (PatchAndLoad_enforces false keys rkeys keys_iterate rkeys_iterate (SK := wit_kernel) (fun w => w) wit_prctl wit_seccomp
              (wit_profile ["amd64"; "s390x"] None) wit_filter wit_program (-1) [] w') as [He _];
    [exact wit_archs_known|reflexivity|by repeat split|reflexivity|reflexivity| |vm_compute; reflexivity|].
  - intros fprog H. vm_compute in H. injection H as <-. reflexivity.
  - rewrite He. vm_compute. reflexivity.
Defined.

(** ** Two cases the stub misses *)

(** A profile without architectures applies to the native one, which the filter of
    libseccomp always has; the stub has no section for it and an unknown call of the
    host's own architecture gets the default action. *)
Lemma native_arch_missed :
  exists fprog, enosysPatchFilter false keys keys (wit_profile [] None) wit_filter = Ok fprog /\
    eval (call AUDIT_ARCH_X86_64 435) fprog start = Some 327681.
Proof. eexists. split; [vm_compute; reflexivity|]. vm_compute. reflexivity. Qed.

(** The stub is meant to be left out when the default answer is ENOSYS already; the test
    compares the errno with the whole return value of the filter. *)
Lemma enosys_default_not_recognised :
  exists stub, generatePatch keys keys (wit_profile ["amd64"] (Some ENOSYS)) = Ok stub /\ stub <> [].
Proof. eexists. split; [vm_compute; reflexivity|done]. Qed.
