(* ===== verification/SpecTypes.v ===== *)
(** * Specifications and the configurations made from them

    The parts of an OCI runtime specification that the conversion reads (the types of
    [specs-go/config.go]), and the records of [libcontainer/configs] it fills.  An
    optional pointer is an [option], and a map is the list of its entries. *)

From Stdlib Require Import SpecFloat.
From S2P Require Import Prelude GoStrings Devices Configs Seccomp ContainerState.

Open Scope string_scope.
Open Scope list_scope.
#[local] Open Scope Z_scope.

(** ** The specification *)

Module specs.

Record Hook := mkHook { h_Path : string; h_Args : list string; h_Env : list string; h_Timeout : option Z }.
Record Hooks := mkHooks {
  Prestart : list Hook; CreateRuntime : list Hook; CreateContainer : list Hook;
  StartContainer : list Hook; Poststart : list Hook; Poststop : list Hook }.

Record Mount := mkMount { m_Destination : string; m_Type : string; m_Source : string; m_Options : list string }.
Record Root := mkRoot { r_Path : string; Readonly : bool }.

Record LinuxCapabilities := mkCapabilities {
  Bounding : list string; Effective : list string; Inheritable : list string; Permitted : list string; Ambient : list string }.
Record User := mkUser { UID : Z; Umask : option Z }.
Record Process := mkProcess {
  p_User : User; Capabilities : option LinuxCapabilities; NoNewPrivileges : bool; OOMScoreAdj : option Z; SelinuxLabel : string }.

Record LinuxNamespace := mkLinuxNamespace { n_Type : string; n_Path : string }.
Record LinuxIDMapping := mkIDMapping { id_ContainerID : Z; id_HostID : Z; id_Size : Z }.

Record LinuxDevice := mkLinuxDevice {
  d_Path : string; d_Type : string; d_Major : Z; d_Minor : Z; d_FileMode : option Z; d_UID : option Z; d_GID : option Z }.
Record LinuxDeviceCgroup := mkDeviceCgroup {
  dc_Allow : bool; dc_Type : string; dc_Major : option Z; dc_Minor : option Z; dc_Access : string }.

(** [Kernel], [KernelTCP] and [UseHierarchy] are not used. *)
Record LinuxMemory := mkMemory {
  mem_Limit : option Z; mem_Reservation : option Z; mem_Swap : option Z; mem_Swappiness : option Z;
  mem_DisableOOMKiller : option bool }.
Record LinuxCPU := mkCPU {
  cpu_Shares : option Z; cpu_Quota : option Z; cpu_Period : option Z; cpu_RealtimeRuntime : option Z;
  cpu_RealtimePeriod : option Z; cpu_Cpus : string; cpu_Mems : string }.
Record LinuxWeightDevice := mkLinuxWeight { w_Major : Z; w_Minor : Z; w_Weight : option Z; w_LeafWeight : option Z }.
Record LinuxThrottleDevice := mkLinuxThrottle { t_Major : Z; t_Minor : Z; t_Rate : Z }.
Record LinuxBlockIO := mkBlockIO {
  b_Weight : option Z; b_LeafWeight : option Z; b_WeightDevice : list LinuxWeightDevice;
  b_ThrottleReadBpsDevice : list LinuxThrottleDevice; b_ThrottleWriteBpsDevice : list LinuxThrottleDevice;
  b_ThrottleReadIOPSDevice : list LinuxThrottleDevice; b_ThrottleWriteIOPSDevice : list LinuxThrottleDevice }.
Record LinuxHugepageLimit := mkHugepage { hp_Pagesize : string; hp_Limit : Z }.
Record LinuxInterfacePriority := mkPriority { ip_Name : string; ip_Priority : Z }.
Record LinuxNetwork := mkNetwork { ClassID : option Z; Priorities : list LinuxInterfacePriority }.
Record LinuxRdma := mkRdma { HcaHandles : option Z; HcaObjects : option Z }.
Record LinuxResources := mkLinuxResources {
  r_Devices : list LinuxDeviceCgroup; r_Memory : option LinuxMemory; r_CPU : option LinuxCPU; r_Pids : option Z;
  r_BlockIO : option LinuxBlockIO; r_HugepageLimits : list LinuxHugepageLimit; r_Network : option LinuxNetwork;
  r_Rdma : list (string * LinuxRdma); r_Unified : list (string * string) }.

Record LinuxSeccompArg := mkSeccompArg { arg_Index : Z; arg_Value : Z; arg_ValueTwo : Z; arg_Op : string }.
Record LinuxSyscall := mkLinuxSyscall {
  call_Names : list string; call_Action : string; call_ErrnoRet : option Z; call_Args : list LinuxSeccompArg }.
Record LinuxSeccomp := mkLinuxSeccomp {
  s_DefaultAction : string; s_DefaultErrnoRet : option Z; s_Architectures : list string; s_Flags : list string;
  s_ListenerPath : string; s_ListenerMetadata : string; s_Syscalls : list LinuxSyscall }.
Record LinuxIntelRdt := mkLinuxIntelRdt { rdt_ClosID : string; rdt_L3CacheSchema : string; rdt_MemBwSchema : string }.

Record Linux := mkLinux {
  UIDMappings : list LinuxIDMapping; GIDMappings : list LinuxIDMapping; Sysctl : list (string * string);
  l_Resources : option LinuxResources; CgroupsPath : string; l_Namespaces : list LinuxNamespace;
  l_Devices : list LinuxDevice; l_Seccomp : option LinuxSeccomp; RootfsPropagation : string;
  MaskedPaths : list string; ReadonlyPaths : list string; l_MountLabel : string; l_IntelRdt : option LinuxIntelRdt }.

Record Spec := mkSpec {
  s_Process : option Process; s_Root : option Root; s_Hostname : string; s_Mounts : list Mount;
  s_Hooks : option Hooks; Annotations : gmap string string; s_Linux : option Linux }.

Definition Version : string := "1.0.2-dev".
End specs.

(** ** The configuration (configs) *)

Module configs.

Record MountAttr := mkMountAttr { Attr_set : Z; Attr_clr : Z }.
Record Command := mkCommand { Path : string; Args : list string; Env : list string; Dir : string; Timeout : option Z }.

Record Mount := mkMount {
  Source : string; Destination : string; Device : string; Flags : Z; PropagationFlags : list Z; Data : string;
  Relabel : string; RecAttr : option MountAttr; Extensions : Z; PremountCmds : list Command; PostmountCmds : list Command }.
Definition EXT_COPYUP : Z := 1.

Definition Hooks : Type := gmap string (list Command).

Record WeightDevice := mkWeight { wd_Major : Z; wd_Minor : Z; Weight : Z; LeafWeight : Z }.
Record ThrottleDevice := mkThrottle { td_Major : Z; td_Minor : Z; Rate : Z }.
Definition NewWeightDevice (major minor weight leafWeight : Z) : WeightDevice := mkWeight major minor weight leafWeight.
Definition NewThrottleDevice (major minor rate : Z) : ThrottleDevice := mkThrottle major minor rate.
Record HugepageLimit := mkHugepage { Pagesize : string; Limit : Z }.
Record IfPrioMap := mkIfPrio { Interface : string; Priority : Z }.
Record LinuxRdma := mkRdma { HcaHandles : option Z; HcaObjects : option Z }.

(** A nil map is [None]. *)
Record Resources := mkRes {
  Devices : list Rule; Memory : Z; MemoryReservation : Z; MemorySwap : Z; CpuShares : Z; CpuQuota : Z; CpuPeriod : Z;
  CpuRtRuntime : Z; CpuRtPeriod : Z; CpusetCpus : string; CpusetMems : string; PidsLimit : Z; BlkioWeight : Z;
  BlkioLeafWeight : Z; BlkioWeightDevice : list WeightDevice; BlkioThrottleReadBpsDevice : list ThrottleDevice;
  BlkioThrottleWriteBpsDevice : list ThrottleDevice; BlkioThrottleReadIOPSDevice : list ThrottleDevice;
  BlkioThrottleWriteIOPSDevice : list ThrottleDevice; HugetlbLimit : list HugepageLimit; OomKillDisable : bool;
  MemorySwappiness : option Z; NetPrioIfpriomap : list IfPrioMap; NetClsClassid : Z;
  Rdma : option (list (string * LinuxRdma)); CpuWeight : Z; Unified : option (list (string * string));
  Freezer : FreezerState; SkipDevices : bool; SkipFreezeOnSet : bool }.

(** The value of a D-Bus property: the integer types, a float, or anything else. *)
Inductive Variant :=
  | VByte (z : Z) | VInt16 (z : Z) | VUint16 (z : Z) | VInt32 (z : Z) | VUint32 (z : Z) | VInt64 (z : Z) | VUint64 (z : Z)
  | VDouble (f : spec_float)
  | VOther (text : string).

Record Cgroup := mkCg {
  Name : string; Parent : string; cg_Path : string; ScopePrefix : string; cg_Resources : Resources; Systemd : bool;
  SystemdProps : list (string * Variant); Rootless : bool; OwnerUID : option Z }.

Record Capabilities := mkCaps {
  Bounding : list string; Effective : list string; Inheritable : list string; Permitted : list string; Ambient : list string }.

(** The fields of [Config], grouped by the part of the conversion that sets them.
    [Devices_] holds pointers: indices into the heap of devices. *)
Record Base := mkBase {
  Rootfs : string; NoPivotRoot : bool; Readonlyfs : bool; Hostname : string; Labels : list string; NoNewKeyring : bool;
  RootlessEUID : bool; RootlessCgroups : bool; Mounts : list Mount; Devices_ : list nat }.
Record LinuxPart := mkLinuxPart {
  RootPropagation : Z; Namespaces : list Namespace; Networks : list string; UidMappings : option (list IDMap);
  GidMappings : option (list IDMap); MaskPaths : list string; ReadonlyPaths : list string; MountLabel : string;
  Sysctl : list (string * string); Seccomp_ : option Seccomp; IntelRdt_ : option IntelRdt }.
Record ProcessPart := mkProcessPart {
  OomScoreAdj : option Z; NoNewPrivileges : bool; Umask : option Z; ProcessLabel : string; Capabilities_ : option Capabilities }.
Record Config := mkConf {
  base : Base; Cgroups : Cgroup; linux : LinuxPart; process : ProcessPart; Hooks_ : Hooks; Version : string }.
End configs.

(** What the checks of a configuration read of it. *)
Definition view (b : configs.Base) (c : configs.Cgroup) (l : configs.LinuxPart) (p : configs.ProcessPart) (hooks : bool) : Config :=
  let r := configs.cg_Resources c in
  {| c_Rootfs := configs.Rootfs b;
     c_Mounts := map (fun m => mkConfMount (configs.Destination m) (configs.Data m)) (configs.Mounts b);
     c_Hostname := configs.Hostname b; c_Namespaces := configs.Namespaces l;
     c_Networks := length (configs.Networks l); c_Routes := 0;
     c_Cgroups := Some (mkCgroup (configs.Name c) (configs.Parent c) (configs.cg_Path c)
                          (Some (mkResources (configs.Unified r) (configs.MemorySwap r) (configs.Memory r) (configs.SkipDevices r))));
     c_ProcessLabel := configs.ProcessLabel p; c_UidMappings := configs.UidMappings l; c_GidMappings := configs.GidMappings l;
     c_MaskPaths := configs.MaskPaths l; c_ReadonlyPaths := configs.ReadonlyPaths l; c_Sysctl := map fst (configs.Sysctl l);
     c_IntelRdt := configs.IntelRdt_ l; c_RootlessEUID := configs.RootlessEUID b; c_RootlessCgroups := configs.RootlessCgroups b;
     c_Hooks := hooks |}.
Definition checked (c : configs.Config) : Config :=
  view (configs.base c) (configs.Cgroups c) (configs.linux c) (configs.process c) true.
