(* ===== verification/SpecConv.v ===== *)
(** * Conversion of specifications: [libcontainer/specconv/spec_linux.go]

    From an OCI runtime specification to the configuration of a container.  The
    devices every container gets are a package variable, whose elements the
    configurations share: they live in a heap that outlives a conversion. *)

From Stdlib Require Import SpecFloat.
From S2P Require Import Prelude GoStrings GoPath Configs Validator Devices ContainerState Seccomp SpecTypes.

Open Scope string_scope.
Open Scope list_scope.
#[local] Open Scope Z_scope.

(** ** Tables *)

Definition MS_RDONLY : Z := 0x1.
Definition MS_NOSUID : Z := 0x2.
Definition MS_NODEV : Z := 0x4.
Definition MS_NOEXEC : Z := 0x8.
Definition MS_SYNCHRONOUS : Z := 0x10.
Definition MS_REMOUNT : Z := 0x20.
Definition MS_MANDLOCK : Z := 0x40.
Definition MS_DIRSYNC : Z := 0x80.
Definition MS_NOSYMFOLLOW : Z := 0x100.
Definition MS_NOATIME : Z := 0x400.
Definition MS_NODIRATIME : Z := 0x800.
Definition MS_BIND : Z := 0x1000.
Definition MS_REC : Z := 0x4000.
Definition MS_SILENT : Z := 0x8000.
Definition MS_POSIXACL : Z := 0x10000.
Definition MS_UNBINDABLE : Z := 0x20000.
Definition MS_PRIVATE : Z := 0x40000.
Definition MS_SLAVE : Z := 0x80000.
Definition MS_SHARED : Z := 0x100000.
Definition MS_RELATIME : Z := 0x200000.
Definition MS_I_VERSION : Z := 0x800000.
Definition MS_STRICTATIME : Z := 0x1000000.
Definition MS_LAZYTIME : Z := 0x2000000.

Definition MOUNT_ATTR_RDONLY : Z := 0x1.
Definition MOUNT_ATTR_NOSUID : Z := 0x2.
Definition MOUNT_ATTR_NODEV : Z := 0x4.
Definition MOUNT_ATTR_NOEXEC : Z := 0x8.
Definition MOUNT_ATTR__ATIME : Z := 0x70.
Definition MOUNT_ATTR_RELATIME : Z := 0x0.
Definition MOUNT_ATTR_NOATIME : Z := 0x10.
Definition MOUNT_ATTR_STRICTATIME : Z := 0x20.
Definition MOUNT_ATTR_NODIRATIME : Z := 0x80.
Definition MOUNT_ATTR_NOSYMFOLLOW : Z := 0x200000.

Definition namespaceMapping : list (string * string) :=
  [("pid", NEWPID); ("network", NEWNET); ("mount", NEWNS); ("user", NEWUSER); ("ipc", NEWIPC); ("uts", NEWUTS);
   ("cgroup", NEWCGROUP)].

Definition mountPropagationMapping : list (string * Z) :=
  [("rprivate", Z.lor MS_PRIVATE MS_REC); ("private", MS_PRIVATE); ("rslave", Z.lor MS_SLAVE MS_REC); ("slave", MS_SLAVE);
   ("rshared", Z.lor MS_SHARED MS_REC); ("shared", MS_SHARED); ("runbindable", Z.lor MS_UNBINDABLE MS_REC);
   ("unbindable", MS_UNBINDABLE); ("", 0)].

(** Whether the option clears the flag, and the flag. *)
Definition mountFlags : list (string * (bool * Z)) :=
  [("acl", (false, MS_POSIXACL)); ("async", (true, MS_SYNCHRONOUS)); ("atime", (true, MS_NOATIME)); ("bind", (false, MS_BIND));
   ("defaults", (false, 0)); ("dev", (true, MS_NODEV)); ("diratime", (true, MS_NODIRATIME)); ("dirsync", (false, MS_DIRSYNC));
   ("exec", (true, MS_NOEXEC)); ("iversion", (false, MS_I_VERSION)); ("lazytime", (false, MS_LAZYTIME));
   ("loud", (true, MS_SILENT)); ("mand", (false, MS_MANDLOCK)); ("noacl", (true, MS_POSIXACL)); ("noatime", (false, MS_NOATIME));
   ("nodev", (false, MS_NODEV)); ("nodiratime", (false, MS_NODIRATIME)); ("noexec", (false, MS_NOEXEC));
   ("noiversion", (true, MS_I_VERSION)); ("nolazytime", (true, MS_LAZYTIME)); ("nomand", (true, MS_MANDLOCK));
   ("norelatime", (true, MS_RELATIME)); ("nostrictatime", (true, MS_STRICTATIME)); ("nosuid", (false, MS_NOSUID));
   ("nosymfollow", (false, MS_NOSYMFOLLOW)); ("rbind", (false, Z.lor MS_BIND MS_REC)); ("relatime", (false, MS_RELATIME));
   ("remount", (false, MS_REMOUNT)); ("ro", (false, MS_RDONLY)); ("rw", (true, MS_RDONLY)); ("silent", (false, MS_SILENT));
   ("strictatime", (false, MS_STRICTATIME)); ("suid", (true, MS_NOSUID)); ("sync", (false, MS_SYNCHRONOUS));
   ("symfollow", (true, MS_NOSYMFOLLOW))].

Definition recAttrFlags : list (string * (bool * Z)) :=
  [("rro", (false, MOUNT_ATTR_RDONLY)); ("rrw", (true, MOUNT_ATTR_RDONLY)); ("rnosuid", (false, MOUNT_ATTR_NOSUID));
   ("rsuid", (true, MOUNT_ATTR_NOSUID)); ("rnodev", (false, MOUNT_ATTR_NODEV)); ("rdev", (true, MOUNT_ATTR_NODEV));
   ("rnoexec", (false, MOUNT_ATTR_NOEXEC)); ("rexec", (true, MOUNT_ATTR_NOEXEC)); ("rnodiratime", (false, MOUNT_ATTR_NODIRATIME));
   ("rdiratime", (true, MOUNT_ATTR_NODIRATIME)); ("rrelatime", (false, MOUNT_ATTR_RELATIME));
   ("rnorelatime", (true, MOUNT_ATTR_RELATIME)); ("rnoatime", (false, MOUNT_ATTR_NOATIME)); ("ratime", (true, MOUNT_ATTR_NOATIME));
   ("rstrictatime", (false, MOUNT_ATTR_STRICTATIME)); ("rnostrictatime", (true, MOUNT_ATTR_STRICTATIME));
   ("rnosymfollow", (false, MOUNT_ATTR_NOSYMFOLLOW)); ("rsymfollow", (true, MOUNT_ATTR_NOSYMFOLLOW))].

Definition extensionFlags : list (string * (bool * Z)) := [("tmpcopyup", (false, configs.EXT_COPYUP))].

(** The names, whatever the order of the maps. *)
Definition KnownNamespaces : list string := merge_sort string_le (map fst namespaceMapping).
Definition KnownMountOptions : list string :=
  merge_sort string_le (map fst mountFlags ++ filter (fun k => k <> "") (map fst mountPropagationMapping)
                        ++ map fst recAttrFlags ++ map fst extensionFlags).

(** ** Mount options *)

Record OptState := mkOpt {
  o_Flags : Z; o_Propagation : list Z; o_recAttrSet : Z; o_recAttrClr : Z; o_Extensions : Z; o_data : list string }.

(** [m &= ^flag] or [m |= flag] *)
Definition apply_flag (f : bool * Z) (m : Z) : Z := if f.1 then Z.land m (Z.lnot f.2) else Z.lor m f.2.

(** Which table an option is in. *)
Inductive option_kind := OFlag (f : bool * Z) | OPropagation (f : Z) | ORecAttr (f : bool * Z) | OExtension (f : bool * Z) | OData.
Definition nonzero (f : option (bool * Z)) : option (bool * Z) :=
  match f with Some f => if f.2 =? 0 then None else Some f | None => None end.
Definition classify (o : string) : option_kind :=
  match nonzero (named mountFlags o) with
  | Some f => OFlag f
  | None =>
    match match named mountPropagationMapping o with Some f => if f =? 0 then None else Some f | None => None end with
    | Some f => OPropagation f
    | None =>
      match named recAttrFlags o with
      | Some f => ORecAttr f
      | None => match nonzero (named extensionFlags o) with Some f => OExtension f | None => OData end
      end
    end
  end.

Definition option_step (s : OptState) (o : string) : OptState :=
  match classify o with
  | OFlag f => mkOpt (apply_flag f (o_Flags s)) (o_Propagation s) (o_recAttrSet s) (o_recAttrClr s) (o_Extensions s) (o_data s)
  | OPropagation f => mkOpt (o_Flags s) (o_Propagation s ++ [f]) (o_recAttrSet s) (o_recAttrClr s) (o_Extensions s) (o_data s)
  | ORecAttr (clear, flag) =>
      if clear then
        mkOpt (o_Flags s) (o_Propagation s) (o_recAttrSet s) (Z.lor (o_recAttrClr s) flag) (o_Extensions s) (o_data s)
      else
        let clr := if Z.land flag MOUNT_ATTR__ATIME =? flag then Z.lor (o_recAttrClr s) MOUNT_ATTR__ATIME else o_recAttrClr s in
        mkOpt (o_Flags s) (o_Propagation s) (Z.lor (o_recAttrSet s) flag) clr (o_Extensions s) (o_data s)
  | OExtension f => mkOpt (o_Flags s) (o_Propagation s) (o_recAttrSet s) (o_recAttrClr s) (apply_flag f (o_Extensions s)) (o_data s)
  | OData => mkOpt (o_Flags s) (o_Propagation s) (o_recAttrSet s) (o_recAttrClr s) (o_Extensions s) (o_data s ++ [o])
  end.

Definition parseMountOptions (options : list string) : configs.Mount :=
  let s := fold_left option_step options (mkOpt 0 [] 0 0 0 []) in
  {| configs.Source := ""; configs.Destination := ""; configs.Device := "";
     configs.Flags := o_Flags s; configs.PropagationFlags := o_Propagation s;
     configs.Data := join "," (o_data s); configs.Relabel := "";
     configs.RecAttr := if negb (o_recAttrSet s =? 0) || negb (o_recAttrClr s =? 0)
                        then Some (configs.mkMountAttr (o_recAttrSet s) (o_recAttrClr s)) else None;
     configs.Extensions := o_Extensions s; configs.PremountCmds := []; configs.PostmountCmds := [] |}.

Definition ch_nul : ascii := chr 0.
Definition createLibcontainerMount (cwd : string) (m : specs.Mount) : result configs.Mount :=
  let mnt := parseMountOptions (specs.m_Options m) in
  let bind := negb (Z.land (configs.Flags mnt) MS_BIND =? 0) in
  let device := if bind then "bind" else specs.m_Type m in
  let source := if bind && negb (IsAbs (specs.m_Source m)) then Join [cwd; specs.m_Source m] else specs.m_Source m in
  if contains_char ch_nul source || contains_char ch_nul (specs.m_Destination m) || contains_char ch_nul device
  then Err (ErrNew "mount field contains null byte")
  else Ok (configs.mkMount source (specs.m_Destination m) device (configs.Flags mnt) (configs.PropagationFlags mnt)
             (configs.Data mnt) (configs.Relabel mnt) (configs.RecAttr mnt) (configs.Extensions mnt)
             (configs.PremountCmds mnt) (configs.PostmountCmds mnt)).

Fixpoint create_mounts (cwd : string) (ms : list specs.Mount) : result (list configs.Mount) :=
  match ms with
  | [] => Ok []
  | m :: ms =>
      cm ← wrap_err "invalid mount" (createLibcontainerMount cwd m);
      cms ← create_mounts cwd ms;
      Ok (cm :: cms)
  end.

(** ** Properties of systemd units *)

Definition is_upper (c : ascii) : bool := let n := Ascii.nat_of_ascii c in (65 <=? n)%nat && (n <=? 90)%nat.
Definition is_lower (c : ascii) : bool := let n := Ascii.nat_of_ascii c in (97 <=? n)%nat && (n <=? 122)%nat.

(** A byte that is not a letter starts a rune that is not one. *)
Definition checkPropertyName (s : string) : result unit :=
  if (String.length s <? 3)%nat then Err (ErrNew "too short")
  else if str_forall (fun ch => is_upper ch || is_lower ch) s then Ok tt
  else Err (ErrNew "contains non-alphabetic character").

(** The conversion of a float rounds towards zero; what it gives outside of the range of
    [uint64] depends on the machine. *)
Definition float_trunc (f : spec_float) : option Z :=
  match f with
  | S754_zero _ => Some 0
  | S754_finite s m e =>
      let a := Z.shiftl (Zpos m) e in
      let v := if s then - a else a in
      if (0 <=? v) && (v <? 2 ^ 64) then Some v else None
  | _ => None
  end.
Definition float_million : spec_float := S754_finite false 8589934592000000 (-33).

Section Systemd.
(** D-Bus, and the machine. *)
Context (ParseVariant : string -> result configs.Variant) (float_outside : spec_float -> Z).

Definition convertSecToUSec (value : configs.Variant) : result configs.Variant :=
  let usec sec := Ok (configs.VUint64 (uint64 (uint64 sec * 1000000))) in
  match value with
  | configs.VByte z | configs.VInt16 z | configs.VUint16 z | configs.VInt32 z | configs.VUint32 z
  | configs.VInt64 z | configs.VUint64 z => usec z
  | configs.VDouble f =>
      let p := SFmul 53 1024 f float_million in
      Ok (configs.VUint64 (match float_trunc p with Some z => z | None => float_outside p end))
  | configs.VOther _ => Err (ErrNew "not a number")
  end.

Definition keyPrefix : string := "org.systemd.property.".
Definition ErrPropertyPanic : error := ErrNew "panic: index out of range [-1]".

(** One annotation: [None] when it is not a property. *)
Definition systemd_prop (k v : string) : result (option (string * configs.Variant)) :=
  let name := trim_prefix k keyPrefix in
  if (String.length name =? String.length k)%nat then Ok None else
  _ ← wrap_err "annotation %s name incorrect" (checkPropertyName name);
  value ← wrap_err "annotation %s=%s value parse error" (ParseVariant v);
  let trimName := trim_suffix name "Sec" in
  if (String.length trimName <? String.length name)%nat then
    match last_char trimName with
    | None => Err ErrPropertyPanic
    | Some ch =>
        if is_lower ch then
          value ← wrap_err "annotation %s=%s value parse error" (convertSecToUSec value);
          Ok (Some (trimName +:+ "USec", value))
        else Ok (Some (name, value))
    end
  else Ok (Some (name, value)).

Fixpoint initSystemdProps (annotations : list (string * string)) : result (list (string * configs.Variant)) :=
  match annotations with
  | [] => Ok []
  | (k, v) :: l =>
      p ← systemd_prop k v;
      sp ← initSystemdProps l;
      Ok (match p with Some p => p :: sp | None => sp end)
  end.
End Systemd.

(** ** Cgroups *)

(** [cgroups.ConvertCPUSharesToCgroupV2Value], in 64 bits. *)
Definition ConvertCPUSharesToCgroupV2Value (cpuShares : Z) : Z :=
  if cpuShares =? 0 then 0 else uint64 (1 + uint64 (uint64 (cpuShares - 2) * 9999) / 262142).

Definition stringToCgroupDeviceRune (s : string) : result Z :=
  if bool_decide (s = "a") then Ok WildcardDevice
  else if bool_decide (s = "b") then Ok BlockDevice
  else if bool_decide (s = "c") then Ok CharDevice
  else Err (ErrNew "invalid cgroup device type %q").

Definition stringToDeviceRune (s : string) : result Z :=
  if bool_decide (s = "p") then Ok FifoDevice
  else if bool_decide (s = "u") || bool_decide (s = "c") then Ok CharDevice
  else if bool_decide (s = "b") then Ok BlockDevice
  else Err (ErrNew "invalid device type %q").

Definition cgroup_rule (d : specs.LinuxDeviceCgroup) : result Rule :=
  let t := if bool_decide (specs.dc_Type d = "") then "a" else specs.dc_Type d in
  let major := default (-1) (specs.dc_Major d) in
  let minor := default (-1) (specs.dc_Minor d) in
  if bool_decide (specs.dc_Access d = "") then Err (ErrNew "device access at %d field cannot be empty") else
  dt ← stringToCgroupDeviceRune t;
  Ok (mkRule dt major minor (specs.dc_Access d) (specs.dc_Allow d)).
Fixpoint cgroup_rules (ds : list specs.LinuxDeviceCgroup) : result (list Rule) :=
  match ds with
  | [] => Ok []
  | d :: ds => r ← cgroup_rule d; rs ← cgroup_rules ds; Ok (r :: rs)
  end.

Definition emptyResources : configs.Resources :=
  configs.mkRes [] 0 0 0 0 0 0 0 0 "" "" 0 0 0 [] [] [] [] [] [] false None [] 0 None 0 None Undefined false false.

Definition throttle (td : specs.LinuxThrottleDevice) : configs.ThrottleDevice :=
  configs.NewThrottleDevice (specs.t_Major td) (specs.t_Minor td) (specs.t_Rate td).
Definition weight_device (wd : specs.LinuxWeightDevice) : configs.WeightDevice :=
  configs.NewWeightDevice (specs.w_Major wd) (specs.w_Minor wd) (default 0 (specs.w_Weight wd)) (default 0 (specs.w_LeafWeight wd)).
(** The copy of a map that is not empty. *)
Definition copy_map {A B} (f : A -> B) (m : list (string * A)) : option (list (string * B)) :=
  if bool_decide (length m = 0%nat) then None else Some (map (fun e => (e.1, f e.2)) m).

(** A field behind two pointers. *)
Definition opt_field {A B} (x : option A) (f : A -> option B) : option B := match x with Some a => f a | None => None end.

(** What the resources of the specification set; [devs] are its device rules. *)
Definition spec_resources (r : specs.LinuxResources) (devs : list Rule) : configs.Resources :=
  let mem {A} := @opt_field _ A (specs.r_Memory r) in
  let cpu := opt_field (specs.r_CPU r) in
  let shares := cpu specs.cpu_Shares in
  let blk {A} (f : specs.LinuxBlockIO -> list A) := match specs.r_BlockIO r with Some b => f b | None => [] end in
  {| configs.Devices := devs;
     configs.Memory := default 0 (mem specs.mem_Limit);
     configs.MemoryReservation := default 0 (mem specs.mem_Reservation);
     configs.MemorySwap := default 0 (mem specs.mem_Swap);
     configs.CpuShares := default 0 shares;
     configs.CpuQuota := default 0 (cpu specs.cpu_Quota);
     configs.CpuPeriod := default 0 (cpu specs.cpu_Period);
     configs.CpuRtRuntime := default 0 (cpu specs.cpu_RealtimeRuntime);
     configs.CpuRtPeriod := default 0 (cpu specs.cpu_RealtimePeriod);
     configs.CpusetCpus := match specs.r_CPU r with Some c => specs.cpu_Cpus c | None => "" end;
     configs.CpusetMems := match specs.r_CPU r with Some c => specs.cpu_Mems c | None => "" end;
     configs.PidsLimit := default 0 (specs.r_Pids r);
     configs.BlkioWeight := default 0 (opt_field (specs.r_BlockIO r) specs.b_Weight);
     configs.BlkioLeafWeight := default 0 (opt_field (specs.r_BlockIO r) specs.b_LeafWeight);
     configs.BlkioWeightDevice := map weight_device (blk specs.b_WeightDevice);
     configs.BlkioThrottleReadBpsDevice := map throttle (blk specs.b_ThrottleReadBpsDevice);
     configs.BlkioThrottleWriteBpsDevice := map throttle (blk specs.b_ThrottleWriteBpsDevice);
     configs.BlkioThrottleReadIOPSDevice := map throttle (blk specs.b_ThrottleReadIOPSDevice);
     configs.BlkioThrottleWriteIOPSDevice := map throttle (blk specs.b_ThrottleWriteIOPSDevice);
     configs.HugetlbLimit := map (fun l => configs.mkHugepage (specs.hp_Pagesize l) (specs.hp_Limit l)) (specs.r_HugepageLimits r);
     configs.OomKillDisable := default false (mem specs.mem_DisableOOMKiller);
     configs.MemorySwappiness := mem specs.mem_Swappiness;
     configs.NetPrioIfpriomap :=
       match specs.r_Network r with
       | Some n => map (fun m => configs.mkIfPrio (specs.ip_Name m) (specs.ip_Priority m)) (specs.Priorities n)
       | None => []
       end;
     configs.NetClsClassid := default 0 (opt_field (specs.r_Network r) specs.ClassID);
     configs.Rdma := copy_map (fun v => configs.mkRdma (specs.HcaHandles v) (specs.HcaObjects v)) (specs.r_Rdma r);
     configs.CpuWeight := match shares with Some s => ConvertCPUSharesToCgroupV2Value s | None => 0 end;
     configs.Unified := copy_map id (specs.r_Unified r);
     configs.Freezer := Undefined; configs.SkipDevices := false; configs.SkipFreezeOnSet := false |}.

Definition with_rules (r : configs.Resources) (more : list Rule) : configs.Resources :=
  match r with
  | configs.mkRes d a b c e f g h i j k l m n o p q s t u v w x y z aa bb cc dd ee =>
      configs.mkRes (d ++ more) a b c e f g h i j k l m n o p q s t u v w x y z aa bb cc dd ee
  end.

Definition resources (spec : specs.Spec) : result configs.Resources :=
  match opt_field (specs.s_Linux spec) specs.l_Resources with
  | None => Ok emptyResources
  | Some r => devs ← cgroup_rules (specs.r_Devices r); Ok (spec_resources r devs)
  end.

(** The options of a conversion. *)
Record CreateOpts := mkOpts {
  CgroupName : string; UseSystemdCgroup : bool; opt_NoPivotRoot : bool; opt_NoNewKeyring : bool; opt_Spec : specs.Spec;
  opt_RootlessEUID : bool; opt_RootlessCgroups : bool }.

(** Parent, prefix, name and path of the cgroup. *)
Definition cgroup_names (opts : CreateOpts) : result (string * string * string * string) :=
  let path := match specs.s_Linux (opt_Spec opts) with Some l => specs.CgroupsPath l | None => "" end in
  if UseSystemdCgroup opts then
    if bool_decide (path = "") then Ok ("", "runc", CgroupName opts, "")
    else match split ch_colon path with
         | [slice; prefix; name] => Ok (slice, prefix, name, "")
         | _ => Err (ErrNew "expected cgroupsPath to be of format slice:prefix:name for systemd cgroups, got %q instead")
         end
  else
    let path := if bool_decide (path = "") then "" else CleanPath path in
    Ok ("", "", if bool_decide (path = "") then CgroupName opts else "", path).

(** ** Devices *)

Definition nodev : Device := mkDevice (mkRule 0 0 0 "" false) "" 0 0 0.
Definition rule_only (t major minor : Z) (perms : string) : Device := mkDevice (mkRule t major minor perms true) "" 0 0 0.
Definition char_node (path : string) (major minor : Z) : Device :=
  mkDevice (mkRule CharDevice major minor "rwm" true) path 438 0 0.

(** The package variable as it is initialised, with the devices at the first addresses
    of the heap. *)
Definition AllowedDevices : list Device :=
  [rule_only CharDevice Wildcard Wildcard "m"; rule_only BlockDevice Wildcard Wildcard "m";
   char_node "/dev/null" 1 3; char_node "/dev/random" 1 8; char_node "/dev/full" 1 7; char_node "/dev/tty" 5 0;
   char_node "/dev/zero" 1 5; char_node "/dev/urandom" 1 9;
   rule_only CharDevice 136 Wildcard "rwm"; rule_only CharDevice 5 2 "rwm"; rule_only CharDevice 10 200 "rwm"].
Definition allowed_pointers : list nat := seq 0 (length AllowedDevices).
Definition deref (heap : list Device) (p : nat) : Device := default nodev (heap !! p).

Definition spec_devices (spec : specs.Spec) : list specs.LinuxDevice :=
  match specs.s_Linux spec with Some l => specs.l_Devices l | None => [] end.

(** A default device stays unless the specification has one with its path. *)
Definition shadowed (spec : specs.Spec) (ad : Device) : bool :=
  negb (bool_decide (Path ad = "")) && existsb (fun sd => bool_decide (specs.d_Path sd = Path ad)) (spec_devices spec).

Definition new_device (d : specs.LinuxDevice) : result Device :=
  dt ← stringToDeviceRune (specs.d_Type d);
  Ok (mkDevice (mkRule dt (specs.d_Major d) (specs.d_Minor d) "" false) (specs.d_Path d)
        (match specs.d_FileMode d with Some mode => and_not mode S_IFMT | None => 438 end)
        (default 0 (specs.d_UID d)) (default 0 (specs.d_GID d))).

(** Every device is allocated and its address joins [config.Devices]. *)
Fixpoint merge_devices (heap : list Device) (config : list nat) (ds : list specs.LinuxDevice) : result (list Device * list nat) :=
  match ds with
  | [] => Ok (heap, config)
  | d :: ds => device ← new_device d; merge_devices (heap ++ [device]) (config ++ [length heap]) ds
  end.

(** The heap, [config.Devices], and the default devices that are left. *)
Definition createDevices (heap : list Device) (spec : specs.Spec) : result (list Device * list nat * list nat) :=
  let deduped := filter (fun p => shadowed spec (deref heap p) = false) allowed_pointers in
  let config := filter (fun p => Path (deref heap p) <> "") deduped in
  '(heap, config) ← merge_devices heap config (spec_devices spec);
  Ok (heap, config, deduped).

(** ** User namespaces *)

Definition create_map (m : specs.LinuxIDMapping) : IDMap :=
  mkIDMap (specs.id_ContainerID m) (specs.id_HostID m) (specs.id_Size m).
(** Appending nothing to a nil slice leaves it nil. *)
Definition append_maps (old : option (list IDMap)) (ms : list specs.LinuxIDMapping) : option (list IDMap) :=
  fold_left (fun acc m => Some (default [] acc ++ [create_map m])) ms old.

Definition set_maps (l : configs.LinuxPart) (uid gid : option (list IDMap)) : configs.LinuxPart :=
  configs.mkLinuxPart (configs.RootPropagation l) (configs.Namespaces l) (configs.Networks l) uid gid (configs.MaskPaths l)
    (configs.ReadonlyPaths l) (configs.MountLabel l) (configs.Sysctl l) (configs.Seccomp_ l) (configs.IntelRdt_ l).

Definition set_owner (uid gid : Z) (d : Device) : Device := mkDevice (dev_rule d) (Path d) (FileMode d) uid gid.
Fixpoint chown_all (heap : list Device) (ps : list nat) (uid gid : Z) : list Device :=
  match ps with
  | [] => heap
  | p :: ps => chown_all (alter (set_owner uid gid) p heap) ps uid gid
  end.

(** The [Config] the mappings are looked up in is the one made so far. *)
Definition setupUserNamespace (heap : list Device) (l : specs.Linux) (b : configs.Base) (c : configs.Cgroup)
    (lin : configs.LinuxPart) (p : configs.ProcessPart) : result (list Device * configs.LinuxPart) :=
  let lin := set_maps lin (append_maps (configs.UidMappings lin) (specs.UIDMappings l))
                          (append_maps (configs.GidMappings lin) (specs.GIDMappings l)) in
  let config := view b c lin p false in
  rootUID ← HostRootUID config;
  rootGID ← HostRootGID config;
  Ok (chown_all heap (configs.Devices_ b) (uint32 rootUID) (uint32 rootGID), lin).

(** ** Seccomp *)

Definition convert_arg (arg : specs.LinuxSeccompArg) : result Arg :=
  newOp ← ConvertStringToOperator (specs.arg_Op arg);
  Ok (mkArg (specs.arg_Index arg) (specs.arg_Value arg) (specs.arg_ValueTwo arg) newOp).
Fixpoint try_map {A B} (f : A -> result B) (l : list A) : result (list B) :=
  match l with
  | [] => Ok []
  | a :: l => b ← f a; bs ← try_map f l; Ok (b :: bs)
  end.
(** One block names several calls. *)
Definition convert_block (call : specs.LinuxSyscall) : result (list Syscall) :=
  newAction ← ConvertStringToAction (specs.call_Action call);
  try_map (fun name =>
    args ← try_map convert_arg (specs.call_Args call);
    Ok (mkSyscall name newAction (specs.call_ErrnoRet call) args)) (specs.call_Names call).

Definition SetupSeccomp (config : specs.LinuxSeccomp) : result (option Seccomp) :=
  if bool_decide (specs.s_DefaultAction config = "") && bool_decide (specs.s_Syscalls config = []) then Ok None
  else if bool_decide (specs.s_Flags config = []) then
    archs ← try_map ConvertStringToArch (specs.s_Architectures config);
    newDefaultAction ← ConvertStringToAction (specs.s_DefaultAction config);
    calls ← try_map convert_block (specs.s_Syscalls config);
    Ok (Some (mkSeccomp newDefaultAction archs (concat calls) (specs.s_DefaultErrnoRet config)
                (specs.s_ListenerPath config) (specs.s_ListenerMetadata config)))
  else Err (ErrNew "seccomp flags are not yet supported by runc").

(** ** Hooks *)

(** A duration is in nanoseconds, in 64 bits. *)
Definition createCommandHook (h : specs.Hook) : configs.Command :=
  configs.mkCommand (specs.h_Path h) (specs.h_Args h) (specs.h_Env h) "" ((fun t => int64 (t * 1000000000)) <$> specs.h_Timeout h).
Definition add_hooks (name : string) (l : list specs.Hook) (hooks : configs.Hooks) : configs.Hooks :=
  fold_left (fun hooks h => <[name := default [] (hooks !! name) ++ [createCommandHook h]]> hooks) l hooks.
Definition createHooks (rspec : specs.Spec) : configs.Hooks :=
  match specs.s_Hooks rspec with
  | None => ∅
  | Some h =>
      add_hooks "poststop" (specs.Poststop h)
        (add_hooks "poststart" (specs.Poststart h)
           (add_hooks "startContainer" (specs.StartContainer h)
              (add_hooks "createContainer" (specs.CreateContainer h)
                 (add_hooks "createRuntime" (specs.CreateRuntime h)
                    (add_hooks "prestart" (specs.Prestart h) ∅)))))
  end.

(** ** The conversion *)

Section Conversion.
Context (ParseVariant : string -> result configs.Variant) (float_outside : spec_float -> Z).
(** The two iterations over the annotations, and [os.Getwd]. *)
Context (iter_labels iter_props : gmap string string -> list (string * string)) (getwd : result string).

Definition CreateCgroupConfig (heap : list Device) (opts : CreateOpts) (defaultDevs : list nat) : result configs.Cgroup :=
  let spec := opt_Spec opts in
  sp ← (if UseSystemdCgroup opts then initSystemdProps ParseVariant float_outside (iter_props (specs.Annotations spec)) else Ok []);
  '(parent, prefix, name, path) ← cgroup_names opts;
  r ← resources spec;
  Ok {| configs.Name := name; configs.Parent := parent; configs.cg_Path := path; configs.ScopePrefix := prefix;
        configs.cg_Resources := with_rules r (map (fun p => dev_rule (deref heap p)) defaultDevs);
        configs.Systemd := UseSystemdCgroup opts; configs.SystemdProps := sp; configs.Rootless := opt_RootlessCgroups opts;
        configs.OwnerUID := None |}.

Fixpoint add_namespaces (acc : list Namespace) (nss : list specs.LinuxNamespace) : result (list Namespace) :=
  match nss with
  | [] => Ok acc
  | ns :: nss =>
      match named namespaceMapping (specs.n_Type ns) with
      | None => Err (ErrNew "namespace %q does not exist")
      | Some t =>
          if Contains acc t then Err (ErrNew "malformed spec file: duplicated ns %q")
          else add_namespaces (AddNs acc t (specs.n_Path ns)) nss
      end
  end.

Definition no_linux : configs.LinuxPart := configs.mkLinuxPart 0 [] [] None None [] [] "" [] None None.
Definition no_process : configs.ProcessPart := configs.mkProcessPart None false None "" None.

(** The namespace is new, not one to join. *)
Definition own_namespace (n : list Namespace) (t : string) : bool := Contains n t && bool_decide (PathOf n t = "").

(** Everything before the user namespace. *)
Definition linux_namespaces (l : specs.Linux) (b : configs.Base) : result configs.LinuxPart :=
  match named mountPropagationMapping (specs.RootfsPropagation l) with
  | None => Err (ErrNew "rootfsPropagation=%v is not supported")
  | Some propagation =>
      if configs.NoPivotRoot b && negb (Z.land propagation MS_PRIVATE =? 0)
      then Err (ErrNew "rootfsPropagation of [r]private is not safe without pivot_root") else
      nss ← add_namespaces [] (specs.l_Namespaces l);
      Ok (configs.mkLinuxPart propagation nss (if own_namespace nss NEWNET then ["loopback"] else []) None None [] [] "" [] None None)
  end.

(** The rest of the linux section. *)
Definition linux_rest (l : specs.Linux) (lin : configs.LinuxPart) : result configs.LinuxPart :=
  seccomp ← match specs.l_Seccomp l with None => Ok None | Some s => SetupSeccomp s end;
  Ok (configs.mkLinuxPart (configs.RootPropagation lin) (configs.Namespaces lin) (configs.Networks lin) (configs.UidMappings lin)
        (configs.GidMappings lin) (specs.MaskedPaths l) (specs.ReadonlyPaths l) (specs.l_MountLabel l) (specs.Sysctl l) seccomp
        ((fun r => mkIntelRdt (specs.rdt_ClosID r) (specs.rdt_L3CacheSchema r) (specs.rdt_MemBwSchema r)) <$> specs.l_IntelRdt l)).

(** The devices may have changed when it fails. *)
Definition linux_part (heap : list Device) (l : specs.Linux) (b : configs.Base) (c : configs.Cgroup)
    : list Device * result configs.LinuxPart :=
  match linux_namespaces l b with
  | Err e => (heap, Err e)
  | Ok lin =>
      match (if Contains (configs.Namespaces lin) NEWUSER then setupUserNamespace heap l b c lin no_process else Ok (heap, lin)) with
      | Err e => (heap, Err e)
      | Ok (heap, lin) => (heap, linux_rest l lin)
      end
  end.

Definition process_part (spec : specs.Spec) : configs.ProcessPart :=
  match specs.s_Process spec with
  | None => no_process
  | Some p =>
      configs.mkProcessPart (specs.OOMScoreAdj p) (specs.NoNewPrivileges p) (specs.Umask (specs.p_User p)) (specs.SelinuxLabel p)
        ((fun c => configs.mkCaps (specs.Bounding c) (specs.Effective c) (specs.Inheritable c) (specs.Permitted c) (specs.Ambient c))
           <$> specs.Capabilities p)
  end.

Definition rw_cgroupfs (m : configs.Mount) : bool :=
  bool_decide (configs.Source m = "cgroup") && bool_decide (Clean (configs.Destination m) = "/sys/fs/cgroup")
  && (Z.land (configs.Flags m) MS_RDONLY =? 0).

(** The owner of the cgroup; both errors of [HostUID] are ignored. *)
Definition owner_uid (spec : specs.Spec) (b : configs.Base) (c : configs.Cgroup) (lin : configs.LinuxPart) : option Z :=
  let processUid := match specs.s_Process spec with Some p => specs.UID (specs.p_User p) | None => 0 end in
  if own_namespace (configs.Namespaces lin) NEWCGROUP && existsb rw_cgroupfs (configs.Mounts b) then
    match HostUID (view b c lin no_process false) processUid with Ok uid => Some uid | Err _ => None end
  else None.
Definition set_OwnerUID (c : configs.Cgroup) (owner : option Z) : configs.Cgroup :=
  configs.mkCg (configs.Name c) (configs.Parent c) (configs.cg_Path c) (configs.ScopePrefix c) (configs.cg_Resources c)
    (configs.Systemd c) (configs.SystemdProps c) (configs.Rootless c) owner.

Definition base_config (opts : CreateOpts) (cwd : string) (root : specs.Root) (mounts : list configs.Mount) (devs : list nat)
    : configs.Base :=
  let spec := opt_Spec opts in
  let rootfsPath := if IsAbs (specs.r_Path root) then specs.r_Path root else Join [cwd; specs.r_Path root] in
  {| configs.Rootfs := rootfsPath; configs.NoPivotRoot := opt_NoPivotRoot opts; configs.Readonlyfs := specs.Readonly root;
     configs.Hostname := specs.s_Hostname spec;
     configs.Labels := map (fun kv => kv.1 +:+ "=" +:+ kv.2) (iter_labels (specs.Annotations spec)) ++ ["bundle=" +:+ cwd];
     configs.NoNewKeyring := opt_NoNewKeyring opts; configs.RootlessEUID := opt_RootlessEUID opts;
     configs.RootlessCgroups := opt_RootlessCgroups opts; configs.Mounts := mounts; configs.Devices_ := devs |}.

(** The directory, the mounts, the devices and the cgroup. *)
Definition prepare (heap : list Device) (opts : CreateOpts) : result (list Device * configs.Base * configs.Cgroup) :=
  let spec := opt_Spec opts in
  rcwd ← getwd;
  cwd ← Abs getwd rcwd;
  match specs.s_Root spec with
  | None => Err (ErrNew "root must be specified")
  | Some root =>
      mounts ← create_mounts cwd (specs.s_Mounts spec);
      '(heap, devs, defaultDevs) ← createDevices heap spec;
      c ← CreateCgroupConfig heap opts defaultDevs;
      Ok (heap, base_config opts cwd root mounts devs, c)
  end.

Definition CreateLibcontainerConfig (heap : list Device) (opts : CreateOpts) : list Device * result configs.Config :=
  let spec := opt_Spec opts in
  match prepare heap opts with
  | Err e => (heap, Err e)
  | Ok (heap, b, c) =>
      let '(heap, lin) := match specs.s_Linux spec with Some l => linux_part heap l b c | None => (heap, Ok no_linux) end in
      (heap,
       lin ← lin;
       Ok {| configs.base := b; configs.Cgroups := set_OwnerUID c (owner_uid spec b c lin); configs.linux := lin;
             configs.process := process_part spec; configs.Hooks_ := createHooks spec; configs.Version := specs.Version |})
  end.
End Conversion.
