(* ===== verification/SpecConvThms.v ===== *)
(** * Conversion of specifications: theorems

    Mount options, namespaces, devices, seccomp profiles and cgroups come out as the
    specification says, and what the conversion makes passes the checks it can. *)

From Stdlib Require Import SpecFloat.
From S2P Require Import Prelude GoStrings GoPath Configs Validator Devices DeviceEmulator DeviceEmulatorThms Seccomp SpecTypes SpecConv.

Open Scope string_scope.
Open Scope list_scope.
#[local] Open Scope Z_scope.

(** ** Mount options *)

(** What an option says about one bit of the flags, of the extensions and of the
    recursive attributes. *)
Definition flag_says (k : Z) (f : bool * Z) : option bool := if Z.testbit f.2 k then Some (negb f.1) else None.
Definition flag_setting (k : Z) (o : string) : option bool :=
  match classify o with OFlag f => flag_says k f | _ => None end.
Definition ext_setting (k : Z) (o : string) : option bool :=
  match classify o with OExtension f => flag_says k f | _ => None end.
Definition propagation_of (o : string) : option Z := match classify o with OPropagation f => Some f | _ => None end.
Definition is_data (o : string) : bool := match classify o with OData => true | _ => false end.
Definition sets_attr (k : Z) (o : string) : bool :=
  match classify o with ORecAttr (false, f) => Z.testbit f k | _ => false end.
Definition clears_attr (k : Z) (o : string) : bool :=
  match classify o with
  | ORecAttr (true, f) => Z.testbit f k
  | ORecAttr (false, f) => (Z.land f MOUNT_ATTR__ATIME =? f) && Z.testbit MOUNT_ATTR__ATIME k
  | _ => false
  end.

(** The last option that says something wins. *)
Definition last_says (says : string -> option bool) (start : bool) (options : list string) : bool :=
  default start (last (omap says options)).

Lemma last_says_cons (says : string -> option bool) (b : bool) (o : string) (l : list string) :
  last_says says b (o :: l) = last_says says (default b (says o)) l.
Proof.
  unfold last_says. cbn. destruct (says o) as [b'|]; cbn; [|done]. rewrite last_cons. by destruct (last _).
Qed.

Lemma apply_flag_bit (f : bool * Z) (m k : Z) :
  0 <= k -> Z.testbit (apply_flag f m) k = default (Z.testbit m k) (flag_says k f).
Proof.
  intros Hk. unfold apply_flag, flag_says. destruct f as [[] z]; cbn [fst snd negb];
    rewrite ?Z.land_spec, ?Z.lor_spec, ?Z.lnot_spec by done; destruct (Z.testbit z k); cbn; by destruct (Z.testbit m k).
Qed.

Section Options.
Context (k : Z) (Hk : 0 <= k).
Implicit Types (s : OptState) (l : list string).

Lemma options_flags s l :
  Z.testbit (o_Flags (fold_left option_step l s)) k = last_says (flag_setting k) (Z.testbit (o_Flags s) k) l.
Proof.
  revert s. induction l as [|o l IH]; intros s; [done|]. cbn [fold_left]. rewrite IH, last_says_cons. f_equal.
  unfold option_step, flag_setting. destruct (classify o) as [f|f|[[] f]|f|]; cbn; [by apply apply_flag_bit|done..].
Qed.
Lemma options_extensions s l :
  Z.testbit (o_Extensions (fold_left option_step l s)) k = last_says (ext_setting k) (Z.testbit (o_Extensions s) k) l.
Proof.
  revert s. induction l as [|o l IH]; intros s; [done|]. cbn [fold_left]. rewrite IH, last_says_cons. f_equal.
  unfold option_step, ext_setting. destruct (classify o) as [f|f|[[] f]|f|]; cbn; [done..|by apply apply_flag_bit|done].
Qed.
Lemma options_attr_set s l :
  Z.testbit (o_recAttrSet (fold_left option_step l s)) k = Z.testbit (o_recAttrSet s) k || existsb (sets_attr k) l.
Proof.
  revert s. induction l as [|o l IH]; intros s; cbn [fold_left existsb]; [by rewrite orb_false_r|]. rewrite IH, orb_assoc. f_equal.
  unfold option_step, sets_attr. destruct (classify o) as [f|f|[[] f]|f|]; cbn; rewrite ?orb_false_r; [done..| |done|done].
  apply Z.lor_spec.
Qed.
Lemma options_attr_clr s l :
  Z.testbit (o_recAttrClr (fold_left option_step l s)) k = Z.testbit (o_recAttrClr s) k || existsb (clears_attr k) l.
Proof.
  revert s. induction l as [|o l IH]; intros s; cbn [fold_left existsb]; [by rewrite orb_false_r|]. rewrite IH, orb_assoc. f_equal.
  unfold option_step, clears_attr. destruct (classify o) as [f|f|[[] f]|f|]; cbn -[Z.land Z.testbit]; rewrite ?orb_false_r; [done..| | |done|done].
  - apply Z.lor_spec.
  - destruct (_ =? f); cbn [andb]; [apply Z.lor_spec|by rewrite orb_false_r].
Qed.
End Options.

Lemma options_lists (s : OptState) (l : list string) :
  o_Propagation (fold_left option_step l s) = o_Propagation s ++ omap propagation_of l /\
  o_data (fold_left option_step l s) = o_data s ++ filter (fun o => is_data o = true) l.
Proof.
  revert s. induction l as [|o l IH]; intros s; cbn [fold_left]; [by rewrite !app_nil_r|]. destruct (IH (option_step s o)) as [-> ->].
  assert (is_data o = match classify o with OData => true | _ => false end) as Ei by done.
  assert (propagation_of o = match classify o with OPropagation f => Some f | _ => None end) as Ep by done.
  rewrite filter_cons. cbn [omap list_omap]. rewrite Ep. unfold option_step.
  destruct (classify o) as [f|f|[[] f]|f|]; case_decide; try congruence; cbn; by rewrite <- ?app_assoc.
Qed.

(** The mount a list of options stands for: of the options about a flag the last one
    decides it; propagation flags and the options of the file system keep their order;
    and a recursive attribute is set, or cleared, when some option asks for it. *)
Theorem parseMountOptions_spec (options : list string) :
  let m := parseMountOptions options in
  (forall k, 0 <= k -> Z.testbit (configs.Flags m) k = last_says (flag_setting k) false options) /\
  (forall k, 0 <= k -> Z.testbit (configs.Extensions m) k = last_says (ext_setting k) false options) /\
  configs.PropagationFlags m = omap propagation_of options /\
  configs.Data m = join "," (filter (fun o => is_data o = true) options) /\
  (forall k, 0 <= k ->
     Z.testbit (match configs.RecAttr m with Some a => configs.Attr_set a | None => 0 end) k = existsb (sets_attr k) options /\
     Z.testbit (match configs.RecAttr m with Some a => configs.Attr_clr a | None => 0 end) k = existsb (clears_attr k) options).
Proof.
  cbn. set (s0 := mkOpt 0 [] 0 0 0 []). destruct (options_lists s0 options) as [Hp Hd].
  split; [|split; [|split; [exact Hp|split; [by rewrite Hd|]]]].
  - intros k Hk. rewrite options_flags by done. cbn. by rewrite Z.testbit_0_l.
  - intros k Hk. rewrite options_extensions by done. cbn. by rewrite Z.testbit_0_l.
  - intros k Hk. pose proof (options_attr_set k s0 options) as H1. pose proof (options_attr_clr k s0 options) as H2.
    cbn [s0 o_recAttrSet o_recAttrClr] in H1, H2. rewrite Z.testbit_0_l in H1, H2. cbn [orb] in H1, H2. rewrite <- H1, <- H2.
    destruct (Z.eqb_spec (o_recAttrSet (fold_left option_step options s0)) 0) as [E1|]; cbn [negb orb]; [|done].
    destruct (Z.eqb_spec (o_recAttrClr (fold_left option_step options s0)) 0) as [E2|]; cbn [negb]; [|done]. by rewrite E1, E2.
Qed.

(** ** Mounts *)

Lemma flag_setting_bind (o : string) :
  flag_setting 12 o = if bool_decide (o = "bind") || bool_decide (o = "rbind") then Some true else None.
Proof.
  unfold flag_setting, classify, mountFlags. cbn [named].
  repeat (match goal with |- context [if bool_decide (?a = o) then _ else _] => destruct (bool_decide_reflect (a = o)) as [<-|] end;
    [reflexivity|]).
  rewrite !bool_decide_eq_false_2 by congruence. cbn [nonzero orb].
  destruct (match named mountPropagationMapping o with Some f => _ | None => _ end); [done|].
  destruct (named recAttrFlags o); [done|]. by destruct (nonzero (named extensionFlags o)).
Qed.

Lemma last_says_some (says : string -> option bool) (P : string -> bool) (l : list string) :
  (forall o, says o = if P o then Some true else None) -> last_says says false l = existsb P l.
Proof.
  intros H. enough (forall b, last_says says b l = b || existsb P l) as E by apply E.
  induction l as [|o l IH]; intros b; [by rewrite orb_false_r|]. rewrite last_says_cons, H, IH. cbn.
  by destruct (P o), b.
Qed.

Definition is_bind (m : configs.Mount) : bool := negb (Z.land (configs.Flags m) MS_BIND =? 0).

(** The mount of a specification: it is a bind mount exactly when an option says bind
    or rbind; then its source is absolute and its type bind.  Otherwise source and type
    are those of the specification.  Nothing that goes to the kernel holds a null byte,
    and that is the only reason to refuse a mount. *)
Theorem createLibcontainerMount_spec (cwd : string) (m : specs.Mount) :
  IsAbs cwd = true ->
  let binds := existsb (fun o => bool_decide (o = "bind") || bool_decide (o = "rbind")) (specs.m_Options m) in
  let source := if binds && negb (IsAbs (specs.m_Source m)) then Join [cwd; specs.m_Source m] else specs.m_Source m in
  let device := if binds then "bind" else specs.m_Type m in
  (binds = true -> IsAbs source = true) /\
  match createLibcontainerMount cwd m with
  | Ok mnt =>
      is_bind mnt = binds /\ configs.Source mnt = source /\ configs.Device mnt = device /\
      configs.Destination mnt = specs.m_Destination m /\
      Forall (fun s => contains_char ch_nul s = false) [source; specs.m_Destination m; device]
  | Err _ => Exists (fun s => contains_char ch_nul s = true) [source; specs.m_Destination m; device]
  end.
Proof.
  intros Hcwd binds source device.
  assert (negb (Z.land (configs.Flags (parseMountOptions (specs.m_Options m))) MS_BIND =? 0) = binds) as Hb.
  { change MS_BIND with (2 ^ 12). rewrite land_pow2 by done. unfold parseMountOptions. cbn [configs.Flags].
    rewrite options_flags by done. apply last_says_some, flag_setting_bind. }
  split.
  - intros H. unfold source. rewrite H. cbn [andb]. destruct (IsAbs (specs.m_Source m)) eqn:E; cbn [negb]; [done|].
    rewrite Join_two by done. apply has_prefix_app.
  - unfold createLibcontainerMount. rewrite Hb. fold device source.
    destruct (contains_char ch_nul source) eqn:E1; cbn [orb]; [by left|].
    destruct (contains_char ch_nul (specs.m_Destination m)) eqn:E2; cbn [orb]; [by right; left|].
    destruct (contains_char ch_nul device) eqn:E3; [by right; right; left|]. by repeat split; repeat constructor.
Qed.

Lemma createLibcontainerMount_spec_witness :
  exists mnt, createLibcontainerMount "/bundle" (specs.mkMount "/data" "ext4" "../vol" ["nosuid"; "rbind"; "ro"; "rw"; "uid=3"]) = Ok mnt /\
    is_bind mnt = true /\ configs.Source mnt = "/vol".
Proof.
  destruct (createLibcontainerMount_spec "/bundle" (specs.mkMount "/data" "ext4" "../vol" ["nosuid"; "rbind"; "ro"; "rw"; "uid=3"]))
    as [_ H]; [reflexivity|].
  eexists. split; [reflexivity|]. destruct H as (H1 & H2 & _). split; [exact H1|exact H2].
Defined.

(** ** Namespaces *)

Lemma index_none (n : list Namespace) (t : string) : index n t = None <-> t ∉ map ns_Type n.
Proof.
  induction n as [|ns n IH]; cbn; [split; [intros _; apply not_elem_of_nil|done]|]. rewrite not_elem_of_cons.
  case_bool_decide as H; [split; [done|intros [? _]; congruence]|]. destruct (index n t); cbn; naive_solver.
Qed.
Lemma Contains_iff (n : list Namespace) (t : string) : Contains n t = true <-> t ∈ map ns_Type n.
Proof.
  unfold Contains. rewrite bool_decide_eq_true. destruct (index n t) eqn:E.
  - split; [|by eauto]. intros _. destruct (decide (t ∈ map ns_Type n)) as [|H]; [done|]. apply index_none in H. congruence.
  - apply index_none in E. split; [by intros [? ?]|done].
Qed.

(** The namespace of the specification, with the name of libcontainer. *)
Definition same_namespace (ns : specs.LinuxNamespace) (n : Namespace) : Prop :=
  named namespaceMapping (specs.n_Type ns) = Some (ns_Type n) /\ specs.n_Path ns = ns_Path n.

Lemma add_namespaces_iff (nss : list specs.LinuxNamespace) (acc out : list Namespace) :
  NoDup (map ns_Type acc) ->
  add_namespaces acc nss = Ok out <->
  exists new, out = acc ++ new /\ Forall2 same_namespace nss new /\ NoDup (map ns_Type out).
Proof.
  revert acc. induction nss as [|ns nss IH]; intros acc Ha; cbn [add_namespaces].
  { split.
    - intros [= <-]. exists []. by rewrite app_nil_r.
    - intros (new & -> & ->%Forall2_nil_inv_l & _). by rewrite app_nil_r. }
  destruct (named namespaceMapping (specs.n_Type ns)) as [t|] eqn:Et.
  2: { split; [done|]. intros (new & _ & H & _). apply Forall2_cons_inv_l in H as (n & ? & [Hn _] & _). congruence. }
  destruct (Contains acc t) eqn:Ec.
  - split; [done|]. intros (new & -> & H & Hd). apply Forall2_cons_inv_l in H as (n & new' & [Hn _] & _ & ->).
    rewrite map_app in Hd. apply NoDup_app in Hd as (_ & Hd & _). apply Contains_iff in Ec.
    exfalso. apply (Hd t Ec). cbn. apply elem_of_cons. left. congruence.
  - assert (t ∉ map ns_Type acc) as Hni by (rewrite <- Contains_iff; congruence).
    unfold AddNs. rewrite (proj2 (index_none acc t)) by done. rewrite IH.
    + split; intros (new & -> & H & Hd).
      * exists (mkNamespace t (specs.n_Path ns) :: new). rewrite <- app_assoc in *. by repeat constructor.
      * apply Forall2_cons_inv_l in H as (n & new' & [Hn Hp] & Hf & ->). exists new'. rewrite <- app_assoc. split; [|done].
        cbn. do 2 f_equal. destruct n. cbn in *. congruence.
    + rewrite map_app. apply NoDup_app. split; [done|]. split; [|apply NoDup_singleton]. intros x Hx ->%list_elem_of_singleton. done.
Qed.

(** ** Default devices *)

(** *** Rules that allow *)

Lemma hit_bits (e : Emulator) (q : request) :
  rq_access q <> 0 ->
  exception_hit e q = true <-> exists m, meta_matches m q = true /\ Z.land (rq_access q) (emu_bits e m) = rq_access q.
Proof.
  intros Hq. rewrite exception_hit_iff. unfold emu_bits, rules_get, covers. split.
  - intros (m & p & Hm & Hmm & Hc%Z.eqb_eq). exists m. by rewrite Hm.
  - intros (m & Hmm & Hc). destruct (rmap (rules e) !! m) as [p|] eqn:E; cbn in Hc.
    + exists m, p. split; [done|]. split; [done|]. by apply Z.eqb_eq.
    + unfold toSet in Hc. cbn in Hc. by rewrite Z.land_0_r in Hc.
Qed.

Lemma bool_leq (b c : bool) : (b = true -> c = true) -> negb c = true -> negb b = true.
Proof. destruct b, c; naive_solver. Qed.

(** An exception grows when the list of exceptions allows, and shrinks when it denies. *)
Lemma allow_mono (e e' : Emulator) (r : Rule) (q : request) :
  Devices.Allow r = true -> Apply e r = Ok e' -> rq_access q <> 0 -> emu_decision e q = true -> emu_decision e' q = true.
Proof.
  intros Ha H Hq Hd. apply Apply_cases in H as [-> | (d & Hn & Hp & Hm & [[Hne ->] | [Heq Hr]])].
  - unfold emu_decision, exception_hit. cbn. rewrite Ha, map_to_list_empty. done.
  - rewrite Ha in Hne. unfold emu_decision in *. cbn [addRule defaultAllow]. destruct (defaultAllow e); [done|]. rewrite xorb_false_l in *.
    apply hit_bits in Hd as (m & Hmm & Hc); [|done]. apply hit_bits; [done|]. exists m. split; [done|]. rewrite addRule_bits.
    case_decide; [|done]. rewrite Z.land_lor_distr_r, Hc. apply Z.bits_inj'. intros n _. rewrite Z.lor_spec, Z.land_spec. 
    by destruct (Z.testbit (rq_access q) n), (Z.testbit (toSet (perms d)) n).
  - apply rmRule_ok in Hr as (_ & Hda & Hb & _). unfold emu_decision in *. rewrite Hda, <- Heq, Ha in *. rewrite xorb_true_l in *.
    eapply bool_leq; [|exact Hd]. rewrite !hit_bits by done. intros (m & Hmm & Hc). exists m. split; [done|]. rewrite Hb in Hc.
    case_decide; [|done]. apply Z.bits_inj'. intros n _. apply (f_equal (fun z => Z.testbit z n)) in Hc. unfold and_not in Hc.
    rewrite Z.land_spec, Z.ldiff_spec in Hc. rewrite Z.land_spec. by destruct (Z.testbit (rq_access q) n), (Z.testbit (emu_bits e m) n).
Qed.

Lemma allow_grants (e e' : Emulator) (r : Rule) (access : Z) :
  Devices.Allow r = true -> Apply e r = Ok e' -> access <> 0 -> Z.land access (toSet (Permissions_ r)) = access ->
  emu_decision e' (mkRequest (Type_ r) (Major r) (Minor r) access) = true.
Proof.
  intros Ha H Hq Hc. apply Apply_cases in H as [-> | (d & Hn & Hp & Hm & [[Hne ->] | [Heq Hr]])].
  - unfold emu_decision, exception_hit. cbn. by rewrite Ha, map_to_list_empty.
  - unfold emu_decision. cbn [addRule defaultAllow]. rewrite Ha in Hne. destruct (defaultAllow e); [done|]. rewrite xorb_false_l.
    apply hit_bits; [done|]. exists (meta d). split.
    + rewrite Hm. unfold meta_matches. cbn.
      rewrite (bool_decide_eq_true_2 (Type_ r = _)), (bool_decide_eq_true_2 (Major r = Major r)), (bool_decide_eq_true_2 (Minor r = Minor r)) by done.
      by rewrite !orb_true_r.
    + rewrite addRule_bits, decide_True, Hp by done. cbn [rq_access]. rewrite Z.land_lor_distr_r, Hc.
      apply Z.bits_inj'. intros n _. rewrite Z.lor_spec, Z.land_spec. by destruct (Z.testbit access n).
  - unfold emu_decision. rewrite (proj1 (proj2 (rmRule_ok _ _ _ Hr))), <- Heq, Ha, xorb_true_l. apply negb_true_iff, not_true_is_false.
    intros (m & Hmm & Hc')%hit_bits; [|done]. cbn [rq_access] in Hc'. apply matching_metas in Hmm.
    apply (rmRule_no_overlap _ _ _ m) in Hr; [|by rewrite Hm]. apply Hq.
    rewrite <- Hc, <- Hc', <- Hp, <- Z.land_assoc, Hr. apply Z.land_0_r.
Qed.

Lemma allow_rules_mono (l : list Rule) (e e' : Emulator) (q : request) :
  Forall (fun r => Devices.Allow r = true) l -> apply_rules e l = Ok e' -> rq_access q <> 0 ->
  emu_decision e q = true -> emu_decision e' q = true.
Proof.
  intros Hl. revert e. induction Hl as [|r l Hr _ IH]; intros e H Hq Hd; cbn in H; inv_ok; [done|].
  eapply IH; [done..|]. by eapply allow_mono.
Qed.

Lemma allow_rules_grant (l : list Rule) (e e' : Emulator) (r : Rule) (access : Z) :
  Forall (fun r => Devices.Allow r = true) l -> apply_rules e l = Ok e' -> r ∈ l -> access <> 0 ->
  Z.land access (toSet (Permissions_ r)) = access ->
  emu_decision e' (mkRequest (Type_ r) (Major r) (Minor r) access) = true.
Proof.
  intros Hl. revert e. induction Hl as [|x l Hx Hf IH]; intros e H Hin Hq Hc; [by apply not_elem_of_nil in Hin|].
  cbn in H. apply bind_ok in H as (e1 & H1 & H). apply elem_of_cons in Hin as [->|Hin]; [|by eapply IH].
  eapply allow_rules_mono; [done..|]. by eapply allow_grants.
Qed.

(** *** The heap of devices *)

(** The device is the default one, but for its owner. *)
Definition default_like (d ad : Device) : Prop := dev_rule d = dev_rule ad /\ Path d = Path ad /\ FileMode d = FileMode ad.
Definition heap_ok (heap : list Device) : Prop := Forall2 default_like (take (length AllowedDevices) heap) AllowedDevices.

Lemma heap_initial : heap_ok AllowedDevices.
Proof. unfold heap_ok. rewrite firstn_all. apply Forall2_same_length_lookup. split; [done|]. intros ? ? ? -> [= ->]. done. Qed.

Lemma heap_ok_app (heap more : list Device) : heap_ok heap -> heap_ok (heap ++ more).
Proof.
  unfold heap_ok. intros H. rewrite take_app_le; [done|]. apply Forall2_length in H. rewrite length_take in H. lia.
Qed.

Lemma heap_ok_alter (heap : list Device) (p : nat) (uid gid : Z) : heap_ok heap -> heap_ok (alter (set_owner uid gid) p heap).
Proof.
  unfold heap_ok. rewrite !Forall2_same_length_lookup, !length_take, length_alter. intros [Hl H]. split; [done|].
  intros i d ad Hd Had. apply lookup_take_Some in Hd as [Hd Hi]. destruct (decide (i = p)) as [->|].
  - rewrite list_lookup_alter in Hd. destruct (decide (p = p)); [|done]. destruct (heap !! p) as [d0|] eqn:E; [|done]. injection Hd as <-.
    apply (H p d0 ad); [|done]. apply lookup_take_Some. done.
  - rewrite list_lookup_alter_ne in Hd by done. apply (H i d ad); [|done]. by apply lookup_take_Some.
Qed.
Lemma heap_ok_chown (ps : list nat) (heap : list Device) (uid gid : Z) : heap_ok heap -> heap_ok (chown_all heap ps uid gid).
Proof. revert heap. induction ps as [|p ps IH]; intros heap H; [done|]. cbn. by apply IH, heap_ok_alter. Qed.

Lemma heap_ok_deref (heap : list Device) (p : nat) (ad : Device) :
  heap_ok heap -> AllowedDevices !! p = Some ad -> default_like (deref heap p) ad.
Proof.
  unfold heap_ok, deref. rewrite Forall2_same_length_lookup, length_take. intros [Hl H] Hp.
  pose proof (lookup_lt_Some _ _ _ Hp). destruct (lookup_lt_is_Some_2 heap p) as [d Hd]; [lia|]. rewrite Hd. cbn.
  apply (H p); [|done]. by apply lookup_take_Some.
Qed.

(** *** Conversions *)

Lemma merge_devices_ok (ds : list specs.LinuxDevice) (heap heap' : list Device) (config config' : list nat) :
  merge_devices heap config ds = Ok (heap', config') ->
  exists new, heap' = heap ++ new /\ config' = config ++ seq (length heap) (length new) /\
    Forall2 (fun d n => new_device d = Ok n) ds new.
Proof.
  revert heap config. induction ds as [|d ds IH]; intros heap config H; cbn in H; inv_ok.
  { simplify_eq. exists []. by rewrite !app_nil_r. }
  apply IH in H0 as (new & -> & -> & Hf). rename x into n. exists (n :: new). rewrite <- !app_assoc, length_app. cbn.
  rewrite Nat.add_comm. cbn. split; [done|]. split; [done|]. by constructor.
Qed.

Section Converted.
Context (ParseVariant : string -> result configs.Variant) (float_outside : spec_float -> Z).
Context (iter_labels iter_props : gmap string string -> list (string * string)) (getwd : result string).
Implicit Types (heap : list Device) (opts : CreateOpts) (cfg : configs.Config) (b : configs.Base) (c : configs.Cgroup).

#[local] Abbreviation prepare := (prepare ParseVariant float_outside iter_labels iter_props getwd).
#[local] Abbreviation convert_spec := (CreateLibcontainerConfig ParseVariant float_outside iter_labels iter_props getwd).

Definition unshadowed heap opts : list nat := filter (fun p => shadowed (opt_Spec opts) (deref heap p) = false) allowed_pointers.

Lemma prepare_ok heap opts heap' b c :
  prepare heap opts = Ok (heap', b, c) ->
  exists new r, heap' = heap ++ new /\ Forall2 (fun d n => new_device d = Ok n) (spec_devices (opt_Spec opts)) new /\
    resources (opt_Spec opts) = Ok r /\
    configs.Devices_ b = filter (fun p => Path (deref heap p) <> "") (unshadowed heap opts) ++ seq (length heap) (length new) /\
    configs.Devices (configs.cg_Resources c) = configs.Devices r ++ map (fun p => dev_rule (deref heap' p)) (unshadowed heap opts) /\
    configs.RootlessEUID b = opt_RootlessEUID opts.
Proof.
  unfold SpecConv.prepare. intros H. inv_ok. destruct (specs.s_Root (opt_Spec opts)) as [root|]; [|done]. inv_ok.
  match goal with H : createDevices _ _ = Ok ?x |- _ => destruct x as [[h devs] deduped]; unfold createDevices in H; rename H into Hd end.
  inv_ok. destruct x2 as [h1 cfgdevs]. inv_ok. simplify_eq. apply merge_devices_ok in H as (new & -> & -> & Hf).
  unfold CreateCgroupConfig in H2. apply bind_ok in H2 as (sp & _ & H2). apply bind_ok in H2 as ([[[parent prefix] name] path] & _ & H2).
  apply bind_ok in H2 as (r & Hr & [= <-]). exists new, r. split_and!; try done. cbn. by destruct r.
Qed.

Lemma convert_ok heap opts heap' cfg :
  convert_spec heap opts = (heap', Ok cfg) ->
  exists heap1 c lin, prepare heap opts = Ok (heap1, configs.base cfg, c) /\
    cfg = configs.mkConf (configs.base cfg) (set_OwnerUID c (owner_uid (opt_Spec opts) (configs.base cfg) c lin)) lin
            (process_part (opt_Spec opts)) (createHooks (opt_Spec opts)) specs.Version /\
    match specs.s_Linux (opt_Spec opts) with
    | Some l => linux_part heap1 l (configs.base cfg) c = (heap', Ok lin)
    | None => heap' = heap1 /\ lin = no_linux
    end.
Proof.
  unfold CreateLibcontainerConfig. destruct (prepare heap opts) as [[[h1 b] c]|] eqn:Ep; [|done]. intros H.
  destruct (match specs.s_Linux _ with Some l => _ | None => _ end) as [h2 [lin|]] eqn:El; [|done]. injection H as -> <-.
  exists h1, c, lin. cbn. split; [done|]. split; [done|]. destruct (specs.s_Linux (opt_Spec opts)); [done|]. by injection El as -> ->.
Qed.

Lemma linux_part_ok heap (l : specs.Linux) b c heap' (lin : configs.LinuxPart) :
  linux_part heap l b c = (heap', Ok lin) ->
  let nss := configs.Namespaces lin in
  add_namespaces [] (specs.l_Namespaces l) = Ok nss /\
  configs.Networks lin = (if own_namespace nss NEWNET then ["loopback"] else []) /\
  if Contains nss NEWUSER then
    configs.UidMappings lin = append_maps None (specs.UIDMappings l) /\ configs.GidMappings lin = append_maps None (specs.GIDMappings l) /\
    exists u g, HostUID (view b c lin no_process false) 0 = Ok u /\ HostGID (view b c lin no_process false) 0 = Ok g /\
      heap' = chown_all heap (configs.Devices_ b) (uint32 u) (uint32 g)
  else configs.UidMappings lin = None /\ configs.GidMappings lin = None /\ heap' = heap.
Proof.
  unfold linux_part, linux_namespaces. destruct (named _ _) as [pr|]; [|done].
  destruct (configs.NoPivotRoot b && _); [done|]. destruct (add_namespaces [] _) as [nss|] eqn:En; cbn [mbind result_bind]; [|done].
  cbn [configs.Namespaces]. destruct (Contains nss NEWUSER) eqn:Eu.
  - unfold setupUserNamespace. cbn [configs.UidMappings configs.GidMappings].
    match goal with |- context [HostRootUID ?x] => destruct (HostRootUID x) as [u|] eqn:Hu end; cbn [mbind result_bind]; [|done].
    match goal with |- context [HostRootGID ?x] => destruct (HostRootGID x) as [g|] eqn:Hg end; cbn [mbind result_bind]; [|done].
    intros H. injection H as <- H. unfold linux_rest in H. inv_ok. cbn in *. rewrite Eu. split; [done|]. split; [done|]. split; [done|]. split; [done|].
    exists u, g. split; [exact Hu|]. split; [exact Hg|done].
  - intros H. injection H as <- H. unfold linux_rest in H. inv_ok. cbn in *. by rewrite Eu.
Qed.

Lemma unshadowed_allow heap opts : heap_ok heap -> Forall (fun r => Devices.Allow r = true) (map (fun p => dev_rule (deref heap p)) (unshadowed heap opts)).
Proof.
  intros Hh. apply Forall_map, Forall_forall. intros p [_ Hp]%list_elem_of_filter. apply elem_of_seq in Hp as [_ Hp].
  destruct (lookup_lt_is_Some_2 AllowedDevices p) as [ad Had]; [lia|]. destruct (heap_ok_deref heap p ad Hh Had) as [-> _].
  assert (Forall (fun d => Devices.Allow (dev_rule d) = true) AllowedDevices) as Hall by by repeat constructor.
  rewrite Forall_lookup in Hall. by apply (Hall p).
Qed.

Lemma unshadowed_elem heap opts (p : nat) (ad : Device) :
  heap_ok heap -> AllowedDevices !! p = Some ad -> (forall sd, sd ∈ spec_devices (opt_Spec opts) -> specs.d_Path sd <> Path ad) ->
  p ∈ unshadowed heap opts.
Proof.
  intros Hh Had Hs. apply list_elem_of_filter. split.
  - destruct (heap_ok_deref heap p ad Hh Had) as (_ & Hp & _). unfold shadowed. rewrite Hp. apply andb_false_iff. right.
    apply not_true_is_false. intros (sd & Hin & H%bool_decide_eq_true_1)%existsb_exists. by apply (Hs sd); [apply list_elem_of_In|].
  - apply elem_of_seq. pose proof (lookup_lt_Some _ _ _ Had). lia.
Qed.

(** C18. A container can always use the default devices the specification does not
    replace, whatever device rules it has: their nodes are in the configuration, and every
    access to them is allowed once the rules are applied. *)
Theorem default_devices_usable heap opts heap' cfg (ad : Device) (e : Emulator) (access : Z) :
  heap_ok heap -> convert_spec heap opts = (heap', Ok cfg) ->
  ad ∈ AllowedDevices -> Path ad <> "" -> (forall sd, sd ∈ spec_devices (opt_Spec opts) -> specs.d_Path sd <> Path ad) ->
  apply_rules emptyEmulator (configs.Devices (configs.cg_Resources (configs.Cgroups cfg))) = Ok e ->
  access <> 0 -> Z.land access 7 = access ->
  emu_decision e (mkRequest (Type_ (dev_rule ad)) (Major (dev_rule ad)) (Minor (dev_rule ad)) access) = true /\
  exists p, p ∈ configs.Devices_ (configs.base cfg) /\ default_like (deref heap' p) ad.
Proof.
  intros Hh Hc Hin Hpath Hs He Hne Hacc. apply convert_ok in Hc as (heap1 & c & lin & Hp & Hcfg & Hl).
  apply prepare_ok in Hp as (new & r & -> & _ & _ & Hdevs & Hrules & _). rewrite Hcfg in He. cbn in He. rewrite Hrules in He.
  apply list_elem_of_lookup in Hin as [p Had]. pose proof (unshadowed_elem heap opts p ad Hh Had Hs) as Hun.
  pose proof (heap_ok_app heap new Hh) as Hh1. split.
  - rewrite apply_rules_app in He. apply bind_ok in He as (e1 & _ & He). destruct (heap_ok_deref _ p ad Hh1 Had) as (Hr & _).
    rewrite <- Hr. eapply allow_rules_grant; [|exact He| |done|].
    + apply Forall_map, Forall_forall. intros q Hq. pose proof (unshadowed_allow heap opts Hh) as Ha.
      rewrite Forall_map, Forall_forall in Ha. specialize (Ha q Hq). apply list_elem_of_filter in Hq as [_ Hq]. apply elem_of_seq in Hq as [_ Hq].
      destruct (lookup_lt_is_Some_2 AllowedDevices q) as [aq Haq]; [lia|]. cbn in *.
      destruct (heap_ok_deref _ q aq Hh1 Haq) as (-> & _). by destruct (heap_ok_deref _ q aq Hh Haq) as (<- & _).
    + apply list_elem_of_fmap. by exists p.
    + rewrite Hr. assert (Forall (fun d => Path d <> "" -> toSet (Permissions_ (dev_rule d)) = 7) AllowedDevices) as Hall
        by (repeat constructor; by intros []). rewrite Forall_lookup in Hall. rewrite (Hall p ad Had Hpath). done.
  - exists p. rewrite Hdevs. split.
    + apply elem_of_app. left. apply list_elem_of_filter. split; [|done]. by destruct (heap_ok_deref _ p ad Hh Had) as (_ & -> & _).
    + eapply heap_ok_deref; [|done]. destruct (specs.s_Linux (opt_Spec opts)) as [l|]; [|by destruct Hl as [-> _]].
      apply linux_part_ok in Hl as (_ & _ & Hl). destruct (Contains _ NEWUSER).
      * destruct Hl as (_ & _ & u & g & _ & _ & ->). by apply heap_ok_chown.
      * by destruct Hl as (_ & _ & ->).
Qed.

(** No conversion, successful or not, changes the rules, the paths or the modes of
    the default devices, which all conversions share. *)
Theorem conversions_keep_defaults (runs : list CreateOpts) heap :
  heap_ok heap -> heap_ok (fold_left (fun h opts => (convert_spec h opts).1) runs heap).
Proof.
  revert heap. induction runs as [|opts runs IH]; intros heap H; [done|]. cbn [fold_left]. apply IH. unfold CreateLibcontainerConfig.
  destruct (SpecConv.prepare _ _ _ _ _ heap opts) as [[[h1 b] c]|] eqn:Ep; [|done].
  apply prepare_ok in Ep as (new & r & -> & _). apply (heap_ok_app heap new) in H.
  destruct (specs.s_Linux (opt_Spec opts)) as [l|]; [|done]. unfold linux_part.
  destruct (linux_namespaces l b) as [lin|]; [|done]. destruct (Contains _ NEWUSER); [|done].
  destruct (setupUserNamespace _ l b c lin no_process) as [[h2 lin2]|] eqn:Es; [|done]. unfold setupUserNamespace in Es. inv_ok. simplify_eq.
  by apply heap_ok_chown.
Qed.

(** C19. Namespaces and what depends on them.  A converted configuration has the
    namespaces of the specification in their order, none twice; it sets up loopback
    exactly when it has a network namespace of its own, and has identity mappings only
    with a user namespace: the checks on both never fail on it. *)
Theorem namespaces_converted heap opts heap' cfg (l : specs.Linux) :
  convert_spec heap opts = (heap', Ok cfg) -> specs.s_Linux (opt_Spec opts) = Some l ->
  let nss := configs.Namespaces (configs.linux cfg) in
  Forall2 same_namespace (specs.l_Namespaces l) nss /\ NoDup (map ns_Type nss) /\
  configs.Networks (configs.linux cfg) = (if own_namespace nss NEWNET then ["loopback"] else []) /\
  check_network (checked cfg) = Ok tt /\
  (forall env, Contains nss NEWUSER = false -> check_usernamespace env (checked cfg) = Ok tt).
Proof.
  intros Hc Hl. apply convert_ok in Hc as (heap1 & c & lin & _ & -> & H). rewrite Hl in H. cbn.
  apply linux_part_ok in H as (Hn & Hnet & Hu). apply add_namespaces_iff in Hn as (new & E & Hf & Hd); [|apply NoDup_nil_2].
  cbn [app] in E. rewrite <- E in Hf. split; [done|]. split; [done|]. split; [done|]. split.
  - unfold check_network. cbn. rewrite Hnet. unfold own_namespace. by destruct (Contains _ NEWNET).
  - intros env Hno. unfold check_usernamespace. cbn. rewrite Hno in *. by destruct Hu as (-> & -> & _).
Qed.

(** *** Ownership *)

Lemma chown_all_lookup (ps : list nat) heap (uid gid : Z) (p : nat) :
  chown_all heap ps uid gid !! p = (if decide (p ∈ ps) then set_owner uid gid else id) <$> heap !! p.
Proof.
  revert heap. induction ps as [|q ps IH]; intros heap; cbn [chown_all].
  { rewrite decide_False by apply not_elem_of_nil. by rewrite option_fmap_id. }
  rewrite IH. destruct (decide (p = q)) as [->|Hne].
  - rewrite list_lookup_alter, (decide_True (P := q ∈ q :: ps)) by left. destruct (decide (q = q)); [|done].
    destruct (heap !! q); [|by destruct (decide _)]. cbn. by destruct (decide _).
  - rewrite list_lookup_alter_ne by done. rewrite (decide_ext (p ∈ q :: ps) (p ∈ ps)); [done|]. rewrite elem_of_cons. naive_solver.
Qed.

(** With a user namespace, every device node of the container belongs to the root of
    the container, as the mappings of the specification have it. *)
Theorem userns_devices_owned heap opts heap' cfg (p : nat) :
  heap_ok heap -> convert_spec heap opts = (heap', Ok cfg) ->
  Contains (configs.Namespaces (configs.linux cfg)) NEWUSER = true -> p ∈ configs.Devices_ (configs.base cfg) ->
  exists u g, HostRootUID (checked cfg) = Ok u /\ HostRootGID (checked cfg) = Ok g /\
    Uid (deref heap' p) = uint32 u /\ Gid (deref heap' p) = uint32 g.
Proof.
  intros Hh Hc Hu Hp. apply convert_ok in Hc as (heap1 & c & lin & Hprep & Hcfg & H).
  assert (configs.linux cfg = lin) as El by by rewrite Hcfg. rewrite El in Hu. rewrite Hcfg.
  destruct (specs.s_Linux (opt_Spec opts)) as [l|]; [|destruct H as [_ H]; subst lin; apply Contains_iff in Hu; by apply not_elem_of_nil in Hu].
  apply linux_part_ok in H as (_ & _ & H). rewrite Hu in H. destruct H as (_ & _ & u & g & Hhu & Hhg & ->).
  exists u, g. split; [exact Hhu|]. split; [exact Hhg|]. unfold deref. rewrite chown_all_lookup, decide_True by done.
  apply prepare_ok in Hprep as (new & r & -> & _ & _ & Hd & _). destruct (lookup_lt_is_Some_2 (heap ++ new) p) as [d ->]; [|done].
  rewrite Hd in Hp. rewrite length_app. apply elem_of_app in Hp as [Hp|Hp].
  - apply list_elem_of_filter in Hp as [_ Hp]. apply list_elem_of_filter in Hp as [_ Hp]. apply elem_of_seq in Hp as [_ Hp].
    unfold heap_ok in Hh. apply Forall2_length in Hh. rewrite length_take in Hh. lia.
  - apply elem_of_seq in Hp as [_ Hp]. lia.
Qed.
End Converted.

(** ** Seccomp profiles *)

Lemma try_map_ok {A B} (f : A -> result B) (l : list A) (l' : list B) :
  try_map f l = Ok l' <-> Forall2 (fun a b => f a = Ok b) l l'.
Proof.
  revert l'. induction l as [|a l IH]; intros l'; cbn.
  { split; [intros [= <-]; constructor|by intros ->%Forall2_nil_inv_l]. }
  split.
  - intros H. inv_ok. constructor; [done|by apply IH].
  - intros (b & l2 & Hb & Hl & ->)%Forall2_cons_inv_l. rewrite Hb. cbn. apply IH in Hl as ->. done.
Qed.

(** The rule a name of a block stands for. *)
Definition rule_for (call : specs.LinuxSyscall) (name : string) (sc : Syscall) : Prop :=
  sc_Name sc = name /\ ConvertStringToAction (specs.call_Action call) = Ok (sc_Action sc) /\
  sc_ErrnoRet sc = specs.call_ErrnoRet call /\
  Forall2 (fun a b => a_Index b = specs.arg_Index a /\ a_Value b = specs.arg_Value a /\ a_ValueTwo b = specs.arg_ValueTwo a /\
             ConvertStringToOperator (specs.arg_Op a) = Ok (a_Op b)) (specs.call_Args call) (sc_Args sc).

Lemma convert_block_ok (call : specs.LinuxSyscall) (calls : list Syscall) :
  convert_block call = Ok calls -> Forall2 (rule_for call) (specs.call_Names call) calls.
Proof.
  unfold convert_block. intros (act & Ha & H%try_map_ok)%bind_ok. eapply Forall2_impl; [exact H|]. cbn.
  intros name sc (args & Hargs%try_map_ok & [= <-])%bind_ok. split; [done|]. split; [done|]. split; [done|].
  eapply Forall2_impl; [exact Hargs|]. cbn. intros a b0 H0. unfold convert_arg in H0. by inv_ok.
Qed.

(** A seccomp profile is converted rule by rule, in the order of its blocks and
    their names, and with the actions, operators and architectures that its strings name;
    a profile with flags, or a string that names nothing, is refused. *)
Theorem SetupSeccomp_spec (s : specs.LinuxSeccomp) (c : Seccomp) :
  SetupSeccomp s = Ok (Some c) ->
  specs.s_Flags s = [] /\ ConvertStringToAction (specs.s_DefaultAction s) = Ok (DefaultAction c) /\
  DefaultErrnoRet c = specs.s_DefaultErrnoRet s /\
  Forall2 (fun a b => ConvertStringToArch a = Ok b) (specs.s_Architectures s) (Architectures c) /\
  exists blocks, Syscalls c = concat blocks /\
    Forall2 (fun call calls => Forall2 (rule_for call) (specs.call_Names call) calls) (specs.s_Syscalls s) blocks.
Proof.
  unfold SetupSeccomp. intros H. destruct (_ && _); [done|]. case_bool_decide as Hf; [|done].
  apply bind_ok in H as (archs & Ha%try_map_ok & H). apply bind_ok in H as (act & Hact & H).
  apply bind_ok in H as (blocks & Hb%try_map_ok & [= <-]). cbn. split_and!; [done..|].
  exists blocks. split; [done|]. eapply Forall2_impl; [exact Hb|]. apply convert_block_ok.
Qed.

Definition wit_seccomp_spec : specs.LinuxSeccomp :=
  specs.mkLinuxSeccomp "SCMP_ACT_ERRNO" (Some 1) ["SCMP_ARCH_X86_64"; "SCMP_ARCH_X32"] [] "" ""
    [specs.mkLinuxSyscall ["read"; "write"] "SCMP_ACT_ALLOW" None [];
     specs.mkLinuxSyscall ["personality"] "SCMP_ACT_LOG" None [specs.mkSeccompArg 0 8 0 "SCMP_CMP_EQ"]].

Lemma SetupSeccomp_spec_witness :
  exists c, SetupSeccomp wit_seccomp_spec = Ok (Some c) /\ Architectures c = ["amd64"; "x32"] /\ length (Syscalls c) = 3%nat /\
    ConvertStringToAction (specs.s_DefaultAction wit_seccomp_spec) = Ok (DefaultAction c).
Proof.
  eexists. split; [reflexivity|]. split; [reflexivity|]. split; [reflexivity|].
  eapply (SetupSeccomp_spec wit_seccomp_spec). reflexivity.
Defined.

(** ** Cgroups *)

(** Inside the range of cpu shares the weight of cgroup v2 is within its own range,
    and more shares never mean less weight; the ends of the ranges correspond. *)
Theorem cpu_weight_bounds (x y : Z) :
  2 <= x <= y -> y <= 262144 ->
  1 <= ConvertCPUSharesToCgroupV2Value x <= ConvertCPUSharesToCgroupV2Value y /\ ConvertCPUSharesToCgroupV2Value y <= 10000 /\
  ConvertCPUSharesToCgroupV2Value 2 = 1 /\ ConvertCPUSharesToCgroupV2Value 262144 = 10000.
Proof.
  intros Hx Hy.
  assert (forall z, 2 <= z <= 262144 -> ConvertCPUSharesToCgroupV2Value z = 1 + ((z - 2) * 9999) / 262142) as E.
  { intros z Hz. unfold ConvertCPUSharesToCgroupV2Value, uint64. destruct (Z.eqb_spec z 0); [lia|].
    rewrite (Z.mod_small (z - 2)) by lia. rewrite (Z.mod_small ((z - 2) * 9999)) by lia. apply Z.mod_small.
    assert (0 <= (z - 2) * 9999 / 262142 <= 9999); [|lia]. split; [apply Z.div_pos; lia|]. apply Z.div_le_upper_bound; lia. }
  rewrite (E x), (E y) by lia.
  assert ((x - 2) * 9999 / 262142 <= (y - 2) * 9999 / 262142) by (apply Z.div_le_mono; lia).
  assert (0 <= (x - 2) * 9999 / 262142) by (apply Z.div_pos; lia).
  assert ((y - 2) * 9999 / 262142 <= 9999) by (apply Z.div_le_upper_bound; lia).
  split; [lia|]. split; [lia|]. by split.
Qed.

Lemma cpu_weight_bounds_witness : 1 <= ConvertCPUSharesToCgroupV2Value 1024 <= ConvertCPUSharesToCgroupV2Value 2048.
Proof. apply (cpu_weight_bounds 1024 2048); lia. Defined.

(** One share, which the specification allows, is below the range and wraps around. *)
Lemma one_share_wraps : ConvertCPUSharesToCgroupV2Value 1 = 70369281052672.
Proof. reflexivity. Qed.

(** Strings without a colon, joined and taken apart. *)
Lemma split_three (path a b c : string) :
  split ch_colon path = [a; b; c] <->
  path = join ":" [a; b; c] /\ Forall (fun s => contains_char ch_colon s = false) [a; b; c].
Proof.
  split.
  - intros H. pose proof (join_split ch_colon path) as E. rewrite H in E. split; [by rewrite <- E|].
    rewrite <- H. apply split_parts.
  - intros [-> Hf]. by apply (split_join ch_colon).
Qed.

Definition cgroups_path (opts : CreateOpts) : string :=
  match specs.s_Linux (opt_Spec opts) with Some l => specs.CgroupsPath l | None => "" end.

Lemma CleanPath_names (p : string) :
  p <> "" -> exists names, Forall good names /\ CleanPath p = render (IsAbs p) names.
Proof.
  intros Hp. unfold CleanPath. rewrite bool_decide_eq_false_2, IsAbs_Clean by done. destruct (IsAbs p) eqn:Ha; cbn [negb].
  - rewrite Clean_idemp, Clean_abs by done. exists (comps true p). split; [|done]. apply norm_true_good, comps_norm.
  - set (q := slash +:+ Clean p). assert (IsAbs q = true) as Hq by apply has_prefix_app. rewrite (Clean_abs q) by done.
    set (names := comps true q). assert (Forall good names) as Hg by apply norm_true_good, comps_norm. exists names. split; [done|].
    assert (norm true names) as Hn by apply comps_norm. unfold Rel. rewrite (Clean_render true) by done.
    change (Clean slash) with (render true []). destruct (decide (names = [])) as [->|Hne]; [by rewrite bool_decide_eq_true_2|].
    rewrite (bool_decide_eq_false_2 (render true names = _)).
    2: { intros E. apply (f_equal elements_of) in E. by rewrite !elements_render in E. }
    rewrite (bool_decide_eq_false_2 (render true [] = ".")) by done. rewrite (IsAbs_render true names) by done.
    change (negb _) with false. rewrite !elements_render by done. cbn [strip_common head length replicate app].
    rewrite bool_decide_eq_false_2 by done.
    assert (norm false names) as Hn' by (exists 0%nat, names; done).
    replace (join slash names) with (render false names) by (unfold render; by rewrite bool_decide_eq_false_2). by apply Clean_render.
Qed.

(** The name of the cgroup.  For systemd the path of the specification is exactly
    slice:prefix:name, with no colon inside the parts, and any other path is refused; for
    cgroupfs the path stays inside every hierarchy, whatever it holds of "..". *)
Theorem cgroup_names_spec (opts : CreateOpts) :
  let path := cgroups_path opts in
  if UseSystemdCgroup opts then
    path <> "" -> forall slice prefix name rest,
    cgroup_names opts = Ok (slice, prefix, name, rest) <->
    rest = "" /\ path = join ":" [slice; prefix; name] /\ Forall (fun s => contains_char ch_colon s = false) [slice; prefix; name]
  else
    exists name p, cgroup_names opts = Ok ("", "", name, p) /\ (path = "" <-> p = "") /\ (name = "" \/ name = CgroupName opts) /\
      (p <> "" -> forall root, IsAbs root = true -> below root (Join [root; p])).
Proof.
  unfold cgroup_names. fold (cgroups_path opts). destruct (UseSystemdCgroup opts).
  - intros Hne slice prefix name rest. rewrite bool_decide_eq_false_2 by done. rewrite <- split_three.
    destruct (split ch_colon (cgroups_path opts)) as [|x [|y [|z [|]]]]; naive_solver.
  - destruct (bool_decide_reflect (cgroups_path opts = "")) as [Hp|Hp].
    + exists (CgroupName opts), "". rewrite (bool_decide_eq_true_2 (_ = _)) by done. split_and!; [done|done|by right|done].
    + destruct (CleanPath_names (cgroups_path opts) Hp) as (names & Hg & E).
      assert (CleanPath (cgroups_path opts) <> "") as Hne.
      { rewrite E. apply render_not_empty. exists 0%nat, names. done. }
      rewrite bool_decide_eq_false_2 by done. exists "", (CleanPath (cgroups_path opts)). split_and!; [done|by split; intros ?; [destruct Hp|destruct Hne]|by left|].
      intros _ root Hr. exists names. split; [done|]. rewrite E. by apply Join_cleaned.
Qed.

(** ** A concrete specification *)

Definition wit_parse (s : string) : result configs.Variant := Ok (configs.VUint32 90).
Definition wit_float (f : spec_float) : Z := 0.

(** A container that denies all devices, with its own namespaces. *)
Definition wit_linux (nss : list specs.LinuxNamespace) (maps : list specs.LinuxIDMapping) : specs.Linux :=
  specs.mkLinux maps maps [] (Some (specs.mkLinuxResources [specs.mkDeviceCgroup false "" None None "rwm"] None None None None [] None [] []))
    "" nss [specs.mkLinuxDevice "/dev/full" "c" 1 7 None None None] (Some wit_seccomp_spec) "" [] [] "" None.
Definition wit_spec (nss : list specs.LinuxNamespace) (maps : list specs.LinuxIDMapping) : specs.Spec :=
  specs.mkSpec None (Some (specs.mkRoot "rootfs" true)) "" [] None ∅ (Some (wit_linux nss maps)).
Definition wit_opts (nss : list specs.LinuxNamespace) (maps : list specs.LinuxIDMapping) : CreateOpts :=
  mkOpts "c1" false false false (wit_spec nss maps) false false.
Definition wit_user : CreateOpts :=
  wit_opts [specs.mkLinuxNamespace "user" ""; specs.mkLinuxNamespace "network" ""] [specs.mkIDMapping 0 100000 65536].
Definition wit_plain : CreateOpts := wit_opts [specs.mkLinuxNamespace "mount" ""] [].
Definition wit_convert (heap : list Device) (opts : CreateOpts) : list Device * result configs.Config :=
  CreateLibcontainerConfig wit_parse wit_float map_to_list map_to_list (Ok "/bundle") heap opts.

(** The results of a conversion, for the witnesses. *)
Definition get_config (heap : list Device) (opts : CreateOpts) : configs.Config :=
  match (wit_convert heap opts).2 with
  | Ok cfg => cfg
  | Err _ => configs.mkConf (configs.mkBase "" false false "" [] false false false [] [])
               (configs.mkCg "" "" "" "" emptyResources false [] false None) no_linux no_process ∅ ""
  end.
Lemma wit_converts (opts : CreateOpts) :
  is_ok (wit_convert AllowedDevices opts).2 = true ->
  wit_convert AllowedDevices opts = ((wit_convert AllowedDevices opts).1, Ok (get_config AllowedDevices opts)).
Proof. unfold get_config. by destruct (wit_convert AllowedDevices opts) as [h [c|]]. Qed.

Lemma default_devices_usable_witness :
  exists e, apply_rules emptyEmulator (configs.Devices (configs.cg_Resources (configs.Cgroups (get_config AllowedDevices wit_user)))) = Ok e /\
    emu_decision e (mkRequest CharDevice 1 3 6) = true.
Proof.
  eexists. split; [vm_compute; reflexivity|].
  eapply (default_devices_usable wit_parse wit_float map_to_list map_to_list (Ok "/bundle") AllowedDevices wit_user _ _ (char_node "/dev/null" 1 3)).
  - exact heap_initial.
  - apply wit_converts. vm_compute. reflexivity.
  - do 2 right. left.
  - discriminate.
  - intros sd H. apply list_elem_of_singleton in H. rewrite H. discriminate.
  - vm_compute. reflexivity.
  - discriminate.
  - reflexivity.
Defined.

Lemma conversions_keep_defaults_witness :
  heap_ok (fold_left (fun h opts => (wit_convert h opts).1) [wit_user; wit_plain] AllowedDevices).
Proof. apply (conversions_keep_defaults wit_parse wit_float). exact heap_initial. Defined.

Lemma namespaces_converted_witness :
  let cfg := get_config AllowedDevices wit_user in
  configs.Networks (configs.linux cfg) = ["loopback"] /\ check_network (checked cfg) = Ok tt.
Proof.
  destruct (namespaces_converted wit_parse wit_float map_to_list map_to_list (Ok "/bundle") AllowedDevices wit_user
              (wit_convert AllowedDevices wit_user).1 (get_config AllowedDevices wit_user)
              (wit_linux [specs.mkLinuxNamespace "user" ""; specs.mkLinuxNamespace "network" ""] [specs.mkIDMapping 0 100000 65536]))
    as (_ & _ & Hn & Hc & _); [apply wit_converts; vm_compute; reflexivity|reflexivity|].
  split; [|exact Hc]. rewrite Hn. vm_compute. reflexivity.
Defined.

Lemma userns_devices_owned_witness :
  exists u, HostRootUID (checked (get_config AllowedDevices wit_user)) = Ok u /\
    Uid (deref (wit_convert AllowedDevices wit_user).1 2) = uint32 u.
Proof.
  destruct (userns_devices_owned wit_parse wit_float map_to_list map_to_list (Ok "/bundle") AllowedDevices wit_user
              (wit_convert AllowedDevices wit_user).1 (get_config AllowedDevices wit_user) 2) as (u & g & Hu & _ & H & _).
  - exact heap_initial.
  - apply wit_converts. vm_compute. reflexivity.
  - vm_compute. reflexivity.
  - vm_compute. left.
  - exists u. split; [exact Hu|exact H].
Defined.

(** ** Oddities *)

(** The default devices are shared: after a container with a user namespace, a container
    without one gets device nodes that belong to the root of the first. *)
Lemma default_devices_shared :
  let first := (wit_convert AllowedDevices wit_user).1 in
  let '(heap, cfg) := wit_convert first wit_plain in
  is_ok cfg = true /\ Path (deref heap 2) = "/dev/null" /\ Uid (deref heap 2) = 100000.
Proof. vm_compute. by repeat split. Qed.

(** A property named Sec panics: there is no letter before the suffix. *)
Lemma sec_property_panics (v : string) (value : configs.Variant) :
  wit_parse v = Ok value -> systemd_prop wit_parse wit_float "org.systemd.property.Sec" v = Err ErrPropertyPanic.
Proof. intros _. vm_compute. reflexivity. Qed.

(** mount_setattr wants all of the access time bits in the mask to clear, or none; an
    option that only clears one of them gives a mask it refuses. *)
Lemma ratime_mask_partial :
  forall o, In o ["ratime"; "rnostrictatime"] ->
  exists a, configs.RecAttr (parseMountOptions [o]) = Some a /\
    Z.land (configs.Attr_clr a) MOUNT_ATTR__ATIME <> 0 /\ Z.land (configs.Attr_clr a) MOUNT_ATTR__ATIME <> MOUNT_ATTR__ATIME.
Proof. intros o [<-|[<-|[]]]; eexists; (split; [reflexivity|]); split; vm_compute; discriminate. Qed.
