(* ===== verification/CgroupFiles.v ===== *)
(** * The files of a cgroup: cgroups/file.go, cgroups/utils.go and cgroups/fscommon

    [CgroupFs] is the part of the system that the cgroup code talks to: opening, reading
    and writing the files of a cgroup, creating and removing its directory.  An open file
    is named by its path.  Each call may change the world and may fail.  An error of the
    [os] package is its errno.  [cgroups] and [fscommon] are the two Go packages that read
    and write single values: the parsers of numbers, of "key value" lines and of RDMA
    entries, joining a cgroup, and removing one. *)

From S2P Require Import Prelude GoAct GoStrings GoPath GoFs Configs DeviceEmulator UserDb Bpf DeviceFilter ContainerState Freezer SpecTypes.

Open Scope string_scope.
Open Scope list_scope.
#[local] Open Scope Z_scope.

(** ** The system *)

Definition EINVAL : error := ErrNew "invalid argument".
Definition EBUSY : error := ErrNew "device or resource busy".
Definition ENOTSUP : error := ErrNew "operation not supported".
Definition EPERM : error := ErrNew "operation not permitted".
Definition EACCES : error := ErrNew "permission denied".
Definition EROFS : error := ErrNew "read-only file system".
(** [os.IsExist(err)], [errors.Is(err, os.ErrPermission)] *)
Definition os_IsExist (e : error) : bool := bool_decide (e = ErrExist).
Definition is_permission (e : error) : bool := errors_is e EACCES || errors_is e EPERM.

Inductive OpenFlags := O_RDONLY | O_WRONLY | O_RDWR.
(** What [statfs] says a directory is on. *)
Inductive FsType := CGROUP_SUPER | CGROUP2_SUPER | OTHER_SUPER.
#[global] Instance FsType_eq_dec : EqDecision FsType.
Proof. solve_decision. Defined.

(** [sys_write] is one write, tried again while it is interrupted; [sys_read] reads an open
    file from its beginning; [sys_readdir] lists names and whether they are directories. *)
Class CgroupFs (W : Type) := {
  sys_open : string -> OpenFlags -> Act W unit;
  sys_write : string -> string -> Act W unit;
  sys_read : string -> Act W string;
  sys_stat : string -> Act W unit;
  sys_statfs : string -> Act W FsType;
  sys_mkdir : string -> Act W unit;
  sys_mkdirall : string -> Act W unit;
  sys_rmdir : string -> Act W unit;
  sys_readdir : string -> Act W (list (string * bool));
  sys_sleep : Act W unit;
  sys_attach_filter : list insn -> string -> string -> Act W unit }.

Definition max_uint64 : Z := 2 ^ 64 - 1.
Definition max_int64 : Z := 2 ^ 63 - 1.

(** The lines of a [bufio.Scanner], and its error: a line that is too long ends the scan. *)
Fixpoint before_long (lines : list string) : list string * option error :=
  match lines with
  | [] => ([], None)
  | l :: ls => if too_long l then ([], Some ErrTooLong) else let '(out, e) := before_long ls in (l :: out, e)
  end.
Definition Scanner (text : result string) : list string * option error :=
  match text with Ok t => before_long (scan_lines t) | Err e => ([], Some e) end.

(** ** Statistics: cgroups/stats.go *)
Module stats.
Record ThrottlingData := mkThrottling { Periods : Z; ThrottledPeriods : Z; ThrottledTime : Z }.
Record CpuUsage := mkCpuUsage {
  TotalUsage : Z; PercpuUsage : list Z; PercpuUsageInKernelmode : list Z; PercpuUsageInUsermode : list Z;
  UsageInKernelmode : Z; UsageInUsermode : Z }.
Record CpuStats := mkCpuStats { CpuUsage_ : CpuUsage; ThrottlingData_ : ThrottlingData }.
Record CPUSetStats := mkCPUSetStats {
  CPUs : list Z; CPUExclusive : Z; Mems : list Z; MemHardwall : Z; MemExclusive : Z; MemoryMigrate : Z;
  MemorySpreadPage : Z; MemorySpreadSlab : Z; MemoryPressure : Z; SchedLoadBalance : Z; SchedRelaxDomainLevel : Z }.
Record MemoryData := mkMemoryData { Usage : Z; MaxUsage : Z; Failcnt : Z; Limit : Z }.
Record PageStats := mkPageStats { Total : Z; Nodes : gmap Z Z }.
Record PageUsageByNUMAInner := mkNUMAInner { n_Total : PageStats; n_File : PageStats; n_Anon : PageStats; n_Unevictable : PageStats }.
Record PageUsageByNUMA := mkNUMA { Inner : PageUsageByNUMAInner; Hierarchical : PageUsageByNUMAInner }.
Record MemoryStats := mkMemoryStats {
  Cache : Z; m_Usage : MemoryData; SwapUsage : MemoryData; KernelUsage : MemoryData; KernelTCPUsage : MemoryData;
  PageUsageByNUMA_ : PageUsageByNUMA; UseHierarchy : bool; m_Stats : gmap string Z }.
Record PidsStats := mkPidsStats { Current : Z; p_Limit : Z }.
Record BlkioStatEntry := mkBlkioEntry { b_Major : Z; b_Minor : Z; Op : string; Value : Z }.
Record BlkioStats := mkBlkioStats {
  IoServiceBytesRecursive : list BlkioStatEntry; IoServicedRecursive : list BlkioStatEntry;
  IoQueuedRecursive : list BlkioStatEntry; IoServiceTimeRecursive : list BlkioStatEntry;
  IoWaitTimeRecursive : list BlkioStatEntry; IoMergedRecursive : list BlkioStatEntry;
  IoTimeRecursive : list BlkioStatEntry; SectorsRecursive : list BlkioStatEntry }.
Record HugetlbStats := mkHugetlbStats { h_Usage : Z; h_MaxUsage : Z; h_Failcnt : Z }.
Record RdmaEntry := mkRdmaEntry { Device : string; HcaHandles : Z; HcaObjects : Z }.
Record RdmaStats := mkRdmaStats { RdmaLimit : list RdmaEntry; RdmaCurrent : list RdmaEntry }.
Record Stats := mkStats {
  CpuStats_ : CpuStats; CPUSetStats_ : CPUSetStats; MemoryStats_ : MemoryStats; PidsStats_ : PidsStats;
  BlkioStats_ : BlkioStats; HugetlbStats_ : gmap string HugetlbStats; RdmaStats_ : RdmaStats }.

Definition zeroMemoryData : MemoryData := mkMemoryData 0 0 0 0.
Definition zeroNUMA : PageUsageByNUMA :=
  let p := mkPageStats 0 ∅ in let i := mkNUMAInner p p p p in mkNUMA i i.
Definition NewStats : Stats :=
  mkStats (mkCpuStats (mkCpuUsage 0 [] [] [] 0 0) (mkThrottling 0 0 0)) (mkCPUSetStats [] 0 [] 0 0 0 0 0 0 0 0)
    (mkMemoryStats 0 zeroMemoryData zeroMemoryData zeroMemoryData zeroMemoryData zeroNUMA false ∅) (mkPidsStats 0 0)
    (mkBlkioStats [] [] [] [] [] [] [] []) ∅ (mkRdmaStats [] []).

Definition on_cpu (f : CpuStats -> CpuStats) (s : Stats) : Stats :=
  mkStats (f (CpuStats_ s)) (CPUSetStats_ s) (MemoryStats_ s) (PidsStats_ s) (BlkioStats_ s) (HugetlbStats_ s) (RdmaStats_ s).
Definition on_cpuset (f : CPUSetStats -> CPUSetStats) (s : Stats) : Stats :=
  mkStats (CpuStats_ s) (f (CPUSetStats_ s)) (MemoryStats_ s) (PidsStats_ s) (BlkioStats_ s) (HugetlbStats_ s) (RdmaStats_ s).
Definition on_memory (f : MemoryStats -> MemoryStats) (s : Stats) : Stats :=
  mkStats (CpuStats_ s) (CPUSetStats_ s) (f (MemoryStats_ s)) (PidsStats_ s) (BlkioStats_ s) (HugetlbStats_ s) (RdmaStats_ s).
Definition set_pids (p : PidsStats) (s : Stats) : Stats :=
  mkStats (CpuStats_ s) (CPUSetStats_ s) (MemoryStats_ s) p (BlkioStats_ s) (HugetlbStats_ s) (RdmaStats_ s).
Definition on_blkio (f : BlkioStats -> BlkioStats) (s : Stats) : Stats :=
  mkStats (CpuStats_ s) (CPUSetStats_ s) (MemoryStats_ s) (PidsStats_ s) (f (BlkioStats_ s)) (HugetlbStats_ s) (RdmaStats_ s).
Definition put_hugetlb (size : string) (h : HugetlbStats) (s : Stats) : Stats :=
  mkStats (CpuStats_ s) (CPUSetStats_ s) (MemoryStats_ s) (PidsStats_ s) (BlkioStats_ s) (<[size:=h]> (HugetlbStats_ s)) (RdmaStats_ s).
Definition set_rdma (r : RdmaStats) (s : Stats) : Stats :=
  mkStats (CpuStats_ s) (CPUSetStats_ s) (MemoryStats_ s) (PidsStats_ s) (BlkioStats_ s) (HugetlbStats_ s) r.

Definition set_throttling (t : ThrottlingData) (c : CpuStats) : CpuStats := mkCpuStats (CpuUsage_ c) t.
Definition set_usage (u : CpuUsage) (c : CpuStats) : CpuStats := mkCpuStats u (ThrottlingData_ c).
Definition put_stat (k : string) (v : Z) (m : MemoryStats) : MemoryStats :=
  mkMemoryStats (Cache m) (m_Usage m) (SwapUsage m) (KernelUsage m) (KernelTCPUsage m) (PageUsageByNUMA_ m) (UseHierarchy m)
    (<[k:=v]> (m_Stats m)).
Definition set_cache (c : Z) (m : MemoryStats) : MemoryStats :=
  mkMemoryStats c (m_Usage m) (SwapUsage m) (KernelUsage m) (KernelTCPUsage m) (PageUsageByNUMA_ m) (UseHierarchy m) (m_Stats m).
Definition set_m_usage (u : MemoryData) (m : MemoryStats) : MemoryStats :=
  mkMemoryStats (Cache m) u (SwapUsage m) (KernelUsage m) (KernelTCPUsage m) (PageUsageByNUMA_ m) (UseHierarchy m) (m_Stats m).
Definition set_swap (u : MemoryData) (m : MemoryStats) : MemoryStats :=
  mkMemoryStats (Cache m) (m_Usage m) u (KernelUsage m) (KernelTCPUsage m) (PageUsageByNUMA_ m) (UseHierarchy m) (m_Stats m).
Definition set_kernel (u : MemoryData) (m : MemoryStats) : MemoryStats :=
  mkMemoryStats (Cache m) (m_Usage m) (SwapUsage m) u (KernelTCPUsage m) (PageUsageByNUMA_ m) (UseHierarchy m) (m_Stats m).
Definition set_kernel_tcp (u : MemoryData) (m : MemoryStats) : MemoryStats :=
  mkMemoryStats (Cache m) (m_Usage m) (SwapUsage m) (KernelUsage m) u (PageUsageByNUMA_ m) (UseHierarchy m) (m_Stats m).
Definition set_numa (n : PageUsageByNUMA) (m : MemoryStats) : MemoryStats :=
  mkMemoryStats (Cache m) (m_Usage m) (SwapUsage m) (KernelUsage m) (KernelTCPUsage m) n (UseHierarchy m) (m_Stats m).
Definition set_hierarchy (b : bool) (m : MemoryStats) : MemoryStats :=
  mkMemoryStats (Cache m) (m_Usage m) (SwapUsage m) (KernelUsage m) (KernelTCPUsage m) (PageUsageByNUMA_ m) b (m_Stats m).
End stats.

(** ** The package cgroups *)
Module cgroups.
Section cgroups.
Context {W : Type} `{CgroupFs W}.

Definition OpenFile (dir file : string) (flags : OpenFlags) : Act W string :=
  if bool_decide (dir = "") then throw (ErrNew "no directory specified") else
  let path := Join [dir; file] in
  _ ← sys_open path flags; mret path.

Definition ReadFile (dir file : string) : Act W string :=
  fd ← OpenFile dir file O_RDONLY; sys_read fd.

Definition WriteFile (dir file data : string) : Act W unit :=
  fd ← OpenFile dir file O_WRONLY; wrapping "failed to write" (sys_write fd data).

(** The lines of a file opened for reading, with the error that ended the scan. *)
Definition scan_file (dir file : string) : Act W (list string * option error) :=
  fd ← OpenFile dir file O_RDONLY; text ← try_ (sys_read fd); mret (Scanner text).

Definition CgroupProcesses : string := "cgroup.procs".

Definition PathExists (path : string) : Act W bool := r ← try_ (sys_stat path); mret (is_ok r).

(** [readProcsFile] *)
Fixpoint parse_pids (lines : list string) : result (list Z) :=
  match lines with
  | [] => Ok []
  | t :: ls => if bool_decide (t = "") then parse_pids ls else
               match atoi t with
               | (_, Some e) => Err e
               | (pid, None) => pids ← parse_pids ls; Ok (pid :: pids)
               end
  end.
Definition readProcsFile (dir : string) : Act W (list Z) :=
  ls ← scan_file dir CgroupProcesses;
  pids ← lift (parse_pids ls.1);
  match ls.2 with Some e => throw e | None => mret pids end.
Definition GetPids (dir : string) : Act W (list Z) := readProcsFile dir.

(** [GetAllPids]: the walk visits a directory before its children, down to [depth] levels. *)
Section walk.
Context (walk : string -> Act W (list Z)) (path : string).
Fixpoint walk_subs (infos : list (string * bool)) : Act W (list Z) :=
  match infos with
  | [] => mret []
  | (name, true) :: l => a ← walk (Join [path; name]); b ← walk_subs l; mret (a ++ b)
  | (_, false) :: l => walk_subs l
  end.
End walk.
Fixpoint walk_pids (depth : nat) (path : string) : Act W (list Z) :=
  match depth with
  | O => throw (ErrNew "cgroup tree too deep")
  | S d => own ← readProcsFile path; infos ← sys_readdir path; rest ← walk_subs (walk_pids d) path infos; mret (own ++ rest)
  end.
Definition GetAllPids (depth : nat) (path : string) : Act W (list Z) := _ ← sys_stat path; walk_pids depth path.

(** The loop of [WriteCgroupProc]: [n] tries are left; [last] is the error of the try before. *)
Fixpoint write_pid (fd pid : string) (n : nat) (last : error) : Act W unit :=
  match n with
  | O => throw last
  | S n' =>
      r ← try_ (sys_write fd pid);
      match r with
      | Ok _ => mret tt
      | Err e => if errors_is e EINVAL then _ ← sys_sleep; write_pid fd pid n' e
                 else throw (ErrWrap "failed to write" e)
      end
  end.

Definition WriteCgroupProc (dir : string) (pid : Z) : Act W unit :=
  if bool_decide (dir = "") then throw (ErrNew "no such directory for cgroup.procs") else
  if pid =? -1 then mret tt else
  fd ← wrapping "failed to write" (OpenFile dir CgroupProcesses O_WRONLY);
  write_pid fd (format_int pid) 5 EINVAL.

Definition EnterPid (cgroupPaths : list string) (pid : Z) : Act W unit :=
  for_each (fun path => there ← PathExists path; if there : bool then WriteCgroupProc path pid else mret tt) cgroupPaths.

Definition rmdir (path : string) : Act W unit :=
  r ← try_ (sys_rmdir path);
  match r with
  | Ok _ => mret tt
  | Err e => if bool_decide (e = ErrNotExist) then mret tt else throw e
  end.

(** [RemovePath], down to [depth] levels; [remove_subs] is its loop over the entries. *)
Section remove.
Context (remove : string -> Act W unit) (path : string).
Fixpoint remove_subs (infos : list (string * bool)) : Act W unit :=
  match infos with
  | [] => mret tt
  | (name, true) :: l => _ ← remove (Join [path; name]); remove_subs l
  | (_, false) :: l => remove_subs l
  end.
End remove.
Fixpoint RemovePath (depth : nat) (path : string) : Act W unit :=
  match depth with
  | O => throw (ErrNew "cgroup tree too deep")
  | S d =>
      r ← try_ (rmdir path);
      match r with
      | Ok _ => mret tt
      | Err _ =>
          infos ← try_ (sys_readdir path);
          match infos with
          | Err e => if os_IsNotExist e then mret tt else throw e
          | Ok l => _ ← remove_subs (RemovePath d) path l; rmdir path
          end
      end
  end.

(** [RemovePaths]: the paths that are left after one round, and the rounds. *)
Fixpoint remove_round (depth : nat) (paths : list (string * string)) : Act W (list (string * string)) :=
  match paths with
  | [] => mret []
  | (s, p) :: l =>
      _ ← try_ (RemovePath depth p);
      st ← try_ (sys_stat p);
      rest ← remove_round depth l;
      mret (match st with Err e => if os_IsNotExist e then rest else (s, p) :: rest | Ok _ => (s, p) :: rest end)
  end.
Fixpoint remove_rounds (depth : nat) (retries : nat) (first : bool) (paths : list (string * string)) : Act W (list (string * string)) :=
  match retries with
  | O => mret paths
  | S n =>
      _ ← (if first then mret tt else sys_sleep);
      left ← remove_round depth paths;
      if bool_decide (left = []) then mret [] else remove_rounds depth n false left
  end.
(** The paths that are left in the map: an error when there are any. *)
Definition RemovePaths (depth : nat) (paths : list (string * string)) : Act W (list (string * string)) :=
  remove_rounds depth 5 true paths.
End cgroups.

(** [strings.SplitN(line, ":", 3)] of each line of /proc/self/cgroup: the last line that names a subsystem counts. *)
Fixpoint parse_cgroup_lines (lines : list string) (cgroups : gmap string string) : result (gmap string string) :=
  match lines with
  | [] => Ok cgroups
  | text :: ls =>
      match split_n ch_colon 3 text with
      | [_; subs; path] => parse_cgroup_lines ls (fold_left (fun m s => <[s:=path]> m) (split ch_comma subs) cgroups)
      | _ => Err (ErrNew "invalid cgroup entry: must contain at least two colons")
      end
  end.
Definition parseCgroupFromReader (r : result string) : result (gmap string string) :=
  let '(lines, e) := Scanner r in
  m ← parse_cgroup_lines lines ∅;
  match e with Some e => Err e | None => Ok m end.

(** Page sizes in the notation of the hugetlb files. *)
Definition page_size_name (val : string) (size : Z) : string :=
  if 2 ^ 20 <=? size then format_int (Z.shiftr size 20) +:+ "GB"
  else if 2 ^ 10 <=? size then format_int (Z.shiftr size 10) +:+ "MB"
  else val +:+ "KB".
(** The sizes, and the first warning. *)
Fixpoint getHugePageSizeFromFilenames (fileNames : list string) : list string * option error :=
  match fileNames with
  | [] => ([], None)
  | file :: l =>
      let '(sizes, warn) := getHugePageSizeFromFilenames l in
      let val := trim_prefix file "hugepages-" in
      if (String.length val =? String.length file)%nat then (sizes, warn) else
      let val' := trim_suffix val "kB" in
      if negb (Z.of_nat (String.length val') =? Z.of_nat (String.length val) - 2)
      then (sizes, Some (ErrNew "invalid suffix (expected kB)"))
      else match atoi val' with
           | (_, Some e) => (sizes, Some (ErrWrap "hugepages" e))
           | (size, None) => (page_size_name val' size :: sizes, warn)
           end
  end.
(** [HugePageSizes]: the names under /sys/kernel/mm/hugepages, read once. *)
Definition HugePageSizes (files : result (list string)) : list string :=
  match files with Ok l => fst (getHugePageSizeFromFilenames l) | Err _ => [] end.

Definition ConvertBlkIOToIOWeightValue (blkIoWeight : Z) : Z :=
  if blkIoWeight =? 0 then 0 else uint64 (1 + uint64 (uint64 (blkIoWeight - 10) * 9999) / 990).
End cgroups.

(** ** The package fscommon *)
Module fscommon.

Definition ErrRange_strconv : error := ErrNew "value out of range".
Definition ParseError (e : error) : error := ErrWrap "unable to parse" e.

(** Negative numbers count as zero. *)
Definition ParseUint (s : string) : result Z :=
  match parse_uint 64 s with
  | Ok v => Ok v
  | Err e =>
      let '(intValue, intErr) := atoi s in
      match intErr with
      | None => if intValue <? 0 then Ok 0 else Err e
      | Some ie => if errors_is ie ErrRange_strconv && (intValue <? 0) then Ok 0 else Err e
      end
  end.

Definition ParseKeyValue (t : string) : result (string * Z) :=
  match split_n ch_space 3 t with
  | [key; val] => v ← ParseUint val; Ok (key, v)
  | _ => Err (ErrNew "line is not in key value format")
  end.

Fixpoint find_key (key : string) (lines : list string) : result Z :=
  match lines with
  | [] => Ok 0
  | line :: ls =>
      match split ch_space line with
      | [k; v] => if bool_decide (k = key) then match ParseUint v with Ok n => Ok n | Err e => Err (ParseError e) end
                  else find_key key ls
      | _ => find_key key ls
      end
  end.

Section fscommon.
Context {W : Type} `{CgroupFs W}.

Definition GetValueByKey (path file key : string) : Act W Z :=
  content ← cgroups.ReadFile path file; lift (find_key key (split ch_newline content)).

Definition GetCgroupParamString (path file : string) : Act W string :=
  contents ← cgroups.ReadFile path file; mret (trim_space contents).

Definition parse_param_uint (contents : string) : result Z :=
  let contents := trim_space contents in
  if bool_decide (contents = "max") then Ok max_uint64 else wrap_err "unable to parse" (ParseUint contents).
Definition GetCgroupParamUint (path file : string) : Act W Z :=
  contents ← GetCgroupParamString path file; lift (parse_param_uint contents).

Definition parse_param_int (contents : string) : result Z :=
  let contents := trim_space contents in
  if bool_decide (contents = "max") then Ok max_int64 else
  match atoi contents with (_, Some e) => Err (ParseError e) | (v, None) => Ok v end.
Definition GetCgroupParamInt (path file : string) : Act W Z :=
  contents ← cgroups.ReadFile path file; lift (parse_param_int contents).
End fscommon.

(** *** RDMA *)
Definition ch_equal : ascii := chr 61.
Definition parseRdmaKV (raw : string) (entry : stats.RdmaEntry) : result stats.RdmaEntry :=
  match split_n ch_equal 3 raw with
  | [k; v] =>
      value ← (if bool_decide (v = "max") then Ok max_uint32 else parse_uint 32 v);
      Ok (if bool_decide (k = "hca_handle") then stats.mkRdmaEntry (stats.Device entry) value (stats.HcaObjects entry)
          else if bool_decide (k = "hca_object") then stats.mkRdmaEntry (stats.Device entry) (stats.HcaHandles entry) value
          else entry)
  | _ => Err (ErrNew "Unable to parse RDMA entry")
  end.

(** A line of rdma.current or rdma.max: lines that do not parse are skipped. *)
Definition parse_rdma_line (line : string) : option stats.RdmaEntry :=
  match split_n ch_space 4 line with
  | [dev; a; b] => match (e ← parseRdmaKV a (stats.mkRdmaEntry dev 0 0); parseRdmaKV b e) with Ok e => Some e | Err _ => None end
  | _ => None
  end.

Definition createCmdString (device : string) (limits : configs.LinuxRdma) : string :=
  device
  +:+ match configs.HcaHandles limits with Some h => " hca_handle=" +:+ format_int h | None => "" end
  +:+ match configs.HcaObjects limits with Some o => " hca_object=" +:+ format_int o | None => "" end.

Section rdma.
Context {W : Type} `{CgroupFs W}.

Definition readRdmaEntries (dir file : string) : Act W (list stats.RdmaEntry) :=
  ls ← cgroups.scan_file dir file;
  match ls.2 with Some e => throw e | None => mret (omap parse_rdma_line ls.1) end.

(** The limits and the current values; [None] leaves the statistics as they are. *)
Definition RdmaGetStats (path : string) : Act W (option (list stats.RdmaEntry * list stats.RdmaEntry)) :=
  cur ← try_ (readRdmaEntries path "rdma.current");
  match cur with
  | Err e => if errors_is e ErrNotExist then mret None else throw e
  | Ok currentEntries =>
      maxEntries ← readRdmaEntries path "rdma.max";
      mret (if (length currentEntries =? length maxEntries)%nat then Some (maxEntries, currentEntries) else None)
  end.

Definition RdmaSet (path : string) (r : configs.Resources) : Act W unit :=
  for_each (fun dl => cgroups.WriteFile path "rdma.max" (createCmdString dl.1 dl.2)) (default [] (configs.Rdma r)).
End rdma.
End fscommon.
