(* ===== verification/CgroupV2.v ===== *)
(** * The cgroup v2 manager: cgroups/fs2

    One directory of the unified hierarchy.  [CreateCgroupPath] makes it, [Apply] puts a
    process in it, [Set_] writes the limits of a container into its files, the stat functions
    read its counters, and the freezer stops and resumes it. *)

From S2P Require Import Prelude GoAct GoStrings GoPath GoFs Devices Configs DeviceEmulator DeviceFilter UserDb Validator ContainerState Freezer SpecTypes CgroupFiles.

Open Scope string_scope.
Open Scope list_scope.
#[local] Open Scope Z_scope.

Module fs2.

Definition UnifiedMountpoint : string := "/sys/fs/cgroup".

(** ** Limits as text *)

Definition numToStr (value : Z) : string :=
  if value =? 0 then "" else if value =? -1 then "max" else format_int value.

Definition isPidsSet (r : configs.Resources) : bool := negb (configs.PidsLimit r =? 0).
Definition isMemorySet (r : configs.Resources) : bool :=
  negb (configs.MemoryReservation r =? 0) || negb (configs.Memory r =? 0) || negb (configs.MemorySwap r =? 0).
Definition isIoSet (r : configs.Resources) : bool :=
  negb (configs.BlkioWeight r =? 0) || (0 <? length (configs.BlkioWeightDevice r))%nat
  || (0 <? length (configs.BlkioThrottleReadBpsDevice r))%nat || (0 <? length (configs.BlkioThrottleWriteBpsDevice r))%nat
  || (0 <? length (configs.BlkioThrottleReadIOPSDevice r))%nat || (0 <? length (configs.BlkioThrottleWriteIOPSDevice r))%nat.
Definition isCpuSet (r : configs.Resources) : bool :=
  negb (configs.CpuWeight r =? 0) || negb (configs.CpuQuota r =? 0) || negb (configs.CpuPeriod r =? 0).
Definition isCpusetSet (r : configs.Resources) : bool :=
  negb (bool_decide (configs.CpusetCpus r = "")) || negb (bool_decide (configs.CpusetMems r = "")).
Definition isHugeTlbSet (r : configs.Resources) : bool := (0 <? length (configs.HugetlbLimit r))%nat.

Definition containsDomainController (r : configs.Resources) : bool :=
  isMemorySet r || isIoSet r || isCpuSet r || isHugeTlbSet r.

(** The strings of blkio_device.go. *)
Definition WeightString (wd : configs.WeightDevice) : string :=
  format_int (configs.wd_Major wd) +:+ ":" +:+ format_int (configs.wd_Minor wd) +:+ " " +:+ format_int (configs.Weight wd).
Definition LeafWeightString (wd : configs.WeightDevice) : string :=
  format_int (configs.wd_Major wd) +:+ ":" +:+ format_int (configs.wd_Minor wd) +:+ " " +:+ format_int (configs.LeafWeight wd).
Definition ThrottleString (td : configs.ThrottleDevice) : string :=
  format_int (configs.td_Major td) +:+ ":" +:+ format_int (configs.td_Minor td) +:+ " " +:+ format_int (configs.Rate td).
Definition StringName (td : configs.ThrottleDevice) (name : string) : string :=
  format_int (configs.td_Major td) +:+ ":" +:+ format_int (configs.td_Minor td) +:+ " " +:+ name +:+ "=" +:+ format_int (configs.Rate td).

(** What [fd.Read] leaves in a buffer of [n] zero bytes. *)
Fixpoint read_buf (n : nat) (content : string) : string :=
  match n, content with
  | O, _ => ""
  | S n', String c s => String c (read_buf n' s)
  | S n', EmptyString => String (chr 0) (read_buf n' "")
  end.

(** ** The path of a cgroup: defaultpath.go *)

Fixpoint own_cgroup (lines : list string) : option (result string) :=
  match lines with
  | [] => None
  | text :: ls =>
      match split_n ch_colon 3 text with
      | [id; subs; path] => if bool_decide (id = "0") && bool_decide (subs = "") then Some (Ok path) else own_cgroup ls
      | _ => Some (Err (ErrNew "invalid cgroup entry"))
      end
  end.
Definition parseCgroupFromReader (r : result string) : result string :=
  let '(lines, e) := Scanner r in
  match own_cgroup lines with
  | Some res => res
  | None => Err (match e with Some e => e | None => ErrNew "cgroup path not found" end)
  end.

(** [self] is the contents of /proc/self/cgroup. *)
Definition _defaultDirPath (self : result string) (root cgPath cgParent cgName : string) : result string :=
  if (negb (bool_decide (cgName = "")) || negb (bool_decide (cgParent = ""))) && negb (bool_decide (cgPath = ""))
  then Err (ErrNew "cgroup: either Path or Name and Parent should be used") else
  let innerPath := CleanPath cgPath in
  let innerPath := if bool_decide (innerPath = "") then Join [CleanPath cgParent; CleanPath cgName] else innerPath in
  if IsAbs innerPath then Ok (Join [root; innerPath]) else
  ownCgroup ← parseCgroupFromReader self;
  Ok (Join [root; Dir ownCgroup; innerPath]).
Definition defaultDirPath (self : result string) (c : configs.Cgroup) : result string :=
  if (negb (bool_decide (configs.Name c = "")) || negb (bool_decide (configs.Parent c = ""))) && negb (bool_decide (configs.cg_Path c = ""))
  then Err (ErrNew "cgroup: either Path or Name and Parent should be used, got") else
  _defaultDirPath self UnifiedMountpoint (configs.cg_Path c) (configs.Parent c) (configs.Name c).

(** ** Devices: devices.go *)

Definition isRWM (perms : Permissions) : bool :=
  contains_char "r" perms && contains_char "w" perms && contains_char "m" perms.
Definition canSkipEBPFError (runningInUserNS : bool) (r : configs.Resources) : bool :=
  runningInUserNS || forallb (fun dev => Allow dev && isRWM (Permissions_ dev)) (configs.Devices r).

Section ops.
Context {W : Type} `{CgroupFs W}.

Definition setDevices (runningInUserNS : bool) (dirPath : string) (r : configs.Resources) : Act W unit :=
  if configs.SkipDevices r then mret tt else
  prog ← lift (DeviceFilter (configs.Devices r));
  dir ← try_ (sys_open dirPath O_RDONLY);
  match dir with
  | Err _ => throw (ErrNew "cannot get dir FD")
  | Ok _ =>
      res ← try_ (sys_attach_filter prog.1 prog.2 dirPath);
      match res with
      | Err e => if negb (canSkipEBPFError runningInUserNS r) then throw e else mret tt
      | Ok _ => mret tt
      end
  end.

(** ** Setting limits *)

Definition write_num (dirPath file : string) (value : Z) : Act W unit :=
  let val := numToStr value in if bool_decide (val = "") then mret tt else cgroups.WriteFile dirPath file val.
Definition write_str (dirPath file text : string) : Act W unit :=
  if bool_decide (text = "") then mret tt else cgroups.WriteFile dirPath file text.

Definition setPids (dirPath : string) (r : configs.Resources) : Act W unit :=
  if negb (isPidsSet r) then mret tt else write_num dirPath "pids.max" (configs.PidsLimit r).

Definition setMemory (dirPath : string) (r : configs.Resources) : Act W unit :=
  if negb (isMemorySet r) then mret tt else
  swap ← lift (ConvertMemorySwapToCgroupV2Value (configs.MemorySwap r) (configs.Memory r));
  let swapStr := numToStr swap in
  let swapStr := if bool_decide (swapStr = "") && (swap =? 0) && (0 <? configs.MemorySwap r) then "0" else swapStr in
  _ ← write_str dirPath "memory.swap.max" swapStr;
  _ ← write_num dirPath "memory.max" (configs.Memory r);
  write_num dirPath "memory.low" (configs.MemoryReservation r).

Definition setCpu (dirPath : string) (r : configs.Resources) : Act W unit :=
  if negb (isCpuSet r) then mret tt else
  _ ← (if negb (configs.CpuWeight r =? 0) then cgroups.WriteFile dirPath "cpu.weight" (format_int (configs.CpuWeight r)) else mret tt);
  if negb (configs.CpuQuota r =? 0) || negb (configs.CpuPeriod r =? 0) then
    let str := if 0 <? configs.CpuQuota r then format_int (configs.CpuQuota r) else "max" in
    let period := if configs.CpuPeriod r =? 0 then 100000 else configs.CpuPeriod r in
    cgroups.WriteFile dirPath "cpu.max" (str +:+ " " +:+ format_int period)
  else mret tt.

Definition setCpuset (dirPath : string) (r : configs.Resources) : Act W unit :=
  if negb (isCpusetSet r) then mret tt else
  _ ← write_str dirPath "cpuset.cpus" (configs.CpusetCpus r);
  write_str dirPath "cpuset.mems" (configs.CpusetMems r).

Definition setHugeTlb (dirPath : string) (r : configs.Resources) : Act W unit :=
  if negb (isHugeTlbSet r) then mret tt else
  for_each (fun h => cgroups.WriteFile dirPath ("hugetlb." +:+ configs.Pagesize h +:+ ".max") (format_int (configs.Limit h)))
    (configs.HugetlbLimit r).

(** [bfq] is the open file, if there is one. *)
Definition bfqDeviceWeightSupported (bfq : option string) : Act W bool :=
  match bfq with
  | None => mret false
  | Some fd =>
      r ← try_ (sys_read fd);
      let buf := read_buf 32 (match r with Ok s => s | Err _ => "" end) in
      mret (match atoi (trim_space buf) with (_, Some _) => true | (_, None) => false end)
  end.

Definition open_bfq (dirPath : string) : Act W (option string) :=
  r ← try_ (cgroups.OpenFile dirPath "io.bfq.weight" O_RDWR);
  match r with
  | Ok fd => mret (Some fd)
  | Err e => if os_IsNotExist e then mret None else throw e
  end.

Definition throttle_all (dirPath name : string) (l : list configs.ThrottleDevice) : Act W unit :=
  for_each (fun td => cgroups.WriteFile dirPath "io.max" (StringName td name)) l.

Definition setIo (dirPath : string) (r : configs.Resources) : Act W unit :=
  if negb (isIoSet r) then mret tt else
  bfq ← (if negb (configs.BlkioWeight r =? 0) || (0 <? length (configs.BlkioWeightDevice r))%nat then open_bfq dirPath else mret None);
  _ ← (if negb (configs.BlkioWeight r =? 0) then
         match bfq with
         | Some fd => sys_write fd (format_int (configs.BlkioWeight r))
         | None => cgroups.WriteFile dirPath "io.weight" (format_int (cgroups.ConvertBlkIOToIOWeightValue (configs.BlkioWeight r)))
         end
       else mret tt);
  supported ← bfqDeviceWeightSupported bfq;
  _ ← (if supported : bool then
         for_each (fun wd => wrapping "setting device weight" (sys_write (default "" bfq) (WeightString wd +:+ String ch_newline "")))
           (configs.BlkioWeightDevice r)
       else mret tt);
  _ ← throttle_all dirPath "rbps" (configs.BlkioThrottleReadBpsDevice r);
  _ ← throttle_all dirPath "wbps" (configs.BlkioThrottleWriteBpsDevice r);
  _ ← throttle_all dirPath "riops" (configs.BlkioThrottleReadIOPSDevice r);
  throttle_all dirPath "wiops" (configs.BlkioThrottleWriteIOPSDevice r).

(** ** The freezer: freezer.go *)

Definition maxIter : nat := 1000.

(** The lines of one reading of cgroup.events: the outcome, or the turns so far and whether
    the file was rewound. *)
Fixpoint scan_events (lines : list string) (i : nat) (rewound : bool) : Act W (FreezerState + nat * bool) :=
  match lines with
  | [] => mret (inr (i, rewound))
  | line :: ls =>
      if (i =? maxIter)%nat then throw (ErrNew "timeout reached waiting for the cgroup to freeze") else
      let val := trim_prefix line "frozen " in
      if bool_decide (val = line) then scan_events ls i rewound else
      match val with
      | EmptyString => throw (ErrNew "panic: index out of range [0] with length 0")
      | String c _ => if bool_decide (c = "1"%char) then mret (inl Frozen)
                      else _ ← sys_sleep; scan_events ls (S i) true
      end
  end.

(** The readings: the file is read again only when a line rewound it.  [fuel] readings are
    left; [waitFrozen] starts with more than the loop can use. *)
Fixpoint poll_events (fuel : nat) (fd : string) (i : nat) : Act W FreezerState :=
  match fuel with
  | O => throw (ErrNew "out of fuel")
  | S fuel' =>
      text ← try_ (sys_read fd);
      let '(lines, err) := Scanner text in
      out ← scan_events lines i false;
      match out with
      | inl st => mret st
      | inr (i', rewound) =>
          match err with
          | Some e => throw e
          | None => if rewound : bool then poll_events fuel' fd i' else mret Undefined
          end
      end
  end.

Definition waitFrozen (dirPath : string) : Act W FreezerState :=
  fd ← cgroups.OpenFile dirPath "cgroup.events" O_RDONLY; poll_events (maxIter + 2) fd 0.

Definition readFreezer (dirPath fd : string) : Act W FreezerState :=
  content ← sys_read fd;
  if bool_decide (content = "") then throw (ErrNew "EOF") else
  let state := read_buf 2 content in
  if bool_decide (state = "0" +:+ String ch_newline "") then mret Thawed
  else if bool_decide (state = "1" +:+ String ch_newline "") then waitFrozen dirPath
  else throw (ErrNew "unknown cgroup.freeze state").

Definition setFreezer (dirPath : string) (state : FreezerState) : Act W unit :=
  match state with
  | Undefined => mret tt
  | _ =>
      let stateStr := match state with Frozen => "1" | _ => "0" end in
      r ← try_ (cgroups.OpenFile dirPath "cgroup.freeze" O_RDWR);
      match r with
      | Err e => if bool_decide (state = Frozen) then throw (ErrWrap "freezer not supported" e) else mret tt
      | Ok fd =>
          _ ← sys_write fd stateStr;
          actualState ← readFreezer dirPath fd;
          if bool_decide (actualState = state) then mret tt else throw (ErrNew "cgroup.freeze in an unexpected state")
      end
  end.

Definition getFreezer (dirPath : string) : Act W FreezerState :=
  r ← try_ (cgroups.OpenFile dirPath "cgroup.freeze" O_RDONLY);
  match r with
  | Err e => if os_IsNotExist e || errors_is e ErrENODEV then mret Undefined else throw e
  | Ok fd => readFreezer dirPath fd
  end.

(** ** Creating the cgroup: create.go *)

Definition supportedControllers : Act W string := cgroups.ReadFile UnifiedMountpoint "/cgroup.controllers".

Definition needAnyControllers (r : option configs.Resources) : Act W bool :=
  match r with
  | None => mret false
  | Some r =>
      content ← supportedControllers;
      let have ctr := bool_decide (ctr ∈ fields content) in
      mret ((isPidsSet r && have "pids") || (isMemorySet r && have "memory") || (isIoSet r && have "io")
            || (isCpuSet r && have "cpu") || (isCpusetSet r && have "cpuset") || (isHugeTlbSet r && have "hugetlb"))
  end.

(** One directory below the mount point; whether this call created it comes first. *)
Definition make_dir (current : string) : Act W bool :=
  r ← try_ (sys_mkdir current);
  match r with
  | Ok _ => mret true
  | Err e => if os_IsExist e then mret false else throw e
  end.
(** The outcome of the check: [NilDeref] is the panic of [containsDomainController] on nil Resources. *)
Inductive checked := Fits | NilDeref.
Definition without_domain (r : option configs.Resources) (e : error) (k : Act W unit) : Act W checked :=
  match r with
  | None => mret NilDeref
  | Some r => if containsDomainController r then throw e else _ ← k; mret Fits
  end.
Definition check_type (r : option configs.Resources) (current : string) : Act W checked :=
  t ← try_ (cgroups.ReadFile current "cgroup.type");
  let cgType := trim_space (match t with Ok s => s | Err _ => "" end) in
  if bool_decide (cgType = "domain invalid") then
    without_domain r (ErrNew "cannot enter cgroupv2 with domain controllers -- it is in an invalid state")
      (_ ← try_ (cgroups.WriteFile current "cgroup.type" "threaded"); mret tt)
  else if bool_decide (cgType = "domain threaded") || bool_decide (cgType = "threaded") then
    without_domain r (ErrNew "cannot enter cgroupv2 with domain controllers -- it is in threaded mode") (mret tt)
  else mret Fits.
Definition enable_controllers (current res : string) : Act W unit :=
  r ← try_ (cgroups.WriteFile current "cgroup.subtree_control" res);
  match r with
  | Ok _ => mret tt
  | Err _ => for_each (fun ctr => _ ← try_ (cgroups.WriteFile current "cgroup.subtree_control" ctr); mret tt) (split ch_space res)
  end.

(** The loop over the elements below /sys/fs: the directories created so far, the last one
    first, are kept with the outcome, for the deferred calls.  A panic ends the loop too. *)
Fixpoint create_dirs (r : option configs.Resources) (res : string) (first : bool) (elements : list string) (current : string)
    (created : list string) (w : W) : W * (list string * result checked) :=
  match elements with
  | [] => (w, (created, Ok Fits))
  | e :: es =>
      let current := Join [current; e] in
      let '(w, made) := (if first then mret false else make_dir current) w in
      match made with
      | Err err => (w, (created, Err err))
      | Ok new =>
          let created := if new : bool then current :: created else created in
          let '(w, step) := (c ← (if first then mret Fits else check_type r current);
                          match c with
                          | NilDeref => mret NilDeref
                          | Fits => _ ← (if bool_decide (es = []) then mret tt else enable_controllers current res); mret Fits
                          end) w in
          match step with
          | Ok Fits => create_dirs r res false es current created w
          | _ => (w, (created, step))
          end
      end
  end.
Definition remove_all (dirs : list string) : Act W unit := for_each (fun d => _ ← try_ (sys_rmdir d); mret tt) dirs.

(** The loop and the deferred calls, which look at the returned error and so do nothing on a panic. *)
Definition create_or_remove (r : option configs.Resources) (res : string) (elements : list string) : Act W unit := fun w =>
  let '(w, (created, out)) := create_dirs r res true elements "/sys/fs" [] w in
  match out with
  | Ok Fits => (w, Ok tt)
  | Ok NilDeref => (w, Err ErrNilDeref)
  | Err e => (fst (remove_all created w), Err e)
  end.

Definition CreateCgroupPath (path : string) (r : option configs.Resources) : Act W unit :=
  if negb (has_prefix UnifiedMountpoint path) then throw (ErrNew "invalid cgroup path") else
  content ← supportedControllers;
  let res := "+" +:+ join " +" (fields content) in
  create_or_remove r res (drop 3 (split ch_slash path)).

(** ** The manager: fs2.go *)

(** [m_Resources] is the pointer [config.Resources]. *)
Record manager := mkManager {
  config : configs.Cgroup; m_Resources : option configs.Resources; dirPath : string; controllers : option (list string) }.

Definition NewManager (self : result string) (cfg : configs.Cgroup) (res : option configs.Resources) (dir : string) : result manager :=
  dir ← (if bool_decide (dir = "") then defaultDirPath self cfg else Ok dir);
  Ok (mkManager cfg res dir None).

Definition set_controllers (c : list string) (m : manager) : manager := mkManager (config m) (m_Resources m) (dirPath m) (Some c).
Definition set_resources (r : configs.Resources) (m : manager) : manager := mkManager (config m) (Some r) (dirPath m) (controllers m).
Definition set_freezer_state (s : FreezerState) (r : configs.Resources) : configs.Resources :=
  match r with
  | configs.mkRes a b c d e f g h i j k l m n o p q u v w x y z aa bb cc dd _ ee ff =>
      configs.mkRes a b c d e f g h i j k l m n o p q u v w x y z aa bb cc dd s ee ff
  end.

(** The methods act on the world and the manager. *)
Definition getControllers : Act (W * manager) unit :=
  m ← gets id;
  match controllers m with
  | Some _ => mret tt
  | None =>
      data ← try_ (from_fs (cgroups.ReadFile (dirPath m) "cgroup.controllers"));
      match data with
      | Err e => if configs.Rootless (config m) && bool_decide (configs.cg_Path (config m) = "") then mret tt else throw e
      | Ok data => modify (set_controllers (fields data))
      end
  end.

Definition Apply (pid : Z) : Act (W * manager) unit :=
  m ← gets id;
  made ← try_ (from_fs (CreateCgroupPath (dirPath m) (m_Resources m)));
  match made with
  | Err e =>
      if is_panic e then throw e else
      if configs.Rootless (config m) && bool_decide (configs.cg_Path (config m) = "") then
        need ← try_ (from_fs (needAnyControllers (m_Resources m)));
        match need with
        | Ok false => mret tt
        | _ => throw (ErrWrap "rootless needs no limits + no cgrouppath when no permission is granted for cgroups" e)
        end
      else throw e
  | Ok _ => from_fs (cgroups.WriteCgroupProc (dirPath m) pid)
  end.

Definition ch_dot : ascii := chr 46.
Definition unified_error (m : manager) (k : string) (e : error) : error :=
  if is_permission e || errors_is e ErrNotExist then
    match split_n ch_dot 2 k with
    | [c; _] => if negb (bool_decide (c ∈ default [] (controllers m))) && negb (bool_decide (c = "cgroup"))
                then ErrNew "unified resource can't be set: controller not available"
                else ErrWrap "unable to set unified resource" e
    | _ => ErrNew "unified resource must be in the form CONTROLLER.PARAMETER"
    end
  else ErrWrap "unable to set unified resource" e.

Definition setUnified (m : manager) (res : list (string * string)) : Act W unit :=
  for_each (fun kv =>
    if contains_char ch_slash kv.1 then throw (ErrNew "unified resource must be a file name (no slashes)") else
    r ← try_ (cgroups.WriteFile (dirPath m) kv.1 kv.2);
    match r with Ok _ => mret tt | Err e => throw (unified_error m kv.1 e) end) res.

(** The controllers in the order of [Set], without the unified map. *)
Definition set_controllers_files (userns : bool) (m : manager) (r : configs.Resources) : Act W unit :=
  let dir := dirPath m in
  _ ← setPids dir r;
  _ ← setMemory dir r;
  _ ← setIo dir r;
  _ ← setCpu dir r;
  devs ← try_ (setDevices userns dir r);
  _ ← match devs with Err e => if configs.Rootless (config m) then mret tt else throw e | Ok _ => mret tt end;
  _ ← setCpuset dir r;
  _ ← setHugeTlb dir r;
  _ ← fscommon.RdmaSet dir r;
  setFreezer dir (configs.Freezer r).

Definition Set_ (userns : bool) (r : option configs.Resources) : Act (W * manager) unit :=
  match r with
  | None => mret tt
  | Some r =>
      _ ← getControllers;
      m ← gets id;
      _ ← from_fs (set_controllers_files userns m r);
      _ ← from_fs (setUnified m (default [] (configs.Unified r)));
      modify (set_resources r)
  end.

Definition Freeze (state : FreezerState) : Act (W * manager) unit :=
  m ← gets id;
  match m_Resources m with
  | None => throw (ErrNew "cannot toggle freezer: cgroups not configured for container")
  | Some r => _ ← from_fs (setFreezer (dirPath m) state); modify (set_resources (set_freezer_state state r))
  end.

Definition GetPids (m : manager) : Act W (list Z) := cgroups.GetPids (dirPath m).
Definition GetAllPids (depth : nat) (m : manager) : Act W (list Z) := cgroups.GetAllPids depth (dirPath m).
Definition Destroy (depth : nat) (m : manager) : Act W unit := cgroups.RemovePath depth (dirPath m).
Definition Exists (m : manager) : Act W bool := cgroups.PathExists (dirPath m).
Definition GetFreezerState (m : manager) : Act W FreezerState := getFreezer (dirPath m).
Definition OOMKillCount (m : manager) : Act W Z :=
  c ← try_ (fscommon.GetValueByKey (dirPath m) "memory.events" "oom_kill");
  match c with
  | Ok v => mret v
  | Err e => if configs.Rootless (config m) && os_IsNotExist e then mret 0 else throw e
  end.

End ops.
End fs2.
