(* ===== verification/CgroupV2Stats.v ===== *)
(** * The counters of a cgroup v2: the stat functions of cgroups/fs2

    Each function fills in its part of the statistics as it reads; what it wrote stays
    when a later step fails, because [GetStats] returns the statistics with the error. *)

From S2P Require Import Prelude GoAct GoStrings GoPath GoFs UserDb DeviceEmulator SpecTypes CgroupFiles CgroupV2.

Open Scope string_scope.
Open Scope list_scope.
#[local] Open Scope Z_scope.

Module fs2stats.
Import stats.

(** *** Pure parts: one line at a time *)

Definition cpu_line (t : string) (v : Z) (c : CpuStats) : CpuStats :=
  let u := CpuUsage_ c in
  let d := ThrottlingData_ c in
  if bool_decide (t = "usage_usec") then
    set_usage (mkCpuUsage (uint64 (v * 1000)) (PercpuUsage u) (PercpuUsageInKernelmode u) (PercpuUsageInUsermode u)
                 (UsageInKernelmode u) (UsageInUsermode u)) c
  else if bool_decide (t = "user_usec") then
    set_usage (mkCpuUsage (TotalUsage u) (PercpuUsage u) (PercpuUsageInKernelmode u) (PercpuUsageInUsermode u)
                 (UsageInKernelmode u) (uint64 (v * 1000))) c
  else if bool_decide (t = "system_usec") then
    set_usage (mkCpuUsage (TotalUsage u) (PercpuUsage u) (PercpuUsageInKernelmode u) (PercpuUsageInUsermode u)
                 (uint64 (v * 1000)) (UsageInUsermode u)) c
  else if bool_decide (t = "nr_periods") then set_throttling (mkThrottling v (ThrottledPeriods d) (ThrottledTime d)) c
  else if bool_decide (t = "nr_throttled") then set_throttling (mkThrottling (Periods d) v (ThrottledTime d)) c
  else if bool_decide (t = "throttled_usec") then
    set_throttling (mkThrottling (Periods d) (ThrottledPeriods d) (uint64 (v * 1000))) c
  else c.

(** The fields of /proc/meminfo: free and total swap, total and free memory. *)
Record meminfo := mkMeminfo { swap_free : Z; swap_total : Z; main_total : Z; main_free : Z }.
Definition set_meminfo (k : string) (v : Z) (m : meminfo) : option meminfo :=
  if bool_decide (k = "SwapFree") then Some (mkMeminfo v (swap_total m) (main_total m) (main_free m))
  else if bool_decide (k = "SwapTotal") then Some (mkMeminfo (swap_free m) v (main_total m) (main_free m))
  else if bool_decide (k = "MemTotal") then Some (mkMeminfo (swap_free m) (swap_total m) v (main_free m))
  else if bool_decide (k = "MemFree") then Some (mkMeminfo (swap_free m) (swap_total m) (main_total m) v)
  else None.
(** The loop stops at the fourth field it knows. *)
Fixpoint parse_meminfo (lines : list string) (found : nat) (m : meminfo) : result (meminfo * bool) :=
  match lines with
  | [] => Ok (m, false)
  | text :: ls =>
      match split_n ch_colon 3 text with
      | [k; rest] =>
          match set_meminfo k 0 m with
          | None => parse_meminfo ls found m
          | Some _ =>
              match parse_uint 64 (trim_space (trim_suffix rest " kB")) with
              | Err _ => Err (ErrWrap "unable to parse" (ErrNew "bad value"))
              | Ok v =>
                  let m := default m (set_meminfo k v m) in
                  if (S found =? 4)%nat then Ok (m, true) else parse_meminfo ls (S found) m
              end
          end
      | _ => parse_meminfo ls found m
      end
  end.

(** The values of one device of io.stat, item by item. *)
Definition io_item (major minor : Z) (item : string) (b : BlkioStats) : result BlkioStats :=
  match split fscommon.ch_equal item with
  | [op; val] =>
      let bytes op := match parse_uint 64 val with
        | Err e => Err (fscommon.ParseError e)
        | Ok v => Ok (mkBlkioStats (IoServiceBytesRecursive b ++ [mkBlkioEntry major minor op v]) (IoServicedRecursive b)
            (IoQueuedRecursive b) (IoServiceTimeRecursive b) (IoWaitTimeRecursive b) (IoMergedRecursive b)
            (IoTimeRecursive b) (SectorsRecursive b))
        end in
      let ios op := match parse_uint 64 val with
        | Err e => Err (fscommon.ParseError e)
        | Ok v => Ok (mkBlkioStats (IoServiceBytesRecursive b) (IoServicedRecursive b ++ [mkBlkioEntry major minor op v])
            (IoQueuedRecursive b) (IoServiceTimeRecursive b) (IoWaitTimeRecursive b) (IoMergedRecursive b)
            (IoTimeRecursive b) (SectorsRecursive b))
        end in
      if bool_decide (op = "rbytes") then bytes "Read" else if bool_decide (op = "wbytes") then bytes "Write"
      else if bool_decide (op = "rios") then ios "Read" else if bool_decide (op = "wios") then ios "Write"
      else Ok b
  | _ => Ok b
  end.
Fixpoint io_items (major minor : Z) (items : list string) (b : BlkioStats) : result BlkioStats :=
  match items with [] => Ok b | i :: l => b ← io_item major minor i b; io_items major minor l b end.
Fixpoint io_devices (values : list (string * list string)) (b : BlkioStats) : result BlkioStats :=
  match values with
  | [] => Ok b
  | (k, v) :: l =>
      match split ch_colon k with
      | [ma; mi] =>
          match parse_uint 64 ma, parse_uint 64 mi with
          | Ok major, Ok minor => b ← io_items major minor v b; io_devices l b
          | Err e, _ | _, Err e => Err (fscommon.ParseError e)
          end
      | _ => io_devices l b
      end
  end.
(** Lines of two words or more, by their first word: a later line replaces an earlier one. *)
Definition map_lines (lines : list string) : gmap string (list string) :=
  fold_left (fun m line => match fields line with k :: v :: vs => <[k:=v :: vs]> m | _ => m end) lines ∅.

Section stat.
Context {W : Type} `{CgroupFs W} (hugePageSizes : list string).
Notation Stat := (Act (W * Stats) unit).

(** A loop over the lines of a file of keys and values. *)
Fixpoint key_values (f : string -> Z -> Stats -> Stats) (lines : list string) : Stat :=
  match lines with
  | [] => mret tt
  | t :: ls =>
      match fscommon.ParseKeyValue t with
      | Err e => throw (fscommon.ParseError e)
      | Ok (k, v) => _ ← modify (f k v); key_values f ls
      end
  end.
Definition stat_file (f : string -> Z -> Stats -> Stats) (dirPath file : string) : Stat :=
  ls ← from_fs (cgroups.scan_file dirPath file);
  _ ← key_values f ls.1;
  match ls.2 with Some e => throw (fscommon.ParseError e) | None => mret tt end.

Definition statCpu (dirPath : string) : Stat := stat_file (fun t v => on_cpu (cpu_line t v)) dirPath "cpu.stat".

Definition statPidsFromCgroupProcs (dirPath : string) : Stat :=
  r ← try_ (from_fs (cgroups.ReadFile dirPath "cgroup.procs"));
  contents ← match r with
             | Err e => if errors_is e ENOTSUP then from_fs (cgroups.ReadFile dirPath "cgroup.threads") else throw e
             | Ok c => mret c
             end;
  modify (set_pids (mkPidsStats (Z.of_nat (count_char ch_newline contents)) 0)).
Definition statPids (dirPath : string) : Stat :=
  r ← try_ (from_fs (fscommon.GetCgroupParamUint dirPath "pids.current"));
  match r with
  | Err e => if os_IsNotExist e then statPidsFromCgroupProcs dirPath else throw e
  | Ok current =>
      max ← from_fs (fscommon.GetCgroupParamUint dirPath "pids.max");
      modify (set_pids (mkPidsStats current (if max =? max_uint64 then 0 else max)))
  end.

Definition getMemoryDataV2 (path name : string) : Act W MemoryData :=
  let moduleName := if bool_decide (name = "") then "memory" else "memory." +:+ name in
  r ← try_ (fscommon.GetCgroupParamUint path (moduleName +:+ ".current"));
  match r with
  | Err e => if negb (bool_decide (name = "")) && os_IsNotExist e then mret zeroMemoryData else throw e
  | Ok usage =>
      limit ← fscommon.GetCgroupParamUint path (moduleName +:+ ".max");
      mret (mkMemoryData usage 0 0 limit)
  end.

Definition statsFromMeminfo : Stat :=
  _ ← from_fs (sys_open "/proc/meminfo" O_RDONLY);
  text ← from_fs (try_ (sys_read "/proc/meminfo"));
  let '(lines, err) := Scanner text in
  out ← lift (parse_meminfo lines 0 (mkMeminfo 0 0 0 0));
  let '(m, stopped) := out in
  match (if stopped : bool then None else err) with
  | Some e => throw (fscommon.ParseError e)
  | None =>
      modify (on_memory (fun s =>
        set_m_usage (mkMemoryData (uint64 (uint64 (main_total m - main_free m) * 1024)) (MaxUsage (m_Usage s)) (Failcnt (m_Usage s)) max_uint64)
          (set_swap (mkMemoryData (uint64 (uint64 (swap_total m - swap_free m) * 1024)) (MaxUsage (SwapUsage s)) (Failcnt (SwapUsage s)) max_uint64) s)))
  end.

(** The limit and the usage of memory and swap together. *)
Definition combine_swap (memoryUsage swapUsage : MemoryData) : MemoryData :=
  mkMemoryData (uint64 (Usage swapUsage + Usage memoryUsage)) (MaxUsage swapUsage) (Failcnt swapUsage)
    (if Limit swapUsage =? max_uint64 then Limit swapUsage else uint64 (Limit swapUsage + Limit memoryUsage)).

Definition statMemory (dirPath : string) : Stat :=
  _ ← stat_file (fun t v => on_memory (put_stat t v)) dirPath "memory.stat";
  _ ← modify (on_memory (fun m => set_hierarchy true (set_cache (default 0 (m_Stats m !! "file")) m)));
  r ← try_ (from_fs (getMemoryDataV2 dirPath ""));
  match r with
  | Err e => if errors_is e ErrNotExist && bool_decide (dirPath = fs2.UnifiedMountpoint) then statsFromMeminfo else throw e
  | Ok memoryUsage =>
      _ ← modify (on_memory (set_m_usage memoryUsage));
      swapUsage ← from_fs (getMemoryDataV2 dirPath "swap");
      modify (on_memory (set_swap (combine_swap memoryUsage swapUsage)))
  end.

Definition readCgroup2MapFile (dirPath name : string) : Act W (gmap string (list string)) :=
  ls ← cgroups.scan_file dirPath name;
  match ls.2 with Some e => throw (fscommon.ParseError e) | None => mret (map_lines ls.1) end.
Definition statIo (dirPath : string) : Stat :=
  values ← from_fs (readCgroup2MapFile dirPath "io.stat");
  b ← lift (io_devices (map_to_list values) (BlkioStats_ NewStats));
  modify (on_blkio (fun _ => b)).

Definition statHugeTlb (dirPath : string) : Stat :=
  for_each (fun pagesize =>
    usage ← from_fs (fscommon.GetCgroupParamUint dirPath ("hugetlb." +:+ pagesize +:+ ".current"));
    failcnt ← from_fs (fscommon.GetValueByKey dirPath ("hugetlb." +:+ pagesize +:+ ".events") "max");
    modify (put_hugetlb pagesize (mkHugetlbStats usage 0 failcnt))) hugePageSizes.

Definition statRdma (dirPath : string) : Stat :=
  r ← from_fs (fscommon.RdmaGetStats dirPath);
  match r with Some (limit, current) => modify (set_rdma (mkRdmaStats limit current)) | None => mret tt end.

(** [if err := stat(...); err != nil && !os.IsNotExist(err) { errs = append(errs, err) }] *)
Definition collect (m : Stat) (errs : list error) : Act (W * Stats) (list error) :=
  r ← try_ m;
  mret (match r with Err e => if os_IsNotExist e then errs else errs ++ [e] | Ok _ => errs end).

Definition gather (dirPath : string) : Act (W * Stats) (list error) :=
  r ← try_ (statPids dirPath);
  errs ← collect (statMemory dirPath) (match r with Err e => [e] | Ok _ => [] end);
  errs ← collect (statIo dirPath) errs;
  errs ← collect (statCpu dirPath) errs;
  errs ← collect (statHugeTlb dirPath) errs;
  collect (statRdma dirPath) errs.

(** The statistics come with the error, if there is one. *)
Definition GetStats (m : fs2.manager) (w : W) : W * (Stats * option error) :=
  let '((w, st), r) := gather (fs2.dirPath m) (w, NewStats) in
  (w, (st, match r with
           | Ok [] => None
           | _ => if configs.Rootless (fs2.config m) then None else Some (ErrNew "error while statting cgroup v2")
           end)).
End stat.
End fs2stats.
