(* ===== verification/CgroupV1.v ===== *)
(** * The cgroup v1 manager: cgroups/fs

    One directory per subsystem.  [sys_Apply] creates a directory and joins it, [sys_Set]
    writes limits; the manager runs them over the subsystems.  Setting memory limits may
    change the resources of the caller, and the blkio group remembers which files the kernel
    has: both are the mutable [objects]. *)

From S2P Require Import Prelude GoAct GoStrings GoPath GoFs Devices Configs DeviceEmulator CgroupDevices UserDb Validator ContainerState Freezer SpecTypes CgroupFiles CgroupV2.

Open Scope string_scope.
Open Scope list_scope.
#[local] Open Scope Z_scope.

Module fs.

Record BlkioGroup_t := mkBlkio { weightFilename : string; weightDeviceFilename : string }.
Record objects := mkObjects { o_res : configs.Resources; o_blkio : BlkioGroup_t }.

Definition set_MemorySwap (v : Z) (r : configs.Resources) : configs.Resources :=
  match r with
  | configs.mkRes a b c _ d e f g h i j k l m n o p q u w x y z aa bb cc dd ee ff gg =>
      configs.mkRes a b c v d e f g h i j k l m n o p q u w x y z aa bb cc dd ee ff gg
  end.
Definition set_o_res (f : configs.Resources -> configs.Resources) (o : objects) : objects := mkObjects (f (o_res o)) (o_blkio o).
Definition set_o_blkio (b : BlkioGroup_t) (o : objects) : objects := mkObjects (o_res o) b.

Inductive subsystem :=
  | CpusetGroup | DevicesGroup | MemoryGroup | CpuGroup | CpuacctGroup | PidsGroup | BlkioGroup | HugetlbGroup
  | NetClsGroup | NetPrioGroup | PerfEventGroup | FreezerGroup | RdmaGroup
  | NameGroup (GroupName : string) (join_ : bool).
#[global] Instance subsystem_eq_dec : EqDecision subsystem.
Proof. solve_decision. Defined.

Definition sys_Name (s : subsystem) : string :=
  match s with
  | CpusetGroup => "cpuset" | DevicesGroup => "devices" | MemoryGroup => "memory" | CpuGroup => "cpu"
  | CpuacctGroup => "cpuacct" | PidsGroup => "pids" | BlkioGroup => "blkio" | HugetlbGroup => "hugetlb"
  | NetClsGroup => "net_cls" | NetPrioGroup => "net_prio" | PerfEventGroup => "perf_event" | FreezerGroup => "freezer"
  | RdmaGroup => "rdma" | NameGroup n _ => n
  end.

(** [hybrid]: a cgroup v2 hierarchy is mounted beside the v1 ones. *)
Definition subsystems (hybrid : bool) : list subsystem :=
  [CpusetGroup; DevicesGroup; MemoryGroup; CpuGroup; CpuacctGroup; PidsGroup; BlkioGroup; HugetlbGroup; NetClsGroup;
   NetPrioGroup; PerfEventGroup; FreezerGroup; RdmaGroup; NameGroup "name=systemd" true]
  ++ (if hybrid then [NameGroup "" true] else []).

Definition errSubsystemDoesNotExist : error := ErrNew "cgroup: subsystem does not exist".
Definition isIgnorableError (rootless : bool) (e : error) : bool := rootless && (is_permission e || errors_is e EROFS).
Definition isEmptyCpuset (str : string) : bool := bool_decide (str = "") || bool_decide (str = String ch_newline "").
Definition IfPrioString (i : configs.IfPrioMap) : string := configs.Interface i +:+ " " +:+ format_int (configs.Priority i).

Definition cgroupMemorySwapLimit : string := "memory.memsw.limit_in_bytes".
Definition cgroupMemoryLimit : string := "memory.limit_in_bytes".
Definition cgroupMemoryUsage : string := "memory.usage_in_bytes".
Definition cgroupMemoryMaxUsage : string := "memory.max_usage_in_bytes".

Section ops.
Context {W : Type} `{CgroupFs W}.

Definition when_ (c : bool) (m : Act W unit) : Act W unit := if c then m else mret tt.

(** ** Joining *)

Definition apply (path : string) (pid : Z) : Act W unit :=
  if bool_decide (path = "") then mret tt else _ ← sys_mkdirall path; cgroups.WriteCgroupProc path pid.

Definition SetRtSched (path : string) (r : configs.Resources) : Act W unit :=
  _ ← when_ (negb (configs.CpuRtPeriod r =? 0)) (cgroups.WriteFile path "cpu.rt_period_us" (format_int (configs.CpuRtPeriod r)));
  when_ (negb (configs.CpuRtRuntime r =? 0)) (cgroups.WriteFile path "cpu.rt_runtime_us" (format_int (configs.CpuRtRuntime r))).

Definition Cpu_Apply (path : string) (r : configs.Resources) (pid : Z) : Act W unit :=
  _ ← sys_mkdirall path; _ ← SetRtSched path r; cgroups.WriteCgroupProc path pid.

Definition Devices_Apply (path : string) (r : configs.Resources) (pid : Z) : Act W unit :=
  if configs.SkipDevices r then mret tt else
  if bool_decide (path = "") then throw errSubsystemDoesNotExist else apply path pid.

(** *** cpuset *)

Definition Cpuset_Set (path : string) (r : configs.Resources) : Act W unit :=
  _ ← when_ (negb (bool_decide (configs.CpusetCpus r = ""))) (cgroups.WriteFile path "cpuset.cpus" (configs.CpusetCpus r));
  when_ (negb (bool_decide (configs.CpusetMems r = ""))) (cgroups.WriteFile path "cpuset.mems" (configs.CpusetMems r)).

Definition getCpusetSubsystemSettings (parent : string) : Act W (string * string) :=
  cpus ← cgroups.ReadFile parent "cpuset.cpus"; mems ← cgroups.ReadFile parent "cpuset.mems"; mret (cpus, mems).

Definition cpusetCopyIfNeeded (current parent : string) : Act W unit :=
  cur ← getCpusetSubsystemSettings current;
  par ← getCpusetSubsystemSettings parent;
  _ ← when_ (isEmptyCpuset cur.1) (cgroups.WriteFile current "cpuset.cpus" par.1);
  when_ (isEmptyCpuset cur.2) (cgroups.WriteFile current "cpuset.mems" par.2).

Definition mkdir_exist (dir : string) : Act W unit :=
  r ← try_ (sys_mkdir dir);
  match r with Err e => if os_IsExist e then mret tt else throw e | Ok _ => mret tt end.

(** [fuel]: the recursion goes up the path until it leaves the cgroup file system. *)
Fixpoint cpusetEnsureParent (fuel : nat) (current : string) : Act W unit :=
  match fuel with
  | O => throw (ErrNew "no directory outside the cgroup file system")
  | S fuel' =>
      let parent := Dir current in
      st ← try_ (sys_statfs parent);
      match st with
      | Ok CGROUP2_SUPER | Ok OTHER_SUPER => mret tt
      | Err e => if negb (bool_decide (e = ErrNotExist)) then throw e
                 else _ ← cpusetEnsureParent fuel' parent; _ ← mkdir_exist current; cpusetCopyIfNeeded current parent
      | Ok CGROUP_SUPER => _ ← cpusetEnsureParent fuel' parent; _ ← mkdir_exist current; cpusetCopyIfNeeded current parent
      end
  end.

Definition ensureCpusAndMems (path : string) (r : configs.Resources) : Act W unit :=
  _ ← Cpuset_Set path r; cpusetCopyIfNeeded path (Dir path).

(** Enough turns for the elements of a path. *)
Definition path_fuel (dir : string) : nat := S (length (split ch_slash dir)).

Definition ApplyDir (dir : string) (r : configs.Resources) (pid : Z) : Act W unit :=
  if bool_decide (dir = "") then mret tt else
  _ ← cpusetEnsureParent (path_fuel dir) (Dir dir);
  _ ← mkdir_exist dir;
  _ ← ensureCpusAndMems dir r;
  cgroups.WriteCgroupProc dir pid.

Definition sys_Apply (s : subsystem) (path : string) (r : configs.Resources) (pid : Z) : Act W unit :=
  match s with
  | CpusetGroup => ApplyDir path r pid
  | DevicesGroup => Devices_Apply path r pid
  | CpuGroup => Cpu_Apply path r pid
  | NameGroup _ join_ => if join_ then _ ← try_ (apply path pid); mret tt else mret tt
  | _ => apply path pid
  end.

(** ** Limits *)

Definition Cpu_Set (path : string) (r : configs.Resources) : Act W unit :=
  let shares := configs.CpuShares r in
  _ ← when_ (negb (shares =? 0))
        (_ ← cgroups.WriteFile path "cpu.shares" (format_int shares);
         sharesRead ← fscommon.GetCgroupParamUint path "cpu.shares";
         if sharesRead <? shares then throw (ErrNew "the maximum allowed cpu-shares is exceeded")
         else if shares <? sharesRead then throw (ErrNew "below the minimum allowed cpu-shares") else mret tt);
  (* [retry]: the period that could not be written before the quota *)
  retry ← (if negb (configs.CpuPeriod r =? 0) then
             res ← try_ (cgroups.WriteFile path "cpu.cfs_period_us" (format_int (configs.CpuPeriod r)));
             match res with
             | Ok _ => mret false
             | Err e => if negb (errors_is e EINVAL) || (configs.CpuQuota r =? 0) then throw e else mret true
             end
           else mret false);
  _ ← when_ (negb (configs.CpuQuota r =? 0))
        (_ ← cgroups.WriteFile path "cpu.cfs_quota_us" (format_int (configs.CpuQuota r));
         when_ retry (cgroups.WriteFile path "cpu.cfs_period_us" (format_int (configs.CpuPeriod r))));
  SetRtSched path r.

Definition setMemory (path : string) (val : Z) : Act W unit :=
  if val =? 0 then mret tt else
  r ← try_ (cgroups.WriteFile path cgroupMemoryLimit (format_int val));
  match r with
  | Ok _ => mret tt
  | Err e =>
      if negb (errors_is e EBUSY) then throw e else
      _ ← fscommon.GetCgroupParamUint path cgroupMemoryUsage;
      _ ← fscommon.GetCgroupParamUint path cgroupMemoryMaxUsage;
      throw (ErrNew "unable to set memory limit: it is below the current usage")
  end.
Definition setSwap (path : string) (val : Z) : Act W unit :=
  if val =? 0 then mret tt else cgroups.WriteFile path cgroupMemorySwapLimit (format_int val).

(** The writes, once the resources are settled. *)
Definition write_limits (path : string) (memory swap : Z) : Act W unit :=
  swap_first ← (if negb (memory =? 0) && negb (swap =? 0) then
                  curLimit ← fscommon.GetCgroupParamUint path cgroupMemoryLimit;
                  mret ((swap =? -1) || (curLimit <? uint64 swap))
                else mret false);
  if swap_first : bool then _ ← setSwap path swap; setMemory path memory
  else _ ← setMemory path memory; setSwap path swap.
Definition setMemoryAndSwap (path : string) : Act (W * objects) unit :=
  r ← gets o_res;
  _ ← (if (configs.Memory r =? -1) && (configs.MemorySwap r =? 0) then
         there ← from_fs (cgroups.PathExists (Join [path; cgroupMemorySwapLimit]));
         if there : bool then modify (set_o_res (set_MemorySwap (-1))) else mret tt
       else mret tt);
  r ← gets o_res;
  from_fs (write_limits path (configs.Memory r) (configs.MemorySwap r)).

Definition Memory_Set (path : string) : Act (W * objects) unit :=
  _ ← setMemoryAndSwap path;
  r ← gets o_res;
  from_fs (
    _ ← when_ (negb (configs.MemoryReservation r =? 0))
          (cgroups.WriteFile path "memory.soft_limit_in_bytes" (format_int (configs.MemoryReservation r)));
    _ ← when_ (configs.OomKillDisable r) (cgroups.WriteFile path "memory.oom_control" "1");
    match configs.MemorySwappiness r with
    | None => mret tt
    | Some v => if int64 v =? -1 then mret tt
                else if v <=? 100 then cgroups.WriteFile path "memory.swappiness" (format_int v)
                else throw (ErrNew "invalid memory swappiness value (valid range is 0-100)")
    end).

Definition Pids_Set (path : string) (r : configs.Resources) : Act W unit :=
  when_ (negb (configs.PidsLimit r =? 0))
    (cgroups.WriteFile path "pids.max" (if 0 <? configs.PidsLimit r then format_int (configs.PidsLimit r) else "max")).

Definition detectWeightFilenames (path : string) : Act (W * objects) unit :=
  b ← gets o_blkio;
  if negb (bool_decide (weightFilename b = "")) then mret tt else
  there ← from_fs (cgroups.PathExists (Join [path; "blkio.weight"]));
  modify (set_o_blkio (if there : bool then mkBlkio "blkio.weight" "blkio.weight_device"
                       else mkBlkio "blkio.bfq.weight" "blkio.bfq.weight_device")).
Definition blkio_throttle (path file : string) (l : list configs.ThrottleDevice) : Act W unit :=
  for_each (fun td => cgroups.WriteFile path file (fs2.ThrottleString td)) l.
Definition Blkio_Set (path : string) : Act (W * objects) unit :=
  _ ← detectWeightFilenames path;
  b ← gets o_blkio;
  r ← gets o_res;
  from_fs (
    _ ← when_ (negb (configs.BlkioWeight r =? 0)) (cgroups.WriteFile path (weightFilename b) (format_int (configs.BlkioWeight r)));
    _ ← when_ (negb (configs.BlkioLeafWeight r =? 0)) (cgroups.WriteFile path "blkio.leaf_weight" (format_int (configs.BlkioLeafWeight r)));
    _ ← for_each (fun wd =>
          _ ← when_ (negb (configs.Weight wd =? 0)) (cgroups.WriteFile path (weightDeviceFilename b) (fs2.WeightString wd));
          when_ (negb (configs.LeafWeight wd =? 0)) (cgroups.WriteFile path "blkio.leaf_weight_device" (fs2.LeafWeightString wd)))
        (configs.BlkioWeightDevice r);
    _ ← blkio_throttle path "blkio.throttle.read_bps_device" (configs.BlkioThrottleReadBpsDevice r);
    _ ← blkio_throttle path "blkio.throttle.write_bps_device" (configs.BlkioThrottleWriteBpsDevice r);
    _ ← blkio_throttle path "blkio.throttle.read_iops_device" (configs.BlkioThrottleReadIOPSDevice r);
    blkio_throttle path "blkio.throttle.write_iops_device" (configs.BlkioThrottleWriteIOPSDevice r)).

Definition Hugetlb_Set (path : string) (r : configs.Resources) : Act W unit :=
  for_each (fun h => cgroups.WriteFile path ("hugetlb." +:+ configs.Pagesize h +:+ ".limit_in_bytes") (format_int (configs.Limit h)))
    (configs.HugetlbLimit r).
Definition NetCls_Set (path : string) (r : configs.Resources) : Act W unit :=
  when_ (negb (configs.NetClsClassid r =? 0)) (cgroups.WriteFile path "net_cls.classid" (format_int (configs.NetClsClassid r))).
Definition NetPrio_Set (path : string) (r : configs.Resources) : Act W unit :=
  for_each (fun p => cgroups.WriteFile path "net_prio.ifpriomap" (IfPrioString p)) (configs.NetPrioIfpriomap r).

(** The devices controller and the freezer, on the files of one directory.  (Reading
    devices.list, and a write that is refused, leave the system as it is.) *)
Definition devices_files (path : string) : DevicesCgroup W := {|
  read_list := fun w => snd (cgroups.ReadFile path "devices.list" w);
  write_file := fun w file d => match cgroups.WriteFile path file d w with (w', Ok _) => Ok w' | (_, Err e) => Err e end |}.
Definition freezer_files (path : string) : FreezerFs W := {|
  cg_ReadFile := cgroups.ReadFile path;
  cg_WriteFile := cgroups.WriteFile path;
  Sleep := fun w => fst (sys_sleep w) |}.

Definition Devices_Set (userns : bool) (path : string) (r : configs.Resources) : Act W unit :=
  @CgroupDevices.Set_ W (devices_files path) userns (configs.SkipDevices r) false (configs.Devices r).
Definition FreezerGroup_Set (path : string) (state : FreezerState) : Act W unit := @Freezer_Set W (freezer_files path) state.

Definition sys_Set (userns : bool) (s : subsystem) (path : string) : Act (W * objects) unit :=
  r ← gets o_res;
  match s with
  | MemoryGroup => Memory_Set path
  | BlkioGroup => Blkio_Set path
  | CpusetGroup => from_fs (Cpuset_Set path r)
  | DevicesGroup => from_fs (Devices_Set userns path r)
  | CpuGroup => from_fs (Cpu_Set path r)
  | PidsGroup => from_fs (Pids_Set path r)
  | HugetlbGroup => from_fs (Hugetlb_Set path r)
  | NetClsGroup => from_fs (NetCls_Set path r)
  | NetPrioGroup => from_fs (NetPrio_Set path r)
  | FreezerGroup => from_fs (FreezerGroup_Set path (configs.Freezer r))
  | RdmaGroup => from_fs (fscommon.RdmaSet path r)
  | CpuacctGroup | PerfEventGroup | NameGroup _ _ => mret tt
  end.

(** ** The manager *)

Record manager := mkManager { m_cgroups : configs.Cgroup; m_paths : gmap string string }.

(** [paths]: what [initPaths] finds, or the paths of a saved state. *)
Definition NewManager (cg : configs.Cgroup) (paths : result (gmap string string)) : result manager :=
  match configs.Unified (configs.cg_Resources cg) with
  | Some _ => Err ErrV1NoUnified
  | None => paths ← paths; Ok (mkManager cg paths)
  end.

Definition Path (m : manager) (subsys : string) : string := default "" (m_paths m !! subsys).

(** The loop of [Apply]: the paths of subsystems that could not be joined are forgotten. *)
Fixpoint apply_all (l : list subsystem) (c : configs.Cgroup) (pid : Z) : Act (W * gmap string string) unit :=
  match l with
  | [] => mret tt
  | s :: l =>
      paths ← gets id;
      match paths !! sys_Name s with
      | None => apply_all l c pid
      | Some p =>
          res ← try_ (from_fs (sys_Apply s p (configs.cg_Resources c) pid));
          match res with
          | Ok _ => apply_all l c pid
          | Err e => if isIgnorableError (configs.Rootless c) e && bool_decide (configs.cg_Path c = "")
                     then _ ← modify (delete (sys_Name s)); apply_all l c pid else throw e
          end
      end
  end.
Definition Apply (hybrid : bool) (m : manager) (pid : Z) (w : W) : W * (manager * result unit) :=
  let '((w, paths), r) := apply_all (subsystems hybrid) (m_cgroups m) pid (w, m_paths m) in
  (w, (mkManager (m_cgroups m) paths, r)).

Definition set_one (userns : bool) (m : manager) (s : subsystem) : Act (W * objects) unit :=
  let path := Path m (sys_Name s) in
  res ← try_ (sys_Set userns s path);
  match res with
  | Ok _ => mret tt
  | Err e =>
      if configs.Rootless (m_cgroups m) && bool_decide (sys_Name s = "devices") then mret tt
      else if bool_decide (path = "") then throw (ErrNew "cannot set limit: container could not join or create cgroup")
      else throw e
  end.
(** [Set]; a nil pointer is [None].  The objects are the caller's resources and the blkio group. *)
Definition Set_ (hybrid userns : bool) (m : manager) : Act (W * objects) unit :=
  r ← gets o_res;
  match configs.Unified r with
  | Some _ => throw ErrV1NoUnified
  | None => for_each (set_one userns m) (subsystems hybrid)
  end.

Definition with_resources (f : configs.Resources -> configs.Resources) (m : manager) : manager :=
  let c := m_cgroups m in
  mkManager (configs.mkCg (configs.Name c) (configs.Parent c) (configs.cg_Path c) (configs.ScopePrefix c) (f (configs.cg_Resources c))
    (configs.Systemd c) (configs.SystemdProps c) (configs.Rootless c) (configs.OwnerUID c)) (m_paths m).
(** [Freeze]: the wanted state is recorded, and taken back when the kernel refuses. *)
Definition Freeze (state : FreezerState) : Act (W * manager) unit :=
  m ← gets id;
  let path := Path m "freezer" in
  if bool_decide (path = "") then throw (ErrNew "cannot toggle freezer: cgroups not configured for container") else
  let prevState := configs.Freezer (configs.cg_Resources (m_cgroups m)) in
  _ ← modify (with_resources (fs2.set_freezer_state state));
  res ← try_ (from_fs (FreezerGroup_Set path state));
  match res with
  | Ok _ => mret tt
  | Err e => _ ← modify (with_resources (fs2.set_freezer_state prevState)); throw e
  end.

(** The state, after at most [fuel] polls. *)
Definition GetFreezerState (fuel : nat) (m : manager) (w : W) : option (W * result FreezerState) :=
  let dir := Path m "freezer" in
  if bool_decide (dir = "") then Some (w, Ok Undefined) else @GetState W (freezer_files dir) fuel w.

Definition GetPids (m : manager) : Act W (list Z) := cgroups.GetPids (Path m "devices").
Definition GetAllPids (depth : nat) (m : manager) : Act W (list Z) := cgroups.GetAllPids depth (Path m "devices").
Definition Exists (m : manager) : Act W bool := cgroups.PathExists (Path m "devices").
Definition Destroy (depth : nat) (m : manager) : Act W (list (string * string)) :=
  cgroups.RemovePaths depth (map_to_list (m_paths m)).
Definition OOMKillCount (m : manager) : Act W Z :=
  c ← try_ (fscommon.GetValueByKey (Path m "memory") "memory.oom_control" "oom_kill");
  match c with
  | Ok v => mret v
  | Err e => if configs.Rootless (m_cgroups m) && os_IsNotExist e then mret 0 else throw e
  end.
End ops.
End fs.
