(* ===== verification/CgroupV1Stats.v ===== *)
(** * The counters of cgroup v1: the GetStats methods of cgroups/fs *)

From S2P Require Import Prelude GoAct GoStrings GoPath GoFs UserDb DeviceEmulator SpecTypes CgroupFiles CgroupV2 CgroupV2Stats CgroupV1.

Open Scope string_scope.
Open Scope list_scope.
#[local] Open Scope Z_scope.

Module fsstats.
Import stats.

Definition malformedLine : error := fscommon.ParseError (ErrNew "malformed line").
Definition parse_err {A} (r : result A) : result A := match r with Ok a => Ok a | Err e => Err (fscommon.ParseError e) end.

(** *** cpuset lists: "0-3,7" *)

Definition cpu_range (s : string) : result (list Z) :=
  match split_n "-" 3 s with
  | [_; _; _] => Err (fscommon.ParseError (ErrNew "extra dash"))
  | [a; b] =>
      min ← parse_err (parse_uint 16 a);
      max ← parse_err (parse_uint 16 b);
      if max <? min then Err (fscommon.ParseError (ErrNew "invalid values, min > max"))
      else Ok (seqZ min (max - min + 1))
  | _ => value ← parse_err (parse_uint 16 s); Ok [value]
  end.
Fixpoint cpu_ranges (l : list string) : result (list Z) :=
  match l with [] => Ok [] | s :: l => a ← cpu_range s; b ← cpu_ranges l; Ok (a ++ b) end.
Definition parse_cpu_list (fileContent : string) : result (list Z) :=
  if bool_decide (fileContent = "") then Err (fscommon.ParseError (ErrNew "empty file")) else cpu_ranges (split ch_comma fileContent).

(** *** cpu.stat *)

Definition cpu_line (t : string) (v : Z) (c : CpuStats) : CpuStats :=
  let d := ThrottlingData_ c in
  if bool_decide (t = "nr_periods") then set_throttling (mkThrottling v (ThrottledPeriods d) (ThrottledTime d)) c
  else if bool_decide (t = "nr_throttled") then set_throttling (mkThrottling (Periods d) v (ThrottledTime d)) c
  else if bool_decide (t = "throttled_time") then set_throttling (mkThrottling (Periods d) (ThrottledPeriods d) v) c
  else c.

(** *** cpuacct *)

Definition nanosecondsInSecond : Z := 1000000000.
Definition clockTicks : Z := 100.
Definition ticks (v : Z) : Z := uint64 (v * nanosecondsInSecond) / clockTicks.
Definition parse_breakdown (data : string) : result (Z * Z) :=
  match fields data with
  | u :: uv :: s :: sv :: _ =>
      if negb (bool_decide (u = "user")) || negb (bool_decide (s = "system")) then Err malformedLine else
      user ← parse_err (parse_uint 64 uv);
      kernel ← parse_err (parse_uint 64 sv);
      Ok (ticks user, ticks kernel)
  | _ => Err malformedLine
  end.
Fixpoint parse_uints (l : list string) : result (list Z) :=
  match l with [] => Ok [] | s :: l => v ← parse_err (parse_uint 64 s); vs ← parse_uints l; Ok (v :: vs) end.
(** Kernel mode first, then user mode; the columns are cpu, user, system. *)
Fixpoint parse_modes (lines : list string) : result (list Z * list Z) :=
  match lines with
  | [] => Ok ([], [])
  | line :: ls =>
      match split_n ch_space 4 line with
      | [_; user; kernel] =>
          k ← parse_err (parse_uint 64 kernel);
          u ← parse_err (parse_uint 64 user);
          rest ← parse_modes ls;
          Ok (k :: rest.1, u :: rest.2)
      | _ => parse_modes ls
      end
  end.

(** *** memory.numa_stat *)

Definition getNUMAField (name : string) : option ((PageStats -> PageStats) -> PageUsageByNUMA -> PageUsageByNUMA) :=
  let inner g := fun f s => mkNUMA (g f (Inner s)) (Hierarchical s) in
  let hier g := fun f s => mkNUMA (Inner s) (g f (Hierarchical s)) in
  let total := fun f i => mkNUMAInner (f (n_Total i)) (n_File i) (n_Anon i) (n_Unevictable i) in
  let file := fun f i => mkNUMAInner (n_Total i) (f (n_File i)) (n_Anon i) (n_Unevictable i) in
  let anon := fun f i => mkNUMAInner (n_Total i) (n_File i) (f (n_Anon i)) (n_Unevictable i) in
  let unev := fun f i => mkNUMAInner (n_Total i) (n_File i) (n_Anon i) (f (n_Unevictable i)) in
  if bool_decide (name = "total") then Some (inner total) else if bool_decide (name = "file") then Some (inner file)
  else if bool_decide (name = "anon") then Some (inner anon) else if bool_decide (name = "unevictable") then Some (inner unev)
  else if bool_decide (name = "hierarchical_total") then Some (hier total)
  else if bool_decide (name = "hierarchical_file") then Some (hier file)
  else if bool_decide (name = "hierarchical_anon") then Some (hier anon)
  else if bool_decide (name = "hierarchical_unevictable") then Some (hier unev) else None.

(** [strconv.ParseUint(val, 0, 64)]: the prefix gives the base, and underscores may separate digits. *)
Definition hex_value (c : ascii) : option Z :=
  let n := nat_of_ascii c in
  if (48 <=? n)%nat && (n <=? 57)%nat then Some (Z.of_nat n - 48)
  else if (97 <=? n)%nat && (n <=? 102)%nat then Some (Z.of_nat n - 87)
  else if (65 <=? n)%nat && (n <=? 70)%nat then Some (Z.of_nat n - 55) else None.
(** [after_digit]: the character before was a digit, or the base prefix. *)
Fixpoint base_digits (base acc : Z) (after_digit : bool) (s : string) : option Z :=
  match s with
  | EmptyString => if after_digit then Some acc else None
  | String c s' =>
      if bool_decide (c = "_"%char) then if after_digit then base_digits base acc false s' else None
      else match hex_value c with
           | Some d => if d <? base then base_digits base (acc * base + d) true s' else None
           | None => None
           end
  end.
Definition parse_base0 (val : string) : result Z :=
  let '(base, prefixed, digits) :=
    match val with
    | String "0" (String ("x" | "X") t) => (16, true, t)
    | String "0" (String ("b" | "B") t) => (2, true, t)
    | String "0" (String ("o" | "O") t) => (8, true, t)
    | String "0" ((String _ _) as t) => (8, true, t)
    | _ => (10, false, val)
    end in
  match (if bool_decide (digits = "") then None else base_digits base 0 prefixed digits) with
  | None => Err (ErrNew "invalid syntax")
  | Some v => if v <? 2 ^ 64 then Ok v else Err (ErrNew "value out of range")
  end.

(** The columns after the first: N<id>=<pages>. *)
Fixpoint numa_nodes (cols : list string) (field : (PageStats -> PageStats) -> PageUsageByNUMA -> PageUsageByNUMA)
    (s : PageUsageByNUMA) : result PageUsageByNUMA :=
  match cols with
  | [] => Ok s
  | col :: cols =>
      match split_n fscommon.ch_equal 2 col with
      | [key; val] =>
          match key with
          | String "N" ((String _ _) as id) =>
              n ← parse_err (parse_uint 8 id);
              usage ← parse_err (parse_uint 64 val);
              numa_nodes cols field (field (fun p => mkPageStats (Total p) (<[n:=usage]> (Nodes p))) s)
          | _ => Err malformedLine
          end
      | _ => Err malformedLine
      end
  end.
Definition numa_line (line : string) (s : PageUsageByNUMA) : result PageUsageByNUMA :=
  match split_n ch_space 256 line with
  | [] => Ok s
  | first :: cols =>
      match split_n fscommon.ch_equal 2 first with
      | [key; val] =>
          match getNUMAField key with
          | None => Ok s
          | Some field =>
              total ← parse_err (parse_base0 val);
              numa_nodes cols field (field (fun _ => mkPageStats total ∅) s)
          end
      | _ => Ok s
      end
  end.
Fixpoint numa_lines (lines : list string) (s : PageUsageByNUMA) : result PageUsageByNUMA :=
  match lines with [] => Ok s | l :: ls => s ← numa_line l s; numa_lines ls s end.

(** *** blkio *)

Definition splitBlkioStatLine (c : ascii) : bool := bool_decide (c = ch_space) || bool_decide (c = ch_colon).
(** [None]: the total line is skipped. *)
Definition blkio_line (line : string) : result (option BlkioStatEntry) :=
  match fields_func splitBlkioStatLine line with
  | ma :: mi :: third :: rest =>
      major ← parse_err (parse_uint 64 ma);
      minor ← parse_err (parse_uint 64 mi);
      let '(op, val) := match rest with [v] => (third, v) | _ => ("", third) end in
      v ← parse_err (parse_uint 64 val);
      Ok (Some (mkBlkioEntry major minor op v))
  | [t; _] => if bool_decide (t = "Total") then Ok None else Err malformedLine
  | _ => Err malformedLine
  end.
Fixpoint blkio_lines (lines : list string) : result (list BlkioStatEntry) :=
  match lines with
  | [] => Ok []
  | l :: ls => e ← blkio_line l; es ← blkio_lines ls; Ok (match e with Some e => e :: es | None => es end)
  end.

(** The tables of the statistics, by their place in [BlkioStats]. *)
Inductive blkio_table := Sectors | ServiceTime | WaitTime | Merged | Queued | Time | Serviced | ServiceBytes.
Definition put_table (t : blkio_table) (l : list BlkioStatEntry) (b : BlkioStats) : BlkioStats :=
  let sel u old := match t, u with
    | Sectors, Sectors | ServiceTime, ServiceTime | WaitTime, WaitTime | Merged, Merged | Queued, Queued | Time, Time
    | Serviced, Serviced | ServiceBytes, ServiceBytes => l | _, _ => old end in
  mkBlkioStats (sel ServiceBytes (IoServiceBytesRecursive b)) (sel Serviced (IoServicedRecursive b)) (sel Queued (IoQueuedRecursive b))
    (sel ServiceTime (IoServiceTimeRecursive b)) (sel WaitTime (IoWaitTimeRecursive b)) (sel Merged (IoMergedRecursive b))
    (sel Time (IoTimeRecursive b)) (sel Sectors (SectorsRecursive b)).

Definition debugStats (prefix : string) : list (string * blkio_table) :=
  [(prefix +:+ "sectors_recursive", Sectors); (prefix +:+ "io_service_time_recursive", ServiceTime);
   (prefix +:+ "io_wait_time_recursive", WaitTime); (prefix +:+ "io_merged_recursive", Merged);
   (prefix +:+ "io_queued_recursive", Queued); (prefix +:+ "time_recursive", Time);
   (prefix +:+ "io_serviced_recursive", Serviced); (prefix +:+ "io_service_bytes_recursive", ServiceBytes)].
Definition orderedStats : list (list (string * blkio_table)) :=
  [debugStats "blkio.bfq.";
   [("blkio.bfq.io_serviced_recursive", Serviced); ("blkio.bfq.io_service_bytes_recursive", ServiceBytes)];
   debugStats "blkio.";
   [("blkio.throttle.io_serviced_recursive", Serviced); ("blkio.throttle.io_service_bytes_recursive", ServiceBytes)];
   [("blkio.throttle.io_serviced", Serviced); ("blkio.throttle.io_service_bytes", ServiceBytes)]].

Section stat.
Context {W : Type} `{CgroupFs W} (hugePageSizes : list string).
Notation Stat := (Act (W * Stats) unit).

(** A file that need not exist. *)
Definition unless_missing {A} (m : Act W A) : Act W (option A) :=
  r ← try_ m; match r with Ok a => mret (Some a) | Err e => if os_IsNotExist e then mret None else throw e end.

Definition getCpusetStat (path file : string) : Act W (list Z) :=
  fileContent ← fscommon.GetCgroupParamString path file; lift (parse_cpu_list fileContent).

(** [stats.X, err = get(...); if err != nil && !errors.Is(err, os.ErrNotExist) { return err }]: the
    zero value is stored when the file is missing.  (After another error the statistics are dropped.) *)
Definition store {A} (zero : A) (m : Act W A) (f : A -> CPUSetStats -> CPUSetStats) : Stat :=
  r ← try_ (from_fs m);
  match r with
  | Ok a => modify (on_cpuset (f a))
  | Err e => _ ← modify (on_cpuset (f zero)); if errors_is e ErrNotExist then mret tt else throw e
  end.
Definition Cpuset_GetStats (path : string) : Stat :=
  let uint file := fscommon.GetCgroupParamUint path file in
  _ ← store [] (getCpusetStat path "cpuset.cpus") (fun v s => mkCPUSetStats v (CPUExclusive s) (Mems s) (MemHardwall s) (MemExclusive s) (MemoryMigrate s) (MemorySpreadPage s) (MemorySpreadSlab s) (MemoryPressure s) (SchedLoadBalance s) (SchedRelaxDomainLevel s));
  _ ← store 0 (uint "cpuset.cpu_exclusive") (fun v s => mkCPUSetStats (CPUs s) v (Mems s) (MemHardwall s) (MemExclusive s) (MemoryMigrate s) (MemorySpreadPage s) (MemorySpreadSlab s) (MemoryPressure s) (SchedLoadBalance s) (SchedRelaxDomainLevel s));
  _ ← store [] (getCpusetStat path "cpuset.mems") (fun v s => mkCPUSetStats (CPUs s) (CPUExclusive s) v (MemHardwall s) (MemExclusive s) (MemoryMigrate s) (MemorySpreadPage s) (MemorySpreadSlab s) (MemoryPressure s) (SchedLoadBalance s) (SchedRelaxDomainLevel s));
  _ ← store 0 (uint "cpuset.mem_hardwall") (fun v s => mkCPUSetStats (CPUs s) (CPUExclusive s) (Mems s) v (MemExclusive s) (MemoryMigrate s) (MemorySpreadPage s) (MemorySpreadSlab s) (MemoryPressure s) (SchedLoadBalance s) (SchedRelaxDomainLevel s));
  _ ← store 0 (uint "cpuset.mem_exclusive") (fun v s => mkCPUSetStats (CPUs s) (CPUExclusive s) (Mems s) (MemHardwall s) v (MemoryMigrate s) (MemorySpreadPage s) (MemorySpreadSlab s) (MemoryPressure s) (SchedLoadBalance s) (SchedRelaxDomainLevel s));
  _ ← store 0 (uint "cpuset.memory_migrate") (fun v s => mkCPUSetStats (CPUs s) (CPUExclusive s) (Mems s) (MemHardwall s) (MemExclusive s) v (MemorySpreadPage s) (MemorySpreadSlab s) (MemoryPressure s) (SchedLoadBalance s) (SchedRelaxDomainLevel s));
  _ ← store 0 (uint "cpuset.memory_spread_page") (fun v s => mkCPUSetStats (CPUs s) (CPUExclusive s) (Mems s) (MemHardwall s) (MemExclusive s) (MemoryMigrate s) v (MemorySpreadSlab s) (MemoryPressure s) (SchedLoadBalance s) (SchedRelaxDomainLevel s));
  _ ← store 0 (uint "cpuset.memory_spread_slab") (fun v s => mkCPUSetStats (CPUs s) (CPUExclusive s) (Mems s) (MemHardwall s) (MemExclusive s) (MemoryMigrate s) (MemorySpreadPage s) v (MemoryPressure s) (SchedLoadBalance s) (SchedRelaxDomainLevel s));
  _ ← store 0 (uint "cpuset.memory_pressure") (fun v s => mkCPUSetStats (CPUs s) (CPUExclusive s) (Mems s) (MemHardwall s) (MemExclusive s) (MemoryMigrate s) (MemorySpreadPage s) (MemorySpreadSlab s) v (SchedLoadBalance s) (SchedRelaxDomainLevel s));
  _ ← store 0 (uint "cpuset.sched_load_balance") (fun v s => mkCPUSetStats (CPUs s) (CPUExclusive s) (Mems s) (MemHardwall s) (MemExclusive s) (MemoryMigrate s) (MemorySpreadPage s) (MemorySpreadSlab s) (MemoryPressure s) v (SchedRelaxDomainLevel s));
  store 0 (fscommon.GetCgroupParamInt path "cpuset.sched_relax_domain_level") (fun v s => mkCPUSetStats (CPUs s) (CPUExclusive s) (Mems s) (MemHardwall s) (MemExclusive s) (MemoryMigrate s) (MemorySpreadPage s) (MemorySpreadSlab s) (MemoryPressure s) (SchedLoadBalance s) v).

(** The error that ends a scan is not looked at. *)
Definition Cpu_GetStats (path : string) : Stat :=
  ls ← from_fs (unless_missing (cgroups.scan_file path "cpu.stat"));
  match ls with
  | None => mret tt
  | Some ls => fs2stats.key_values (fun t v => on_cpu (cpu_line t v)) ls.1
  end.

Definition getCpuUsageBreakdown (path : string) : Act W (Z * Z) :=
  data ← cgroups.ReadFile path "cpuacct.stat"; lift (parse_breakdown data).
Definition getPercpuUsage (path : string) : Act W (list Z) :=
  data ← cgroups.ReadFile path "cpuacct.usage_percpu"; lift (parse_uints (fields data)).
Definition getPercpuUsageInModes (path : string) : Act W (list Z * list Z) :=
  ls ← unless_missing (cgroups.scan_file path "cpuacct.usage_all");
  match ls with
  | None => mret ([], [])
  | Some ls =>
      out ← lift (parse_modes (tail ls.1));
      match ls.2 with Some e => throw (fscommon.ParseError e) | None => mret out end
  end.
Definition Cpuacct_GetStats (path : string) : Stat :=
  there ← from_fs (cgroups.PathExists path);
  if negb there then mret tt else
  um ← from_fs (getCpuUsageBreakdown path);
  totalUsage ← from_fs (fscommon.GetCgroupParamUint path "cpuacct.usage");
  percpuUsage ← from_fs (getPercpuUsage path);
  modes ← from_fs (getPercpuUsageInModes path);
  modify (on_cpu (set_usage (mkCpuUsage totalUsage percpuUsage modes.1 modes.2 um.2 um.1))).

Definition Pids_GetStats (path : string) : Stat :=
  there ← from_fs (cgroups.PathExists path);
  if negb there then mret tt else
  current ← from_fs (fscommon.GetCgroupParamUint path "pids.current");
  max ← from_fs (fscommon.GetCgroupParamUint path "pids.max");
  modify (set_pids (mkPidsStats current (if max =? max_uint64 then 0 else max))).

Definition Hugetlb_GetStats (path : string) : Stat :=
  there ← from_fs (cgroups.PathExists path);
  if negb there then mret tt else
  for_each (fun pageSize =>
    usage ← from_fs (fscommon.GetCgroupParamUint path ("hugetlb." +:+ pageSize +:+ ".usage_in_bytes"));
    maxUsage ← from_fs (fscommon.GetCgroupParamUint path ("hugetlb." +:+ pageSize +:+ ".max_usage_in_bytes"));
    failcnt ← from_fs (fscommon.GetCgroupParamUint path ("hugetlb." +:+ pageSize +:+ ".failcnt"));
    modify (put_hugetlb pageSize (mkHugetlbStats usage maxUsage failcnt))) hugePageSizes.

Definition getMemoryData (path name : string) : Act W MemoryData :=
  let moduleName := if bool_decide (name = "") then "memory" else "memory." +:+ name in
  r ← try_ (fscommon.GetCgroupParamUint path (moduleName +:+ ".usage_in_bytes"));
  match r with
  | Err e => if negb (bool_decide (name = "")) && os_IsNotExist e then mret zeroMemoryData else throw e
  | Ok usage =>
      maxUsage ← fscommon.GetCgroupParamUint path (moduleName +:+ ".max_usage_in_bytes");
      failcnt ← fscommon.GetCgroupParamUint path (moduleName +:+ ".failcnt");
      limit ← fscommon.GetCgroupParamUint path (moduleName +:+ ".limit_in_bytes");
      mret (mkMemoryData usage maxUsage failcnt limit)
  end.
Definition getPageUsageByNUMA (path : string) : Act W PageUsageByNUMA :=
  ls ← unless_missing (cgroups.scan_file path "memory.numa_stat");
  match ls with
  | None => mret zeroNUMA
  | Some ls =>
      s ← lift (numa_lines ls.1 zeroNUMA);
      match ls.2 with Some e => throw (fscommon.ParseError e) | None => mret s end
  end.
Definition Memory_GetStats (path : string) : Stat :=
  ls ← from_fs (unless_missing (cgroups.scan_file path "memory.stat"));
  match ls with
  | None => mret tt
  | Some ls =>
      _ ← fs2stats.key_values (fun t v => on_memory (put_stat t v)) ls.1;
      _ ← modify (on_memory (fun m => set_cache (default 0 (m_Stats m !! "cache")) m));
      u ← from_fs (getMemoryData path ""); _ ← modify (on_memory (set_m_usage u));
      u ← from_fs (getMemoryData path "memsw"); _ ← modify (on_memory (set_swap u));
      u ← from_fs (getMemoryData path "kmem"); _ ← modify (on_memory (set_kernel u));
      u ← from_fs (getMemoryData path "kmem.tcp"); _ ← modify (on_memory (set_kernel_tcp u));
      value ← from_fs (fscommon.GetCgroupParamUint path "memory.use_hierarchy");
      _ ← (if value =? 1 then modify (on_memory (set_hierarchy true)) else mret tt);
      n ← from_fs (getPageUsageByNUMA path);
      modify (on_memory (set_numa n))
  end.

(** A nil slice ([None]) for a missing file, and for one without entries. *)
Definition getBlkioStat (dir file : string) : Act W (option (list BlkioStatEntry)) :=
  ls ← unless_missing (cgroups.scan_file dir file);
  match ls with
  | None => mret None
  | Some ls =>
      es ← lift (blkio_lines ls.1);
      match ls.2 with Some e => throw (fscommon.ParseError e) | None => mret (match es with [] => None | _ => Some es end) end
  end.
(** The files of one group: whether the statistics are complete ([inl]), or the next group is tried. *)
Fixpoint blkio_group (path : string) (first : bool) (group : list (string * blkio_table)) : Act (W * Stats) (unit + unit) :=
  match group with
  | [] => mret (inr tt)
  | (file, table) :: rest =>
      r ← try_ (from_fs (getBlkioStat path file));
      match r with
      | Ok (Some es) =>
          _ ← modify (on_blkio (put_table table es));
          if bool_decide (rest = []) then mret (inl tt) else blkio_group path false rest
      | Ok None => if first then mret (inr tt) else mret (inl tt)
      | Err e => if first then mret (inr tt) else throw e
      end
  end.
Fixpoint blkio_groups (path : string) (groups : list (list (string * blkio_table))) : Stat :=
  match groups with
  | [] => mret tt
  | g :: gs => out ← blkio_group path true g; match out with inl _ => mret tt | inr _ => blkio_groups path gs end
  end.
Definition Blkio_GetStats (path : string) : Stat := blkio_groups path orderedStats.

Definition sys_GetStats (s : fs.subsystem) (path : string) : Stat :=
  match s with
  | fs.CpusetGroup => Cpuset_GetStats path
  | fs.MemoryGroup => Memory_GetStats path
  | fs.CpuGroup => Cpu_GetStats path
  | fs.CpuacctGroup => Cpuacct_GetStats path
  | fs.PidsGroup => Pids_GetStats path
  | fs.BlkioGroup => Blkio_GetStats path
  | fs.HugetlbGroup => Hugetlb_GetStats path
  | fs.RdmaGroup => fs2stats.statRdma path
  | _ => mret tt
  end.

Definition GetStats (hybrid : bool) (m : fs.manager) : Act W Stats := fun w =>
  let '((w, st), r) := for_each (fun s =>
    let path := fs.Path m (fs.sys_Name s) in
    if bool_decide (path = "") then mret tt else sys_GetStats s path) (fs.subsystems hybrid) (w, NewStats) in
  (w, match r with Ok _ => Ok st | Err e => Err e end).
End stat.
End fsstats.
