(* ===== verification/CgroupV1Paths.v ===== *)
(** * The directories of cgroup v1 subsystems: cgroups/v1_utils.go and cgroups/fs/paths.go

    Where each hierarchy is mounted, and the directory of a container in it. *)

From S2P Require Import Prelude GoStrings GoPath Configs Validator SpecTypes CgroupFiles CgroupV1.

Open Scope string_scope.
Open Scope list_scope.

Module v1paths.

(** What [mountinfo] says of a cgroup mount. *)
Record MountInfo := mkMountInfo { Mountpoint : string; Root : string; VFSOptions : string }.
(** [Mount] of cgroups/utils.go *)
Record Mount := mkMount { mt_Mountpoint : string; mt_Root : string; Subsystems : list string }.

(** What the code asks the system: [default_path] is the outcome of the checks on the directory of a
    subsystem below /sys/fs/cgroup (a directory, a mount point, of type cgroup), with symbolic links
    resolved; [default_root] that of the checks on /sys/fs/cgroup itself. *)
Record Env := mkEnv {
  unified : bool; mounts : result (list MountInfo); own : result (gmap string string);
  default_path : string -> option string; default_root : option string; root_exists : string -> result unit }.

Definition CgroupNamePrefix : string := "name=".
Definition defaultPrefix : string := "/sys/fs/cgroup".
Definition hybridMountpoint : string := "/sys/fs/cgroup/unified".
Definition errUnified : error := ErrNew "not implemented for cgroup v2 unified hierarchy".
Definition NotFoundError : error := ErrNew "mountpoint not found".
Definition IsNotFound (e : error) : bool := errors_is e NotFoundError.

Definition tryDefaultPath (env : Env) (cgroupPath subsystem : string) : option string :=
  if negb (has_prefix cgroupPath defaultPrefix) then None else default_path env (trim_prefix subsystem CgroupNamePrefix).

Fixpoint findCgroupMountpointAndRootFromMI (mounts : list MountInfo) (cgroupPath subsystem : string) : result (string * string) :=
  match mounts with
  | [] => Err NotFoundError
  | mi :: l =>
      if has_prefix cgroupPath (Mountpoint mi) && bool_decide (subsystem ∈ split ch_comma (VFSOptions mi))
      then Ok (Mountpoint mi, Root mi) else findCgroupMountpointAndRootFromMI l cgroupPath subsystem
  end.
Definition FindCgroupMountpointAndRoot (env : Env) (cgroupPath subsystem : string) : result (string * string) :=
  if unified env then Err errUnified else
  mi ← mounts env; findCgroupMountpointAndRootFromMI mi cgroupPath subsystem.
Definition FindCgroupMountpoint (env : Env) (cgroupPath subsystem : string) : result string :=
  if unified env then Err errUnified else
  if bool_decide (subsystem = "") then Ok hybridMountpoint else
  match tryDefaultPath env cgroupPath subsystem with
  | Some path => Ok path
  | None => mr ← FindCgroupMountpointAndRoot env cgroupPath subsystem; Ok mr.1
  end.

(** The loop over the options of one mount: the subsystems of the mount, and those seen so far. *)
Fixpoint mount_subsystems (all : bool) (opts : list string) (ss : gmap string bool) : list string * nat * gmap string bool :=
  match opts with
  | [] => ([], 0, ss)
  | opt :: l =>
      match ss !! opt with
      | Some seen =>
          if negb all && seen then mount_subsystems all l ss
          else let '(names, n, ss) := mount_subsystems all l (<[opt:=true]> ss) in (trim_prefix opt CgroupNamePrefix :: names, S n, ss)
      | None => mount_subsystems all l ss
      end
  end.
Fixpoint cgroup_mounts (all : bool) (total found : nat) (ss : gmap string bool) (mounts : list MountInfo) : list Mount :=
  match mounts with
  | [] => []
  | mi :: l =>
      let '(names, n, ss) := mount_subsystems all (split ch_comma (VFSOptions mi)) ss in
      let here := if (0 <? length names)%nat || all then [mkMount (Mountpoint mi) (Root mi) names] else [] in
      if negb all && (total <=? found + n)%nat then here else here ++ cgroup_mounts all total (found + n) ss l
  end.
Definition getCgroupMountsHelper (ss : gmap string bool) (mounts : list MountInfo) (all : bool) : list Mount :=
  cgroup_mounts all (size ss) 0 ss mounts.
Definition getCgroupMountsV1 (env : Env) (all : bool) : result (list Mount) :=
  mi ← mounts env;
  allSubsystems ← own env;
  Ok (getCgroupMountsHelper ((fun _ => false) <$> allSubsystems) mi all).

(** [getControllerPath], given whether the system is unified. *)
Definition controller_path (isUnified : bool) (subsystem : string) (cgroups : gmap string string) : result string :=
  if isUnified then Err errUnified else
  match cgroups !! subsystem with
  | Some p => Ok p
  | None => match cgroups !! (CgroupNamePrefix +:+ subsystem) with Some p => Ok p | None => Err NotFoundError end
  end.
Definition getControllerPath (env : Env) : string -> gmap string string -> result string := controller_path (unified env).
(** [Mount.GetOwnCgroup] *)
Definition Mount_GetOwnCgroup (isUnified : bool) (m : Mount) (cgroups : gmap string string) : result string :=
  match Subsystems m with [] => Err (ErrNew "no subsystem for mount") | s :: _ => controller_path isUnified s cgroups end.
Definition GetOwnCgroup (env : Env) (subsystem : string) : result string :=
  if unified env then Err errUnified else cgroups ← own env; getControllerPath env subsystem cgroups.
Definition getCgroupPathHelper (env : Env) (subsystem cgroup : string) : result string :=
  mr ← FindCgroupMountpointAndRoot env "" subsystem;
  relCgroup ← Rel mr.2 cgroup;
  Ok (Join [mr.1; relCgroup]).
Definition GetOwnCgroupPath (env : Env) (subsystem : string) : result string :=
  cgroup ← GetOwnCgroup env subsystem;
  if bool_decide (subsystem = "") then Ok hybridMountpoint else getCgroupPathHelper env subsystem cgroup.

(** *** paths.go *)

Definition rootPath (env : Env) : result string :=
  match default_root env with
  | Some r => Ok r
  | None =>
      mi ← getCgroupMountsV1 env false;
      match mi with
      | [] => Err (ErrNew "no cgroup mount found in mountinfo")
      | m :: _ => let root := Dir (mt_Mountpoint m) in _ ← root_exists env root; Ok root
      end
  end.

Definition innerPath (c : configs.Cgroup) : result string :=
  if (negb (bool_decide (configs.Name c = "")) || negb (bool_decide (configs.Parent c = ""))) && negb (bool_decide (configs.cg_Path c = ""))
  then Err (ErrNew "cgroup: either Path or Name and Parent should be used") else
  let innerPath := CleanPath (configs.cg_Path c) in
  Ok (if bool_decide (innerPath = "") then Join [CleanPath (configs.Parent c); CleanPath (configs.Name c)] else innerPath).

Definition subsysPath (env : Env) (root inner subsystem : string) : result string :=
  if IsAbs inner then mnt ← FindCgroupMountpoint env root subsystem; Ok (Join [root; Base mnt; inner])
  else parentPath ← GetOwnCgroupPath env subsystem; Ok (Join [parentPath; inner]).

Fixpoint init_paths (env : Env) (cg : configs.Cgroup) (root inner : string) (l : list fs.subsystem) : result (gmap string string) :=
  match l with
  | [] => Ok ∅
  | s :: l =>
      let name := fs.sys_Name s in
      match subsysPath env root inner name with
      | Err e => if IsNotFound e && (configs.SkipDevices (configs.cg_Resources cg) || negb (bool_decide (name = "devices")))
                 then init_paths env cg root inner l else Err e
      | Ok path => paths ← init_paths env cg root inner l; Ok (<[name:=path]> paths)
      end
  end.
Definition initPaths (env : Env) (hybrid : bool) (cg : configs.Cgroup) : result (gmap string string) :=
  root ← rootPath env;
  inner ← innerPath cg;
  init_paths env cg root inner (fs.subsystems hybrid).

(** ** Theorems *)

Lemma innerPath_tame (c : configs.Cgroup) (inner : string) : innerPath c = Ok inner -> tame inner.
Proof.
  unfold innerPath. destruct (_ && _); [done|]. intros [= <-]. case_bool_decide; [|apply tame_CleanPath].
  apply (tame_Join [CleanPath (configs.Parent c); CleanPath (configs.Name c)]). repeat constructor; apply tame_CleanPath.
Qed.

Lemma init_paths_in (env : Env) (cg : configs.Cgroup) (root inner : string) (l : list fs.subsystem) (paths : gmap string string) :
  init_paths env cg root inner l = Ok paths ->
  (forall name p, paths !! name = Some p -> subsysPath env root inner name = Ok p) /\
  (configs.SkipDevices (configs.cg_Resources cg) = false -> fs.DevicesGroup ∈ l -> is_Some (paths !! "devices")).
Proof.
  revert paths. induction l as [|t l IH]; intros paths; cbn [init_paths].
  { intros [= <-]. split; [by intros name p ?%lookup_empty_Some|]. by intros _ ?%elem_of_nil. }
  cbv zeta. destruct (subsysPath env root inner (fs.sys_Name t)) as [path|e] eqn:E.
  - intros H. apply bind_ok in H as (ps & Hps & [= <-]). apply IH in Hps as [H1 H2]. split.
    + intros name p [[<- <-]|[_ Hl]]%lookup_insert_Some; [done|by apply H1].
    + intros Hs [<-|Hin]%elem_of_cons; [by rewrite lookup_insert_eq; eauto|]. apply lookup_insert_is_Some'. right. by apply H2.
  - destruct (_ && _) eqn:Ec; [|done]. intros Hps. apply IH in Hps as [H1 H2]. split; [done|].
    intros Hs [<-|Hin]%elem_of_cons; [|by apply H2]. exfalso. rewrite Hs in Ec. by rewrite andb_false_r in Ec.
Qed.

(** The directories of a container in the v1 hierarchies: the devices subsystem is among them unless
    device rules are to be skipped, so its absence is an error; and for an absolute cgroup path every directory lies
    below the root of the hierarchies, whatever ".." elements the configuration has. *)
Theorem initPaths_sound (env : Env) (hybrid : bool) (cg : configs.Cgroup) (root inner : string) (paths : gmap string string) :
  rootPath env = Ok root -> IsAbs root = true -> innerPath cg = Ok inner -> IsAbs inner = true ->
  (forall name mnt, FindCgroupMountpoint env root name = Ok mnt -> Base mnt <> "..") ->
  initPaths env hybrid cg = Ok paths ->
  (configs.SkipDevices (configs.cg_Resources cg) = false -> is_Some (paths !! "devices")) /\
  map_Forall (fun _ p => below root p) paths.
Proof.
  intros Hroot Har Hinner Hai Hmnt. unfold initPaths. rewrite Hroot, Hinner. cbn [mbind result_bind]. intros H.
  apply init_paths_in in H as [H1 H2]. split; [intros Hs; apply H2; [done|]; apply elem_of_app; left; right; left|].
  intros name p Hp. apply H1 in Hp. unfold subsysPath in Hp. rewrite Hai in Hp. apply bind_ok in Hp as (mnt & Hm & Hp).
  assert (p = Join [root; Base mnt; inner]) as -> by congruence. rewrite Join_three by by destruct root.
  apply tame_below; [done|]. apply tame_slash; [by apply tame_Base, (Hmnt name)|by apply (innerPath_tame cg)].
Qed.
End v1paths.
