(* ===== verification/CgroupThms.v ===== *)
(** * What cgroup files promise, and the lemmas on reading and writing them

    [FilesLaws] states how the kernel treats the files of a cgroup that are there and may be
    accessed: opening and reading change nothing, a write that is accepted changes what the
    file shows.  The lemmas lift it to the packages cgroups and fscommon. *)

From S2P Require Import Prelude GoAct GoStrings GoPath GoFs UserDb DeviceEmulator SpecTypes CgroupFiles.

Open Scope string_scope.
Open Scope list_scope.
#[local] Open Scope Z_scope.

(** [contents]: what every file shows; [accepts p d c]: writing [d] to [p] makes it show [c]. *)
Class FilesLaws (W : Type) `{CgroupFs W} (contents : W -> gmap string string)
    (accepts : string -> string -> string -> Prop) : Prop := {
  open_law : forall w p fl c, contents w !! p = Some c ->
    exists w', sys_open p fl w = (w', Ok tt) /\ contents w' = contents w;
  open_missing_law : forall w p fl, contents w !! p = None ->
    exists w', sys_open p fl w = (w', Err ErrNotExist) /\ contents w' = contents w;
  read_law : forall w p c, contents w !! p = Some c ->
    exists w', sys_read p w = (w', Ok c) /\ contents w' = contents w;
  write_law : forall w p d c, is_Some (contents w !! p) -> accepts p d c ->
    exists w', sys_write p d w = (w', Ok tt) /\ contents w' = <[p:=c]> (contents w) }.

Definition nl : string := String ch_newline "".

(** ** Numbers as the kernel shows them *)

Lemma trim_left_word (s : string) (c : ascii) : is_space c = false -> trim_left (String c s) = String c s.
Proof. intros H. cbn [trim_left]. by rewrite H. Qed.

Lemma trim_right_nl (s : string) : str_forall (fun a => negb (is_space a)) s = true -> trim_right (s +:+ nl) = s.
Proof.
  induction s as [|c s IH]; [done|]. cbn [str_forall]. intros [Hc Hs]%andb_true_iff. rewrite app_cons. cbn [trim_right].
  rewrite IH by done. apply negb_true_iff in Hc. by rewrite Hc.
Qed.

Lemma trim_space_word (s : string) :
  s <> "" -> str_forall (fun a => negb (is_space a)) s = true -> trim_space (s +:+ nl) = s.
Proof.
  intros Hs H. unfold trim_space. destruct s as [|c s]; [done|]. pose proof H as H'.
  cbn [str_forall] in H. apply andb_true_iff in H as [Hc _]. apply negb_true_iff in Hc.
  rewrite app_cons, trim_left_word, <- app_cons by done. by apply trim_right_nl.
Qed.

Lemma trim_right_word (s : string) : str_forall (fun a => negb (is_space a)) s = true -> trim_right s = s.
Proof.
  induction s as [|c s IH]; [done|]. cbn [str_forall trim_right]. intros [Hc Hs]%andb_true_iff.
  rewrite IH by done. apply negb_true_iff in Hc. by rewrite Hc.
Qed.

Lemma trim_word (s : string) : s <> "" -> str_forall (fun a => negb (is_space a)) s = true -> trim_space s = s.
Proof.
  intros Hs H. unfold trim_space. destruct s as [|c s]; [done|]. pose proof H as H'.
  cbn [str_forall] in H. apply andb_true_iff in H as [Hc _]. apply negb_true_iff in Hc.
  rewrite trim_left_word by done. by apply trim_right_word.
Qed.

Lemma format_int_not_empty (z : Z) : 0 <= z -> format_int z <> "".
Proof. intros H. rewrite format_int_nonneg by done. apply pretty_N_not_empty. Qed.
Lemma number_digits (z : Z) : 0 <= z -> str_forall is_digit (format_int z) = true.
Proof. intros H. rewrite format_int_nonneg by done. apply digits_pretty_N. Qed.
Lemma digit_not_space (c : ascii) : is_digit c = true -> negb (is_space c) = true.
Proof. destruct c as [[] [] [] [] [] [] [] []]; done. Qed.
Lemma number_word (z : Z) : 0 <= z -> str_forall (fun a => negb (is_space a)) (format_int z) = true.
Proof. intros H. eapply str_forall_impl; [|by apply number_digits]. intros c. apply digit_not_space. Qed.
Lemma number_not_max (z : Z) : 0 <= z -> format_int z <> "max".
Proof. intros H E. pose proof (number_digits z H) as D. by rewrite E in D. Qed.

(** A limit, as the kernel shows it and as [GetCgroupParamUint] reads it: -1 is no limit. *)
Definition limit_text (v : Z) : string := if v =? -1 then "max" else format_int v.
Definition limit_value (v : Z) : Z := if v =? -1 then max_uint64 else v.
Definition is_limit (v : Z) : Prop := v = -1 \/ 0 <= v < 2 ^ 64.

Lemma limit_text_word (v : Z) : is_limit v ->
  limit_text v <> "" /\ str_forall (fun a => negb (is_space a)) (limit_text v) = true.
Proof.
  intros [->|Hv]; [done|]. unfold limit_text. destruct (Z.eqb_spec v (-1)); [lia|].
  split; [apply format_int_not_empty; lia|apply number_word; lia].
Qed.

Lemma parse_limit (v : Z) : is_limit v -> fscommon.parse_param_uint (limit_text v) = Ok (limit_value v).
Proof.
  intros Hv. destruct (limit_text_word v Hv) as [H1 H2]. unfold fscommon.parse_param_uint. rewrite trim_word by done.
  destruct Hv as [->|Hv]; [done|]. unfold limit_text, limit_value. destruct (Z.eqb_spec v (-1)); [lia|].
  rewrite bool_decide_eq_false_2 by (apply number_not_max; lia). unfold fscommon.ParseUint.
  by rewrite parse_uint_format_int.
Qed.

(** ** Files *)

Lemma Join_elem_inj (dir f g : string) :
  IsAbs dir = true -> good f -> good g -> Join [dir; f] = Join [dir; g] -> f = g.
Proof.
  intros Hd Hf Hg E. rewrite !Join_good_elem in E by done. apply (f_equal (comps true)) in E.
  rewrite !comps_below in E by by apply Forall_one. apply app_inj_2 in E as [_ E]; [|done]. by injection E.
Qed.

Lemma path_ne (dir f g : string) :
  IsAbs dir = true -> bool_decide (good f /\ good g /\ f <> g) = true -> Join [dir; f] <> Join [dir; g].
Proof. intros Hd (Hf & Hg & Hn)%bool_decide_eq_true_1 E. by apply Hn, (Join_elem_inj dir). Qed.

Lemma abs_not_empty (dir : string) : IsAbs dir = true -> dir <> "".
Proof. by destruct dir. Qed.

Lemma WriteFile_run {W} `{CgroupFs W} (dir file d : string) (w w1 w2 : W) :
  dir <> "" -> sys_open (Join [dir; file]) O_WRONLY w = (w1, Ok tt) -> sys_write (Join [dir; file]) d w1 = (w2, Ok tt) ->
  cgroups.WriteFile dir file d w = (w2, Ok tt).
Proof.
  intros Hd Ho Hw. unfold cgroups.WriteFile, cgroups.OpenFile. rewrite bool_decide_eq_false_2 by done.
  erewrite act_bind_run; [|by erewrite act_bind_run]. by apply wrapping_run.
Qed.

Section files.
Context {W : Type} `{CgroupFs W} {contents : W -> gmap string string} {accepts : string -> string -> string -> Prop}
  `{!FilesLaws W contents accepts}.

Lemma ReadFile_ok (w : W) (dir file c : string) :
  dir <> "" -> contents w !! Join [dir; file] = Some c ->
  exists w', cgroups.ReadFile dir file w = (w', Ok c) /\ contents w' = contents w.
Proof.
  intros Hd Hc. destruct (open_law w _ O_RDONLY c Hc) as (w1 & Ho & E1).
  destruct (read_law w1 (Join [dir; file]) c) as (w2 & Hr & E2); [by rewrite E1|].
  exists w2. split; [|congruence]. unfold cgroups.ReadFile, cgroups.OpenFile. rewrite bool_decide_eq_false_2 by done.
  erewrite act_bind_run; [exact Hr|]. by erewrite act_bind_run.
Qed.

Lemma ReadFile_missing (w : W) (dir file : string) :
  dir <> "" -> contents w !! Join [dir; file] = None ->
  exists w', cgroups.ReadFile dir file w = (w', Err ErrNotExist) /\ contents w' = contents w.
Proof.
  intros Hd Hc. destruct (open_missing_law w _ O_RDONLY Hc) as (w1 & Ho & E1). exists w1. split; [|done].
  unfold cgroups.ReadFile, cgroups.OpenFile. rewrite bool_decide_eq_false_2 by done. unfold mbind, Act_bind. by rewrite Ho.
Qed.

Lemma WriteFile_ok (w : W) (dir file d c : string) :
  dir <> "" -> is_Some (contents w !! Join [dir; file]) -> accepts (Join [dir; file]) d c ->
  exists w', cgroups.WriteFile dir file d w = (w', Ok tt) /\ contents w' = <[Join [dir; file]:=c]> (contents w).
Proof.
  intros Hd [c0 Hc] Ha. destruct (open_law w _ O_WRONLY c0 Hc) as (w1 & Ho & E1).
  destruct (write_law w1 (Join [dir; file]) d c) as (w2 & Hw & E2); [by rewrite E1, Hc|done|].
  exists w2. split; [|congruence]. by eapply WriteFile_run.
Qed.

Lemma param_limit (w : W) (dir file : string) (v : Z) :
  dir <> "" -> is_limit v -> contents w !! Join [dir; file] = Some (limit_text v +:+ nl) ->
  exists w', fscommon.GetCgroupParamUint dir file w = (w', Ok (limit_value v)) /\ contents w' = contents w.
Proof.
  intros Hd Hv Hc. destruct (ReadFile_ok w dir file _ Hd Hc) as (w' & Hr & E). exists w'. split; [|done].
  destruct (limit_text_word v Hv) as [H1 H2].
  unfold fscommon.GetCgroupParamUint, fscommon.GetCgroupParamString. erewrite act_bind_run; [|by erewrite act_bind_run].
  unfold lift. by rewrite trim_space_word, parse_limit.
Qed.

Lemma param_number (w : W) (dir file : string) (u : Z) :
  dir <> "" -> 0 <= u < 2 ^ 64 -> contents w !! Join [dir; file] = Some (format_int u +:+ nl) ->
  exists w', fscommon.GetCgroupParamUint dir file w = (w', Ok u) /\ contents w' = contents w.
Proof.
  intros Hd Hu Hc. replace (format_int u) with (limit_text u) in Hc by (unfold limit_text; destruct (Z.eqb_spec u (-1)); lia || done).
  apply param_limit in Hc; [|done|by right]. unfold limit_value in Hc. destruct (Z.eqb_spec u (-1)); [lia|done].
Qed.

Lemma scan_file_ok (w : W) (dir file text : string) :
  dir <> "" -> contents w !! Join [dir; file] = Some text ->
  exists w', cgroups.scan_file dir file w = (w', Ok (before_long (scan_lines text))) /\ contents w' = contents w.
Proof.
  intros Hd Hc. destruct (open_law w _ O_RDONLY text Hc) as (w1 & Ho & E1).
  destruct (read_law w1 (Join [dir; file]) text) as (w2 & Hr & E2); [by rewrite E1|].
  exists w2. split; [|congruence]. unfold cgroups.scan_file, cgroups.OpenFile. rewrite bool_decide_eq_false_2 by done.
  erewrite act_bind_run; [|by erewrite act_bind_run]. erewrite act_bind_run; [|by apply try_run]. done.
Qed.
End files.
