(* ===== verification/CgroupV2Thms.v ===== *)
(** * Theorems on the cgroup v2 manager *)

From S2P Require Import Prelude GoAct GoStrings GoPath GoFs Configs UserDb DeviceEmulator Validator ContainerState SpecTypes CgroupFiles CgroupV2 CgroupV2Stats CgroupThms.

Open Scope string_scope.
Open Scope list_scope.
#[local] Open Scope Z_scope.

Import fs2.

Lemma from_fs_run {W S A} (m : Act W A) (w w' : W) (s : S) (r : result A) : m w = (w', r) -> from_fs m (w, s) = ((w', s), r).
Proof. intros H. unfold from_fs. cbn. by rewrite H. Qed.

(** ** Memory limits: what is set is what the statistics show *)

(** A request for memory the manager accepts, and the memory+swap limit it stands for. *)
Definition valid_memory (r : configs.Resources) : Prop :=
  (configs.Memory r = -1 /\ (configs.MemorySwap r = 0 \/ configs.MemorySwap r = -1)) \/
  (0 < configs.Memory r < 2 ^ 63 /\ (configs.MemorySwap r = -1 \/ configs.Memory r <= configs.MemorySwap r < 2 ^ 63)).
Definition effective_swap (r : configs.Resources) : Z :=
  if (configs.Memory r =? -1) && (configs.MemorySwap r =? 0) then -1 else configs.MemorySwap r.
(** The swap limit that is written. *)
Definition swap_part (r : configs.Resources) : Z :=
  if effective_swap r =? -1 then -1 else effective_swap r - configs.Memory r.

Lemma effective_unlimited (r : configs.Resources) : valid_memory r -> configs.Memory r = -1 -> effective_swap r = -1.
Proof.
  intros H E. unfold valid_memory, effective_swap in *. rewrite E. cbn [andb Z.eqb Pos.eqb].
  destruct (Z.eqb_spec (configs.MemorySwap r) 0); lia.
Qed.

Lemma convert_valid (r : configs.Resources) : valid_memory r ->
  ConvertMemorySwapToCgroupV2Value (configs.MemorySwap r) (configs.Memory r) = Ok (swap_part r) /\ is_limit (swap_part r).
Proof.
  intros H. unfold ConvertMemorySwapToCgroupV2Value, swap_part, effective_swap, valid_memory, is_limit in *.
  repeat match goal with |- context [?a =? ?b] => destruct (Z.eqb_spec a b); cbn [andb orb] end; try lia;
    try (split; [f_equal; lia|lia]).
  destruct (Z.ltb_spec (configs.Memory r) 0); [lia|]. destruct (Z.ltb_spec (configs.MemorySwap r) (configs.Memory r)); [lia|].
  rewrite int64_id by (unfold is_int64; lia). split; [done|lia].
Qed.

Lemma swap_text (r : configs.Resources) : valid_memory r ->
  (if bool_decide (numToStr (swap_part r) = "") && (swap_part r =? 0) && (0 <? configs.MemorySwap r) then "0"
   else numToStr (swap_part r)) = limit_text (swap_part r).
Proof.
  intros H. unfold numToStr, limit_text. destruct (Z.eqb_spec (swap_part r) 0) as [E|E].
  - rewrite bool_decide_eq_true_2, E by done. unfold swap_part, effective_swap, valid_memory in *.
    destruct (Z.ltb_spec 0 (configs.MemorySwap r)); [done|]. exfalso. revert E.
    destruct (Z.eqb_spec (configs.Memory r) (-1)), (Z.eqb_spec (configs.MemorySwap r) 0); cbn [andb];
    repeat match goal with |- context [?a =? ?b] => destruct (Z.eqb_spec a b); cbn [andb] end; lia.
  - by rewrite andb_false_r.
Qed.

Section memory.
Context {W : Type} `{CgroupFs W} {contents : W -> gmap string string} {accepts : string -> string -> string -> Prop}
  `{!FilesLaws W contents accepts} (page : Z) (dir : string).

(** The kernel keeps limits in pages: a multiple of the page size is shown as it was written. *)
Definition keeps_limits : Prop := forall file v,
  file ∈ ["memory.max"; "memory.swap.max"; "memory.low"] -> is_limit v -> v = -1 \/ (page | v) ->
  accepts (Join [dir; file]) (limit_text v) (limit_text v +:+ nl).

(** The files of the memory controller, with readable counters. *)
Definition memory_files (w : W) : Prop :=
  (forall file, file ∈ ["memory.max"; "memory.swap.max"; "memory.low"] -> is_Some (contents w !! Join [dir; file])) /\
  (exists u, 0 <= u < 2 ^ 64 /\ contents w !! Join [dir; "memory.current"] = Some (format_int u +:+ nl)) /\
  (exists u, 0 <= u < 2 ^ 64 /\ contents w !! Join [dir; "memory.swap.current"] = Some (format_int u +:+ nl)) /\
  (exists text lines, contents w !! Join [dir; "memory.stat"] = Some text /\ before_long (scan_lines text) = (lines, None) /\
     Forall (fun t => is_ok (fscommon.ParseKeyValue t) = true) lines).

Lemma write_num_ok (w : W) (file : string) (v : Z) :
  IsAbs dir = true -> is_Some (contents w !! Join [dir; file]) -> v <> 0 -> accepts (Join [dir; file]) (limit_text v) (limit_text v +:+ nl) ->
  exists w', write_num dir file v w = (w', Ok tt) /\ contents w' = <[Join [dir; file]:=limit_text v +:+ nl]> (contents w).
Proof.
  intros Hd Hf Hv Ha. unfold write_num. assert (numToStr v = limit_text v) as ->.
  { unfold numToStr, limit_text. by destruct (Z.eqb_spec v 0). }
  rewrite bool_decide_eq_false_2.
  - apply WriteFile_ok; [by apply abs_not_empty|done|done].
  - unfold limit_text. destruct (Z.eqb_spec v (-1)); [done|]. intros E. unfold format_int in E. destruct v as [|p|p]; [done| |done].
    change (pretty (Z.pos p)) with (pretty (N.pos p)) in E. by apply pretty_N_not_empty in E.
Qed.

(** The memory controller with the two limits in place. *)
Definition shows_limits (w : W) (memory swap : Z) : Prop :=
  contents w !! Join [dir; "memory.max"] = Some (limit_text memory +:+ nl) /\
  contents w !! Join [dir; "memory.swap.max"] = Some (limit_text swap +:+ nl) /\
  memory_files w.

Definition page_limit (v : Z) : Prop := v = -1 \/ (page | v).

Lemma memory_files_put (w w' : W) (file c : string) :
  IsAbs dir = true -> file ∈ ["memory.max"; "memory.swap.max"; "memory.low"] ->
  contents w' = <[Join [dir; file]:=c]> (contents w) -> memory_files w -> memory_files w'.
Proof.
  intros Hd Hf E (Hl & Hu & Hs & Ht). unfold memory_files. rewrite E.
  assert (forall g, g ∈ ["memory.current"; "memory.swap.current"; "memory.stat"] -> Join [dir; file] <> Join [dir; g]) as Hne.
  { intros g Hg. apply path_ne; [done|]. repeat (apply elem_of_cons in Hf as [->|Hf]); try (by apply elem_of_nil in Hf);
      repeat (apply elem_of_cons in Hg as [->|Hg]); try (by apply elem_of_nil in Hg); by vm_compute. }
  split; [|by rewrite !lookup_insert_ne by (apply Hne; set_solver)].
  intros g Hg. destruct (decide (Join [dir; g] = Join [dir; file])) as [->|].
  - rewrite lookup_insert_eq. eauto.
  - rewrite lookup_insert_ne by done. by apply Hl.
Qed.

Lemma setMemory_ok (w : W) (r : configs.Resources) :
  IsAbs dir = true -> keeps_limits -> memory_files w -> valid_memory r ->
  page_limit (configs.Memory r) -> page_limit (effective_swap r) ->
  (configs.MemoryReservation r = 0 \/ is_limit (configs.MemoryReservation r) /\ page_limit (configs.MemoryReservation r)) ->
  exists w', setMemory dir r w = (w', Ok tt) /\ shows_limits w' (configs.Memory r) (swap_part r).
Proof.
  intros Hd Hk Hm Hv Hpm Hps Hres. destruct (convert_valid r Hv) as [Hc Hl]. unfold setMemory.
  assert (configs.Memory r <> 0 /\ is_limit (configs.Memory r)) as [Hm0 Hml] by (unfold valid_memory, is_limit in *; lia).
  replace (isMemorySet r) with true by (unfold isMemorySet; destruct (Z.eqb_spec (configs.Memory r) 0); [done|];
    cbn [negb]; by rewrite orb_true_r). cbn [negb].
  assert (page_limit (swap_part r)) as Hpp.
  { unfold page_limit, swap_part. destruct (Z.eqb_spec (effective_swap r) (-1)); [by left|].
    right. destruct Hpm as [Hpm|Hpm]; [by apply effective_unlimited in Hpm|].
    destruct Hps as [?|Hps]; [done|]. by apply Z.divide_sub_r. }
  destruct (WriteFile_ok w dir "memory.swap.max" (limit_text (swap_part r)) (limit_text (swap_part r) +:+ nl))
    as (w1 & H1 & E1); [by apply abs_not_empty|apply Hm; set_solver|apply Hk; [set_solver|done|done]|].
  pose proof (memory_files_put w w1 "memory.swap.max" _ Hd ltac:(set_solver) E1 Hm) as Hm1.
  destruct (write_num_ok w1 "memory.max" (configs.Memory r) Hd) as (w2 & H2 & E2);
    [apply Hm1; set_solver|done|apply Hk; [set_solver|done|done]|].
  pose proof (memory_files_put w1 w2 "memory.max" _ Hd ltac:(set_solver) E2 Hm1) as Hm2.
  assert (shows_limits w2 (configs.Memory r) (swap_part r)) as Hs2.
  { unfold shows_limits. rewrite E2, lookup_insert_eq, lookup_insert_ne, E1, lookup_insert_eq; [done|].
    apply path_ne; [done|by vm_compute]. }
  erewrite act_bind_run; [|apply lift_ok; split; [done|exact Hc]]. rewrite swap_text by done. unfold write_str.
  rewrite bool_decide_eq_false_2 by by apply limit_text_word.
  erewrite act_bind_run by exact H1. erewrite act_bind_run by exact H2.
  destruct Hres as [->|[Hrl Hrp]]; [by exists w2|].
  destruct (Z.eq_dec (configs.MemoryReservation r) 0) as [->|Hr0]; [by exists w2|].
  destruct (write_num_ok w2 "memory.low" (configs.MemoryReservation r) Hd) as (w3 & H3 & E3);
    [apply Hm2; set_solver|done|apply Hk; [set_solver|done|done]|].
  exists w3. split; [done|]. pose proof (memory_files_put w2 w3 "memory.low" _ Hd ltac:(set_solver) E3 Hm2) as Hm3.
  unfold shows_limits in *. rewrite E3, !lookup_insert_ne; [by destruct Hs2 as (? & ? & _)| |]; apply path_ne; done || by vm_compute.
Qed.

Lemma key_values_ok (f : string -> Z -> stats.Stats -> stats.Stats) (lines : list string) (w : W) (st : stats.Stats) :
  Forall (fun t => is_ok (fscommon.ParseKeyValue t) = true) lines ->
  exists st', fs2stats.key_values f lines (w, st) = ((w, st'), Ok tt).
Proof.
  intros Hl. revert st. induction Hl as [|t lines Ht _ IH]; intros st; [by exists st|]. cbn [fs2stats.key_values].
  destruct (fscommon.ParseKeyValue t) as [[k v]|]; [|done]. apply IH.
Qed.

Lemma memory_data_ok (w : W) (name : string) (u v : Z) :
  IsAbs dir = true -> 0 <= u < 2 ^ 64 -> is_limit v ->
  let m := if bool_decide (name = "") then "memory" else "memory." +:+ name in
  contents w !! Join [dir; m +:+ ".current"] = Some (format_int u +:+ nl) ->
  contents w !! Join [dir; m +:+ ".max"] = Some (limit_text v +:+ nl) ->
  exists w', fs2stats.getMemoryDataV2 dir name w = (w', Ok (stats.mkMemoryData u 0 0 (limit_value v))) /\ contents w' = contents w.
Proof.
  intros Hd Hu Hv m Hc Hm. apply abs_not_empty in Hd. destruct (param_number w dir _ u Hd Hu Hc) as (w1 & H1 & E1).
  destruct (param_limit w1 dir _ v Hd Hv (eq_trans (f_equal (lookup _) E1) Hm)) as (w2 & H2 & E2).
  exists w2. split; [|congruence]. unfold fs2stats.getMemoryDataV2. erewrite act_bind_run; [|by apply try_run].
  cbv beta iota. by erewrite act_bind_run by exact H2.
Qed.

Lemma statMemory_ok (w : W) (st : stats.Stats) (memory swap : Z) :
  IsAbs dir = true -> shows_limits w memory swap -> is_limit memory -> is_limit swap ->
  exists w' st', fs2stats.statMemory dir (w, st) = ((w', st'), Ok tt) /\ contents w' = contents w /\
    stats.Limit (stats.m_Usage (stats.MemoryStats_ st')) = limit_value memory /\
    stats.Limit (stats.SwapUsage (stats.MemoryStats_ st')) =
      if limit_value swap =? max_uint64 then max_uint64 else uint64 (limit_value swap + limit_value memory).
Proof.
  intros Hd (Hmax & Hswap & _ & (u & Hu & Hcur) & (us & Hus & Hscur) & (text & lines & Hst & Hlines & Hok)) Hm Hs.
  pose proof (abs_not_empty _ Hd) as Hne.
  destruct (scan_file_ok w dir "memory.stat" text Hne Hst) as (w1 & H1 & E1). rewrite Hlines in H1.
  destruct (key_values_ok (fun t v => stats.on_memory (stats.put_stat t v)) lines w1 st Hok) as (st1 & Hkv).
  unfold fs2stats.statMemory, fs2stats.stat_file.
  erewrite act_bind_run; [|erewrite act_bind_run; [|apply from_fs_run; exact H1]; by erewrite act_bind_run by exact Hkv].
  erewrite act_bind_run by reflexivity.
  destruct (memory_data_ok w1 "" u memory Hd Hu Hm) as (w2 & H2 & E2); [by rewrite E1|by rewrite E1|].
  erewrite act_bind_run; [|apply try_run, from_fs_run; exact H2]. cbv beta iota.
  erewrite act_bind_run by reflexivity.
  destruct (memory_data_ok w2 "swap" us swap Hd Hus Hs) as (w3 & H3 & E3); [by rewrite E2, E1|by rewrite E2, E1|].
  erewrite act_bind_run; [|apply from_fs_run; exact H3].
  eexists w3, _. split; [reflexivity|]. split; [congruence|]. split; [done|]. cbn.
  by destruct (Z.eqb_spec (limit_value swap) max_uint64) as [->|].
Qed.

(** C20. The memory limits survive the round trip through the kernel: after [setMemory] of a
    valid request, [statMemory] reports the requested memory limit, and the requested
    memory+swap limit, although the kernel keeps swap apart from memory; -1 reads as the largest
    number.  The call succeeds. *)
Theorem memory_round_trip (w : W) (r : configs.Resources) (st : stats.Stats) :
  IsAbs dir = true -> keeps_limits -> memory_files w -> valid_memory r ->
  page_limit (configs.Memory r) -> page_limit (effective_swap r) ->
  (configs.MemoryReservation r = 0 \/ is_limit (configs.MemoryReservation r) /\ page_limit (configs.MemoryReservation r)) ->
  exists w1 w2 st', setMemory dir r w = (w1, Ok tt) /\ fs2stats.statMemory dir (w1, st) = ((w2, st'), Ok tt) /\
    stats.Limit (stats.m_Usage (stats.MemoryStats_ st')) = limit_value (configs.Memory r) /\
    stats.Limit (stats.SwapUsage (stats.MemoryStats_ st')) = limit_value (effective_swap r).
Proof.
  intros Hd Hk Hm Hv Hpm Hps Hres. destruct (setMemory_ok w r) as (w1 & H1 & Hs); try done.
  destruct (convert_valid r Hv) as [_ Hl]. assert (is_limit (configs.Memory r)) as Hml by (unfold valid_memory, is_limit in *; lia).
  destruct (statMemory_ok w1 st _ _ Hd Hs Hml Hl) as (w2 & st' & H2 & _ & HL1 & HL2). exists w1, w2, st'.
  split; [done|]. split; [done|]. split; [done|]. rewrite HL2. clear -Hv.
  assert (effective_swap r = -1 \/ 0 < configs.Memory r <= effective_swap r /\ effective_swap r < 2 ^ 63) as [E|E].
  { unfold valid_memory, effective_swap in *. destruct (Z.eqb_spec (configs.Memory r) (-1)), (Z.eqb_spec (configs.MemorySwap r) 0); cbn; lia. }
  - unfold swap_part, limit_value. by rewrite E.
  - unfold swap_part, limit_value. destruct (Z.eqb_spec (effective_swap r) (-1)); [lia|].
    destruct (Z.eqb_spec (effective_swap r - configs.Memory r) (-1)); [lia|].
    destruct (Z.eqb_spec (effective_swap r - configs.Memory r) max_uint64); [unfold max_uint64 in *; lia|].
    destruct (Z.eqb_spec (configs.Memory r) (-1)); [lia|]. unfold uint64. rewrite Z.mod_small; lia.
Qed.
End memory.

(** ** Creating a cgroup *)

(** The directories of the hierarchy, by their elements, and those that hold processes.  A
    directory with neither a child nor a process can be removed. *)
Class DirLaws (W : Type) `{CgroupFs W} (dirs procs : W -> gset (list string)) : Prop := {
  open_keeps : forall p fl, keeps (fun w => (dirs w, procs w)) (sys_open p fl);
  read_keeps : forall p, keeps (fun w => (dirs w, procs w)) (sys_read p);
  write_keeps : forall p d, keeps (fun w => (dirs w, procs w)) (sys_write p d);
  mkdir_law : forall names w w' r, Forall good names -> sys_mkdir (render true names) w = (w', r) ->
    procs w' = procs w /\
    match r with
    | Ok _ => names ∉ dirs w /\ names ∉ procs w /\ dirs w' = {[names]} ∪ dirs w
    | Err e => dirs w' = dirs w /\ (os_IsExist e = true -> names ∈ dirs w)
    end;
  rmdir_law : forall names w, Forall good names -> names ∈ dirs w -> names ∉ procs w -> (forall c, names ++ [c] ∉ dirs w) ->
    exists w', sys_rmdir (render true names) w = (w', Ok tt) /\ dirs w' = dirs w ∖ {[names]} /\ procs w' = procs w }.

Section create.
Context {W : Type} `{CgroupFs W} {dirs procs : W -> gset (list string)} `{!DirLaws W dirs procs}.
Notation view := (fun w => (dirs w, procs w)).
#[local] Hint Resolve open_keeps read_keeps write_keeps : keeps.

Lemma OpenFile_keeps (dir file : string) (fl : OpenFlags) : keeps view (cgroups.OpenFile dir file fl).
Proof. unfold cgroups.OpenFile. solve_keeps. Qed.
#[local] Hint Resolve OpenFile_keeps : keeps.
Lemma ReadFile_keeps (dir file : string) : keeps view (cgroups.ReadFile dir file).
Proof. unfold cgroups.ReadFile. solve_keeps. Qed.
Lemma WriteFile_keeps (dir file d : string) : keeps view (cgroups.WriteFile dir file d).
Proof. unfold cgroups.WriteFile. solve_keeps. Qed.
#[local] Hint Resolve ReadFile_keeps WriteFile_keeps : keeps.
Lemma check_type_keeps (r : option configs.Resources) (p : string) : keeps view (check_type r p).
Proof. unfold check_type, without_domain. solve_keeps. Qed.
Lemma check_type_nil (r : option configs.Resources) (p : string) (w w' : W) :
  check_type r p w = (w', Ok NilDeref) -> r = None.
Proof.
  unfold check_type. intros (w1 & t & _ & Hk)%act_bind_ok. unfold without_domain in Hk.
  destruct r as [r|]; [exfalso|done]. cbv zeta in Hk.
  repeat (case_bool_decide || case_match); cbn [orb] in *; inv_act; congruence || discriminate.
Qed.
Lemma enable_keeps (p res : string) : keeps view (enable_controllers p res).
Proof. unfold enable_controllers. solve_keeps. Qed.
#[local] Hint Resolve check_type_keeps enable_keeps : keeps.

(** The directories this call created, the deepest first, on top of those of [w0]. *)
Record made_on (w0 w : W) (made : list (list string)) : Prop := {
  made_dirs : dirs w = list_to_set made ∪ dirs w0;
  made_procs : procs w = procs w0;
  made_deeper : StronglySorted (fun a b => (length b < length a)%nat) made;
  made_new : Forall (fun d => Forall good d /\ d ∉ dirs w0 /\ d ∉ procs w0) made }.

(** A directory is there only if its parent is. *)
Definition tree (D : gset (list string)) : Prop := forall names c, names ++ [c] ∈ D -> names ∈ D.

Lemma remove_all_ok (w0 w : W) (made : list (list string)) :
  tree (dirs w0) -> made_on w0 w made -> dirs (remove_all (map (render true) made) w).1 = dirs w0.
Proof.
  intros Ht. revert w. induction made as [|d made IH]; intros w [Hd Hp Hs Hg]; [change (dirs w = dirs w0); rewrite Hd; cbn; set_solver|].
  apply StronglySorted_inv in Hs as [Hs Hlt]. apply Forall_cons in Hg as [(Hgd & Hnd & Hnp) Hg].
  destruct (rmdir_law d w) as (w1 & Hr & Hd1 & Hp1); [done|rewrite Hd; set_solver|congruence| |].
  - intros c Hc. rewrite Hd in Hc. apply elem_of_union in Hc as [Hc|Hc]; [|by apply Hnd, (Ht _ c)].
    apply elem_of_list_to_set, elem_of_cons in Hc as [Hc|Hc].
    + apply (f_equal length) in Hc. rewrite length_app in Hc. cbn in Hc. lia.
    + rewrite Forall_forall in Hlt. apply Hlt in Hc. rewrite length_app in Hc. lia.
  - assert (made_on w0 w1 made) as Hm.
    { constructor; [|congruence|done|done]. rewrite Hd1, Hd. cbn.
      assert (d ∉ (list_to_set made : gset (list string))).
      { intros Hc%elem_of_list_to_set. rewrite Forall_forall in Hlt. apply Hlt in Hc. lia. }
      set_solver. }
    cbn [map]. unfold remove_all in *. cbn [for_each]. erewrite act_bind_run; [by apply IH|].
    erewrite act_bind_run; [|by apply try_run]. done.
Qed.

Lemma make_dir_ok (w0 w w' : W) (made : list (list string)) (names : list string) (r : result bool) :
  Forall good names -> made_on w0 w made -> Forall (fun d => (length d < length names)%nat) made ->
  make_dir (render true names) w = (w', r) ->
  match r with
  | Ok true => made_on w0 w' (names :: made) /\ names ∈ dirs w' /\ dirs w ⊆ dirs w'
  | Ok false => made_on w0 w' made /\ names ∈ dirs w' /\ dirs w ⊆ dirs w'
  | Err _ => made_on w0 w' made
  end.
Proof.
  intros Hg [Hd Hp Hs Hn] Hlt. unfold make_dir, mbind, Act_bind, try_.
  destruct (sys_mkdir (render true names) w) as [w1 m] eqn:E. destruct (mkdir_law names w w1 m Hg E) as [Hp1 Hm].
  destruct m as [u|e].
  - intros [= <- <-]. destruct Hm as (Hm1 & Hm2 & Hm3). split; [|set_solver]. constructor.
    + rewrite Hm3, Hd. cbn. set_solver.
    + congruence.
    + by constructor.
    + constructor; [|done]. split; [done|]. split; [set_solver|congruence].
  - destruct Hm as [Hm1 Hm2]. destruct (os_IsExist e); intros [= <- <-].
    + split; [by constructor; try congruence; rewrite Hm1|]. rewrite Hm1. auto.
    + constructor; congruence || done.
Qed.

Lemma made_on_view (w0 w w' : W) (made : list (list string)) : view w' = view w -> made_on w0 w made -> made_on w0 w' made.
Proof. intros [= H1 H2] [Hd Hp Hs Hn]. constructor; congruence || done. Qed.

(** One turn of the loop, up to the directory. *)
Lemma step_dir (w0 w w1 : W) (first : bool) (cur : list string) (e : string) (made : list (list string)) (mk : result bool) :
  Forall good (cur ++ [e]) -> made_on w0 w made -> Forall (fun d => (length d <= length cur)%nat) made ->
  (if first then mret false else make_dir (render true (cur ++ [e]))) w = (w1, mk) ->
  match mk with
  | Ok new => exists made1,
      map (render true) made1 = (if new then render true (cur ++ [e]) :: map (render true) made else map (render true) made) /\
      made_on w0 w1 made1 /\ Forall (fun d => (length d <= length (cur ++ [e]))%nat) made1 /\
      dirs w ⊆ dirs w1 /\ (first = false -> cur ++ [e] ∈ dirs w1)
  | Err _ => made_on w0 w1 made
  end.
Proof.
  intros Hg Hm Hlen E. assert (length (cur ++ [e]) = S (length cur)) as Hl by (rewrite length_app; cbn; lia).
  assert (Forall (fun d => (length d < length (cur ++ [e]))%nat) made) as Hlt by (eapply Forall_impl; [exact Hlen|]; cbn; lia).
  assert (Forall (fun d => (length d <= length (cur ++ [e]))%nat) made) as Hle by (eapply Forall_impl; [exact Hlt|]; cbn; lia).
  destruct first; [injection E as <- <-; by exists made|].
  apply (make_dir_ok w0 w w1 made) in E; [|done..].
  destruct mk as [[]|]; [| |done]; destruct E as (Hm1 & Hin & Hsub); [exists ((cur ++ [e]) :: made)|by exists made].
  split; [done|]. split; [done|]. split; [by constructor|done].
Qed.

Lemma create_dirs_ok (r : option configs.Resources) (res : string) (w0 : W) (es : list string) :
  Forall good es -> forall first cur made w w' created out,
  Forall good cur -> made_on w0 w made -> Forall (fun d => (length d <= length cur)%nat) made ->
  create_dirs r res first es (render true cur) (map (render true) made) w = (w', (created, out)) ->
  exists made', created = map (render true) made' /\ made_on w0 w' made' /\
    (out = Ok NilDeref -> r = None) /\
    (out = Ok Fits -> dirs w ⊆ dirs w' /\
       forall l, l `prefix_of` es -> (if first then 1 < length l else 0 < length l)%nat -> cur ++ l ∈ dirs w').
Proof.
  induction 1 as [|e es He Hes IH]; intros first cur made w w' created out Hcur Hmade Hlen; cbn [create_dirs].
  { intros [= <- <- <-]. exists made. do 3 (split; [done|]). intros _. split; [done|].
    intros l ->%prefix_nil_inv Hl. cbn in Hl. destruct first; lia. }
  rewrite Join_names by done. set (cur' := cur ++ [e]).
  assert (Forall good cur') as Hcur' by by apply Forall_snoc_2.
  assert (length cur' = S (length cur)) as Hl' by (unfold cur'; rewrite length_app; cbn; lia).
  destruct ((if first then mret false else make_dir (render true cur')) w) as [w1 mk] eqn:Emk.
  pose proof (step_dir w0 w w1 first cur e made mk Hcur' Hmade Hlen Emk) as Hmk. fold cur' in Hmk.
  destruct mk as [new|err]; [|intros [= <- <- <-]; by exists made].
  destruct Hmk as (made1 & <- & Hm1 & Hlen1 & Hsub1 & Hin1).
  match goal with |- (let '(_, _) := ?t in _) = _ -> _ => destruct t as [w2 step] eqn:Est end.
  assert (view w2 = view w1) as Hv.
  { refine (keeps_run view _ w1 w2 step _ Est). apply keeps_bind; [destruct first; solve_keeps|].
    intros []; [|apply keeps_ret]. case_bool_decide; solve_keeps. }
  pose proof (made_on_view w0 w1 w2 made1 Hv Hm1) as Hm2. injection Hv as Hv _.
  destruct step as [[]|err]; [|intros [= <- <- <-]; exists made1; do 2 (split; [done|]); split; [|done]|
    intros [= <- <- <-]; by exists made1].
  2: { intros _. apply act_bind_ok in Est as (w3 & [] & Hck & Hret); [apply act_bind_ok in Hret as (? & ? & _ & ?%ret_ok); naive_solver|].
       destruct first; [by apply ret_ok in Hck as [_ ?]|by apply check_type_nil in Hck]. }
  intros Hrec. apply IH in Hrec as (made' & -> & Hm' & Hnil & Hok); [|done|done|done]. exists made'. do 3 (split; [done|]).
  intros ->. destruct Hok as [Hsub' Hall]; [done|]. split; [rewrite Hv in Hsub'; set_solver|].
  intros l Hl Hlen'. destruct l as [|x l]; [destruct first; cbn in Hlen'; lia|].
  apply prefix_cons_inv_1 in Hl as Hx; subst x. apply prefix_cons_inv_2 in Hl.
  destruct l as [|y l].
  - destruct first; [cbn in Hlen'; lia|]. apply Hsub'. rewrite Hv. by apply Hin1.
  - specialize (Hall (y :: l) Hl). unfold cur' in Hall. rewrite <- app_assoc in Hall. apply Hall. cbn. lia.
Qed.

Definition mount_names : list string := ["sys"; "fs"; "cgroup"].

(** C21. Creating a cgroup is all or nothing: when [CreateCgroupPath] succeeds every directory on
    the way to the path exists and none was removed; when it fails, at whatever point, the
    directories are those from before the call.  The one exception is a panic: with nil Resources
    a threaded cgroup on the way makes [containsDomainController] dereference nil, the deferred
    removals do not run and directories created so far stay (none is lost).  The path is the mount
    point followed by proper names, and every directory there before has its parent. *)
Theorem create_all_or_nothing (w w' : W) (names : list string) (r : option configs.Resources) (out : result unit) :
  Forall good names -> tree (dirs w) ->
  CreateCgroupPath (render true (mount_names ++ names)) r w = (w', out) ->
  match out with
  | Ok _ => dirs w ⊆ dirs w' /\ forall l, l `prefix_of` names -> l <> [] -> mount_names ++ l ∈ dirs w'
  | Err e => dirs w' = dirs w \/ (r = None /\ e = ErrNilDeref /\ dirs w ⊆ dirs w')
  end.
Proof.
  intros Hg Ht. unfold CreateCgroupPath. assert (Forall good (mount_names ++ names)) as Hall.
  { apply Forall_app. split; [by apply (bool_decide_unpack _); vm_compute|done]. }
  destruct (negb _); [intros [= <- <-]; by left|]. unfold mbind at 1, Act_bind.
  destruct (supportedControllers w) as [w1 [content|e]] eqn:Es;
    assert (view w1 = view w) as Hv by (refine (keeps_run view _ w w1 _ _ Es); apply ReadFile_keeps);
    [|intros [= <- <-]; left; by injection Hv].
  assert (made_on w w1 []) as Hm0 by (injection Hv as ? ?; constructor; [cbn; set_solver|done|constructor|constructor]).
  cbn [mount_names app] in *. rewrite split_render by done. cbn [drop].
  unfold create_or_remove. destruct (create_dirs _ _ _ _ _ _ w1) as [w2 [created o]] eqn:Ec.
  apply (create_dirs_ok _ _ w ("cgroup" :: names) ltac:(by do 2 apply Forall_inv_tail in Hall) true ["sys"; "fs"] []) in Ec
    as (made & -> & Hm & Hnil & Hok); [|by apply (bool_decide_unpack _); vm_compute|done|constructor].
  destruct o as [[]|e]; intros [= <- <-]; [|right; split; [by apply Hnil|]; split; [done|]; rewrite (made_dirs _ _ _ Hm); set_solver|
    left; by apply remove_all_ok].
  destruct Hok as [Hsub Hin]; [done|]. injection Hv as Hv _. rewrite <- Hv. split; [done|]. intros l Hl Hne.
  apply (Hin ("cgroup" :: l)); [by apply prefix_cons|]. destruct l; [done|cbn; lia].
Qed.
End create.

(** ** The path of a cgroup *)

(** The directory of a cgroup is below the mount point, whatever path, parent or name the
    configuration gives: ".." elements cannot leave the hierarchy.  (The kernel shows a process's
    own cgroup as an absolute path.) *)
Theorem default_path_confined (self : result string) (c : configs.Cgroup) (p : string) :
  (forall own, parseCgroupFromReader self = Ok own -> IsAbs own = true) ->
  defaultDirPath self c = Ok p -> below UnifiedMountpoint p.
Proof.
  intros Hown. unfold defaultDirPath, _defaultDirPath. destruct (_ && _); [done|]. cbv zeta.
  set (inner := if bool_decide (CleanPath (configs.cg_Path c) = "") then _ else _).
  assert (tame inner) as Ht.
  { unfold inner. case_bool_decide; [|apply tame_CleanPath]. apply tame_Join.
    constructor; [apply tame_CleanPath|]. constructor; [apply tame_CleanPath|constructor]. }
  destruct (IsAbs inner); [intros [= <-]; exact (tame_below UnifiedMountpoint inner eq_refl Ht)|].
  intros H. apply bind_ok in H as (own & Ho & [= <-]). apply (tame_below UnifiedMountpoint (Dir own +:+ slash +:+ inner)); [done|]. apply tame_slash; [apply tame_Dir, Hown, Ho|done].
Qed.

(** ** Setting limits: the writes a request stands for

    An abstract view of [Set_]: the values in the order in which they are written, and the error
    that ends the list, if there is one. *)
Definition writes : Type := list (string * string).
Definition num_writes (file : string) (v : Z) : writes :=
  if bool_decide (numToStr v = "") then [] else [(file, numToStr v)].
Definition str_writes (file text : string) : writes := if bool_decide (text = "") then [] else [(file, text)].

Definition memory_plan (r : configs.Resources) : writes * option error :=
  if negb (isMemorySet r) then ([], None) else
  match ConvertMemorySwapToCgroupV2Value (configs.MemorySwap r) (configs.Memory r) with
  | Err e => ([], Some e)
  | Ok swap =>
      (str_writes "memory.swap.max" (if (swap =? 0) && (0 <? configs.MemorySwap r) then "0" else numToStr swap)
       ++ num_writes "memory.max" (configs.Memory r) ++ num_writes "memory.low" (configs.MemoryReservation r), None)
  end.
Definition io_plan (r : configs.Resources) : writes :=
  let throttled name := map (fun td => ("io.max", StringName td name)) in
  throttled "rbps" (configs.BlkioThrottleReadBpsDevice r) ++ throttled "wbps" (configs.BlkioThrottleWriteBpsDevice r)
  ++ throttled "riops" (configs.BlkioThrottleReadIOPSDevice r) ++ throttled "wiops" (configs.BlkioThrottleWriteIOPSDevice r).
Definition cpu_plan (r : configs.Resources) : writes :=
  (if configs.CpuWeight r =? 0 then [] else [("cpu.weight", format_int (configs.CpuWeight r))])
  ++ (if (configs.CpuQuota r =? 0) && (configs.CpuPeriod r =? 0) then []
      else [("cpu.max", (if 0 <? configs.CpuQuota r then format_int (configs.CpuQuota r) else "max") +:+ " "
                        +:+ format_int (if configs.CpuPeriod r =? 0 then 100000 else configs.CpuPeriod r))]).
(** The steps of a whole request.  A [Write] puts a text into a file of the cgroup; the steps whose
    writes depend on what the kernel answers (the weights, the device filter, the freezer) are
    those of the code, and a [Stop] is a request that is refused before anything is written. *)
Inductive step :=
  | Write (file text : string)
  | Weights
  | DevicesFilter
  | Freezer (state : FreezerState)
  | UnifiedKey (key value : string)
  | Stop (e : error).

Definition written (l : writes) : list step := map (fun fd => Write fd.1 fd.2) l.

Definition set_steps (r : configs.Resources) : list step :=
  written (num_writes "pids.max" (configs.PidsLimit r))
  ++ (let '(mem, err) := memory_plan r in written mem ++ match err with Some e => [Stop e] | None => [] end)
  ++ (if negb (configs.BlkioWeight r =? 0) || (0 <? length (configs.BlkioWeightDevice r))%nat then [Weights] else [])
  ++ written (io_plan r) ++ written (cpu_plan r)
  ++ (if configs.SkipDevices r then [] else [DevicesFilter])
  ++ written (str_writes "cpuset.cpus" (configs.CpusetCpus r) ++ str_writes "cpuset.mems" (configs.CpusetMems r))
  ++ written (map (fun h => ("hugetlb." +:+ configs.Pagesize h +:+ ".max", format_int (configs.Limit h))) (configs.HugetlbLimit r))
  ++ written (map (fun dl => ("rdma.max", fscommon.createCmdString dl.1 dl.2)) (default [] (configs.Rdma r)))
  ++ match configs.Freezer r with Undefined => [] | state => [Freezer state] end
  ++ map (fun kv => UnifiedKey kv.1 kv.2) (default [] (configs.Unified r)).

Section plan.
Context {W : Type} `{CgroupFs W}.

Definition write_all (dir : string) (l : writes) : Act W unit := for_each (fun fd => cgroups.WriteFile dir fd.1 fd.2) l.

(** The weights: io.bfq.weight where that file is, io.weight with a converted value where it is not;
    the weights of devices only where the kernel shows that it knows them. *)
Definition set_weights (dir : string) (weight : Z) (devices : list configs.WeightDevice) : Act W unit :=
  bfq ← open_bfq dir;
  _ ← (if weight =? 0 then mret tt else
       match bfq with
       | Some fd => sys_write fd (format_int weight)
       | None => cgroups.WriteFile dir "io.weight" (format_int (cgroups.ConvertBlkIOToIOWeightValue weight))
       end);
  supported ← bfqDeviceWeightSupported bfq;
  if supported : bool then
    for_each (fun wd => wrapping "setting device weight" (sys_write (default "" bfq) (WeightString wd +:+ String ch_newline ""))) devices
  else mret tt.

Definition run_step (userns : bool) (m : manager) (r : configs.Resources) (s : step) : Act W unit :=
  match s with
  | Write file text => cgroups.WriteFile (dirPath m) file text
  | Weights => set_weights (dirPath m) (configs.BlkioWeight r) (configs.BlkioWeightDevice r)
  | DevicesFilter =>
      res ← try_ (setDevices userns (dirPath m) r);
      match res with Err e => if configs.Rootless (config m) then mret tt else throw e | Ok _ => mret tt end
  | Freezer state => setFreezer (dirPath m) state
  | UnifiedKey key value =>
      if contains_char ch_slash key then throw (ErrNew "unified resource must be a file name (no slashes)") else
      res ← try_ (cgroups.WriteFile (dirPath m) key value);
      match res with Ok _ => mret tt | Err e => throw (unified_error m key e) end
  | Stop e => throw e
  end.

Lemma write_all_app (dir : string) (a b : writes) : write_all dir (a ++ b) ≡ write_all dir a ≫= (fun _ => write_all dir b).
Proof. apply for_each_app. Qed.
Lemma write_all_one (dir file text : string) : cgroups.WriteFile dir file text ≡ write_all dir [(file, text)].
Proof. symmetry. apply (for_each_one (fun fd => cgroups.WriteFile dir fd.1 fd.2) (file, text)). Qed.
Lemma write_num_plan (dir file : string) (v : Z) : write_num dir file v ≡ write_all dir (num_writes file v).
Proof. unfold write_num, num_writes. cbv zeta. case_bool_decide; [done|]. apply write_all_one. Qed.
Lemma write_str_plan (dir file text : string) : write_str dir file text ≡ write_all dir (str_writes file text).
Proof. unfold write_str, str_writes. case_bool_decide; [done|]. apply write_all_one. Qed.

Lemma setPids_plan (dir : string) (r : configs.Resources) : setPids dir r ≡ write_all dir (num_writes "pids.max" (configs.PidsLimit r)).
Proof.
  unfold setPids, isPidsSet. destruct (Z.eqb_spec (configs.PidsLimit r) 0) as [->|]; [done|]. apply write_num_plan.
Qed.

Lemma setMemory_plan (dir : string) (r : configs.Resources) : setMemory dir r ≡ (_ ← write_all dir (memory_plan r).1; match (memory_plan r).2 with Some e => throw e | None => mret tt end).
Proof.
  unfold setMemory, memory_plan. destruct (isMemorySet r); [|done]. cbn [negb].
  destruct (ConvertMemorySwapToCgroupV2Value _ _) as [swap|e]; [|done]. cbn [fst snd].
  rewrite act_bind_ret, !write_all_app, act_lift_bind. cbv zeta.
  assert ((if bool_decide (numToStr swap = "") && (swap =? 0) && (0 <? configs.MemorySwap r) then "0" else numToStr swap)
    = if (swap =? 0) && (0 <? configs.MemorySwap r) then "0" else numToStr swap) as ->.
  { destruct (Z.eqb_spec swap 0) as [->|]; [done|]. by rewrite andb_false_r. }
  apply act_bind_proper; [apply write_str_plan|intros _]. rewrite write_all_app.
  apply act_bind_proper; [apply write_num_plan|intros _]. apply write_num_plan.
Qed.

Lemma setCpu_plan (dir : string) (r : configs.Resources) : setCpu dir r ≡ write_all dir (cpu_plan r).
Proof.
  unfold setCpu, cpu_plan, isCpuSet. rewrite write_all_app.
  destruct (configs.CpuWeight r =? 0), (configs.CpuQuota r =? 0), (configs.CpuPeriod r =? 0); cbn [negb orb andb]; try done;
    repeat (apply act_bind_proper; [done || apply write_all_one|intros _]);
    done || apply write_all_one || by rewrite act_ret_bind.
Qed.

Lemma write_all_map {A} (dir : string) (g : A -> string * string) (l : list A) :
  write_all dir (map g l) ≡ for_each (fun a => cgroups.WriteFile dir (g a).1 (g a).2) l.
Proof. apply (for_each_map g). Qed.

Lemma not_long {A} (l : list A) : (0 <? length l)%nat = false -> l = [].
Proof. by destruct l. Qed.

Lemma io_unset (r : configs.Resources) : isIoSet r = false -> io_plan r = [].
Proof.
  unfold isIoSet, io_plan. rewrite !orb_false_iff. intros [[[[[_ _] H1] H2] H3] H4].
  by rewrite (not_long _ H1), (not_long _ H2), (not_long _ H3), (not_long _ H4).
Qed.

Lemma throttle_plan (dir : string) (r : configs.Resources) :
  (_ ← throttle_all dir "rbps" (configs.BlkioThrottleReadBpsDevice r);
   _ ← throttle_all dir "wbps" (configs.BlkioThrottleWriteBpsDevice r);
   _ ← throttle_all dir "riops" (configs.BlkioThrottleReadIOPSDevice r);
   throttle_all dir "wiops" (configs.BlkioThrottleWriteIOPSDevice r)) ≡ write_all dir (io_plan r).
Proof.
  unfold throttle_all, io_plan. cbv zeta.
  repeat (rewrite write_all_app; apply act_bind_proper; [by rewrite write_all_map|intros _]). by rewrite write_all_map.
Qed.

Lemma setIo_plan (dir : string) (r : configs.Resources) :
  setIo dir r ≡
    (_ ← (if negb (configs.BlkioWeight r =? 0) || (0 <? length (configs.BlkioWeightDevice r))%nat
          then set_weights dir (configs.BlkioWeight r) (configs.BlkioWeightDevice r) else mret tt);
     write_all dir (io_plan r)).
Proof.
  unfold setIo. destruct (isIoSet r) eqn:E; cbn [negb].
  2: { rewrite (io_unset r E). unfold isIoSet in E. rewrite !orb_false_iff in E. destruct E as [[[[[-> ->] _] _] _] _]. done. }
  destruct (negb (configs.BlkioWeight r =? 0) || _) eqn:Ew.
  - unfold set_weights. rewrite !act_bind_assoc. apply act_bind_proper; [done|intros bfq].
    rewrite act_bind_assoc. apply act_bind_proper; [by destruct (configs.BlkioWeight r =? 0)|intros _].
    rewrite act_bind_assoc. apply act_bind_proper; [done|intros supported].
    apply act_bind_proper; [done|intros _]. apply throttle_plan.
  - apply orb_false_iff in Ew as [-> _]. rewrite !act_ret_bind. cbn [bfqDeviceWeightSupported]. rewrite !act_ret_bind.
    apply throttle_plan.
Qed.

Lemma setCpuset_plan (dir : string) (r : configs.Resources) :
  setCpuset dir r ≡ write_all dir (str_writes "cpuset.cpus" (configs.CpusetCpus r) ++ str_writes "cpuset.mems" (configs.CpusetMems r)).
Proof.
  unfold setCpuset, isCpusetSet. destruct (bool_decide (configs.CpusetCpus r = "") && bool_decide (configs.CpusetMems r = "")) eqn:E.
  - apply andb_true_iff in E as [E1 E2]. rewrite E1, E2. unfold str_writes. by rewrite E1, E2.
  - rewrite <- negb_andb, E. cbn [negb]. rewrite write_all_app. apply act_bind_proper; [apply write_str_plan|intros _; apply write_str_plan].
Qed.

Lemma setHugeTlb_plan (dir : string) (r : configs.Resources) :
  setHugeTlb dir r ≡ write_all dir (map (fun h => ("hugetlb." +:+ configs.Pagesize h +:+ ".max", format_int (configs.Limit h))) (configs.HugetlbLimit r)).
Proof.
  unfold setHugeTlb, isHugeTlbSet. destruct (0 <? _)%nat eqn:E; [by rewrite write_all_map|]. by rewrite (not_long _ E).
Qed.

Lemma RdmaSet_plan (dir : string) (r : configs.Resources) :
  fscommon.RdmaSet dir r ≡ write_all dir (map (fun dl => ("rdma.max", fscommon.createCmdString dl.1 dl.2)) (default [] (configs.Rdma r))).
Proof. by rewrite write_all_map. Qed.

Section steps.
Context (userns : bool) (m : manager) (r : configs.Resources).
Notation run := (for_each (run_step userns m r)).

Lemma run_app (a b : list step) : run (a ++ b) ≡ run a ≫= (fun _ => run b).
Proof. apply for_each_app. Qed.
Lemma run_one (s : step) : run [s] ≡ run_step userns m r s.
Proof. apply for_each_one. Qed.
Lemma run_written (l : writes) : run (written l) ≡ write_all (dirPath m) l.
Proof. apply (for_each_map (fun fd => Write fd.1 fd.2)). Qed.
Lemma run_if (b : bool) (s : step) : run (if b then [s] else []) ≡ (if b then run_step userns m r s else mret tt).
Proof. destruct b; [apply run_one|done]. Qed.

Lemma run_memory : run (let '(mem, err) := memory_plan r in written mem ++ match err with Some e => [Stop e] | None => [] end)
  ≡ setMemory (dirPath m) r.
Proof.
  rewrite setMemory_plan. destruct (memory_plan r) as [mem [e|]]; cbn [fst snd]; rewrite run_app, run_written;
    (apply act_bind_proper; [done|intros _]); [apply run_one|done].
Qed.

Lemma run_devices : run (if configs.SkipDevices r then [] else [DevicesFilter]) ≡
  (devs ← try_ (setDevices userns (dirPath m) r);
   match devs with Err e => if configs.Rootless (config m) then mret tt else throw e | Ok _ => mret tt end).
Proof.
  destruct (configs.SkipDevices r) eqn:E; [|apply run_one]. unfold setDevices. rewrite E.
  change (try_ (mret tt : Act W unit)) with (mret (Ok tt) : Act W (result unit)). by rewrite act_ret_bind.
Qed.

Lemma run_freezer : run match configs.Freezer r with Undefined => [] | state => [Freezer state] end ≡ setFreezer (dirPath m) (configs.Freezer r).
Proof. destruct (configs.Freezer r); [done|apply run_one..]. Qed.

Lemma run_unified : run (map (fun kv => UnifiedKey kv.1 kv.2) (default [] (configs.Unified r))) ≡ setUnified m (default [] (configs.Unified r)).
Proof. apply (for_each_map (fun kv => UnifiedKey kv.1 kv.2)). Qed.

Lemma set_steps_run :
  run (set_steps r) ≡ (_ ← set_controllers_files userns m r; setUnified m (default [] (configs.Unified r))).
Proof.
  unfold set_steps, set_controllers_files. cbv zeta. rewrite ?act_bind_assoc.
  rewrite run_app. apply act_bind_proper; [rewrite run_written; symmetry; apply setPids_plan|intros _]. rewrite ?act_bind_assoc.
  rewrite run_app. apply act_bind_proper; [apply run_memory|intros _].
  rewrite setIo_plan, ?act_bind_assoc, run_app. apply act_bind_proper; [apply run_if|intros _]. rewrite ?act_bind_assoc.
  rewrite run_app. apply act_bind_proper; [apply run_written|intros _].
  rewrite ?act_bind_assoc, run_app. apply act_bind_proper; [rewrite run_written; symmetry; apply setCpu_plan|intros _].
  rewrite run_app, run_devices, ?act_bind_assoc. apply act_bind_proper; [done|intros devs].
  rewrite ?act_bind_assoc. apply act_bind_proper; [done|intros _].
  rewrite ?act_bind_assoc, run_app. apply act_bind_proper; [rewrite run_written; symmetry; apply setCpuset_plan|intros _].
  rewrite ?act_bind_assoc, run_app. apply act_bind_proper; [rewrite run_written; symmetry; apply setHugeTlb_plan|intros _].
  rewrite ?act_bind_assoc, run_app. apply act_bind_proper; [rewrite run_written; symmetry; apply RdmaSet_plan|intros _].
  rewrite run_app. apply act_bind_proper; [apply run_freezer|intros _]. apply run_unified.
Qed.
End steps.

(** C22. [Set] refines its plan, for every request and in every world: after it has learnt the
    controllers, [Set] runs the steps of [set_steps] in that order, each once, up to the first that
    fails, does nothing else to the system, and records the request only when all have succeeded; nil
    resources do nothing.  The plan names file and text of every limit of the pids, memory, io throttle,
    cpu, cpuset, hugetlb and rdma files and of the unified keys; the io weights, the device
    filter and the freezer, whose writes depend on what the kernel answers, are single steps in it. *)
Theorem Set_refines_plan (userns : bool) (r : option configs.Resources) :
  Set_ userns r ≡
    match r with
    | None => mret tt
    | Some r =>
        _ ← getControllers;
        m ← gets id;
        _ ← from_fs (for_each (run_step userns m r) (set_steps r));
        modify (set_resources r)
    end.
Proof.
  destruct r as [r|]; [|done]. cbn [Set_]. apply act_bind_proper; [done|intros _]. apply act_bind_proper; [done|intros m].
  rewrite (from_fs_proper _ _ (set_steps_run userns m r)), from_fs_bind, act_bind_assoc. done.
Qed.
End plan.

(** ** The freezer *)

Section freezer.
Context {W : Type} `{CgroupFs W}.

Lemma scan_events_next (lines : list string) (w w' : W) (i i' : nat) (b b' : bool) :
  scan_events lines i b w = (w', Ok (inr (i', b'))) -> (i <= i')%nat /\ (i <= maxIter -> i' <= maxIter)%nat /\ (b' = true -> b = true \/ i < i')%nat.
Proof.
  revert w i b. induction lines as [|line lines IH]; intros w i b; cbn [scan_events].
  - intros [= <- <- <-]. split; [lia|]. split; [lia|]. intros ->. by left.
  - destruct (Nat.eqb_spec i maxIter); [done|]. case_bool_decide; [apply IH|].
    destruct (trim_prefix line "frozen "); [done|]. case_bool_decide; [done|].
    intros (w1 & ? & _ & Hs)%act_bind_ok. apply IH in Hs as (? & ? & _). lia.
Qed.

(** Waiting for a cgroup to freeze ends: the loop never uses the readings it is given, because
    every reading but the last counts one turn towards [maxIter].  More readings change nothing. *)
Theorem waitFrozen_ends (fuel i : nat) (fd : string) (w : W) :
  (i <= maxIter)%nat -> (maxIter < fuel + i)%nat -> poll_events fuel fd i w = poll_events (maxIter + 2) fd i w.
Proof.
  assert (forall fuel fuel' i w, (i <= maxIter)%nat -> (maxIter < fuel + i)%nat -> (maxIter < fuel' + i)%nat ->
    poll_events fuel fd i w = poll_events fuel' fd i w) as Hgen; [|intros; apply Hgen; lia].
  clear. induction fuel as [|fuel IH]; intros fuel' i w Hi Hf Hf'; [lia|]. destruct fuel' as [|fuel']; [lia|].
  cbn [poll_events]. unfold mbind at 1 3, Act_bind. destruct (try_ (sys_read fd) w) as [w1 [text|e]]; [|done].
  destruct (Scanner text) as [lines err]. unfold mbind, Act_bind. destruct (scan_events lines i false w1) as [w2 [[st|[i' b]]|e]] eqn:Es; [done| |done].
  destruct err; [done|]. destruct b; [|done]. apply scan_events_next in Es as (H1 & H2 & H3). apply IH; [lia| |];
    destruct H3 as [?|?]; done || lia.
Qed.

(** The line that ends the wait. *)
Definition shows_frozen (text : result string) : Prop := exists line, line ∈ fst (Scanner text) /\ has_prefix "frozen 1" line = true.

Lemma trim_frozen (line t : string) : trim_prefix line "frozen " <> line -> trim_prefix line "frozen " = String "1" t -> has_prefix "frozen 1" line = true.
Proof.
  unfold trim_prefix. destruct (has_prefix "frozen " line) eqn:E; [|done]. apply has_prefix_spec in E as [s ->].
  rewrite drop_str_app. intros _ ->. change ("frozen " +:+ String "1" t) with ("frozen 1" +:+ t). apply has_prefix_app.
Qed.

Lemma scan_events_frozen (lines : list string) (w w' : W) (i : nat) (b : bool) (st : FreezerState) :
  scan_events lines i b w = (w', Ok (inl st)) -> st = Frozen /\ exists line, line ∈ lines /\ has_prefix "frozen 1" line = true.
Proof.
  revert w i b. induction lines as [|line lines IH]; intros w i b; cbn [scan_events]; [done|].
  destruct (Nat.eqb_spec i maxIter); [done|]. case_bool_decide as Et.
  - intros (? & l & Hl & Hp)%IH. split; [done|]. exists l. split; [by right|done].
  - destruct (trim_prefix line "frozen ") as [|c t] eqn:E; [done|]. case_bool_decide as Ec.
    + intros [= _ <-]. split; [done|]. exists line. split; [by left|]. subst c. apply (trim_frozen line t); congruence.
    + intros (w1 & ? & _ & (? & l & Hl & Hp)%IH)%act_bind_ok. split; [done|]. exists l. split; [by right|done].
Qed.

Lemma poll_events_frozen (fuel i : nat) (fd : string) (w w' : W) :
  poll_events fuel fd i w = (w', Ok Frozen) -> exists w1 w2 text, sys_read fd w1 = (w2, text) /\ shows_frozen text.
Proof.
  revert i w. induction fuel as [|fuel IH]; intros i w; cbn [poll_events]; [done|].
  intros (w1 & text & Ht%try_ok & Hk)%act_bind_ok. unfold shows_frozen. destruct (Scanner text) as [lines err] eqn:El.
  apply act_bind_ok in Hk as (w2 & [st|[i' b]] & Hs & Hk).
  - apply scan_events_frozen in Hs as [_ Hl]. exists w, w1, text. by rewrite El.
  - destruct err; [done|]. destruct b; [|done]. by apply IH in Hk.
Qed.

(** A successful freeze was seen: when [setFreezer] returns after a request to freeze, it has read
    a "frozen 1" line from the events of the cgroup; writing cgroup.freeze alone is not taken for
    success. *)
Theorem frozen_was_seen (dir : string) (w w' : W) :
  setFreezer dir Frozen w = (w', Ok tt) ->
  exists w1 w2 text, sys_read (Join [dir; "cgroup.events"]) w1 = (w2, text) /\ shows_frozen text.
Proof.
  cbn [setFreezer]. intros (w1 & o & Ho%try_ok & Hk)%act_bind_ok.
  destruct o as [fd|e]; [|by rewrite bool_decide_eq_true_2 in Hk].
  apply act_bind_ok in Hk as (w2 & [] & _ & (w3 & st & Hr & Hk)%act_bind_ok). case_bool_decide; [subst st|done].
  unfold readFreezer in Hr. apply act_bind_ok in Hr as (w4 & content & _ & Hr). case_bool_decide; [done|].
  cbv zeta in Hr. case_bool_decide; [done|]. case_bool_decide; [|done].
  unfold waitFrozen in Hr. apply act_bind_ok in Hr as (w5 & fd' & Hopen & Hr). unfold cgroups.OpenFile in Hopen.
  case_bool_decide; [done|]. apply act_bind_ok in Hopen as (w6 & [] & _ & [-> <-]%ret_ok). by apply poll_events_frozen in Hr.
Qed.
End freezer.

(** ** RDMA limits *)

Lemma parse_rdma_kv (k : string) (z : Z) (e : stats.RdmaEntry) :
  contains_char fscommon.ch_equal k = false -> 0 <= z < 2 ^ 32 ->
  fscommon.parseRdmaKV (k +:+ "=" +:+ format_int z) e =
    Ok (if bool_decide (k = "hca_handle") then stats.mkRdmaEntry (stats.Device e) z (stats.HcaObjects e)
        else if bool_decide (k = "hca_object") then stats.mkRdmaEntry (stats.Device e) (stats.HcaHandles e) z else e).
Proof.
  intros Hk Hz. unfold fscommon.parseRdmaKV. change ("=" +:+ format_int z) with (String fscommon.ch_equal (format_int z)).
  rewrite split_n_more, split_n_none by (done || apply format_int_char; lia || done).
  rewrite (bool_decide_eq_false_2 (format_int z = "max")) by (apply number_not_max; lia).
  by rewrite parse_uint_format_int by lia.
Qed.

(** The command that sets the RDMA limits of a device reads back as those limits. *)
Theorem rdma_round_trip (device : string) (h o : Z) :
  contains_char ch_space device = false -> 0 <= h < 2 ^ 32 -> 0 <= o < 2 ^ 32 ->
  fscommon.parse_rdma_line (fscommon.createCmdString device (configs.mkRdma (Some h) (Some o))) = Some (stats.mkRdmaEntry device h o).
Proof.
  intros Hd Hh Ho. unfold fscommon.parse_rdma_line, fscommon.createCmdString. cbn [configs.HcaHandles configs.HcaObjects].
  change (" hca_handle=" +:+ format_int h) with (String ch_space ("hca_handle=" +:+ format_int h)).
  rewrite app_cons.
  change (" hca_object=" +:+ format_int o) with (String ch_space ("hca_object=" +:+ format_int o)).
  assert (forall z, 0 <= z -> contains_char ch_space (format_int z) = false) as Hsp by (intros; by apply format_int_char).
  rewrite split_n_more by done. rewrite app_assoc_str. rewrite <- (app_assoc_str "hca_handle=").
  rewrite split_n_more by (rewrite contains_char_app, Hsp by lia; done).
  rewrite split_n_none by (rewrite contains_char_app, Hsp by lia; done).
  change ("hca_handle=" +:+ format_int h) with ("hca_handle" +:+ "=" +:+ format_int h).
  change ("hca_object=" +:+ format_int o) with ("hca_object" +:+ "=" +:+ format_int o).
  rewrite parse_rdma_kv by done. cbn [mbind result_bind]. by rewrite parse_rdma_kv by done.
Qed.
