(* ===== verification/CgroupV1Thms.v ===== *)
(** * Theorems on the cgroup v1 manager *)

From S2P Require Import Prelude GoAct GoStrings GoPath GoFs Devices Configs UserDb Validator ContainerState Freezer SpecTypes CgroupFiles CgroupV2 CgroupV2Stats CgroupV1 CgroupV1Stats CgroupThms CgroupV2Thms.

Open Scope string_scope.
Open Scope list_scope.
#[local] Open Scope Z_scope.

Import fs.

(** ** Updating memory and swap limits

    The kernel keeps the memory limit at or below the memory+swap limit: it refuses a write
    that would break this, so the order of the two writes matters. *)

(** [limit] and [memsw] of one memory cgroup [dir]; [fits v]: the usage can be brought down to [v].
    A limit of -1 is the largest one, [top]. *)
Class MemswLaws (W : Type) `{CgroupFs W} (dir : string) (limit memsw : W -> Z) (fits : Z -> Prop) (top : Z) : Prop := {
  memsw_open : forall file fl w, file ∈ [cgroupMemoryLimit; cgroupMemorySwapLimit] ->
    exists w', sys_open (Join [dir; file]) fl w = (w', Ok tt) /\ limit w' = limit w /\ memsw w' = memsw w;
  memsw_stat : forall w, exists w', sys_stat (Join [dir; cgroupMemorySwapLimit]) w = (w', Ok tt) /\ limit w' = limit w /\ memsw w' = memsw w;
  limit_read : forall w, 0 <= limit w < 2 ^ 64 ->
    exists w', sys_read (Join [dir; cgroupMemoryLimit]) w = (w', Ok (format_int (limit w) +:+ nl)) /\ limit w' = limit w /\ memsw w' = memsw w;
  limit_write : forall w v, let t := if v =? -1 then top else v in 0 <= t -> t <= memsw w -> fits t ->
    exists w', sys_write (Join [dir; cgroupMemoryLimit]) (format_int v) w = (w', Ok tt) /\ limit w' = t /\ memsw w' = memsw w;
  memsw_write : forall w v, let t := if v =? -1 then top else v in limit w <= t -> fits t ->
    exists w', sys_write (Join [dir; cgroupMemorySwapLimit]) (format_int v) w = (w', Ok tt) /\ limit w' = limit w /\ memsw w' = t }.

Section memsw.
Context {W : Type} `{CgroupFs W} {dir : string} {limit memsw : W -> Z} {fits : Z -> Prop} {top : Z}
  `{!MemswLaws W dir limit memsw fits top}.
Definition amount (v : Z) : Z := if v =? -1 then top else v.

Lemma setMemory_run (w : W) (v : Z) : dir <> "" -> v <> 0 -> 0 <= amount v -> amount v <= memsw w -> fits (amount v) ->
  exists w', setMemory dir v w = (w', Ok tt) /\ limit w' = amount v /\ memsw w' = memsw w.
Proof.
  intros Hd Hv H0 Hle Hf. destruct (memsw_open cgroupMemoryLimit O_WRONLY w) as (w1 & Ho & E1 & E2); [set_solver|].
  destruct (limit_write w1 v) as (w2 & Hw & E3 & E4); [done|by rewrite E2|done|]. exists w2.
  split; [|split; [done|congruence]]. unfold setMemory. destruct (Z.eqb_spec v 0); [done|].
  pose proof (WriteFile_run dir cgroupMemoryLimit (format_int v) w w1 w2 Hd Ho Hw) as Hr. by erewrite act_bind_run by (apply try_run; exact Hr).
Qed.

Lemma setSwap_run (w : W) (v : Z) : dir <> "" -> v <> 0 -> limit w <= amount v -> fits (amount v) ->
  exists w', setSwap dir v w = (w', Ok tt) /\ limit w' = limit w /\ memsw w' = amount v.
Proof.
  intros Hd Hv Hle Hf. destruct (memsw_open cgroupMemorySwapLimit O_WRONLY w) as (w1 & Ho & E1 & E2); [set_solver|].
  destruct (memsw_write w1 v) as (w2 & Hw & E3 & E4); [by rewrite E1|done|]. exists w2.
  split; [|split; [congruence|done]]. unfold setSwap. destruct (Z.eqb_spec v 0); [done|]. by eapply WriteFile_run.
Qed.

Lemma limit_shown (w : W) : dir <> "" -> 0 <= limit w < 2 ^ 64 ->
  exists w', fscommon.GetCgroupParamUint dir cgroupMemoryLimit w = (w', Ok (limit w)) /\ limit w' = limit w /\ memsw w' = memsw w.
Proof.
  intros Hd Hl. destruct (memsw_open cgroupMemoryLimit O_RDONLY w) as (w1 & Ho & E1 & E2); [set_solver|].
  destruct (limit_read w1) as (w2 & Hr & E3 & E4); [by rewrite E1|]. exists w2. split; [|split; congruence].
  rewrite E1 in Hr. unfold fscommon.GetCgroupParamUint, fscommon.GetCgroupParamString, cgroups.ReadFile, cgroups.OpenFile.
  rewrite bool_decide_eq_false_2 by done.
  erewrite act_bind_run; [|erewrite act_bind_run; [|erewrite act_bind_run; [|by erewrite act_bind_run]; exact Hr]; reflexivity].
  rewrite trim_space_word by (apply format_int_not_empty || apply number_word; lia).
  replace (format_int (limit w)) with (limit_text (limit w)) by (unfold limit_text; destruct (Z.eqb_spec (limit w) (-1)); lia || done).
  unfold lift. rewrite parse_limit by (right; lia). unfold limit_value. destruct (Z.eqb_spec (limit w) (-1)); [lia|done].
Qed.

(** A consistent request: the memory limit is at most the memory+swap limit. *)
Lemma write_limits_run (w : W) (memory swap : Z) :
  dir <> "" -> memory <> 0 -> swap <> 0 -> (swap = -1 \/ 0 < swap < 2 ^ 63) -> 0 <= amount memory <= amount swap -> amount swap <= top ->
  0 <= limit w <= memsw w -> memsw w <= top < 2 ^ 64 -> fits (amount memory) -> fits (amount swap) ->
  exists w', write_limits dir memory swap w = (w', Ok tt) /\ limit w' = amount memory /\ memsw w' = amount swap.
Proof.
  intros Hd Hm Hs Hr Ham Hat Hl Ht Hf1 Hf2. unfold write_limits.
  destruct (Z.eqb_spec memory 0); [done|]. destruct (Z.eqb_spec swap 0); [done|]. cbn [negb andb].
  destruct (limit_shown w) as (w1 & H1 & E1 & E2); [done|lia|].
  erewrite act_bind_run; [|by erewrite act_bind_run by exact H1].
  destruct ((swap =? -1) || (limit w <? uint64 swap)) eqn:Ec.
  - assert (limit w1 <= amount swap) as Hle.
    { rewrite E1. unfold amount in *. destruct (Z.eqb_spec swap (-1)); [lia|]. cbn [orb] in Ec. apply Z.ltb_lt in Ec.
      unfold uint64 in Ec. rewrite Z.mod_small in Ec; lia. }
    destruct (setSwap_run w1 swap Hd Hs Hle Hf2) as (w2 & H2 & E3 & E4). erewrite act_bind_run by exact H2.
    destruct (setMemory_run w2 memory) as (w3 & H3 & E5 & E6); [done|done|lia|by rewrite E4; lia|done|].
    exists w3. split; [done|]. split; [done|congruence].
  - apply orb_false_iff in Ec as [Ec1 Ec2]. apply Z.ltb_ge in Ec2. apply Z.eqb_neq in Ec1.
    assert (amount swap = swap) as Es by (unfold amount; destruct (Z.eqb_spec swap (-1)); done).
    unfold uint64 in Ec2. rewrite Z.mod_small in Ec2 by lia.
    destruct (setMemory_run w1 memory) as (w2 & H2 & E3 & E4); [done|done|lia|lia|done|]. erewrite act_bind_run by exact H2.
    destruct (setSwap_run w2 swap) as (w3 & H3 & E5 & E6); [done|done|lia|done|].
    exists w3. split; [done|]. split; [congruence|done].
Qed.

(** A consistent update of the memory limits always goes through: whatever the current limits are,
    [setMemoryAndSwap] writes the two new values in an order in which the kernel accepts both, and both
    are in force afterwards.  Raising an unset swap limit along with an unlimited memory limit is
    recorded in the resources. *)
Theorem memory_swap_update (w : W) (o : objects) :
  dir <> "" -> valid_memory (o_res o) ->
  amount (configs.Memory (o_res o)) <= top -> amount (effective_swap (o_res o)) <= top -> 0 <= top < 2 ^ 64 ->
  0 <= limit w <= memsw w -> memsw w <= top ->
  fits (amount (configs.Memory (o_res o))) -> fits (amount (effective_swap (o_res o))) ->
  exists w' o', setMemoryAndSwap dir (w, o) = ((w', o'), Ok tt) /\
    limit w' = amount (configs.Memory (o_res o)) /\ memsw w' = amount (effective_swap (o_res o)) /\
    configs.MemorySwap (o_res o') = effective_swap (o_res o).
Proof.
  intros Hd Hv Hm1 Hm2 Ht Hl Hlt Hf1 Hf2. unfold setMemoryAndSwap. destruct o as [r b]. cbn [o_res] in *.
  assert (configs.Memory r <> 0 /\ effective_swap r <> 0 /\ (effective_swap r = -1 \/ 0 < effective_swap r < 2 ^ 63) /\
    0 <= amount (configs.Memory r) <= amount (effective_swap r)) as (Hm0 & Hs0 & Hs & Ham).
  { unfold valid_memory, effective_swap, amount in *.
    destruct (Z.eqb_spec (configs.Memory r) (-1)), (Z.eqb_spec (configs.MemorySwap r) 0); cbn [andb] in *;
      repeat match goal with |- context [?a =? ?b] => destruct (Z.eqb_spec a b) end; lia. }
  erewrite act_bind_run by reflexivity. unfold effective_swap in *. cbn [o_res snd].
  destruct ((configs.Memory r =? -1) && (configs.MemorySwap r =? 0)) eqn:Ec.
  - destruct (memsw_stat w) as (w1 & Hst & E1 & E2).
    assert (cgroups.PathExists (Join [dir; cgroupMemorySwapLimit]) w = (w1, Ok true)) as Hp
      by (unfold cgroups.PathExists; by erewrite act_bind_run by (apply try_run; exact Hst)).
    erewrite act_bind_run; [|erewrite act_bind_run by (apply from_fs_run; exact Hp); reflexivity].
    erewrite act_bind_run by reflexivity. cbn [o_res fst snd set_o_res]. destruct r. cbn [set_MemorySwap configs.Memory configs.MemorySwap] in *.
    destruct (write_limits_run w1 Memory (-1)) as (w2 & H2 & E3 & E4); [done|done|done|by left|done|done|lia|lia|done|done|].
    eexists w2, _. split; [by apply from_fs_run|]. done.
  - erewrite act_bind_run by reflexivity. erewrite act_bind_run by reflexivity. cbn [o_res snd].
    destruct (write_limits_run w (configs.Memory r) (configs.MemorySwap r)) as (w2 & H2 & E3 & E4); [done|done|done|done|done|done|lia|lia|done|done|].
    eexists w2, _. split; [by apply from_fs_run|]. done.
Qed.
End memsw.

(** ** Limits are not dropped *)

(** Whether the resources ask a subsystem for anything. *)
Definition requests (userns : bool) (s : subsystem) (r : configs.Resources) : bool :=
  match s with
  | CpusetGroup => negb (bool_decide (configs.CpusetCpus r = "")) || negb (bool_decide (configs.CpusetMems r = ""))
  | DevicesGroup => negb (userns || configs.SkipDevices r)
  | MemoryGroup => negb (configs.Memory r =? 0) || negb (configs.MemorySwap r =? 0) || negb (configs.MemoryReservation r =? 0)
      || configs.OomKillDisable r || match configs.MemorySwappiness r with Some v => negb (int64 v =? -1) | None => false end
  | CpuGroup => negb (configs.CpuShares r =? 0) || negb (configs.CpuPeriod r =? 0) || negb (configs.CpuQuota r =? 0)
      || negb (configs.CpuRtPeriod r =? 0) || negb (configs.CpuRtRuntime r =? 0)
  | PidsGroup => negb (configs.PidsLimit r =? 0)
  | BlkioGroup => negb (configs.BlkioWeight r =? 0) || negb (configs.BlkioLeafWeight r =? 0)
      || existsb (fun wd => negb (configs.Weight wd =? 0) || negb (configs.LeafWeight wd =? 0)) (configs.BlkioWeightDevice r)
      || (0 <? length (configs.BlkioThrottleReadBpsDevice r))%nat || (0 <? length (configs.BlkioThrottleWriteBpsDevice r))%nat
      || (0 <? length (configs.BlkioThrottleReadIOPSDevice r))%nat || (0 <? length (configs.BlkioThrottleWriteIOPSDevice r))%nat
  | HugetlbGroup => (0 <? length (configs.HugetlbLimit r))%nat
  | NetClsGroup => negb (configs.NetClsClassid r =? 0)
  | NetPrioGroup => (0 <? length (configs.NetPrioIfpriomap r))%nat
  | FreezerGroup => negb (bool_decide (configs.Freezer r = Undefined))
  | RdmaGroup => (0 <? length (default [] (configs.Rdma r)))%nat
  | CpuacctGroup | PerfEventGroup | NameGroup _ _ => false
  end.

Section set_paths.
Context {W : Type} `{CgroupFs W}.
Notation requests_view userns s := (fun ws : W * objects => requests userns s (o_res ws.2)).

Lemma requests_swap (userns : bool) (s : subsystem) (r : configs.Resources) (v : Z) :
  configs.Memory r <> 0 -> requests userns s (set_MemorySwap v r) = requests userns s r.
Proof. intros Hm. destruct r, s; try done. cbn in *. by destruct (Z.eqb_spec Memory 0). Qed.

Lemma setMemoryAndSwap_requests (userns : bool) (s : subsystem) (path : string) : keeps (requests_view userns s) (setMemoryAndSwap path).
Proof.
  intros [w o]. unfold setMemoryAndSwap. erewrite act_bind_run by reflexivity. cbn [snd].
  apply (keeps_at_bind (requests_view userns s)).
  - destruct (Z.eqb_spec (configs.Memory (o_res o)) (-1)) as [Em|]; cbn [andb]; [|done].
    destruct (configs.MemorySwap (o_res o) =? 0); [|done]. unfold mbind, Act_bind, from_fs. cbn [fst snd].
    destruct (cgroups.PathExists _ w) as [w1 [[]|e]]; [|done..]. cbn. apply requests_swap. lia.
  - intros _. apply keeps_bind; [apply keeps_gets|intros r']. apply (keeps_from_fs (fun o => requests userns s (o_res o))).
Qed.

Lemma sys_Set_requests (userns : bool) (s t : subsystem) (path : string) : keeps (requests_view userns s) (sys_Set userns t path).
Proof.
  unfold sys_Set. apply keeps_bind; [apply keeps_gets|intros r].
  assert (forall m : Act W unit, keeps (requests_view userns s) (from_fs m)) as Hf.
  { intros m. apply (keeps_from_fs (fun o => requests userns s (o_res o))). }
  destruct t; try apply Hf; try apply keeps_ret.
  - unfold Memory_Set. apply keeps_bind; [apply setMemoryAndSwap_requests|intros _].
    apply keeps_bind; [apply keeps_gets|intros r']. apply Hf.
  - unfold Blkio_Set, detectWeightFilenames. apply keeps_bind.
    + apply keeps_bind; [apply keeps_gets|intros b]. destruct (negb _); [apply keeps_ret|]. apply keeps_bind.
      * apply (keeps_from_fs (fun o => requests userns s (o_res o))).
      * intros there. by apply (keeps_modify (fun o => requests userns s (o_res o))).
    + intros _. apply keeps_bind; [apply keeps_gets|intros b]. apply keeps_bind; [apply keeps_gets|intros r']. apply Hf.
Qed.

(** An action that fails in a world, and in every world. *)
Definition fails_at {V A} (m : Act V A) (v : V) : Prop := is_ok (m v).2 = false.
Definition fails {V A} (m : Act V A) : Prop := forall v, fails_at m v.

Lemma fails_at_bind {V A B} (m : Act V A) (k : A -> Act V B) (v : V) :
  (forall v' a, m v = (v', Ok a) -> fails_at (k a) v') -> fails_at (m ≫= k) v.
Proof. intros Hk. unfold fails_at, mbind, Act_bind. destruct (m v) as [v' [a|e]] eqn:E; [by apply Hk|done]. Qed.
Lemma fails_at_first {V A B} (m : Act V A) (k : A -> Act V B) (v : V) : fails_at m v -> fails_at (m ≫= k) v.
Proof. intros Hm. apply fails_at_bind. intros v' a E. unfold fails_at in Hm. by rewrite E in Hm. Qed.
Lemma fails_bind_l {V A B} (m : Act V A) (k : A -> Act V B) : fails m -> fails (m ≫= k).
Proof. intros Hm v. by apply fails_at_first. Qed.
Lemma fails_bind_r {V A B} (m : Act V A) (k : A -> Act V B) : (forall a, fails (k a)) -> fails (m ≫= k).
Proof. intros Hk v. apply fails_at_bind. intros v' a _. apply Hk. Qed.
Lemma fails_at_from_fs {S A} (m : Act W A) (w : W) (s : S) : fails_at m w -> fails_at (from_fs m) (w, s).
Proof. intros Hm. unfold fails_at, from_fs in *. cbn. by destruct (m w). Qed.
Lemma fails_write (file d : string) : fails (cgroups.WriteFile "" file d : Act W unit).
Proof. done. Qed.
Lemma fails_when (c : bool) (m : Act W unit) : c = true -> fails m -> fails (when_ c m).
Proof. by intros ->. Qed.
Lemma fails_each {A} (f : A -> Act W unit) (l : list A) (p : A -> bool) :
  existsb p l = true -> (forall a, p a = true -> fails (f a)) -> fails (for_each f l).
Proof.
  intros Hl Hf. induction l as [|a l IH]; [done|]. cbn in Hl. apply orb_true_iff in Hl as [Ha|Hl]; cbn [for_each].
  - by apply fails_bind_l, Hf.
  - by apply fails_bind_r; intros _; apply IH.
Qed.
Lemma fails_some {A} (f : A -> Act W unit) (l : list A) : (0 <? length l)%nat = true -> (forall a, fails (f a)) -> fails (for_each f l).
Proof. intros Hl Hf. destruct l as [|a l]; [done|]. by apply fails_bind_l. Qed.
Lemma fails_swap (v : Z) : negb (v =? 0) = true -> fails (setSwap "" v : Act W unit).
Proof. unfold setSwap. by destruct (v =? 0). Qed.
Lemma fails_memory (v : Z) : negb (v =? 0) = true -> fails (setMemory "" v : Act W unit).
Proof. unfold setMemory. by destruct (v =? 0). Qed.
Lemma fails_limits (memory swap : Z) : negb (memory =? 0) || negb (swap =? 0) = true -> fails (write_limits "" memory swap : Act W unit).
Proof.
  unfold write_limits. intros Hms. destruct (memory =? 0) eqn:Em, (swap =? 0) eqn:Es; try done; cbn [negb andb] in *.
  - apply fails_bind_r. intros []; [apply fails_bind_l, fails_swap|apply fails_bind_r; intros _; apply fails_swap]; by rewrite Es.
  - apply fails_bind_r. intros []; [apply fails_bind_r; intros _; apply fails_memory|apply fails_bind_l, fails_memory]; by rewrite Em.
Qed.
#[local] Hint Resolve fails_bind_l fails_write fails_when fails_swap fails_memory fails_limits fails_some : fails.

(** Find the step that fails: [H] says which value is requested. *)
Ltac find_failure :=
  repeat match goal with H : _ || _ = true |- _ => apply orb_true_iff in H as [H|H] end; try discriminate;
  repeat first [ solve [eauto 4 with fails] | match goal with Hx : existsb _ _ = true |- _ => apply fails_bind_l, (fails_each _ _ _ Hx) end
    | apply fails_bind_r; intros ].

Lemma freezer_empty (state : FreezerState) : state <> Undefined -> fails (FreezerGroup_Set "" state : Act W unit).
Proof.
  intros Hs w. unfold fails_at, FreezerGroup_Set, Freezer_Set. destruct state; [done| |done].
  unfold max_retries. change 1000%nat with (S 999). cbn [freeze_loop]. done.
Qed.

Lemma devices_empty (userns : bool) (r : configs.Resources) :
  negb (userns || configs.SkipDevices r) = true -> fails (Devices_Set userns "" r : Act W unit).
Proof. intros Hr w. unfold fails_at, Devices_Set, CgroupDevices.Set_. by destruct (userns || configs.SkipDevices r). Qed.

Lemma memory_empty (userns : bool) (w : W) (o : objects) :
  requests userns MemoryGroup (o_res o) = true -> fails_at (Memory_Set "") (w, o).
Proof.
  intros Hr. cbn [requests] in Hr. unfold Memory_Set.
  destruct (negb (configs.Memory (o_res o) =? 0) || negb (configs.MemorySwap (o_res o) =? 0)) eqn:Em.
  - apply fails_at_first. unfold setMemoryAndSwap. apply fails_at_bind. intros [w1 o1] r [= <- <- <-]. cbn [snd].
    destruct ((configs.Memory (o_res o) =? -1) && (configs.MemorySwap (o_res o) =? 0)) eqn:Ec.
    + apply andb_true_iff in Ec as [Ec1 Ec2]. apply fails_at_bind. intros [w1 o1] [] Hmid.
      apply fails_at_bind. intros [w2 o2] r [= <- <- <-]. apply fails_at_from_fs, fails_limits. cbn [snd].
      assert (configs.Memory (o_res o1) = configs.Memory (o_res o)) as ->.
      { apply act_bind_ok in Hmid as ([w3 o3] & there & Hp & Hmid). unfold from_fs in Hp. cbn in Hp.
        destruct (cgroups.PathExists _ w); injection Hp as <- <- _. destruct there; injection Hmid as <- <-; [|done].
        cbn. by destruct (o_res o). }
      apply Z.eqb_eq in Ec1. by rewrite Ec1.
    + apply fails_at_bind. intros [w1 o1] r [= <- <- <-]. apply fails_at_bind. intros [w2 o2] r [= <- <- <-].
      by apply fails_at_from_fs, fails_limits.
  - apply orb_false_iff in Em as [Em Es]. apply fails_at_bind. intros [w1 o1] [] Hset.
    apply fails_at_bind. intros [w2 o2] r [= <- <- <-]. cbn [snd].
    assert (o_res o1 = o_res o) as ->.
    { unfold setMemoryAndSwap in Hset. apply negb_false_iff, Z.eqb_eq in Em, Es.
      apply act_bind_ok in Hset as ([w3 o3] & r & [= <- <- <-] & Hset). cbn [snd] in Hset. rewrite Em in Hset. cbn [Z.eqb andb] in Hset.
      apply act_bind_ok in Hset as ([w3 o3] & [] & [= <- <-] & Hset). apply act_bind_ok in Hset as ([w3 o3] & r & [= <- <- <-] & Hset).
      unfold from_fs in Hset. destruct (write_limits _ _ _ _). by injection Hset as _ <- _. }
    apply fails_at_from_fs. cbn [negb orb] in Hr. clear Hset. revert w1.
    match goal with |- forall w, fails_at ?m w => change (fails m) end. find_failure. destruct (configs.MemorySwappiness (o_res o)) as [v|]; [|done].
    apply negb_true_iff in Hr. rewrite Hr. by destruct (v <=? 100).
Qed.

Lemma blkio_empty (userns : bool) (w : W) (o : objects) :
  requests userns BlkioGroup (o_res o) = true -> fails_at (Blkio_Set "") (w, o).
Proof.
  intros Hr. unfold Blkio_Set. apply fails_at_bind. intros [w1 o1] [] Hd.
  apply fails_at_bind. intros [w2 o2] b [= <- <- <-]. apply fails_at_bind. intros [w2 o2] r [= <- <- <-]. cbn [snd].
  assert (o_res o1 = o_res o) as ->.
  { assert (keeps (fun ws : W * objects => o_res ws.2) (detectWeightFilenames "")) as Hk.
    { unfold detectWeightFilenames. apply keeps_bind; [apply keeps_gets|intros b]. destruct (negb _); [apply keeps_ret|].
      apply keeps_bind; [apply (keeps_from_fs o_res)|intros there]. by apply (keeps_modify o_res). }
    by apply (keeps_run _ _ _ _ _ Hk) in Hd. }
  apply fails_at_from_fs. clear Hd. cbn [requests] in Hr. unfold blkio_throttle. revert w1.
  match goal with |- forall w, fails_at ?m w => change (fails m) end. generalize (o_blkio o1). intros b. find_failure.
  cbn beta. intros wd Hwd. find_failure.
Qed.

Lemma set_empty (userns : bool) (s : subsystem) (w : W) (o : objects) :
  requests userns s (o_res o) = true -> fails_at (sys_Set userns s "") (w, o).
Proof.
  intros Hr. unfold sys_Set. apply fails_at_bind. intros [w1 o1] r [= <- <- <-]. cbn [snd].
  destruct s; cbn [requests] in Hr; try done; try (by apply (memory_empty userns)); try (by apply (blkio_empty userns)); apply fails_at_from_fs;
    revert w; match goal with |- forall w, fails_at ?m w => change (fails m) end.
  - unfold Cpuset_Set. find_failure.
  - by apply devices_empty.
  - unfold Cpu_Set, SetRtSched. cbv zeta. destruct (negb (configs.CpuPeriod (o_res o) =? 0)) eqn:Ep; [|find_failure].
    by apply fails_bind_r; intros _; apply fails_bind_l.
  - unfold Pids_Set. find_failure.
  - unfold Hugetlb_Set. find_failure.
  - unfold NetCls_Set. find_failure.
  - unfold NetPrio_Set. find_failure.
  - apply freezer_empty. by apply negb_true_iff, bool_decide_eq_false_1 in Hr.
  - unfold fscommon.RdmaSet. find_failure.
Qed.

Lemma set_one_requests (userns : bool) (m : manager) (s t : subsystem) : keeps (requests_view userns s) (set_one userns m t).
Proof. unfold set_one. cbv zeta. apply keeps_bind; [apply keeps_try, sys_Set_requests|]. intros []; [|destruct (_ && _); [|case_bool_decide]]; done. Qed.

(** Limits are never dropped silently: when the manager reports that it set the resources, every
    subsystem that was asked for something has a cgroup.  Only device rules may go unset, for a rootless
    container. *)
Theorem limits_not_dropped (hybrid userns : bool) (m : manager) (s : subsystem) (w w' : W) (o o' : objects) :
  Set_ hybrid userns m (w, o) = ((w', o'), Ok tt) -> s ∈ subsystems hybrid -> requests userns s (o_res o) = true ->
  configs.Rootless (m_cgroups m) = false \/ sys_Name s <> "devices" -> Path m (sys_Name s) <> "".
Proof.
  unfold Set_. intros Hset Hs Hr Hroot Hp. apply act_bind_ok in Hset as ([w1 o1] & r & [= <- <- <-] & Hset). cbn [snd] in Hset.
  destruct (configs.Unified _); [done|]. revert w o Hset Hr. induction (subsystems hybrid) as [|t l IH]; intros w o Hset Hr.
  { by apply elem_of_nil in Hs. }
  cbn [for_each] in Hset. apply act_bind_ok in Hset as ([w1 o1] & [] & Ht & Hl).
  pose proof (keeps_run _ _ _ _ _ (set_one_requests userns m s t) Ht) as Hk. cbn in Hk.
  apply elem_of_cons in Hs as [<-|Hs]; [|by apply (IH Hs w1 o1); [|rewrite Hk]].
  unfold set_one in Ht. cbv zeta in Ht. rewrite Hp in Ht. apply act_bind_ok in Ht as ([w2 o2] & res & Hres%try_ok & Ht).
  pose proof (set_empty userns s w o Hr) as Hf. unfold fails_at in Hf. rewrite Hres in Hf.
  destruct res as [|e]; [done|]. destruct (configs.Rootless _ && bool_decide _) eqn:Ed; [|by rewrite bool_decide_eq_true_2 in Ht].
  apply andb_true_iff in Ed as [Ed1 Ed2]. apply bool_decide_eq_true_1 in Ed2. destruct Hroot; congruence.
Qed.

(** ** Joining *)

Lemma subsystem_names (hybrid : bool) : NoDup (map sys_Name (subsystems hybrid)).
Proof. apply (bool_decide_unpack _). by destruct hybrid; vm_compute. Qed.

(** A subsystem was joined, or its path was forgotten because a rootless container may not join it. *)
Definition joined_or_forgotten (c : configs.Cgroup) (pid : Z) (paths' : gmap string string) (s : subsystem) (p : string) : Prop :=
  (paths' !! sys_Name s = Some p /\ exists w1 w2 : W, sys_Apply s p (configs.cg_Resources c) pid w1 = (w2, Ok tt)) \/
  (paths' !! sys_Name s = None /\ configs.Rootless c = true /\ configs.cg_Path c = "").

Lemma apply_all_joined (c : configs.Cgroup) (pid : Z) (l : list subsystem) (w w' : W) (paths paths' : gmap string string) :
  NoDup (map sys_Name l) -> apply_all l c pid (w, paths) = ((w', paths'), Ok tt) ->
  (forall name, name ∉ map sys_Name l -> paths' !! name = paths !! name) /\
  forall s p, s ∈ l -> paths !! sys_Name s = Some p -> joined_or_forgotten c pid paths' s p.
Proof.
  revert w paths. induction l as [|t l IH]; intros w paths Hnd.
  { intros [= <- <-]. split; [done|]. by intros s p ?%elem_of_nil. }
  cbn [map] in *. apply NoDup_cons in Hnd as [Hn Hnd]. cbn [apply_all].
  intros ([w1 ps] & q & [= <- <- <-] & Hk)%act_bind_ok. cbn [id snd] in Hk.
  assert (forall s, s ∈ l -> sys_Name s <> sys_Name t) as Hdiff by (intros s Hs E; apply Hn; rewrite <- E; by apply list_elem_of_fmap_2).
  destruct (paths !! sys_Name t) as [pt|] eqn:Et.
  2: { apply IH in Hk as [Hfr Hall]; [|done]. split; [set_solver|]. intros s p [->|Hs]%elem_of_cons Hp; [congruence|by apply Hall]. }
  apply act_bind_ok in Hk as ([w2 ps] & res & Hres%try_ok & Hk). unfold from_fs in Hres. cbn in Hres.
  destruct (sys_Apply t pt (configs.cg_Resources c) pid w) as [w3 r3] eqn:Ea. injection Hres as <- <- <-.
  destruct r3 as [[]|e].
  - apply IH in Hk as [Hfr Hall]; [|done]. split; [set_solver|]. intros s p [->|Hs]%elem_of_cons Hp; [|by apply Hall].
    left. rewrite Hfr by done. split; [done|]. simplify_eq. by exists w, w3.
  - destruct (isIgnorableError _ e && _) eqn:Ei; [|done]. apply act_bind_ok in Hk as ([w4 ps] & [] & [= <- <-] & Hk).
    apply IH in Hk as [Hfr Hall]; [|done]. split.
    + intros name Hname. rewrite Hfr by set_solver. cbn. apply lookup_delete_ne. set_solver.
    + intros s p [->|Hs]%elem_of_cons Hp.
      * right. rewrite Hfr by done. cbn. rewrite lookup_delete_eq. apply andb_true_iff in Ei as [Ei1 Ei2]. apply bool_decide_eq_true_1 in Ei2.
        unfold isIgnorableError in Ei1. apply andb_true_iff in Ei1 as [Ei1 _]. done.
      * apply Hall; [done|]. cbn. rewrite lookup_delete_ne; [done|]. apply not_eq_sym. by apply Hdiff.
Qed.

(** After a successful [Apply] the process is in every cgroup the manager still lists: each subsystem
    that had a path was joined, or its path was forgotten, which happens only to a rootless container
    without a cgroup path. *)
Theorem applied_everywhere (hybrid : bool) (m m' : manager) (pid : Z) (w w' : W) (s : subsystem) (p : string) :
  Apply hybrid m pid w = (w', (m', Ok tt)) -> s ∈ subsystems hybrid -> m_paths m !! sys_Name s = Some p ->
  joined_or_forgotten (m_cgroups m) pid (m_paths m') s p.
Proof.
  unfold Apply. destruct (apply_all _ _ _ _) as [[w1 paths] r] eqn:E. intros [= <- <- ->] Hs Hp.
  apply apply_all_joined in E as [_ Hall]; [|apply subsystem_names]. by apply Hall.
Qed.

(** ** Freezing *)

Lemma freezer_state_back (s : FreezerState) (r : configs.Resources) :
  fs2.set_freezer_state (configs.Freezer r) (fs2.set_freezer_state s r) = r.
Proof. by destruct r. Qed.

(** A freeze that fails is taken back: the recorded state is the one from before the call, so a later
    [Set] does not freeze the container. *)
Theorem failed_freeze_forgotten (state : FreezerState) (w w' : W) (m m' : manager) (e : error) :
  Freeze state (w, m) = ((w', m'), Err e) -> m' = m.
Proof.
  unfold Freeze, mbind, Act_bind, gets, try_, from_fs, modify, throw, mret, Act_ret. cbn. case_bool_decide; [by intros [= <- <- <-]|].
  cbn. destruct (FreezerGroup_Set _ _ w) as [w1 [u|e1]]; [done|]. intros [= <- <- <-].
  destruct m as [c ps]. unfold with_resources. cbn. rewrite freezer_state_back. by destruct c.
Qed.

End set_paths.

(** ** Lists of processors *)

(** How the kernel shows a set of processors: the ranges of it. *)
Definition show_range (r : Z * Z) : string :=
  if r.1 =? r.2 then format_int r.1 else format_int r.1 +:+ "-" +:+ format_int r.2.
Definition range_ok (r : Z * Z) : Prop := 0 <= r.1 <= r.2 /\ r.2 < 2 ^ 16.
Definition range_members (r : Z * Z) : list Z := seqZ r.1 (r.2 - r.1 + 1).

Lemma range_no_char (c : ascii) (r : Z * Z) : range_ok r -> is_digit c = false -> c <> "-"%char -> contains_char c (show_range r) = false.
Proof.
  intros [H1 H2] Hc Hd. unfold show_range. destruct (r.1 =? r.2); [by apply format_int_char; [lia|]|].
  rewrite !contains_char_app, !format_int_char by (done || lia). cbn. by rewrite bool_decide_eq_false_2 by congruence.
Qed.

Lemma cpu_range_shown (r : Z * Z) : range_ok r -> fsstats.cpu_range (show_range r) = Ok (range_members r).
Proof.
  intros [H1 H2]. unfold fsstats.cpu_range, show_range, range_members. destruct (Z.eqb_spec r.1 r.2) as [E|E].
  - rewrite split_n_none by (apply format_int_char; [lia|done]). rewrite parse_uint_format_int by lia. cbn.
    rewrite E, Z.sub_diag. done.
  - change ("-" +:+ format_int r.2) with (String "-" (format_int r.2)).
    rewrite split_n_more, split_n_none by (apply format_int_char; [lia|done]).
    rewrite !parse_uint_format_int by lia. cbn. by destruct (Z.ltb_spec r.2 r.1); [lia|].
Qed.

(** A list of processors reads back: what the kernel shows for the ranges of a cpuset is parsed to
    the members of the ranges, in order. *)
Theorem cpu_list_round_trip (l : list (Z * Z)) :
  l <> [] -> Forall range_ok l ->
  fsstats.parse_cpu_list (join "," (map show_range l)) = Ok (concat (map range_members l)).
Proof.
  intros Hne Hl. unfold fsstats.parse_cpu_list. change "," with (String ch_comma "").
  rewrite bool_decide_eq_false_2.
  - rewrite split_join; [|by destruct l|].
    + clear Hne. induction Hl as [|r l Hr _ IH]; [done|]. cbn [map fsstats.cpu_ranges concat]. by rewrite cpu_range_shown, IH.
    + apply Forall_forall. intros s (r & -> & Hr)%list_elem_of_fmap. rewrite Forall_forall in Hl. apply range_no_char; [by apply Hl|done|done].
  - destruct l as [|r l]; [done|]. cbn [map]. apply join_cons_not_empty. apply Forall_inv in Hl as [H1 H2].
    unfold show_range. destruct (r.1 =? r.2); [apply format_int_not_empty; lia|].
    destruct (format_int r.1) eqn:E; [|done]. apply format_int_not_empty in E; [done|lia].
Qed.

(** ** Findings *)

(** Per-device weights are always taken to be supported: the buffer keeps the zero bytes that the read
    did not fill, so the default weight alone never parses as a number. *)
Lemma parse_digits_bad (s : string) (acc : Z) (c : ascii) : is_digit c = false -> contains_char c s = true -> parse_digits acc s = None.
Proof.
  intros Hc. revert acc. induction s as [|a s IH]; intros acc; [done|]. cbn [contains_char parse_digits].
  intros [Ha|Hs]%orb_true_iff.
  - apply bool_decide_eq_true_1 in Ha as ->. assert (digit_value c = None) as ->; [|done].
    unfold is_digit in Hc. by destruct (digit_value c).
  - destruct (digit_value a); [by apply IH|done].
Qed.

Lemma trim_left_keeps (c : ascii) (s : string) : is_space c = false -> contains_char c s = true -> contains_char c (trim_left s) = true.
Proof.
  intros Hc. induction s as [|a s IH]; [done|]. cbn [trim_left]. intros H. destruct (is_space a) eqn:Ea; [|done].
  cbn [contains_char] in H. apply orb_true_iff in H as [H|H]; [|by apply IH]. apply bool_decide_eq_true_1 in H. congruence.
Qed.
Lemma trim_right_keeps (c : ascii) (s : string) : is_space c = false -> contains_char c s = true -> contains_char c (trim_right s) = true.
Proof.
  intros Hc. induction s as [|a s IH]; [done|]. cbn [trim_right contains_char]. intros [H|H]%orb_true_iff.
  - apply bool_decide_eq_true_1 in H as ->. rewrite Hc. cbn. by rewrite bool_decide_eq_true_2.
  - specialize (IH H). rewrite (bool_decide_eq_false_2 (trim_right s = "")) by (by intros E; rewrite E in IH). rewrite andb_false_r.
    cbn. by rewrite IH, orb_true_r.
Qed.
Lemma read_buf_zero (n : nat) (s : string) : (String.length s < n)%nat -> contains_char (chr 0) (fs2.read_buf n s) = true.
Proof.
  revert s. induction n as [|n IH]; intros s Hs; [lia|]. destruct s as [|c s]; cbn in *; [done|].
  rewrite IH by lia. apply orb_true_r.
Qed.

Lemma bfq_weight_always_supported {W} `{CgroupFs W} (fd content : string) (w w' : W) :
  sys_read fd w = (w', Ok content) -> (String.length content < 32)%nat ->
  fs2.bfqDeviceWeightSupported (Some fd) w = (w', Ok true).
Proof.
  intros Hr Hl. unfold fs2.bfqDeviceWeightSupported. erewrite act_bind_run by (apply try_run; exact Hr). cbv zeta.
  assert (contains_char (chr 0) (trim_space (fs2.read_buf 32 content)) = true) as Hz.
  { unfold trim_space. apply trim_right_keeps; [done|]. apply trim_left_keeps; [done|]. by apply read_buf_zero. }
  enough (exists e, (atoi (trim_space (fs2.read_buf 32 content))).2 = Some e) as [e He] by (destruct (atoi _) as [v o]; cbn in He; by subst o).
  revert Hz. generalize (trim_space (fs2.read_buf 32 content)). intros s Hz. unfold atoi.
  destruct s as [|c s]; [done|]. cbn [contains_char] in Hz.
  destruct (bool_decide (c = chr 45)) eqn:E1; [|destruct (bool_decide (c = chr 43)) eqn:E2].
  - apply bool_decide_eq_true_1 in E1 as ->. rewrite bool_decide_eq_false_2 in Hz by done. cbn [orb] in Hz.
    destruct (bool_decide (s = "")); [by eexists|]. rewrite (parse_digits_bad s 0 (chr 0)) by done. by eexists.
  - apply bool_decide_eq_true_1 in E2 as ->. rewrite bool_decide_eq_false_2 in Hz by done. cbn [orb] in Hz.
    destruct (bool_decide (s = "")); [by eexists|]. rewrite (parse_digits_bad s 0 (chr 0)) by done. by eexists.
  - rewrite bool_decide_eq_false_2 by done. rewrite (parse_digits_bad (String c s) 0 (chr 0)) by done. by eexists.
Qed.

(** The combined limit wraps around when swap is limited and memory is not. *)
Lemma swap_limit_wraps (mu su s : Z) :
  0 < s < max_uint64 ->
  stats.Limit (fs2stats.combine_swap (stats.mkMemoryData mu 0 0 max_uint64) (stats.mkMemoryData su 0 0 s)) = s - 1.
Proof.
  intros Hs. cbn. destruct (Z.eqb_spec s max_uint64); [lia|]. unfold uint64, max_uint64 in *.
  replace (s + (2 ^ 64 - 1)) with (s - 1 + 1 * 2 ^ 64) by lia. rewrite Z.mod_add, Z.mod_small; lia.
Qed.

(** A processor limit alone keeps a container out of a threaded cgroup, although the controller is threaded. *)
Lemma cpu_counts_as_domain (r : configs.Resources) : negb (configs.CpuWeight r =? 0) = true -> fs2.containsDomainController r = true.
Proof. intros Hw. unfold fs2.containsDomainController, fs2.isCpuSet. rewrite Hw. cbn. by rewrite orb_true_r. Qed.
