(* ===== verification/CgroupExample.v ===== *)
(** * A small cgroup file system, and the theorems at work on it

    [kernel] is a map of files and a set of directories in which every write is accepted and shown
    back; [memsw_kernel] is one memory cgroup of version 1 that enforces the order of its two limits.
    They satisfy the laws the theorems assume. *)

From S2P Require Import Prelude GoAct GoStrings GoPath GoFs Devices Configs UserDb DeviceEmulator Validator ContainerState Freezer SpecTypes SpecConv CgroupFiles CgroupV2 CgroupV2Stats CgroupV1 CgroupV1Stats CgroupV1Paths CgroupThms CgroupV2Thms CgroupV1Thms.

Open Scope string_scope.
Open Scope list_scope.
#[local] Open Scope Z_scope.

(** ** Files and directories *)

Record kernel := mkKernel { k_files : gmap string string; k_dirs : gset (list string) }.

Definition has_child (k : kernel) (names : list string) : bool :=
  bool_decide (filter (fun d => removelast d = names /\ d <> []) (k_dirs k) <> ∅).

#[global] Instance kernel_fs : CgroupFs kernel := {|
  sys_open := fun p _ k => (k, if bool_decide (is_Some (k_files k !! p)) then Ok tt else Err ErrNotExist);
  sys_write := fun p d k => (mkKernel (<[p:=d +:+ nl]> (k_files k)) (k_dirs k), Ok tt);
  sys_read := fun p k => (k, match k_files k !! p with Some c => Ok c | None => Err ErrNotExist end);
  sys_stat := fun p k => (k, if bool_decide (comps true p ∈ k_dirs k) || bool_decide (is_Some (k_files k !! p)) then Ok tt else Err ErrNotExist);
  sys_statfs := fun p k => (k, if bool_decide (comps true p ∈ k_dirs k) then Ok CGROUP2_SUPER else Err ErrNotExist);
  sys_mkdir := fun p k =>
    let names := comps true p in
    if bool_decide (names ∈ k_dirs k) then (k, Err ErrExist)
    else (mkKernel (k_files k) ({[names]} ∪ k_dirs k), Ok tt);
  sys_mkdirall := fun p k => (mkKernel (k_files k) ({[comps true p]} ∪ k_dirs k), Ok tt);
  sys_rmdir := fun p k =>
    let names := comps true p in
    if negb (bool_decide (names ∈ k_dirs k)) then (k, Err ErrNotExist)
    else if has_child k names then (k, Err EBUSY)
    else (mkKernel (k_files k) (k_dirs k ∖ {[names]}), Ok tt);
  sys_readdir := fun p k => (k, Ok []);
  sys_sleep := fun k => (k, Ok tt);
  sys_attach_filter := fun _ _ _ k => (k, Ok tt) |}.

#[global] Instance kernel_files : FilesLaws kernel k_files (fun _ d c => c = d +:+ nl).
Proof.
  split.
  - intros k p fl c Hc. exists k. cbn. by rewrite bool_decide_eq_true_2 by (rewrite Hc; eauto).
  - intros k p fl Hc. exists k. cbn. rewrite bool_decide_eq_false_2; [done|]. rewrite Hc. by intros [].
  - intros k p c Hc. exists k. cbn. by rewrite Hc.
  - intros k p d c _ ->. by eexists.
Qed.

#[global] Instance kernel_dirs : DirLaws kernel k_dirs (fun _ => ∅).
Proof.
  split; try done.
  - intros names k k' r Hg E. split; [done|]. cbn -[comps render] in E. rewrite comps_render in E by by exists 0%nat, names.
    case_bool_decide as Hin; injection E as <- <-; [done|]. cbn. set_solver.
  - intros names k Hg Hin _ Hc. cbn -[comps render]. rewrite comps_render by by exists 0%nat, names.
    rewrite bool_decide_eq_true_2 by done. cbn [negb]. unfold has_child. rewrite bool_decide_eq_false_2; [by eexists|].
    intros H. apply H. apply set_eq. intros d. rewrite elem_of_filter, elem_of_empty. split; [|done].
    intros [[Hd1 Hd2] Hd3]. rewrite <- Hd1 in Hc. destruct (exists_last Hd2) as (l & c & ->).
    rewrite removelast_last in Hc. by apply (Hc c).
Qed.

(** ** A container *)

Definition example_dir : string := "/sys/fs/cgroup/c1".
Definition example_files : gmap string string := list_to_map
  [(example_dir +:+ "/memory.max", "max" +:+ nl); (example_dir +:+ "/memory.swap.max", "max" +:+ nl);
   (example_dir +:+ "/memory.low", "0" +:+ nl); (example_dir +:+ "/memory.current", "8192" +:+ nl);
   (example_dir +:+ "/memory.swap.current", "0" +:+ nl); (example_dir +:+ "/memory.stat", "file 4096" +:+ nl)].
Definition example_kernel : kernel := mkKernel example_files ∅.
Definition example_resources : configs.Resources :=
  configs.mkRes [] 8192 4096 20480 0 0 0 0 0 "" "" 0 0 0 [] [] [] [] [] [] false None [] 0 None 0 None Undefined true false.

Lemma memory_files_b {W} `{CgroupFs W} (contents : W -> gmap string string) (dir : string) (w : W) (u v : Z) (text : string) (lines : list string) :
  forallb (fun f => if contents w !! Join [dir; f] then true else false) ["memory.max"; "memory.swap.max"; "memory.low"] = true ->
  0 <= u < 2 ^ 64 -> 0 <= v < 2 ^ 64 ->
  contents w !! Join [dir; "memory.current"] = Some (format_int u +:+ nl) ->
  contents w !! Join [dir; "memory.swap.current"] = Some (format_int v +:+ nl) ->
  contents w !! Join [dir; "memory.stat"] = Some text -> before_long (scan_lines text) = (lines, None) ->
  forallb (fun t => is_ok (fscommon.ParseKeyValue t)) lines = true ->
  memory_files (contents := contents) dir w.
Proof.
  intros Hl Hu Hv Hc Hs Ht Hscan Hok. split; [|split; [by exists u|split; [by exists v|]]].
  - intros f Hf. rewrite forallb_forall in Hl. apply list_elem_of_In, Hl in Hf. destruct (contents w !! Join [dir; f]); [eauto|done].
  - exists text, lines. split; [done|]. split; [done|]. apply Forall_forall. intros t Hin.
    rewrite forallb_forall in Hok. by apply Hok, list_elem_of_In.
Qed.

Lemma memory_round_trip_witness :
  exists w1 w2 st', fs2.setMemory example_dir example_resources example_kernel = (w1, Ok tt) /\
    fs2stats.statMemory example_dir (w1, stats.NewStats) = ((w2, st'), Ok tt) /\
    stats.Limit (stats.m_Usage (stats.MemoryStats_ st')) = limit_value 8192 /\
    stats.Limit (stats.SwapUsage (stats.MemoryStats_ st')) = limit_value 20480.
Proof.
  apply (memory_round_trip (contents := k_files) (accepts := fun _ d c => c = d +:+ nl) 4096 example_dir example_kernel example_resources stats.NewStats).
  - reflexivity.
  - intros f v _ _ _. reflexivity.
  - apply (memory_files_b k_files example_dir example_kernel 8192 0 ("file 4096" +:+ nl) ["file 4096"]); try lia; vm_compute; reflexivity.
  - right. cbn. lia.
  - right. exists 2. reflexivity.
  - right. exists 5. reflexivity.
  - right. split; [right; cbn; lia|right; exists 1; reflexivity].
Defined.

(** ** Creating a cgroup in a threaded one *)

Definition create_kernel : kernel := mkKernel
  (list_to_map [("/sys/fs/cgroup/cgroup.controllers", "cpu memory pids" +:+ nl); ("/sys/fs/cgroup/a/cgroup.type", "threaded" +:+ nl)])
  {[ []; ["sys"]; ["sys"; "fs"]; ["sys"; "fs"; "cgroup"] ]}.

Lemma tree_b (D : gset (list string)) : forallb (fun d => bool_decide (d = []) || bool_decide (removelast d ∈ D)) (elements D) = true -> tree D.
Proof.
  rewrite forallb_forall. intros Hd names c Hin. specialize (Hd (names ++ [c])). rewrite removelast_last in Hd.
  rewrite <- list_elem_of_In, elem_of_elements in Hd. specialize (Hd Hin). apply orb_true_iff in Hd as [Hd|Hd]; apply bool_decide_eq_true_1 in Hd; [|done].
  by apply app_eq_nil in Hd as [_ ?].
Qed.

Lemma create_all_or_nothing_witness :
  exists k e, fs2.CreateCgroupPath (render true (mount_names ++ ["a"; "b"])) (Some example_resources) create_kernel = (k, Err e) /\
    k_dirs k = k_dirs create_kernel.
Proof.
  destruct (fs2.CreateCgroupPath (render true (mount_names ++ ["a"; "b"])) (Some example_resources) create_kernel) as [k out] eqn:E.
  assert (is_ok out = false) as Ho by (change out with (snd (k, out)); rewrite <- E; vm_compute; reflexivity).
  pose proof (create_all_or_nothing (dirs := k_dirs) (procs := fun _ => ∅) create_kernel k ["a"; "b"] (Some example_resources) out) as T.
  destruct out as [|e]; [discriminate Ho|]. exists k, e. split; [reflexivity|].
  destruct T as [T|[T _]]; [| |exact E|exact T|discriminate T].
  - repeat constructor; vm_compute; intuition discriminate.
  - apply tree_b. vm_compute. reflexivity.
Defined.

(** Nil Resources below a threaded cgroup: the panic leaves the new directory behind. *)
Theorem create_panic_leaves :
  exists k, fs2.CreateCgroupPath "/sys/fs/cgroup/a/b" None create_kernel = (k, Err ErrNilDeref) /\
    ["sys"; "fs"; "cgroup"; "a"] ∉ k_dirs create_kernel /\ ["sys"; "fs"; "cgroup"; "a"] ∈ k_dirs k.
Proof.
  eexists. split; [vm_compute; reflexivity|].
  split; [apply (bool_decide_unpack _); vm_compute; exact I|apply (bool_decide_unpack _); vm_compute; exact I].
Qed.

(** ** Paths *)

Definition climbing_cgroup : configs.Cgroup :=
  configs.mkCg "" "" "../../../x" "" emptyResources false [] false None.

Lemma default_path_confined_witness : below fs2.UnifiedMountpoint "/sys/fs/cgroup/user.slice/x".
Proof.
  apply (default_path_confined (Ok ("0::/user.slice/s.scope" +:+ nl)) climbing_cgroup).
  - intros own. vm_compute. intros [= <-]. reflexivity.
  - vm_compute. reflexivity.
Defined.

(** ** Limits *)

Definition example_manager : fs2.manager := fs2.mkManager climbing_cgroup None example_dir None.

Example set_steps_example :
  set_steps example_resources =
    [Write "memory.swap.max" "12288"; Write "memory.max" "8192"; Write "memory.low" "4096"].
Proof. vm_compute. reflexivity. Qed.

Lemma waitFrozen_ends_witness :
  fs2.poll_events 1001 "/sys/fs/cgroup/c1/cgroup.events" 0 example_kernel = fs2.poll_events (fs2.maxIter + 2) "/sys/fs/cgroup/c1/cgroup.events" 0 example_kernel.
Proof. apply (waitFrozen_ends 1001 0); unfold fs2.maxIter; lia. Defined.

(** ** One memory cgroup of version 1 *)

Definition memory_dir : string := "/sys/fs/cgroup/memory/c1".
Record memsw_kernel := mkMemsw { mk_limit : Z; mk_memsw : Z }.
Definition memsw_top : Z := 2 ^ 63 - 4096.
Definition memsw_amount (d : string) : Z := match parse_uint 64 d with Ok v => v | Err _ => memsw_top end.

#[global] Instance memsw_fs : CgroupFs memsw_kernel := {|
  sys_open := fun _ _ k => (k, Ok tt);
  sys_write := fun p d k =>
    let t := memsw_amount d in
    if bool_decide (p = Join [memory_dir; fs.cgroupMemoryLimit]) then
      if mk_memsw k <? t then (k, Err EINVAL) else (mkMemsw t (mk_memsw k), Ok tt)
    else if t <? mk_limit k then (k, Err EINVAL) else (mkMemsw (mk_limit k) t, Ok tt);
  sys_read := fun _ k => (k, Ok (format_int (mk_limit k) +:+ nl));
  sys_stat := fun _ k => (k, Ok tt);
  sys_statfs := fun _ k => (k, Ok CGROUP_SUPER);
  sys_mkdir := fun _ k => (k, Ok tt);
  sys_mkdirall := fun _ k => (k, Ok tt);
  sys_rmdir := fun _ k => (k, Ok tt);
  sys_readdir := fun _ k => (k, Ok []);
  sys_sleep := fun k => (k, Ok tt);
  sys_attach_filter := fun _ _ _ k => (k, Ok tt) |}.

Lemma memsw_amount_text (v : Z) : let t := if v =? -1 then memsw_top else v in 0 <= t <= memsw_top -> memsw_amount (format_int v) = t.
Proof.
  unfold memsw_amount. destruct (Z.eqb_spec v (-1)) as [->|]; cbv zeta; intros Ht; [done|].
  rewrite parse_uint_format_int; [done|]. unfold memsw_top in Ht. lia.
Qed.

#[global] Instance memsw_laws : MemswLaws memsw_kernel memory_dir mk_limit mk_memsw (fun t => 0 <= t <= memsw_top) memsw_top.
Proof.
  split; cbv zeta.
  - intros file fl k _. by exists k.
  - intros k. by exists k.
  - intros k _. by exists k.
  - intros k v H0 Hle Hf. unfold sys_write, memsw_fs. rewrite memsw_amount_text, bool_decide_eq_true_2 by done.
    destruct (Z.ltb_spec (mk_memsw k) (if v =? -1 then memsw_top else v)); [lia|]. by eexists.
  - intros k v Hle Hf. unfold sys_write, memsw_fs. rewrite memsw_amount_text, bool_decide_eq_false_2 by (done || by vm_compute).
    destruct (Z.ltb_spec (if v =? -1 then memsw_top else v) (mk_limit k)); [lia|]. by eexists.
Qed.

(** Both limits are lowered below the current memory limit. *)
Lemma memory_swap_update_witness :
  exists k o, fs.setMemoryAndSwap memory_dir (mkMemsw 1048576 2097152, fs.mkObjects example_resources (fs.mkBlkio "" "")) = ((k, o), Ok tt) /\
    mk_limit k = 8192 /\ mk_memsw k = 20480 /\ configs.MemorySwap (fs.o_res o) = 20480.
Proof.
  apply (memory_swap_update (dir := memory_dir) (limit := mk_limit) (memsw := mk_memsw) (fits := fun t => 0 <= t <= memsw_top) (top := memsw_top)
    (mkMemsw 1048576 2097152) (fs.mkObjects example_resources (fs.mkBlkio "" ""))); cbn; try (unfold memsw_top; lia).
  - discriminate.
  - right. cbn. lia.
Defined.

(** ** A manager of version 1 with one subsystem *)

Definition pids_dir : string := "/sys/fs/cgroup/pids/c1".
Definition pids_kernel : kernel := mkKernel
  (list_to_map [(pids_dir +:+ "/pids.max", "max" +:+ nl); (pids_dir +:+ "/cgroup.procs", "")]) ∅.
Definition pids_resources : configs.Resources :=
  configs.mkRes [] 0 0 0 0 0 0 0 0 "" "" 64 0 0 [] [] [] [] [] [] false None [] 0 None 0 None Undefined true false.
Definition v1_manager : fs.manager := fs.mkManager climbing_cgroup {[ "pids" := pids_dir ]}.

Lemma limits_not_dropped_witness : fs.Path v1_manager "pids" <> "".
Proof.
  pose (o := fs.mkObjects pids_resources (fs.mkBlkio "" "")).
  destruct (fs.Set_ false false v1_manager (pids_kernel, o)) as [[k o'] out] eqn:E.
  assert (is_ok out = true) as Ho by (change out with (snd ((k, o'), out)); rewrite <- E; vm_compute; reflexivity).
  destruct out as [[]|]; [|discriminate Ho].
  apply (limits_not_dropped false false v1_manager fs.PidsGroup pids_kernel k o o' E).
  - vm_compute. do 5 right. left.
  - reflexivity.
  - left. reflexivity.
Defined.

Lemma applied_everywhere_witness :
  exists m', joined_or_forgotten (W := kernel) climbing_cgroup 42 (fs.m_paths m') fs.PidsGroup pids_dir.
Proof.
  destruct (fs.Apply false v1_manager 42 pids_kernel) as [k [m' out]] eqn:E.
  assert (is_ok out = true) as Ho by (change out with (snd (snd (k, (m', out)))); rewrite <- E; vm_compute; reflexivity).
  destruct out as [[]|]; [|discriminate Ho]. exists m'.
  apply (applied_everywhere false v1_manager m' 42 pids_kernel k fs.PidsGroup pids_dir E).
  - vm_compute. do 5 right. left.
  - reflexivity.
Defined.

(** ** The hierarchies of version 1 *)

Definition v1_env : v1paths.Env :=
  v1paths.mkEnv false (Ok []) (Ok ∅) (fun s => if bool_decide (s = "devices") then Some "/sys/fs/cgroup/devices" else None)
    (Some "/sys/fs/cgroup") (fun _ => Ok tt).
Definition absolute_cgroup : configs.Cgroup := configs.mkCg "" "" "/../x" "" emptyResources false [] false None.

Lemma initPaths_sound_witness :
  is_Some (({[ "devices" := "/sys/fs/cgroup/devices/x" ]} : gmap string string) !! "devices") /\
  map_Forall (fun _ p => below "/sys/fs/cgroup" p) ({[ "devices" := "/sys/fs/cgroup/devices/x" ]} : gmap string string).
Proof.
  destruct (v1paths.initPaths_sound v1_env false absolute_cgroup "/sys/fs/cgroup" "/x" {[ "devices" := "/sys/fs/cgroup/devices/x" ]})
    as [H1 H2].
  - reflexivity.
  - reflexivity.
  - vm_compute. reflexivity.
  - reflexivity.
  - intros name mnt E. assert (mnt = "/sys/fs/cgroup/unified" \/ mnt = "/sys/fs/cgroup/devices") as Hm.
    { revert E. unfold v1paths.FindCgroupMountpoint, v1paths.tryDefaultPath, v1_env.
      cbn [v1paths.unified v1paths.default_path]. destruct (bool_decide (name = "")); [intros E; left; injection E as <-; reflexivity|].
      change (negb (has_prefix "/sys/fs/cgroup" v1paths.defaultPrefix)) with false. cbv iota.
      destruct (bool_decide (trim_prefix name v1paths.CgroupNamePrefix = "devices")); [intros E; right; injection E as <-; reflexivity|].
      discriminate. }
    destruct Hm as [->| ->]; vm_compute; discriminate.
  - vm_compute. reflexivity.
  - split; [apply H1; reflexivity|exact H2].
Defined.
