(* ===== verification/InitSys.v ===== *)
(** * The system as the init process of a container and its parent see it

    The code that runs inside a new container, and the code that starts it, are sequences of system calls.  Here a
    call is a value ([unix.call], indexed by the type of its answer), the kernel is any
    function that answers calls ([Kernel]), and the world keeps the calls that were made
    with their answers, the newest first.  A statement about that trace for every
    kernel covers every outcome of every call.

    [wp m Q t] says that [m], started after the calls [t], ends with a result and a
    trace that satisfy [Q], whatever the kernel answers.  Libraries that the sources only
    call (securejoin, mountinfo, go-selinux, netlink, the console) answer calls of their own. *)

From S2P Require Import Prelude GoAct GoStrings GoPath GoFs Devices Configs UserDb Seccomp SpecTypes CgroupFiles CgroupV1Paths.

Open Scope string_scope.
Open Scope list_scope.
#[local] Open Scope Z_scope.

(** ** Calls *)
Module unix.

(** [os.FileInfo], [unix.Stat_t], [unix.Statfs_t], [mountinfo.Info]: the fields that are read. *)
Record FileInfo := mkFileInfo { IsDir : bool; Mode : Z }.
Record Stat_t := mkStat_t { Rdev : Z; s_Uid : Z; s_Gid : Z }.
Record Statfs_t := mkStatfs_t { Type_ : Z; Flags : Z }.
Record Info := mkInfo { Root : string; Mountpoint : string; FSType : string; Optional : string }.
(** A route of the configuration, and a network interface to set up. *)
Record Route := mkRoute { r_Destination : string; r_Source : string; r_Gateway : string; InterfaceName : string }.
Record Network := mkNetwork { n_Type : string }.

(** A limit of a process, the state of a container as hooks and agents see it, and what the seccomp agent is sent. *)
Record Rlimit := mkRlimit { rl_Type : Z; Hard : Z; Soft : Z }.
Record OCIState := mkOCIState { o_ID : string; o_Status : string; o_Pid : Z; o_Bundle : string; o_Annotations : gmap string string }.
Record ContainerProcessState := mkProcessState { cps_Fds : list string; cps_Pid : Z; cps_Metadata : string; cps_State : OCIState }.

Module cfg.
(** [initConfig]; the devices and the routes of its configuration are fields of their own. *)
Record initConfig := mkInitConfig {
  Args : list string; Env : list string; Cwd : string; Capabilities : option configs.Capabilities; ProcessLabel : string;
  AppArmorProfile : string; NoNewPrivileges : bool; User : string; AdditionalGroups : list string; Config : configs.Config;
  Devices : list Device; Routes : list Route; Networks : list Network; PassedFilesCount : Z; ContainerId : string;
  Rlimits : list Rlimit; CreateConsole : bool; ConsoleWidth : Z; ConsoleHeight : Z; RootlessEUID : bool; RootlessCgroups : bool;
  SpecState : option OCIState; Cgroup2Path : string }.
End cfg.

Inductive mode := O_PATH | O_DIRECTORY | O_RDONLY | O_RDWR | O_WRONLY | O_CREATE | O_TRUNC.

Inductive call : Type -> Type :=
  (* mounts and the root *)
  | Mount (source target fstype : string) (flags : Z) (data : string) : call unit
  | Unmount (target : string) (flags : Z) : call unit
  | MountSetattr (target : string) (attr : configs.MountAttr) : call unit
  | PivotRoot (new old : string) : call unit
  | Chroot (path : string) : call unit
  | Chdir (path : string) : call unit
  | Fchdir (fd : Z) : call unit
  (* files *)
  | Open (path : string) (m : mode) : call Z
  | Close (fd : Z) : call unit
  | Dup3 (old new : Z) : call unit
  | Readlink (path : string) : call string
  | Stat (path : string) : call FileInfo
  | Lstat (path : string) : call FileInfo
  | StatT (path : string) : call Stat_t
  | Fstat (fd : Z) : call Stat_t
  | Statfs (path : string) : call Statfs_t
  | Fstatfs (fd : Z) : call Statfs_t
  | Readdirnames (fd : Z) : call (list string)
  | CloseOnExec (fd : Z) : call unit
  | MkdirAll (path : string) : call unit
  | MkdirTemp (dir pattern : string) : call string
  | Remove (path : string) : call unit
  | RemoveAll (path : string) : call unit
  | Symlink (old new : string) : call unit
  | Mknod (path : string) (fmode dev : Z) : call unit
  | Chown (path : string) (uid gid : Z) : call unit
  | Fchown (fd uid gid : Z) : call unit
  | Chmod (path : string) (fmode : Z) : call unit
  | Umask (mask : Z) : call Z
  | ReadFile (path : string) : call string
  | OpenReader (path : string) : call Reader
  | WriteFile (path data : string) : call unit
  | Write (fd : Z) (data : string) : call unit
  (* the process *)
  | Setgroups (gids : list Z) : call unit
  | Setgid (gid : Z) : call unit
  | Setuid (uid : Z) : call unit
  | SetKeepCaps : call unit
  | ClearKeepCaps : call unit
  | NewPid : call unit
  | LoadCaps : call unit
  | ApplyBounding (caps : list Z) : call unit
  | ApplyCaps (caps : list (list Z)) : call unit
  | SetNoNewPrivs : call unit
  | GetParentDeathSignal : call Z
  | SetParentDeathSignal (sig : Z) : call unit
  | Getppid : call Z
  | KillSelf : call unit
  | Sethostname (name : string) : call unit
  | Setctty : call unit
  | Getenv (name : string) : call string
  | Setenv (name value : string) : call unit
  | JoinSessionKeyring (name : string) : call Z
  | ModKeyringPerm (ring keep new : Z) : call unit
  | InitSeccomp (config : Seccomp) : call Z
  | ApplyProfile (name : string) : call unit
  | SetKeyLabel (label : string) : call unit
  | SetExecLabel (label : string) : call unit
  | LookPath (name : string) : call string
  | Eaccess (path : string) : call unit
  | Exec (name : string) (args : list string) : call unit
  (* the parent and other programs *)
  | SendSync (type : string) (fd : Z) : call unit
  | RecvSync : call string
  | RecvError : call string
  | ClosePipe : call unit
  | Command (c : configs.Command) : call unit
  | Hook (name : string) (c : configs.Command) : call unit
  | Sleep : call unit
  (* libraries *)
  | SecureJoin (root path : string) : call string
  | GetMounts : call (list Info)
  | CopyDirectory (source dest : string) : call unit
  | SetFileLabel (path label : string) : call unit
  | Relabel (path label : string) (shared : bool) : call unit
  | NewPty : call (Z * string)
  | Resize (pty height width : Z) : call unit
  | SendFd (socket fd : Z) : call unit
  | LinkSetUp (name : string) : call unit
  | AddRoute (r : Route) : call unit
  (* what this repository reads of the system elsewhere *)
  | IsCgroup2UnifiedMode : call bool
  | CgroupMountinfo : call (list v1paths.MountInfo)
  | OwnCgroups : call (gmap string string)
  | ProcessUIDMap : call (list UIDMap)
  (* between a container process and its parent *)
  | RecvConfig : call cfg.initConfig
  | SendInitError (message : string) : call unit
  | Clearenv : call unit
  (* the parent: processes *)
  | StartCmd : call Z
  | WaitProcess (pid : Z) : call bool
  | WaitCmd (pid : Z) : call unit
  | KillProcess (pid : Z) : call unit
  | SignalAll : call unit
  | Pipe : call (Z * Z)
  | SockPair (name : string) : call (Z * Z)
  | Getegid : call Z
  | Mkfifo (path : string) (fmode : Z) : call unit
  | AwaitFifo (path : string) : call (option Z)
  | OpenNonblock (path : string) : call Z
  | ReadAll (fd : Z) : call string
  | WaitLogs : call unit
  | Prlimit (pid type cur max : Z) : call unit
  | PidfdOpen (pid : Z) : call Z
  | PidfdGetfd (pidfd fd : Z) : call Z
  (* the parent: messages *)
  | CopyBootstrap : call unit
  | ReadInit : call (list Z)
  | RecvPid : call (Z * Z)
  | SendConfig (c : cfg.initConfig) : call unit
  | RecvMsg : call (string * Z)
  | RecvInitError : call (option string)
  | Shutdown : call unit
  | Dial (path : string) : call Z
  | SocketFile (conn : Z) : call Z
  | SendFds (socket : Z) (state : ContainerProcessState) (fd : Z) : call unit
  (* the parent: the container and its managers *)
  | CurrentOCIState : call OCIState
  | StoreState (pid : Z) : call Z
  | OOMKillCount : call Z
  | ManagerApply (pid : Z) : call unit
  | ManagerSet (r : configs.Resources) : call unit
  | ManagerDestroy : call unit
  | RdtApply (pid : Z) : call unit
  | RdtSet : call unit
  | RdtDestroy : call unit
  | WriteCgroupProc (dir : string) (pid : Z) : call unit
  | ProcCgroups (pid : Z) : call (gmap string string)
  | WriteIntelRdtTasks (dir : string) (pid : Z) : call unit.
End unix.

(** ** Kernels and traces *)

Record event := Event { ev_type : Type; ev_call : unix.call ev_type; ev_result : result ev_type }.
Arguments Event {_} _ _.
Definition trace : Type := list event.

(** A kernel answers a call, given the file mode mask of the process. *)
Class Kernel (K : Type) := answer : forall A, Z -> unix.call A -> Act K A.
Arguments answer {K _ A}.

Record world (K : Type) := mkWorld { kernel : K; mask : Z; calls : trace }.
Arguments mkWorld {K}.
Arguments kernel {K}.
Arguments mask {K}.
Arguments calls {K}.

Section io.
Context {K : Type} `{Kernel K}.
Definition IO (A : Type) : Type := Act (world K) A.

Definition sys {A} (c : unix.call A) : IO A := fun w =>
  let '(k, r) := answer (mask w) c (kernel w) in (mkWorld k (mask w) (Event c r :: calls w), r).
(** [unix.Umask] returns the mask of before and cannot fail. *)
Definition Umask (m : Z) : IO Z := fun w =>
  (mkWorld (kernel w) m (Event (unix.Umask m) (Ok (mask w)) :: calls w), Ok (mask w)).

(** A call whose error is dropped: [_ = f()]. *)
Definition ignore {A} (m : IO A) : IO unit := _ ← try_ m; mret tt.
(** [defer f()]: [f] runs however [m] ends, and its own error is dropped. *)
Definition defer {A} (f : IO unit) (m : IO A) : IO A := r ← try_ m; _ ← ignore f; lift r.
End io.
Arguments IO K A : clear implicits.

(** Successful runs. *)
Lemma sys_ok {K} `{Kernel K} {A} (c : unix.call A) (w w' : world K) (r : result A) :
  sys c w = (w', r) -> exists k, answer (mask w) c (kernel w) = (k, r) /\ w' = mkWorld k (mask w) (Event c r :: calls w).
Proof. unfold sys. destruct (answer (mask w) c (kernel w)) as [k r']. intros [= <- <-]. by exists k. Qed.
Lemma ignore_ok {K} `{Kernel K} {A} (m : IO K A) (w w' : world K) (u : unit) : ignore m w = (w', Ok u) -> exists r, m w = (w', r).
Proof. unfold ignore. intros H1. inv_act. eauto. Qed.
Lemma defer_ok {K} `{Kernel K} {A} (f : IO K unit) (m : IO K A) (w w' : world K) (a : A) :
  defer f m w = (w', Ok a) -> exists w1 r, m w = (w1, Ok a) /\ f w1 = (w', r).
Proof.
  unfold defer. intros (w1 & r & H1%try_ok & H2)%act_bind_ok. apply act_bind_ok in H2 as (w2 & [] & (r2 & H2)%ignore_ok & H3).
  apply lift_ok in H3 as [-> ->]. eauto.
Qed.

(** ** A logic of traces *)

Section wp.
Context {K : Type} `{Kernel K}.

Definition wp {A} (m : IO K A) (Q : result A -> trace -> Prop) (t : trace) : Prop :=
  forall w, calls w = t -> Q (m w).2 (calls (m w).1).

Lemma wp_elim {A} (m : IO K A) (Q : result A -> trace -> Prop) (w w' : world K) (r : result A) :
  wp m Q (calls w) -> m w = (w', r) -> Q r (calls w').
Proof. intros Hm E. specialize (Hm w eq_refl). by rewrite E in Hm. Qed.
Lemma wp_mono {A} (m : IO K A) (P Q : result A -> trace -> Prop) (t : trace) :
  wp m P t -> (forall r t', P r t' -> Q r t') -> wp m Q t.
Proof. intros Hm Hi w Hw. by apply Hi, Hm. Qed.
Lemma wp_and {A} (m : IO K A) (P Q : result A -> trace -> Prop) (t : trace) :
  wp m P t -> wp m Q t -> wp m (fun r t' => P r t' /\ Q r t') t.
Proof. intros HP HQ w Hw. split; [by apply HP|by apply HQ]. Qed.

Lemma wp_ret {A} (a : A) (Q : result A -> trace -> Prop) (t : trace) : Q (Ok a) t -> wp (mret a) Q t.
Proof. by intros HQ w <-. Qed.
Lemma wp_throw {A} (e : error) (Q : result A -> trace -> Prop) (t : trace) : Q (Err e) t -> wp (throw e) Q t.
Proof. by intros HQ w <-. Qed.
Lemma wp_lift {A} (r : result A) (Q : result A -> trace -> Prop) (t : trace) : Q r t -> wp (lift r) Q t.
Proof. by intros HQ w <-. Qed.
Lemma wp_sys {A} (c : unix.call A) (Q : result A -> trace -> Prop) (t : trace) :
  (forall r, Q r (Event c r :: t)) -> wp (sys c) Q t.
Proof. intros HQ w <-. unfold sys. destruct (answer (mask w) c (kernel w)) as [k r]. apply HQ. Qed.
Lemma wp_umask (m : Z) (Q : result Z -> trace -> Prop) (t : trace) :
  (forall old, Q (Ok old) (Event (unix.Umask m) (Ok old) :: t)) -> wp (Umask m) Q t.
Proof. intros HQ w <-. apply HQ. Qed.
Lemma wp_bind {A B} (m : IO K A) (k : A -> IO K B) (Q : result B -> trace -> Prop) (t : trace) :
  wp m (fun r t' => match r with Ok a => wp (k a) Q t' | Err e => Q (Err e) t' end) t -> wp (m ≫= k) Q t.
Proof.
  intros Hm w Hw. specialize (Hm w Hw). unfold mbind, Act_bind. destruct (m w) as [w' [a|e]]; cbn in *; [by apply Hm|done].
Qed.
Lemma wp_try {A} (m : IO K A) (Q : result (result A) -> trace -> Prop) (t : trace) :
  wp m (fun r t' => Q (Ok r) t') t -> wp (try_ m) Q t.
Proof. intros Hm w Hw. specialize (Hm w Hw). unfold try_. by destruct (m w). Qed.
Lemma wp_wrapping {A} (s : string) (m : IO K A) (Q : result A -> trace -> Prop) (t : trace) :
  wp m (fun r t' => Q (wrap_err s r) t') t -> wp (wrapping s m) Q t.
Proof. intros Hm w Hw. specialize (Hm w Hw). unfold wrapping. by destruct (m w). Qed.
Lemma wp_ignore {A} (m : IO K A) (Q : result unit -> trace -> Prop) (t : trace) :
  wp m (fun _ t' => Q (Ok tt) t') t -> wp (ignore m) Q t.
Proof. intros Hm. apply wp_bind, wp_try. eapply wp_mono; [exact Hm|]. intros r t' HQ. by apply wp_ret. Qed.
Lemma wp_defer {A} (f : IO K unit) (m : IO K A) (Q : result A -> trace -> Prop) (t : trace) :
  wp m (fun r t' => wp f (fun _ t'' => Q r t'') t') t -> wp (defer f m) Q t.
Proof.
  intros Hm. apply wp_bind, wp_try. eapply wp_mono; [exact Hm|]. intros r t' Hf.
  apply wp_bind, wp_ignore. eapply wp_mono; [exact Hf|]. intros r' t'' HQ. by apply wp_lift.
Qed.

(** A loop: the invariant [I] on the elements done and the trace. *)
Lemma wp_for_each {A} (f : A -> IO K unit) (l : list A) (I : list A -> trace -> Prop) (Q : result unit -> trace -> Prop) (t : trace) :
  I [] t -> (forall t', I l t' -> Q (Ok tt) t') ->
  (forall done a rest t', l = done ++ a :: rest -> I done t' ->
     wp (f a) (fun r t'' => match r with Ok _ => I (done ++ [a]) t'' | Err e => Q (Err e) t'' end) t') ->
  wp (for_each f l) Q t.
Proof.
  intros H0 HQ Hf. assert (forall rest done t', l = done ++ rest -> I done t' -> wp (for_each f rest) Q t') as Hl.
  { induction rest as [|a rest IH]; intros dn t' E HI; cbn [for_each].
    - apply wp_ret, HQ. by rewrite E, app_nil_r.
    - apply wp_bind. eapply wp_mono; [by apply (Hf dn a rest t')|]. intros [[]|e] t''; [|done].
      intros HI'. apply (IH (dn ++ [a])); [by rewrite <- app_assoc|done]. }
  by apply (Hl l []).
Qed.
End wp.

(** ** Rules that every new call obeys *)

(** [t'] continues [t], and each new call is allowed by [P] after the calls before it. *)
Inductive extends (P : trace -> event -> Prop) (t : trace) : trace -> Prop :=
  | extends_refl : extends P t t
  | extends_step ev t' : extends P t t' -> P t' ev -> extends P t (ev :: t').

Lemma extends_trans (P : trace -> event -> Prop) (t1 t2 t3 : trace) : extends P t1 t2 -> extends P t2 t3 -> extends P t1 t3.
Proof. intros H1. induction 1 as [|ev t' _ IH HP]; [done|by constructor]. Qed.
Lemma extends_one (P : trace -> event -> Prop) (t : trace) (ev : event) : P t ev -> extends P t (ev :: t).
Proof. intros HP. constructor; [constructor|done]. Qed.
Lemma extends_suffix (P : trace -> event -> Prop) (t t' : trace) : extends P t t' -> t `suffix_of` t'.
Proof. induction 1 as [|ev t' _ IH _]; [done|]. by apply suffix_cons_r. Qed.
Lemma extends_in (P : trace -> event -> Prop) (t t' : trace) (ev : event) : extends P t t' -> ev ∈ t -> ev ∈ t'.
Proof. intros [new ->]%extends_suffix. set_solver. Qed.
Lemma extends_mono (P Q : trace -> event -> Prop) (t t' : trace) :
  (forall t ev, P t ev -> Q t ev) -> extends P t t' -> extends Q t t'.
Proof. intros Hi. induction 1; constructor; auto. Qed.

Section follows.
Context {K : Type} `{Kernel K} (P : trace -> event -> Prop).

Definition follows {A} (m : IO K A) : Prop := forall t, wp m (fun _ t' => extends P t t') t.

Lemma follows_elim {A} (m : IO K A) (w : world K) : follows m -> extends P (calls w) (calls (m w).1).
Proof. intros Hm. by apply (Hm (calls w) w). Qed.
Lemma follows_elim_wp {A} (m : IO K A) (t : trace) : follows m -> wp m (fun _ t' => extends P t t') t.
Proof. intros Hm. apply Hm. Qed.
Lemma follows_ret {A} (a : A) : follows (mret a).
Proof. intros t. apply wp_ret. constructor. Qed.
Lemma follows_throw {A} (e : error) : follows (throw e : IO K A).
Proof. intros t. apply wp_throw. constructor. Qed.
Lemma follows_lift {A} (r : result A) : follows (lift r).
Proof. intros t. apply wp_lift. constructor. Qed.
Lemma follows_sys {A} (c : unix.call A) : (forall t r, P t (Event c r)) -> follows (sys c).
Proof. intros HP t. apply wp_sys. intros r. by apply extends_one. Qed.
Lemma follows_umask (m : Z) : (forall t r, P t (Event (unix.Umask m) r)) -> follows (Umask m).
Proof. intros HP t. apply wp_umask. intros old. by apply extends_one. Qed.
(** The continuation starts from a trace that continues this one. *)
Lemma extends_wp {A} (m : IO K A) (t t' : trace) :
  extends P t t' -> wp m (fun _ t'' => extends P t' t'') t' -> wp m (fun _ t'' => extends P t t'') t'.
Proof. intros Ht Hm. eapply wp_mono; [exact Hm|]. intros r t'' Ht'. by eapply extends_trans. Qed.
Lemma follows_bind {A B} (m : IO K A) (k : A -> IO K B) : follows m -> (forall a, follows (k a)) -> follows (m ≫= k).
Proof.
  intros Hm Hk t. apply wp_bind. eapply wp_mono; [apply Hm|]. intros [a|e] t' Ht'; [|done].
  apply extends_wp; [done|]. apply Hk.
Qed.
Lemma follows_try {A} (m : IO K A) : follows m -> follows (try_ m).
Proof. intros Hm t. by apply wp_try. Qed.
Lemma follows_wrapping {A} (s : string) (m : IO K A) : follows m -> follows (wrapping s m).
Proof. intros Hm t. by apply wp_wrapping. Qed.
Lemma follows_ignore {A} (m : IO K A) : follows m -> follows (ignore m).
Proof. intros Hm t. by apply wp_ignore. Qed.
Lemma follows_defer {A} (f : IO K unit) (m : IO K A) : follows f -> follows m -> follows (defer f m).
Proof.
  intros Hf Hm t. apply wp_defer. eapply wp_mono; [apply Hm|]. intros r t' Ht'. apply extends_wp; [done|]. apply Hf.
Qed.
Lemma follows_for_each {A} (f : A -> IO K unit) (l : list A) : (forall a, a ∈ l -> follows (f a)) -> follows (for_each f l).
Proof.
  induction l as [|a l IH]; intros Hf; cbn [for_each]; [apply follows_ret|].
  apply follows_bind; [apply Hf; set_solver|]. intros _. apply IH. intros b Hb. apply Hf. set_solver.
Qed.
End follows.

Create HintDb follows.
#[export] Hint Resolve follows_ret follows_throw follows_lift : follows.

(** Show that an action follows a rule, step by step; [tac] shows that a call does. *)
Ltac follow_with tac :=
  repeat first
    [ progress intros
    | solve [eauto 2 with follows]
    | apply follows_sys; intros; solve [tac]
    | apply follows_umask; intros; solve [tac]
    | apply follows_bind | apply follows_try | apply follows_wrapping | apply follows_ignore | apply follows_defer
    | apply follows_for_each
    | match goal with |- follows _ (match ?x with _ => _ end) => destruct x end
    | match goal with |- follows _ (if ?x then _ else _) => destruct x end ].
Ltac solve_follows := follow_with done.

(** The same through the definitions of functions, but for those a hint is about. *)
Ltac head_of e := lazymatch e with ?f _ => head_of f | _ => e end.
Ltac follow_all tac :=
  repeat first
    [ progress intros
    | solve [eauto 2 with follows]
    | apply follows_sys; intros; solve [tac]
    | apply follows_umask; intros; solve [tac]
    | apply follows_bind | apply follows_try | apply follows_wrapping | apply follows_ignore | apply follows_defer
    | apply follows_for_each
    | match goal with |- follows _ (match ?x with _ => _ end) => destruct x end
    | match goal with |- follows _ (if ?x then _ else _) => destruct x end
    | progress cbv beta zeta
    | match goal with |- follows _ ?m => let h := head_of m in progress unfold h; cbv beta zeta end ].

(** ** What a successful action leaves in the trace *)

Definition any_call (_ : trace) (_ : event) : Prop := True.
#[global] Notation grows := (follows any_call).
Lemma follows_grows {K} `{Kernel K} (P : trace -> event -> Prop) {A} (m : IO K A) : follows P m -> grows m.
Proof. intros Hm t. eapply wp_mono; [apply Hm|]. intros r t'. by apply extends_mono. Qed.
Ltac solve_grows := follow_all ltac:(exact I).

(** Facts that later calls do not undo. *)
Class Upward (Q : trace -> Prop) : Prop := upward : forall t ev, Q t -> Q (ev :: t).
Lemma upward_in (ev : event) : Upward (fun t => ev ∈ t).
Proof. intros t ev' Hin. by right. Qed.
Lemma upward_and (P Q : trace -> Prop) : Upward P -> Upward Q -> Upward (fun t => P t /\ Q t).
Proof. intros HP HQ t ev [? ?]. split; by apply upward. Qed.
Lemma upward_or (P Q : trace -> Prop) : Upward P -> Upward Q -> Upward (fun t => P t \/ Q t).
Proof. intros HP HQ t ev [?|?]; [left|right]; by apply upward. Qed.
Lemma upward_exists {A} (P : A -> trace -> Prop) : (forall a, Upward (P a)) -> Upward (fun t => exists a, P a t).
Proof. intros HP t ev [a Ha]. exists a. by apply upward. Qed.
Lemma upward_forall {A} (P : A -> trace -> Prop) : (forall a, Upward (P a)) -> Upward (fun t => forall a, P a t).
Proof. intros HP t ev Ha a. by apply upward. Qed.
Lemma upward_impl (A : Prop) (P : trace -> Prop) : Upward P -> Upward (fun t => A -> P t).
Proof. intros HP t ev Hi Ha. by apply upward, Hi. Qed.
Lemma upward_const (A : Prop) : Upward (fun _ => A).
Proof. by intros t ev. Qed.
(** The connectives, in the way of instances. *)
#[global] Hint Extern 0 (Upward _) =>
  (* the shapes of a fact *)
  first [ refine (upward_in _) | refine (upward_const _) | refine (upward_and _ _ _ _) | refine (upward_or _ _ _ _)
        | refine (upward_exists _ _); intros ? | refine (upward_impl _ _ _) | refine (upward_forall _ _); intros ? ] : typeclass_instances.
Lemma upward_extends (Q : trace -> Prop) `{!Upward Q} (P : trace -> event -> Prop) (t t' : trace) : extends P t t' -> Q t -> Q t'.
Proof. induction 1 as [|ev t' _ IH _]; [done|]. intros HQ. by apply upward, IH. Qed.

Section achieves.
Context {K : Type} `{Kernel K}.

Definition achieves {A} (m : IO K A) (Q : trace -> Prop) : Prop :=
  forall t, wp m (fun r t' => match r with Ok _ => Q t' | Err _ => True end) t.

Lemma achieves_elim {A} (m : IO K A) (Q : trace -> Prop) (w w' : world K) (a : A) : achieves m Q -> m w = (w', Ok a) -> Q (calls w').
Proof. intros Hm E. specialize (Hm (calls w) w eq_refl). by rewrite E in Hm. Qed.
Lemma achieves_weaken {A} (m : IO K A) (P Q : trace -> Prop) : (forall t, P t -> Q t) -> achieves m P -> achieves m Q.
Proof. intros Hi Hm t. eapply wp_mono; [apply Hm|]. intros [a|e] t'; [apply Hi|done]. Qed.
Lemma achieves_and {A} (m : IO K A) (P Q : trace -> Prop) : achieves m P -> achieves m Q -> achieves m (fun t => P t /\ Q t).
Proof. intros HP HQ t. eapply wp_mono; [apply wp_and; [apply HP|apply HQ]|]. by intros [a|e]. Qed.
Lemma achieves_sys {A} (c : unix.call A) (Q : trace -> Prop) : (forall t a, Q (Event c (Ok a) :: t)) -> achieves (sys c) Q.
Proof. intros HQ t. apply wp_sys. intros [a|e]; [apply HQ|done]. Qed.
Lemma achieves_ret {A} (a : A) (Q : trace -> Prop) : (forall t, Q t) -> achieves (mret a) Q.
Proof. intros HQ t. by apply wp_ret. Qed.
Lemma achieves_throw {A} (e : error) (Q : trace -> Prop) : achieves (throw e : IO K A) Q.
Proof. intros t. by apply wp_throw. Qed.
Lemma achieves_wrapping {A} (s : string) (m : IO K A) (Q : trace -> Prop) : achieves m Q -> achieves (wrapping s m) Q.
Proof. intros Hm t. apply wp_wrapping. eapply wp_mono; [apply Hm|]. by intros [a|e]. Qed.
Lemma achieves_then {A B} (m : IO K A) (k : A -> IO K B) (Q : trace -> Prop) : (forall a, achieves (k a) Q) -> achieves (m ≫= k) Q.
Proof.
  intros Hk t. apply wp_bind. eapply wp_mono with (P := fun _ _ => True); [by intros w _|]. intros [a|e] t' _; [apply Hk|done].
Qed.
Lemma achieves_first {A B} (m : IO K A) (k : A -> IO K B) (Q : trace -> Prop) `{!Upward Q} :
  achieves m Q -> (forall a, grows (k a)) -> achieves (m ≫= k) Q.
Proof.
  intros Hm Hk t. apply wp_bind. eapply wp_mono; [apply Hm|]. intros [a|e] t' HQ; [|done].
  eapply wp_mono; [apply Hk|]. intros [b|e] t'' He; [|done]. by eapply upward_extends.
Qed.
Lemma achieves_defer {A} (f : IO K unit) (m : IO K A) (Q : trace -> Prop) `{!Upward Q} : grows f -> achieves m Q -> achieves (defer f m) Q.
Proof.
  intros Hf Hm t. apply wp_defer. eapply wp_mono; [apply Hm|]. intros r t' HQ. eapply wp_mono; [apply Hf|].
  intros r' t'' He. destruct r as [a|e]; [|done]. apply (upward_extends Q any_call t'); done.
Qed.
Lemma achieves_for_each {A} (f : A -> IO K unit) (l : list A) (Q : A -> trace -> Prop) `{!forall a, Upward (Q a)} :
  (forall a, grows (f a)) -> (forall a, achieves (f a) (Q a)) -> achieves (for_each f l) (fun t => forall a, a ∈ l -> Q a t).
Proof.
  intros Hg Hf. induction l as [|a l IH]; cbn [for_each]; [apply achieves_ret; by intros t a ?%elem_of_nil|].
  apply achieves_weaken with (P := fun t => Q a t /\ forall b, b ∈ l -> Q b t).
  { intros t [Ha Hl] b [->|Hb]%elem_of_cons; [done|by apply Hl]. }
  apply achieves_and; [|by apply achieves_then]. apply achieves_first; [apply _|apply Hf|]. intros _. by apply follows_for_each.
Qed.
(** A call whose failure is looked at: [Q] holds of what the handler makes of either answer. *)
Lemma achieves_try {A B} (m : IO K A) (k : result A -> IO K B) (P : result A -> trace -> Prop) (Q : trace -> Prop) :
  (forall t, wp m (fun r t' => P r t') t) ->
  (forall r t, P r t -> wp (k r) (fun r' t' => match r' with Ok _ => Q t' | Err _ => True end) t) -> achieves (try_ m ≫= k) Q.
Proof. intros Hm Hk t. apply wp_bind, wp_try. eapply wp_mono; [apply Hm|]. intros r t' HP. by apply Hk. Qed.
Lemma achieves_then_value {A B} (m : IO K A) (V : A -> Prop) (k : A -> IO K B) (Q : trace -> Prop) :
  (forall t, wp m (fun r _ => match r with Ok a => V a | Err _ => True end) t) -> (forall a, V a -> achieves (k a) Q) -> achieves (m ≫= k) Q.
Proof. intros Hm Hk t. apply wp_bind. eapply wp_mono; [apply Hm|]. intros [a|e] t' HV; [by apply Hk|done]. Qed.
Lemma achieves_throw_then {A B} (e : error) (k : A -> IO K B) (Q : trace -> Prop) : achieves (throw e ≫= k) Q.
Proof. by intros t w _. Qed.

(** ** Calls that are only made when something holds *)

(** Under [Pre], every new call obeys the rule [P]. *)
Definition guarded {A} (P : trace -> event -> Prop) (Pre : trace -> Prop) (m : IO K A) : Prop :=
  forall t, Pre t -> wp m (fun _ t' => extends P t t') t.
Lemma guarded_follows {A} (P : trace -> event -> Prop) (Pre : trace -> Prop) (m : IO K A) : follows P m -> guarded P Pre m.
Proof. intros Hm t _. apply Hm. Qed.
Lemma guarded_weaken {A} (P : trace -> event -> Prop) (Pre Pre' : trace -> Prop) (m : IO K A) :
  (forall t, Pre t -> Pre' t) -> guarded P Pre' m -> guarded P Pre m.
Proof. intros Hi Hm t Ht. by apply Hm, Hi. Qed.
Lemma guarded_step {A B} (P : trace -> event -> Prop) (Pre Q : trace -> Prop) `{!Upward Pre} (m : IO K A) (k : A -> IO K B) :
  achieves m Q -> follows P m -> (forall a, guarded P (fun t => Pre t /\ Q t) (k a)) -> guarded P Pre (m ≫= k).
Proof.
  intros Ha Hm Hk t Ht. apply wp_bind. eapply wp_mono; [apply wp_and; [apply Hm|apply Ha]|]. intros [a|e] t' [He HQ]; [|done].
  apply extends_wp; [done|]. apply Hk. split; [by eapply upward_extends|done].
Qed.
Lemma guarded_skip {A B} (P : trace -> event -> Prop) (Pre : trace -> Prop) `{!Upward Pre} (m : IO K A) (k : A -> IO K B) :
  follows P m -> (forall a, guarded P Pre (k a)) -> guarded P Pre (m ≫= k).
Proof.
  intros Hm Hk. apply (guarded_step P Pre (fun _ => True)); [by intros t w _; destruct (m w).2|done|].
  intros a. eapply guarded_weaken; [|apply Hk]. by intros t [? _].
Qed.
Lemma guarded_wrapping {A} (P : trace -> event -> Prop) (Pre : trace -> Prop) (s : string) (m : IO K A) :
  guarded P Pre m -> guarded P Pre (wrapping s m).
Proof. intros Hm t Ht. by apply wp_wrapping, Hm. Qed.
Lemma guarded_sys {A} (P : trace -> event -> Prop) (Pre : trace -> Prop) (c : unix.call A) :
  (forall t r, Pre t -> P t (Event c r)) -> guarded P Pre (sys c).
Proof. intros HP t Ht. apply wp_sys. intros r. by apply extends_one, HP. Qed.
End achieves.

(** ** Invariants of the world *)

Section stable.
Context {K : Type} `{Kernel K} (I : world K -> Prop).
Definition stable {A} (m : IO K A) : Prop := forall w, I w -> I (m w).1.
Lemma stable_ret {A} (a : A) : stable (mret a).
Proof. by intros w Hw. Qed.
Lemma stable_throw {A} (e : error) : stable (throw e : IO K A).
Proof. by intros w Hw. Qed.
Lemma stable_lift {A} (r : result A) : stable (lift r).
Proof. by intros w Hw. Qed.
Lemma stable_bind {A B} (m : IO K A) (k : A -> IO K B) : stable m -> (forall a, stable (k a)) -> stable (m ≫= k).
Proof. intros Hm Hk w Hw. specialize (Hm w Hw). unfold mbind, Act_bind. destruct (m w) as [w' [a|e]]; [by apply Hk|done]. Qed.
Lemma stable_try {A} (m : IO K A) : stable m -> stable (try_ m).
Proof. intros Hm w Hw. specialize (Hm w Hw). unfold try_. by destruct (m w). Qed.
Lemma stable_wrapping {A} (s : string) (m : IO K A) : stable m -> stable (wrapping s m).
Proof. intros Hm w Hw. specialize (Hm w Hw). unfold wrapping. by destruct (m w). Qed.
Lemma stable_ignore {A} (m : IO K A) : stable m -> stable (ignore m).
Proof. intros Hm. apply stable_bind; [by apply stable_try|]. intros r. apply stable_ret. Qed.
Lemma stable_defer {A} (f : IO K unit) (m : IO K A) : stable f -> stable m -> stable (defer f m).
Proof.
  intros Hf Hm. apply stable_bind; [by apply stable_try|]. intros r. apply stable_bind; [by apply stable_ignore|]. intros _. apply stable_lift.
Qed.
Lemma stable_for_each {A} (f : A -> IO K unit) (l : list A) : (forall a, stable (f a)) -> stable (for_each f l).
Proof. intros Hf. induction l as [|a l IH]; cbn [for_each]; [apply stable_ret|]. by apply stable_bind. Qed.
End stable.

Create HintDb stable.
#[export] Hint Resolve stable_ret stable_throw stable_lift : stable.
(** Show that an action keeps an invariant, through the definitions of functions; [tac] is for calls. *)
Ltac stable_all tac :=
  repeat first
    [ progress intros
    | solve [eauto 2 with stable]
    | solve [tac]
    | apply stable_bind | apply stable_try | apply stable_wrapping | apply stable_ignore | apply stable_defer | apply stable_for_each
    | match goal with |- stable _ (match ?x with _ => _ end) => destruct x end
    | match goal with |- stable _ (if ?x then _ else _) => destruct x end
    | progress cbv beta zeta
    | match goal with |- stable _ ?m => let h := head_of m in progress unfold h; cbv beta zeta end ].
