(* ===== verification/RootfsSetup.v ===== *)
(** * Setting up the root filesystem of a container: rootfs_linux.go, mount_linux.go and utils.WithProcfd

    The init process mounts what the configuration lists, creates the device nodes, and
    locks itself into the new root.  Each function is the sequence of calls its source
    makes; [defer]red calls run however the function ends.  The object [mountConfig], whose
    descriptor the loop of [prepareRootfs] sets anew for every mount, is passed by value. *)

From S2P Require Import Prelude GoAct GoStrings GoPath GoFs Devices Configs Validator UserDb Seccomp SpecTypes SpecConv CgroupFiles CgroupV1Paths CgroupV2 InitSys.

Open Scope string_scope.
Open Scope list_scope.
#[local] Open Scope Z_scope.

Module libcontainer.
Export unix.cfg.

(** ** Data *)

Definition MS_MOVE : Z := 0x2000.
Definition MNT_DETACH : Z := 2.
Definition PROC_SUPER_MAGIC : Z := 0x9fa0.
Definition defaultMountFlags : Z := Z.lor (Z.lor MS_NOEXEC MS_NOSUID) MS_NODEV.
Definition ENOTDIR : error := ErrNew "not a directory".
Definition ENOTEMPTY : error := ErrNew "directory not empty".
(** [errors.Is(err, os.ErrExist)], [os.IsExist(err)] *)
Definition is_exist (e : error) : bool := errors_is e ErrExist || errors_is e ENOTEMPTY.

Record mountConfig := mkMountConfig {
  root : string; label : string; cgroup2Path : string; rootlessCgroups : bool; cgroupns : bool; fd : option Z }.

(** The packages go-selinux/label, mountinfo and capability, as far as they are functions of their
    arguments; [ParentsFilter] says which mounts are kept, [capabilityMap] numbers the known names. *)
Class Libraries := {
  label_Validate : string -> result unit;
  label_IsShared : string -> bool;
  FormatMountLabel : string -> string -> string;
  ParentsFilter : string -> unix.Info -> bool;
  capabilityMap : string -> option Z }.

Definition needsSetupDev (mounts : list configs.Mount) : bool :=
  negb (existsb (fun m => bool_decide (configs.Device m = "bind") && bool_decide (CleanPath (configs.Destination m) = "/dev")) mounts).

Section rootfs.
Context {K : Type} `{Kernel K} `{Libraries}.

(** ** mount_linux.go *)

Definition mount (source target procfd fstype : string) (flags : Z) (data : string) : IO K unit :=
  let dst := if bool_decide (procfd = "") then target else procfd in
  wrapping "mount" (sys (unix.Mount source dst fstype flags data)).
Definition unmount (target : string) (flags : Z) : IO K unit := wrapping "unmount" (sys (unix.Unmount target flags)).

(** ** utils.go *)

Definition stripRoot (root path : string) : string :=
  let root := CleanPath (slash +:+ root) in
  let path := CleanPath (slash +:+ path) in
  let path := if bool_decide (path = root) then slash
              else if bool_decide (root = slash) then path
              else if has_prefix (root +:+ slash) path then trim_prefix path (root +:+ slash)
              else path in
  CleanPath (slash +:+ path).

Definition procfd_path (fd : Z) : string := "/proc/self/fd/" +:+ format_int fd.
Definition ErrMaliciousPath : error := ErrNew "possibly malicious path detected -- refusing to operate on %s".

Definition WithProcfd (root unsafePath : string) (fn : string -> IO K unit) : IO K unit :=
  path ← wrapping "resolving path inside rootfs failed" (sys (unix.SecureJoin root (stripRoot root unsafePath)));
  fd ← wrapping "open o_path procfd" (sys (unix.Open path unix.O_PATH));
  defer (sys (unix.Close fd))
    (realpath ← wrapping "procfd verification failed" (sys (unix.Readlink (procfd_path fd)));
     if bool_decide (realpath = path) then fn (procfd_path fd) else throw ErrMaliciousPath).

(** ** Mounting *)

Definition prepareTmp (topTmpDir : string) : IO K string :=
  tmpdir ← sys (unix.MkdirTemp topTmpDir "runctop");
  _ ← mount tmpdir tmpdir "" "bind" MS_BIND "";
  _ ← mount "" tmpdir "" "" MS_PRIVATE "";
  mret tmpdir.
Definition cleanupTmp (tmpdir : string) : IO K unit :=
  _ ← ignore (sys (unix.Unmount tmpdir 0)); ignore (sys (unix.RemoveAll tmpdir)).

Definition mountCmd (cmd : configs.Command) : IO K unit := wrapping "%#v failed: %s" (sys (unix.Command cmd)).

Definition source_of (source : string) (mountFd : option Z) : string :=
  match mountFd with Some fd => procfd_path fd | None => source end.

Definition isProc (path : string) : IO K bool :=
  s ← wrapping "statfs" (sys (unix.Statfs path)); mret (unix.Type_ s =? PROC_SUPER_MAGIC).

Definition validProcMounts : list string :=
  ["/proc/cpuinfo"; "/proc/diskstats"; "/proc/meminfo"; "/proc/stat"; "/proc/swaps"; "/proc/uptime"; "/proc/loadavg";
   "/proc/slabinfo"; "/proc/net/dev"; "/proc/sys/kernel/ns_last_pid"].
Definition ErrInsideProc : error := ErrNew "%q cannot be mounted because it is inside /proc".
Fixpoint check_valid (rootfs dest : string) (valids : list string) : result unit :=
  match valids with
  | [] => Err ErrInsideProc
  | valid :: l => path ← Rel (Join [rootfs; valid]) dest; if bool_decide (path = ".") then Ok tt else check_valid rootfs dest l
  end.
Definition checkProcMount (rootfs dest source : string) : IO K unit :=
  path ← lift (Rel (Join [rootfs; "/proc"]) dest);
  if has_prefix ".." path then mret tt
  else if bool_decide (path = ".") then
    if bool_decide (source = "") then mret tt else
    isproc ← isProc source;
    if isproc : bool then mret tt else throw (ErrNew "%q cannot be mounted because it is not of type proc")
  else lift (check_valid rootfs dest validProcMounts).

Definition createIfNotExists (path : string) (isDir : bool) : IO K unit :=
  r ← try_ (sys (unix.Stat path));
  match r with
  | Ok _ => mret tt
  | Err e =>
      if os_IsNotExist e then
        if isDir then sys (unix.MkdirAll path) else
        _ ← sys (unix.MkdirAll (Dir path));
        f ← sys (unix.Open path unix.O_CREATE);
        ignore (sys (unix.Close f))
      else mret tt
  end.

Definition prepareBindMount (m : configs.Mount) (rootfs : string) (mountFd : option Z) : IO K unit :=
  let source := source_of (configs.Source m) mountFd in
  stat ← sys (unix.Stat source);
  dest ← sys (unix.SecureJoin rootfs (configs.Destination m));
  _ ← checkProcMount rootfs dest source;
  createIfNotExists dest (unix.IsDir stat).

Definition is_dev (m : configs.Mount) : bool :=
  bool_decide (configs.Device m = "tmpfs") || bool_decide (CleanPath (configs.Destination m) = "/dev").

Definition mountPropagate (m : configs.Mount) (rootfs mountLabel : string) (mountFd : option Z) : IO K unit :=
  let data := FormatMountLabel (configs.Data m) mountLabel in
  let flags := if is_dev m then and_not (configs.Flags m) MS_RDONLY else configs.Flags m in
  let source := source_of (configs.Source m) mountFd in
  _ ← WithProcfd rootfs (configs.Destination m)
        (fun procfd => mount source (configs.Destination m) procfd (configs.Device m) flags data);
  wrapping "change mount propagation through procfd"
    (WithProcfd rootfs (configs.Destination m)
       (fun procfd => for_each (fun pflag => mount "" (configs.Destination m) procfd "" pflag "") (configs.PropagationFlags m))).

Definition setRecAttr (m : configs.Mount) (rootfs : string) : IO K unit :=
  match configs.RecAttr m with
  | None => mret tt
  | Some attr => WithProcfd rootfs (configs.Destination m) (fun procfd => sys (unix.MountSetattr procfd attr))
  end.

Definition remount (m : configs.Mount) (rootfs : string) (mountFd : option Z) : IO K unit :=
  let source := source_of (configs.Source m) mountFd in
  WithProcfd rootfs (configs.Destination m) (fun procfd =>
    let flags := Z.lor (configs.Flags m) MS_REMOUNT in
    r ← try_ (mount source (configs.Destination m) procfd (configs.Device m) flags "");
    match r with
    | Ok _ => mret tt
    | Err err =>
        s ← wrapping "statfs" (sys (unix.Statfs source));
        if negb (Z.land (unix.Flags s) MS_RDONLY =? MS_RDONLY) then throw err
        else mount source (configs.Destination m) procfd (configs.Device m) (Z.lor flags MS_RDONLY) ""
    end).

Definition with_destination (d : string) (m : configs.Mount) : configs.Mount :=
  configs.mkMount (configs.Source m) d (configs.Device m) (configs.Flags m) (configs.PropagationFlags m) (configs.Data m)
    (configs.Relabel m) (configs.RecAttr m) (configs.Extensions m) (configs.PremountCmds m) (configs.PostmountCmds m).

(** The mount is made on the host first; its destination is the temporary directory meanwhile. *)
Definition doTmpfsCopyUp (m : configs.Mount) (rootfs mountLabel : string) : IO K unit :=
  tmpdir ← wrapping "tmpcopyup: failed to setup tmpdir" (prepareTmp "/tmp");
  defer (cleanupTmp tmpdir)
    (tmpDir ← wrapping "tmpcopyup: failed to create tmpdir" (sys (unix.MkdirTemp tmpdir "runctmpdir"));
     defer (sys (unix.RemoveAll tmpDir))
       (_ ← mountPropagate (with_destination tmpDir m) "/" mountLabel None;
        r ← try_ (WithProcfd rootfs (configs.Destination m) (fun procfd =>
                    _ ← wrapping "tmpcopyup: failed to copy" (sys (unix.CopyDirectory (procfd +:+ "/") tmpDir));
                    wrapping "tmpcopyup: failed to move mount" (mount tmpDir (configs.Destination m) procfd "" MS_MOVE "")));
        match r with
        | Ok _ => mret tt
        | Err e => _ ← ignore (unmount tmpDir MNT_DETACH); throw e
        end)).

(** The cases of the switch in [mountToRootfs]. *)
Definition mount_proc (m : configs.Mount) (rootfs dest : string) : IO K unit :=
  fi ← try_ (sys (unix.Lstat dest));
  _ ← match fi with
      | Err e => if os_IsNotExist e then mret tt else throw e
      | Ok fi => if unix.IsDir fi then mret tt else throw (ErrNew "filesystem %q must be mounted on ordinary directory")
      end;
  _ ← sys (unix.MkdirAll dest);
  mountPropagate m rootfs "" None.
Definition mount_mqueue (m : configs.Mount) (rootfs mountLabel dest : string) : IO K unit :=
  _ ← sys (unix.MkdirAll dest);
  _ ← mountPropagate m rootfs "" None;
  sys (unix.SetFileLabel dest mountLabel).
Definition mount_tmpfs (m : configs.Mount) (rootfs mountLabel dest : string) : IO K unit :=
  stat ← try_ (sys (unix.Stat dest));
  _ ← match stat with Ok _ => mret tt | Err _ => sys (unix.MkdirAll dest) end;
  _ ← (if Z.land (configs.Extensions m) configs.EXT_COPYUP =? configs.EXT_COPYUP then doTmpfsCopyUp m rootfs mountLabel
       else mountPropagate m rootfs mountLabel None);
  match stat with Ok s => sys (unix.Chmod dest (unix.Mode s)) | Err _ => mret tt end.
Definition mount_bind (m : configs.Mount) (rootfs mountLabel : string) (mountFd : option Z) : IO K unit :=
  _ ← prepareBindMount m rootfs mountFd;
  _ ← mountPropagate m rootfs mountLabel mountFd;
  _ ← (if and_not (configs.Flags m) (Z.lor (Z.lor MS_REC MS_REMOUNT) MS_BIND) =? 0 then mret tt else remount m rootfs mountFd);
  _ ← (if bool_decide (configs.Relabel m = "") then mret tt else
       _ ← lift (label_Validate (configs.Relabel m));
       sys (unix.Relabel (configs.Source m) mountLabel (label_IsShared (configs.Relabel m))));
  setRecAttr m rootfs.
Definition mount_other (m : configs.Mount) (rootfs mountLabel dest : string) (mountFd : option Z) : IO K unit :=
  _ ← checkProcMount rootfs dest (configs.Source m);
  _ ← sys (unix.MkdirAll dest);
  mountPropagate m rootfs mountLabel mountFd.
(** [mountToRootfs] of a device that is not "cgroup". *)
Definition mount_device (m : configs.Mount) (c : mountConfig) : IO K unit :=
  dest ← sys (unix.SecureJoin (root c) (configs.Destination m));
  if bool_decide (configs.Device m = "proc") || bool_decide (configs.Device m = "sysfs") then mount_proc m (root c) dest
  else if bool_decide (configs.Device m = "mqueue") then mount_mqueue m (root c) (label c) dest
  else if bool_decide (configs.Device m = "tmpfs") then mount_tmpfs m (root c) (label c) dest
  else if bool_decide (configs.Device m = "bind") then mount_bind m (root c) (label c) (fd c)
  else mount_other m (root c) (label c) dest (fd c).

(** ** Cgroup mounts *)

(** The mount of every hierarchy the process is in.  [mountToRootfs] only comes here on a
    system that is not unified, so what it reads there is [false]. *)
Definition cgroup_bind (m : configs.Mount) (own : gmap string string) (mm : v1paths.Mount) : result configs.Mount :=
  dir ← v1paths.Mount_GetOwnCgroup false mm own;
  relDir ← Rel (v1paths.mt_Root mm) dir;
  Ok (configs.mkMount (Join [v1paths.mt_Mountpoint mm; relDir])
        (Join [configs.Destination m; Base (v1paths.mt_Mountpoint mm)]) "bind"
        (Z.lor (Z.lor MS_BIND MS_REC) (configs.Flags m)) (configs.PropagationFlags m) "" "" None 0 [] []).
Fixpoint cgroup_binds (m : configs.Mount) (own : gmap string string) (mounts : list v1paths.Mount) : result (list configs.Mount) :=
  match mounts with
  | [] => Ok []
  | mm :: l => b ← cgroup_bind m own mm; bs ← cgroup_binds m own l; Ok (b :: bs)
  end.
Definition getCgroupMounts (m : configs.Mount) : IO K (list configs.Mount) :=
  mi ← sys unix.CgroupMountinfo;
  allSubsystems ← sys unix.OwnCgroups;
  let mounts := v1paths.getCgroupMountsHelper ((fun _ => false) <$> allSubsystems) mi false in
  cgroupPaths ← sys unix.OwnCgroups;
  lift (cgroup_binds m cgroupPaths mounts).

Definition cgroup_tmpfs (m : configs.Mount) : configs.Mount :=
  configs.mkMount "tmpfs" (configs.Destination m) "tmpfs" defaultMountFlags (configs.PropagationFlags m) "mode=755" "" None 0 [] [].
(** One hierarchy, mounted inside a cgroup namespace. *)
Definition mount_hierarchy (m : configs.Mount) (c : mountConfig) (b : configs.Mount) : IO K unit :=
  let subsystemPath := Join [root c; configs.Destination b] in
  _ ← sys (unix.MkdirAll subsystemPath);
  WithProcfd (root c) (configs.Destination b) (fun procfd =>
    let flags := if Z.land (configs.Flags m) MS_RDONLY =? 0 then defaultMountFlags else Z.lor defaultMountFlags MS_RDONLY in
    let data := Base subsystemPath in
    let '(source, data) := if bool_decide (data = "systemd") then ("systemd", v1paths.CgroupNamePrefix +:+ data) else ("cgroup", data) in
    mount source (configs.Destination b) procfd "cgroup" flags data).
Definition link_exist (old new : string) : IO K unit :=
  r ← try_ (sys (unix.Symlink old new));
  match r with Ok _ => mret tt | Err e => if is_exist e then mret tt else throw e end.
Definition mountCgroupV1 (m : configs.Mount) (c : mountConfig) : IO K unit :=
  binds ← getCgroupMounts m;
  let merged := filter (fun ss => contains_char ch_comma ss = true) (map (fun b => Base (configs.Destination b)) binds) in
  _ ← mount_device (cgroup_tmpfs m) c;
  _ ← for_each (fun b => if cgroupns c then mount_hierarchy m c b else mount_device b c) binds;
  for_each (fun mc => for_each (fun ss => link_exist mc (Join [root c; configs.Destination m; ss])) (split ch_comma mc)) merged.

Definition mountCgroupV2 (m : configs.Mount) (c : mountConfig) : IO K unit :=
  dest ← sys (unix.SecureJoin (root c) (configs.Destination m));
  _ ← sys (unix.MkdirAll dest);
  WithProcfd (root c) (configs.Destination m) (fun procfd =>
    r ← try_ (mount (configs.Source m) (configs.Destination m) procfd "cgroup2" (configs.Flags m) (configs.Data m));
    match r with
    | Ok _ => mret tt
    | Err err =>
        if errors_is err EPERM || errors_is err EBUSY then
          let src := if cgroupns c && negb (bool_decide (cgroup2Path c = "")) then cgroup2Path c else fs2.UnifiedMountpoint in
          r ← try_ (mount src (configs.Destination m) procfd "" (Z.lor (configs.Flags m) MS_BIND) "");
          match r with
          | Ok _ => mret tt
          | Err err => if rootlessCgroups c && errors_is err ErrNotExist then mret tt else throw err
          end
        else throw err
    end).

Definition mountToRootfs (m : configs.Mount) (c : mountConfig) : IO K unit :=
  if bool_decide (configs.Device m = "cgroup") then
    _ ← sys (unix.SecureJoin (root c) (configs.Destination m));
    unified ← sys unix.IsCgroup2UnifiedMode;
    if unified : bool then mountCgroupV2 m c else mountCgroupV1 m c
  else mount_device m c.

(** ** Devices *)

Definition bindMountDeviceNode (rootfs dest : string) (node : Device) : IO K unit :=
  f ← try_ (sys (unix.Open dest unix.O_TRUNC));
  _ ← match f with
      | Ok f => ignore (sys (unix.Close f))
      | Err e => if is_exist e then mret tt else throw e
      end;
  WithProcfd rootfs dest (fun procfd => mount (Path node) dest procfd "bind" MS_BIND "").

Definition mknodDevice (dest : string) (node : Device) : IO K unit :=
  let type := Type_ (dev_rule node) in
  fileMode ← (if type =? BlockDevice then mret (Z.lor (FileMode node) S_IFBLK)
              else if type =? CharDevice then mret (Z.lor (FileMode node) S_IFCHR)
              else if type =? FifoDevice then mret (Z.lor (FileMode node) S_IFIFO)
              else throw (ErrNew "%c is not a valid device type for device %s"));
  dev ← lift (mkDev (dev_rule node));
  _ ← wrapping "mknod" (sys (unix.Mknod dest fileMode dev));
  sys (unix.Chown dest (Devices.Uid node) (Devices.Gid node)).

Definition createDeviceNode (rootfs : string) (node : Device) (bind : bool) : IO K unit :=
  if bool_decide (Path node = "") then mret tt else
  dest ← sys (unix.SecureJoin rootfs (Path node));
  _ ← sys (unix.MkdirAll (Dir dest));
  if bind then bindMountDeviceNode rootfs dest node else
  r ← try_ (mknodDevice dest node);
  match r with
  | Ok _ => mret tt
  | Err e => if is_exist e then mret tt
             else if is_permission e then bindMountDeviceNode rootfs dest node
             else throw e
  end.

(** userns_linux.go *)
Definition uidMapInUserNS (uidmap : list UIDMap) : bool :=
  match uidmap with
  | [m] => negb ((id_ID m =? 0) && (id_ParentID m =? 0) && (id_Count m =? 4294967295))
  | _ => true
  end.
Definition runningInUserNS : IO K bool :=
  r ← try_ (sys unix.ProcessUIDMap); mret (match r with Ok uidmap => uidMapInUserNS uidmap | Err _ => false end).

Definition createDevices (rootfs : string) (namespaces : Namespaces) (devices : list Device) : IO K unit :=
  inUserNS ← runningInUserNS;
  let useBindMount := inUserNS || Contains namespaces NEWUSER in
  oldMask ← Umask 0;
  r ← try_ (for_each (fun node => if bool_decide (CleanPath (Path node) = "/dev/ptmx") then mret tt
                                  else createDeviceNode rootfs node useBindMount) devices);
  _ ← Umask oldMask;
  lift r.

Definition setupPtmx (rootfs : string) : IO K unit :=
  let ptmx := Join [rootfs; "dev/ptmx"] in
  r ← try_ (sys (unix.Remove ptmx));
  _ ← match r with Ok _ => mret tt | Err e => if os_IsNotExist e then mret tt else throw e end;
  sys (unix.Symlink "pts/ptmx" ptmx).

Definition dev_links : list (string * string) :=
  [("/proc/self/fd", "/dev/fd"); ("/proc/self/fd/0", "/dev/stdin"); ("/proc/self/fd/1", "/dev/stdout"); ("/proc/self/fd/2", "/dev/stderr")].
Definition setupDevSymlinks (rootfs : string) : IO K unit :=
  kcore ← try_ (sys (unix.Stat "/proc/kcore"));
  let links := dev_links ++ match kcore with Ok _ => [("/proc/kcore", "/dev/core")] | Err _ => [] end in
  for_each (fun link => link_exist link.1 (Join [rootfs; link.2])) links.

Definition reopen_fd (file devNull fd : Z) : IO K unit :=
  stat ← wrapping "fstat" (sys (unix.Fstat fd));
  if unix.Rdev stat =? devNull then wrapping "dup3" (sys (unix.Dup3 file fd)) else mret tt.
Definition reOpenDevNull : IO K unit :=
  file ← sys (unix.Open "/dev/null" unix.O_RDWR);
  defer (sys (unix.Close file))
    (devNull ← wrapping "fstat" (sys (unix.Fstat file));
     for_each (reopen_fd file (unix.Rdev devNull)) [0; 1; 2]).

(** ** The new root *)

(** The longest mount point, the first of several. *)
Fixpoint longest_mount (best : unix.Info) (maxlen : nat) (mi : list unix.Info) : unix.Info :=
  match mi with
  | [] => best
  | i :: l => let n := String.length (unix.Mountpoint i) in
              if (maxlen <? n)%nat then longest_mount i n l else longest_mount best maxlen l
  end.
Definition getParentMount (rootfs : string) : IO K (string * string) :=
  all ← sys unix.GetMounts;
  match filter (fun i => ParentsFilter rootfs i = true) all with
  | [] => throw (ErrNew "could not find parent mount of %s")
  | i :: l => let best := longest_mount i 0 (i :: l) in mret (unix.Mountpoint best, unix.Optional best)
  end.
Definition rootfsParentMountPrivate (rootfs : string) : IO K unit :=
  pm ← getParentMount rootfs;
  if existsb (has_prefix "shared:") (split ch_space pm.2) then mount "" pm.1 "" "" MS_PRIVATE "" else mret tt.

Definition prepareRoot (rootPropagation : Z) (rootfs : string) : IO K unit :=
  let flag := if rootPropagation =? 0 then Z.lor MS_SLAVE MS_REC else rootPropagation in
  _ ← mount "" "/" "" "" flag "";
  _ ← rootfsParentMountPrivate rootfs;
  mount rootfs rootfs "" "bind" (Z.lor MS_BIND MS_REC) "".

Definition pivotRoot (rootfs : string) : IO K unit :=
  oldroot ← wrapping "open" (sys (unix.Open "/" unix.O_DIRECTORY));
  defer (sys (unix.Close oldroot))
    (newroot ← wrapping "open" (sys (unix.Open rootfs unix.O_DIRECTORY));
     defer (sys (unix.Close newroot))
       (_ ← wrapping "fchdir" (sys (unix.Fchdir newroot));
        _ ← wrapping "pivot_root" (sys (unix.PivotRoot "." "."));
        _ ← wrapping "fchdir" (sys (unix.Fchdir oldroot));
        _ ← mount "" "." "" "" (Z.lor MS_SLAVE MS_REC) "";
        _ ← unmount "." MNT_DETACH;
        wrapping "chdir" (sys (unix.Chdir "/")))).

Definition chroot : IO K unit :=
  _ ← wrapping "chroot" (sys (unix.Chroot ".")); wrapping "chdir" (sys (unix.Chdir "/")).

(** The mounts [msMoveRoot] hides: full mounts of proc and sysfs outside of the rootfs. *)
Definition full_proc_mount (rootfs : string) (info : unix.Info) : bool :=
  negb (negb (bool_decide (unix.Root info = "/"))
        || (negb (bool_decide (unix.FSType info = "proc")) && negb (bool_decide (unix.FSType info = "sysfs")))
        || has_prefix rootfs (unix.Mountpoint info)).
Definition hide_mount (p : string) : IO K unit :=
  r ← try_ (mount "" p "" "" (Z.lor MS_SLAVE MS_REC) "");
  match r with
  | Err err => if errors_is err ErrNotExist then mret tt else throw err
  | Ok _ =>
      r ← try_ (unmount p MNT_DETACH);
      match r with
      | Ok _ => mret tt
      | Err err => if negb (errors_is err EINVAL) && negb (errors_is err EPERM) then throw err
                   else mount "tmpfs" p "" "tmpfs" 0 ""
      end
  end.
Definition msMoveRoot (rootfs : string) : IO K unit :=
  all ← sys unix.GetMounts;
  _ ← for_each (fun info => hide_mount (unix.Mountpoint info)) (filter (fun i => full_proc_mount rootfs i = true) all);
  _ ← mount rootfs "/" "" "" MS_MOVE "";
  chroot.

(** ** Read-only and masked paths *)

Definition setReadonly : IO K unit :=
  let flags := Z.lor (Z.lor MS_BIND MS_REMOUNT) MS_RDONLY in
  r ← try_ (mount "" "/" "" "" flags "");
  match r with
  | Ok _ => mret tt
  | Err _ =>
      s ← wrapping "statfs" (sys (unix.Statfs "/"));
      mount "" "/" "" "" (Z.lor flags (unix.Flags s)) ""
  end.

Definition readonlyPath (path : string) : IO K unit :=
  r ← try_ (mount path path "" "" (Z.lor MS_BIND MS_REC) "");
  match r with
  | Err err => if errors_is err ErrNotExist then mret tt else throw err
  | Ok _ =>
      s ← wrapping "statfs" (sys (unix.Statfs path));
      let flags := Z.land (unix.Flags s) (Z.lor (Z.lor MS_NOSUID MS_NODEV) MS_NOEXEC) in
      mount path path "" "" (Z.lor (Z.lor (Z.lor flags MS_BIND) MS_REMOUNT) MS_RDONLY) ""
  end.

(** [n] tries are left. *)
Fixpoint remount_tries (dest : string) (flags : Z) (n : nat) : IO K unit :=
  match n with
  | O => throw (ErrNew "unable to mount %s as readonly max retries reached")
  | S n =>
      let flags := Z.lor flags (Z.lor (Z.lor MS_REMOUNT MS_BIND) MS_RDONLY) in
      r ← try_ (mount "" dest "" "" flags "");
      match r with
      | Ok _ => mret tt
      | Err err => if errors_is err EBUSY then _ ← ignore (sys unix.Sleep); remount_tries dest flags n else throw err
      end
  end.
Definition remountReadonly (m : configs.Mount) : IO K unit := remount_tries (configs.Destination m) (configs.Flags m) 5.

Definition maskPath (path mountLabel : string) : IO K unit :=
  r ← try_ (mount "/dev/null" path "" "" MS_BIND "");
  match r with
  | Ok _ => mret tt
  | Err err =>
      if errors_is err ErrNotExist then mret tt
      else if errors_is err ENOTDIR then mount "tmpfs" path "" "tmpfs" MS_RDONLY (FormatMountLabel "" mountLabel)
      else throw err
  end.

Definition writeSystemProperty (key value : string) : IO K unit :=
  sys (unix.WriteFile (Join ["/proc/sys"; replace_char ch_dot ch_slash key]) value).

(** ** The two phases *)

(** [configs.HookList.RunHooks]; the state the hooks read is left out. *)
Definition RunHooks (name : string) (hooks : configs.Hooks) : IO K unit :=
  for_each (fun h => wrapping "error running hook #%d" (sys (unix.Hook name h))) (default [] (hooks !! name)).

Definition procHooks : string := "procHooks".
Definition procResume : string := "procResume".
Definition procReady : string := "procReady".
Definition procRun : string := "procRun".
Definition procSeccomp : string := "procSeccomp".
Definition procSeccompDone : string := "procSeccompDone".
Definition procError : string := "procError".

(** sync.go: the pipe to the parent. *)
Definition EOF : error := ErrNew "EOF".
Definition writeSyncWithFd (sync : string) (fd : Z) : IO K unit := wrapping "writing syncT %q" (sys (unix.SendSync sync fd)).
Definition writeSync (sync : string) : IO K unit := writeSyncWithFd sync (-1).
Definition readSync (expected : string) : IO K unit :=
  r ← try_ (sys unix.RecvSync);
  match r with
  | Err err => if errors_is err EOF then throw (ErrNew "parent closed synchronisation channel")
               else throw (ErrWrap "failed reading error from parent" err)
  | Ok type =>
      if bool_decide (type = procError) then
        ierr ← wrapping "failed reading error from parent" (sys unix.RecvError);
        throw (ErrNew ierr)
      else if bool_decide (type = expected) then mret tt
      else throw (ErrNew "invalid synchronisation flag from parent")
  end.
Definition syncParentHooks : IO K unit := _ ← writeSync procHooks; readSync procResume.

Definition mounts_of (config : configs.Config) : list configs.Mount := configs.Mounts (configs.base config).
Definition rootfs_of (config : configs.Config) : string := configs.Rootfs (configs.base config).
Definition namespaces_of (config : configs.Config) : Namespaces := configs.Namespaces (configs.linux config).

(** One mount of the configuration with its descriptor, -1 for none. *)
Definition mount_one (c : mountConfig) (mf : configs.Mount * option Z) : IO K unit :=
  let m := mf.1 in
  _ ← for_each (fun cmd => wrapping "error running premount command" (mountCmd cmd)) (configs.PremountCmds m);
  let fd := match mf.2 with Some f => if f =? -1 then None else Some f | None => None end in
  _ ← wrapping "error mounting %q to rootfs at %q"
        (mountToRootfs m (mkMountConfig (root c) (label c) (cgroup2Path c) (rootlessCgroups c) (cgroupns c) fd));
  for_each (fun cmd => wrapping "error running postmount command" (mountCmd cmd)) (configs.PostmountCmds m).
Definition with_fds (mounts : list configs.Mount) (mountFds : option (list Z)) : list (configs.Mount * option Z) :=
  match mountFds with None => map (fun m => (m, None)) mounts | Some fds => zip_with (fun m f => (m, Some f)) mounts fds end.
Definition mount_config (iConfig : initConfig) : mountConfig :=
  let config := Config iConfig in
  mkMountConfig (rootfs_of config) (configs.MountLabel (configs.linux config)) (Cgroup2Path iConfig) (RootlessCgroups iConfig)
    (Contains (namespaces_of config) NEWCGROUP) None.

Definition setup_dev (iConfig : initConfig) : IO K unit :=
  let config := Config iConfig in
  _ ← wrapping "error creating device nodes" (createDevices (rootfs_of config) (namespaces_of config) (Devices iConfig));
  _ ← wrapping "error setting up ptmx" (setupPtmx (rootfs_of config));
  wrapping "error setting up /dev symlinks" (setupDevSymlinks (rootfs_of config)).

(** Which way the process is locked into the rootfs. *)
Definition jail (config : configs.Config) : IO K unit :=
  if configs.NoPivotRoot (configs.base config) then msMoveRoot (rootfs_of config)
  else if Contains (namespaces_of config) NEWNS then pivotRoot (rootfs_of config)
  else chroot.

Definition prepareRootfs (iConfig : initConfig) (mountFds : option (list Z)) : IO K unit :=
  let config := Config iConfig in
  let rootfs := rootfs_of config in
  _ ← wrapping "error preparing rootfs" (prepareRoot (configs.RootPropagation (configs.linux config)) rootfs);
  _ ← lift (guard_err (match mountFds with Some fds => negb (length fds =? length (mounts_of config))%nat | None => false end)
              (ErrNew "malformed mountFds slice. Expected size: %v, got: %v. Slice: %v"));
  let setupDev := needsSetupDev (mounts_of config) in
  _ ← for_each (mount_one (mount_config iConfig)) (with_fds (mounts_of config) mountFds);
  _ ← (if setupDev then setup_dev iConfig else mret tt);
  _ ← syncParentHooks;
  _ ← wrapping "chdir" (sys (unix.Chdir rootfs));
  _ ← RunHooks "createContainer" (configs.Hooks_ config);
  _ ← wrapping "error jailing process inside rootfs" (jail config);
  _ ← (if setupDev then wrapping "error reopening /dev/null inside container" reOpenDevNull else mret tt);
  if bool_decide (Cwd iConfig = "") then mret tt else sys (unix.MkdirAll (Cwd iConfig)).

Definition finalizeRootfs (config : configs.Config) : IO K unit :=
  _ ← for_each (fun m => if negb (Z.land (configs.Flags m) MS_RDONLY =? MS_RDONLY) then mret tt
                         else if is_dev m then remountReadonly m else mret tt) (mounts_of config);
  _ ← (if configs.Readonlyfs (configs.base config) then wrapping "error setting rootfs as readonly" setReadonly else mret tt);
  _ ← Umask (match configs.Umask (configs.process config) with Some m => m | None => 18 end);
  mret tt.

End rootfs.
End libcontainer.
