(* ===== verification/ContainerInit.v ===== *)
(** * The init processes: init_linux.go, standard_init_linux.go, setns_init_linux.go, capabilities.go, console_linux.go,
    and StartInitialization of factory_linux.go

    What runs in a new container ([linuxStandardInit]) or in an existing one ([linuxSetnsInit])
    between the bootstrap and the program of the user.  [Init] only returns when it fails: on
    success the process is another program. *)

From S2P Require Import Prelude GoAct GoStrings GoPath GoFs Devices Configs Validator UserDb Seccomp SpecTypes SpecConv CgroupFiles GoJson InitSys RootfsSetup.

Open Scope string_scope.
Open Scope list_scope.
#[local] Open Scope Z_scope.

Module init.
Import libcontainer.

Definition ErrNoSys : error := ErrNew "function not implemented".
Definition ch_equals : ascii := chr 61.

Record linuxStandardInit := mkStandardInit {
  consoleSocket : Z; parentPid : Z; fifoFd : Z; logFd : Z; mountFds : option (list Z); config : initConfig }.
Record linuxSetnsInit := mkSetnsInit { ns_consoleSocket : Z; ns_config : initConfig; ns_logFd : Z }.

Section init.
Context {K : Type} `{Kernel K} `{Libraries}.

(** ** Capabilities *)

(** The sets of a [Caps]: unknown names are dropped. *)
Definition capSlice (caps : list string) : list Z := omap capabilityMap caps.
Record Caps := mkCaps { BOUNDING : list Z; EFFECTIVE : list Z; INHERITABLE : list Z; PERMITTED : list Z; AMBIENT : list Z }.
Definition caps_of (c : configs.Capabilities) : Caps :=
  mkCaps (capSlice (configs.Bounding c)) (capSlice (configs.Effective c)) (capSlice (configs.Inheritable c))
    (capSlice (configs.Permitted c)) (capSlice (configs.Ambient c)).
Definition New (capConfig : configs.Capabilities) : IO K Caps :=
  _ ← sys unix.NewPid; _ ← sys unix.LoadCaps; mret (caps_of capConfig).
Definition ApplyBoundingSet (c : Caps) : IO K unit := sys (unix.ApplyBounding (BOUNDING c)).
(** In the order of [capTypes]. *)
Definition all_sets (c : Caps) : list (list Z) := [BOUNDING c; PERMITTED c; INHERITABLE c; EFFECTIVE c; AMBIENT c].
Definition ApplyCaps (c : Caps) : IO K unit := sys (unix.ApplyCaps (all_sets c)).

Definition no_caps : configs.Capabilities := configs.mkCaps [] [] [] [] [].
Definition config_caps (c : initConfig) : configs.Capabilities :=
  match Capabilities c with
  | Some caps => caps
  | None => default no_caps (configs.Capabilities_ (configs.process (Config c)))
  end.

(** ** The user *)

Definition populateProcessEnvironment (env : list string) : IO K unit :=
  for_each (fun pair =>
    match split_n ch_equals 2 pair with
    | [name; val] =>
        if bool_decide (name = "") then throw (ErrNew "environment variable name can't be empty: %q")
        else if contains_char ch_nul name then throw (ErrNew "environment variable name can't contain null(\x00): %q")
        else if contains_char ch_nul val then throw (ErrNew "environment variable value can't contain null(\x00): %q")
        else sys (unix.Setenv name val)
    | _ => throw (ErrNew "invalid environment variable: %q")
    end) env.

Definition fix_stdio (u : ExecUser) (fd : Z) : IO K unit :=
  s ← wrapping "fstat" (sys (unix.Fstat fd));
  if unix.s_Uid s =? Uid u then mret tt else
  r ← try_ (sys (unix.Fchown fd (Uid u) (unix.s_Gid s)));
  match r with
  | Ok _ => mret tt
  | Err err => if errors_is err EINVAL || errors_is err EPERM || errors_is err EROFS then mret tt else throw err
  end.
Definition fixStdioPermissions (u : ExecUser) : IO K unit :=
  _ ← wrapping "stat" (sys (unix.StatT "/dev/null"));
  for_each (fix_stdio u) [0; 1; 2].

(** A file that cannot be opened is no source. *)
Definition open_reader (path : string) : IO K (option Reader) :=
  r ← try_ (sys (unix.OpenReader path)); mret (match r with Ok f => Some f | Err _ => None end).
Definition GetExecUserPath (userSpec : string) (defaults : ExecUser) (passwdPath groupPath : string) : IO K ExecUser :=
  passwd ← open_reader passwdPath;
  group ← open_reader groupPath;
  lift (GetExecUser userSpec (Some defaults) passwd group).
Definition GetAdditionalGroupsPath (additionalGroups : list string) (groupPath : string) : IO K (list Z) :=
  group ← open_reader groupPath;
  gids ← lift (GetAdditionalGroups additionalGroups group);
  mret (elements gids).

Definition defaultExecUser : ExecUser := mkExecUser 0 0 [] "/".
Definition setupUser (c : initConfig) : IO K unit :=
  execUser ← GetExecUserPath (User c) defaultExecUser "/etc/passwd" "/etc/group";
  addGroups ← (if bool_decide (AdditionalGroups c = []) then mret [] else GetAdditionalGroupsPath (AdditionalGroups c) "/etc/group");
  _ ← match HostUID (checked (Config c)) (Uid execUser) with
      | Ok _ => mret tt | Err _ => throw (ErrNew "cannot set uid to unmapped user in user namespace") end;
  _ ← match HostGID (checked (Config c)) (Gid execUser) with
      | Ok _ => mret tt | Err _ => throw (ErrNew "cannot set gid to unmapped user in user namespace") end;
  _ ← (if RootlessEUID c && negb (bool_decide (addGroups = [])) then throw (ErrNew "cannot set any additional groups in a rootless container")
       else mret tt);
  _ ← fixStdioPermissions execUser;
  r ← try_ (sys (unix.ReadFile "/proc/self/setgroups"));
  setgroups ← match r with Ok s => mret s | Err e => if os_IsNotExist e then mret "" else throw e end;
  let allowSupGroups := negb (RootlessEUID c) && negb (bool_decide (trim_space setgroups = "deny")) in
  _ ← (if allowSupGroups then wrapping "setgroups" (sys (unix.Setgroups (Sgids execUser ++ addGroups))) else mret tt);
  _ ← sys (unix.Setgid (Gid execUser));
  _ ← sys (unix.Setuid (Uid execUser));
  envHome ← try_ (sys (unix.Getenv "HOME"));
  if match envHome with Ok v => bool_decide (v = "") | Err _ => true end then sys (unix.Setenv "HOME" (Home execUser)) else mret tt.

(** ** Descriptors and the console *)

Definition EnsureProcHandle (fd : Z) : IO K unit :=
  buf ← wrapping "ensure %s is on procfs" (sys (unix.Fstatfs fd));
  if unix.Type_ buf =? PROC_SUPER_MAGIC then mret tt else throw (ErrNew "%s is not on procfs").
Definition close_exec (minFd : Z) (fdStr : string) : IO K unit :=
  match atoi fdStr with
  | (_, Some _) => mret tt
  | (fd, None) => if fd <? minFd then mret tt else ignore (sys (unix.CloseOnExec fd))
  end.
Definition CloseExecFrom (minFd : Z) : IO K unit :=
  fdDir ← sys (unix.Open "/proc/self/fd" unix.O_RDONLY);
  defer (sys (unix.Close fdDir))
    (_ ← EnsureProcHandle fdDir;
     fdList ← sys (unix.Readdirnames fdDir);
     for_each (close_exec minFd) fdList).

Definition mountConsole (slavePath : string) : IO K unit :=
  oldMask ← Umask 0;
  defer (_ ← Umask oldMask; mret tt)
    (f ← try_ (sys (unix.Open "/dev/console" unix.O_TRUNC));
     _ ← match f with
         | Ok f => ignore (sys (unix.Close f))
         | Err e => if is_exist e then mret tt else throw e
         end;
     mount slavePath "/dev/console" "" "bind" MS_BIND "").
Definition dupStdio (slavePath : string) : IO K unit :=
  fd ← wrapping "open" (sys (unix.Open slavePath unix.O_RDWR));
  for_each (fun i => sys (unix.Dup3 fd i)) [0; 1; 2].
Definition setupConsole (socket : Z) (c : initConfig) (mount : bool) : IO K unit :=
  defer (sys (unix.Close socket))
    ('(pty, slavePath) ← sys unix.NewPty;
     defer (sys (unix.Close pty))
       (_ ← (if negb (ConsoleHeight c =? 0) && negb (ConsoleWidth c =? 0)
             then sys (unix.Resize pty (ConsoleHeight c) (ConsoleWidth c)) else mret tt);
        _ ← (if mount then mountConsole slavePath else mret tt);
        _ ← sys (unix.SendFd socket pty);
        dupStdio slavePath)).

(** ** The parent *)

Definition syncParentReady : IO K unit := _ ← writeSync procReady; readSync procRun.
Definition syncParentSeccomp (seccompFd : Z) : IO K unit :=
  if seccompFd =? -1 then mret tt else
  r ← try_ (writeSyncWithFd procSeccomp seccompFd);
  match r with
  | Err e => _ ← ignore (sys (unix.Close seccompFd)); throw e
  | Ok _ =>
      r ← try_ (readSync procSeccompDone);
      match r with
      | Err e => _ ← ignore (sys (unix.Close seccompFd)); throw (ErrWrap "sync parent seccomp" e)
      | Ok _ => wrapping "close seccomp fd" (sys (unix.Close seccompFd))
      end
  end.
(** Loading the filter and handing its descriptor over, early and late. *)
Definition install_seccomp (s : Seccomp) : IO K unit := seccompFd ← sys (unix.InitSeccomp s); syncParentSeccomp seccompFd.
Definition install_seccomp_late (s : Seccomp) : IO K unit :=
  seccompFd ← wrapping "unable to init seccomp" (sys (unix.InitSeccomp s)); syncParentSeccomp seccompFd.

(** ** finalizeNamespace *)

Definition finalizeNamespace (c : initConfig) : IO K unit :=
  _ ← wrapping "error closing exec fds" (CloseExecFrom (PassedFilesCount c + 3));
  doChdir ← (if bool_decide (Cwd c = "") then mret false else
             r ← try_ (sys (unix.Chdir (Cwd c)));
             match r with
             | Ok _ => mret false
             | Err err => if is_permission err then mret true else throw (ErrWrap "chdir to cwd (%q) set in config.json failed" err)
             end);
  w ← New (config_caps c);
  _ ← wrapping "unable to apply bounding set" (ApplyBoundingSet w);
  _ ← wrapping "unable to set keep caps" (sys unix.SetKeepCaps);
  _ ← wrapping "unable to setup user" (setupUser c);
  _ ← (if doChdir : bool then wrapping "chdir to cwd (%q) set in config.json failed" (sys (unix.Chdir (Cwd c))) else mret tt);
  _ ← wrapping "unable to clear keep caps" (sys unix.ClearKeepCaps);
  wrapping "unable to apply caps" (ApplyCaps w).

(** ** Init *)

(** A deferred call of [Init]: it is not reached when the process was replaced or killed. *)
Definition defer_failed (f m : IO K unit) : IO K unit :=
  r ← try_ m; match r with Ok _ => mret tt | Err e => _ ← ignore f; throw e end.

Definition getSessionRingParams (c : initConfig) : string * Z * Z :=
  ("_ses." +:+ ContainerId c, 0xffffffff, if Contains (namespaces_of (Config c)) NEWUSER then 0x8 else 0x80000).
Definition join_keyring (c : initConfig) : IO K unit :=
  let '(ringname, keepperms, newperms) := getSessionRingParams c in
  r ← try_ (sys (unix.JoinSessionKeyring ringname));
  match r with
  | Err err => if errors_is err ErrNoSys then mret tt else throw (ErrWrap "unable to join session keyring" err)
  | Ok sessKeyId => wrapping "unable to mod keyring permissions" (sys (unix.ModKeyringPerm sessKeyId keepperms newperms))
  end.

(** network_linux.go: the only strategy brings the loopback interface up. *)
Definition getStrategy (tpe : string) : result unit :=
  if bool_decide (tpe = "loopback") then Ok tt else Err (ErrNew "unknown strategy type %q").
Definition setupNetwork (networks : list unix.Network) : IO K unit :=
  for_each (fun n => _ ← lift (getStrategy (unix.n_Type n)); sys (unix.LinkSetUp "lo")) networks.
(** The addresses of a route are parsed by the call that adds it. *)
Definition setupRoute (routes : list unix.Route) : IO K unit := for_each (fun r => sys (unix.AddRoute r)) routes.

Definition Restore (p : Z) : IO K unit :=
  if p =? 0 then mret tt else
  current ← sys unix.GetParentDeathSignal;
  if p =? current then mret tt else sys (unix.SetParentDeathSignal p).

Definition close_mount_fds (fds : option (list Z)) : IO K unit :=
  for_each (fun m => if m =? -1 then mret tt else wrapping "Unable to close mountFds fds" (sys (unix.Close m))) (default [] fds).

(** The parts of [Init], in order. *)
Definition prepare_phase (l : linuxStandardInit) : IO K unit :=
  let c := config l in
  _ ← setupNetwork (Networks c);
  _ ← setupRoute (Routes c);
  r ← try_ (prepareRootfs c (mountFds l));
  _ ← close_mount_fds (mountFds l);
  lift r.
Definition console_phase (l : linuxStandardInit) : IO K unit :=
  if CreateConsole (config l) then
    _ ← setupConsole (consoleSocket l) (config l) true;
    wrapping "ioctl(setctty)" (sys unix.Setctty)
  else mret tt.
Definition protect_phase (c : initConfig) : IO K unit :=
  let conf := Config c in
  _ ← (if Contains (namespaces_of conf) NEWNS then finalizeRootfs conf else mret tt);
  _ ← (if bool_decide (configs.Hostname (configs.base conf) = "") then mret tt
       else wrapping "sethostname" (sys (unix.Sethostname (configs.Hostname (configs.base conf)))));
  _ ← wrapping "unable to apply apparmor profile" (sys (unix.ApplyProfile (AppArmorProfile c)));
  _ ← for_each (fun kv => writeSystemProperty kv.1 kv.2) (configs.Sysctl (configs.linux conf));
  _ ← for_each (fun path => wrapping "can't make %q read-only" (readonlyPath path)) (configs.ReadonlyPaths (configs.linux conf));
  for_each (fun path => wrapping "can't mask path %s" (maskPath path (configs.MountLabel (configs.linux conf))))
    (configs.MaskPaths (configs.linux conf)).
Definition set_no_new_privs (c : initConfig) : IO K unit := if NoNewPrivileges c then sys unix.SetNoNewPrivs else mret tt.
(** Without no_new_privs the filter is loaded before the capabilities are dropped, with it afterwards. *)
Definition early_seccomp (c : initConfig) : IO K unit :=
  match configs.Seccomp_ (configs.linux (Config c)) with
  | Some s => if NoNewPrivileges c then mret tt else install_seccomp s
  | None => mret tt
  end.
Definition late_seccomp (c : initConfig) : IO K unit :=
  match configs.Seccomp_ (configs.linux (Config c)) with
  | Some s => if NoNewPrivileges c then install_seccomp_late s else mret tt
  | None => mret tt
  end.

(** [Args[0]] *)
Definition first_arg (c : initConfig) : IO K string :=
  match Args c with a :: _ => mret a | [] => throw (ErrNew "runtime error: index out of range") end.

(** The exec fifo: opening it waits for the start of the container. *)
Definition wait_start (l : linuxStandardInit) : IO K unit :=
  _ ← ignore (sys unix.ClosePipe);
  _ ← wrapping "close log pipe" (sys (unix.Close (logFd l)));
  fd ← wrapping "open exec fifo" (sys (unix.Open (procfd_path (fifoFd l)) unix.O_WRONLY));
  _ ← wrapping "write exec fifo" (sys (unix.Write fd "0"));
  ignore (sys (unix.Close (fifoFd l))).

Definition exec_phase (l : linuxStandardInit) (pdeath : Z) : IO K unit :=
  let c := config l in
  _ ← early_seccomp c;
  _ ← finalizeNamespace c;
  _ ← wrapping "can't restore pdeath signal" (Restore pdeath);
  ppid ← sys unix.Getppid;
  if negb (ppid =? parentPid l) then sys unix.KillSelf else
  arg ← first_arg c;
  name ← sys (unix.LookPath arg);
  _ ← wrapping "exec" (sys (unix.Eaccess name));
  _ ← late_seccomp c;
  _ ← wait_start l;
  _ ← RunHooks "startContainer" (configs.Hooks_ (Config c));
  wrapping "exec" (sys (unix.Exec name (Args c))).

Definition after_keyring (l : linuxStandardInit) : IO K unit :=
  let c := config l in
  _ ← prepare_phase l;
  _ ← console_phase l;
  _ ← protect_phase c;
  pdeath ← wrapping "can't get pdeath signal" (sys unix.GetParentDeathSignal);
  _ ← wrapping "prctl(SET_NO_NEW_PRIVS)" (set_no_new_privs c);
  _ ← wrapping "sync ready" syncParentReady;
  _ ← wrapping "can't set process label" (sys (unix.SetExecLabel (ProcessLabel c)));
  defer_failed (sys (unix.SetExecLabel "")) (exec_phase l pdeath).

(** [linuxStandardInit.Init] *)
Definition Init (l : linuxStandardInit) : IO K unit :=
  let c := config l in
  if configs.NoNewKeyring (configs.base (Config c)) then after_keyring l else
  _ ← sys (unix.SetKeyLabel (ProcessLabel c));
  defer_failed (sys (unix.SetKeyLabel "")) (_ ← join_keyring c; after_keyring l).

(** ** setns_init_linux.go *)

Definition setns_exec (l : linuxSetnsInit) : IO K unit :=
  let c := ns_config l in
  _ ← early_seccomp c;
  _ ← finalizeNamespace c;
  _ ← sys (unix.ApplyProfile (AppArmorProfile c));
  _ ← late_seccomp c;
  _ ← wrapping "close log pipe" (sys (unix.Close (ns_logFd l)));
  arg ← first_arg c;
  name ← sys (unix.LookPath arg);
  wrapping "exec" (sys (unix.Exec name (Args c))).
Definition setns_after_keyring (l : linuxSetnsInit) : IO K unit :=
  let c := ns_config l in
  _ ← (if CreateConsole c then _ ← setupConsole (ns_consoleSocket l) c false; sys unix.Setctty else mret tt);
  _ ← set_no_new_privs c;
  _ ← sys (unix.SetExecLabel (ProcessLabel c));
  defer_failed (sys (unix.SetExecLabel "")) (setns_exec l).
Definition setns_join_keyring (c : initConfig) : IO K unit :=
  r ← try_ (sys (unix.JoinSessionKeyring ("_ses." +:+ ContainerId c)));
  match r with
  | Err err => if errors_is err ErrNoSys then mret tt else throw (ErrWrap "unable to join session keyring" err)
  | Ok _ => mret tt
  end.
(** [linuxSetnsInit.Init] *)
Definition setns_Init (l : linuxSetnsInit) : IO K unit :=
  let c := ns_config l in
  if configs.NoNewKeyring (configs.base (Config c)) then setns_after_keyring l else
  _ ← sys (unix.SetKeyLabel (ProcessLabel c));
  defer_failed (sys (unix.SetKeyLabel "")) (_ ← setns_join_keyring c; setns_after_keyring l).

(** ** The start of an init process: factory_linux.go and newContainerInit *)

Inductive initer := Standard (l : linuxStandardInit) | Setns (l : linuxSetnsInit).
Definition initSetns : string := "setns".
Definition initStandard : string := "standard".

Definition newContainerInit (t : string) (consoleSocket fifoFd logFd : Z) (mountFds : option (list Z)) : IO K initer :=
  config ← sys unix.RecvConfig;
  _ ← populateProcessEnvironment (Env config);
  if bool_decide (t = initSetns) then
    match mountFds with
    | Some _ => throw (ErrNew "mountFds must be nil. Can't mount while doing runc exec.")
    | None => mret (Setns (mkSetnsInit consoleSocket config logFd))
    end
  else if bool_decide (t = initStandard) then
    ppid ← sys unix.Getppid;
    mret (Standard (mkStandardInit consoleSocket ppid fifoFd logFd mountFds config))
  else throw (ErrNew "unknown init type %q").
Definition run_init (i : initer) : IO K unit := match i with Standard l => Init l | Setns l => setns_Init l end.

(** An unset variable is empty. *)
Definition getenv (name : string) : IO K string := r ← try_ (sys (unix.Getenv name)); mret (match r with Ok v => v | Err _ => "" end).
Definition fd_of (name text : string) : IO K Z :=
  match atoi text with (fd, None) => mret fd | (_, Some e) => throw (ErrWrap ("unable to convert " +:+ name) e) end.

(** [json.Unmarshal] into a slice of integers; null leaves the slice nil. *)
Fixpoint ints_of (l : list jvalue) : result (list Z) :=
  match l with
  | [] => Ok []
  | v :: l =>
      z ← match v with
          | JNum text => match atoi text with (z, None) => Ok z | (_, Some _) => Err ErrType end
          | JNull => Ok 0
          | _ => Err ErrType
          end;
      zs ← ints_of l; Ok (z :: zs)
  end.
Definition as_ints (v : jvalue) : result (option (list Z)) :=
  match v with JArr l => Some <$> ints_of l | JNull => Ok None | _ => Err ErrType end.
Definition parseMountFds : IO K (option (list Z)) :=
  fdsJson ← getenv "_LIBCONTAINER_MOUNT_FDS";
  if bool_decide (fdsJson = "") then mret None else
  lift (wrap_err "Error unmarshalling _LIBCONTAINER_MOUNT_FDS" (v ← unmarshal_value fdsJson; as_ints v)).

(** [error.Error()]; the interpolated values are left out. *)
Fixpoint Error (e : error) : string :=
  match e with ErrNew text => text | ErrWrap text inner => text +:+ ": " +:+ Error inner end.
(** The deferred report: the parent gets the error of a process that could not be set up. *)
Definition report_failed (m : IO K unit) : IO K unit :=
  r ← try_ m;
  match r with
  | Ok _ => mret tt
  | Err e =>
      sent ← try_ (writeSync procError);
      _ ← match sent with Ok _ => ignore (sys (unix.SendInitError (Error e))) | Err _ => mret tt end;
      throw e
  end.

Definition StartInitialization : IO K unit :=
  envInitPipe ← getenv "_LIBCONTAINER_INITPIPE";
  _ ← fd_of "_LIBCONTAINER_INITPIPE" envInitPipe;
  defer_failed (sys unix.ClosePipe) (report_failed
    (it ← getenv "_LIBCONTAINER_INITTYPE";
     fifofd ← (if bool_decide (it = initStandard) then
                 envFifoFd ← getenv "_LIBCONTAINER_FIFOFD"; fd_of "_LIBCONTAINER_FIFOFD" envFifoFd
               else mret (-1));
     envConsole ← getenv "_LIBCONTAINER_CONSOLE";
     consoleSocket ← (if bool_decide (envConsole = "") then mret (-1) else fd_of "_LIBCONTAINER_CONSOLE" envConsole);
     defer_failed (if bool_decide (envConsole = "") then mret tt else sys (unix.Close consoleSocket))
       (logPipeFdStr ← getenv "_LIBCONTAINER_LOGPIPE";
        logPipeFd ← fd_of "_LIBCONTAINER_LOGPIPE" logPipeFdStr;
        mountFds ← parseMountFds;
        _ ← ignore (sys unix.Clearenv);
        i ← newContainerInit it consoleSocket fifofd logPipeFd mountFds;
        run_init i))).
End init.
End init.
