(* ===== verification/RootfsSetupThms.v ===== *)
(** * Theorems on the root filesystem of a container *)

From S2P Require Import Prelude GoAct GoStrings GoPath GoFs Devices Configs Validator RootfsThms LiteThms SpecTypes SpecConv CgroupFiles CgroupV1Paths InitSys RootfsSetup.

Open Scope string_scope.
Open Scope list_scope.
#[local] Open Scope Z_scope.

Import libcontainer.

(** ** Mounts over /proc *)

(** [Rel] between clean absolute paths. *)
Lemma Rel_names (b t : list string) :
  Forall good b -> Forall good t ->
  Rel (render true b) (render true t) =
    let '(b', t') := strip_common b t in
    Ok (if bool_decide (b' ++ t' = []) then "." else join slash (replicate (length b') ".." ++ t')).
Proof.
  intros Hb Ht. unfold Rel. rewrite !Clean_render by (by apply good_norm). destruct (strip_common b t) as [b' t'] eqn:Es.
  pose proof Es as Es'. apply strip_common_spec in Es as (c & -> & ->). case_bool_decide as E.
  - apply (f_equal (comps true)) in E. rewrite !comps_render in E by (by apply good_norm). apply app_inv_head in E as ->.
    rewrite strip_common_app in Es'. assert (forall l : list string, strip_common l l = ([], [])) as Hl.
    { induction l as [|x l IH]; [done|]. cbn. by rewrite bool_decide_eq_true_2. }
    rewrite Hl in Es'. by injection Es' as <-.
  - rewrite (bool_decide_eq_false_2 (render true _ = ".")) by done. rewrite !IsAbs_render by (by apply good_norm). cbn [Bool.eqb negb].
    rewrite !elements_render, Es' by done. rewrite (bool_decide_eq_false_2 (b' ++ t' = [])) by (intros [-> ->]%app_eq_nil; by apply E).
    rewrite (bool_decide_eq_false_2 (head b' = Some "..")); [done|]. destruct b' as [|x b']; [done|]. intros [= ->].
    apply Forall_app in Hb as [_ Hb]. by apply Forall_inv in Hb as (_ & _ & ? & _).
Qed.

Lemma Join_render_names (r v : list string) : Forall good r -> Forall good v -> Join [render true r; render true v] = render true (r ++ v).
Proof.
  intros Hr Hv. rewrite (Join_good _ _ v); [by rewrite comps_render by by apply good_norm|apply has_prefix_app|done|].
  intros stk. destruct v as [|x v]; [done|]. rewrite split_render by done. rewrite bool_decide_eq_false_2 by done.
  exact (fold_good true (x :: v) stk Hv).
Qed.

Lemma join_head (x : string) (l : list string) : exists s, join slash (x :: l) = x +:+ s.
Proof. destruct l as [|y l]; cbn [join]; [exists ""; by rewrite app_empty_r|by eexists]. Qed.

(** A destination is below the proc directory of the rootfs with the first element [x], is that directory,
    or is elsewhere. *)
Lemma Rel_proc (r d : list string) :
  Forall good r -> Forall good d ->
  exists path, Rel (Join [render true r; "/proc"]) (render true d) = Ok path /\
    match strip_common (r ++ ["proc"]) d with
    | ([], []) => path = "."
    | ([], x :: l) => path = join slash (x :: l)
    | (_ :: _, _) => has_prefix ".." path = true
    end.
Proof.
  intros Hr Hd. assert (Forall good (r ++ ["proc"])) as Hp by (apply Forall_app; split; [done|]; apply Forall_one; by vm_compute).
  change "/proc" with (render true ["proc"]). rewrite Join_render_names by (done || apply Forall_one; by vm_compute).
  rewrite Rel_names by done. destruct (strip_common _ d) as [b' t']. eexists. split; [done|].
  destruct b' as [|x b']; [by destruct t'|]. cbn [length replicate app]. rewrite bool_decide_eq_false_2 by done.
  destruct (join_head ".." (replicate (length b') ".." ++ t')) as [s ->]. apply has_prefix_app.
Qed.

Lemma prefix_dots (x : string) (l : list string) : good x -> has_prefix ".." (join slash (x :: l)) = has_prefix ".." x.
Proof.
  intros (H1 & H2 & H3 & H4). destruct l as [|y l]; [done|]. cbn [join].
  destruct x as [|a [|b x]]; [done| |].
  - unfold slash. rewrite !app_cons, app_empty_l. done.
  - by rewrite !app_cons.
Qed.
Lemma join_not_dot (x : string) (l : list string) : good x -> join slash (x :: l) <> ".".
Proof.
  intros (H1 & H2 & _ & _). destruct l as [|y l]; [done|]. cbn [join]. destruct x as [|a x]; [done|].
  unfold slash. rewrite !app_cons, app_empty_l. destruct x; [by rewrite app_empty_l|by rewrite app_cons].
Qed.

Lemma Rel_dot (b d : list string) : Forall good b -> Forall good d ->
  exists path, Rel (render true b) (render true d) = Ok path /\ (path = "." <-> b = d).
Proof.
  intros Hb Hd. rewrite Rel_names by done. destruct (strip_common b d) as [b' t'] eqn:Es. eexists. split; [done|].
  pose proof Es as Es'. apply strip_common_spec in Es as (c & -> & ->). case_bool_decide as E.
  - apply app_eq_nil in E as [-> ->]. done.
  - split; [|intros E2%app_inv_head; subst b'].
    + destruct b' as [|x b']; cbn [length replicate app].
      * destruct t' as [|x t']; [done|]. intros Hj. exfalso. apply (join_not_dot x t'); [|done].
        apply Forall_app in Hd as [_ Hd]. by apply Forall_inv in Hd.
      * intros Hj. destruct (replicate (length b') ".." ++ t'); cbn in Hj; done.
    + rewrite strip_common_app in Es'. exfalso. apply E. clear -Es'. revert Es'. induction t' as [|x l IH]; [done|].
      cbn. rewrite bool_decide_eq_true_2 by done. intros Es'. pose proof (strip_common_spec _ _ _ _ Es') as (c & E1 & E2).
      apply (f_equal length) in E1. rewrite length_app in E1. cbn in E1. lia.
Qed.

Lemma check_valid_names (r e : list string) (vs : list (list string)) :
  Forall good r -> Forall good e -> Forall (Forall good) vs ->
  check_valid (render true r) (render true (r ++ e)) (map (render true) vs) =
    if bool_decide (e ∈ vs) then Ok tt else Err ErrInsideProc.
Proof.
  intros Hr He. induction 1 as [|v vs Hv _ IH]; [done|]. cbn [map check_valid].
  rewrite Join_render_names by done.
  destruct (Rel_dot (r ++ v) (r ++ e)) as (path & -> & Hp); [by apply Forall_app..|]. cbn [mbind result_bind].
  destruct (decide (path = ".")) as [E1|E1].
  - rewrite bool_decide_eq_true_2 by done. apply Hp in E1 as ->%app_inv_head. rewrite bool_decide_eq_true_2; [done|]. by left.
  - rewrite bool_decide_eq_false_2, IH by done.
    replace (bool_decide (e ∈ v :: vs)) with (bool_decide (e ∈ vs)); [done|]. apply bool_decide_ext. rewrite elem_of_cons.
    split; [by right|]. intros [->|?]; [|done]. exfalso. by apply E1, Hp.
Qed.

(** What may be mounted where, by the elements of the destination below the rootfs: nothing over /proc but
    another proc, nothing inside of it but the files that lxcfs emulates.  Elements that start with two dots
    pass, because the check takes them for a way out of /proc. *)
Definition valid_names : list (list string) := map (comps true) validProcMounts.
Definition proc_policy {K} `{Kernel K} (e : list string) (source : string) : IO K unit :=
  match e with
  | ["proc"] =>
      if bool_decide (source = "") then mret tt else
      isproc ← isProc source;
      if isproc : bool then mret tt else throw (ErrNew "%q cannot be mounted because it is not of type proc")
  | "proc" :: x :: _ => if has_prefix ".." x || bool_decide (e ∈ valid_names) then mret tt else throw ErrInsideProc
  | _ => mret tt
  end.

Lemma strip_proc (r e : list string) :
  strip_common (r ++ ["proc"]) (r ++ e) = strip_common ["proc"] e.
Proof. apply strip_common_app. Qed.

(** The check on mount destinations decides by the path alone, except for mounts over /proc itself, whose source
    must be a proc filesystem: inside /proc only the emulated files pass, and names that start with two dots,
    outside everything does, and nothing is asked of the system for it. *)
Theorem checkProcMount_policy {K} `{Kernel K} (r e : list string) (source : string) :
  Forall good r -> Forall good e ->
  checkProcMount (render true r) (render true (r ++ e)) source ≡ proc_policy e source.
Proof.
  intros Hr He. unfold checkProcMount. destruct (Rel_proc r (r ++ e)) as (path & -> & Hp); [done|by apply Forall_app|].
  rewrite act_lift_bind. rewrite strip_proc in Hp. destruct e as [|p l]; [by rewrite Hp|]. cbn [strip_common] in Hp.
  case_bool_decide as E; [subst p|].
  - destruct l as [|x l]; cbn [strip_common] in Hp.
    + subst path. done.
    + subst path. apply Forall_cons in He as [_ He]. pose proof (Forall_inv He) as Hx. rewrite prefix_dots by done.
      unfold proc_policy. destruct (has_prefix ".." x); [done|]. rewrite bool_decide_eq_false_2 by (by apply join_not_dot).
      change validProcMounts with (map (render true) valid_names). rewrite check_valid_names; [|done|by constructor; [by vm_compute|]|].
      * cbn [orb]. by case_bool_decide.
      * by apply (bool_decide_unpack _).
  - rewrite Hp. unfold proc_policy. repeat (destruct p as [|[[] [] [] [] [] [] [] []] p]; try done).
Qed.

(** ** Mounts stay inside the rootfs *)

(** What a call does to the descriptor [fd]. *)
Inductive fd_act := FdOpen (path : string) | FdGone | FdLink (path : string).
Definition about_fd (fd : Z) (ev : event) : option fd_act :=
  match ev with
  | Event c r =>
      match c in unix.call A return result A -> option fd_act with
      | unix.Open p _ => fun r => match r with Ok f => if f =? fd then Some (FdOpen p) else None | Err _ => None end
      | unix.Close f => fun _ => if f =? fd then Some FdGone else None
      | unix.Dup3 _ f => fun _ => if f =? fd then Some FdGone else None
      | unix.Readlink l => fun r => match r with Ok p => if bool_decide (l = procfd_path fd) then Some (FdLink p) else None | Err _ => None end
      | _ => fun _ => None
      end r
  end.
(** The path at which the descriptor is open after [t]. *)
Fixpoint fd_path (t : trace) (fd : Z) : option string :=
  match t with
  | [] => None
  | ev :: t => match about_fd fd ev with Some (FdOpen p) => Some p | Some FdGone => None | _ => fd_path t fd end
  end.
(** The path of an open descriptor whose link was read since it was opened, and was that path. *)
Fixpoint verified (t : trace) (fd : Z) : option string :=
  match t with
  | [] => None
  | ev :: t =>
      match about_fd fd ev with
      | Some (FdLink p) => if bool_decide (fd_path t fd = Some p) then Some p else None
      | Some _ => None
      | None => verified t fd
      end
  end.
(** A target is a verified descriptor of the path that [u] resolved to in [root]. *)
Definition inside_at (root u : string) (t : trace) (target : string) : Prop :=
  exists fd path, target = procfd_path fd /\ verified t fd = Some path /\ Event (unix.SecureJoin root u) (Ok path) ∈ t.
Definition inside (root : string) (t : trace) (target : string) : Prop := exists u, inside_at root u t target.
(** A temporary directory of the process. *)
Definition made (t : trace) (dir : string) : Prop := exists d p, Event (unix.MkdirTemp d p) (Ok dir) ∈ t.
Definition host_tmp (t : trace) (target : string) : Prop :=
  made t target \/ exists dir, made t dir /\ inside_at "/" (stripRoot "/" dir) t target.

(** The rule: mounts go to verified descriptors in the rootfs, or to temporary directories of the process, and only those
    are unmounted. *)
Definition confined (root : string) (t : trace) (ev : event) : Prop :=
  match ev_call ev with
  | unix.Mount _ target _ _ _ => inside root t target \/ host_tmp t target
  | unix.MountSetattr target _ => inside root t target
  | unix.Unmount target _ => host_tmp t target
  | _ => True
  end.

Definition quiet (ev : event) : Prop := forall fd, about_fd fd ev = None.
Lemma inside_quiet (root u target : string) (t : trace) (ev : event) :
  quiet ev -> inside_at root u t target -> inside_at root u (ev :: t) target.
Proof.
  intros Hq (fd & path & -> & Hv & Hj). exists fd, path. split; [done|]. cbn [verified]. rewrite (Hq fd). split; [done|]. by right.
Qed.
Lemma made_extends (P : trace -> event -> Prop) (t t' : trace) (dir : string) : extends P t t' -> made t dir -> made t' dir.
Proof. intros He (d & p & Hin). exists d, p. by eapply extends_in. Qed.
Lemma procfd_not_empty (fd : Z) : procfd_path fd <> "".
Proof. unfold procfd_path. by rewrite app_cons. Qed.
Lemma inside_not_empty (root u target : string) (t : trace) : inside_at root u t target -> target <> "".
Proof. intros (fd & path & -> & _). apply procfd_not_empty. Qed.

Definition mounting {A} (c : unix.call A) : bool :=
  match c with unix.Mount _ _ _ _ _ | unix.MountSetattr _ _ | unix.Unmount _ _ => true | _ => false end.
(** A rule that only speaks of mounts. *)
Class Passive (P : trace -> event -> Prop) : Prop := passive : forall t A (c : unix.call A) r, mounting c = false -> P t (Event c r).
#[global] Instance confined_passive (root : string) : Passive (confined root).
Proof. intros t A c r Hc. by destruct c. Qed.

Section confined.
Context {K : Type} `{Kernel K} `{Libraries}.

Lemma passive_sys (P : trace -> event -> Prop) `{!Passive P} {A} (c : unix.call A) : mounting c = false -> follows P (sys c : IO K A).
Proof. intros Hc. apply follows_sys. intros t r. by apply passive. Qed.

Lemma WithProcfd_wp (P : trace -> event -> Prop) `{!Passive P} (root u : string) (fn : string -> IO K unit) (t : trace) :
  (forall t' target, extends P t t' -> inside_at root (stripRoot root u) t' target ->
     wp (fn target) (fun _ t'' => extends P t' t'') t') ->
  wp (WithProcfd root u fn) (fun _ t' => extends P t t') t.
Proof.
  intros Hfn. unfold WithProcfd. apply wp_bind, wp_wrapping, wp_sys. intros [path|e]; cbn [wrap_err]; [|by apply extends_one, passive].
  apply wp_bind, wp_wrapping, wp_sys. set (t1 := Event (unix.SecureJoin _ _) _ :: t).
  assert (extends P t t1) as H1 by (by apply extends_one, passive).
  intros [f|e]; cbn [wrap_err]; [|by constructor; [|apply passive]]. set (t2 := Event (unix.Open _ _) _ :: t1).
  assert (extends P t t2) as H2 by (by constructor; [|apply passive]).
  apply wp_defer. eapply wp_mono with (P := fun _ t' => extends P t t').
  - apply wp_bind, wp_wrapping, wp_sys. intros r. set (t3 := Event (unix.Readlink _) r :: t2).
    assert (extends P t t3) as H3 by (by constructor; [|apply passive]). destruct r as [real|e]; cbn [wrap_err]; [|done].
    case_bool_decide as E; [subst real|by apply wp_throw]. apply extends_wp; [done|]. apply Hfn; [done|].
    exists f, path. split; [done|]. split.
    + cbn. rewrite bool_decide_eq_true_2 by done. rewrite Z.eqb_refl. by rewrite bool_decide_eq_true_2.
    + right. right. by left.
  - intros r t' Ht'. apply wp_sys. intros r'. constructor; [done|]. by apply passive.
Qed.

(** A mount on a verified descriptor keeps it verified. *)
Lemma mount_inside (P : trace -> event -> Prop) (root u source orig target fstype data : string) (flags : Z) (t : trace) :
  (forall r, P t (Event (unix.Mount source target fstype flags data) r)) -> inside_at root u t target ->
  wp (mount source orig target fstype flags data : IO K unit) (fun _ t' => extends P t t' /\ inside_at root u t' target) t.
Proof.
  intros HP Hi. unfold mount. rewrite bool_decide_eq_false_2 by (by eapply inside_not_empty).
  apply wp_wrapping, wp_sys. intros r. split; [by apply extends_one|]. by apply inside_quiet.
Qed.
(** The rule allows every mount on descriptors of [u], after [t]. *)
Definition mounts_at (P : trace -> event -> Prop) (root u : string) (t : trace) : Prop :=
  forall t' source target fstype flags data r, extends P t t' -> inside_at root u t' target ->
    P t' (Event (unix.Mount source target fstype flags data) r).
Lemma mounts_at_confined (root u : string) (t : trace) : mounts_at (confined root) root u t.
Proof. intros t' source target fstype flags data r _ Hi. left. by exists u. Qed.
Lemma mounts_at_extends (P : trace -> event -> Prop) (root u : string) (t t' : trace) :
  extends P t t' -> mounts_at P root u t -> mounts_at P root u t'.
Proof. intros He Hm t'' source target fstype flags data r He'. apply Hm. by eapply extends_trans. Qed.

Lemma mount_one_inside (P : trace -> event -> Prop) (root u source orig target fstype data : string) (flags : Z) (t : trace) :
  mounts_at P root u t -> inside_at root u t target ->
  wp (mount source orig target fstype flags data : IO K unit) (fun _ t' => extends P t t') t.
Proof.
  intros Hm Hi. eapply wp_mono; [apply (mount_inside P root u); [|done]|by intros r t' [? _]].
  intros r. apply Hm; [constructor|done].
Qed.

Lemma mountPropagate_wp (P : trace -> event -> Prop) `{!Passive P} (m : configs.Mount) (rootfs mountLabel : string) (mountFd : option Z) (t : trace) :
  mounts_at P rootfs (stripRoot rootfs (configs.Destination m)) t ->
  wp (mountPropagate m rootfs mountLabel mountFd : IO K unit) (fun _ t' => extends P t t') t.
Proof.
  intros Hm. unfold mountPropagate. apply wp_bind. eapply wp_mono.
  { apply (WithProcfd_wp P). intros t' target He Hi. eapply mount_one_inside; [by eapply mounts_at_extends|done]. }
  intros [[]|e] t1 H1; [|done]. apply extends_wp; [done|]. apply wp_wrapping.
  apply (WithProcfd_wp P). intros t2 target H2 Hi.
  apply (wp_for_each _ _ (fun _ t' => extends P t2 t' /\ inside_at rootfs (stripRoot rootfs (configs.Destination m)) t' target));
    [split; [constructor|done]|by intros t' [? _]|]. intros dn a rest t3 _ [H3 Hi3].
  eapply wp_mono; [apply (mount_inside P rootfs (stripRoot rootfs (configs.Destination m))); [|done]|].
  - intros r. apply Hm; [|done]. eapply extends_trans; [exact H1|]. by eapply extends_trans.
  - intros [|e] t' [H4 Hi4]; [split; [by eapply extends_trans|done]|by eapply extends_trans].
Qed.

Lemma propagate_confined (m : configs.Mount) (rootfs mountLabel : string) (mountFd : option Z) :
  follows (confined rootfs) (mountPropagate m rootfs mountLabel mountFd : IO K unit).
Proof. intros t. apply mountPropagate_wp; [apply _|]. apply mounts_at_confined. Qed.
Lemma procfd_confined (rootfs u : string) (fn : string -> IO K unit) :
  (forall t target, inside_at rootfs (stripRoot rootfs u) t target -> wp (fn target) (fun _ t' => extends (confined rootfs) t t') t) ->
  follows (confined rootfs) (WithProcfd rootfs u fn).
Proof. intros Hfn t. apply WithProcfd_wp; [apply _|]. intros t' target _. apply Hfn. Qed.
Lemma setRecAttr_confined (m : configs.Mount) (rootfs : string) : follows (confined rootfs) (setRecAttr m rootfs : IO K unit).
Proof.
  unfold setRecAttr. destruct (configs.RecAttr m) as [attr|]; [|apply follows_ret]. apply procfd_confined.
  intros t target Hi. apply wp_sys. intros r. apply extends_one. by exists (stripRoot rootfs (configs.Destination m)).
Qed.
Lemma mount_confined (rootfs u source orig target fstype data : string) (flags : Z) (t : trace) :
  inside_at rootfs u t target ->
  wp (mount source orig target fstype flags data : IO K unit) (fun _ t' => extends (confined rootfs) t t' /\ inside_at rootfs u t' target) t.
Proof. intros Hi. apply mount_inside; [|done]. intros r. left. by exists u. Qed.
(** Two tries of a mount on the same descriptor, with a call in between that is no mount. *)
Lemma remount_confined (m : configs.Mount) (rootfs : string) (mountFd : option Z) :
  follows (confined rootfs) (remount m rootfs mountFd : IO K unit).
Proof.
  unfold remount. apply procfd_confined. intros t target Hi. apply wp_bind, wp_try. eapply wp_mono; [by apply mount_confined|].
  intros [[]|e] t1 [H1 Hi1]; [by apply wp_ret|]. apply wp_bind, wp_wrapping, wp_sys. intros r.
  assert (extends (confined rootfs) t (Event (unix.Statfs (source_of (configs.Source m) mountFd)) r :: t1)) as H2 by by constructor.
  destruct r as [s|e']; cbn [wrap_err]; [|done]. destruct (negb _); [by apply wp_throw|]. apply extends_wp; [done|].
  eapply wp_mono; [eapply mount_confined, inside_quiet; [done|exact Hi1]|]. by intros r' t' [? _].
Qed.
Lemma prepareTmp_wp (rootfs top : string) (t : trace) :
  wp (prepareTmp top : IO K string)
    (fun r t' => extends (confined rootfs) t t' /\ match r with Ok d => made t' d | Err _ => True end) t.
Proof.
  unfold prepareTmp. apply wp_bind, wp_sys. intros r. assert (extends (confined rootfs) t (Event (unix.MkdirTemp top "runctop") r :: t)) as H1
    by by apply extends_one.
  destruct r as [d|e]; [|done]. set (t1 := _ :: t) in *. assert (made t1 d) as Hd by (exists top, "runctop"; by left).
  assert (forall t' source fstype flags data, extends (confined rootfs) t t' -> made t' d ->
    wp (mount source d "" fstype flags data : IO K unit) (fun _ t'' => extends (confined rootfs) t t'' /\ made t'' d) t') as Hmount.
  { intros t' source fstype flags data He Hm. unfold mount. cbn [bool_decide decide_rel]. rewrite bool_decide_eq_true_2 by done.
    apply wp_wrapping, wp_sys. intros r. split; [constructor; [done|]; right; by left|].
    eapply (made_extends (confined rootfs)); [apply extends_one; right; by left|done]. }
  apply wp_bind. eapply wp_mono; [by apply Hmount|]. intros [[]|e] t2 [H2 Hd2]; [|done].
  apply wp_bind. eapply wp_mono; [by apply Hmount|]. intros [[]|e] t3 [H3 Hd3]; [|done]. by apply wp_ret.
Qed.
Lemma cleanupTmp_wp (rootfs d : string) (t t' : trace) :
  extends (confined rootfs) t t' -> made t' d ->
  wp (cleanupTmp d : IO K unit) (fun _ t'' => extends (confined rootfs) t t'') t'.
Proof.
  intros He Hd. unfold cleanupTmp. apply wp_bind, wp_ignore, wp_sys. intros r.
  apply wp_ignore, wp_sys. intros r'. constructor; [|done]. constructor; [done|]. by left.
Qed.

Lemma copy_move_confined (m : configs.Mount) (rootfs tmpDir : string) :
  follows (confined rootfs) (WithProcfd rootfs (configs.Destination m) (fun procfd =>
    _ ← wrapping "tmpcopyup: failed to copy" (sys (unix.CopyDirectory (procfd +:+ "/") tmpDir));
    wrapping "tmpcopyup: failed to move mount" (mount tmpDir (configs.Destination m) procfd "" MS_MOVE "")) : IO K unit).
Proof.
  apply procfd_confined. intros t target Hi. apply wp_bind, wp_wrapping, wp_sys. intros r.
  assert (extends (confined rootfs) t (Event (unix.CopyDirectory (target +:+ "/") tmpDir) r :: t)) as H1 by by apply extends_one.
  destruct r as [u|e]; cbn [wrap_err]; [|done]. apply wp_wrapping. eapply extends_wp in H1; [exact H1|].
  eapply wp_mono; [eapply mount_confined, inside_quiet; [done|exact Hi]|]. by intros r' t' [? _].
Qed.
Lemma copyup_confined (m : configs.Mount) (rootfs mountLabel : string) :
  follows (confined rootfs) (doTmpfsCopyUp m rootfs mountLabel : IO K unit).
Proof.
  intros t. unfold doTmpfsCopyUp. apply wp_bind, wp_wrapping. eapply wp_mono; [apply (prepareTmp_wp rootfs)|].
  intros [d|e] t1 [H1 Hd]; cbn [wrap_err]; [|done]. apply wp_defer.
  eapply wp_mono with (P := fun _ t' => extends (confined rootfs) t1 t').
  2: { intros r t' Ht'. apply cleanupTmp_wp; [by eapply extends_trans|by eapply made_extends]. }
  apply wp_bind, wp_wrapping, wp_sys. intros r.
  assert (extends (confined rootfs) t1 (Event (unix.MkdirTemp d "runctmpdir") r :: t1)) as H2 by by apply extends_one.
  destruct r as [tmp|e]; cbn [wrap_err]; [|done]. set (t2 := _ :: t1) in *. assert (made t2 tmp) as Ht by (exists d, "runctmpdir"; by left).
  apply wp_defer. eapply wp_mono with (P := fun _ t' => extends (confined rootfs) t1 t').
  2: { intros r t' Ht'. apply wp_sys. intros r'. by constructor. }
  apply wp_bind. eapply wp_mono; [apply (mountPropagate_wp (confined rootfs))|].
  { intros t' source target fstype flags data r He Hi. right. right. exists tmp. split; [by eapply made_extends|done]. }
  intros [[]|e] t3 H3; [|by eapply extends_trans]. apply wp_bind, wp_try. eapply wp_mono; [apply copy_move_confined|].
  assert (extends (confined rootfs) t1 t3) as H13 by (by eapply extends_trans).
  intros [[]|e] t4 H4; [apply wp_ret; by eapply extends_trans|]. apply wp_bind, wp_ignore, wp_wrapping, wp_sys. intros r.
  apply wp_throw. constructor; [by eapply extends_trans|]. left. eapply made_extends; [|exact Ht]. by eapply extends_trans.
Qed.

#[local] Hint Resolve propagate_confined setRecAttr_confined remount_confined copyup_confined : follows.
Lemma checkProcMount_confined (rootfs dest source : string) (P : trace -> event -> Prop) `{!Passive P} :
  follows P (checkProcMount rootfs dest source : IO K unit).
Proof. unfold checkProcMount, isProc. follow_with ltac:(by apply passive). Qed.
Lemma prepareBind_confined (m : configs.Mount) (rootfs : string) (mountFd : option Z) (P : trace -> event -> Prop) `{!Passive P} :
  follows P (prepareBindMount m rootfs mountFd : IO K unit).
Proof.
  unfold prepareBindMount, createIfNotExists. pose proof checkProcMount_confined. follow_with ltac:(by apply passive).
Qed.
#[local] Hint Resolve checkProcMount_confined prepareBind_confined : follows.
Lemma mount_device_confined (m : configs.Mount) (c : mountConfig) : follows (confined (root c)) (mount_device m c : IO K unit).
Proof.
  unfold mount_device, mount_proc, mount_mqueue, mount_tmpfs, mount_bind, mount_other. solve_follows.
  all: first [apply prepareBind_confined | apply checkProcMount_confined]; apply _.
Qed.
#[local] Hint Resolve mount_device_confined : follows.
Lemma mount_hierarchy_confined (m b : configs.Mount) (c : mountConfig) : follows (confined (root c)) (mount_hierarchy m c b : IO K unit).
Proof.
  unfold mount_hierarchy. cbv zeta. apply follows_bind; [solve_follows|]. intros _. apply procfd_confined. intros t target Hi.
  destruct (if bool_decide _ then _ else _) as [source data]. eapply wp_mono; [by apply mount_confined|]. by intros r' t' [? _].
Qed.
Lemma mountCgroupV2_confined (m : configs.Mount) (c : mountConfig) : follows (confined (root c)) (mountCgroupV2 m c : IO K unit).
Proof.
  unfold mountCgroupV2. apply follows_bind; [solve_follows|]. intros dest. apply follows_bind; [solve_follows|]. intros _.
  apply procfd_confined. intros t target Hi. apply wp_bind, wp_try. eapply wp_mono; [by apply mount_confined|].
  intros [[]|e] t1 [H1 Hi1]; [by apply wp_ret|]. destruct (_ || _); [|by apply wp_throw]. apply wp_bind, wp_try.
  eapply wp_mono; [by apply mount_confined|]. intros r t2 [H2 _]. assert (extends (confined (root c)) t t2) as H12 by (by eapply extends_trans).
  destruct r as [[]|e']; [by apply wp_ret|]. destruct (_ && _); [by apply wp_ret|by apply wp_throw].
Qed.
Lemma mountCgroupV1_confined (m : configs.Mount) (c : mountConfig) : follows (confined (root c)) (mountCgroupV1 m c : IO K unit).
Proof. unfold mountCgroupV1, getCgroupMounts, link_exist. pose proof mount_hierarchy_confined. solve_follows. Qed.

(** C23. Mounts stay inside the container: whatever the configuration names and whatever the files on the way are, every mount
    call [mountToRootfs] makes goes to a descriptor that is open, that was opened at the path to which the library resolved the
    destination inside the rootfs, and whose link was read and found to be that path.  The exception is a tmpfs that copies
    up its contents, which is prepared in a temporary directory of the process. *)
Theorem mounts_confined (m : configs.Mount) (c : mountConfig) (w : world K) :
  extends (confined (root c)) (calls w) (calls (mountToRootfs m c w).1).
Proof.
  apply follows_elim. unfold mountToRootfs. pose proof mountCgroupV1_confined. pose proof mountCgroupV2_confined. solve_follows.
Qed.
End confined.

(** ** The process ends up in the new root *)

(** Where a directory is: the root at the start, the rootfs, or anywhere else. *)
Inductive place := OldRoot | NewRoot | Elsewhere.
#[global] Instance place_eq_dec : EqDecision place.
Proof. solve_decision. Defined.
(** The root and the working directory of the process, whether the old root can still be reached, and its open directories. *)
Record jail_state := mkJail { at_root : place; at_cwd : place; old_reachable : bool; dirs : gmap Z place }.
Definition start : jail_state := mkJail OldRoot Elsewhere true ∅.

Section jail.
Context (rootfs : string).

Definition place_of (s : jail_state) (path : string) : place :=
  if bool_decide (path = "/") then at_root s
  else if bool_decide (path = rootfs) && bool_decide (at_root s = OldRoot) then NewRoot else Elsewhere.
(** What the calls do, as their manual pages say; a call that fails does nothing. *)
Definition jail_step (ev : event) (s : jail_state) : jail_state :=
  match ev with
  | Event c r =>
      match c in unix.call A return result A -> jail_state with
      | unix.Open p unix.O_DIRECTORY => fun r =>
          match r with Ok fd => mkJail (at_root s) (at_cwd s) (old_reachable s) (<[fd:=place_of s p]> (dirs s)) | Err _ => s end
      | unix.Close fd => fun _ => mkJail (at_root s) (at_cwd s) (old_reachable s) (delete fd (dirs s))
      | unix.Chdir p => fun r => match r with Ok _ => mkJail (at_root s) (place_of s p) (old_reachable s) (dirs s) | Err _ => s end
      | unix.Fchdir fd => fun r =>
          match r with Ok _ => mkJail (at_root s) (default Elsewhere (dirs s !! fd)) (old_reachable s) (dirs s) | Err _ => s end
      | unix.PivotRoot new old => fun r =>
          match r with
          | Ok _ => mkJail (if bool_decide (new = ".") && bool_decide (old = ".") then at_cwd s else Elsewhere) (at_cwd s) (old_reachable s) (dirs s)
          | Err _ => s
          end
      | unix.Chroot p => fun r =>
          match r with Ok _ => mkJail (if bool_decide (p = ".") then at_cwd s else Elsewhere) (at_cwd s) (old_reachable s) (dirs s) | Err _ => s end
      | unix.Unmount p _ => fun r =>
          match r with
          | Ok _ => if bool_decide (p = ".") && bool_decide (at_cwd s = OldRoot) && negb (bool_decide (at_root s = OldRoot))
                    then mkJail (at_root s) (at_cwd s) false (dirs s) else s
          | Err _ => s
          end
      | _ => fun _ => s
      end r
  end.
Definition jail_of (t : trace) : jail_state := foldr jail_step start t.
Definition jail_view (t : trace) : place * place * bool := (at_root (jail_of t), at_cwd (jail_of t), old_reachable (jail_of t)).

Definition moves {A} (c : unix.call A) : bool :=
  match c with unix.Chdir _ | unix.Fchdir _ | unix.PivotRoot _ _ | unix.Chroot _ => true | _ => false end.
Definition stays (_ : trace) (ev : event) : Prop := moves (ev_call ev) = false.
Definition is_unmount {A} (c : unix.call A) : bool := match c with unix.Unmount _ _ => true | _ => false end.
Definition still (_ : trace) (ev : event) : Prop := moves (ev_call ev) = false /\ is_unmount (ev_call ev) = false.

Lemma stays_view (t t' : trace) : extends stays t t' -> at_root (jail_of t) = OldRoot -> jail_view t' = jail_view t.
Proof.
  intros He Hr. induction He as [|[A c r] t' _ IH Hev]; [done|]. rewrite <- IH. unfold stays in Hev. cbn in Hev.
  assert (at_root (jail_of t') = OldRoot) as Hr' by (unfold jail_view in IH; congruence).
  unfold jail_view, jail_of. cbn [foldr]. fold (jail_of t'). destruct c; try done.
  - unfold jail_step. destruct r; [|done]. rewrite Hr', (bool_decide_eq_true_2 (OldRoot = OldRoot)) by done.
    cbn [negb]. by rewrite andb_false_r, Hr'.
  - by destruct m, r.
Qed.
Lemma still_view (t t' : trace) : extends still t t' -> jail_view t' = jail_view t.
Proof.
  intros He. induction He as [|[A c r] t' _ IH [H1 H2]]; [done|]. rewrite <- IH. cbn in H1, H2.
  unfold jail_view, jail_of. cbn [foldr]. fold (jail_of t'). destruct c; try done; cbn. by destruct m, r.
Qed.

(** The steps, on states that are written out. *)
Lemma jail_cons (ev : event) (t : trace) : jail_of (ev :: t) = jail_step ev (jail_of t).
Proof. done. Qed.
Lemma step_open (path : string) (fd : Z) (ro cw : place) (old : bool) (ds : gmap Z place) :
  jail_step (Event (unix.Open path unix.O_DIRECTORY) (Ok fd)) (mkJail ro cw old ds) =
    mkJail ro cw old (<[fd:=place_of (mkJail ro cw old ds) path]> ds).
Proof. done. Qed.
Lemma step_close (fd : Z) (r : result unit) (ro cw : place) (old : bool) (ds : gmap Z place) :
  jail_step (Event (unix.Close fd) r) (mkJail ro cw old ds) = mkJail ro cw old (delete fd ds).
Proof. done. Qed.
Lemma step_fchdir (fd : Z) (ro cw : place) (old : bool) (ds : gmap Z place) :
  jail_step (Event (unix.Fchdir fd) (Ok tt)) (mkJail ro cw old ds) = mkJail ro (default Elsewhere (ds !! fd)) old ds.
Proof. done. Qed.
Lemma step_chdir (path : string) (ro cw : place) (old : bool) (ds : gmap Z place) :
  jail_step (Event (unix.Chdir path) (Ok tt)) (mkJail ro cw old ds) = mkJail ro (place_of (mkJail ro cw old ds) path) old ds.
Proof. done. Qed.
Lemma step_pivot (ro cw : place) (old : bool) (ds : gmap Z place) :
  jail_step (Event (unix.PivotRoot "." ".") (Ok tt)) (mkJail ro cw old ds) = mkJail cw cw old ds.
Proof. done. Qed.
Lemma step_mount (s d f da : string) (fl : Z) (r : result unit) (st : jail_state) : jail_step (Event (unix.Mount s d f fl da) r) st = st.
Proof. done. Qed.
Lemma step_detach (fl : Z) (old : bool) (ds : gmap Z place) :
  jail_step (Event (unix.Unmount "." fl) (Ok tt)) (mkJail NewRoot OldRoot old ds) = mkJail NewRoot OldRoot false ds.
Proof. done. Qed.
Lemma place_rootfs (cw : place) (old : bool) (ds : gmap Z place) : rootfs <> "/" -> place_of (mkJail OldRoot cw old ds) rootfs = NewRoot.
Proof. intros Hne. unfold place_of. rewrite bool_decide_eq_false_2 by done. by rewrite bool_decide_eq_true_2. Qed.
Lemma place_root (ro cw : place) (old : bool) (ds : gmap Z place) : place_of (mkJail ro cw old ds) "/" = ro.
Proof. done. Qed.
Lemma jail_view_inv (t : trace) (ro cw : place) (old : bool) : jail_view t = (ro, cw, old) -> exists ds, jail_of t = mkJail ro cw old ds.
Proof. unfold jail_view. destruct (jail_of t) as [r c o ds]. intros [= -> -> ->]. by exists ds. Qed.
End jail.

Section jailed.
Context {K : Type} `{Kernel K} `{Libraries}.

Ltac stay := follow_with ltac:(exact eq_refl).
Lemma procfd_stays (root u : string) (fn : string -> IO K unit) : (forall x, follows stays (fn x)) -> follows stays (WithProcfd root u fn).
Proof. intros Hfn. unfold WithProcfd. stay; apply Hfn. Qed.
Lemma mount_stays (source orig target fstype data : string) (flags : Z) : follows stays (mount source orig target fstype flags data : IO K unit).
Proof. unfold mount. stay. Qed.
#[local] Hint Resolve mount_stays : follows.
Ltac stay ::= follow_with ltac:(exact eq_refl); try (apply procfd_stays; follow_with ltac:(exact eq_refl)).
Lemma propagate_stays (m : configs.Mount) (rootfs mountLabel : string) (mountFd : option Z) :
  follows stays (mountPropagate m rootfs mountLabel mountFd : IO K unit).
Proof. unfold mountPropagate. stay. Qed.
Lemma remount_stays (m : configs.Mount) (rootfs : string) (mountFd : option Z) : follows stays (remount m rootfs mountFd : IO K unit).
Proof. unfold remount. stay. Qed.
Lemma setRecAttr_stays (m : configs.Mount) (rootfs : string) : follows stays (setRecAttr m rootfs : IO K unit).
Proof. unfold setRecAttr. destruct (configs.RecAttr m); stay. Qed.
#[local] Hint Resolve propagate_stays remount_stays setRecAttr_stays : follows.
Lemma mount_device_stays (m : configs.Mount) (c : mountConfig) : follows stays (mount_device m c : IO K unit).
Proof.
  unfold mount_device, mount_proc, mount_mqueue, mount_tmpfs, mount_bind, mount_other, doTmpfsCopyUp, prepareTmp, cleanupTmp, unmount,
    prepareBindMount, createIfNotExists, checkProcMount, isProc. stay.
Qed.
#[local] Hint Resolve mount_device_stays : follows.
Lemma mountToRootfs_stays (m : configs.Mount) (c : mountConfig) : follows stays (mountToRootfs m c : IO K unit).
Proof. unfold mountToRootfs, mountCgroupV1, mountCgroupV2, mount_hierarchy, getCgroupMounts, link_exist. cbv zeta. stay. Qed.
#[local] Hint Resolve mountToRootfs_stays : follows.
Lemma setup_dev_stays (c : initConfig) : follows stays (setup_dev c : IO K unit).
Proof.
  unfold setup_dev, createDevices, createDeviceNode, bindMountDeviceNode, mknodDevice, runningInUserNS, setupPtmx, setupDevSymlinks, link_exist.
  cbv zeta. stay.
Qed.
Lemma prepareRoot_stays (p : Z) (rootfs : string) : follows stays (prepareRoot p rootfs : IO K unit).
Proof. unfold prepareRoot, rootfsParentMountPrivate, getParentMount. cbv zeta. stay. Qed.
Lemma mount_one_stays (c : mountConfig) (mf : configs.Mount * option Z) : follows stays (mount_one c mf : IO K unit).
Proof. unfold mount_one, mountCmd. cbv zeta. stay. Qed.
Lemma sync_stays : follows stays (syncParentHooks : IO K unit).
Proof. unfold syncParentHooks, writeSync, writeSyncWithFd, readSync. stay. Qed.
Lemma hooks_stays (name : string) (hooks : configs.Hooks) : follows stays (RunHooks name hooks : IO K unit).
Proof. unfold RunHooks. stay. Qed.
Lemma reopen_still : follows still (reOpenDevNull : IO K unit).
Proof. unfold reOpenDevNull, reopen_fd. follow_with ltac:(by split). Qed.

(** Calls that were made one after the other. *)
Ltac inv_sys :=
  repeat match goal with
  | H : sys _ _ = (_, _) |- _ => apply sys_ok in H as (? & ? & ->)
  | H : mount _ _ _ _ _ _ _ = (_, Ok _) |- _ => unfold mount in H; cbn [bool_decide decide_rel] in H
  | H : unmount _ _ _ = (_, Ok _) |- _ => unfold unmount in H
  | H : defer _ _ _ = (_, Ok _) |- _ => apply defer_ok in H as (? & ? & ? & ?)
  | _ => progress inv_act
  end.

Definition in_old_root (rootfs : string) (t : trace) (cwd : place) : Prop := exists old, jail_view rootfs t = (OldRoot, cwd, old).

(** A descriptor that is open is not given out again. *)
Definition fresh_fds (rootfs : string) : Prop := forall m k k1 k2 a b,
  answer m (unix.Open "/" unix.O_DIRECTORY) k = (k1, Ok a) -> answer m (unix.Open rootfs unix.O_DIRECTORY) k1 = (k2, Ok b) -> a <> b.

Lemma pivot_jails (rootfs : string) (w w' : world K) (cwd : place) :
  fresh_fds rootfs -> rootfs <> "/" -> in_old_root rootfs (calls w) cwd -> pivotRoot rootfs w = (w', Ok tt) ->
  jail_view rootfs (calls w') = (NewRoot, NewRoot, false).
Proof.
  intros Hfresh Hne [old Hv] Hp. unfold pivotRoot in Hp. inv_sys. cbn [kernel mask calls] in *.
  match goal with
  | H : answer _ (unix.Open "/" _) _ = (_, Ok ?a), H' : answer _ (unix.Open rootfs _) _ = (_, Ok ?b) |- _ =>
      assert (a <> b) as Hx by (by eapply Hfresh)
  end. apply jail_view_inv in Hv as [ds Hs]. unfold jail_view.
  rewrite !jail_cons, Hs, step_open, place_root, step_open, place_rootfs, step_fchdir, lookup_insert_eq by done. cbn [default].
  rewrite step_pivot, step_fchdir, lookup_insert_ne, lookup_insert_eq by done. cbn [default].
  by rewrite step_mount, step_detach, step_chdir, place_root, !step_close.
Qed.

Lemma chroot_jails (rootfs : string) (w w' : world K) :
  in_old_root rootfs (calls w) NewRoot -> chroot w = (w', Ok tt) -> exists old, jail_view rootfs (calls w') = (NewRoot, NewRoot, old).
Proof.
  intros [old Hv] Hp. unfold chroot in Hp. inv_sys. exists old. cbn [calls]. unfold jail_view, jail_of in *. cbn [foldr].
  fold (jail_of rootfs (calls w)) in *. destruct (jail_of rootfs (calls w)) as [ro cw ol ds].
  cbn [at_root at_cwd old_reachable] in Hv. by injection Hv as -> -> ->.
Qed.

Lemma stays_old (rootfs : string) {A} (m : IO K A) (w w' : world K) (r : result A) (cwd : place) :
  follows stays m -> m w = (w', r) -> in_old_root rootfs (calls w) cwd -> in_old_root rootfs (calls w') cwd.
Proof.
  intros Hm E [old Hv]. exists old. rewrite <- Hv. pose proof (follows_elim _ m w Hm) as He. rewrite E in He.
  apply stays_view; [done|]. unfold jail_view in Hv. congruence.
Qed.
Lemma hide_stays (p : string) : follows stays (hide_mount p : IO K unit).
Proof. unfold hide_mount, unmount. stay. Qed.
Lemma jail_jails (config : configs.Config) (w w' : world K) :
  let rootfs := rootfs_of config in
  fresh_fds rootfs -> rootfs <> "/" -> in_old_root rootfs (calls w) NewRoot -> jail config w = (w', Ok tt) ->
  exists old, jail_view rootfs (calls w') = (NewRoot, NewRoot, old) /\
    (configs.NoPivotRoot (configs.base config) = false -> Contains (namespaces_of config) NEWNS = true -> old = false).
Proof.
  cbv zeta. intros Hf Hne Hv. unfold jail. destruct (configs.NoPivotRoot _) eqn:En; [|destruct (Contains _ _) eqn:Ec].
  - unfold msMoveRoot. intros (w1 & all & H1 & Hk)%act_bind_ok. apply act_bind_ok in Hk as (w2 & [] & H2 & Hk).
    apply act_bind_ok in Hk as (w3 & [] & H3 & H4). apply (stays_old (rootfs_of config) _ _ _ _ NewRoot) in H1; [|stay|done].
    apply (stays_old (rootfs_of config) _ _ _ _ NewRoot) in H2; [|apply follows_for_each; intros; apply hide_stays|done].
    apply (stays_old (rootfs_of config) _ _ _ _ NewRoot) in H3; [|apply mount_stays|done].
    destruct (chroot_jails _ _ _ H3 H4) as [old Ho]. by exists old.
  - intros Hp. exists false. split; [by eapply pivot_jails|done].
  - intros Hc. destruct (chroot_jails _ _ _ Hv Hc) as [old Ho]. by exists old.
Qed.

Lemma chdir_rootfs (rootfs : string) (w w' : world K) (cwd : place) :
  rootfs <> "/" -> in_old_root rootfs (calls w) cwd -> (wrapping "chdir" (sys (unix.Chdir rootfs)) : IO K unit) w = (w', Ok tt) ->
  in_old_root rootfs (calls w') NewRoot.
Proof.
  intros Hne [old Hv] Hc. inv_sys. exists old. unfold jail_view, jail_of in *. cbn [calls foldr]. fold (jail_of rootfs (calls w)) in *.
  destruct (jail_of rootfs (calls w)) as [ro cw ol ds]. cbn [at_root at_cwd old_reachable] in Hv. injection Hv as -> -> ->.
  unfold jail_step, place_of. cbn [at_root at_cwd old_reachable]. rewrite bool_decide_eq_false_2 by done.
  by rewrite bool_decide_eq_true_2.
Qed.
Lemma still_same (rootfs : string) {A} (m : IO K A) (w w' : world K) (r : result A) :
  follows still m -> m w = (w', r) -> jail_view rootfs (calls w') = jail_view rootfs (calls w).
Proof. intros Hm E. pose proof (follows_elim _ m w Hm) as He. rewrite E in He. by apply still_view. Qed.

(** C24. A process whose rootfs was prepared is locked into it: when [prepareRootfs] succeeds for a rootfs other than "/", whatever
    mounts, devices, hooks and premount commands the configuration asks for, the root and the working directory of the process
    are the rootfs; and with a mount namespace of its own and NoPivotRoot off, the old root was detached as well.  (With
    NoPivotRoot the rootfs is moved over the old root and entered by chroot, and without a mount namespace it is entered by
    chroot alone: nothing is claimed of the old root then.)  Of the kernel it is only asked that the descriptors of the old and
    the new root, both open, have different numbers ([fresh_fds]). *)
Theorem process_jailed (c : initConfig) (fds : option (list Z)) (w w' : world K) :
  let rootfs := rootfs_of (Config c) in
  fresh_fds rootfs -> rootfs <> "/" -> at_root (jail_of rootfs (calls w)) = OldRoot ->
  prepareRootfs c fds w = (w', Ok tt) ->
  exists old, jail_view rootfs (calls w') = (NewRoot, NewRoot, old) /\
    (configs.NoPivotRoot (configs.base (Config c)) = false -> Contains (namespaces_of (Config c)) NEWNS = true -> old = false).
Proof.
  cbv zeta. set (rootfs := rootfs_of (Config c)). intros Hf Hne Hr Hp.
  assert (in_old_root rootfs (calls w) (at_cwd (jail_of rootfs (calls w)))) as Hv by (eexists; unfold jail_view; by rewrite Hr).
  unfold prepareRootfs in Hp. fold rootfs in Hp.
  apply act_bind_ok in Hp as (w1 & [] & H1 & Hp). eapply (stays_old rootfs) in H1; [|apply follows_wrapping, prepareRoot_stays|exact Hv].
  apply act_bind_ok in Hp as (w2 & [] & [-> _]%lift_ok & Hp).
  apply act_bind_ok in Hp as (w3 & [] & H3 & Hp). eapply (stays_old rootfs) in H3; [|apply follows_for_each; intros; apply mount_one_stays|exact H1].
  apply act_bind_ok in Hp as (w4 & [] & H4 & Hp).
  eapply (stays_old rootfs) in H4; [|destruct (needsSetupDev _); [apply setup_dev_stays|apply follows_ret]|exact H3].
  apply act_bind_ok in Hp as (w5 & [] & H5 & Hp). eapply (stays_old rootfs) in H5; [|apply sync_stays|exact H4].
  apply act_bind_ok in Hp as (w6 & [] & H6 & Hp). eapply chdir_rootfs in H6; [|done|exact H5].
  apply act_bind_ok in Hp as (w7 & [] & H7 & Hp). eapply (stays_old rootfs) in H7; [|apply hooks_stays|exact H6].
  apply act_bind_ok in Hp as (w8 & [] & H8%wrapping_ok & Hp).
  destruct (jail_jails (Config c) w7 w8 Hf Hne H7 H8) as (old & Ho & Hold). exists old. split; [|done]. fold rootfs in Ho.
  apply act_bind_ok in Hp as (w9 & [] & H9 & Hp). rewrite <- Ho.
  eapply (still_same rootfs) in H9; [|destruct (needsSetupDev _); [apply follows_wrapping, reopen_still|apply follows_ret]].
  rewrite <- H9. eapply (still_same rootfs); [|exact Hp]. case_bool_decide; follow_with ltac:(by split).
Qed.
End jailed.

(** ** Read-only mounts *)

(** A mount call that succeeded made [m] read-only, on a verified descriptor of its destination; a bind mount
    only is after a second call, which remounts it. *)
Definition mounted_read_only (rootfs : string) (m : configs.Mount) (t : trace) : Prop :=
  exists t1 t2 source target fstype flags data, t = t1 ++ Event (unix.Mount source target fstype flags data) (Ok tt) :: t2 /\
    inside_at rootfs (stripRoot rootfs (configs.Destination m)) t2 target /\
    Z.testbit flags 0 = true /\ (configs.Device m = "bind" -> Z.testbit flags 5 = true).
#[global] Instance mounted_read_only_upward (rootfs : string) (m : configs.Mount) : Upward (mounted_read_only rootfs m).
Proof.
  intros t ev (t1 & t2 & source & target & fstype & flags & data & -> & H). by exists (ev :: t1), t2, source, target, fstype, flags, data.
Qed.
(** Inside the jail, by path. *)
Definition remounted_read_only (m : configs.Mount) (t : trace) : Prop :=
  exists flags, Event (unix.Mount "" (configs.Destination m) "" flags "") (Ok tt) ∈ t /\ Z.testbit flags 0 = true.
#[global] Instance remounted_read_only_upward (m : configs.Mount) : Upward (remounted_read_only m).
Proof. unfold remounted_read_only. apply _. Qed.

Lemma rdonly_bit (flags : Z) : (Z.land flags MS_RDONLY =? MS_RDONLY) = Z.testbit flags 0.
Proof.
  change MS_RDONLY with (Z.ones 1). rewrite Z.land_ones by lia. change (Z.ones 1) with 1. change (2 ^ 1) with 2.
  rewrite Z.bit0_odd, Zmod_odd. by destruct (Z.odd flags).
Qed.

Section read_only.
Context {K : Type} `{Kernel K} `{Libraries}.

Lemma procfd_achieves (root u : string) (fn : string -> IO K unit) (Q : trace -> Prop) `{!Upward Q} :
  (forall t target, inside_at root (stripRoot root u) t target ->
     wp (fn target) (fun r t' => match r with Ok _ => Q t' | Err _ => True end) t) ->
  achieves (WithProcfd root u fn) Q.
Proof.
  intros Hfn t. unfold WithProcfd. apply wp_bind, wp_wrapping, wp_sys. intros [path|e]; cbn [wrap_err]; [|done].
  apply wp_bind, wp_wrapping, wp_sys. intros [f|e]; cbn [wrap_err]; [|done]. apply wp_defer.
  eapply wp_mono with (P := fun r t' => match r with Ok _ => Q t' | Err _ => True end).
  - apply wp_bind, wp_wrapping, wp_sys. intros [real|e]; cbn [wrap_err]; [|done].
    case_bool_decide as E; [subst real|by apply wp_throw]. apply Hfn. exists f, path. split; [done|]. split.
    + cbn. rewrite bool_decide_eq_true_2 by done. rewrite Z.eqb_refl. by rewrite bool_decide_eq_true_2.
    + right. right. by left.
  - intros r t' HQ. apply wp_sys. intros r'. destruct r; [by apply upward|done].
Qed.
Lemma mount_read_only (rootfs source orig target fstype data : string) (flags : Z) (m : configs.Mount) (t : trace) :
  inside_at rootfs (stripRoot rootfs (configs.Destination m)) t target -> Z.testbit flags 0 = true ->
  (configs.Device m = "bind" -> Z.testbit flags 5 = true) ->
  wp (mount source orig target fstype flags data : IO K unit) (fun r t' => match r with Ok _ => mounted_read_only rootfs m t' | Err _ => True end) t.
Proof.
  intros Hi Hf Hb. unfold mount. rewrite bool_decide_eq_false_2 by (by eapply inside_not_empty). apply wp_wrapping, wp_sys.
  intros [[]|e]; [|done]. by exists [], t, source, target, fstype, flags, data.
Qed.
Lemma propagate_read_only (m : configs.Mount) (rootfs mountLabel : string) (mountFd : option Z) :
  is_dev m = false -> configs.Device m <> "bind" -> Z.testbit (configs.Flags m) 0 = true ->
  achieves (mountPropagate m rootfs mountLabel mountFd : IO K unit) (mounted_read_only rootfs m).
Proof.
  intros Hd Hb Hf. unfold mountPropagate. rewrite Hd. cbv zeta. apply achieves_first; [apply _| |intros _; solve_grows].
  apply procfd_achieves; [apply _|]. intros t target Hi. by apply mount_read_only.
Qed.
Lemma remount_read_only (m : configs.Mount) (rootfs : string) (mountFd : option Z) :
  Z.testbit (configs.Flags m) 0 = true -> achieves (remount m rootfs mountFd : IO K unit) (mounted_read_only rootfs m).
Proof.
  intros Hf. unfold remount. cbv zeta. apply procfd_achieves; [apply _|]. intros t target Hi.
  assert (Z.testbit (Z.lor (configs.Flags m) MS_REMOUNT) 0 = true /\ Z.testbit (Z.lor (configs.Flags m) MS_REMOUNT) 5 = true) as [H0' H5].
  { rewrite !Z.lor_spec, Hf. by rewrite orb_true_r. }
  apply wp_bind, wp_try. eapply wp_mono.
  { apply wp_and; [by apply (mount_read_only rootfs _ _ _ _ _ _ m)|by apply (mount_confined rootfs)]. }
  intros [[]|e] t1 [Hr [_ Hi1]]; [by apply wp_ret|]. apply wp_bind, wp_wrapping, wp_sys. intros [s|e']; cbn [wrap_err]; [|done].
  destruct (negb _); [by apply wp_throw|]. apply mount_read_only; [by apply inside_quiet|..];
    rewrite Z.lor_spec; [by rewrite H0'|intros _; by rewrite H5].
Qed.
Lemma device_read_only (m : configs.Mount) (c : mountConfig) :
  is_dev m = false -> Z.testbit (configs.Flags m) 0 = true ->
  achieves (mount_device m c : IO K unit) (mounted_read_only (root c) m).
Proof.
  intros Hd Hf. unfold mount_device. apply achieves_then. intros dest.
  pose proof (propagate_read_only m) as Hp. destruct (bool_decide (configs.Device m = "proc") || _) eqn:E1.
  { unfold mount_proc. do 3 (apply achieves_then; intros ?). apply Hp; [done| |done]. intros E. by rewrite E in E1. }
  clear E1. case_bool_decide as E2.
  { unfold mount_mqueue. apply achieves_then. intros _. apply achieves_first; [apply _| |intros _; solve_grows].
    apply Hp; [done|congruence|done]. }
  case_bool_decide as E3; [unfold is_dev in Hd; rewrite E3 in Hd; done|]. case_bool_decide as E4.
  - unfold mount_bind. do 2 (apply achieves_then; intros _). destruct (Z.eqb_spec (and_not (configs.Flags m) (Z.lor (Z.lor MS_REC MS_REMOUNT) MS_BIND)) 0) as [E|E].
    { exfalso. apply (f_equal (fun z => Z.testbit z 0)) in E. unfold and_not in E. by rewrite Z.ldiff_spec, Hf in E. }
    apply achieves_first; [apply _|by apply remount_read_only|intros _; solve_grows].
  - unfold mount_other. do 2 (apply achieves_then; intros _). by apply Hp.
Qed.

#[local] Instance on_condition_upward (A B C : Prop) (Q : trace -> Prop) : Upward Q -> Upward (fun t => A -> B -> C -> Q t).
Proof. intros HQ. apply _. Qed.
Lemma mount_one_read_only (c : mountConfig) (mf : configs.Mount * option Z) :
  achieves (mount_one c mf : IO K unit)
    (fun t => is_dev mf.1 = false -> configs.Device mf.1 <> "cgroup" -> Z.testbit (configs.Flags mf.1) 0 = true -> mounted_read_only (root c) mf.1 t).
Proof.
  unfold mount_one. cbv zeta. apply achieves_then. intros _. apply achieves_first; [apply _| |intros _; solve_grows].
  apply achieves_wrapping. unfold mountToRootfs. case_bool_decide as E; [intros t w _; by destruct (_ w).2|].
  destruct (is_dev mf.1) eqn:Ed; [intros t w _; by destruct (_ w).2|].
  destruct (Z.testbit (configs.Flags mf.1) 0) eqn:Ef; [|intros t w _; by destruct (_ w).2].
  set (c' := mkMountConfig _ _ _ _ _ _). eapply achieves_weaken; [|by apply (device_read_only mf.1 c')]. done.
Qed.
Lemma with_fds_in (m : configs.Mount) (mounts : list configs.Mount) (fds : option (list Z)) :
  m ∈ mounts -> match fds with Some fds => length fds = length mounts | None => True end -> exists f, (m, f) ∈ with_fds mounts fds.
Proof.
  intros Hm Hl. destruct fds as [fds|]; cbn; [|exists None; by apply (list_elem_of_fmap_2 (fun m => (m, None)))].
  apply list_elem_of_lookup_1 in Hm as [i Hi]. assert (is_Some (fds !! i)) as [f Hf].
  { apply lookup_lt_is_Some_2. rewrite Hl. by eapply lookup_lt_Some. }
  exists (Some f). apply (list_elem_of_lookup_2 _ i). by rewrite lookup_zip_with, Hi; cbn; rewrite Hf.
Qed.
Lemma grow_all {A} (m : IO K A) : grows m -> forall w, calls w `suffix_of` calls (m w).1.
Proof. intros Hm w. eapply extends_suffix. by apply follows_elim. Qed.

Lemma prepare_read_only (c : initConfig) (fds : option (list Z)) : achieves (prepareRootfs c fds : IO K unit)
  (fun t => forall m, m ∈ mounts_of (Config c) -> is_dev m = false -> configs.Device m <> "cgroup" -> Z.testbit (configs.Flags m) 0 = true ->
     mounted_read_only (rootfs_of (Config c)) m t).
Proof.
  unfold prepareRootfs. cbv zeta. apply achieves_then. intros _.
  apply (achieves_then_value _ (fun _ => match fds with Some fds => length fds = length (mounts_of (Config c)) | None => True end)).
  { intros t. apply wp_lift. destruct fds as [fds|]; cbn; [|done]. destruct (Nat.eqb_spec (length fds) (length (mounts_of (Config c)))); done. }
  intros _ Hl. apply achieves_first; [apply _| |intros _; solve_grows].
  eapply achieves_weaken; [|apply (achieves_for_each _ _ (fun mf t => is_dev mf.1 = false -> configs.Device mf.1 <> "cgroup" ->
    Z.testbit (configs.Flags mf.1) 0 = true -> mounted_read_only (rootfs_of (Config c)) mf.1 t))].
  - intros t Ht m Hm. destruct (with_fds_in m _ fds Hm Hl) as [f Hf]. apply (Ht (m, f) Hf).
  - intros mf. solve_grows.
  - intros mf. apply mount_one_read_only.
Qed.
Lemma remount_tries_read_only (m : configs.Mount) (flags : Z) (n : nat) :
  achieves (remount_tries (configs.Destination m) flags n : IO K unit) (remounted_read_only m).
Proof.
  revert flags. induction n as [|n IH]; intros flags; cbn [remount_tries]; [apply achieves_throw|]. cbv zeta.
  apply (achieves_try _ _ (fun r t => match r with Ok _ => remounted_read_only m t | Err _ => True end)).
  - intros t. unfold mount. rewrite bool_decide_eq_true_2 by done. apply wp_wrapping, wp_sys. intros [[]|e]; [|done].
    eexists. split; [by left|]. rewrite Z.lor_spec. by rewrite orb_true_r.
  - intros [[]|e] t Ht; [by apply wp_ret|]. destruct (errors_is e EBUSY); [|by apply wp_throw]. apply (achieves_then _ _ _). intros _. apply IH.
Qed.
Lemma remount_tries_grow (dest : string) (flags : Z) (n : nat) : grows (remount_tries dest flags n : IO K unit).
Proof. revert flags. induction n as [|n IH]; intros flags; cbn [remount_tries]; solve_grows. Qed.
#[local] Hint Resolve remount_tries_grow : follows.
Lemma finalize_remounts (config : configs.Config) : achieves (finalizeRootfs config : IO K unit)
  (fun t => forall m, m ∈ mounts_of config -> is_dev m = true -> Z.testbit (configs.Flags m) 0 = true -> remounted_read_only m t).
Proof.
  unfold finalizeRootfs. apply achieves_first; [apply _| |intros _; solve_grows].
  apply (achieves_for_each _ _ (fun m t => is_dev m = true -> Z.testbit (configs.Flags m) 0 = true -> remounted_read_only m t)); [solve_grows|].
  intros m. rewrite rdonly_bit. destruct (Z.testbit _ 0); cbn [negb]; [|by apply achieves_ret].
  destruct (is_dev m); [|by apply achieves_ret]. eapply achieves_weaken; [|apply remount_tries_read_only]. done.
Qed.

(** C31. A mount that is to be read-only is: after both phases of the setup succeeded, each read-only mount other than a cgroup was
    mounted or, for a bind mount, remounted with the flag on a verified descriptor of its destination, or, for /dev and tmpfs, which are
    filled in between, was remounted with the flag inside the container. *)
Theorem read_only_honoured (c : initConfig) (fds : option (list Z)) (w w1 w2 w3 : world K) (m : configs.Mount) :
  prepareRootfs c fds w = (w1, Ok tt) -> calls w1 `suffix_of` calls w2 -> finalizeRootfs (Config c) w2 = (w3, Ok tt) ->
  m ∈ mounts_of (Config c) -> configs.Device m <> "cgroup" -> Z.land (configs.Flags m) MS_RDONLY = MS_RDONLY ->
  if is_dev m then remounted_read_only m (calls w3) else mounted_read_only (rootfs_of (Config c)) m (calls w3).
Proof.
  intros Hp Hs Hf Hm Hc Hr. assert (Z.testbit (configs.Flags m) 0 = true) as Hb by (rewrite <- rdonly_bit; by apply Z.eqb_eq).
  destruct (is_dev m) eqn:Ed.
  - by apply (achieves_elim _ _ _ _ _ (finalize_remounts (Config c)) Hf).
  - assert (calls w2 `suffix_of` calls w3) as Hs' by (pose proof (grow_all (finalizeRootfs (Config c)) ltac:(solve_grows) w2) as Hg; by rewrite Hf in Hg).
    assert (calls w1 `suffix_of` calls w3) as [t ->] by (by etrans).
    pose proof (achieves_elim _ _ _ _ _ (prepare_read_only c fds) Hp m Hm Ed Hc Hb) as Ht. clear Hs' Hf.
    induction t as [|ev t IH]; [done|]. by apply (upward (Q := mounted_read_only _ m)).
Qed.
End read_only.

(** ** The file mode mask *)

Section umask.
Context {K : Type} `{Kernel K} `{Libraries}.

Lemma keeps_sys {A} (c : unix.call A) : keeps mask (sys c : IO K A).
Proof. intros w. unfold sys. by destruct (answer (mask w) c (kernel w)). Qed.
Lemma keeps_defer {A} (f : IO K unit) (m : IO K A) : keeps mask f -> keeps mask m -> keeps mask (defer f m).
Proof. intros Hf Hm. unfold defer, ignore. solve_keeps. Qed.
#[local] Hint Resolve keeps_sys : keeps.
Ltac keep_all :=
  repeat first
    [ progress intros | solve [eauto 2 with keeps] | apply keeps_bind | apply keeps_try | apply keeps_wrapping | apply keeps_for_each | apply keeps_defer
    | match goal with |- keeps _ (match ?x with _ => _ end) => destruct x end
    | progress cbv beta zeta
    | match goal with |- keeps _ ?m => let h := head_of m in progress unfold h; cbv beta zeta end ].
Lemma createDevices_mask (rootfs : string) (ns : Namespaces) (devices : list Device) : keeps mask (createDevices rootfs ns devices : IO K unit).
Proof.
  intros w. unfold createDevices. assert (keeps mask (runningInUserNS : IO K bool)) as Hu by keep_all. apply keeps_at_bind with (k := fun _ => _); [apply Hu|].
  intros inUserNS w1. unfold mbind, Act_bind, Umask, try_, lift. by destruct (for_each _ devices _) as [w2 [[]|e]].
Qed.
#[local] Hint Resolve createDevices_mask : keeps.

(** Preparing the rootfs leaves the file mode mask as it was, however it ends: the mask is lifted for the device nodes and
    put back whether creating them succeeds or not. *)
Theorem umask_kept (c : initConfig) (fds : option (list Z)) (w : world K) : mask (prepareRootfs c fds w).1 = mask w.
Proof.
  assert (keeps mask (prepareRootfs c fds : IO K unit)) as Hk; [|apply Hk]. keep_all.
Qed.
End umask.

(** ** Findings *)

(** A destination inside /proc whose first element starts with two dots passes the check. *)
Lemma dots_inside_proc {K} `{Kernel K} (w : world K) : checkProcMount "/c" "/c/proc/..pid" "/etc" w = (w, Ok tt).
Proof. vm_compute. by destruct w. Qed.

(** A proc mount next to the rootfs, whose path starts with the letters of the rootfs, is not hidden. *)
Lemma sibling_not_hidden : full_proc_mount "/run/c1" (unix.mkInfo "/" "/run/c10/proc" "proc" "") = false.
Proof. done. Qed.

(** The temporary directory of a copy-up stays when it cannot be made a mount. *)
Lemma tmpdir_left {K} `{Kernel K} `{Libraries} (m : configs.Mount) (rootfs mountLabel d : string) (e : error) (w : world K) (k1 k2 : K) :
  answer (mask w) (unix.MkdirTemp "/tmp" "runctop") (kernel w) = (k1, Ok d) ->
  answer (mask w) (unix.Mount d d "bind" MS_BIND "") k1 = (k2, Err e) ->
  calls (doTmpfsCopyUp m rootfs mountLabel w).1 =
    Event (unix.Mount d d "bind" MS_BIND "") (Err e) :: Event (unix.MkdirTemp "/tmp" "runctop") (Ok d) :: calls w.
Proof.
  intros H1 H2. unfold doTmpfsCopyUp, prepareTmp, mount, wrapping, mbind, Act_bind, sys.
  rewrite H1. cbn [kernel mask calls]. rewrite bool_decide_eq_true_2 by done. by rewrite H2.
Qed.
