(* ===== verification/ContainerInitThms.v ===== *)
(** * Theorems on the init processes *)

From S2P Require Import Prelude GoAct GoStrings GoPath GoFs Devices Configs Validator UserDb Seccomp SpecTypes SpecConv CgroupFiles InitSys RootfsSetup ContainerInit RootfsSetupThms.

Open Scope string_scope.
Open Scope list_scope.
#[local] Open Scope Z_scope.

Import libcontainer init.

Lemma is_wrapped (s : string) (e target : error) : (forall s' e', target <> ErrWrap s' e') -> errors_is (ErrWrap s e) target = errors_is e target.
Proof. intros Ht. cbn. rewrite bool_decide_eq_false_2; [done|]. intros E. by apply (Ht s e). Qed.

Section ready.
Context {K : Type} `{Kernel K} `{Libraries}.

(** ** What is done before the program of the user runs *)

(** The process was locked into the rootfs. *)
Definition jail_done (config : configs.Config) (t : trace) : Prop :=
  if configs.NoPivotRoot (configs.base config) || negb (Contains (namespaces_of config) NEWNS)
  then Event (unix.Chroot ".") (Ok tt) ∈ t
  else Event (unix.PivotRoot "." ".") (Ok tt) ∈ t /\ Event (unix.Unmount "." MNT_DETACH) (Ok tt) ∈ t.
#[local] Instance jail_done_upward (config : configs.Config) : Upward (jail_done config).
Proof. unfold jail_done. destruct (_ || _); apply _. Qed.

(** A path is hidden, or does not exist. *)
Definition masked (path : string) (t : trace) : Prop :=
  Event (unix.Mount "/dev/null" path "" MS_BIND "") (Ok tt) ∈ t \/
  (exists data, Event (unix.Mount "tmpfs" path "tmpfs" MS_RDONLY data) (Ok tt) ∈ t) \/
  (exists e, Event (unix.Mount "/dev/null" path "" MS_BIND "") (Err e) ∈ t /\ errors_is e ErrNotExist = true).
(** A path was remounted read-only, or does not exist. *)
Definition read_only (path : string) (t : trace) : Prop :=
  (exists flags, Event (unix.Mount path path "" flags "") (Ok tt) ∈ t /\ Z.testbit flags 0 = true) \/
  (exists e, Event (unix.Mount path path "" (Z.lor MS_BIND MS_REC) "") (Err e) ∈ t /\ errors_is e ErrNotExist = true).
Definition root_read_only (t : trace) : Prop :=
  exists flags, Event (unix.Mount "" "/" "" flags "") (Ok tt) ∈ t /\ Z.testbit flags 0 = true.
(** The process runs as a user and a group that the user namespace maps. *)
Definition user_set (c : initConfig) (t : trace) : Prop :=
  exists uid gid, (is_ok (HostUID (checked (Config c)) uid) = true /\ is_ok (HostGID (checked (Config c)) gid) = true) /\
    Event (unix.Setgid gid) (Ok tt) ∈ t /\ Event (unix.Setuid uid) (Ok tt) ∈ t.
Definition caps_applied (c : initConfig) (t : trace) : Prop :=
  Event (unix.ApplyBounding (BOUNDING (caps_of (config_caps c)))) (Ok tt) ∈ t /\
  Event (unix.ApplyCaps (all_sets (caps_of (config_caps c)))) (Ok tt) ∈ t.
Definition filter_loaded (c : initConfig) (t : trace) : Prop :=
  forall s, configs.Seccomp_ (configs.linux (Config c)) = Some s -> exists fd, Event (unix.InitSeccomp s) (Ok fd) ∈ t.
Definition privileges_bounded (c : initConfig) (t : trace) : Prop := NoNewPrivileges c = true -> Event unix.SetNoNewPrivs (Ok tt) ∈ t.

(** *** Masks and read-only paths *)

Lemma maskPath_masks (path mountLabel : string) : achieves (maskPath path mountLabel : IO K unit) (masked path).
Proof.
  unfold maskPath. apply (achieves_try _ _ (fun r t => r = Ok tt /\ Event (unix.Mount "/dev/null" path "" MS_BIND "") (Ok tt) ∈ t \/
    exists e, r = Err (ErrWrap "mount" e) /\ Event (unix.Mount "/dev/null" path "" MS_BIND "") (Err e) ∈ t)).
  - intros t. unfold mount. rewrite bool_decide_eq_true_2 by done. apply wp_wrapping, wp_sys. intros [[]|e]; [left|right; exists e]; split; (done || by left).
  - intros r t [[-> Hin]|(e & -> & Hin)]; [apply wp_ret; by left|]. rewrite !is_wrapped by done.
    destruct (errors_is e ErrNotExist) eqn:En; [apply wp_ret; right; right; by exists e|].
    destruct (errors_is e ENOTDIR); [|by apply wp_throw]. unfold mount. rewrite bool_decide_eq_true_2 by done.
    apply wp_wrapping, wp_sys. intros [[]|e']; [|done]. right. left. eexists. by left.
Qed.
Lemma readonlyPath_works (path : string) : achieves (readonlyPath path : IO K unit) (read_only path).
Proof.
  unfold readonlyPath. apply (achieves_try _ _ (fun r t => r = Ok tt \/
    exists e, r = Err (ErrWrap "mount" e) /\ Event (unix.Mount path path "" (Z.lor MS_BIND MS_REC) "") (Err e) ∈ t)).
  - intros t. unfold mount. rewrite bool_decide_eq_true_2 by done. apply wp_wrapping, wp_sys. intros [[]|e]; [by left|right; exists e]. split; (done || by left).
  - intros r t [->|(e & -> & Hin)].
    + apply wp_bind, wp_wrapping, wp_sys. intros [s|e]; [|done]. cbn [wrap_err]. unfold mount. rewrite bool_decide_eq_true_2 by done.
      apply wp_wrapping, wp_sys. intros [[]|e]; [|done]. left. eexists. split; [by left|]. rewrite Z.lor_spec. by rewrite orb_true_r.
    + rewrite is_wrapped by done. destruct (errors_is e ErrNotExist) eqn:En; [|by apply wp_throw]. apply wp_ret. right. by exists e.
Qed.
Lemma setReadonly_works : achieves (setReadonly : IO K unit) root_read_only.
Proof.
  unfold setReadonly. cbv zeta. apply (achieves_try _ _ (fun r t => match r with Ok _ => root_read_only t | Err _ => True end)).
  - intros t. unfold mount. rewrite bool_decide_eq_true_2 by done. apply wp_wrapping, wp_sys. intros [[]|e]; [|done].
    eexists. split; [by left|done].
  - intros [[]|e] t Hr; [by apply wp_ret|]. apply wp_bind, wp_wrapping, wp_sys. intros [s|e']; [|done]. cbn [wrap_err].
    unfold mount. rewrite bool_decide_eq_true_2 by done. apply wp_wrapping, wp_sys. intros [[]|e']; [|done]. eexists. split; [by left|].
    by rewrite Z.lor_spec.
Qed.

(** *** The jail *)

(** Calls one after the other: skip the ones that are done before the one in question. *)
Ltac later := apply achieves_then; intros ?.
Ltac now_done := apply achieves_sys; intros ? []; by left.

Lemma remount_tries_grows (dest : string) (flags : Z) (n : nat) : grows (remount_tries dest flags n : IO K unit).
Proof. revert flags. induction n as [|n IH]; intros flags; cbn [remount_tries]; solve_grows. Qed.
#[local] Hint Resolve remount_tries_grows : follows.

Lemma chroot_done : achieves (chroot : IO K unit) (fun t => Event (unix.Chroot ".") (Ok tt) ∈ t).
Proof. unfold chroot. apply achieves_first; [apply _|apply achieves_wrapping; now_done|]. solve_grows. Qed.
Lemma pivot_done (rootfs : string) : achieves (pivotRoot rootfs : IO K unit)
  (fun t => Event (unix.PivotRoot "." ".") (Ok tt) ∈ t /\ Event (unix.Unmount "." MNT_DETACH) (Ok tt) ∈ t).
Proof.
  unfold pivotRoot. later. apply achieves_defer; [apply _|solve_grows|]. later. apply achieves_defer; [apply _|solve_grows|].
  later. apply achieves_and.
  - apply achieves_first; [apply _|apply achieves_wrapping; now_done|]. solve_grows.
  - do 3 later. apply achieves_first; [apply _|apply achieves_wrapping; now_done|]. solve_grows.
Qed.
Lemma jail_achieves (config : configs.Config) : achieves (jail config : IO K unit) (jail_done config).
Proof.
  unfold jail, jail_done. destruct (configs.NoPivotRoot _); cbn [orb]; [|destruct (Contains _ _); cbn [negb]].
  - unfold msMoveRoot. do 3 later. apply chroot_done.
  - apply pivot_done.
  - apply chroot_done.
Qed.
Lemma prepareRootfs_jails (c : initConfig) (fds : option (list Z)) : achieves (prepareRootfs c fds : IO K unit) (jail_done (Config c)).
Proof.
  unfold prepareRootfs. cbv zeta. do 7 later. apply achieves_first; [apply _|apply achieves_wrapping, jail_achieves|].
  intros _. solve_grows.
Qed.
(** What the preparation of the rootfs achieves holds after the phase: the descriptors are closed in between. *)
Lemma prepare_achieves (l : linuxStandardInit) (Q : trace -> Prop) `{!Upward Q} :
  achieves (prepareRootfs (config l) (mountFds l) : IO K unit) Q -> achieves (prepare_phase l : IO K unit) Q.
Proof.
  intros HQ. unfold prepare_phase. cbv zeta. do 2 later.
  apply (achieves_try _ _ (fun r t => match r with Ok _ => Q t | Err _ => True end)); [done|]. intros r t Hr. destruct r as [[]|e].
  - apply wp_bind. eapply wp_mono; [apply (follows_elim_wp any_call); solve_grows|]. intros [[]|e] t' He; [|done].
    apply wp_lift. by apply (upward_extends Q any_call t).
  - apply wp_bind. intros w _. destruct (close_mount_fds _ w) as [w' [[]|e']]; cbn; [|done]. by apply wp_lift.
Qed.
(** The parent has answered with the expected word. *)
Definition agreed (type : string) (t : trace) : Prop := Event unix.RecvSync (Ok type) ∈ t.
#[local] Instance agreed_upward (type : string) : Upward (agreed type).
Proof. unfold agreed. apply _. Qed.
Lemma readSync_agrees (expected : string) : achieves (readSync expected : IO K unit) (agreed expected).
Proof.
  unfold readSync. apply (achieves_try _ _ (fun r t => match r with Ok type => agreed type t | Err _ => True end)).
  - intros t. apply wp_sys. intros [type|e]; [by left|done].
  - intros [type|e] t Hin; [|destruct (errors_is _ _); by apply wp_throw]. case_bool_decide.
    + apply wp_bind, wp_wrapping, wp_sys. intros [s|e]; [by apply wp_throw|done].
    + case_bool_decide; [subst; by apply wp_ret|by apply wp_throw].
Qed.
Lemma prepareRootfs_resumes (c : initConfig) (fds : option (list Z)) : achieves (prepareRootfs c fds : IO K unit) (agreed procResume).
Proof.
  unfold prepareRootfs. cbv zeta. do 4 later. apply achieves_first; [apply _|later; apply readSync_agrees|]. intros _. solve_grows.
Qed.
Lemma prepare_jails (l : linuxStandardInit) :
  achieves (prepare_phase l : IO K unit) (fun t => jail_done (Config (config l)) t /\ agreed procResume t).
Proof. apply prepare_achieves; [apply _|]. apply achieves_and; [apply prepareRootfs_jails|apply prepareRootfs_resumes]. Qed.

(** *** Protection of paths *)

Definition protected (c : initConfig) (t : trace) : Prop :=
  let conf := Config c in
  (Contains (namespaces_of conf) NEWNS = true -> configs.Readonlyfs (configs.base conf) = true -> root_read_only t) /\
  Event (unix.ApplyProfile (AppArmorProfile c)) (Ok tt) ∈ t /\
  (forall kv, kv ∈ configs.Sysctl (configs.linux conf) ->
     Event (unix.WriteFile (Join ["/proc/sys"; replace_char CgroupV2.fs2.ch_dot ch_slash kv.1]) kv.2) (Ok tt) ∈ t) /\
  (forall path, path ∈ configs.ReadonlyPaths (configs.linux conf) -> read_only path t) /\
  (forall path, path ∈ configs.MaskPaths (configs.linux conf) -> masked path t).
#[local] Instance read_only_upward (path : string) : Upward (read_only path).
Proof. unfold read_only. apply _. Qed.
#[local] Instance masked_upward (path : string) : Upward (masked path).
Proof. unfold masked. apply _. Qed.
#[local] Instance root_read_only_upward : Upward root_read_only.
Proof. unfold root_read_only. apply _. Qed.
Lemma finalize_read_only (config : configs.Config) :
  achieves (finalizeRootfs config : IO K unit) (fun t => configs.Readonlyfs (configs.base config) = true -> root_read_only t).
Proof.
  unfold finalizeRootfs. later. destruct (configs.Readonlyfs _).
  - apply achieves_first; [apply _| |intros _; solve_grows]. eapply achieves_weaken; [|apply achieves_wrapping, setReadonly_works]. done.
  - intros t w _. by destruct (_ w).2.
Qed.
Lemma protect_achieves (c : initConfig) : achieves (protect_phase c : IO K unit) (protected c).
Proof.
  unfold protect_phase, protected. cbv zeta. apply achieves_and; [|do 2 later; apply achieves_and; [|later; apply achieves_and; [|later; apply achieves_and]]].
  - apply achieves_first; [apply _| |intros _; solve_grows]. destruct (Contains _ _); [|apply achieves_ret; done].
    eapply achieves_weaken; [|apply finalize_read_only]. done.
  - apply achieves_first; [apply _|apply achieves_wrapping; now_done|]. intros _. solve_grows.
  - apply achieves_first; [apply _| |intros _; solve_grows].
    apply (achieves_for_each _ _ (fun kv t => Event (unix.WriteFile _ kv.2) (Ok tt) ∈ t)); [solve_grows|]. intros kv. now_done.
  - apply achieves_first; [apply _| |intros _; solve_grows].
    apply (achieves_for_each _ _ read_only); [solve_grows|]. intros p. apply achieves_wrapping, readonlyPath_works.
  - later. apply (achieves_for_each _ _ masked); [solve_grows|]. intros p. apply achieves_wrapping, maskPath_masks.
Qed.

(** *** User, capabilities and filter *)

Lemma setupUser_sets (c : initConfig) : achieves (setupUser c : IO K unit) (user_set c).
Proof.
  unfold setupUser. apply achieves_then. intros u. later.
  destruct (HostUID (checked (Config c)) (Uid u)) eqn:Eu; [|apply achieves_throw_then]. later.
  destruct (HostGID (checked (Config c)) (Gid u)) eqn:Eg; [|apply achieves_throw_then]. do 6 later.
  apply achieves_weaken with (P := fun t => Event (unix.Setgid (Gid u)) (Ok tt) ∈ t /\ Event (unix.Setuid (Uid u)) (Ok tt) ∈ t).
  { intros t Ht. exists (Uid u), (Gid u). by rewrite Eu, Eg. }
  apply achieves_and.
  - apply achieves_first; [apply _|now_done|]. intros _. solve_grows.
  - later. apply achieves_first; [apply _|now_done|]. intros _. solve_grows.
Qed.
#[local] Instance user_set_upward (c : initConfig) : Upward (user_set c).
Proof. unfold user_set. apply _. Qed.
#[local] Instance caps_upward (c : initConfig) : Upward (caps_applied c).
Proof. unfold caps_applied. apply _. Qed.

Lemma New_value (caps : configs.Capabilities) (t : trace) :
  wp (New caps : IO K Caps) (fun r _ => match r with Ok a => a = caps_of caps | Err _ => True end) t.
Proof. unfold New. apply wp_bind, wp_sys. intros [[]|e]; [|done]. apply wp_bind, wp_sys. intros [[]|e]; [|done]. by apply wp_ret. Qed.
Lemma finalize_bounds (c : initConfig) : achieves (finalizeNamespace c : IO K unit) (fun t => caps_applied c t /\ user_set c t).
Proof.
  unfold finalizeNamespace. do 2 later. eapply achieves_then_value; [apply New_value|]. intros w ->.
  apply achieves_and; [apply achieves_and|].
  - apply achieves_first; [apply _|apply achieves_wrapping; now_done|]. intros _. solve_grows.
  - do 5 later. apply achieves_wrapping. now_done.
  - do 2 later. apply achieves_first; [apply _|apply achieves_wrapping, setupUser_sets|]. intros _. solve_grows.
Qed.

Lemma seccomp_early (c : initConfig) : achieves (early_seccomp c : IO K unit)
  (fun t => forall s, configs.Seccomp_ (configs.linux (Config c)) = Some s -> NoNewPrivileges c = false ->
     exists fd, Event (unix.InitSeccomp s) (Ok fd) ∈ t).
Proof.
  unfold early_seccomp. destruct (configs.Seccomp_ _) as [s|]; [|apply achieves_ret; done].
  destruct (NoNewPrivileges c); [apply achieves_ret; done|]. apply achieves_first; [apply _| |intros ?; solve_grows].
  apply achieves_sys. intros t fd s' [= <-] _. exists fd. by left.
Qed.
Lemma seccomp_late (c : initConfig) : achieves (late_seccomp c : IO K unit)
  (fun t => forall s, configs.Seccomp_ (configs.linux (Config c)) = Some s -> NoNewPrivileges c = true ->
     exists fd, Event (unix.InitSeccomp s) (Ok fd) ∈ t).
Proof.
  unfold late_seccomp. destruct (configs.Seccomp_ _) as [s|]; [|apply achieves_ret; done].
  destruct (NoNewPrivileges c); [|apply achieves_ret; done]. apply achieves_first; [apply _| |intros ?; solve_grows].
  apply achieves_wrapping, achieves_sys. intros t fd s' [= <-] _. exists fd. by left.
Qed.
Lemma privs_set (c : initConfig) : achieves (set_no_new_privs c : IO K unit) (privileges_bounded c).
Proof.
  unfold set_no_new_privs, privileges_bounded. destruct (NoNewPrivileges c); [|apply achieves_ret; done].
  apply achieves_sys. intros t [] _. by left.
Qed.
#[local] Instance privs_upward (c : initConfig) : Upward (privileges_bounded c).
Proof. unfold privileges_bounded. apply _. Qed.
#[local] Instance protected_upward (c : initConfig) : Upward (protected c).
Proof. unfold protected. apply _. Qed.

(** The parent has answered that the process may go on. *)
Lemma ready_agreed : achieves (syncParentReady : IO K unit) (agreed procRun).
Proof. unfold syncParentReady. later. apply readSync_agrees. Qed.
(** Somebody opened the exec fifo. *)
Definition started (l : linuxStandardInit) (t : trace) : Prop :=
  exists fd, Event (unix.Open (procfd_path (fifoFd l)) unix.O_WRONLY) (Ok fd) ∈ t.
Lemma wait_started (l : linuxStandardInit) : achieves (wait_start l : IO K unit) (started l).
Proof.
  unfold wait_start, started. do 2 later. apply achieves_first; [apply _| |intros ?; solve_grows].
  apply achieves_wrapping, achieves_sys. intros t fd. exists fd. by left.
Qed.

(** ** The program of the user runs last *)

(** Everything the configuration asks for was done. *)
Record ready (l : linuxStandardInit) (t : trace) : Prop := {
  ready_jail : jail_done (Config (config l)) t;
  ready_paths : protected (config l) t;
  ready_privs : privileges_bounded (config l) t;
  ready_hooks : agreed procResume t;
  ready_parent : agreed procRun t;
  ready_label : Event (unix.SetExecLabel (ProcessLabel (config l))) (Ok tt) ∈ t;
  ready_caps : caps_applied (config l) t;
  ready_user : user_set (config l) t;
  ready_filter : filter_loaded (config l) t;
  ready_start : started l t }.
Definition exec_when (R : trace -> Prop) (t : trace) (ev : event) : Prop :=
  match ev_call ev with unix.Exec _ _ => R t | _ => True end.
Lemma remount_tries_no_exec (R : trace -> Prop) (dest : string) (flags : Z) (n : nat) :
  follows (exec_when R) (remount_tries dest flags n : IO K unit).
Proof. revert flags. induction n as [|n IH]; intros flags; cbn [remount_tries]; follow_all ltac:(exact I). Qed.
#[local] Hint Resolve remount_tries_no_exec : follows.
Ltac no_exec := follow_all ltac:(exact I).
Lemma propagate_no_exec (R : trace -> Prop) (m : configs.Mount) (rootfs mountLabel : string) (mountFd : option Z) :
  follows (exec_when R) (mountPropagate m rootfs mountLabel mountFd : IO K unit).
Proof. unfold mountPropagate. no_exec. Qed.
#[local] Hint Resolve propagate_no_exec : follows.
Lemma mount_device_no_exec (R : trace -> Prop) (m : configs.Mount) (c : mountConfig) : follows (exec_when R) (mount_device m c : IO K unit).
Proof. no_exec. Qed.
#[local] Hint Resolve mount_device_no_exec : follows.
Lemma prepareRootfs_no_exec (R : trace -> Prop) (c : initConfig) (fds : option (list Z)) : follows (exec_when R) (prepareRootfs c fds : IO K unit).
Proof. no_exec. Qed.
Lemma finalizeNamespace_no_exec (R : trace -> Prop) (c : initConfig) : follows (exec_when R) (finalizeNamespace c : IO K unit).
Proof. no_exec. Qed.
#[local] Hint Resolve prepareRootfs_no_exec finalizeNamespace_no_exec : follows.
Lemma guarded_defer_failed (P : trace -> event -> Prop) (Pre : trace -> Prop) (f m : IO K unit) :
  follows P f -> guarded P Pre m -> guarded P Pre (defer_failed f m).
Proof.
  intros Hf Hm t Ht. unfold defer_failed. apply wp_bind, wp_try. eapply wp_mono; [by apply Hm|]. intros [[]|e] t' He; [by apply wp_ret|].
  apply wp_bind, wp_ignore. eapply wp_mono; [apply Hf|]. intros r t'' He'. apply wp_throw. by eapply extends_trans.
Qed.

Definition before_exec (l : linuxStandardInit) (t : trace) : Prop :=
  ((((jail_done (Config (config l)) t /\ agreed procResume t) /\ protected (config l) t) /\ privileges_bounded (config l) t) /\
   agreed procRun t) /\ Event (unix.SetExecLabel (ProcessLabel (config l))) (Ok tt) ∈ t.
#[local] Instance before_exec_upward (l : linuxStandardInit) : Upward (before_exec l).
Proof. unfold before_exec. apply _. Qed.
#[local] Instance started_upward (l : linuxStandardInit) : Upward (started l).
Proof. unfold started. apply _. Qed.

Lemma exec_phase_guarded (l : linuxStandardInit) (pdeath : Z) :
  guarded (exec_when (ready l)) (before_exec l) (exec_phase l pdeath : IO K unit).
Proof.
  unfold exec_phase. cbv zeta. eapply guarded_step; [apply _|apply seccomp_early|no_exec|]. intros _.
  eapply guarded_step; [apply _|apply finalize_bounds|no_exec|]. intros _.
  apply guarded_skip; [apply _|no_exec|]. intros _. apply guarded_skip; [apply _|no_exec|]. intros ppid.
  destruct (negb _); [apply guarded_follows; no_exec|]. do 2 (apply guarded_skip; [apply _|no_exec|]; intros ?).
  apply guarded_skip; [apply _|no_exec|]. intros _.
  eapply guarded_step; [apply _|apply seccomp_late|no_exec|]. intros _.
  eapply guarded_step; [apply _|apply wait_started|no_exec|]. intros _.
  apply guarded_skip; [apply _|no_exec|]. intros _. apply guarded_wrapping, guarded_sys.
  intros t r (((((((((? & ?) & ?) & ?) & ?) & ?) & He) & ? & ?) & Hl) & ?). constructor; try done.
  intros s Hs. destruct (NoNewPrivileges (config l)) eqn:En; [by apply Hl|by apply He].
Qed.

Lemma after_keyring_guarded (l : linuxStandardInit) :
  guarded (exec_when (ready l)) (fun _ => True) (after_keyring l : IO K unit).
Proof.
  unfold after_keyring. cbv zeta. eapply guarded_step; [apply _|apply prepare_jails|no_exec|]. intros _.
  apply guarded_skip; [apply _|no_exec|]. intros _.
  eapply guarded_step; [apply _|apply protect_achieves|no_exec|]. intros _.
  apply guarded_skip; [apply _|no_exec|]. intros pdeath.
  eapply guarded_step; [apply _|apply achieves_wrapping, privs_set|no_exec|]. intros _.
  eapply guarded_step; [apply _|apply achieves_wrapping, ready_agreed|no_exec|]. intros _.
  eapply (guarded_step _ _ (fun t => Event (unix.SetExecLabel (ProcessLabel (config l))) (Ok tt) ∈ t));
    [apply achieves_wrapping; now_done|no_exec|]. intros _.
  apply guarded_defer_failed; [no_exec|]. eapply guarded_weaken; [|apply exec_phase_guarded].
  unfold before_exec. intros t. tauto.
Qed.

Lemma Init_guarded (l : linuxStandardInit) : guarded (exec_when (ready l)) (fun _ => True) (Init l : IO K unit).
Proof.
  unfold Init. cbv zeta. destruct (configs.NoNewKeyring _); [apply after_keyring_guarded|].
  apply guarded_skip; [apply _|no_exec|]. intros _. apply guarded_defer_failed; [no_exec|].
  apply guarded_skip; [apply _|no_exec|]. intros _. apply after_keyring_guarded.
Qed.

(** C25. The program of the user only starts in a finished container: whatever the kernel and the parent answer, the only call that
    replaces the process comes after the jail, the masks and read-only paths, the system properties, no_new_privs, the
    bounding set and the capabilities, a mapped user and group, the labels, the seccomp filter when there is one, the
    words of the parent and the start of the container. *)
Theorem exec_is_guarded (l : linuxStandardInit) (w : world K) :
  extends (exec_when (ready l)) (calls w) (calls (Init l w).1).
Proof. by apply (Init_guarded l (calls w)). Qed.

(** *** Joining a container *)

Record setns_ready (c : initConfig) (t : trace) : Prop := {
  setns_privs : privileges_bounded c t;
  setns_label : Event (unix.SetExecLabel (ProcessLabel c)) (Ok tt) ∈ t;
  setns_caps : caps_applied c t;
  setns_user : user_set c t;
  setns_profile : Event (unix.ApplyProfile (AppArmorProfile c)) (Ok tt) ∈ t;
  setns_filter : filter_loaded c t }.

Lemma setns_after_guarded (l : linuxSetnsInit) :
  guarded (exec_when (setns_ready (ns_config l))) (fun _ => True) (setns_after_keyring l : IO K unit).
Proof.
  unfold setns_after_keyring. cbv zeta. apply guarded_skip; [apply _|no_exec|]. intros _.
  eapply guarded_step; [apply _|apply privs_set|no_exec|]. intros _.
  eapply (guarded_step _ _ (fun t => Event (unix.SetExecLabel (ProcessLabel (ns_config l))) (Ok tt) ∈ t)); [now_done|no_exec|]. intros _.
  apply guarded_defer_failed; [no_exec|]. unfold setns_exec. cbv zeta.
  eapply guarded_step; [apply _|apply seccomp_early|no_exec|]. intros _.
  eapply guarded_step; [apply _|apply finalize_bounds|no_exec|]. intros _.
  eapply (guarded_step _ _ (fun t => Event (unix.ApplyProfile (AppArmorProfile (ns_config l))) (Ok tt) ∈ t)); [now_done|no_exec|]. intros _.
  eapply guarded_step; [apply _|apply seccomp_late|no_exec|]. intros _.
  do 3 (apply guarded_skip; [apply _|no_exec|]; intros ?). apply guarded_wrapping, guarded_sys.
  intros t r ((((((_ & ?) & ?) & He) & ? & ?) & ?) & Hl). constructor; try done.
  intros s Hs. destruct (NoNewPrivileges (ns_config l)) eqn:En; [by apply Hl|by apply He].
Qed.

(** The same holds for a program that is started in a running container: it gets the privileges, the user, the labels and the
    seccomp filter of the container before it runs. *)
Theorem setns_exec_is_guarded (l : linuxSetnsInit) (w : world K) :
  extends (exec_when (setns_ready (ns_config l))) (calls w) (calls (setns_Init l w).1).
Proof.
  assert (guarded (exec_when (setns_ready (ns_config l))) (fun _ => True) (setns_Init l : IO K unit)) as Hi; [|by apply (Hi (calls w))].
  unfold setns_Init. cbv zeta. destruct (configs.NoNewKeyring _); [apply setns_after_guarded|].
  apply guarded_skip; [apply _|no_exec|]. intros _. apply guarded_defer_failed; [no_exec|].
  apply guarded_skip; [apply _|no_exec|]. intros _. apply setns_after_guarded.
Qed.
End ready.
