(* ===== verification/ParentProcess.v ===== *)
(** * The parent of a container process: process_linux.go and the parent's side of sync.go

    [start] of [initProcess] creates a container: it starts the bootstrap, puts it into the cgroup,
    feeds it, learns the pid of the real init process, and answers its messages.  [start] of
    [setnsProcess] starts a further process in a container.  What a process object remembers, the pid of
    its current process, is passed along.

    A panic is an error of its own kind: deferred clean-ups that look at the returned error do nothing then.
    The loop of [parseSync] takes fuel; [ErrRunning] says that it has not come to an end. *)

From S2P Require Import Prelude GoAct GoStrings GoPath GoFs Devices Configs Validator UserDb Seccomp SpecTypes SpecConv CgroupFiles CgroupV2 InitSys RootfsSetup ContainerInit.

Open Scope string_scope.
Open Scope list_scope.
#[local] Open Scope Z_scope.

Module process.
Import libcontainer init.

Definition ErrNoPayload : error := panic "No error following JSON procError payload.".
Definition ErrRunning : error := panic "still running".
Definition ExitError : error := ErrNew "exit status".

(** What the objects are built with. *)
Record initProcess := mkInitProcess {
  p_config : initConfig; p_hasRdt : bool; p_sharePidns : bool; p_parentSock : Z; p_childSock : Z; p_childLog : Z; p_debug : bool }.
Record setnsProcess := mkSetnsProcess {
  ns_conf : initConfig; ns_cgroupPaths : list string; ns_rootlessCgroups : bool; ns_intelRdtPath : string; ns_bootstrap : bool;
  ns_initProcessPid : Z; ns_parentSock : Z; ns_childSock : Z; ns_childLog : Z }.
(** What [start] leaves in the object: the pid of the process and the names of its descriptors. *)
Record started := mkStarted { st_pid : Z; st_fds : list string }.

(** utils.go *)
Definition label_pair (l : string) : option (string * string) :=
  match split_n ch_equals 2 l with [k; v] => Some (k, v) | _ => None end.
Fixpoint SearchLabels (labels : list string) (query : string) : string :=
  match labels with
  | [] => ""
  | l :: labels =>
      match label_pair l with
      | Some (k, v) => if bool_decide (k = query) then v else SearchLabels labels query
      | None => SearchLabels labels query
      end
  end.
Definition add_label (acc : string * gmap string string) (l : string) : string * gmap string string :=
  match label_pair l with
  | Some (k, v) => if bool_decide (k = "bundle") then (v, acc.2) else (acc.1, <[k := v]> acc.2)
  | None => acc
  end.
Definition Annotations (labels : list string) : string * gmap string string := foldl add_label ("", ∅) labels.

Section process.
Context {K : Type} `{Kernel K}.

(** ** Waiting for the bootstrap *)

(** What the channel of [initWaiter] delivers first; a second receive gets nothing. *)
Definition waitInit : IO K unit :=
  r ← try_ (sys unix.ReadInit);
  match r with
  | Err err => throw (ErrWrap "waiting for init preliminary setup" err)
  | Ok [] => throw (ErrWrap "waiting for init preliminary setup" (ErrNew "short read"))
  | Ok (b :: _) => if b =? 0 then mret tt else throw (ErrWrap "waiting for init preliminary setup" (ErrNew "unexpected %d != 0"))
  end.

(** [Process.Wait] on the process of the command; when it fails, the command is waited for too. *)
Definition wait_first (pid : Z) : IO K unit :=
  r ← try_ (sys (unix.WaitProcess pid));
  match r with
  | Err err => _ ← ignore (sys (unix.WaitCmd pid)); throw err
  | Ok success => if success : bool then mret tt else _ ← ignore (sys (unix.WaitCmd pid)); throw ExitError
  end.
(** The pid of the final child; the one in between is reaped. *)
Definition getChildPid (pid : Z) : IO K Z :=
  r ← try_ (sys unix.RecvPid);
  match r with
  | Err err => _ ← ignore (sys (unix.WaitCmd pid)); throw err
  | Ok pids => _ ← ignore (sys (unix.WaitProcess pids.2)); mret pids.1
  end.

(** A link that may not be read is left empty. *)
Definition pipe_fd (pid i : Z) : IO K string :=
  r ← try_ (sys (unix.Readlink (Join [Join ["/proc"; format_int pid; "/fd"]; format_int i])));
  match r with Ok target => mret target | Err err => if is_permission err then mret "" else throw err end.
Definition getPipeFds (pid : Z) : IO K (list string) :=
  f0 ← pipe_fd pid 0; f1 ← pipe_fd pid 1; f2 ← pipe_fd pid 2; mret [f0; f1; f2].

(** ** The seccomp agent *)

Definition recvSeccompFd (childPid childFd : Z) : IO K Z :=
  pidfd ← wrapping "performing SYS_PIDFD_OPEN syscall" (sys (unix.PidfdOpen childPid));
  defer (sys (unix.Close pidfd)) (wrapping "performing SYS_PIDFD_GETFD syscall" (sys (unix.PidfdGetfd pidfd childFd))).
Definition sendContainerProcessState (listenerPath : string) (state : unix.ContainerProcessState) (fd : Z) : IO K unit :=
  conn ← wrapping "failed to connect with seccomp agent specified in the seccomp profile" (sys (unix.Dial listenerPath));
  socket ← wrapping "cannot get seccomp socket" (sys (unix.SocketFile conn));
  defer (sys (unix.Close socket)) (wrapping "cannot send seccomp fd to %s" (sys (unix.SendFds socket state fd))).

(** Both kinds of process hand the descriptor over in the same way; [state] says for which container. *)
Definition handle_seccomp (c : initConfig) (pid childFd : Z) (state : IO K unix.OCIState) : IO K unit :=
  match configs.Seccomp_ (configs.linux (Config c)) with
  | None => throw ErrNilDeref
  | Some s =>
      if bool_decide (ListenerPath s = "") then throw (ErrNew "listenerPath is not set") else
      seccompFd ← recvSeccompFd pid childFd;
      defer (sys (unix.Close seccompFd))
        (st ← state;
         _ ← sendContainerProcessState (ListenerPath s) (unix.mkProcessState ["seccompFd"] pid (ListenerMetadata s) st) seccompFd;
         writeSync procSeccompDone)
  end.

(** ** Messages of the child *)

(** [fn] handles a message and may change [s].  The result is the error that ended the loop, none at the end of the stream. *)
Fixpoint parseSync {S} (fuel : nat) (fn : S -> string * Z -> IO K S) (s : S) : IO K (S * option error) :=
  match fuel with
  | O => throw ErrRunning
  | Datatypes.S fuel =>
      r ← try_ (sys unix.RecvMsg);
      match r with
      | Err err => mret (s, if errors_is err EOF then None else Some err)
      | Ok sync =>
          if bool_decide (sync.1 = procError) then
            ierr ← try_ (sys unix.RecvInitError);
            match ierr with
            | Err err => if errors_is err EOF then throw ErrNoPayload
                         else mret (s, Some (ErrWrap "error decoding proc error from init" err))
            | Ok None => throw ErrNoPayload
            | Ok (Some message) => mret (s, Some (ErrNew message))
            end
          else
            r ← try_ (fn s sync);
            match r with
            | Ok s => parseSync fuel fn s
            | Err err => if is_panic err then throw err else mret (s, Some err)
            end
      end
  end.

Definition setupRlimits (limits : list unix.Rlimit) (pid : Z) : IO K unit :=
  for_each (fun rlimit => wrapping "error setting rlimit type %v"
              (sys (unix.Prlimit pid (unix.rl_Type rlimit) (unix.Soft rlimit) (unix.Hard rlimit)))) limits.

(** ** initProcess *)

Definition wait (p : initProcess) (pid : Z) : IO K unit :=
  r ← try_ (sys (unix.WaitCmd pid));
  _ ← (if p_sharePidns p then ignore (sys unix.SignalAll) else mret tt);
  lift r.
Definition terminate (p : initProcess) (pid : Z) : IO K unit :=
  err ← try_ (sys (unix.KillProcess pid));
  werr ← try_ (wait p pid);
  lift (match err with Ok _ => werr | Err _ => err end).

(** The deferred clean-up.  [waited] says that the message of the bootstrap was received before. *)
Definition oomError : string := "container init was OOM-killed (memory limit too low?)".
Definition cleanup (p : initProcess) (pid : Z) (waited : bool) (err : error) : IO K error :=
  oom ← try_ (sys unix.OOMKillCount);
  let err := match oom with
             | Ok n => if 0 <? n then if p_debug p then ErrWrap oomError err else ErrNew oomError else err
             | Err _ => err
             end in
  _ ← (if waited then mret tt else ignore waitInit);
  _ ← ignore (terminate p pid);
  _ ← ignore (sys unix.ManagerDestroy);
  _ ← (if p_hasRdt p then ignore (sys unix.RdtDestroy) else mret tt);
  mret err.
Definition on_failure {A} (clean : error -> IO K error) (m : IO K A) : IO K A :=
  r ← try_ m;
  match r with
  | Ok a => mret a
  | Err e => if is_panic e then throw e else e ← clean e; throw e
  end.

Fixpoint network_interfaces (types : list string) (acc : list unix.Network) : result (list unix.Network) :=
  match types with
  | [] => Ok acc
  | t :: types => _ ← getStrategy t; network_interfaces types (acc ++ [unix.mkNetwork t])
  end.
(** The interfaces are added to the configuration that is sent. *)
Definition createNetworkInterfaces (c : initConfig) : result (list unix.Network) :=
  network_interfaces (configs.Networks (configs.linux (Config c))) (Networks c).
Definition with_networks (c : initConfig) (networks : list unix.Network) (s : unix.OCIState) : initConfig :=
  mkInitConfig (Args c) (Env c) (Cwd c) (Capabilities c) (ProcessLabel c) (AppArmorProfile c) (NoNewPrivileges c) (User c)
    (AdditionalGroups c) (Config c) (Devices c) (Routes c) networks (PassedFilesCount c) (ContainerId c) (Rlimits c) (CreateConsole c)
    (ConsoleWidth c) (ConsoleHeight c) (RootlessEUID c) (RootlessCgroups c) (Some s) (Cgroup2Path c).

(** Which answers were sent. *)
Record flags := mkFlags { sentRun : bool; sentResume : bool }.

Definition creating (pid : Z) (s : unix.OCIState) : unix.OCIState :=
  unix.mkOCIState (unix.o_ID s) "creating" pid (unix.o_Bundle s) (unix.o_Annotations s).
Definition set_limits (p : initProcess) (what : string) : IO K unit :=
  _ ← wrapping ("error setting cgroup config for " +:+ what) (sys (unix.ManagerSet (configs.cg_Resources (configs.Cgroups (Config (p_config p))))));
  if p_hasRdt p then wrapping ("error setting Intel RDT config for " +:+ what) (sys unix.RdtSet) else mret tt.
Definition run_hooks (p : initProcess) : IO K unit :=
  let hooks := configs.Hooks_ (Config (p_config p)) in
  if bool_decide (hooks = ∅) then mret tt else
  _ ← sys unix.CurrentOCIState;
  _ ← RunHooks "prestart" hooks;
  RunHooks "createRuntime" hooks.

Definition handle_ready (p : initProcess) (pid : Z) : IO K unit :=
  _ ← wrapping "error setting rlimits for ready process" (setupRlimits (Rlimits (p_config p)) pid);
  _ ← (if Contains (namespaces_of (Config (p_config p))) NEWNS then mret tt
       else _ ← set_limits p "ready process"; run_hooks p);
  r ← try_ (sys (unix.StoreState pid));
  _ ← match r with Ok _ => mret tt | Err _ => throw (ErrNew "unable to store init state: %!w(<nil>)") end;
  writeSync procRun.
Definition handle_hooks (p : initProcess) : IO K unit :=
  _ ← set_limits p "procHooks process";
  _ ← run_hooks p;
  writeSync procResume.
Definition handle (p : initProcess) (pid : Z) (f : flags) (sync : string * Z) : IO K flags :=
  if bool_decide (sync.1 = procSeccomp) then
    _ ← handle_seccomp (p_config p) pid sync.2 (s ← sys unix.CurrentOCIState; mret (creating pid s)); mret f
  else if bool_decide (sync.1 = procReady) then _ ← handle_ready p pid; mret (mkFlags true (sentResume f))
  else if bool_decide (sync.1 = procHooks) then _ ← handle_hooks p; mret (mkFlags (sentRun f) true)
  else throw (ErrNew "invalid JSON payload from child").

(** After the loop: was everything agreed? *)
Definition conclude (p : initProcess) (pid : Z) (f : flags) (ierr : option error) : IO K unit :=
  if negb (sentRun f) then
    throw (match ierr with Some e => ErrWrap "error during container init" e | None => ErrNew "error during container init: %!w(<nil>)" end)
  else if Contains (namespaces_of (Config (p_config p))) NEWNS && negb (sentResume f) then
    throw (ErrNew "could not synchronise after executing prestart and CreateRuntime hooks with container process")
  else
    _ ← wrapping "shutdown" (sys unix.Shutdown);
    match ierr with Some e => _ ← ignore (wait p pid); throw e | None => mret tt end.

(** The parts of [start]: while the process of the command is the bootstrap, and once it is the init process. *)
Definition apply_phase (p : initProcess) (pid : Z) : IO K unit :=
  _ ← wrapping "unable to apply cgroup configuration" (sys (unix.ManagerApply pid));
  _ ← (if p_hasRdt p then wrapping "unable to apply Intel RDT configuration" (sys (unix.RdtApply pid)) else mret tt);
  wrapping "can't copy bootstrap data to pipe" (sys unix.CopyBootstrap).
Definition child_phase (pid : Z) : IO K started :=
  childPid ← wrapping "can't get final child's PID from pipe" (getChildPid pid);
  fds ← wrapping "error getting pipe fds for pid %d" (getPipeFds childPid);
  _ ← wrapping "error waiting for our first child to exit" (wait_first pid);
  mret (mkStarted childPid fds).
Definition sync_phase (fuel : nat) (p : initProcess) (pid : Z) : IO K unit :=
  networks ← lift (wrap_err "error creating network interfaces" (createNetworkInterfaces (p_config p)));
  s ← wrapping "error updating spec state" (sys unix.CurrentOCIState);
  _ ← wrapping "error sending config to init process" (sys (unix.SendConfig (with_networks (p_config p) networks s)));
  '(f, ierr) ← parseSync fuel (handle p pid) (mkFlags false false);
  conclude p pid f ierr.

Definition run_bootstrap (fuel : nat) (p : initProcess) (pid : Z) : IO K started :=
  _ ← on_failure (cleanup p pid false) (apply_phase p pid);
  st ← on_failure (cleanup p pid true) (_ ← waitInit; child_phase pid);
  _ ← on_failure (cleanup p (st_pid st) true) (sync_phase fuel p (st_pid st));
  mret st.
(** [initProcess.start] *)
Definition start (fuel : nat) (p : initProcess) : IO K started :=
  defer (sys (unix.Close (p_parentSock p)))
    (r ← try_ (sys unix.StartCmd);
     _ ← ignore (sys (unix.Close (p_childSock p)));
     _ ← ignore (sys (unix.Close (p_childLog p)));
     match r with
     | Err err => throw (ErrWrap "unable to start init" err)
     | Ok pid => run_bootstrap fuel p pid
     end).

(** ** setnsProcess *)

Definition setns_wait (pid : Z) : IO K unit := sys (unix.WaitCmd pid).
Definition setns_terminate (pid : Z) : IO K unit :=
  err ← try_ (sys (unix.KillProcess pid));
  werr ← try_ (setns_wait pid);
  lift (match err with Ok _ => werr | Err _ => err end).
Definition setns_cleanup (oom pid : Z) (waited : bool) (err : error) : IO K error :=
  newOom ← try_ (sys unix.OOMKillCount);
  let err := match newOom with Ok n => if n =? oom then err else ErrWrap "%w (possibly OOM-killed)" err | Err _ => err end in
  _ ← (if waited then mret tt else ignore waitInit);
  _ ← ignore (setns_terminate pid);
  mret err.

Definition execSetns (pid : Z) : IO K Z :=
  r ← try_ (sys (unix.WaitProcess pid));
  match r with
  | Err err => _ ← ignore (sys (unix.WaitCmd pid)); throw (ErrWrap "error waiting on setns process to finish" err)
  | Ok success =>
      if negb success then _ ← ignore (sys (unix.WaitCmd pid)); throw ExitError else
      r ← try_ (sys unix.RecvPid);
      match r with
      | Err err => _ ← ignore (sys (unix.WaitCmd pid)); throw (ErrWrap "error reading pid from init pipe" err)
      | Ok pids => _ ← ignore (sys (unix.WaitProcess pids.2)); mret pids.1
      end
  end.

(** The cgroup of the init process is the second choice on cgroup v2. *)
Definition join_init_cgroup (p : setnsProcess) (pid : Z) (err : error) : IO K unit :=
  unified ← sys unix.IsCgroup2UnifiedMode;
  if unified && negb (ns_initProcessPid p =? 0) then
    initCg ← try_ (sys (unix.ProcCgroups (ns_initProcessPid p)));
    match initCg with
    | Ok cgroups => match cgroups !! "" with
                    | Some path => sys (unix.WriteCgroupProc (Join [fs2.UnifiedMountpoint; path]) pid)
                    | None => throw err
                    end
    | Err _ => throw err
    end
  else throw err.
Definition join_cgroup (p : setnsProcess) (pid : Z) (path : string) : IO K unit :=
  r ← try_ (sys (unix.WriteCgroupProc path pid));
  match r with
  | Ok _ => mret tt
  | Err err => if ns_rootlessCgroups p then mret tt
               else wrapping "error adding pid %d to cgroups" (join_init_cgroup p pid err)
  end.
Definition join_rdt (p : setnsProcess) (pid : Z) : IO K unit :=
  if bool_decide (ns_intelRdtPath p = "") then mret tt else
  r ← try_ (sys (unix.Stat (ns_intelRdtPath p)));
  match r with
  | Ok _ => wrapping "error adding pid %d to Intel RDT" (sys (unix.WriteIntelRdtTasks (ns_intelRdtPath p) pid))
  | Err _ => mret tt
  end.

Definition running_state (p : setnsProcess) : unix.OCIState :=
  let ba := Annotations (configs.Labels (configs.base (Config (ns_conf p)))) in
  unix.mkOCIState (ContainerId (ns_conf p)) "running" (ns_initProcessPid p) ba.1 ba.2.
Definition setns_handle (p : setnsProcess) (pid : Z) (u : unit) (sync : string * Z) : IO K unit :=
  if bool_decide (sync.1 = procReady) then throw (panic "unexpected procReady in setns")
  else if bool_decide (sync.1 = procHooks) then throw (panic "unexpected procHooks in setns")
  else if bool_decide (sync.1 = procSeccomp) then handle_seccomp (ns_conf p) pid sync.2 (mret (running_state p))
  else throw (ErrNew "invalid JSON payload from child").

Definition setns_sync (fuel : nat) (p : setnsProcess) (pid : Z) : IO K unit :=
  _ ← for_each (join_cgroup p pid) (ns_cgroupPaths p);
  _ ← join_rdt p pid;
  _ ← wrapping "error setting rlimits for process" (setupRlimits (Rlimits (ns_conf p)) pid);
  _ ← wrapping "error writing config to pipe" (sys (unix.SendConfig (ns_conf p)));
  '(_, ierr) ← parseSync fuel (setns_handle p pid) tt;
  _ ← wrapping "shutdown" (sys unix.Shutdown);
  match ierr with Some e => _ ← ignore (setns_wait pid); throw e | None => mret tt end.
Definition setns_bootstrap (fuel : nat) (p : setnsProcess) (oom pid : Z) : IO K Z :=
  _ ← on_failure (setns_cleanup oom pid false)
        (if ns_bootstrap p then wrapping "error copying bootstrap data to pipe" (sys unix.CopyBootstrap) else mret tt);
  childPid ← on_failure (setns_cleanup oom pid true) (_ ← waitInit; wrapping "error executing setns process" (execSetns pid));
  _ ← on_failure (setns_cleanup oom childPid true) (setns_sync fuel p childPid);
  mret childPid.
(** [setnsProcess.start] *)
Definition setns_start (fuel : nat) (p : setnsProcess) : IO K Z :=
  defer (sys (unix.Close (ns_parentSock p)))
    (oom ← try_ (sys unix.OOMKillCount);
     r ← try_ (sys unix.StartCmd);
     _ ← ignore (sys (unix.Close (ns_childSock p)));
     _ ← ignore (sys (unix.Close (ns_childLog p)));
     match r with
     | Err err => throw (ErrWrap "error starting setns process" err)
     | Ok pid => setns_bootstrap fuel p (match oom with Ok n => n | Err _ => 0 end) pid
     end).

(** ** Pipes for the standard descriptors: Process.InitializeIO *)

(** The ends of the process, and the ends of the caller. *)
Record stdio := mkStdio { Stdin : Z; Stdout : Z; Stderr : Z; i_Stdin : Z; i_Stdout : Z; i_Stderr : Z }.
Definition close_on_error {A} (fds : list Z) (m : IO K A) : IO K A :=
  r ← try_ m;
  match r with
  | Ok a => mret a
  | Err e => _ ← for_each (fun fd => ignore (sys (unix.Close fd))) fds; throw e
  end.
Definition InitializeIO (rootuid rootgid : Z) : IO K stdio :=
  '(r0, w0) ← sys unix.Pipe;
  '(r1, w1) ← close_on_error [r0; w0] (sys unix.Pipe);
  '(r2, w2) ← close_on_error [r0; w0; r1; w1] (sys unix.Pipe);
  let fds := [r0; w0; r1; w1; r2; w2] in
  _ ← close_on_error fds (for_each (fun fd => wrapping "fchown" (sys (unix.Fchown fd rootuid rootgid))) fds);
  mret (mkStdio r0 w1 w2 w0 r1 r2).
End process.
End process.
