(* ===== verification/ParentProcessThms.v ===== *)
(** * Theorems on the parent of a container process *)

From S2P Require Import Prelude GoAct GoStrings GoPath GoFs Devices Configs Validator UserDb Seccomp SpecTypes SpecConv CgroupFiles InitSys RootfsSetup ContainerInit RootfsSetupThms ContainerInitThms ParentProcess.

Open Scope string_scope.
Open Scope list_scope.
#[local] Open Scope Z_scope.

Import libcontainer init process.

(** ** Rules for values, clean-ups and the loop *)

Section rules.
Context {K : Type} `{Kernel K}.

(** A successful action leaves a trace that tells about its value. *)
Definition yields {A} (m : IO K A) (Q : A -> trace -> Prop) : Prop :=
  forall t, wp m (fun r t' => match r with Ok a => Q a t' | Err _ => True end) t.
Lemma yields_sys {A} (c : unix.call A) : yields (sys c) (fun a t => Event c (Ok a) ∈ t).
Proof. intros t. apply wp_sys. intros [a|e]; [by left|done]. Qed.
Lemma yields_wrapping {A} (s : string) (m : IO K A) (Q : A -> trace -> Prop) : yields m Q -> yields (wrapping s m) Q.
Proof. intros Hm t. apply wp_wrapping. eapply wp_mono; [apply Hm|]. by intros [a|e]. Qed.
Lemma yields_first {A B} (m : IO K A) (k : A -> IO K B) (V : A -> B -> Prop) (Q : A -> trace -> Prop) (R : B -> trace -> Prop)
  `{!forall a, Upward (Q a)} :
  yields m Q -> (forall a, grows (k a)) -> (forall a t, wp (k a) (fun r _ => match r with Ok b => V a b | Err _ => True end) t) ->
  (forall a b t, V a b -> Q a t -> R b t) -> yields (m ≫= k) R.
Proof.
  intros Hm Hg Hv HR t. apply wp_bind. eapply wp_mono; [apply Hm|]. intros [a|e] t' HQ; [|done].
  eapply wp_mono; [apply wp_and; [apply Hg|apply Hv]|]. intros [b|e] t'' [He Hb]; [|done]. apply (HR a); [done|].
  by eapply upward_extends.
Qed.
Lemma guarded_yields {A B} (P : trace -> event -> Prop) (Pre : trace -> Prop) (Q : A -> trace -> Prop) `{!Upward Pre} (m : IO K A) (k : A -> IO K B) :
  yields m Q -> guarded P Pre m -> (forall a, guarded P (fun t => Pre t /\ Q a t) (k a)) -> guarded P Pre (m ≫= k).
Proof.
  intros Hy Hm Hk t Ht. apply wp_bind. eapply wp_mono; [apply wp_and; [by apply Hm|apply Hy]|]. intros [a|e] t' [He HQ]; [|done].
  apply extends_wp; [done|]. apply Hk. split; [by eapply upward_extends|done].
Qed.
(** The first of two actions under the same condition. *)
Lemma guarded_bind {A B} (P : trace -> event -> Prop) (Pre : trace -> Prop) `{!Upward Pre} (m : IO K A) (k : A -> IO K B) :
  guarded P Pre m -> (forall a, guarded P Pre (k a)) -> guarded P Pre (m ≫= k).
Proof.
  intros Hm Hk. apply (guarded_yields P Pre (fun _ _ => True)); [|done|].
  - intros t w _. by destruct (m w).2.
  - intros a. eapply guarded_weaken; [|apply Hk]. by intros t [? _].
Qed.
Lemma guarded_defer {A} (P : trace -> event -> Prop) (Pre : trace -> Prop) (f : IO K unit) (m : IO K A) :
  follows P f -> guarded P Pre m -> guarded P Pre (defer f m).
Proof.
  intros Hf Hm t Ht. apply wp_defer. eapply wp_mono; [by apply Hm|]. intros r t' He. apply extends_wp; [done|]. apply Hf.
Qed.
Lemma guarded_try {A} (P : trace -> event -> Prop) (Pre : trace -> Prop) (m : IO K A) : guarded P Pre m -> guarded P Pre (try_ m).
Proof. intros Hm t Ht. by apply wp_try, Hm. Qed.
Lemma guarded_on_failure {A} (P : trace -> event -> Prop) (Pre : trace -> Prop) `{!Upward Pre} (clean : error -> IO K error) (m : IO K A) :
  (forall e, guarded P Pre (clean e)) -> guarded P Pre m -> guarded P Pre (on_failure clean m).
Proof.
  intros Hc Hm t Ht. apply wp_bind, wp_try. eapply wp_mono; [by apply Hm|]. intros [a|e] t' He; [by apply wp_ret|].
  destruct (is_panic e); [by apply wp_throw|]. apply extends_wp; [done|]. apply wp_bind.
  eapply wp_mono; [apply (Hc e); by eapply upward_extends|]. intros [e'|e'] t'' He'; [by apply wp_throw|done].
Qed.
Lemma yields_on_failure {A} (clean : error -> IO K error) (m : IO K A) (Q : A -> trace -> Prop) : yields m Q -> yields (on_failure clean m) Q.
Proof.
  intros Hm t. apply wp_bind, wp_try. eapply wp_mono; [apply Hm|]. intros [a|e] t' HQ; [by apply wp_ret|].
  destruct (is_panic e); [by apply wp_throw|]. apply wp_bind. intros w _. by destruct (clean e w) as [w' [e'|e']].
Qed.
(** The loop obeys what the handler obeys. *)
Lemma guarded_parseSync {S} (P : trace -> event -> Prop) (Pre : trace -> Prop) `{!Upward Pre} (fn : S -> string * Z -> IO K S) (fuel : nat) (s : S) :
  follows P (sys unix.RecvMsg : IO K _) -> follows P (sys unix.RecvInitError : IO K _) ->
  (forall s sync, guarded P Pre (fn s sync)) -> guarded P Pre (parseSync fuel fn s).
Proof.
  intros Hr Hi Hf. revert s. induction fuel as [|fuel IH]; intros s; cbn [parseSync]; [apply guarded_follows, follows_throw|].
  apply guarded_bind; [apply _|by apply guarded_follows, follows_try|]. intros [sync|e]; [|apply guarded_follows, follows_ret].
  case_bool_decide.
  - apply guarded_follows, follows_bind; [by apply follows_try|]. intros [[m|]|e]; [apply follows_ret|apply follows_throw|].
    destruct (errors_is e EOF); [apply follows_throw|apply follows_ret].
  - apply guarded_bind; [apply _|by apply guarded_try|]. intros [s'|e]; [apply IH|]. apply guarded_follows.
    destruct (is_panic e); [apply follows_throw|apply follows_ret].
Qed.
(** What the handler keeps true of its state holds when the loop ends. *)
Lemma parseSync_keeps {S} (fn : S -> string * Z -> IO K S) (Inv : S -> trace -> Prop) `{!forall s, Upward (Inv s)} (fuel : nat) :
  (forall s sync, grows (fn s sync)) ->
  (forall s sync t, Inv s t -> wp (fn s sync) (fun r t' => match r with Ok s' => Inv s' t' | Err _ => True end) t) ->
  forall s t, Inv s t -> wp (parseSync fuel fn s) (fun r t' => match r with Ok si => Inv si.1 t' | Err _ => True end) t.
Proof.
  intros Hg Hf. induction fuel as [|fuel IH]; intros s t Ht; cbn [parseSync]; [by apply wp_throw|].
  apply wp_bind, wp_try, wp_sys. intros [sync|e]; [|apply wp_ret; by apply upward]. case_bool_decide.
  - apply wp_bind, wp_try, wp_sys. intros [[m|]|e]; [apply wp_ret; by do 2 apply upward|by apply wp_throw|].
    destruct (errors_is e EOF); [by apply wp_throw|apply wp_ret; by do 2 apply upward].
  - apply wp_bind, wp_try. eapply wp_mono; [apply wp_and; [apply (follows_elim_wp any_call), Hg|apply (Hf s); by apply upward]|].
    intros [s'|e] t' [Hx Hi]; [by apply IH|]. destruct (is_panic e); [by apply wp_throw|]. apply wp_ret. cbn.
    eapply upward_extends; [apply _|exact Hx|by apply upward].
Qed.

End rules.

(** ** The order of things *)

Section order.
Context {K : Type} `{Kernel K} (p : initProcess).

(** The limits of the container and its early hooks. *)
Definition limits_set (t : trace) : Prop :=
  Event (unix.ManagerSet (configs.cg_Resources (configs.Cgroups (Config (p_config p))))) (Ok tt) ∈ t /\
  (p_hasRdt p = true -> Event unix.RdtSet (Ok tt) ∈ t).
Definition hooks_run (name : string) (t : trace) : Prop :=
  forall h, h ∈ default [] (configs.Hooks_ (Config (p_config p)) !! name) -> Event (unix.Hook name h) (Ok tt) ∈ t.
Definition resume_done (t : trace) : Prop := limits_set t /\ hooks_run "prestart" t /\ hooks_run "createRuntime" t.
(** The limits of the process are set and its state is stored, with the limits of the container if they are set here. *)
Definition run_done (pid : Z) (t : trace) : Prop :=
  (forall rl, rl ∈ Rlimits (p_config p) -> Event (unix.Prlimit pid (unix.rl_Type rl) (unix.Soft rl) (unix.Hard rl)) (Ok tt) ∈ t) /\
  (exists time, Event (unix.StoreState pid) (Ok time) ∈ t) /\
  (Contains (namespaces_of (Config (p_config p))) NEWNS = false -> resume_done t).
#[export] Instance limits_upward : Upward limits_set.
Proof. unfold limits_set. apply _. Qed.
#[export] Instance hooks_upward (name : string) : Upward (hooks_run name).
Proof. unfold hooks_run. apply _. Qed.
#[export] Instance resume_upward : Upward resume_done.
Proof. unfold resume_done. apply _. Qed.
#[export] Instance run_upward (pid : Z) : Upward (run_done pid).
Proof. unfold run_done. apply _. Qed.

(** *** What the handlers achieve *)

Ltac later := apply achieves_then; intros ?.
Ltac now_done := apply achieves_sys; intros ? []; by left.

Lemma set_limits_sets (what : string) : achieves (set_limits p what : IO K unit) limits_set.
Proof.
  unfold set_limits, limits_set. apply achieves_and.
  - apply achieves_first; [apply _|apply achieves_wrapping; now_done|]. intros _. solve_grows.
  - later. destruct (p_hasRdt p); [|apply achieves_ret; done]. apply achieves_wrapping, achieves_sys. intros t [] _. by left.
Qed.
Lemma RunHooks_runs (name : string) : achieves (RunHooks name (configs.Hooks_ (Config (p_config p))) : IO K unit) (hooks_run name).
Proof.
  unfold RunHooks, hooks_run. apply (achieves_for_each _ _ (fun h t => Event (unix.Hook name h) (Ok tt) ∈ t)); [solve_grows|].
  intros h. apply achieves_wrapping. now_done.
Qed.
Lemma run_hooks_runs : achieves (run_hooks p : IO K unit) (fun t => hooks_run "prestart" t /\ hooks_run "createRuntime" t).
Proof.
  unfold run_hooks. cbv zeta. case_bool_decide as E.
  - apply achieves_ret. intros t. unfold hooks_run. rewrite E. split; intros h Hh; by apply elem_of_nil in Hh.
  - later. apply achieves_and.
    + apply achieves_first; [apply _|apply RunHooks_runs|]. intros _. solve_grows.
    + later. apply RunHooks_runs.
Qed.
(** Limits first, then hooks, as both handlers do it. *)
Lemma resume_achieved (what : string) : achieves (_ ← set_limits p what; run_hooks p : IO K unit) resume_done.
Proof.
  unfold resume_done. apply achieves_and; [|later; apply run_hooks_runs].
  apply achieves_first; [apply _|apply set_limits_sets|]. intros _. solve_grows.
Qed.
Lemma setupRlimits_sets (limits : list unix.Rlimit) (pid : Z) : achieves (setupRlimits limits pid : IO K unit)
  (fun t => forall rl, rl ∈ limits -> Event (unix.Prlimit pid (unix.rl_Type rl) (unix.Soft rl) (unix.Hard rl)) (Ok tt) ∈ t).
Proof.
  unfold setupRlimits.
  apply (achieves_for_each _ _ (fun rl t => Event (unix.Prlimit pid (unix.rl_Type rl) (unix.Soft rl) (unix.Hard rl)) (Ok tt) ∈ t)); [solve_grows|].
  intros rl. apply achieves_wrapping. now_done.
Qed.

Lemma handle_hooks_done : achieves (handle_hooks p : IO K unit) resume_done.
Proof.
  unfold handle_hooks, resume_done. apply achieves_and.
  - apply achieves_first; [apply _|apply set_limits_sets|]. intros _. solve_grows.
  - later. apply achieves_first; [apply _|apply run_hooks_runs|]. intros _. solve_grows.
Qed.
Lemma handle_ready_done (pid : Z) : achieves (handle_ready p pid : IO K unit) (run_done pid).
Proof.
  unfold handle_ready, run_done. apply achieves_and; [|apply achieves_and].
  - apply achieves_first; [apply _|apply achieves_wrapping, setupRlimits_sets|]. intros _. solve_grows.
  - do 2 later. apply (achieves_try _ _ (fun r t => match r with Ok time => Event (unix.StoreState pid) (Ok time) ∈ t | Err _ => True end)).
    + intros t. apply wp_sys. intros [time|e]; [by left|done].
    + intros [time|e] t Hs; [|by intros w _]. apply wp_bind, wp_ret. eapply wp_mono; [apply (follows_elim_wp any_call); solve_grows|].
      intros [[]|e] t' He; [|done]. exists time. by eapply extends_in.
  - later. apply achieves_first; [apply _| |intros _; solve_grows]. destruct (Contains _ _); [by apply achieves_ret|].
    eapply achieves_weaken; [|apply resume_achieved]. done.
Qed.

(** *** The rule *)

(** A process that was started: the bootstrap, or the one it made. *)
Definition owned (pid : Z) (t : trace) : Prop :=
  Event unix.StartCmd (Ok pid) ∈ t \/ exists first, Event unix.RecvPid (Ok (pid, first)) ∈ t.
(** The bootstrap is fed once it is in its cgroup; the configuration is sent once the bootstrap is gone; the child is told to
    resume when limits and hooks are done, and to run when the rest is.  Only processes that were started here are killed, and
    the cgroup is destroyed when its process was killed and waited for. *)
Definition start_order (t : trace) (ev : event) : Prop :=
  match ev_call ev with
  | unix.CopyBootstrap => exists pid, Event unix.StartCmd (Ok pid) ∈ t /\ Event (unix.ManagerApply pid) (Ok tt) ∈ t /\
                            (p_hasRdt p = true -> Event (unix.RdtApply pid) (Ok tt) ∈ t)
  | unix.SendConfig _ => exists pid, Event unix.StartCmd (Ok pid) ∈ t /\ Event (unix.WaitProcess pid) (Ok true) ∈ t
  | unix.SendSync type _ =>
      (type = procResume -> resume_done t) /\
      (type = procRun -> exists pid first, Event unix.RecvPid (Ok (pid, first)) ∈ t /\ run_done pid t)
  | unix.KillProcess pid => owned pid t
  | unix.ManagerDestroy => exists pid rk rw, Event (unix.KillProcess pid) rk ∈ t /\ Event (unix.WaitCmd pid) rw ∈ t
  | _ => True
  end.
Ltac in_order := follow_all ltac:(first [exact I | by split]).

Definition known (pid0 pid : Z) (t : trace) : Prop :=
  (Event unix.StartCmd (Ok pid0) ∈ t /\ Event (unix.WaitProcess pid0) (Ok true) ∈ t) /\ (exists first, Event unix.RecvPid (Ok (pid, first)) ∈ t).

#[local] Instance known_upward (pid0 pid : Z) : Upward (known pid0 pid).
Proof. unfold known. apply _. Qed.

Lemma handle_seccomp_order (c : initConfig) (pid fd : Z) (state : IO K unix.OCIState) :
  follows start_order state -> follows start_order (handle_seccomp c pid fd state : IO K unit).
Proof. intros Hs. in_order; exact Hs. Qed.
Lemma sys_RecvMsg_order : follows start_order (sys unix.RecvMsg : IO K _).
Proof. in_order. Qed.
Lemma handle_order (pid0 pid : Z) (f : flags) (sync : string * Z) : guarded start_order (known pid0 pid) (handle p pid f sync : IO K flags).
Proof.
  unfold handle. case_bool_decide; [|case_bool_decide; [|case_bool_decide; [|apply guarded_follows, follows_throw]]];
    (apply guarded_bind; [apply _| |intros _; apply guarded_follows, follows_ret]).
  - apply guarded_follows, handle_seccomp_order. in_order.
  - unfold handle_ready. eapply guarded_step; [apply _|apply achieves_wrapping, setupRlimits_sets|in_order|]. intros _.
    apply (guarded_step _ _ (fun t => Contains (namespaces_of (Config (p_config p))) NEWNS = false -> resume_done t)); [|in_order|].
    { destruct (Contains _ _); [apply achieves_ret; done|]. eapply achieves_weaken; [|apply resume_achieved]. done. }
    intros _. eapply guarded_yields with (Q := fun r t => match r with Ok time => Event (unix.StoreState pid) (Ok time) ∈ t | Err _ => True end); [apply _| | |].
    + intros t. apply wp_try, wp_sys. intros [time|e]; [by left|done].
    + apply guarded_follows. in_order.
    + intros [time|e].
      * apply guarded_skip; [apply _|in_order|]. intros _. unfold writeSync, writeSyncWithFd. apply guarded_wrapping, guarded_sys.
        intros t r ((((_ & first & Hf) & Hr) & Hl) & Hs). split; [done|]. intros _. exists pid, first. split; [done|].
        split; [done|split; [by exists time|done]].
      * apply guarded_follows. intros t w <-. constructor.
  - unfold handle_hooks. eapply guarded_step; [apply _|apply set_limits_sets|in_order|]. intros _.
    eapply guarded_step; [apply _|apply run_hooks_runs|in_order|]. intros _. unfold writeSync, writeSyncWithFd. apply guarded_wrapping, guarded_sys.
    intros t r ((_ & Hl) & Hh). split; [|done]. intros _. by split.
Qed.

(** *** The phases *)

Lemma getChildPid_yields (pid : Z) : yields (getChildPid pid : IO K Z) (fun child t => exists first, Event unix.RecvPid (Ok (child, first)) ∈ t).
Proof.
  intros t. unfold getChildPid. apply wp_bind, wp_try, wp_sys. intros [[child first]|e].
  - apply wp_bind, wp_ignore. apply wp_sys. intros r. apply wp_ret. exists first. right. by left.
  - apply wp_bind, wp_ignore, wp_sys. intros r. by apply wp_throw.
Qed.
Lemma wait_first_waits (pid : Z) : achieves (wait_first pid : IO K unit) (fun t => Event (unix.WaitProcess pid) (Ok true) ∈ t).
Proof.
  intros t. unfold wait_first. apply wp_bind, wp_try, wp_sys. intros [[]|e].
  - apply wp_ret. by left.
  - apply wp_bind, wp_ignore, wp_sys. intros r. by apply wp_throw.
  - apply wp_bind, wp_ignore, wp_sys. intros r. by apply wp_throw.
Qed.
Lemma child_phase_yields (pid : Z) : yields (child_phase pid : IO K started) (fun st t =>
  Event (unix.WaitProcess pid) (Ok true) ∈ t /\ exists first, Event unix.RecvPid (Ok (st_pid st, first)) ∈ t).
Proof.
  intros t. unfold child_phase. apply wp_bind. eapply wp_mono; [apply (yields_wrapping _ _ _ (getChildPid_yields pid))|].
  intros [child|e] t1 Hc; [|done]. apply wp_bind. eapply wp_mono; [apply (follows_elim_wp any_call); solve_grows|].
  intros [fds|e] t2 H2; [|done]. apply wp_bind.
  eapply wp_mono; [apply wp_and; [apply (follows_elim_wp any_call); solve_grows|apply achieves_wrapping, wait_first_waits]|].
  intros [[]|e] t3 [H3 Hw]; [|done]. apply wp_ret. split; [done|]. destruct Hc as [first Hc]. exists first.
  by eapply extends_in, extends_in.
Qed.

Lemma sync_phase_order (fuel : nat) (pid0 pid : Z) : guarded start_order (known pid0 pid) (sync_phase fuel p pid : IO K unit).
Proof.
  unfold sync_phase. apply guarded_skip; [apply _|in_order|]. intros networks. apply guarded_skip; [apply _|in_order|]. intros s.
  apply guarded_bind; [apply _| |].
  { apply guarded_wrapping, guarded_sys. intros t r [Hk _]. by exists pid0. }
  intros _. apply guarded_bind; [apply _| |intros [f ierr]; apply guarded_follows; in_order].
  apply guarded_parseSync; [apply _|in_order|in_order|]. intros f sync. apply handle_order.
Qed.
Lemma apply_phase_order (pid : Z) : guarded start_order (fun t => Event unix.StartCmd (Ok pid) ∈ t) (apply_phase p pid : IO K unit).
Proof.
  unfold apply_phase. apply (guarded_step _ _ (fun t => Event (unix.ManagerApply pid) (Ok tt) ∈ t)); [apply achieves_wrapping; now_done|in_order|].
  intros _. apply (guarded_step _ _ (fun t => p_hasRdt p = true -> Event (unix.RdtApply pid) (Ok tt) ∈ t)); [|in_order|].
  { destruct (p_hasRdt p); [|by apply achieves_ret]. apply achieves_wrapping, achieves_sys. intros t [] _. by left. }
  intros _. apply guarded_wrapping, guarded_sys. intros t r ((? & ?) & ?). by exists pid.
Qed.
#[local] Instance owned_upward (pid : Z) : Upward (owned pid).
Proof. unfold owned. apply _. Qed.
(** The process was killed and waited for, whatever came of it. *)
Definition terminated (pid : Z) (t : trace) : Prop :=
  exists rk rw, Event (unix.KillProcess pid) rk ∈ t /\ Event (unix.WaitCmd pid) rw ∈ t.
#[local] Instance terminated_upward (pid : Z) : Upward (terminated pid).
Proof. unfold terminated. apply _. Qed.
Lemma terminate_terminates (pid : Z) : achieves (ignore (terminate p pid) : IO K unit) (terminated pid).
Proof.
  intros t. apply wp_ignore. unfold terminate, wait. apply wp_bind, wp_try, wp_sys. intros rk. apply wp_bind, wp_try, wp_bind, wp_try, wp_sys.
  intros rw. apply wp_bind. eapply wp_mono; [apply (follows_elim_wp any_call); solve_grows|].
  assert (terminated pid (Event (unix.WaitCmd pid) rw :: Event (unix.KillProcess pid) rk :: t)) as Ht.
  { exists rk, rw. split; [by right; left|by left]. }
  intros [[]|e] t' He; pose proof (upward_extends (terminated pid) _ _ _ He Ht) as Ht'; [|by apply wp_lift].
  apply wp_lift. by apply wp_lift.
Qed.
Lemma cleanup_order (pid : Z) (waited : bool) (e : error) : guarded start_order (owned pid) (cleanup p pid waited e : IO K error).
Proof.
  unfold cleanup. apply guarded_skip; [apply _|in_order|]. intros oom. apply guarded_skip; [apply _|in_order|]. intros _.
  apply (guarded_yields _ _ (fun _ => terminated pid)); [apply terminate_terminates| |].
  { unfold ignore, terminate. apply guarded_bind; [apply _| |intros r; apply guarded_follows; in_order]. apply guarded_try.
    apply guarded_bind; [apply _|by apply guarded_try, guarded_sys|]. intros r. apply guarded_follows. in_order. }
  intros _. apply guarded_bind; [apply _| |intros _; apply guarded_follows; in_order].
  unfold ignore. apply guarded_bind; [apply _| |intros r; apply guarded_follows; in_order]. apply guarded_try, guarded_sys.
  intros t r [_ (rk & rw & Hk)]. by exists pid, rk, rw.
Qed.

Lemma start_guarded (fuel : nat) : guarded start_order (fun _ => True) (start fuel p : IO K started).
Proof.
  unfold start. apply guarded_defer; [in_order|].
  eapply guarded_yields with (Q := fun r t => match r with Ok pid => Event unix.StartCmd (Ok pid) ∈ t | Err _ => True end); [apply _| | |].
  { intros t. apply wp_try, wp_sys. intros [pid|e]; [by left|done]. }
  { apply guarded_follows. in_order. }
  intros r. destruct r as [pid|e]; [|apply guarded_follows; in_order].
  eapply (guarded_weaken _ _ (fun t => Event unix.StartCmd (Ok pid) ∈ t)); [tauto|].
  do 2 (apply guarded_skip; [apply _|in_order|]; intros _). unfold run_bootstrap.
  assert (forall waited e, guarded start_order (fun t => Event unix.StartCmd (Ok pid) ∈ t) (cleanup p pid waited e : IO K error)) as Hc.
  { intros waited e. eapply guarded_weaken; [|apply cleanup_order]. by left. }
  apply guarded_bind; [apply _|apply guarded_on_failure; [apply _|done|apply apply_phase_order]|].
  intros _. eapply guarded_yields; [apply _| | |].
  - apply yields_on_failure. intros t. apply wp_bind. eapply wp_mono with (P := fun _ _ => True); [by intros w _|]. intros [[]|e] t' _; [|done].
    apply child_phase_yields.
  - apply guarded_on_failure; [apply _|done|]. apply guarded_follows. in_order.
  - intros st. cbn beta. apply guarded_bind; [apply _| |intros _; apply guarded_follows, follows_ret].
    apply guarded_on_failure; [apply _| |].
    + intros e. eapply guarded_weaken; [|apply cleanup_order]. intros t (_ & _ & Hf). by right.
    + eapply guarded_weaken; [|apply (sync_phase_order fuel pid)]. intros t (Hs & Hw & Hf). by split.
Qed.

(** *** How it ends *)

(** The process behind the command, read off the calls: the bootstrap from its start on, the init process once the
    bootstrap has sent its pid, the process in between has been waited for and the bootstrap has exited well. *)
Inductive command := NotStarted | Boot (pid : Z) | Told (pid child : Z) | Reaped (pid child : Z) | InitProcess (child : Z).
Definition command_step (ev : event) (s : command) : command :=
  match ev with
  | Event c r =>
      match c in unix.call A return result A -> command with
      | unix.StartCmd => fun r => match r with Ok pid => Boot pid | Err _ => s end
      | unix.RecvPid => fun r => match s, r with Boot pid, Ok pids => Told pid pids.1 | _, _ => s end
      | unix.WaitProcess x => fun r =>
          match s, r with
          | Told pid child, _ => Reaped pid child
          | Reaped pid child, Ok true => if bool_decide (x = pid) then InitProcess child else s
          | _, _ => s
          end
      | _ => fun _ => s
      end r
  end.
Definition command_of (t : trace) : command := foldr command_step NotStarted t.
Definition current (t : trace) : option Z :=
  match command_of t with NotStarted => None | Boot pid | Told pid _ | Reaped pid _ => Some pid | InitProcess child => Some child end.

Definition changes {A} (c : unix.call A) : bool := match c with unix.StartCmd | unix.RecvPid | unix.WaitProcess _ => true | _ => false end.
Definition quiet (_ : trace) (ev : event) : Prop := changes (ev_call ev) = false.
Ltac be_quiet := follow_all ltac:(exact eq_refl).

Lemma quiet_command (t t' : trace) : extends quiet t t' -> command_of t' = command_of t.
Proof.
  induction 1 as [|[A c r] t' _ IH Hev]; [done|]. rewrite <- IH. unfold quiet in Hev. cbn in Hev.
  unfold command_of. cbn [foldr]. by destruct c.
Qed.
Lemma quiet_current (t t' : trace) : extends quiet t t' -> current t' = current t.
Proof. intros He. unfold current. by rewrite (quiet_command t t' He). Qed.

(** [pid] was killed while it was the process of the command, and then waited for. *)
Definition killed (pid : Z) (t : trace) : Prop :=
  exists t1 t2 rk rw, t = t1 ++ Event (unix.KillProcess pid) rk :: t2 /\ current t2 = Some pid /\ Event (unix.WaitCmd pid) rw ∈ t1.
#[local] Instance killed_upward (pid : Z) : Upward (killed pid).
Proof. intros t ev (t1 & t2 & rk & rw & -> & Hc & Hw). exists (ev :: t1), t2, rk, rw. split; [done|]. split; [done|]. by right. Qed.

(** The command did not start, or the process it then had was killed, waited for, and its cgroup destroyed. *)
Definition cleaned_up (t : trace) : Prop :=
  (exists e, Event unix.StartCmd (Err e) ∈ t) \/
  (exists pid, killed pid t /\ (exists r, Event unix.ManagerDestroy r ∈ t) /\ (p_hasRdt p = true -> exists r, Event unix.RdtDestroy r ∈ t)).
#[local] Instance cleaned_upward : Upward cleaned_up.
Proof. unfold cleaned_up. apply _. Qed.

Lemma terminate_kills (pid : Z) (t : trace) :
  current t = Some pid -> wp (ignore (terminate p pid) : IO K unit) (fun r t' => r = Ok tt /\ killed pid t') t.
Proof.
  intros Hc. apply wp_ignore. unfold terminate, wait. apply wp_bind, wp_try, wp_sys. intros rk. apply wp_bind, wp_try, wp_bind, wp_try, wp_sys.
  intros rw. apply wp_bind. eapply wp_mono; [apply (follows_elim_wp any_call); solve_grows|].
  assert (killed pid (Event (unix.WaitCmd pid) rw :: Event (unix.KillProcess pid) rk :: t)) as Ht.
  { exists [Event (unix.WaitCmd pid) rw], t, rk, rw. split; [done|]. split; [done|]. by left. }
  intros [[]|e] t' He; pose proof (upward_extends (killed pid) _ _ _ He Ht) as Ht'; [|by apply wp_lift].
  apply wp_lift. by apply wp_lift.
Qed.
Lemma cleanup_cleans (pid : Z) (waited : bool) (e : error) (t : trace) :
  current t = Some pid ->
  wp (cleanup p pid waited e : IO K error) (fun r t' => match r with Ok _ => cleaned_up t' | Err _ => False end) t.
Proof.
  intros Hc. unfold cleanup. apply wp_bind, wp_try, wp_sys. intros oom. apply wp_bind.
  eapply wp_mono with (P := fun r t' => r = Ok tt /\ extends quiet t t').
  { destruct waited; [apply wp_ret; split; [done|]; by apply extends_one|]. apply wp_ignore.
    eapply wp_mono; [apply (follows_elim_wp quiet); be_quiet|]. intros r t' He. split; [done|].
    eapply extends_trans; [|exact He]. by apply extends_one. }
  intros r t1 [-> He]. apply wp_bind. eapply wp_mono; [apply terminate_kills; by rewrite (quiet_current t)|].
  intros r t2 [-> Ht]. apply wp_bind, wp_ignore, wp_sys. intros rd. apply wp_bind.
  destruct (p_hasRdt p) eqn:Er; [apply wp_ignore, wp_sys; intros rr|apply wp_ret]; apply wp_ret; right; exists pid.
  - split; [by do 2 apply upward|]. split; [exists rd; by right; left|]. intros _. exists rr. by left.
  - split; [by apply upward|]. split; [exists rd; by left|]. by rewrite Er.
Qed.

(** A phase of [start]: its errors leave the process of the command what the clean-up takes it for. *)
Lemma phase_cleans {A} (pid : Z) (waited : bool) (m : IO K A) (Q : A -> trace -> Prop) (t : trace) :
  wp m (fun r t' => match r with Ok a => Q a t' | Err _ => current t' = Some pid end) t ->
  wp (on_failure (cleanup p pid waited) m)
     (fun r t' => match r with Ok a => Q a t' | Err e => is_panic e = true \/ cleaned_up t' end) t.
Proof.
  intros Hm. apply wp_bind, wp_try. eapply wp_mono; [exact Hm|]. intros [a|e] t' HQ; [by apply wp_ret|].
  destruct (is_panic e) eqn:Ep; [apply wp_throw; by left|]. apply wp_bind. eapply wp_mono; [by apply cleanup_cleans|].
  intros [e'|e'] t'' HC; [|done]. apply wp_throw. by right.
Qed.
(** A phase that does not touch the process of the command. *)
Lemma quiet_phase {A} (pid : Z) (waited : bool) (m : IO K A) (t : trace) :
  follows quiet m -> current t = Some pid ->
  wp (on_failure (cleanup p pid waited) m)
     (fun r t' => match r with Ok a => command_of t' = command_of t | Err e => is_panic e = true \/ cleaned_up t' end) t.
Proof.
  intros Hq Hc. apply phase_cleans. eapply wp_mono; [apply (follows_elim_wp quiet), Hq|]. intros [a|e] t' He.
  - by apply quiet_command.
  - by rewrite (quiet_current t t' He).
Qed.

Lemma child_phase_hands_over (pid : Z) (t : trace) :
  command_of t = Boot pid ->
  wp (child_phase pid : IO K started)
     (fun r t' => match r with Ok st => command_of t' = InitProcess (st_pid st) | Err _ => current t' = Some pid end) t.
Proof.
  intros Hc. unfold child_phase, getChildPid. apply wp_bind, wp_wrapping, wp_bind, wp_try, wp_sys. intros [[child first]|e].
  - apply wp_bind, wp_ignore, wp_sys. intros rf. apply wp_ret. cbn [wrap_err fst snd].
    set (t1 := Event (unix.WaitProcess first) rf :: _).
    assert (command_of t1 = Reaped pid child) as Hc1 by (unfold t1, command_of in *; cbn; by rewrite Hc).
    apply wp_bind, wp_wrapping. eapply wp_mono; [apply (follows_elim_wp quiet); be_quiet|]. intros fds t2 He.
    rewrite <- (quiet_command t1 t2 He) in Hc1. destruct fds as [fds|e]; cbn [wrap_err]; [|unfold current; by rewrite Hc1].
    apply wp_bind, wp_wrapping. unfold wait_first. apply wp_bind, wp_try, wp_sys. intros [[]|e].
    + apply wp_ret. cbn [wrap_err]. apply wp_ret. cbn [st_pid]. unfold command_of in *. cbn. rewrite Hc1.
      by rewrite bool_decide_eq_true_2.
    + apply wp_bind, wp_ignore, wp_sys. intros rw. apply wp_throw. cbn [wrap_err]. unfold current, command_of in *. cbn. by rewrite Hc1.
    + apply wp_bind, wp_ignore, wp_sys. intros rw. apply wp_throw. cbn [wrap_err]. unfold current, command_of in *. cbn. by rewrite Hc1.
  - apply wp_bind, wp_ignore, wp_sys. intros rw. apply wp_throw. cbn [wrap_err]. unfold current, command_of in *. cbn. by rewrite Hc.
Qed.

Lemma sync_phase_quiet (fuel : nat) (pid : Z) : follows quiet (sync_phase fuel p pid : IO K unit).
Proof.
  unfold sync_phase. apply follows_bind; [be_quiet|]. intros networks. apply follows_bind; [be_quiet|]. intros s.
  apply follows_bind; [be_quiet|]. intros _. apply follows_bind; [|be_quiet].
  intros t. eapply (guarded_parseSync quiet (fun _ => True)); [be_quiet|be_quiet| |done].
  intros f sync. apply guarded_follows. be_quiet.
Qed.

Lemma run_bootstrap_cleans (fuel : nat) (pid : Z) (t : trace) :
  command_of t = Boot pid ->
  wp (run_bootstrap fuel p pid : IO K started)
     (fun r t' => match r with Ok st => current t' = Some (st_pid st) | Err e => is_panic e = true \/ cleaned_up t' end) t.
Proof.
  intros Hc. unfold run_bootstrap. apply wp_bind. eapply wp_mono; [apply quiet_phase; [be_quiet|unfold current; by rewrite Hc]|].
  intros [[]|e] t1 H1; [|done]. rewrite Hc in H1. apply wp_bind.
  eapply wp_mono; [apply (phase_cleans _ _ _ (fun st t' => command_of t' = InitProcess (st_pid st)))|].
  { apply wp_bind. eapply wp_mono; [apply (follows_elim_wp quiet); be_quiet|]. intros [[]|e] t2 He.
    - apply child_phase_hands_over. by rewrite (quiet_command t1 t2 He).
    - unfold current. by rewrite (quiet_command t1 t2 He), H1. }
  intros [st|e] t2 H2; [|done]. apply wp_bind.
  eapply wp_mono; [apply quiet_phase; [apply sync_phase_quiet|unfold current; by rewrite H2]|].
  intros [[]|e] t3 H3; [|done]. apply wp_ret. unfold current. by rewrite H3, H2.
Qed.

Lemma start_cleans (fuel : nat) :
  wp (start fuel p : IO K started)
     (fun r t' => match r with Ok st => current t' = Some (st_pid st) | Err e => is_panic e = true \/ cleaned_up t' end) [].
Proof.
  unfold start. apply wp_defer. apply wp_bind, wp_try, wp_sys. intros r.
  do 2 (apply wp_bind, wp_ignore, wp_sys; intros ?). destruct r as [pid|e].
  - eapply wp_mono; [by apply run_bootstrap_cleans|]. intros [st|e] t' HC; apply wp_sys; intros rc.
    + unfold current, command_of in *. cbn. exact HC.
    + destruct HC as [?|HC]; [by left|right; by apply upward].
  - apply wp_throw, wp_sys. intros rc. right. left. exists e. by do 3 right; left.
Qed.

(** The flags tell what was sent. *)
Definition told (f : flags) (t : trace) : Prop :=
  (sentRun f = true -> Event (unix.SendSync procRun (-1)) (Ok tt) ∈ t) /\
  (sentResume f = true -> Event (unix.SendSync procResume (-1)) (Ok tt) ∈ t).
#[local] Instance told_upward (f : flags) : Upward (told f).
Proof. unfold told. apply _. Qed.
Lemma writeSync_sends (type : string) : achieves (writeSync type : IO K unit) (fun t => Event (unix.SendSync type (-1)) (Ok tt) ∈ t).
Proof. apply achieves_wrapping. now_done. Qed.
Lemma handle_tells (pid : Z) (f : flags) (sync : string * Z) (t : trace) :
  told f t -> wp (handle p pid f sync : IO K flags) (fun r t' => match r with Ok f' => told f' t' | Err _ => True end) t.
Proof.
  intros Ht. unfold handle. case_bool_decide; [|case_bool_decide; [|case_bool_decide; [|by apply wp_throw]]]; apply wp_bind.
  - eapply wp_mono; [apply (follows_elim_wp any_call); solve_grows|]. intros [[]|e] t' He; [|done]. apply wp_ret. by apply (upward_extends (told f) any_call t).
  - eapply wp_mono; [apply wp_and; [apply (follows_elim_wp any_call); solve_grows|apply (achieves_weaken _ (fun t => Event (unix.SendSync procRun (-1)) (Ok tt) ∈ t)); [intros ? Hx; exact Hx|unfold handle_ready; do 4 later; apply writeSync_sends]]|].
    intros [[]|e] t' [He Hs]; [|done]. apply wp_ret. split; [done|]. by apply (upward_extends (told f) _ _ _ He).
  - eapply wp_mono; [apply wp_and; [apply (follows_elim_wp any_call); solve_grows|apply (achieves_weaken _ (fun t => Event (unix.SendSync procResume (-1)) (Ok tt) ∈ t)); [intros ? Hx; exact Hx|unfold handle_hooks; do 2 later; apply writeSync_sends]]|].
    intros [[]|e] t' [He Hs]; [|done]. apply wp_ret. split; [|done]. by apply (upward_extends (told f) _ _ _ He).
Qed.
(** The child was told to run, and to resume if it has a mount namespace, and the pipe was shut down. *)
Definition synchronised (t : trace) : Prop :=
  Event (unix.SendSync procRun (-1)) (Ok tt) ∈ t /\
  (Contains (namespaces_of (Config (p_config p))) NEWNS = true -> Event (unix.SendSync procResume (-1)) (Ok tt) ∈ t) /\
  Event unix.Shutdown (Ok tt) ∈ t.
#[local] Instance synchronised_upward : Upward synchronised.
Proof. unfold synchronised. apply _. Qed.
Lemma sync_phase_tells (fuel : nat) (pid : Z) : achieves (sync_phase fuel p pid : IO K unit) synchronised.
Proof.
  unfold sync_phase. do 3 later. intros t. apply wp_bind. eapply wp_mono.
  { apply (parseSync_keeps _ told fuel); [intros; solve_grows|intros; by apply handle_tells|by split]. }
  intros [[f ierr]|e] t' Ht; [|done]. cbn in Ht. unfold conclude. destruct (sentRun f) eqn:Er; [|by apply wp_throw]. cbn [negb].
  destruct (Contains _ _ && _) eqn:Ec; [by apply wp_throw|]. apply wp_bind, wp_wrapping, wp_sys. intros [[]|e]; [|done]. cbn [wrap_err].
  assert (synchronised (Event unix.Shutdown (Ok tt) :: t')) as Hs.
  { split; [right; by apply Ht|]. split; [|by left]. intros Hc. rewrite Hc in Ec. apply negb_false_iff in Ec. right. by apply Ht. }
  destruct ierr as [e|]; [|by apply wp_ret]. apply wp_bind, wp_ignore. intros w _. by apply wp_throw.
Qed.
Lemma start_tells (fuel : nat) : achieves (start fuel p : IO K started) synchronised.
Proof.
  unfold start. apply achieves_defer; [apply _|solve_grows|]. apply achieves_then. intros r. do 2 later. destruct r as [pid|e]; [|apply achieves_throw].
  unfold run_bootstrap. later. apply achieves_then. intros st. apply achieves_first; [apply _| |intros _; solve_grows].
  apply (yields_on_failure _ _ (fun _ => synchronised)). apply sync_phase_tells.
Qed.
End order.

(** C28. Starting a container keeps its order, whatever the kernel, the managers and the child do: the bootstrap gets its data only once
    it is in its cgroup, the configuration is sent only when the bootstrap has exited, the child is told to resume only when the
    limits are set and the early hooks have run, and to run only when its own limits are set and its state is stored. *)
Theorem start_in_order {K} `{Kernel K} (p : initProcess) (fuel : nat) (w : world K) :
  extends (start_order p) (calls w) (calls (start fuel p w).1).
Proof. by apply (start_guarded p fuel (calls w)). Qed.

(** C29. Starting a container succeeds or leaves nothing behind, whatever the kernel, the managers and the child do: on success the
    process object holds the pid of the process the command then has, the child was told to run, and before it to resume if it
    has a mount namespace; on an error, unless the command never started, the process the command had at that moment (the
    bootstrap, or the init process once the bootstrap has handed over and exited) was killed and waited for and the cgroups
    were destroyed.  Only a panic, which a child that breaks the protocol can cause, skips the clean-up. *)
Theorem start_all_or_nothing {K} `{Kernel K} (p : initProcess) (fuel : nat) (k : K) (mask : Z) :
  let '(w, r) := start fuel p (mkWorld k mask []) in
  match r with
  | Ok st => current (calls w) = Some (st_pid st) /\ synchronised p (calls w)
  | Err e => is_panic e = true \/ cleaned_up p (calls w)
  end.
Proof.
  pose proof (start_cleans p fuel (mkWorld k mask []) eq_refl) as Hc. pose proof (start_tells p fuel [] (mkWorld k mask []) eq_refl) as Ht.
  by destruct (start fuel p (mkWorld k mask [])) as [w [st|e]].
Qed.

(** ** Termination *)

Section ends.
Context {K : Type} `{Kernel K}.

(** Actions that do not answer that they are still running. *)
Definition calm {A} (m : IO K A) : Prop := forall w, (m w).2 <> Err ErrRunning.
Lemma calm_ret {A} (a : A) : calm (mret a).
Proof. by intros w. Qed.
Lemma calm_throw {A} (e : error) : e <> ErrRunning -> calm (throw e : IO K A).
Proof. intros He w. cbn. congruence. Qed.
Lemma calm_bind {A B} (m : IO K A) (k : A -> IO K B) : calm m -> (forall a, calm (k a)) -> calm (m ≫= k).
Proof. intros Hm Hk w. specialize (Hm w). unfold mbind, Act_bind. destruct (m w) as [w' [a|e]]; [apply Hk|cbn in *; congruence]. Qed.
Lemma calm_try {A} (m : IO K A) : calm (try_ m).
Proof. intros w. unfold try_. by destruct (m w). Qed.
Lemma calm_wrapping {A} (s : string) (m : IO K A) : s <> "panic" -> calm (wrapping s m).
Proof. intros Hs w. unfold wrapping. destruct (m w) as [w' [a|e]]; cbn; [done|]. unfold ErrRunning, panic. congruence. Qed.
Lemma calm_ignore {A} (m : IO K A) : calm (ignore m).
Proof. apply calm_bind; [apply calm_try|]. intros r. apply calm_ret. Qed.
Lemma calm_defer {A} (f : IO K unit) (m : IO K A) : calm m -> calm (defer f m).
Proof.
  intros Hm w. specialize (Hm w). unfold defer, ignore, lift, try_, mbind, Act_bind. destruct (m w) as [w' r]. cbn. by destruct (f w').
Qed.
Lemma calm_for_each {A} (f : A -> IO K unit) (l : list A) : (forall a, calm (f a)) -> calm (for_each f l).
Proof. intros Hf. induction l as [|a l IH]; cbn [for_each]; [apply calm_ret|]. by apply calm_bind. Qed.
Ltac calm_all :=
  repeat first
    [ progress intros
    | apply calm_ret | apply calm_try | apply calm_ignore | apply calm_throw; discriminate | apply calm_wrapping; discriminate
    | assumption | solve [eauto 2]
    | apply calm_defer | apply calm_bind | apply calm_for_each
    | match goal with |- calm (match ?x with _ => _ end) => destruct x end
    | match goal with |- calm (if ?x then _ else _) => destruct x end
    | progress cbv beta zeta
    | match goal with |- calm ?m => let h := head_of m in progress unfold h; cbv beta zeta end ].

(** The number of messages that are still to come.  Calls return errors; they do not panic. *)
Context (left : K -> nat).
Hypothesis receives : forall m k k' msg, answer m unix.RecvMsg k = (k', Ok msg) -> (left k' < left k)%nat.
Hypothesis no_more : forall A m (c : unix.call A) k, (left (answer m c k).1 <= left k)%nat.
Hypothesis returns : forall A m (c : unix.call A) k e, (answer m c k).2 = Err e -> is_panic e = false.

Lemma sys_calm {A} (c : unix.call A) : calm (sys c : IO K A).
Proof.
  intros w. unfold sys. pose proof (returns A (mask w) c (kernel w)) as Hr. destruct (answer (mask w) c (kernel w)) as [k r]. cbn in *.
  intros ->. by specialize (Hr _ eq_refl).
Qed.
Hint Resolve sys_calm : core.
Definition within (n : nat) (w : world K) : Prop := (left (kernel w) <= n)%nat.
Lemma sys_within (n : nat) {A} (c : unix.call A) : stable (within n) (sys c : IO K A).
Proof.
  intros w Hw. unfold sys. pose proof (no_more A (mask w) c (kernel w)) as Hn. destruct (answer (mask w) c (kernel w)) as [k r]. unfold within in *. cbn in *. lia.
Qed.
Ltac within_all := stable_all ltac:(apply sys_within).

Lemma handle_calm (p : initProcess) (pid : Z) (f : flags) (sync : string * Z) : calm (handle p pid f sync : IO K flags).
Proof. calm_all. Qed.
Lemma handle_within (n : nat) (p : initProcess) (pid : Z) (f : flags) (sync : string * Z) : stable (within n) (handle p pid f sync : IO K flags).
Proof. within_all. Qed.

(** Enough fuel for the loop: one more than there are messages. *)
Lemma parseSync_ends {S} (fn : S -> string * Z -> IO K S) :
  (forall n s sync, stable (within n) (fn s sync)) -> (forall s sync, calm (fn s sync)) ->
  forall a b s w, (left (kernel w) < a)%nat -> (left (kernel w) < b)%nat ->
  parseSync a fn s w = parseSync b fn s w /\
  match (parseSync a fn s w).2 with Ok (_, ierr) => ierr <> Some ErrRunning | Err e => e <> ErrRunning end.
Proof.
  intros Hs Hc. induction a as [|a IH]; intros b s w Ha Hb; [lia|]. destruct b as [|b]; [lia|]. cbn [parseSync].
  unfold mbind, Act_bind, try_. pose proof (sys_calm unix.RecvMsg w) as Hr. destruct (sys unix.RecvMsg w) as [w1 r] eqn:E. cbn in Hr.
  destruct r as [sync|e]; [|split; [done|]; cbn; destruct (errors_is e EOF); congruence].
  assert (left (kernel w1) < left (kernel w))%nat as Hl by (apply sys_ok in E as (k & E & ->); by eapply receives). case_bool_decide.
  - split; [done|]. pose proof (sys_calm unix.RecvInitError w1) as Hi.
    destruct (sys unix.RecvInitError w1) as [w2 [[m|]|e]]; cbn; [done|done|]. by destruct (errors_is e EOF).
  - specialize (Hs (left (kernel w1)) s sync w1 ltac:(unfold within; lia)). specialize (Hc s sync w1).
    destruct (fn s sync w1) as [w2 [s'|e]]; unfold within in Hs; cbn in Hs, Hc; [apply IH; lia|].
    split; [done|]. destruct (is_panic e); cbn; congruence.
Qed.

(** The result of [m] with enough fuel. *)
Definition settled {A} (m : nat -> IO K A) (w : world K) : Prop :=
  forall a b, (left (kernel w) < a)%nat -> (left (kernel w) < b)%nat -> m a w = m b w /\ (m a w).2 <> Err ErrRunning.
(** A part that takes no fuel comes first. *)
Lemma settled_bind {A B} (m : IO K A) (k : nat -> A -> IO K B) (w : world K) :
  calm m -> (forall n, stable (within n) m) -> (forall a w1, m w = (w1, Ok a) -> settled (fun n => k n a) w1) -> settled (fun n => m ≫= k n) w.
Proof.
  intros Hc Hs Hk a b Ha Hb. specialize (Hc w). specialize (Hs _ w (le_n _)). unfold mbind, Act_bind.
  destruct (m w) as [w1 [x|e]] eqn:E; [|split; [done|cbn in *; congruence]]. unfold within in Hs. cbn in Hs. apply (Hk x w1 eq_refl); lia.
Qed.
Lemma settled_on_failure {A} (clean : error -> IO K error) (m : nat -> IO K A) (w : world K) :
  (forall e w, e <> ErrRunning -> match (clean e w).2 with Ok e' => e' <> ErrRunning | Err _ => False end) ->
  settled m w -> settled (fun n => on_failure clean (m n)) w.
Proof.
  intros Hc Hm a b Ha Hb. destruct (Hm a b Ha Hb) as [E Hr]. unfold on_failure, mbind, Act_bind, try_. rewrite <- E.
  split; [done|]. destruct (m a w) as [w1 [x|e]]; [done|]. cbn in Hr. destruct (is_panic e); [cbn; congruence|].
  specialize (Hc e w1 ltac:(congruence)). destruct (clean e w1) as [w2 [e'|e']]; cbn in *; [congruence|done].
Qed.
Lemma settled_value {A B} (m : nat -> IO K A) (b : B) (w : world K) : settled m w -> settled (fun n => m n ≫= (fun _ => mret b)) w.
Proof.
  intros Hm x y Hx Hy. destruct (Hm x y Hx Hy) as [E Hr]. unfold mbind, Act_bind. rewrite <- E. split; [done|].
  destruct (m x w) as [w1 [a|e]]; cbn in *; congruence.
Qed.
Lemma settled_defer {A} (f : IO K unit) (m : nat -> IO K A) (w : world K) : settled m w -> settled (fun n => defer f (m n)) w.
Proof.
  intros Hm a b Ha Hb. destruct (Hm a b Ha Hb) as [E Hr]. unfold defer, ignore, lift, try_, mbind, Act_bind. rewrite <- E. split; [done|].
  destruct (m a w) as [w1 r]. cbn in *. by destruct (f w1).
Qed.

Lemma cleanup_calm (p : initProcess) (pid : Z) (waited : bool) (e : error) (w : world K) :
  e <> ErrRunning -> match (cleanup p pid waited e w).2 with Ok e' => e' <> ErrRunning | Err _ => False end.
Proof.
  intros He. assert (forall {A B} (m : IO K A) (k : unit -> IO K B) (w : world K), (ignore m ≫= k) w = k tt (m w).1) as Hig.
  { intros A B m k w0. unfold ignore, mbind, Act_bind, try_. by destruct (m w0). }
  assert (forall {B} (k : unit -> IO K B) (w : world K), ((mret tt : IO K unit) ≫= k) w = k tt w) as Hret by done.
  unfold cleanup, mbind at 1, Act_bind at 1, try_ at 1. destruct (sys unix.OOMKillCount w) as [w1 oom].
  set (e' := match oom with Ok _ => _ | Err _ => _ end).
  assert (e' <> ErrRunning) as He' by (subst e'; destruct oom as [n|]; [|done]; destruct (0 <? n); [|done]; by destruct (p_debug p)).
  destruct waited, (p_hasRdt p); rewrite ?Hret, ?Hig, ?Hret; done.
Qed.
Lemma conclude_calm (p : initProcess) (pid : Z) (f : flags) (ierr : option error) : ierr <> Some ErrRunning -> calm (conclude p pid f ierr : IO K unit).
Proof.
  intros Hi. unfold conclude. destruct (negb _); [destruct ierr; apply calm_throw; discriminate|]. destruct (_ && _); [by apply calm_throw|].
  apply calm_bind; [by apply calm_wrapping|]. intros _. destruct ierr as [e|]; [|apply calm_ret].
  apply calm_bind; [apply calm_ignore|]. intros _. apply calm_throw. congruence.
Qed.
Lemma sync_phase_settled (p : initProcess) (pid : Z) (w : world K) : settled (fun n => sync_phase n p pid) w.
Proof.
  unfold sync_phase. apply settled_bind; [intros w0; destruct (createNetworkInterfaces _); done|intros n; apply stable_lift|]. intros networks w1 _.
  apply settled_bind; [by apply calm_wrapping|intros n; within_all|]. intros s w2 _.
  apply settled_bind; [by apply calm_wrapping|intros n; within_all|]. intros _ w3 _ a b Ha Hb.
  destruct (parseSync_ends (handle p pid) ltac:(intros; apply handle_within) ltac:(intros; apply handle_calm) a b (mkFlags false false) w3 Ha Hb) as [E Hr].
  unfold mbind, Act_bind. rewrite <- E. split; [done|]. destruct (parseSync a _ _ w3) as [w4 [[f ierr]|e]]; cbn in Hr; [by apply conclude_calm|]. cbn. congruence.
Qed.
Lemma calm_on_failure {A} (clean : error -> IO K error) (m : IO K A) :
  (forall e w, e <> ErrRunning -> match (clean e w).2 with Ok e' => e' <> ErrRunning | Err _ => False end) -> calm m -> calm (on_failure clean m).
Proof.
  intros Hc Hm w. specialize (Hm w). unfold on_failure, mbind, Act_bind, try_. destruct (m w) as [w1 [x|e]]; [done|]. cbn in Hm.
  destruct (is_panic e); [cbn; congruence|]. specialize (Hc e w1 ltac:(congruence)). destruct (clean e w1) as [w2 [e'|e']]; cbn in *; [congruence|done].
Qed.
Lemma run_bootstrap_settled (p : initProcess) (pid : Z) (w : world K) : settled (fun n => run_bootstrap n p pid) w.
Proof.
  unfold run_bootstrap. apply settled_bind; [apply calm_on_failure; [apply cleanup_calm|calm_all]|intros n; within_all|]. intros _ w1 _.
  apply settled_bind; [apply calm_on_failure; [apply cleanup_calm|calm_all]|intros n; within_all|]. intros st w2 _.
  apply settled_value, settled_on_failure; [apply cleanup_calm|apply sync_phase_settled].
Qed.
Lemma start_settled (p : initProcess) (w : world K) : settled (fun n => start n p) w.
Proof.
  unfold start. apply settled_defer, settled_bind; [calm_all|intros n; within_all|]. intros r w1 _.
  apply settled_bind; [calm_all|intros n; within_all|]. intros _ w2 _. apply settled_bind; [calm_all|intros n; within_all|]. intros _ w3 _.
  destruct r as [pid|e]; [apply run_bootstrap_settled|]. intros a b _ _. done.
Qed.
End ends.

(** C30. Starting a container comes to an end when the child does not talk for ever: if the messages of the child are bounded by [left],
    which a receive decreases and no other call increases, and calls report errors instead of panicking, then any fuel above
    the bound gives one and the same result, and it is not that the loop is still running. *)
Theorem start_ends {K} `{Kernel K} (left : K -> nat) (p : initProcess) (w : world K) :
  (forall m k k' msg, answer m unix.RecvMsg k = (k', Ok msg) -> (left k' < left k)%nat) ->
  (forall A m (c : unix.call A) k, (left (answer m c k).1 <= left k)%nat) ->
  (forall A m (c : unix.call A) k e, (answer m c k).2 = Err e -> is_panic e = false) ->
  exists w' r, r <> Err ErrRunning /\ forall fuel, (left (kernel w) < fuel)%nat -> start fuel p w = (w', r).
Proof.
  intros H1 H2 H3. pose proof (start_settled left H1 H2 H3 p w) as Hs. destruct (start (S (left (kernel w))) p w) as [w' r] eqn:E.
  exists w', r. split.
  - destruct (Hs (S (left (kernel w))) (S (left (kernel w))) ltac:(lia) ltac:(lia)) as [_ Hr]. by rewrite E in Hr.
  - intros fuel Hf. destruct (Hs fuel (S (left (kernel w))) Hf ltac:(lia)) as [-> _]. done.
Qed.

(** *** Findings *)

(** When the state cannot be stored, the reason is lost: the error does not depend on it. *)
Lemma store_error_lost {K} `{Kernel K} (p : initProcess) (pid : Z) (w w' : world K) (e : error) :
  Rlimits (p_config p) = [] -> Contains (namespaces_of (Config (p_config p))) NEWNS = true -> sys (unix.StoreState pid) w = (w', Err e) ->
  handle_ready p pid w = (w', Err (ErrNew "unable to store init state: %!w(<nil>)")).
Proof. intros Hr Hn Hs. unfold handle_ready, setupRlimits. rewrite Hr, Hn. unfold mbind, Act_bind, try_, wrapping. cbn. by rewrite Hs. Qed.
