(* ===== verification/Handshake.v ===== *)
(** * The init process and its parent, together

    The two ends of the pipe of sync.go are modelled in ContainerInit and in ParentProcess.  Here they are put together: a
    [link] is a kernel for the child in which a message runs the handler of the parent and the answers are what the handler
    wrote.  The child waits for an answer after each request, so that the two never run at the same time and no
    interleaving is lost.  The kernels below both processes are arbitrary. *)

From S2P Require Import Prelude GoAct GoStrings GoPath GoFs Devices Configs Validator UserDb Seccomp SpecTypes SpecConv CgroupFiles InitSys RootfsSetup ContainerInit RootfsSetupThms ContainerInitThms ParentProcess ParentProcessThms.

Open Scope string_scope.
Open Scope list_scope.
#[local] Open Scope Z_scope.

Import libcontainer init process.

(** ** The system of both processes *)

(** Where the loop of the parent is: before a message, before the text of an error, or at its end. *)
Inductive loop := Waiting (f : flags) | Reporting (f : flags) | Ended (f : flags) (ierr : option error) | Panicked.
(** The messages a process has sent, the newest first. *)
Definition sent1 (ev : event) : option string :=
  match ev_call ev with unix.SendSync type _ => if is_ok (ev_result ev) then Some type else None | _ => None end.
Definition sent (t : trace) : list string := omap sent1 t.
Definition EPIPE : error := ErrNew "broken pipe".
(** A receive that would wait for ever. *)
Definition ErrBlocked : error := ErrNew "blocked".

(** [l_exec] keeps the calls the parent had made when the program of the user was first started. *)
Record link (KC KP : Type) := mkLink {
  l_child : KC; l_parent : world KP; l_loop : loop; l_replies : list string; l_exec : option trace }.
Arguments mkLink {KC KP}.
Arguments l_child {KC KP}.
Arguments l_parent {KC KP}.
Arguments l_loop {KC KP}.
Arguments l_replies {KC KP}.
Arguments l_exec {KC KP}.

(** ** Calls in order *)

Definition is_recv (ev : event) : bool := match ev_call ev with unix.RecvSync => true | _ => false end.
Definition is_exec (ev : event) : bool := match ev_call ev with unix.Exec _ _ => true | _ => false end.
Definition recv_value (ev : event) : option string :=
  match ev_call ev in unix.call A return result A -> option string with
  | unix.RecvSync => fun r => match r with Ok s => Some s | Err _ => None end
  | _ => fun _ => None
  end (ev_result ev).
Lemma agreed_cons (type : string) (r : result string) (t : trace) : agreed type (Event unix.RecvSync r :: t) -> r = Ok type \/ agreed type t.
Proof.
  unfold agreed. intros [E|Hin]%elem_of_cons; [left|by right]. apply (f_equal recv_value) in E. cbn in E. by destruct r as [s|e]; simplify_eq.
Qed.
Lemma agreed_skip (type : string) (ev : event) (t : trace) : is_recv ev = false -> agreed type (ev :: t) -> agreed type t.
Proof. unfold agreed. intros Hn [<-|Hin]%elem_of_cons; [done|done]. Qed.
(** The calls that were made before the program of the user was first started. *)
Fixpoint until_exec (t : trace) : trace :=
  match t with
  | [] => []
  | ev :: t => if existsb is_exec t then until_exec t else if is_exec ev then t else ev :: t
  end.
Lemma until_exec_none (t : trace) : existsb is_exec t = false -> until_exec t = t.
Proof. destruct t as [|ev t]; [done|]. cbn. intros [-> ->]%orb_false_iff. done. Qed.
Lemma exec_when_first (R : trace -> Prop) (t : trace) : extends (exec_when R) [] t -> existsb is_exec t = true -> R (until_exec t).
Proof.
  induction 1 as [|ev t _ IH Hev]; [done|]. cbn. intros Hx. destruct (existsb is_exec t) eqn:Et; [by apply IH|].
  rewrite orb_false_r in Hx. rewrite Hx. unfold exec_when in Hev. unfold is_exec in Hx. by destruct (ev_call ev).
Qed.

Section link.
Context {KC KP : Type} `{Kernel KC} `{Kernel KP} (p : initProcess) (pid : Z).
#[local] Notation link := (link KC KP).

Definition with_child (c : KC) (k : link) : link := mkLink c (l_parent k) (l_loop k) (l_replies k) (l_exec k).
Definition with_loop (l : loop) (k : link) : link := mkLink (l_child k) (l_parent k) l (l_replies k) (l_exec k).
(** One round of the loop of [parseSync]. *)
Definition send (type : string) (fd : Z) (k : link) : link * result unit :=
  match l_loop k with
  | Waiting f =>
      if bool_decide (type = procError) then (with_loop (Reporting f) k, Ok tt) else
      let '(parent, r) := handle p pid f (type, fd) (l_parent k) in
      let new := rev (take (length (sent (calls parent)) - length (sent (calls (l_parent k)))) (sent (calls parent))) in
      let l := match r with Ok f => Waiting f | Err e => if is_panic e then Panicked else Ended f (Some e) end in
      (mkLink (l_child k) parent l (l_replies k ++ new) (l_exec k), Ok tt)
  | _ => (k, Err EPIPE)
  end.
Definition send_error (message : string) (k : link) : link * result unit :=
  match l_loop k with Reporting f => (with_loop (Ended f (Some (ErrNew message))) k, Ok tt) | _ => (k, Err EPIPE) end.
(** Once the parent has left the loop it closes its end. *)
Definition receive (k : link) : link * result string :=
  match l_replies k, l_loop k with
  | r :: rs, _ => (mkLink (l_child k) (l_parent k) (l_loop k) rs (l_exec k), Ok r)
  | [], Waiting _ | [], Reporting _ => (k, Err ErrBlocked)
  | [], _ => (k, Err EOF)
  end.
Definition close (k : link) : link * result unit :=
  (match l_loop k with Waiting f => with_loop (Ended f None) k | _ => k end, Ok tt).
Definition executed (k : link) : link :=
  mkLink (l_child k) (l_parent k) (l_loop k) (l_replies k) (match l_exec k with None => Some (calls (l_parent k)) | e => e end).

#[local] Instance link_kernel : Kernel link := fun A m c k =>
  match c in unix.call A return link * result A with
  | unix.SendSync type fd => send type fd k
  | unix.SendInitError message => send_error message k
  | unix.RecvSync => receive k
  | unix.ClosePipe => close k
  | unix.Exec name args => let '(c, r) := answer m (unix.Exec name args) (l_child k) in (with_child c (executed k), r)
  | other => let '(c, r) := answer m other (l_child k) in (with_child c k, r)
  end.

(** ** What the handler answers *)

Definition reply_to (type : string) : string :=
  if bool_decide (type = procSeccomp) then procSeccompDone else if bool_decide (type = procReady) then procRun else procResume.
Definition silent {K A} `{Kernel K} (m : IO K A) : Prop := follows (fun _ ev => sent1 ev = None) m.
Lemma silent_sent (t t' : trace) : extends (fun _ ev => sent1 ev = None) t t' -> sent t' = sent t.
Proof. induction 1 as [|ev t' _ IH Hn]; [done|]. unfold sent in *. cbn [omap list_omap]. by rewrite Hn. Qed.
(** A successful action sends [x] and nothing else; one that fails sends nothing. *)
Definition replies_with {A} (x : string) (m : IO KP A) : Prop :=
  forall t, wp m (fun r t' => sent t' = (match r with Ok _ => [x] | Err _ => [] end) ++ sent t) t.
Lemma replies_throw {A} (x : string) (e : error) : replies_with x (throw e : IO KP A).
Proof. intros t. by apply wp_throw. Qed.
Lemma replies_then {A B} (x : string) (m : IO KP A) (k : A -> IO KP B) : silent m -> (forall a, replies_with x (k a)) -> replies_with x (m ≫= k).
Proof.
  intros Hm Hk t. apply wp_bind. eapply wp_mono; [apply Hm|]. intros [a|e] t' Hs%silent_sent; [|done]. rewrite <- Hs. apply Hk.
Qed.
Lemma replies_write (x : string) : replies_with x (writeSync x : IO KP unit).
Proof. intros t. apply wp_wrapping, wp_sys. by intros [[]|e]. Qed.
Lemma replies_defer {A} (x : string) (f : IO KP unit) (m : IO KP A) : silent f -> replies_with x m -> replies_with x (defer f m).
Proof.
  intros Hf Hm t. apply wp_defer. eapply wp_mono; [apply Hm|]. intros r t' Hr. eapply wp_mono; [apply Hf|]. intros r' t'' Hs%silent_sent.
  by rewrite Hs.
Qed.
Lemma replies_value {A B} (x : string) (m : IO KP A) (b : B) : replies_with x m -> replies_with x (m ≫= (fun _ => mret b)).
Proof. intros Hm t. apply wp_bind. eapply wp_mono; [apply Hm|]. intros [a|e] t' Hr; [by apply wp_ret|done]. Qed.
Lemma handle_replies (f : flags) (type : string) (fd : Z) : replies_with (reply_to type) (handle p pid f (type, fd) : IO KP flags).
Proof.
  unfold handle, reply_to. cbn [fst snd]. case_bool_decide; [|case_bool_decide; [|case_bool_decide; [|apply replies_throw]]]; apply replies_value.
  - unfold handle_seccomp. destruct (configs.Seccomp_ _) as [s|]; [|apply replies_throw]. case_bool_decide; [apply replies_throw|].
    apply replies_then; [unfold silent; follow_all done|]. intros sfd. apply replies_defer; [unfold silent; follow_all done|].
    apply replies_then; [unfold silent; follow_all done|]. intros st. apply replies_then; [unfold silent; follow_all done|]. intros _. apply replies_write.
  - unfold handle_ready. do 4 (apply replies_then; [unfold silent; follow_all done|intros ?]). apply replies_write.
  - unfold handle_hooks. do 2 (apply replies_then; [unfold silent; follow_all done|intros ?]). apply replies_write.
Qed.
(** What is done when the answer is sent. *)
Definition done_for (reply : string) (t : trace) : Prop :=
  (reply = procResume -> resume_done p t) /\ (reply = procRun -> run_done p pid t).
#[local] Instance done_upward (reply : string) : Upward (done_for reply).
Proof. unfold done_for. apply _. Qed.
Lemma handle_done (f : flags) (type : string) (fd : Z) : type ∈ [procHooks; procReady; procSeccomp] ->
  achieves (handle p pid f (type, fd) : IO KP flags) (done_for (reply_to type)).
Proof.
  intros Ht. apply achieves_weaken with (P := fun t => (type = procHooks -> resume_done p t) /\ (type = procReady -> run_done p pid t)).
  { intros t [Hh Hr]. unfold done_for, reply_to. split; intros E; [apply Hh|apply Hr]; revert E; set_unfold in Ht;
      destruct Ht as [->|[->|[->|[]]]]; done. }
  unfold handle. cbn [fst snd]. case_bool_decide; [intros t w _; subst; by destruct (_ w).2|].
  case_bool_decide; [subst|case_bool_decide; [subst|apply achieves_throw]]; (apply achieves_first; [apply _| |intros _; solve_grows]).
  - apply achieves_weaken with (P := run_done p pid); [done|]. apply handle_ready_done.
  - apply achieves_weaken with (P := resume_done p); [done|]. apply handle_hooks_done.
Qed.

(** ** The invariant *)

(** A receive comes right after a request and gets its answer, or the parent has hung up. *)
Definition answered (t : trace) (ev : event) : Prop :=
  is_recv ev = true -> exists type fd t' r,
    t = Event (unix.SendSync type fd) (Ok tt) :: t' /\ ev = Event unix.RecvSync r /\ (r = Ok (reply_to type) \/ r = Err EOF).
#[local] Notation parent w := (calls (l_parent (kernel w))).
Record linked (w : world link) : Prop := {
  lk_replies : l_replies (kernel w) = [];
  lk_done : forall reply, agreed reply (calls w) -> done_for reply (parent w);
  lk_order : extends answered [] (calls w);
  lk_exec : forall t, l_exec (kernel w) = Some t ->
    existsb is_exec (calls w) = true /\ forall reply, agreed reply (until_exec (calls w)) -> done_for reply t;
  lk_none : l_exec (kernel w) = None -> existsb is_exec (calls w) = false }.

(** Calls that neither talk to the parent nor start the program. *)
Definition plain {A} (c : unix.call A) : bool :=
  match c with unix.SendSync _ _ | unix.SendInitError _ | unix.RecvSync | unix.ClosePipe | unix.Exec _ _ => false | _ => true end.
Lemma answer_plain {A} (c : unix.call A) (m : Z) (k : link) :
  plain c = true -> answer m c k = let '(c', r) := answer m c (l_child k) in (with_child c' k, r).
Proof. by destruct c. Qed.
(** A call that leaves parent, answers and program alone. *)
Lemma linked_step (w : world link) (k : link) (m : Z) (ev : event) :
  linked w -> l_parent k = l_parent (kernel w) -> l_replies k = l_replies (kernel w) -> l_exec k = l_exec (kernel w) ->
  is_recv ev = false -> is_exec ev = false -> linked (mkWorld k m (ev :: calls w)).
Proof.
  intros [H1 H2 H3 H4 H5] Hp Hr He Hv Hx. constructor; cbn [kernel calls]; rewrite ?Hp, ?Hr, ?He.
  - done.
  - intros reply Ha. by apply H2, (agreed_skip _ ev).
  - apply extends_step; [done|]. intros Hv'. by rewrite Hv in Hv'.
  - intros t Ht. destruct (H4 t Ht) as [Hex Hd]. cbn [existsb until_exec]. rewrite Hex, orb_true_r. done.
  - intros Hn. cbn [existsb]. by rewrite Hx, H5.
Qed.
Lemma plain_stable {A} (c : unix.call A) : plain c = true -> stable linked (sys c : IO link A).
Proof.
  intros Hc w Hw. unfold sys. rewrite (answer_plain c _ _ Hc). destruct (answer (mask w) c (l_child (kernel w))) as [c' r].
  apply linked_step; try done; by destruct c.
Qed.
Lemma umask_stable (m : Z) : stable linked (Umask m : IO link Z).
Proof. intros w Hw. by apply linked_step. Qed.
Lemma error_stable : stable linked (writeSync procError : IO link unit).
Proof.
  apply stable_wrapping. intros w Hw. unfold sys, answer, link_kernel, send. destruct (l_loop (kernel w)); by apply linked_step.
Qed.
Lemma payload_stable (message : string) : stable linked (sys (unix.SendInitError message) : IO link unit).
Proof. intros w Hw. unfold sys, answer, link_kernel, send_error. destruct (l_loop (kernel w)); by apply linked_step. Qed.
Lemma close_stable : stable linked (sys unix.ClosePipe : IO link unit).
Proof. intros w Hw. unfold sys, answer, link_kernel, close. destruct (l_loop (kernel w)); by apply linked_step. Qed.
Lemma exec_stable (name : string) (args : list string) : stable linked (sys (unix.Exec name args) : IO link unit).
Proof.
  intros w [H1 H2 H3 H4 H5]. unfold sys. cbn [answer]. unfold answer at 1, link_kernel. destruct (answer (mask w) _ _) as [c r].
  assert (forall reply, agreed reply (Event (unix.Exec name args) r :: calls w) -> agreed reply (calls w)) as Hs.
  { intros reply. by apply agreed_skip. }
  constructor; cbn [kernel calls with_child executed l_replies l_parent l_exec existsb until_exec is_exec ev_call fst].
  - done.
  - intros reply Ha. by apply H2, Hs.
  - by apply extends_step.
  - destruct (l_exec (kernel w)) as [t0|] eqn:E.
    + intros t [= <-]. destruct (H4 t0 eq_refl) as [-> Hd]. done.
    + intros t [= <-]. split; [done|]. by rewrite (H5 eq_refl).
  - by destruct (l_exec (kernel w)).
Qed.

(** *** A request and its answer *)

Definition requests : list string := [procHooks; procReady; procSeccomp].
(** The request was the last call: the answer is there and what it stands for is done, or the parent has left. *)
Record posted (type : string) (w : world link) : Prop := {
  po_last : exists fd t, calls w = Event (unix.SendSync type fd) (Ok tt) :: t;
  po_reply : (l_replies (kernel w) = [reply_to type] /\ done_for (reply_to type) (parent w)) \/
             (l_replies (kernel w) = [] /\ match l_loop (kernel w) with Waiting _ | Reporting _ => False | _ => True end);
  po_done : forall reply, agreed reply (calls w) -> done_for reply (parent w);
  po_order : extends answered [] (calls w);
  po_exec : forall t, l_exec (kernel w) = Some t ->
    existsb is_exec (calls w) = true /\ forall reply, agreed reply (until_exec (calls w)) -> done_for reply t;
  po_none : l_exec (kernel w) = None -> existsb is_exec (calls w) = false }.

Lemma new_replies (x : string) (old new : list string) (ok : bool) :
  new = (if ok then [x] else []) ++ old -> rev (take (length new - length old) new) = if ok then [x] else [].
Proof. intros ->. destruct ok; cbn [app length]; [by replace (S (length old) - length old)%nat with 1%nat by lia|by rewrite Nat.sub_diag]. Qed.
Lemma handle_grows (f : flags) (sync : string * Z) : grows (handle p pid f sync : IO KP flags).
Proof. solve_grows. Qed.
Lemma request_posts (type : string) (fd : Z) (w w1 : world link) (r : result unit) :
  type ∈ requests -> linked w -> sys (unix.SendSync type fd) w = (w1, r) -> match r with Ok _ => posted type w1 | Err _ => linked w1 end.
Proof.
  intros Ht Hw. unfold sys, answer, link_kernel, send. destruct (l_loop (kernel w)) as [f|f|f e|] eqn:El.
  2-4: intros [= <- <-]; by apply linked_step.
  rewrite bool_decide_eq_false_2 by (by intros ->; set_unfold in Ht; destruct Ht as [?|[?|[?|[]]]]).
  pose proof (handle_replies f type fd (parent w) (l_parent (kernel w)) eq_refl) as Hs.
  pose proof (handle_done f type fd Ht (parent w) (l_parent (kernel w)) eq_refl) as Hd.
  pose proof (handle_grows f (type, fd) (parent w) (l_parent (kernel w)) eq_refl) as Hg.
  destruct (handle p pid f (type, fd) (l_parent (kernel w))) as [pw r'] eqn:Eh. cbn [fst snd] in Hs, Hd, Hg. intros [= <- <-].
  destruct Hw as [H1 H2 H3 H4 H5]. set (ev := Event (unix.SendSync type fd) (Ok tt)). constructor; cbn [kernel calls l_replies l_parent l_exec l_loop].
  - by exists fd, (calls w).
  - rewrite H1. cbn [app]. destruct r' as [f'|e].
    + left. split; [by apply (new_replies _ _ _ true)|done].
    + right. split; [by apply (new_replies (reply_to type) _ _ false)|]. by destruct (is_panic e).
  - intros reply Ha. apply (upward_extends (done_for reply) any_call (parent w)); [done|]. by apply H2, (agreed_skip _ ev).
  - by apply extends_step.
  - intros t Hx. destruct (H4 t Hx) as [He Hd']. cbn [existsb until_exec]. rewrite He, orb_true_r. done.
  - intros Hn. cbn [existsb]. by apply H5.
Qed.
Lemma receive_linked (type : string) (w : world link) : posted type w -> linked (sys unix.RecvSync w).1.
Proof.
  intros [(fd & t & Hc) Hr Hd Ho He Hn].
  assert (exists k r, sys unix.RecvSync w = (mkWorld k (mask w) (Event unix.RecvSync r :: calls w), r) /\ l_parent k = l_parent (kernel w) /\
    l_replies k = [] /\ l_exec k = l_exec (kernel w) /\ (r = Ok (reply_to type) /\ done_for (reply_to type) (parent w) \/ r = Err EOF)) as (k & r & -> & Hp & Hq & Hx & Hv).
  { unfold sys, answer, link_kernel, receive. destruct Hr as [[Hr Hdone]|[Hr Hl]]; rewrite Hr.
    - eexists _, _. split; [done|]. cbn. split_and!; [done..|]. by left.
    - exists (kernel w), (Err EOF). destruct (l_loop (kernel w)); [done|done| |]; (split; [done|]; split_and!; [done..|]; by right). }
  constructor; cbn [fst kernel calls existsb until_exec]; rewrite ?Hp, ?Hx.
  - done.
  - intros reply [E|Ha]%agreed_cons; [|by apply Hd]. destruct Hv as [[-> Hv]| ->]; [|done]. by injection E as <-.
  - apply extends_step; [done|]. intros _. exists type, fd, t, r. split; [done|]. split; [done|]. destruct Hv as [[-> _]| ->]; [by left|by right].
  - intros t' Ht'. destruct (He t' Ht') as [Hex Hdx]. rewrite Hex, orb_true_r. done.
  - intros Hz. by apply Hn.
Qed.
(** What follows a request: the answer is read. *)
Lemma readSync_linked (type expected : string) (w : world link) : posted type w -> linked (readSync expected w).1.
Proof.
  intros Hp. apply receive_linked in Hp. unfold readSync, mbind, Act_bind, try_. destruct (sys unix.RecvSync w) as [w1 [s|e]]; cbn [fst] in Hp.
  - case_bool_decide; [|case_bool_decide; by apply stable_ret || done].
    apply (stable_bind linked (wrapping "failed reading error from parent" (sys unix.RecvError)) (fun ierr => throw (ErrNew ierr)));
      [by apply stable_wrapping, plain_stable|intros ?; apply stable_throw|done].
  - by destruct (errors_is e EOF).
Qed.
Lemma sync_stable (type expected : string) (fd : Z) : type ∈ requests ->
  stable linked (_ ← writeSyncWithFd type fd; readSync expected : IO link unit).
Proof.
  intros Ht w Hw. unfold writeSyncWithFd, wrapping, mbind, Act_bind. destruct (sys (unix.SendSync type fd) w) as [w1 r] eqn:Es.
  pose proof (request_posts type fd w w1 r Ht Hw Es) as Hp. destruct r as [[]|e]; cbn [wrap_err]; [by apply (readSync_linked type)|done].
Qed.
Lemma hooks_stable : stable linked (syncParentHooks : IO link unit).
Proof. apply sync_stable. set_solver. Qed.
Lemma ready_stable : stable linked (syncParentReady : IO link unit).
Proof. apply sync_stable. set_solver. Qed.
Lemma seccomp_stable (fd : Z) : stable linked (syncParentSeccomp fd : IO link unit).
Proof.
  unfold syncParentSeccomp. destruct (fd =? -1); [apply stable_ret|]. intros w Hw. unfold writeSyncWithFd, wrapping, mbind at 1, Act_bind at 1, try_ at 1.
  destruct (sys (unix.SendSync procSeccomp fd) w) as [w1 r] eqn:Es.
  pose proof (request_posts procSeccomp fd w w1 r ltac:(set_solver) Hw Es) as Hp. destruct r as [[]|e]; cbn [wrap_err].
  - apply (readSync_linked _ procSeccompDone) in Hp. unfold mbind at 1, Act_bind at 1, try_ at 1. destruct (readSync procSeccompDone w1) as [w2 [[]|e]]; cbn [fst] in Hp.
    + apply (stable_wrapping linked "close seccomp fd" (sys (unix.Close fd))); [by apply plain_stable|done].
    + revert Hp. apply stable_bind; [by apply stable_ignore, plain_stable|]. intros _. apply stable_throw.
  - revert Hp. apply stable_bind; [by apply stable_ignore, plain_stable|]. intros _. apply stable_throw.
Qed.

(** ** The whole init process *)

Context `{Libraries}.
#[local] Hint Resolve hooks_stable ready_stable seccomp_stable error_stable payload_stable close_stable exec_stable umask_stable : stable.
Ltac linked_all := stable_all ltac:(by apply plain_stable).
Lemma remount_tries_stable (dest : string) (fl : Z) (n : nat) : stable linked (remount_tries dest fl n : IO link unit).
Proof. revert fl. induction n as [|n IH]; intros fl; cbn [remount_tries]; linked_all. Qed.
#[local] Hint Resolve remount_tries_stable : stable.
Lemma propagate_stable (m : configs.Mount) (rootfs mountLabel : string) (mountFd : option Z) :
  stable linked (mountPropagate m rootfs mountLabel mountFd : IO link unit).
Proof. linked_all. Qed.
#[local] Hint Resolve propagate_stable : stable.
Lemma mount_device_stable (m : configs.Mount) (c : mountConfig) : stable linked (mount_device m c : IO link unit).
Proof. linked_all. Qed.
#[local] Hint Resolve mount_device_stable : stable.
Lemma prepareRootfs_stable (c : initConfig) (fds : option (list Z)) : stable linked (prepareRootfs c fds : IO link unit).
Proof. linked_all. Qed.
Lemma finalizeNamespace_stable (c : initConfig) : stable linked (finalizeNamespace c : IO link unit).
Proof. linked_all. Qed.
#[local] Hint Resolve prepareRootfs_stable finalizeNamespace_stable : stable.
Lemma Init_stable (l : linuxStandardInit) : stable linked (Init l : IO link unit).
Proof. linked_all. Qed.
(** Both processes at the start: nothing was said. *)
Definition both (kc : KC) (parent : world KP) (mask : Z) : world link := mkWorld (mkLink kc parent (Waiting (mkFlags false false)) [] None) mask [].
Lemma both_linked (kc : KC) (parent : world KP) (mask : Z) : linked (both kc parent mask).
Proof. constructor; cbn; [done| |constructor|done|done]. by intros reply ?%elem_of_nil. Qed.
Lemma Init_linked (l : linuxStandardInit) (kc : KC) (parent : world KP) (mask : Z) : linked (Init l (both kc parent mask)).1.
Proof. apply Init_stable, both_linked. Qed.
Lemma exec_after_done (l : linuxStandardInit) (kc : KC) (parent : world KP) (mask : Z) (t : trace) :
  l_exec (kernel (Init l (both kc parent mask)).1) = Some t -> resume_done p t /\ run_done p pid t.
Proof.
  intros He. destruct (lk_exec _ (Init_linked l kc parent mask) t He) as [Hx Hd].
  pose proof (Init_guarded (K := link) l [] I (both kc parent mask) eq_refl) as Hg. apply exec_when_first in Hg; [|done].
  destruct (Hd procResume (ready_hooks _ _ Hg)) as [Hs _], (Hd procRun (ready_parent _ _ Hg)) as [_ Hr]. split; [by apply Hs|by apply Hr].
Qed.
End link.

(** C27. The init process never hangs on its parent: when both run together, on any kernels, each receive of the child comes right after
    a request and finds the answer that belongs to this request, or the parent has left its loop and closed the pipe. *)
Theorem requests_are_answered {KC KP} `{Kernel KC} `{Kernel KP} `{Libraries} (p : initProcess) (pid : Z) (l : linuxStandardInit)
  (kc : KC) (parent : world KP) (mask : Z) :
  extends answered [] (calls (@Init _ (link_kernel p pid) _ l (both kc parent mask)).1).
Proof. apply lk_order with (p := p) (pid := pid), Init_linked. Qed.

(** C26. The program of the user only starts when the parent has done its part: at the first execution, whatever both kernels answer,
    the parent has set the limits of the container in its cgroup, run the prestart and createRuntime hooks, set the limits
    of the process and stored the state of the container. *)
Theorem exec_after_parent {KC KP} `{Kernel KC} `{Kernel KP} `{Libraries} (p : initProcess) (pid : Z) (l : linuxStandardInit)
  (kc : KC) (parent : world KP) (mask : Z) (t : trace) :
  l_exec (kernel (@Init _ (link_kernel p pid) _ l (both kc parent mask)).1) = Some t -> resume_done p t /\ run_done p pid t.
Proof. apply exec_after_done. Qed.

(** The error of an init process that could not be set up is what its parent reports. *)
Lemma error_crosses {KC KP} `{Kernel KC} `{Kernel KP} (p : initProcess) (pid : Z) (m : IO (link KC KP) unit) (w w1 : world (link KC KP)) (e : error) (f : flags) :
  m w = (w1, Err e) -> l_loop (kernel w1) = Waiting f ->
  l_loop (kernel (@report_failed _ (link_kernel p pid) m w).1) = Ended f (Some (ErrNew (Error e))).
Proof.
  intros Hm Hl. destruct w1 as [k m1 c1]. unfold report_failed, mbind at 1, Act_bind at 1, try_ at 1. rewrite Hm. cbn in Hl.
  unfold writeSync, writeSyncWithFd, wrapping, try_, mbind, Act_bind, sys, ignore, throw, answer, link_kernel, send. cbn. by rewrite Hl.
Qed.
