(* ===== verification/InitExample.v ===== *)
(** * A kernel for the init process and its parent

    A small kernel in which every call succeeds, descriptors are numbered in order, the link of a descriptor is
    the path it was opened at, and the parent receives the messages of a list.  The theorems on the setup of a container are
    applied on it. *)

From S2P Require Import Prelude GoAct GoStrings GoPath GoFs Devices Configs Validator UserDb Seccomp SpecTypes SpecConv CgroupFiles InitSys RootfsSetup ContainerInit RootfsSetupThms ContainerInitThms ParentProcess ParentProcessThms Handshake.

Open Scope string_scope.
Open Scope list_scope.
#[local] Open Scope Z_scope.

Import libcontainer init process.

(** The next descriptor, the links of those that were given out, and the messages to come. *)
Record toy := mkToy { next : Z; links : list (string * string); inbox : list (string * Z) }.
Fixpoint assoc (l : list (string * string)) (k : string) : result string :=
  match l with [] => Err ErrNotExist | (a, b) :: l => if bool_decide (a = k) then Ok b else assoc l k end.
Definition toy_open (path : string) (k : toy) : toy * result Z :=
  (mkToy (next k + 1) ((procfd_path (next k), path) :: links k) (inbox k), Ok (next k)).
Definition toy_receive (k : toy) : toy * result (string * Z) :=
  match inbox k with [] => (k, Err EOF) | m :: l => (mkToy (next k) (links k) l, Ok m) end.
#[global] Instance toy_kernel : Kernel toy := fun A m c k =>
  match c in unix.call A return toy * result A with
  | unix.Open p _ => toy_open p k
  | unix.Readlink p => (k, assoc (links k) p)
  | unix.SecureJoin root u => (k, Ok (Join [root; u]))
  | unix.GetMounts => (k, Ok [unix.mkInfo "/" "/" "ext4" ""])
  | unix.RecvSync => (k, Ok procResume)
  | unix.Stat _ | unix.Lstat _ => (k, Ok (unix.mkFileInfo true 493))
  | unix.StatT _ | unix.Fstat _ => (k, Ok (unix.mkStat_t 259 0 0))
  | unix.Statfs _ | unix.Fstatfs _ => (k, Ok (unix.mkStatfs_t PROC_SUPER_MAGIC 0))
  | unix.Readdirnames _ => (k, Ok [])
  | unix.MkdirTemp d p => (k, Ok (Join [d; p]))
  | unix.Umask _ | unix.GetParentDeathSignal | unix.Getppid | unix.JoinSessionKeyring _ | unix.InitSeccomp _ => (k, Ok 0)
  | unix.ReadFile _ | unix.Getenv _ | unix.RecvError => (k, Ok "")
  | unix.LookPath p => (k, Ok p)
  | unix.OpenReader _ => (k, Ok (mkReader "" None))
  | unix.NewPty => (k, Ok (9, "/dev/pts/0"))
  | unix.IsCgroup2UnifiedMode => (k, Ok true)
  | unix.CgroupMountinfo => (k, Ok [])
  | unix.OwnCgroups => (k, Ok ∅)
  | unix.ProcessUIDMap => (k, Ok [mkUIDMap 0 0 4294967295])
  | unix.RecvConfig => (k, Err ErrNotExist)
  | unix.StartCmd | unix.PidfdOpen _ | unix.PidfdGetfd _ _ | unix.Dial _ | unix.SocketFile _ | unix.StoreState _ | unix.OOMKillCount => (k, Ok 0)
  | unix.WaitProcess _ => (k, Ok true)
  | unix.ReadInit => (k, Ok [0])
  | unix.RecvPid | unix.Pipe | unix.SockPair _ => (k, Ok (2, 1))
  | unix.Getegid | unix.OpenNonblock _ => (k, Ok 0)
  | unix.Mkfifo _ _ | unix.WaitLogs => (k, Ok tt)
  | unix.AwaitFifo _ => (k, Ok (Some 0))
  | unix.ReadAll _ => (k, Ok "0")
  | unix.RecvMsg => toy_receive k
  | unix.RecvInitError => (k, Ok None)
  | unix.CurrentOCIState => (k, Ok (unix.mkOCIState "c" "creating" 0 "" ∅))
  | unix.ProcCgroups _ => (k, Ok ∅)
  | unix.SendInitError _ | unix.Clearenv | unix.WaitCmd _ | unix.KillProcess _ | unix.SignalAll | unix.Prlimit _ _ _ _ | unix.CopyBootstrap
  | unix.SendConfig _ | unix.Shutdown | unix.SendFds _ _ _ | unix.ManagerApply _ | unix.ManagerSet _ | unix.ManagerDestroy | unix.RdtApply _
  | unix.RdtSet | unix.RdtDestroy | unix.WriteCgroupProc _ _ | unix.WriteIntelRdtTasks _ _ => (k, Ok tt)
  | unix.Mount _ _ _ _ _ | unix.Unmount _ _ | unix.MountSetattr _ _ | unix.PivotRoot _ _ | unix.Chroot _ | unix.Chdir _ | unix.Fchdir _
  | unix.Close _ | unix.Dup3 _ _ | unix.CloseOnExec _ | unix.MkdirAll _ | unix.Remove _ | unix.RemoveAll _ | unix.Symlink _ _
  | unix.Mknod _ _ _ | unix.Chown _ _ _ | unix.Fchown _ _ _ | unix.Chmod _ _ | unix.WriteFile _ _ | unix.Write _ _ | unix.Setgroups _
  | unix.Setgid _ | unix.Setuid _ | unix.SetKeepCaps | unix.ClearKeepCaps | unix.NewPid | unix.LoadCaps | unix.ApplyBounding _
  | unix.ApplyCaps _ | unix.SetNoNewPrivs | unix.SetParentDeathSignal _ | unix.KillSelf | unix.Sethostname _ | unix.Setctty
  | unix.Setenv _ _ | unix.ModKeyringPerm _ _ _ | unix.ApplyProfile _ | unix.SetKeyLabel _ | unix.SetExecLabel _ | unix.Eaccess _
  | unix.Exec _ _ | unix.SendSync _ _ | unix.ClosePipe | unix.Command _ | unix.Hook _ _ | unix.Sleep | unix.CopyDirectory _ _
  | unix.SetFileLabel _ _ | unix.Relabel _ _ _ | unix.Resize _ _ _ | unix.SendFd _ _ | unix.LinkSetUp _ | unix.AddRoute _ => (k, Ok tt)
  end.
#[global] Instance toy_libraries : Libraries := {|
  label_Validate := fun _ => Ok tt; label_IsShared := fun _ => false; FormatMountLabel := fun data _ => data;
  ParentsFilter := fun _ _ => true; capabilityMap := fun _ => None |}.

Definition toy_mount (source dest device : string) (flags : Z) : configs.Mount :=
  configs.mkMount source dest device flags [] "" "" None 0 [] [].
Definition toy_mounts : list configs.Mount :=
  [toy_mount "proc" "/proc" "proc" 0; toy_mount "tmpfs" "/dev" "tmpfs" MS_RDONLY; toy_mount "/data" "/data" "bind" (Z.lor MS_BIND MS_RDONLY)].
Definition toy_config : configs.Config :=
  configs.mkConf (configs.mkBase "/c" false false "" [] true false false toy_mounts [])
    (configs.mkCg "" "" "/x" "" emptyResources false [] false None)
    (configs.mkLinuxPart 0 [mkNamespace NEWNS ""] [] None None [] [] "" [] None None) no_process ∅ "".
Definition toy_init : initConfig :=
  mkInitConfig ["sh"] [] "/" None "" "" false "" [] toy_config [mkDevice (mkRule CharDevice 1 3 "rwm" true) "/dev/null" 438 0 0]
    [] [] 0 "c" [] false 0 0 false false None "".
Definition toy_world : world toy := mkWorld (mkToy 3 [] []) 18 [].

Lemma checkProcMount_policy_witness :
  (checkProcMount "/c" "/c/proc/cpuinfo" "/x" : IO toy unit) ≡ proc_policy ["proc"; "cpuinfo"] "/x".
Proof. apply (checkProcMount_policy ["c"] ["proc"; "cpuinfo"] "/x"); by apply (bool_decide_unpack _). Defined.

Lemma process_jailed_witness :
  exists old, jail_view "/c" (calls (prepareRootfs toy_init None toy_world).1) = (NewRoot, NewRoot, old) /\ old = false.
Proof.
  destruct (process_jailed toy_init None toy_world (prepareRootfs toy_init None toy_world).1) as (old & H1 & H2).
  - intros m k k1 k2 a b [= <- <-] [= <- <-]. cbn. lia.
  - done.
  - done.
  - vm_compute. reflexivity.
  - exists old. split; [exact H1|]. by apply H2.
Defined.

Lemma read_only_honoured_witness :
  let w1 := (prepareRootfs toy_init None toy_world).1 in
  let m := toy_mount "/data" "/data" "bind" (Z.lor MS_BIND MS_RDONLY) in
  mounted_read_only "/c" m (calls (finalizeRootfs toy_config w1).1).
Proof.
  cbv zeta. apply (read_only_honoured toy_init None toy_world (prepareRootfs toy_init None toy_world).1
    (prepareRootfs toy_init None toy_world).1 (finalizeRootfs toy_config (prepareRootfs toy_init None toy_world).1).1
    (toy_mount "/data" "/data" "bind" (Z.lor MS_BIND MS_RDONLY))).
  - vm_compute. reflexivity.
  - done.
  - vm_compute. reflexivity.
  - right. right. by left.
  - done.
  - done.
Defined.

(** *** The parent, alone and together with the child *)

Definition toy_parent : initProcess := mkInitProcess toy_init true false 7 8 9 false.
Definition toy_links : list (string * string) := [("/proc/2/fd/0", "pipe:[1]"); ("/proc/2/fd/1", "pipe:[2]"); ("/proc/2/fd/2", "pipe:[3]")].
Definition toy_talk : world toy := mkWorld (mkToy 3 toy_links [(procHooks, -1); (procReady, -1)]) 18 [].
Example toy_started : (start 3 toy_parent toy_talk).2 = Ok (mkStarted 2 ["pipe:[1]"; "pipe:[2]"; "pipe:[3]"]).
Proof. vm_compute. reflexivity. Qed.

Lemma start_ends_witness :
  exists w' r, r <> Err ErrRunning /\ forall fuel, (2 < fuel)%nat -> start fuel toy_parent toy_talk = (w', r).
Proof.
  apply (start_ends (fun k => length (inbox k)) toy_parent toy_talk).
  - intros m k k' msg. cbn. unfold toy_receive. destruct (inbox k) as [|x l] eqn:Ei; intros [= <- <-]. cbn. lia.
  - intros A m c k. destruct c; cbn; try lia. unfold toy_receive. destruct (inbox k) eqn:Ei; cbn; rewrite ?Ei; cbn; lia.
  - intros A m c k e. destruct c; cbn; try discriminate; try (intros [= <-]; reflexivity).
    + induction (links k) as [|[a b] l IH]; cbn; [by intros [= <-]|]. by case_bool_decide.
    + unfold toy_receive. destruct (inbox k); cbn; [by intros [= <-]|done].
Defined.

Definition toy_standard : linuxStandardInit := mkStandardInit 0 0 5 6 None toy_init.
Definition toy_both : world (link toy toy) := both (mkToy 3 [] []) toy_talk 18.
Lemma exec_after_parent_witness :
  exists t, l_exec (kernel (@Init _ (link_kernel toy_parent 2) _ toy_standard toy_both).1) = Some t /\ resume_done toy_parent t /\ run_done toy_parent 2 t.
Proof.
  destruct (l_exec (kernel (@Init _ (link_kernel toy_parent 2) _ toy_standard toy_both).1)) as [t|] eqn:E.
  - exists t. split; [done|]. by apply (exec_after_parent toy_parent 2 toy_standard (mkToy 3 [] []) toy_talk 18 t).
  - exfalso. revert E. vm_compute. discriminate.
Defined.
