(* ===== verification/SystemdUnits.v ===== *)
(** * Units of systemd: names, properties and values

    The parts of cgroups/systemd that compute: the path of a slice and the name of a unit
    (common.go), the values of the properties CPUQuotaPerSecUSec and AllowedCPUs
    (common.go, cpuset.go), the version of systemd, the lines of /proc/devices, and the
    standard functions they use. *)

From S2P Require Import Prelude GoStrings GoPath Devices Configs DeviceEmulator UserDb SpecTypes CgroupFiles.

Open Scope string_scope.
Open Scope list_scope.
#[local] Open Scope Z_scope.

(** ** The standard library *)

(** [strings.Contains(s, sub)] *)
Fixpoint contains_sub (sub s : string) : bool :=
  has_prefix sub s || match s with String _ s' => contains_sub sub s' | EmptyString => false end.

Fixpoint span_str (f : ascii -> bool) (s : string) : string * string :=
  match s with
  | String c s' => if f c then let '(a, b) := span_str f s' in (String c a, b) else (EmptyString, s)
  | EmptyString => (EmptyString, EmptyString)
  end.

Definition ErrSyntax : error := ErrNew "invalid syntax".
Definition ch_quote : ascii := chr 34.
Definition ch_apostrophe : ascii := chr 39.
Definition ch_backquote : ascii := chr 96.
Definition ch_backslash : ascii := chr 92.

(** [n] digits of a base, as the escapes of a quoted string have them. *)
Definition hex_value (c : ascii) : option Z :=
  let n := Z.of_N (N_of_ascii c) in
  if (48 <=? n) && (n <=? 57) then Some (n - 48)
  else if (97 <=? n) && (n <=? 102) then Some (n - 87)
  else if (65 <=? n) && (n <=? 70) then Some (n - 55) else None.
Fixpoint base_digits (base : Z) (n : nat) (acc : Z) (s : string) : option (Z * string) :=
  match n, s with
  | O, _ => Some (acc, s)
  | S n', String c s' => v ← hex_value c; if v <? base then base_digits base n' (acc * base + v) s' else None
  | S _, EmptyString => None
  end.

Definition byte_str (v : Z) : string := String (byte_of v) "".
(** The escape after a backslash: what it stands for, and the rest. *)
Definition unescape (quote : ascii) (s : string) : option (string * string) :=
  match s with
  | EmptyString => None
  | String c s' =>
      let single (v : Z) := Some (byte_str v, s') in
      let rune (n : nat) :=
        vs ← base_digits 16 n 0 s';
        let '(v, rest) := vs in
        if (1114111 <? v) || ((55296 <=? v) && (v <=? 57343)) then None else Some (format_rune v, rest) in
      match Z.of_N (N_of_ascii c) with
      | 97 => single 7 | 98 => single 8 | 102 => single 12 | 110 => single 10 | 114 => single 13 | 116 => single 9 | 118 => single 11
      | 120 => vs ← base_digits 16 2 0 s'; Some (byte_str vs.1, vs.2)
      | 117 => rune 4%nat
      | 85 => rune 8%nat
      | 48 | 49 | 50 | 51 | 52 | 53 | 54 | 55 =>
          vs ← base_digits 8 3 0 s; if 255 <? vs.1 then None else Some (byte_str vs.1, vs.2)
      | 92 => single 92
      | 39 | 34 => if bool_decide (c = quote) then Some (String c "", s') else None
      | _ => None
      end
  end.
(** The text up to the closing quote, and what follows it; the fuel is the length. *)
Fixpoint unquote_go (fuel : nat) (quote : ascii) (s : string) : option (list string * string) :=
  match fuel, s with
  | S n, String c s' =>
      if bool_decide (c = quote) then Some ([], s')
      else if bool_decide (c = ch_newline) then None
      else tr ← (if bool_decide (c = ch_backslash) then unescape quote s' else Some (String c "", s'));
           cs ← unquote_go n quote tr.2; Some (tr.1 :: cs.1, cs.2)
  | _, _ => None
  end.
(** [strconv.Unquote], for text that is valid UTF-8. *)
Definition Unquote (s : string) : result string :=
  match s with
  | String q s' =>
      if bool_decide (q = ch_backquote) then
        match cut q s' with
        | Some (body, "") => Ok (join "" (split (chr 13) body))
        | _ => Err ErrSyntax
        end
      else if bool_decide (q = ch_quote) || bool_decide (q = ch_apostrophe) then
        match unquote_go (String.length s') q s' with
        | Some (body, "") => if bool_decide (q = ch_apostrophe) && negb (length body =? 1)%nat then Err ErrSyntax else Ok (join "" body)
        | _ => Err ErrSyntax
        end
      else Err ErrSyntax
  | EmptyString => Err ErrSyntax
  end.

(** [fmt.Sscanf(line, "%d %s", &major, &name)] of a line without spaces around it: the
    two values, or the error. *)
Definition Sscanf_d_s (line : string) : result (Z * string) :=
  let '(sign, body) := match line with
    | String c l => if bool_decide (c = chr 43) || bool_decide (c = chr 45) then (String c "", l) else ("", line)
    | EmptyString => ("", line) end in
  let '(digits, rest) := span_str is_digit body in
  if bool_decide (digits = "") then Err (ErrNew "expected integer") else
  match atoi (sign +:+ digits) with
  | (_, Some e) => Err e
  | (major, None) =>
      match rest with
      | EmptyString => Err (ErrNew "unexpected EOF")
      | String c _ =>
          if negb (is_space c) then Err (ErrNew "expected space in input to match format") else
          let '(name, _) := span_str (fun a => negb (is_space a)) (trim_left rest) in
          if bool_decide (name = "") then Err (ErrNew "unexpected EOF") else Ok (major, name)
      end
  end.

(** [big.Int.Bytes]: the bytes of a natural number, the most significant first. *)
Fixpoint le_bytes (n : nat) (z : Z) : list Z :=
  match n with O => [] | S n' => Z.land z 255 :: le_bytes n' (Z.shiftr z 8) end.
Definition byte_len (z : Z) : nat := if z =? 0 then O else S (Z.to_nat (Z.log2 z / 8)).
Definition Bytes (z : Z) : list Z := rev (le_bytes (byte_len z) z).

(** ** The package systemd: what it computes *)
Module sd.

(** *** Slices and units *)

Definition ch_dash : ascii := chr 45.
Definition dot_slice : string := ".slice".
Definition invalid_slice : error := ErrNew "invalid slice name: %s".

(** The loop of [ExpandSlice]. *)
Fixpoint expand (components : list string) (path prefix : string) : result string :=
  match components with
  | [] => Ok path
  | component :: l =>
      if bool_decide (component = "") then Err invalid_slice else
      expand l (path +:+ "/" +:+ prefix +:+ component +:+ dot_slice) (prefix +:+ component +:+ "-")
  end.
Definition ExpandSlice (slice : string) : result string :=
  if (String.length slice <? String.length dot_slice)%nat || negb (has_suffix dot_slice slice) then Err invalid_slice else
  if contains_char ch_slash slice then Err invalid_slice else
  let sliceName := trim_suffix slice dot_slice in
  if bool_decide (sliceName = "-") then Ok "/" else expand (split ch_dash sliceName) "" "".

Definition getUnitName (c : configs.Cgroup) : string :=
  if negb (has_suffix dot_slice (configs.Name c)) then configs.ScopePrefix c +:+ "-" +:+ configs.Name c +:+ ".scope" else configs.Name c.
Definition getUnitType (unitName : string) : string := if has_suffix dot_slice unitName then "Slice" else "Scope".

Definition groupPrefix (ruleType : Z) : result string :=
  if bool_decide (ruleType = BlockDevice) then Ok "block-"
  else if bool_decide (ruleType = CharDevice) then Ok "char-"
  else Err (ErrNew "device type %v has no group prefix").

(** The loop of [findDeviceGroup]; [None] when the lines end. *)
Fixpoint find_group (ruleType ruleMajor : Z) (prefix : string) (currentType : Z) (lines : list string) : result (option string) :=
  match lines with
  | [] => Ok None
  | text :: ls =>
      let line := trim_space text in
      if bool_decide (line = "Block devices:") then find_group ruleType ruleMajor prefix BlockDevice ls
      else if bool_decide (line = "Character devices:") then find_group ruleType ruleMajor prefix CharDevice ls
      else if bool_decide (line = "") then find_group ruleType ruleMajor prefix currentType ls
      else if negb (currentType =? ruleType) then find_group ruleType ruleMajor prefix currentType ls
      else match Sscanf_d_s line with
           | Err e => Err (ErrWrap "scan /proc/devices line %q" e)
           | Ok (currMajor, currName) =>
               if currMajor =? ruleMajor then Ok (Some (prefix +:+ currName)) else find_group ruleType ruleMajor prefix currentType ls
           end
  end.

(** *** The version *)

(** The group of the leftmost match of [v?([0-9]+)]: the first run of digits. *)
Definition first_number (s : string) : option string :=
  let '(_, rest) := span_str (fun c => negb (is_digit c)) s in
  let '(digits, _) := span_str is_digit rest in
  if bool_decide (digits = "") then None else Some digits.
Definition systemdVersionAtoi (verStr : string) : Z * option error :=
  match first_number verStr with
  | None => (0, Some (ErrNew "can't parse version %s: incorrect number of matches %v"))
  | Some digits => match atoi digits with
                   | (_, Some e) => (-1, Some (ErrWrap "can't parse version" e))
                   | (ver, None) => (ver, None)
                   end
  end.

(** *** Processor time *)

Definition defCPUQuotaPeriod : Z := 100000.
(** The value of CPUQuotaPerSecUSec. *)
Definition cpuQuotaPerSecUSec (quota period : Z) : Z :=
  if 0 <? quota then
    let period := if period =? 0 then defCPUQuotaPeriod else period in
    let v := uint64 (int64 (quota * 1000000)) / period in
    if negb (v mod 10000 =? 0) then uint64 (uint64 (v / 10000 + 1) * 10000) else v
  else max_uint64.

(** *** Lists of processors *)

(** [for i := start; i <= end; i++ { bits.SetBit(bits, int(i), 1) }] for [n] numbers. *)
Fixpoint set_range (n : nat) (start bits : Z) : Z :=
  match n with O => bits | S n' => set_range n' (start + 1) (Z.setbit bits start) end.
Definition add_element (element : string) (bits : Z) : result Z :=
  let r := trim_space element in
  if bool_decide (r = "") then Ok bits else
  match split_n ch_dash 2 r with
  | [a; b] =>
      start ← parse_uint 32 a;
      end_ ← parse_uint 32 b;
      if end_ <? start then Err (ErrNew "invalid range") else Ok (set_range (Z.to_nat (end_ - start + 1)) start bits)
  | _ => val ← parse_uint 32 r; Ok (Z.setbit bits val)
  end.
Fixpoint add_elements (l : list string) (bits : Z) : result Z :=
  match l with [] => Ok bits | e :: l => bits ← add_element e bits; add_elements l bits end.
Definition RangeToBits (str : string) : result (list Z) :=
  bits ← add_elements (split ch_comma str) 0;
  match Bytes bits with [] => Err (ErrNew "empty value") | ret => Ok ret end.
End sd.
