(* ===== verification/Systemd.v ===== *)
(** * The systemd cgroup managers: cgroups/systemd

    [Bus] is what the managers ask of D-Bus, of systemd behind it and of the environment; the
    vendored packages that speak the protocol are its operations.  The variables of the package (the
    shared connection, the version of systemd) are [globals], beside the world.  A call that finds its
    connection closed is made again on a new one, at most [tries] times. *)

From S2P Require Import Prelude GoAct GoStrings GoPath GoFs Devices Configs UserDb DeviceEmulator Validator ContainerState Freezer SpecTypes CgroupFiles CgroupV2 CgroupV2Stats CgroupV1 CgroupV1Stats CgroupV1Paths SystemdUnits.

Open Scope string_scope.
Open Scope list_scope.
#[local] Open Scope Z_scope.

(** The files of a cgroup, beside a state that they know nothing of. *)
#[global] Instance product_fs {W S} `{CgroupFs W} : CgroupFs (W * S) := {|
  sys_open := fun p f => from_fs (sys_open p f);
  sys_write := fun p d => from_fs (sys_write p d);
  sys_read := fun p => from_fs (sys_read p);
  sys_stat := fun p => from_fs (sys_stat p);
  sys_statfs := fun p => from_fs (sys_statfs p);
  sys_mkdir := fun p => from_fs (sys_mkdir p);
  sys_mkdirall := fun p => from_fs (sys_mkdirall p);
  sys_rmdir := fun p => from_fs (sys_rmdir p);
  sys_readdir := fun p => from_fs (sys_readdir p);
  sys_sleep := from_fs sys_sleep;
  sys_attach_filter := fun i p d => from_fs (sys_attach_filter i p d) |}.

Module systemd.
Export sd.

(** ** Properties *)

Record deviceAllowEntry := mkDeviceAllow { da_Path : string; da_Perms : string }.
#[global] Instance deviceAllowEntry_eq_dec : EqDecision deviceAllowEntry.
Proof. solve_decision. Defined.

(** The values that the package sends and receives. *)
Inductive Units :=
  | PString (s : string) | PBool (b : bool) | PUint64 (z : Z) | PBytes (l : list Z) | PUint32s (l : list Z)
  | PStrings (l : list string) | PDevices (l : list deviceAllowEntry) | PVariant (v : configs.Variant).
Definition Property : Type := string * Units.
Definition newProp (name : string) (units : Units) : Property := (name, units).

(** Connections to systemd and to a bus, by their address. *)
Definition Conn : Type := nat.
Definition RawConn : Type := nat.

(** [WaitJob] is what arrives on the status channel, or nothing within 30 seconds. *)
Class Bus (W : Type) := {
  NewWithContext : Act W Conn;
  NewConnection : Act W RawConn -> Act W Conn;
  CloseConn : Conn -> Act W unit;
  dbus_Dial : string -> Act W RawConn;
  dbus_Auth : RawConn -> string -> Act W unit;
  dbus_Hello : RawConn -> Act W unit;
  dbus_Close : RawConn -> Act W unit;
  StartTransientUnitContext : Conn -> string -> list Property -> Act W unit;
  StopUnitContext : Conn -> string -> Act W unit;
  WaitJob : Act W (option string);
  ResetFailedUnitContext : Conn -> string -> Act W unit;
  GetUnitTypePropertyContext : Conn -> string -> string -> string -> Act W Units;
  SetUnitPropertiesContext : Conn -> string -> list Property -> Act W unit;
  GetManagerProperty : Conn -> string -> Act W string;
  os_Getenv : string -> Act W string;
  os_Getuid : Act W Z;
  os_Lstat_IsDir : string -> Act W bool;
  os_Chown : string -> Z -> Z -> Act W unit;
  RunningInUserNS : Act W bool;
  exec_CombinedOutput : list string -> Act W string;
  SecureJoin : string -> string -> Act W string }.

(** [dbus.ErrClosed]; and an error of the type [dbus.Error] with its name. *)
Definition ErrClosed : error := ErrNew "dbus: connection closed by user".
Definition dbus_Error (name : string) : error := ErrWrap "dbus.Error" (ErrNew name).

(** [errors.As(err, &derr)] *)
Fixpoint as_dbus_Error (e : error) : option string :=
  match e with
  | ErrWrap t inner =>
      match inner with
      | ErrNew name => if bool_decide (t = "dbus.Error") then Some name else None
      | ErrWrap _ _ => as_dbus_Error inner
      end
  | ErrNew _ => None
  end.
Definition isDbusError (err : error) (name : string) : bool :=
  match as_dbus_Error err with Some derr => contains_sub name derr | None => false end.
Definition isUnitExists (err : error) : bool := isDbusError err "org.freedesktop.systemd1.UnitExists".

(** ** The variables of the package *)
Record globals := mkGlobals {
  dbusC : option Conn; dbusInited : bool; dbusRootless : bool; version : option Z; isRunningSystemd : option bool }.
Definition set_dbusC (c : option Conn) (g : globals) : globals := mkGlobals c (dbusInited g) (dbusRootless g) (version g) (isRunningSystemd g).
Definition set_inited (rootless : bool) (g : globals) : globals := mkGlobals (dbusC g) true rootless (version g) (isRunningSystemd g).
Definition set_version (v : Z) (g : globals) : globals := mkGlobals (dbusC g) (dbusInited g) (dbusRootless g) (Some v) (isRunningSystemd g).
Definition set_running (b : bool) (g : globals) : globals := mkGlobals (dbusC g) (dbusInited g) (dbusRootless g) (version g) (Some b).
Definition initial : globals := mkGlobals None false false None None.

Section ops.
Context {W : Type} `{CgroupFs W} `{Bus W} (tries : nat).
Definition world : Type := W * globals.

(** ** The connection: dbus.go and user.go *)

(** The program panics when the two kinds of bus are mixed. *)
Definition newDbusConnManager (rootless : bool) : Act world unit :=
  g ← gets id;
  if dbusInited g && negb (Bool.eqb rootless (dbusRootless g)) then throw (ErrNew "panic: can't have both root and rootless dbus")
  else modify (set_inited rootless).

(** The first line of the output that has a prefix: what follows it. *)
Fixpoint line_with (prefix : string) (lines : list string) : option string :=
  match lines with
  | [] => None
  | text :: ls => let s := trim_space text in if has_prefix prefix s then Some (trim_prefix s prefix) else line_with prefix ls
  end.

Definition DetectUID : Act W Z :=
  inside ← RunningInUserNS;
  if negb inside then os_Getuid else
  b ← wrapping "could not execute busctl" (exec_CombinedOutput ["busctl"; "--user"; "--no-pager"; "status"]);
  let '(lines, err) := Scanner (Ok b) in
  match line_with "OwnerUID=" lines with
  | Some uidStr => match atoi uidStr with
                   | (_, Some e) => throw (ErrWrap "could not detect the OwnerUID" e)
                   | (i, None) => mret i
                   end
  | None => throw (default (ErrNew "could not detect the OwnerUID") err)
  end.

Definition no_bus_address : error := ErrNew "could not detect DBUS_SESSION_BUS_ADDRESS".
Definition DetectUserDbusSessionBusAddress : Act W string :=
  env ← os_Getenv "DBUS_SESSION_BUS_ADDRESS";
  if negb (bool_decide (env = "")) then mret env else
  xdr ← os_Getenv "XDG_RUNTIME_DIR";
  let busPath := Join [xdr; "bus"] in
  there ← (if bool_decide (xdr = "") then mret false else r ← try_ (sys_stat busPath); mret (is_ok r));
  if there : bool then mret ("unix:path=" +:+ busPath) else
  b ← wrapping "could not execute systemctl" (exec_CombinedOutput ["systemctl"; "--user"; "--no-pager"; "show-environment"]);
  match line_with "DBUS_SESSION_BUS_ADDRESS=" (Scanner (Ok b)).1 with
  | Some address => mret address
  | None => throw no_bus_address
  end.

(** A step on a bus connection that closes it when it fails. *)
Definition or_close (conn : RawConn) (text : string) (m : Act W unit) : Act W unit :=
  r ← try_ m;
  match r with Ok _ => mret tt | Err e => _ ← try_ (dbus_Close conn); throw (ErrWrap text e) end.
Definition dialBus (addr : string) (uid : Z) : Act W RawConn :=
  conn ← wrapping "error while dialing" (dbus_Dial addr);
  _ ← or_close conn "error while authenticating connection" (dbus_Auth conn (format_int uid));
  _ ← or_close conn "error while sending Hello message" (dbus_Hello conn);
  mret conn.
Definition newUserSystemdDbus : Act W Conn :=
  addr ← DetectUserDbusSessionBusAddress;
  uid ← DetectUID;
  NewConnection (dialBus addr uid).

Definition newConnection : Act world Conn :=
  g ← gets id;
  from_fs (if dbusRootless g then newUserSystemdDbus else NewWithContext).
Definition getConnection : Act world Conn :=
  g ← gets id;
  match dbusC g with
  | Some conn => mret conn
  | None => conn ← wrapping "failed to connect to dbus" newConnection; _ ← modify (set_dbusC (Some conn)); mret conn
  end.
Definition resetConnection (conn : Conn) : Act world unit :=
  g ← gets id;
  if bool_decide (dbusC g = Some conn) then _ ← try_ (from_fs (CloseConn conn)); modify (set_dbusC None) else mret tt.

Definition out_of_tries : error := ErrNew "dbus connection is closed for ever".
Fixpoint retry (n : nat) {A} (op : Conn -> Act W A) : Act world A :=
  match n with
  | O => throw out_of_tries
  | S n' =>
      conn ← getConnection;
      r ← try_ (from_fs (op conn));
      match r with
      | Ok a => mret a
      | Err err => if negb (errors_is err ErrClosed) then throw err else _ ← resetConnection conn; retry n' op
      end
  end.
Definition retryOnDisconnect {A} (op : Conn -> Act W A) : Act world A := retry tries op.

(** ** Calls to systemd: common.go *)

Definition IsRunningSystemd : Act world bool :=
  g ← gets id;
  match isRunningSystemd g with
  | Some b => mret b
  | None => r ← try_ (from_fs (os_Lstat_IsDir "/run/systemd/system"));
            let b := match r with Ok dir => dir | Err _ => false end in
            _ ← modify (set_running b); mret b
  end.

Definition resetFailedUnit (name : string) : Act world unit :=
  _ ← try_ (retryOnDisconnect (fun c => ResetFailedUnitContext c name)); mret tt.

Definition startUnit (unitName : string) (properties : list Property) : Act world unit :=
  r ← try_ (retryOnDisconnect (fun c => StartTransientUnitContext c unitName properties));
  match r with
  | Ok _ =>
      status ← from_fs WaitJob;
      match status with
      | Some s => if bool_decide (s = "done") then mret tt
                  else _ ← resetFailedUnit unitName; throw (ErrNew "error creating systemd unit")
      | None => _ ← resetFailedUnit unitName; throw (ErrNew "Timeout waiting for systemd to create")
      end
  | Err err => if negb (isUnitExists err) then throw err else mret tt
  end.

Definition stopUnit (unitName : string) : Act world unit :=
  r ← try_ (retryOnDisconnect (fun c => StopUnitContext c unitName));
  match r with
  | Ok _ =>
      status ← from_fs WaitJob;
      match status with
      | Some _ => mret tt
      | None => throw (ErrNew "Timed out while waiting for systemd to remove")
      end
  | Err _ => mret tt
  end.

Definition getUnitTypeProperty (unitName unitType propertyName : string) : Act world Units :=
  retryOnDisconnect (fun c => GetUnitTypePropertyContext c unitName unitType propertyName).
Definition setUnitProperties (name : string) (properties : list Property) : Act world unit :=
  retryOnDisconnect (fun c => SetUnitPropertiesContext c name properties).
Definition getManagerProperty (name : string) : Act world string :=
  str ← retryOnDisconnect (fun c => GetManagerProperty c name);
  lift (Unquote str).

Definition systemdVersion : Act world Z :=
  g ← gets id;
  match version g with
  | Some v => mret v
  | None =>
      verStr ← try_ (getManagerProperty "Version");
      let v := match verStr with Ok s => (systemdVersionAtoi s).1 | Err _ => -1 end in
      _ ← modify (set_version v); mret v
  end.

(** ** Device rules *)

Definition findDeviceGroup (ruleType ruleMajor : Z) : Act W string :=
  _ ← sys_open "/proc/devices" O_RDONLY;
  prefix ← lift (groupPrefix ruleType);
  text ← try_ (sys_read "/proc/devices");
  let '(lines, err) := Scanner text in
  group ← lift (find_group ruleType ruleMajor prefix 0 lines);
  match group, err with
  | Some g, _ => mret g
  | None, Some e => throw (ErrWrap "reading /proc/devices" e)
  | None, None => mret ""
  end.

Definition allowAllDevices : list Property := [newProp "DevicePolicy" (PString "auto"); newProp "DeviceAllow" (PDevices [])].

(** The entry of a rule; [None] for a rule that is skipped. *)
Definition device_entry (rule : Rule) : Act W (option deviceAllowEntry) :=
  if negb (Allow rule) then throw (ErrNew "[internal error] cannot add deny rule to systemd DeviceAllow list") else
  if negb (bool_decide (Type_ rule = BlockDevice) || bool_decide (Type_ rule = CharDevice))
  then throw (ErrNew "invalid device type for DeviceAllow") else
  let entry path := Some (mkDeviceAllow path (Permissions_ rule)) in
  if bool_decide (Major rule = Wildcard) then
    if negb (bool_decide (Minor rule = Wildcard)) then mret None else
    prefix ← lift (groupPrefix (Type_ rule)); mret (entry (prefix +:+ "*"))
  else if bool_decide (Minor rule = Wildcard) then
    group ← wrapping "unable to find device" (findDeviceGroup (Type_ rule) (Major rule));
    mret (if bool_decide (group = "") then None else entry group)
  else
    let path := (if bool_decide (Type_ rule = BlockDevice) then "/dev/block/" else "/dev/char/")
                +:+ format_int (Major rule) +:+ ":" +:+ format_int (Minor rule) in
    r ← try_ (sys_stat path);
    mret (match r with Ok _ => entry path | Err _ => None end).
Fixpoint device_entries (rules : list Rule) : Act W (list deviceAllowEntry) :=
  match rules with
  | [] => mret []
  | rule :: l => e ← device_entry rule; es ← device_entries l; mret (match e with Some e => e :: es | None => es end)
  end.

Definition generateDeviceProperties (r : configs.Resources) : Act W (list Property) :=
  if configs.SkipDevices r then mret [] else
  let properties := [newProp "DevicePolicy" (PString "strict"); newProp "DeviceAllow" (PDevices [])] in
  configEmu ← lift (wrap_err "unable to apply rule for systemd" (apply_rules emptyEmulator (configs.Devices r)));
  if IsBlacklist configEmu then mret (if IsAllowAll configEmu then allowAllDevices else properties) else
  finalRules ← lift (wrap_err "unable to get simplified rules for systemd" (Rules configEmu));
  deviceAllowList ← device_entries finalRules;
  mret (properties ++ [newProp "DeviceAllow" (PDevices deviceAllowList)]).

(** ** Processors: the properties to append *)

Definition addCpuQuota (quota period : Z) : Act world (list Property) :=
  p ← (if period =? 0 then mret [] else
       sdVer ← systemdVersion; mret (if 242 <=? sdVer then [newProp "CPUQuotaPeriodUSec" (PUint64 period)] else []));
  mret (p ++ (if negb (quota =? 0) || negb (period =? 0)
              then [newProp "CPUQuotaPerSecUSec" (PUint64 (cpuQuotaPerSecUSec quota period))] else [])).

Definition bits_prop (name text what : string) : result (list Property) :=
  if bool_decide (text = "") then Ok [] else
  bits ← wrap_err what (RangeToBits text); Ok [newProp name (PBytes bits)].
Definition addCpuset (cpus mems : string) : Act world (list Property) :=
  if bool_decide (cpus = "") && bool_decide (mems = "") then mret [] else
  sdVer ← systemdVersion;
  if sdVer <? 244 then mret [] else
  a ← lift (bits_prop "AllowedCPUs" cpus "resources.CPU.Cpus conversion error");
  b ← lift (bits_prop "AllowedMemoryNodes" mems "resources.CPU.Mems conversion error");
  mret (a ++ b).

(** ** Units *)

(** The properties of a new unit, which differ in the name of the accounting of block devices. *)
Definition unit_properties (c : configs.Cgroup) (slice ioAccounting : string) (pid : Z) : list Property :=
  [newProp "Description" (PString ("libcontainer container " +:+ configs.Name c))]
  ++ (if has_suffix dot_slice (getUnitName c) then [newProp "Wants" (PStrings [slice])]
      else [newProp "Slice" (PString slice); newProp "Delegate" (PBool true)])
  ++ (if pid =? -1 then [] else [newProp "PIDs" (PUint32s [uint32 pid])])
  ++ [newProp "MemoryAccounting" (PBool true); newProp "CPUAccounting" (PBool true); newProp ioAccounting (PBool true);
      newProp "TasksAccounting" (PBool true); newProp "DefaultDependencies" (PBool false)]
  ++ map (fun p => newProp p.1 (PVariant p.2)) (configs.SystemdProps c).

Definition when_prop (c : bool) (name : string) (v : Z) : list Property := if c then [newProp name (PUint64 v)] else [].
Definition pids_prop (r : configs.Resources) : list Property :=
  when_prop ((0 <? configs.PidsLimit r) || (configs.PidsLimit r =? -1)) "TasksMax" (uint64 (configs.PidsLimit r)).
End ops.
End systemd.
