(* ===== verification/SystemdV1.v ===== *)
(** * The systemd manager of cgroup v1: cgroups/systemd/v1.go *)

From S2P Require Import Prelude GoAct GoStrings GoPath GoFs Devices Configs UserDb DeviceEmulator Validator ContainerState Freezer SpecTypes CgroupFiles CgroupV2 CgroupV2Stats CgroupV1 CgroupV1Stats CgroupV1Paths SystemdUnits Systemd.

Open Scope string_scope.
Open Scope list_scope.
#[local] Open Scope Z_scope.

Module sdv1.
Import systemd.

Record legacyManager := mkLegacy { l_cgroups : configs.Cgroup; l_paths : gmap string string }.

Definition errSubsystemDoesNotExist : error := ErrNew "cgroup: subsystem does not exist".

(** A group that systemd is to handle has no [Join]. *)
Definition legacySubsystems : list fs.subsystem :=
  [fs.CpusetGroup; fs.DevicesGroup; fs.MemoryGroup; fs.CpuGroup; fs.CpuacctGroup; fs.PidsGroup; fs.BlkioGroup; fs.HugetlbGroup;
   fs.PerfEventGroup; fs.FreezerGroup; fs.NetPrioGroup; fs.NetClsGroup; fs.NameGroup "name=systemd" false; fs.RdmaGroup].

(** ** Paths *)

(** [init]: what /proc/1/cgroup says. *)
Definition GetInitCgroup (env : v1paths.Env) (init : result (gmap string string)) (subsystem : string) : result string :=
  if v1paths.unified env then Err v1paths.errUnified else
  cgroups ← init; v1paths.getControllerPath env subsystem cgroups.
Definition getSubsystemPath (env : v1paths.Env) (init : result (gmap string string)) (slice unit_ subsystem : string) : result string :=
  mountpoint ← v1paths.FindCgroupMountpoint env "" subsystem;
  initPath ← GetInitCgroup env init subsystem;
  let initPath := trim_suffix (Clean initPath) "init.scope" in
  Ok (Join [mountpoint; initPath; slice; unit_]).

(** The loop of [initPaths]. *)
Fixpoint init_paths (env : v1paths.Env) (init : result (gmap string string)) (slice unit_ : string) (l : list fs.subsystem)
    (paths : gmap string string) : result (gmap string string) :=
  match l with
  | [] => Ok paths
  | s :: l =>
      match getSubsystemPath env init slice unit_ (fs.sys_Name s) with
      | Ok path => init_paths env init slice unit_ l (<[fs.sys_Name s:=path]> paths)
      | Err err =>
          if bool_decide (fs.sys_Name s = "devices") then Err err
          else if v1paths.IsNotFound err then init_paths env init slice unit_ l paths
          else Err err
      end
  end.
Definition initPaths (env : v1paths.Env) (init : result (gmap string string)) (hybrid : bool) (c : configs.Cgroup) : result (gmap string string) :=
  slice ← (if bool_decide (configs.Parent c = "") then Ok "system.slice" else ExpandSlice (configs.Parent c));
  paths ← init_paths env init slice (getUnitName c) legacySubsystems ∅;
  if negb hybrid then Ok paths else
  match getSubsystemPath env init slice (getUnitName c) "" with
  | Ok path => Ok (<["":=path]> paths)
  | Err err => if v1paths.IsNotFound err then Err err else Ok (<["":=""]> paths)
  end.

Section ops.
Context {W : Type} `{CgroupFs W} `{Bus W} (tries : nat).
#[local] Abbreviation world := (@world W).

(** [paths]: [None] when the map is nil. *)
Definition NewLegacyManager (env : v1paths.Env) (init : result (gmap string string)) (hybrid : bool) (cg : configs.Cgroup)
    (paths : option (gmap string string)) : Act world legacyManager :=
  if configs.Rootless cg then throw (ErrNew "cannot use rootless systemd cgroups manager on cgroup v1") else
  match configs.Unified (configs.cg_Resources cg) with
  | Some _ => throw ErrV1NoUnified
  | None =>
      paths ← lift (match paths with Some p => Ok p | None => initPaths env init hybrid cg end);
      _ ← newDbusConnManager false;
      mret (mkLegacy cg paths)
  end.

(** ** Limits *)

Definition genV1ResourcesProperties (r : configs.Resources) : Act world (list Property) :=
  dev ← from_fs (generateDeviceProperties r);
  quota ← addCpuQuota tries (configs.CpuQuota r) (configs.CpuPeriod r);
  cpuset ← addCpuset tries (configs.CpusetCpus r) (configs.CpusetMems r);
  mret (dev
        ++ when_prop (negb (configs.Memory r =? 0)) "MemoryLimit" (uint64 (configs.Memory r))
        ++ when_prop (negb (configs.CpuShares r =? 0)) "CPUShares" (configs.CpuShares r)
        ++ quota
        ++ when_prop (negb (configs.BlkioWeight r =? 0)) "BlockIOWeight" (configs.BlkioWeight r)
        ++ pids_prop r
        ++ cpuset).

(** ** The freezer *)

Definition doFreeze (m : legacyManager) (state : FreezerState) : Act world unit :=
  match l_paths m !! "freezer" with
  | None => throw errSubsystemDoesNotExist
  | Some path => fs.FreezerGroup_Set path state
  end.
Definition with_resources (f : configs.Resources -> configs.Resources) (m : legacyManager) : legacyManager :=
  let c := l_cgroups m in
  mkLegacy (configs.mkCg (configs.Name c) (configs.Parent c) (configs.cg_Path c) (configs.ScopePrefix c) (f (configs.cg_Resources c))
    (configs.Systemd c) (configs.SystemdProps c) (configs.Rootless c) (configs.OwnerUID c)) (l_paths m).
Definition Freeze (state : FreezerState) : Act (world * legacyManager) unit :=
  m ← gets id;
  _ ← from_fs (doFreeze m state);
  modify (with_resources (fs2.set_freezer_state state)).

Definition polls_used : error := ErrNew "the cgroup is freezing for ever".
(** At most [polls] looks at a cgroup that is freezing. *)
Definition GetFreezerState (polls : nat) (m : legacyManager) : Act world FreezerState :=
  match l_paths m !! "freezer" with
  | None => mret Undefined
  | Some path => fun w => default (w, Err polls_used) (@GetState world (fs.freezer_files path) polls w)
  end.

(** [reflect.ValueOf(v).Kind() == reflect.Slice && rv.Len() == 0] *)
Definition empty_slice (u : Units) : bool :=
  match u with PBytes [] | PUint32s [] | PStrings [] | PDevices [] => true | _ => false end.
(** systemd allows every device to the unit, as far as it says. *)
Definition default_devices (unitName : string) : Act world bool :=
  let unitType := getUnitType unitName in
  devPolicy ← try_ (getUnitTypeProperty tries unitName unitType "DevicePolicy");
  match devPolicy with
  | Ok (PString "auto") =>
      devAllow ← try_ (getUnitTypeProperty tries unitName unitType "DeviceAllow");
      mret (match devAllow with Ok u => empty_slice u | Err _ => false end)
  | _ => mret false
  end.

(** The two answers: freeze before, thaw after. *)
Definition freezeBeforeSet (polls : nat) (m : legacyManager) (unitName : string) (r : configs.Resources) : Act world (bool * bool) :=
  skip ← (if configs.SkipDevices r
          then if configs.SkipFreezeOnSet r then mret true else default_devices unitName
          else mret false);
  if skip : bool then mret (false, false) else
  freezerState ← GetFreezerState polls m;
  let frozen := bool_decide (freezerState = Frozen) in
  mret (negb frozen, negb frozen && negb (bool_decide (configs.Freezer r = Frozen))).

(** The properties are set between a freeze and a thaw, which may fail. *)
Definition set_frozen (m : legacyManager) (unitName : string) (properties : list Property) (needsFreeze needsThaw : bool) : Act world (result unit) :=
  _ ← (if needsFreeze then _ ← try_ (doFreeze m Frozen); mret tt else mret tt);
  setErr ← try_ (setUnitProperties tries unitName properties);
  _ ← (if needsThaw then _ ← try_ (doFreeze m Thawed); mret tt else mret tt);
  mret setErr.

Definition set_unit (polls : nat) (m : legacyManager) (r : configs.Resources) : Act world unit :=
  properties ← genV1ResourcesProperties r;
  let unitName := getUnitName (l_cgroups m) in
  needs ← freezeBeforeSet polls m unitName r;
  setErr ← set_frozen m unitName properties needs.1 needs.2;
  lift setErr.

(** [Set] of resources that are not nil; the caller's resources are among the objects. *)
Definition Set_ (polls : nat) (userns : bool) (m : legacyManager) : Act (world * fs.objects) unit :=
  r ← gets fs.o_res;
  match configs.Unified r with
  | Some _ => throw ErrV1NoUnified
  | None =>
      _ ← from_fs (set_unit polls m r);
      for_each (fun sys => match l_paths m !! fs.sys_Name sys with None => mret tt | Some path => fs.sys_Set userns sys path end) legacySubsystems
  end.

(** ** Processes *)

Definition join_one (m : legacyManager) (pid : Z) (sys : fs.subsystem) : Act world unit :=
  let name := fs.sys_Name sys in
  if bool_decide (name = "name=systemd") then mret tt else
  match l_paths m !! name with
  | None => mret tt
  | Some path =>
      if bool_decide (name = "cpuset") then fs.ApplyDir path (configs.cg_Resources (l_cgroups m)) pid
      else _ ← sys_mkdirall path; cgroups.WriteCgroupProc path pid
  end.
Definition joinCgroups (m : legacyManager) (pid : Z) : Act world unit := for_each (join_one m pid) legacySubsystems.

Definition Apply (m : legacyManager) (pid : Z) : Act world unit :=
  let c := l_cgroups m in
  let slice := if bool_decide (configs.Parent c = "") then "system.slice" else configs.Parent c in
  _ ← startUnit tries (getUnitName c) (unit_properties c slice "BlockIOAccounting" pid);
  joinCgroups m pid.

(** The error of the unit counts first, then that of the directories that are left; the map of
    the manager keeps those. *)
Definition Destroy (depth : nat) : Act (world * legacyManager) unit :=
  m ← gets id;
  stopErr ← try_ (from_fs (stopUnit tries (getUnitName (l_cgroups m))));
  left ← from_fs (cgroups.RemovePaths depth (map_to_list (l_paths m)));
  _ ← modify (fun m => mkLegacy (l_cgroups m) (list_to_map left));
  match stopErr with
  | Ok _ => if bool_decide (left = []) then mret tt else throw (ErrNew "Failed to remove paths: %v")
  | Err e => throw e
  end.

(** ** Reading *)

Definition Path (m : legacyManager) (subsys : string) : string := default "" (l_paths m !! subsys).
Definition GetPaths (m : legacyManager) : gmap string string := l_paths m.
Definition GetCgroups (m : legacyManager) : configs.Cgroup := l_cgroups m.
Definition GetPids (m : legacyManager) : Act world (list Z) :=
  match l_paths m !! "devices" with None => throw errSubsystemDoesNotExist | Some path => cgroups.GetPids path end.
Definition GetAllPids (depth : nat) (m : legacyManager) : Act world (list Z) :=
  match l_paths m !! "devices" with None => throw errSubsystemDoesNotExist | Some path => cgroups.GetAllPids depth path end.
Definition GetStats (hugePageSizes : list string) (m : legacyManager) : Act world stats.Stats := fun w =>
  let '((w, st), r) := for_each (fun sys =>
    let path := Path m (fs.sys_Name sys) in
    if bool_decide (path = "") then mret tt else fsstats.sys_GetStats hugePageSizes sys path) legacySubsystems (w, stats.NewStats) in
  (w, match r with Ok _ => Ok st | Err e => Err e end).
Definition Exists (m : legacyManager) : Act world bool := cgroups.PathExists (Path m "devices").
Definition OOMKillCount (m : legacyManager) : Act world Z := fscommon.GetValueByKey (Path m "memory") "memory.oom_control" "oom_kill".
End ops.
End sdv1.
