(* ===== verification/SystemdV2.v ===== *)
(** * The systemd manager of cgroup v2: cgroups/systemd/v2.go

    The configuration is shared with the manager of fs2 that does the work on the files. *)

From S2P Require Import Prelude GoAct GoStrings GoPath GoFs Devices Configs UserDb DeviceEmulator Validator ContainerState Freezer SpecTypes CgroupFiles CgroupV2 CgroupV2Stats SystemdUnits Systemd.

Open Scope string_scope.
Open Scope list_scope.
#[local] Open Scope Z_scope.

Module sdv2.
Import systemd.

Record unifiedManager := mkUnified { u_path : string; fsMgr : fs2.manager }.
Definition u_cgroups (m : unifiedManager) : configs.Cgroup := fs2.config (fsMgr m).
Definition set_fsMgr (f : fs2.manager) (m : unifiedManager) : unifiedManager := mkUnified (u_path m) f.

Section ops.
Context {W : Type} `{CgroupFs W} `{Bus W} (tries : nat).
#[local] Abbreviation world := (@world W).

(** A method of the manager of fs2 as one of this manager. *)
Definition on_fsMgr {A} (f : Act (world * fs2.manager) A) : Act (world * unifiedManager) A := fun wm =>
  let '((w, fm), r) := f (wm.1, fsMgr wm.2) in ((w, set_fsMgr fm wm.2), r).

(** ** Paths *)

Definition getSliceFull (c : configs.Cgroup) : Act world string :=
  slice ← lift (if bool_decide (configs.Parent c = "") then Ok (if configs.Rootless c then "user.slice" else "system.slice")
                else ExpandSlice (configs.Parent c));
  if configs.Rootless c then managerCG ← getManagerProperty tries "ControlGroup"; mret (Join [managerCG; slice]) else mret slice.

Definition initPath (c : configs.Cgroup) (path : string) : Act world string :=
  if negb (bool_decide (path = "")) then mret path else
  sliceFull ← getSliceFull c;
  from_fs (SecureJoin fs2.UnifiedMountpoint (Join [sliceFull; getUnitName c])).

Definition NewUnifiedManager (self : result string) (config : configs.Cgroup) (res : option configs.Resources) (path : string) : Act world unifiedManager :=
  _ ← newDbusConnManager (configs.Rootless config);
  path ← initPath config path;
  fsMgr ← lift (fs2.NewManager self config res path);
  mret (mkUnified path fsMgr).

(** ** Limits *)

Definition conversion_error : string := "unified resource %q value conversion error".
Definition max_or_number (v : string) : result Z := if bool_decide (v = "max") then Ok max_uint64 else wrap_err conversion_error (parse_uint 64 v).

Definition cpu_max (v : string) : result (Z * Z) :=
  match fields v with
  | q :: more =>
      if (1 <? length more)%nat then Err (ErrNew "unified resource %q value invalid: %q") else
      quota ← (if bool_decide (q = "max") then Ok 0 else
               match atoi q with (n, None) => Ok n | (_, Some e) => Err (ErrWrap "unified resource %q period value conversion error" e) end);
      period ← match more with p :: _ => wrap_err "unified resource %q quota value conversion error" (parse_uint 64 p) | [] => Ok defCPUQuotaPeriod end;
      Ok (quota, period)
  | [] => Err (ErrNew "unified resource %q value invalid: %q")
  end.

Definition memory_property (k : string) : option string :=
  if bool_decide (k = "memory.high") then Some "MemoryHigh"
  else if bool_decide (k = "memory.low") then Some "MemoryLow"
  else if bool_decide (k = "memory.min") then Some "MemoryMin"
  else if bool_decide (k = "memory.max") then Some "MemoryMax"
  else if bool_decide (k = "memory.swap.max") then Some "MemorySwapMax" else None.
Definition cpuset_property (k : string) : option string :=
  if bool_decide (k = "cpuset.cpus") then Some "AllowedCPUs"
  else if bool_decide (k = "cpuset.mems") then Some "AllowedMemoryNodes" else None.

(** The properties of one entry of the map. *)
Definition unified_entry (k v : string) : Act world (list Property) :=
  if contains_char ch_slash k then throw (ErrNew "unified resource %q must be a file name (no slashes)") else
  if negb (length (split_n fs2.ch_dot 2 k) =? 2)%nat then throw (ErrNew "unified resource %q must be in the form CONTROLLER.PARAMETER") else
  let v := trim_space v in
  if bool_decide (k = "cpu.max") then qp ← lift (cpu_max v); addCpuQuota tries qp.1 qp.2
  else if bool_decide (k = "cpu.weight") then
    num ← lift (wrap_err conversion_error (parse_uint 64 v)); mret [newProp "CPUWeight" (PUint64 num)]
  else match cpuset_property k with
  | Some name =>
      bits ← lift (wrap_err "unified resource %q=%q conversion error" (RangeToBits v));
      sdVer ← systemdVersion tries;
      mret (if 244 <=? sdVer then [newProp name (PBytes bits)] else [])
  | None =>
      match memory_property k with
      | Some name => num ← lift (max_or_number v); mret [newProp name (PUint64 num)]
      | None => if bool_decide (k = "pids.max") then num ← lift (max_or_number v); mret [newProp "TasksMax" (PUint64 num)] else mret []
      end
  end.
(** The entries in the order in which the map is visited. *)
Fixpoint unifiedResToSystemdProps (res : list (string * string)) : Act world (list Property) :=
  match res with
  | [] => mret []
  | (k, v) :: l => a ← unified_entry k v; b ← unifiedResToSystemdProps l; mret (a ++ b)
  end.

Definition genV2ResourcesProperties (r : configs.Resources) : Act world (list Property) :=
  dev ← from_fs (generateDeviceProperties r);
  swap ← lift (ConvertMemorySwapToCgroupV2Value (configs.MemorySwap r) (configs.Memory r));
  quota ← addCpuQuota tries (configs.CpuQuota r) (configs.CpuPeriod r);
  cpuset ← addCpuset tries (configs.CpusetCpus r) (configs.CpusetMems r);
  uni ← unifiedResToSystemdProps (default [] (configs.Unified r));
  mret (dev
        ++ when_prop (negb (configs.Memory r =? 0)) "MemoryMax" (uint64 (configs.Memory r))
        ++ when_prop (negb (configs.MemoryReservation r =? 0)) "MemoryLow" (uint64 (configs.MemoryReservation r))
        ++ when_prop (negb (swap =? 0)) "MemorySwapMax" (uint64 swap)
        ++ when_prop (negb (configs.CpuWeight r =? 0)) "CPUWeight" (configs.CpuWeight r)
        ++ quota ++ pids_prop r ++ cpuset ++ uni).

Definition Set_ (userns : bool) (r : option configs.Resources) : Act (world * unifiedManager) unit :=
  match r with
  | None => mret tt
  | Some r' =>
      m ← gets id;
      properties ← from_fs (genV2ResourcesProperties r');
      _ ← from_fs (wrapping "unable to set unit properties" (setUnitProperties tries (getUnitName (u_cgroups m)) properties));
      on_fsMgr (fs2.Set_ userns r)
  end.

(** ** Processes *)

Definition cgroupDelegateFile : string := "/sys/kernel/cgroup/delegate".
Definition cgroupFilesToChown : Act W (list string) :=
  f ← try_ (sys_open cgroupDelegateFile O_RDONLY);
  match f with
  | Err _ => mret ["cgroup.procs"; "cgroup.subtree_control"; "cgroup.threads"]
  | Ok _ =>
      text ← try_ (sys_read cgroupDelegateFile);
      let '(lines, err) := Scanner text in
      match err with Some e => throw (ErrWrap "error reading" e) | None => mret lines end
  end.
Definition chown_all (path : string) (uid : Z) : Act W unit :=
  _ ← os_Chown path uid (-1);
  files ← cgroupFilesToChown;
  for_each (fun v =>
    r ← try_ (os_Chown (path +:+ "/" +:+ v) uid (-1));
    match r with Ok _ => mret tt | Err e => if errors_is e ErrNotExist then mret tt else throw e end) files.

Definition Apply (m : unifiedManager) (pid : Z) : Act world unit :=
  let c := u_cgroups m in
  let slice := if bool_decide (configs.Parent c = "") then (if configs.Rootless c then "user.slice" else "system.slice") else configs.Parent c in
  _ ← wrapping "unable to start unit" (startUnit tries (getUnitName c) (unit_properties c slice "IOAccounting" pid));
  _ ← from_fs (fs2.CreateCgroupPath (u_path m) (fs2.m_Resources (fsMgr m)));
  match configs.OwnerUID c with
  | None => mret tt
  | Some uid => from_fs (chown_all (u_path m) uid)
  end.

Definition Destroy (depth : nat) (m : unifiedManager) : Act world unit :=
  _ ← stopUnit tries (getUnitName (u_cgroups m));
  fs2.Destroy depth (fsMgr m).

(** ** Reading, and the methods of fs2 *)

Definition Path (m : unifiedManager) (_ : string) : string := u_path m.
Definition GetPaths (m : unifiedManager) : gmap string string := {["":=u_path m]}.
Definition GetCgroups (m : unifiedManager) : configs.Cgroup := u_cgroups m.
Definition Freeze (state : FreezerState) : Act (world * unifiedManager) unit := on_fsMgr (fs2.Freeze state).
Definition GetPids (m : unifiedManager) : Act world (list Z) := cgroups.GetPids (u_path m).
Definition GetAllPids (depth : nat) (m : unifiedManager) : Act world (list Z) := cgroups.GetAllPids depth (u_path m).
Definition Exists (m : unifiedManager) : Act world bool := cgroups.PathExists (u_path m).
Definition GetFreezerState (m : unifiedManager) : Act world FreezerState := fs2.GetFreezerState (fsMgr m).
Definition OOMKillCount (m : unifiedManager) : Act world Z := fs2.OOMKillCount (fsMgr m).
Definition GetStats (hugePageSizes : list string) (m : unifiedManager) (w : world) : world * (stats.Stats * option error) :=
  fs2stats.GetStats hugePageSizes (fsMgr m) w.
End ops.
End sdv2.
