(* ===== verification/SystemdThms.v ===== *)
(** * Theorems on the values that systemd is given

    Slices expand to their ancestors; the cgroups of a unit lie in their hierarchies; the share of
    processor time is rounded as documented; a list of processors becomes the right set of bits; and the
    device rules that systemd gets are rules of the configuration. *)

From S2P Require Import Prelude GoAct GoStrings GoPath GoFs Devices Configs UserDb DeviceEmulator DeviceEmulatorThms ProcStat Validator ContainerState SpecTypes CgroupFiles CgroupV1 CgroupV1Paths SystemdUnits Systemd SystemdV1.

Open Scope string_scope.
Open Scope list_scope.
#[local] Open Scope Z_scope.

Import systemd.

(** ** Suffixes *)

Lemma take_drop_str (n : nat) (s : string) : take_str n s +:+ drop_str n s = s.
Proof. revert s. induction n as [|n IH]; intros [|c s]; try done. cbn [take_str drop_str]. by rewrite app_cons, IH. Qed.

Lemma has_suffix_spec (suf s : string) : has_suffix suf s = true <-> exists t, s = t +:+ suf.
Proof.
  unfold has_suffix. rewrite andb_true_iff, Nat.leb_le, bool_decide_eq_true. split.
  - intros [_ H]. exists (take_str (String.length s - String.length suf) s). rewrite <- H at 2. by rewrite take_drop_str.
  - intros (t & ->). rewrite length_app_str. split; [lia|].
    replace (String.length t + String.length suf - String.length suf)%nat with (String.length t) by lia. apply drop_str_app.
Qed.

Lemma trim_suffix_app (s suf : string) : trim_suffix (s +:+ suf) suf = s.
Proof.
  unfold trim_suffix. rewrite (proj2 (has_suffix_spec suf (s +:+ suf))) by eauto. rewrite length_app_str.
  replace (String.length s + String.length suf - String.length suf)%nat with (String.length s) by lia. apply take_str_app.
Qed.

(** ** Slices *)

(** An element of the name of a slice. *)
Definition slice_word (c : string) : Prop := c <> "" /\ contains_char ch_dash c = false /\ contains_char ch_slash c = false.
(** The slices above a slice and itself, from the root on. *)
Definition slice_chain (words : list string) : list string :=
  map (fun k => join "-" (take k words) +:+ dot_slice) (seq 1 (length words)).
Definition slice_path (words : list string) : string := String.concat "" (map (fun s => "/" +:+ s) (slice_chain words)).

Lemma concat_cons (c : string) (l : list string) : String.concat "" (c :: l) = c +:+ String.concat "" l.
Proof. destruct l; cbn; [by rewrite app_empty_r|done]. Qed.

Lemma join_snoc (sep c : string) (l : list string) : l <> [] -> join sep (l ++ [c]) = join sep l +:+ sep +:+ c.
Proof.
  induction l as [|a l IH]; [done|]. intros _. destruct l as [|b l]; [done|].
  change ((a :: b :: l) ++ [c]) with (a :: (b :: l) ++ [c]). change (join sep (a :: b :: l)) with (a +:+ sep +:+ join sep (b :: l)).
  rewrite !app_assoc_str, <- IH by done. done.
Qed.

(** The loop, after the elements [seen]. *)
Lemma expand_spec (l seen : list string) (path : string) :
  Forall (fun c => c <> "") l ->
  expand l path (if decide (seen = []) then "" else join "-" seen +:+ "-") =
    Ok (path +:+ String.concat "" (map (fun k => "/" +:+ join "-" (seen ++ take k l) +:+ dot_slice) (seq 1 (length l)))).
Proof.
  intros Hl. revert seen path. induction Hl as [|c l Hc Hl IH]; intros seen path; [by cbn; rewrite app_empty_r|].
  cbn [expand length seq map]. rewrite bool_decide_eq_false_2 by done. set (pre := if decide _ then _ else _).
  assert (pre +:+ c = join "-" (seen ++ [c])) as Hpre.
  { subst pre. case_decide as E; [by rewrite E|]. by rewrite join_snoc, app_assoc_str by done. }
  specialize (IH (seen ++ [c])). rewrite decide_False in IH by by destruct seen.
  rewrite <- (app_assoc_str pre c), <- (app_assoc_str pre c), Hpre, IH, concat_cons, app_assoc_str. f_equal. f_equal.
  f_equal. rewrite <- (seq_shift (length l) 1), map_map. f_equal. apply map_ext. intros k. cbn [take]. by rewrite <- app_assoc.
Qed.

Lemma expand_err (l : list string) (path prefix out : string) : expand l path prefix = Ok out -> Forall (fun c => c <> "") l.
Proof.
  revert path prefix. induction l as [|c l IH]; intros path prefix; [constructor|]. cbn [expand]. case_bool_decide as E; [done|].
  intros H%IH. by constructor.
Qed.

Lemma contains_split (a b : ascii) (s : string) :
  a <> b -> contains_char a s = false <-> Forall (fun w => contains_char a w = false) (split b s).
Proof.
  intros Hab. rewrite <- (join_split b s) at 1. induction (split b s) as [|w l IH]; [by split|].
  rewrite Forall_cons, <- IH. destruct l as [|x l]; [cbn; naive_solver|].
  change (join (String b "") (w :: x :: l)) with (w +:+ String b "" +:+ join (String b "") (x :: l)).
  rewrite !contains_char_app, !orb_false_iff. cbn [contains_char]. rewrite (bool_decide_eq_false_2 (b = a)) by done. naive_solver.
Qed.

Lemma ExpandSlice_ok (slice path : string) :
  ExpandSlice slice = Ok path <->
  (slice = "-.slice" /\ path = "/") \/
  exists words, words <> [] /\ Forall slice_word words /\ slice = join "-" words +:+ dot_slice /\ path = slice_path words.
Proof.
  unfold ExpandSlice. split.
  - destruct (_ || _) eqn:E; [done|]. apply orb_false_iff in E as [_ Hs%negb_false_iff]. apply has_suffix_spec in Hs as (name & ->).
    rewrite trim_suffix_app. destruct (contains_char ch_slash _) eqn:Es; [done|]. case_bool_decide as En; [intros [= <-]; left; by rewrite En|].
    intros H. right. exists (split ch_dash name). pose proof H as Hw. apply expand_err in Hw.
    rewrite contains_char_app in Es. apply orb_false_iff in Es as [Es _].
    split; [apply split_not_nil|]. split; [|split; [by rewrite join_split|]].
    + rewrite (contains_split ch_slash ch_dash) in Es by done. pose proof (split_parts ch_dash name) as Hd.
      rewrite Forall_forall in Es, Hd, Hw |- *. intros w Hin. split; [by apply Hw|]. split; [by apply Hd|by apply Es].
    + pose proof (expand_spec (split ch_dash name) [] "" Hw) as T. rewrite decide_True in T by done. rewrite H in T. injection T as ->.
      unfold slice_path, slice_chain. by rewrite map_map.
  - intros [[-> ->]|(words & Hne & Hw & -> & ->)]; [done|].
    rewrite (proj2 (has_suffix_spec _ _)) by eauto. rewrite length_app_str, (proj2 (Nat.ltb_ge _ _)) by lia. cbn [negb orb].
    assert (split ch_dash (join "-" words) = words) as Hs.
    { apply (split_join ch_dash); [done|]. eapply Forall_impl; [exact Hw|]. by intros w (_ & ? & _). }
    rewrite trim_suffix_app, contains_char_app. assert (contains_char ch_slash (join "-" words) = false) as ->.
    { rewrite (contains_split ch_slash ch_dash), Hs by done. eapply Forall_impl; [exact Hw|]. by intros w (_ & _ & ?). }
    cbn [orb]. assert (contains_char ch_slash dot_slice = false) as -> by reflexivity. rewrite Hs.
    assert (Forall (fun c => c <> "") words) as He by (eapply Forall_impl; [exact Hw|]; by intros w (? & _)).
    case_bool_decide as En.
    { exfalso. rewrite En in Hs. cbn in Hs. rewrite <- Hs in He. by inversion He. }
    pose proof (expand_spec words [] "" He) as T. rewrite decide_True in T by done. rewrite T. unfold slice_path, slice_chain. by rewrite map_map.
Qed.

(** The path of a slice is the chain of its ancestors, as systemd nests them: "a-b-c.slice" is
    in "a-b.slice", which is in "a.slice".  Every other text is refused: names without the suffix, with a slash, with an
    empty element. *)
Theorem ExpandSlice_spec (slice path : string) :
  ExpandSlice slice = Ok path <->
  (slice = "-.slice" /\ path = "/") \/
  exists words, words <> [] /\ Forall slice_word words /\ slice = join "-" words +:+ dot_slice /\ path = slice_path words.
Proof. apply ExpandSlice_ok. Qed.

(** ** Processor time *)

Lemma uint64_int64 (z : Z) : 0 <= z < 2 ^ 64 -> uint64 (int64 z) = z.
Proof.
  intros Hz. unfold uint64, int64. rewrite <- (Z.mod_small z (2 ^ 64)) at 2 by done.
  rewrite Zminus_mod, Zmod_mod, <- Zminus_mod. f_equal. lia.
Qed.

(** [v] is [n] rounded up to a multiple of [k]. *)
Lemma round_up (n k : Z) :
  0 <= n -> 0 < k -> let v := if n mod k =? 0 then n else (n / k + 1) * k in v mod k = 0 /\ n <= v < n + k.
Proof.
  intros Hn Hk v. subst v. pose proof (Z.div_mod n k ltac:(lia)) as E. pose proof (Z.mod_pos_bound n k Hk).
  destruct (Z.eqb_spec (n mod k) 0) as [E0|E0]; [split; [done|split; lia]|]. split; [by apply Z_mod_mult|]. replace ((n / k + 1) * k) with (k * (n / k) + k) by ring. lia.
Qed.

(** C35. For every positive quota that the kernel accepts (less than 2^44 microseconds) and every period (0 stands for
    the default of 100 ms): the int64 product of quota and a million may wrap to a negative number, and the conversion
    to uint64 restores it; the processor time per second that systemd gets is the asked share, cut to whole microseconds
    and rounded up to a whole percent: less than one percent above what was asked for, and below it by less than a
    microsecond, and not at all when the share is a whole number of microseconds.  (The comment of addCpuQuota asks for
    rounding up always: [quota_rounded_down].) *)
Theorem quota_rounding (quota period : Z) :
  0 < quota < 2 ^ 44 -> 0 <= period < 2 ^ 64 ->
  let p := if period =? 0 then defCPUQuotaPeriod else period in
  let v := cpuQuotaPerSecUSec quota period in
  uint64 (int64 (quota * 1000000)) = quota * 1000000 /\
  v mod 10000 = 0 /\ 0 <= v < 2 ^ 64 /\ (v - 10000) * p < quota * 1000000 < (v + 1) * p /\
  (quota * 1000000 mod p = 0 -> quota * 1000000 <= v * p).
Proof.
  intros Hq Hp p v. assert (0 < p) as Hp0 by (subst p; destruct (Z.eqb_spec period 0); unfold defCPUQuotaPeriod; lia).
  assert (uint64 (int64 (quota * 1000000)) = quota * 1000000) as Hw by (rewrite uint64_int64; lia). split; [done|].
  subst v. unfold cpuQuotaPerSecUSec. rewrite (proj2 (Z.ltb_lt 0 quota)) by lia. fold p. rewrite Hw.
  set (n := quota * 1000000 / p). pose proof (Z.div_mod (quota * 1000000) p ltac:(lia)) as E. fold n in E.
  pose proof (Z.mod_pos_bound (quota * 1000000) p Hp0) as B.
  assert (0 <= n <= quota * 1000000) as Hn by (split; [apply Z.div_pos; lia|apply Z.div_le_upper_bound; nia]).
  destruct (round_up n 10000 ltac:(lia) ltac:(lia)) as [R1 R2]. pose proof (Z.div_mod n 10000 ltac:(lia)) as Dn.
  destruct (Z.eqb_spec (n mod 10000) 0) as [E0|E0]; cbn [negb] in *.
  - split; [done|]. split; [lia|]. split; nia.
  - unfold uint64. rewrite !(Z.mod_small (n / 10000 + 1)) by lia. rewrite !(Z.mod_small ((n / 10000 + 1) * 10000)) by lia. split; [done|]. split; [lia|]. split; nia.
Qed.

Lemma quota_rounding_witness :
  uint64 (int64 (50500 * 1000000)) = 50500 * 1000000 /\
  cpuQuotaPerSecUSec 50500 100000 mod 10000 = 0 /\ 0 <= cpuQuotaPerSecUSec 50500 100000 < 2 ^ 64 /\
  (cpuQuotaPerSecUSec 50500 100000 - 10000) * 100000 < 50500 * 1000000 < (cpuQuotaPerSecUSec 50500 100000 + 1) * 100000 /\
  (50500 * 1000000 mod 100000 = 0 -> 50500 * 1000000 <= cpuQuotaPerSecUSec 50500 100000 * 100000).
Proof. apply (quota_rounding 50500 100000); lia. Defined.

(** The comment of [addCpuQuota] says that fractions of a percent are rounded up, so that child
    cgroups can have the quota they expect.  The division before the rounding drops fractions of a microsecond: 2000 of
    every 199999 microseconds is more than one percent, and systemd is told one percent. *)
Lemma quota_rounded_down : cpuQuotaPerSecUSec 2000 199999 = 10000 /\ 10000 * 199999 < 2000 * 1000000.
Proof. split; [reflexivity|lia]. Qed.

(** ** Lists of processors *)

(** The number that bytes stand for, the most significant first, and the least significant first. *)
Fixpoint le_value (l : list Z) : Z := match l with [] => 0 | b :: l => Z.lor b (Z.shiftl (le_value l) 8) end.
Definition be_value (l : list Z) : Z := le_value (rev l).

Lemma le_value_bytes (n : nat) (z : Z) : le_value (le_bytes n z) = Z.land z (Z.ones (8 * Z.of_nat n)).
Proof.
  revert z. induction n as [|n IH]; intros z; cbn [le_bytes le_value]; [by rewrite Z.land_0_r|].
  rewrite IH. apply Z.bits_inj'. intros i Hi. change 255 with (Z.ones 8).
  rewrite Z.lor_spec, Z.land_spec, Z.shiftl_spec, !Z.land_spec, !Z.testbit_ones by lia.
  destruct (Z.ltb_spec i 8) as [H8|H8].
  - rewrite (Z.testbit_neg_r _ (i - 8)) by lia. rewrite !(proj2 (Z.leb_le 0 i)), (proj2 (Z.ltb_lt i (8 * Z.of_nat (S n)))) by lia.
    cbn [andb]. by rewrite andb_true_r, orb_false_r.
  - rewrite andb_false_r, andb_false_r, Z.shiftr_spec by lia. cbn [orb]. replace (i - 8 + 8) with i by lia. f_equal.
    rewrite !(proj2 (Z.leb_le 0 _)) by lia. cbn [andb].
    destruct (Z.ltb_spec (i - 8) (8 * Z.of_nat n)), (Z.ltb_spec i (8 * Z.of_nat (S n))); lia.
Qed.

Lemma be_value_Bytes (z : Z) : 0 <= z -> be_value (Bytes z) = z.
Proof.
  intros Hz. unfold be_value, Bytes. rewrite rev_involutive, le_value_bytes. unfold byte_len.
  destruct (Z.eqb_spec z 0) as [->|Hn]; [done|]. apply Z.land_ones_low; [lia|].
  rewrite Nat2Z.inj_succ, Z2Nat.id by (apply Z.div_pos; [apply Z.log2_nonneg|lia]).
  pose proof (Z.div_mod (Z.log2 z) 8 ltac:(lia)). pose proof (Z.mod_pos_bound (Z.log2 z) 8 ltac:(lia)). lia.
Qed.

(** The numbers that an element of a list names. *)
Definition names_number (element : string) (i : Z) : Prop :=
  let r := trim_space element in
  (exists v, split_n ch_dash 2 r = [r] /\ parse_uint 32 r = Ok v /\ i = v) \/
  (exists a b x y, split_n ch_dash 2 r = [a; b] /\ parse_uint 32 a = Ok x /\ parse_uint 32 b = Ok y /\ x <= i <= y).

Lemma set_range_spec (n : nat) (start bits i : Z) :
  0 <= start -> Z.testbit (set_range n start bits) i = Z.testbit bits i || ((start <=? i) && (i <? start + Z.of_nat n)).
Proof.
  revert start bits. induction n as [|n IH]; intros start bits Hs; cbn [set_range].
  - destruct (Z.leb_spec start i), (Z.ltb_spec i (start + Z.of_nat 0)); cbn; try lia; by rewrite orb_false_r.
  - rewrite IH, Z.setbit_eqb by lia. rewrite Nat2Z.inj_succ.
    destruct (Z.eqb_spec start i), (Z.leb_spec start i), (Z.leb_spec (start + 1) i), (Z.ltb_spec i (start + 1 + Z.of_nat n)),
      (Z.ltb_spec i (start + Z.succ (Z.of_nat n))); cbn; try lia; by rewrite ?orb_true_r, ?orb_false_r.
Qed.

Lemma set_range_nonneg (n : nat) (start bits : Z) : 0 <= start -> 0 <= bits -> 0 <= set_range n start bits.
Proof.
  revert start bits. induction n as [|n IH]; intros start bits Hs Hb; cbn [set_range]; [done|].
  apply IH; [lia|]. rewrite Z.setbit_spec'. apply Z.lor_nonneg. split; [done|]. apply Z.pow_nonneg. lia.
Qed.

Lemma parse_digits_nonneg (s : string) (acc v : Z) : 0 <= acc -> parse_digits acc s = Some v -> 0 <= v.
Proof.
  revert acc. induction s as [|c s IH]; intros acc Ha; cbn [parse_digits]; [by intros [= <-]|].
  unfold digit_value. destruct (_ && _) eqn:E; [|done]. apply andb_true_iff in E as [E1%Nat.leb_le _]. apply IH. lia.
Qed.
Lemma parse_uint_nonneg (bits v : Z) (s : string) : parse_uint bits s = Ok v -> 0 <= v.
Proof.
  unfold parse_uint. case_bool_decide; [done|]. destruct (parse_digits 0 s) as [n|] eqn:E; [|done]. destruct (_ <? _); [|done].
  intros [= <-]. by apply (parse_digits_nonneg s 0).
Qed.

Lemma split_two (c : ascii) (s : string) : split_n c 2 s = [s] \/ exists a b, split_n c 2 s = [a; b].
Proof. cbn [split_n]. destruct (cut c s) as [[a b]|]; eauto. Qed.

Lemma add_element_spec (e : string) (bits out : Z) :
  0 <= bits -> add_element e bits = Ok out ->
  0 <= out /\ forall i, Z.testbit out i = true <-> Z.testbit bits i = true \/ (0 <= i /\ names_number e i).
Proof.
  intros Hb. unfold add_element, names_number. cbv zeta. set (r := trim_space e). case_bool_decide as Er.
  { intros [= <-]. split; [done|]. intros i. split; [by left|]. rewrite Er.
    intros [?|[_ [(v & _ & H & _)|(a & b & x & y & H & _)]]]; done. }
  destruct (split_two ch_dash r) as [Hs|(a & b & Hs)]; rewrite Hs.
  - intros (v & Hv & [= <-])%bind_ok. pose proof (parse_uint_nonneg _ _ _ Hv) as Hn. split.
    { rewrite Z.setbit_spec'. apply Z.lor_nonneg. split; [done|]. apply Z.pow_nonneg. lia. }
    intros i. rewrite Z.setbit_eqb, orb_true_iff, Z.eqb_eq by done. split.
    + intros [<-|?]; [right|by left]. split; [done|]. left. by exists v.
    + intros [?|[_ [(v' & _ & Hv' & ->)|(a & b & x & y & Hab & _)]]]; [by right| |done]. left. congruence.
  - intros (x & Hx & H)%bind_ok. apply bind_ok in H as (y & Hy & H). destruct (Z.ltb_spec y x) as [?|Hxy]; [done|].
    injection H as <-. pose proof (parse_uint_nonneg _ _ _ Hx) as Hn. split; [by apply set_range_nonneg|].
    intros i. rewrite set_range_spec, orb_true_iff, andb_true_iff, Z.leb_le, Z.ltb_lt, Z2Nat.id by lia. split.
    + intros [?|?]; [by left|right]. split; [lia|]. right. exists a, b, x, y. repeat split; try done; lia.
    + intros [?|[_ [(v & Hv & _)|(a' & b' & x' & y' & Hab & Hx' & Hy' & Hi)]]]; [by left|done|right].
      injection Hab as <- <-. rewrite Hx in Hx'. rewrite Hy in Hy'. injection Hx' as <-. injection Hy' as <-. lia.
Qed.

Lemma add_elements_spec (l : list string) (bits out : Z) :
  0 <= bits -> add_elements l bits = Ok out ->
  0 <= out /\ forall i, Z.testbit out i = true <-> Z.testbit bits i = true \/ (0 <= i /\ exists e, e ∈ l /\ names_number e i).
Proof.
  revert bits. induction l as [|e l IH]; intros bits Hb; cbn [add_elements].
  { intros [= <-]. split; [done|]. intros i. split; [by left|]. intros [?|(_ & e & ?%elem_of_nil & _)]; done. }
  intros (b1 & H1 & H)%bind_ok. apply add_element_spec in H1 as [Hb1 S1]; [|done]. apply IH in H as [Ho S2]; [|done].
  split; [done|]. intros i. rewrite S2, S1. setoid_rewrite elem_of_cons. naive_solver.
Qed.

(** The bytes made of a list of processors, read with the most significant byte first, have
    exactly the bits that the elements of the list name, and there is at least one. *)
Theorem RangeToBits_spec (str : string) (bytes : list Z) :
  RangeToBits str = Ok bytes ->
  bytes <> [] /\ forall i, 0 <= i -> Z.testbit (be_value bytes) i = true <-> exists e, e ∈ split ch_comma str /\ names_number e i.
Proof.
  unfold RangeToBits. intros (bits & Hb & H)%bind_ok. apply add_elements_spec in Hb as [Hn Hs]; [|done].
  destruct (Bytes bits) as [|b l] eqn:E; [done|]. injection H as <-. split; [done|]. rewrite <- E, be_value_Bytes by done.
  intros i Hi. rewrite Hs, Z.bits_0. naive_solver.
Qed.

Lemma RangeToBits_spec_witness :
  [2; 0; 3] <> [] /\ forall i, 0 <= i -> Z.testbit (be_value [2; 0; 3]) i = true <-> exists e, e ∈ split ch_comma "0-1,17" /\ names_number e i.
Proof. apply (RangeToBits_spec "0-1,17" [2; 0; 3]). vm_compute. reflexivity. Defined.

(** systemd numbers the processors of AllowedCPUs from the first byte on.  Read that way, the
    bytes of processor 9 are those of processor 1. *)
Lemma cpus_reversed : RangeToBits "9" = Ok [2; 0] /\ Z.testbit (le_value [2; 0]) 9 = false /\ Z.testbit (le_value [2; 0]) 1 = true.
Proof. vm_compute. done. Qed.

(** ** The cgroups of a unit *)

Lemma contains_join (a : ascii) (sep : string) (l : list string) :
  contains_char a sep = false -> Forall (fun w => contains_char a w = false) l -> contains_char a (join sep l) = false.
Proof.
  intros Hs. induction 1 as [|w l Hw Hl IH]; [done|]. destruct l as [|x l]; [done|].
  change (join sep (w :: x :: l)) with (w +:+ sep +:+ join sep (x :: l)). by rewrite !contains_char_app, Hw, Hs, IH.
Qed.

Lemma long_suffix (s suf : string) : (2 < String.length suf)%nat -> s +:+ suf <> "..".
Proof. intros Hl E. apply (f_equal String.length) in E. rewrite length_app_str in E. cbn in E. lia. Qed.

Lemma join_slashes (s : string) (l : list string) : join slash (s :: l) = s +:+ String.concat "" (map (fun t => "/" +:+ t) l).
Proof.
  revert s. induction l as [|t l IH]; intros s; [by cbn; rewrite app_empty_r|].
  change (join slash (s :: t :: l)) with (s +:+ slash +:+ join slash (t :: l)). rewrite IH. cbn [map]. by rewrite concat_cons.
Qed.

Lemma tame_slice_path (words : list string) : Forall slice_word words -> tame (slice_path words).
Proof.
  intros Hw. unfold slice_path. pose proof (join_slashes "" (slice_chain words)) as E. rewrite app_empty_l in E. rewrite <- E.
  apply tame_join. constructor; [apply tame_empty|]. apply Forall_map, Forall_forall. intros k _.
  apply tame_elem; [|by apply long_suffix; cbn; lia]. rewrite contains_char_app, contains_join; [done|done|].
  apply Forall_take. eapply Forall_impl; [exact Hw|]. by intros w (_ & _ & ?).
Qed.

Lemma tame_ExpandSlice (slice path : string) : ExpandSlice slice = Ok path -> tame path.
Proof. intros [[_ ->]|(words & _ & Hw & _ & ->)]%ExpandSlice_ok; [by exists []|by apply tame_slice_path]. Qed.

Lemma tame_unit (c : configs.Cgroup) :
  contains_char ch_slash (configs.Name c) = false -> contains_char ch_slash (configs.ScopePrefix c) = false -> tame (getUnitName c).
Proof.
  intros Hn Hp. unfold getUnitName. destruct (has_suffix _ _) eqn:E; cbn [negb].
  - apply has_suffix_spec in E as (t & Et). apply tame_elem; [done|]. rewrite Et. by apply long_suffix; cbn; lia.
  - rewrite <- !app_assoc_str. apply tame_elem; [|by apply long_suffix; cbn; lia]. by rewrite !contains_char_app, Hn, Hp.
Qed.

Lemma subsystem_path_below (env : v1paths.Env) (init : result (gmap string string)) (slice unit_ name path : string) :
  tame slice -> tame unit_ ->
  (forall mnt, v1paths.FindCgroupMountpoint env "" name = Ok mnt -> IsAbs mnt = true) ->
  (forall p, sdv1.GetInitCgroup env init name = Ok p -> tame (trim_suffix (Clean p) "init.scope")) ->
  sdv1.getSubsystemPath env init slice unit_ name = Ok path ->
  exists mnt, v1paths.FindCgroupMountpoint env "" name = Ok mnt /\ below mnt path.
Proof.
  intros Hs Hu Hm Hi. unfold sdv1.getSubsystemPath. intros (mnt & Em & H)%bind_ok. apply bind_ok in H as (p & Ep & [= <-]).
  exists mnt. split; [done|]. apply Hm in Em. apply Hi in Ep. set (i := trim_suffix _ _) in *.
  change (Join [mnt; i; slice; unit_]) with (if bool_decide (mnt = "") then Join [i; slice; unit_] else Clean (join slash [mnt; join slash [i; slice; unit_]])).
  pose proof (tame_below mnt (join slash [i; slice; unit_]) Em) as T. cbn [Join] in T.
  rewrite bool_decide_eq_false_2 in T |- * by (by intros ->). apply T, tame_join. by repeat constructor.
Qed.

Lemma init_paths_from (env : v1paths.Env) (init : result (gmap string string)) (slice unit_ : string) (l : list fs.subsystem) (acc paths : gmap string string) :
  sdv1.init_paths env init slice unit_ l acc = Ok paths ->
  (forall name p, paths !! name = Some p -> acc !! name = Some p \/ sdv1.getSubsystemPath env init slice unit_ name = Ok p) /\
  (fs.DevicesGroup ∈ l \/ is_Some (acc !! "devices") -> is_Some (paths !! "devices")).
Proof.
  revert acc. induction l as [|s l IH]; intros acc; cbn [sdv1.init_paths].
  { intros [= <-]. split; [by left|]. by intros [?%elem_of_nil|?]. }
  destruct (sdv1.getSubsystemPath env init slice unit_ (fs.sys_Name s)) as [path|e] eqn:E.
  - intros [H1 H2]%IH. split.
    + intros name p [[[<- <-]|[_ ?]]%lookup_insert_Some|?]%H1; [by right|by left|by right].
    + intros Hd. apply H2. destruct Hd as [[<-|Hin]%elem_of_cons|Hs]; [right; rewrite lookup_insert_eq; eauto|by left|].
      right. apply lookup_insert_is_Some'. by right.
  - case_bool_decide as Ed; [done|]. destruct (v1paths.IsNotFound e); [|done]. intros [H1 H2]%IH. split; [done|].
    intros Hd. apply H2. destruct Hd as [[<-|Hin]%elem_of_cons|Hs]; [done|by left|by right].
Qed.

(** The cgroups of a container whose name and prefix have no slash lie in their hierarchies: each
    path that is found is below the mount point of its subsystem, whatever slice the configuration names; and
    without a devices hierarchy there are no paths at all. *)
Theorem unit_paths_confined (env : v1paths.Env) (init : result (gmap string string)) (hybrid : bool) (c : configs.Cgroup) (paths : gmap string string) :
  contains_char ch_slash (configs.Name c) = false -> contains_char ch_slash (configs.ScopePrefix c) = false ->
  (forall name mnt, v1paths.FindCgroupMountpoint env "" name = Ok mnt -> IsAbs mnt = true) ->
  (forall name p, sdv1.GetInitCgroup env init name = Ok p -> tame (trim_suffix (Clean p) "init.scope")) ->
  sdv1.initPaths env init hybrid c = Ok paths ->
  is_Some (paths !! "devices") /\
  forall name p, paths !! name = Some p ->
    (exists mnt, v1paths.FindCgroupMountpoint env "" name = Ok mnt /\ below mnt p) \/ (name = "" /\ p = "").
Proof.
  intros Hn Hp Hm Hi. unfold sdv1.initPaths. intros (slice & Es & H)%bind_ok. apply bind_ok in H as (ps & Eps & H).
  assert (tame slice) as Ts by (case_bool_decide; [injection Es as <-; by apply tame_elem|by eapply tame_ExpandSlice]).
  pose proof (tame_unit c Hn Hp) as Tu. apply init_paths_from in Eps as [H1 H2].
  assert (forall name p, sdv1.getSubsystemPath env init slice (getUnitName c) name = Ok p ->
    exists mnt, v1paths.FindCgroupMountpoint env "" name = Ok mnt /\ below mnt p) as Hsub.
  { intros name p Hsp. eapply subsystem_path_below; [exact Ts|exact Tu|apply Hm|apply Hi|exact Hsp]. }
  assert (fs.DevicesGroup ∈ sdv1.legacySubsystems) as Hd by (apply elem_of_cons; right; apply elem_of_cons; by left).
  specialize (H2 (or_introl Hd)).
  assert (forall name p, ps !! name = Some p -> exists mnt, v1paths.FindCgroupMountpoint env "" name = Ok mnt /\ below mnt p) as Hps.
  { intros name p [?%lookup_empty_Some|?]%H1; [done|by apply Hsub]. }
  destruct hybrid; cbn [negb] in H; [|injection H as <-; split; [done|intros name p Hl; left; by apply Hps]].
  destruct (sdv1.getSubsystemPath env init slice (getUnitName c) "") as [p0|e] eqn:E0;
    [|destruct (v1paths.IsNotFound e); [done|]]; injection H as <-; (split; [by apply lookup_insert_is_Some'; right|]);
    intros name p [[<- <-]|[_ Hl]]%lookup_insert_Some; eauto; left; by apply Hps.
Qed.

Definition example_env : v1paths.Env := v1paths.mkEnv false (Ok [v1paths.mkMountInfo "/sys/fs/cgroup/devices" "/" "rw,devices"]) (Ok ∅)
  (fun s => if bool_decide (s = "devices") then Some "/sys/fs/cgroup/devices" else None) None (fun _ => Ok tt).
Definition example_init : result (gmap string string) := Ok {["devices" := "/init.scope"]}.
Definition example_unit (name : string) : configs.Cgroup :=
  configs.mkCg name "kube-pods.slice" "" "cri" (configs.mkRes [] 0 0 0 0 0 0 0 0 "" "" 0 0 0 [] [] [] [] [] [] false None [] 0 None 0 None Undefined false false)
    true [] false None.
Definition example_paths : gmap string string := {["devices" := "/sys/fs/cgroup/devices/kube.slice/kube-pods.slice/cri-c1.scope"]}.

Lemma unit_paths_confined_witness :
  sdv1.initPaths example_env example_init false (example_unit "c1") = Ok example_paths /\
  is_Some (example_paths !! "devices") /\
  forall name p, example_paths !! name = Some p ->
    (exists mnt, v1paths.FindCgroupMountpoint example_env "" name = Ok mnt /\ below mnt p) \/ (name = "" /\ p = "").
Proof.
  split; [vm_compute; reflexivity|]. apply (unit_paths_confined example_env example_init false (example_unit "c1") example_paths).
  - reflexivity.
  - reflexivity.
  - intros name mnt. unfold v1paths.FindCgroupMountpoint, v1paths.tryDefaultPath. cbn -[v1paths.findCgroupMountpointAndRootFromMI].
    case_bool_decide; [by intros [= <-]|]. case_bool_decide; [by intros [= <-]|].
    unfold v1paths.findCgroupMountpointAndRootFromMI. destruct (_ && _); cbn; [by intros [= <-]|done].
  - intros name p. unfold sdv1.GetInitCgroup, v1paths.getControllerPath, v1paths.controller_path. cbn.
    destruct ({["devices" := "/init.scope"]} !! name) as [q|] eqn:E.
    + apply lookup_singleton_Some in E as [<- <-]. intros [= <-]. by exists [].
    + destruct ({["devices" := "/init.scope"]} !! (v1paths.CgroupNamePrefix +:+ name)) as [q|] eqn:E2; [|done].
      apply lookup_singleton_Some in E2 as [E2 _]. done.
  - vm_compute. reflexivity.
Defined.

(** A name with slashes is joined to the path as it is: it climbs out of the hierarchy.  (The manager of v2
    joins it with [SecureJoin].) *)
Lemma unit_name_climbs :
  sdv1.initPaths example_env example_init false (example_unit "/../../../../../../../etc/x") = Ok {["devices" := "/etc/x.scope"]}.
Proof. vm_compute. reflexivity. Qed.

(** ** Device rules *)

(** /proc/devices lists the driver groups, with their major numbers, under a header for each type. *)
Definition section_step (current : Z) (text : string) : Z :=
  let line := trim_space text in
  if bool_decide (line = "Block devices:") then BlockDevice else if bool_decide (line = "Character devices:") then CharDevice else current.
Definition section_of (before : list string) : Z := foldl section_step 0 before.
(** The line of a group [name] of major number [ma], in the section of type [t]. *)
Definition lists_group (proc : string) (t ma : Z) (name : string) : Prop :=
  exists before text after, (Scanner (Ok proc)).1 = before ++ text :: after /\ section_of before = t /\
    Sscanf_d_s (trim_space text) = Ok (ma, name).

(** How systemd names the devices of an entry of the emulator: a node, the group of drivers that /proc/devices lists
    with the type and the major number, or all of a type.  There is no name for a minor number with every major
    number. *)
Definition type_prefix (node_ : Z) : string := if bool_decide (node_ = BlockDevice) then "block-" else "char-".
Inductive names_devices (proc : string) (m : deviceMeta) : string -> Prop :=
  | names_node : major m <> Wildcard -> minor m <> Wildcard ->
      names_devices proc m ((if bool_decide (node m = BlockDevice) then "/dev/block/" else "/dev/char/") +:+ format_int (major m) +:+ ":" +:+ format_int (minor m))
  | names_group name : major m <> Wildcard -> minor m = Wildcard -> lists_group proc (node m) (major m) name ->
      names_devices proc m (type_prefix (node m) +:+ name)
  | names_all : major m = Wildcard -> minor m = Wildcard -> names_devices proc m (type_prefix (node m) +:+ "*").

Section device_rules.
Context {W : Type} `{CgroupFs W}.

Lemma groupPrefix_type (t : Z) (p : string) : groupPrefix t = Ok p -> p = type_prefix t.
Proof.
  unfold groupPrefix, type_prefix. case_bool_decide; [by intros [= <-]|]. case_bool_decide; [by intros [= <-]|done].
Qed.

Lemma find_group_listed (t ma : Z) (prefix group : string) (cur : Z) (lines : list string) :
  find_group t ma prefix cur lines = Ok (Some group) ->
  exists name before text after, group = prefix +:+ name /\ lines = before ++ text :: after /\ foldl section_step cur before = t /\
    Sscanf_d_s (trim_space text) = Ok (ma, name).
Proof.
  revert cur. induction lines as [|l lines IH]; intros cur; cbn [find_group]; [done|]. cbv zeta.
  assert (forall cur', section_step cur l = cur' -> find_group t ma prefix cur' lines = Ok (Some group) ->
    exists name before text after, group = prefix +:+ name /\ l :: lines = before ++ text :: after /\ foldl section_step cur before = t /\
      Sscanf_d_s (trim_space text) = Ok (ma, name)) as Hnext.
  { intros cur' Hs (name & before & text & after & -> & -> & Hb & Hp)%IH. exists name, (l :: before), text, after. cbn [foldl]. by rewrite Hs. }
  unfold section_step in Hnext. case_bool_decide; [by apply Hnext|]. case_bool_decide; [by apply Hnext|]. case_bool_decide; [by apply Hnext|].
  destruct (Z.eqb_spec cur t) as [->|]; cbn [negb]; [|by apply Hnext].
  destruct (Sscanf_d_s (trim_space l)) as [[ma' name]|e] eqn:Es; [|done]. destruct (Z.eqb_spec ma' ma) as [->|]; [|by apply Hnext].
  intros [= <-]. by exists name, [], l, lines.
Qed.

(** What /proc/devices holds, where it can be read. *)
Context (proc : string) (Hproc : forall w w' text, sys_read "/proc/devices" w = (w', Ok text) -> text = proc).

Lemma findDeviceGroup_listed (t ma : Z) (w w' : W) (group : string) :
  findDeviceGroup t ma w = (w', Ok group) -> group <> "" -> exists name, group = type_prefix t +:+ name /\ lists_group proc t ma name.
Proof.
  unfold findDeviceGroup. intros (w1 & u & _ & Hr)%act_bind_ok Hg. apply act_bind_ok in Hr as (w2 & p & Hp & Hr).
  apply lift_ok in Hp as [-> ->%groupPrefix_type]. apply act_bind_ok in Hr as (w3 & text & Ht%try_ok & Hr).
  destruct (Scanner text) as [lines err] eqn:Es. apply act_bind_ok in Hr as (w4 & [g|] & Hf & Hr); [|destruct err; [done|by injection Hr as _ <-]].
  apply lift_ok in Hf as [_ (name & before & l & after & -> & -> & Hb & Hp)%find_group_listed]. injection Hr as _ <-.
  exists name. split; [done|]. exists before, l, after. split; [|done].
  destruct text as [text|e]; [|injection Es as Es _; by destruct before]. apply Hproc in Ht as ->. by rewrite Es.
Qed.

Lemma device_entry_names (rule : Rule) (w w' : W) (e : deviceAllowEntry) :
  device_entry rule w = (w', Ok (Some e)) ->
  Allow rule = true /\ da_Perms e = Permissions_ rule /\ names_devices proc (mkMeta (Type_ rule) (Major rule) (Minor rule)) (da_Path e).
Proof.
  unfold device_entry. destruct (Allow rule) eqn:Ea; cbn [negb]; [|done]. destruct (_ || _) eqn:Et; cbn [negb]; [|done].
  cbv zeta. destruct (bool_decide_reflect (Major rule = Wildcard)) as [Hma|Hma], (bool_decide_reflect (Minor rule = Wildcard)) as [Hmi|Hmi];
    cbn [negb]; [|by intros [_ ?]%ret_ok| |].
  - intros (w1 & p & Hp & Hr)%act_bind_ok. apply lift_ok in Hp as [_ ->%groupPrefix_type].
    injection Hr as <- <-. split; [done|]. split; [done|]. by apply (names_all proc (mkMeta _ _ _)).
  - intros (w1 & group & Hg%wrapping_ok & Hr)%act_bind_ok. apply ret_ok in Hr as [<- Hr]. case_bool_decide; [done|]. injection Hr as <-.
    split; [done|]. split; [done|]. cbn [da_Path]. destruct (findDeviceGroup_listed _ _ _ _ _ Hg) as (name & -> & Hl); [done|]. by apply (names_group proc (mkMeta _ _ _)).
  - intros (w1 & [u|e0] & _ & Hr)%act_bind_ok; [|by apply ret_ok in Hr as [_ ?]]. injection Hr as <- <-. split; [done|]. split; [done|].
    by apply (names_node proc (mkMeta _ _ _)).
Qed.

Lemma device_entries_names (rules : list Rule) (w w' : W) (es : list deviceAllowEntry) :
  device_entries rules w = (w', Ok es) ->
  forall e, e ∈ es -> exists rule, rule ∈ rules /\ da_Perms e = Permissions_ rule /\ names_devices proc (mkMeta (Type_ rule) (Major rule) (Minor rule)) (da_Path e).
Proof.
  revert w w' es. induction rules as [|rule l IH]; intros w w' es; cbn [device_entries]; [intros [= <- <-] e ?%elem_of_nil; done|].
  intros (w1 & d0 & H0 & Hr)%act_bind_ok e He. apply act_bind_ok in Hr as (w2 & ds & H1 & Hr).
  assert (forall d, d ∈ ds -> exists rule', rule' ∈ rule :: l /\ da_Perms d = Permissions_ rule' /\ names_devices proc (mkMeta (Type_ rule') (Major rule') (Minor rule')) (da_Path d)) as Hl.
  { intros d Hd. destruct (IH _ _ _ H1 d Hd) as (r' & Hin & ?). exists r'. split; [by right|done]. }
  destruct d0 as [d|]; injection Hr as <- <-; [|by apply Hl]. apply elem_of_cons in He as [->|He]; [|by apply Hl].
  apply device_entry_names in H0 as (_ & ? & ?). exists rule. split; [left|done].
Qed.

(** C34. What systemd is told to allow is part of the configuration: unless the rules allow every device, the policy
    is strict, and each entry of the allow list has the permissions of an entry of the rule set that the configuration
    makes, and names the devices of that entry: its node, or, for every minor number, a group that /proc/devices lists
    under the entry's type with the entry's major number, or all devices of its type.  Rules that systemd cannot express
    are left out.  (/proc/devices keeps its contents [proc] while it is read; it may fail to be read.) *)
Theorem DeviceAllow_sound (r : configs.Resources) (w w' : W) (props : list Property) :
  configs.SkipDevices r = false -> generateDeviceProperties r w = (w', Ok props) ->
  exists emu, apply_rules emptyEmulator (configs.Devices r) = Ok emu /\
    ((IsBlacklist emu = true /\ IsAllowAll emu = true /\ props = allowAllDevices) \/
     (exists tail, props = newProp "DevicePolicy" (PString "strict") :: newProp "DeviceAllow" (PDevices []) :: tail /\
        forall name l e, (name, PDevices l) ∈ tail -> e ∈ l ->
          IsBlacklist emu = false /\ exists m p, rmap (rules emu) !! m = Some p /\ da_Perms e = Difference p "" /\ names_devices proc m (da_Path e))).
Proof.
  intros Hs. unfold generateDeviceProperties. rewrite Hs. cbv zeta. intros (w1 & emu & He & Hr)%act_bind_ok.
  apply lift_ok in He as [<- He%wrap_err_ok]. exists emu. split; [done|]. destruct (IsBlacklist emu) eqn:Eb.
  { destruct (IsAllowAll emu) eqn:Ea; injection Hr as <- <-; [by left|right]. exists []. split; [done|]. by intros ? ? ? ?%elem_of_nil. }
  right. apply act_bind_ok in Hr as (w2 & final & Hf & Hr). apply lift_ok in Hf as [<- Hf%wrap_err_ok].
  apply act_bind_ok in Hr as (w3 & es & Hes & Hr). injection Hr as <- <-. eexists. split; [reflexivity|].
  intros name l e Hin Hel. split; [done|]. apply list_elem_of_singleton in Hin. injection Hin as -> ->.
  destruct (device_entries_names _ _ _ _ Hes e Hel) as (rule & Hrule & Hp & Hn).
  unfold Rules, Transition, IsBlacklist in *. rewrite Eb in Hf. injection Hf as <-.
  rewrite (diffRules_omap _ None) in Hrule. apply elem_of_app in Hrule as [Hrule|Hrule].
  { apply list_elem_of_omap in Hrule as (x & Hx & _). by apply elem_of_nil in Hx. }
  apply list_elem_of_omap in Hrule as (x & Hx & Hd). unfold diffRule in Hd. cbv zeta in Hd. destruct (perms_IsEmpty _); [done|].
  injection Hd as <-. cbn in Hp, Hn. exists (meta x), (perms x). split; [by apply orderedEntries_elem|]. split; [done|]. by destruct (meta x).
Qed.
End device_rules.
