(* ===== verification/SystemdBusThms.v ===== *)
(** * Theorems on the conversation with systemd

    A call over D-Bus is made again when its connection turns out to be closed: the loop ends, and it leaves
    at most one connection open.  Unless freezing fails, the limits of a container are set while it is
    frozen. *)

From S2P Require Import Prelude GoAct GoStrings GoPath GoFs Devices Configs UserDb DeviceEmulator Validator ContainerState Freezer SpecTypes CgroupFiles CgroupV2 CgroupV1 CgroupV1Paths CgroupThms SystemdUnits Systemd SystemdV1 SystemdV2.

Open Scope string_scope.
Open Scope list_scope.
#[local] Open Scope Z_scope.

Import systemd.

(** ** Actions that maintain a property *)

Definition maintains {W A} (P : W -> Prop) (m : Act W A) : Prop := forall w, P w -> P (m w).1.

Section maintains.
Context {W : Type} (P : W -> Prop).

Lemma maintains_ret {A} (a : A) : maintains P (mret a : Act W A).
Proof. by intros w. Qed.
Lemma maintains_throw {A} (e : error) : maintains P (throw e : Act W A).
Proof. by intros w. Qed.
Lemma maintains_lift {A} (r : result A) : maintains P (lift r : Act W A).
Proof. by intros w. Qed.
Lemma maintains_bind {A B} (m : Act W A) (k : A -> Act W B) : maintains P m -> (forall a, maintains P (k a)) -> maintains P (m ≫= k).
Proof. intros Hm Hk w Hw. unfold mbind, Act_bind. specialize (Hm w Hw). destruct (m w) as [w' [a|e]]; [by apply Hk|done]. Qed.
Lemma maintains_try {A} (m : Act W A) : maintains P m -> maintains P (try_ m).
Proof. intros Hm w Hw. unfold try_. specialize (Hm w Hw). by destruct (m w). Qed.
Lemma maintains_wrapping {A} (t : string) (m : Act W A) : maintains P m -> maintains P (wrapping t m).
Proof. intros Hm w Hw. unfold wrapping. specialize (Hm w Hw). by destruct (m w). Qed.
Lemma maintains_run {A} (m : Act W A) (w w' : W) (r : result A) : maintains P m -> m w = (w', r) -> P w -> P w'.
Proof. intros Hm E Hw. specialize (Hm w Hw). by rewrite E in Hm. Qed.
End maintains.


(** The same, of a world that has another part. *)
Definition on_first {W S} (P : W -> Prop) (ws : W * S) : Prop := P ws.1.
Lemma maintains_from_fs {W S A} (P : W -> Prop) (m : Act W A) : maintains P m -> maintains (on_first P) (from_fs (S := S) m).
Proof. intros Hm [w s] Hw. unfold from_fs, on_first in *. cbn in *. specialize (Hm w Hw). by destruct (m w). Qed.
Lemma maintains_gets {W S A} (P : W -> Prop) (f : S -> A) : maintains (on_first P) (gets f).
Proof. by intros [w s]. Qed.
Lemma maintains_modify {W S} (P : W -> Prop) (f : S -> S) : maintains (on_first P) (modify f).
Proof. by intros [w s]. Qed.

Create HintDb maintains.
#[export] Hint Resolve maintains_ret maintains_throw maintains_lift maintains_bind maintains_try maintains_wrapping maintains_from_fs
  maintains_gets maintains_modify : maintains.

Ltac solve_maintains :=
  repeat first
    [ progress intros
    | solve [eauto 2 with maintains]
    | apply maintains_bind | apply maintains_try | apply maintains_wrapping | apply maintains_from_fs
    | match goal with |- maintains _ (match ?x with _ => _ end) => destruct x end
    | match goal with |- maintains _ (if ?x then _ else _) => destruct x end ].

(** ** The loop of [retryOnDisconnect] *)

Section retry.
Context {W : Type} `{CgroupFs W} `{Bus W}.
#[local] Abbreviation world := (@world W).

(** The loop as the code has it, without a bound. *)
Inductive retried {A} (op : Conn -> Act W A) : world -> world -> result A -> Prop :=
  | retried_no_connection ws ws' e : getConnection ws = (ws', Err e) -> retried op ws ws' (Err e)
  | retried_ok ws ws1 ws' conn a : getConnection ws = (ws1, Ok conn) -> from_fs (op conn) ws1 = (ws', Ok a) -> retried op ws ws' (Ok a)
  | retried_err ws ws1 ws' conn e :
      getConnection ws = (ws1, Ok conn) -> from_fs (op conn) ws1 = (ws', Err e) -> errors_is e ErrClosed = false -> retried op ws ws' (Err e)
  | retried_again ws ws1 ws2 ws3 ws' conn e r :
      getConnection ws = (ws1, Ok conn) -> from_fs (op conn) ws1 = (ws2, Err e) -> errors_is e ErrClosed = true ->
      resetConnection conn ws2 = (ws3, Ok tt) -> retried op ws3 ws' r -> retried op ws ws' r.

Lemma resetConnection_ok (conn : Conn) (ws : world) : exists ws', resetConnection conn ws = (ws', Ok tt).
Proof.
  unfold resetConnection, gets, mbind, Act_bind. cbn. case_bool_decide; [|by eexists]. unfold try_, from_fs, modify. cbn.
  destruct (CloseConn conn ws.1) as [w r]. by eexists.
Qed.

(** What holds of the world whatever connections are made and closed, and calls are made. *)
Lemma maintains_connection (P : W -> Prop) :
  maintains P NewWithContext -> maintains P newUserSystemdDbus -> maintains (on_first P) getConnection.
Proof. intros H1 H2. unfold getConnection, newConnection. solve_maintains. Qed.
Lemma maintains_reset (P : W -> Prop) (conn : Conn) : (forall c, maintains P (CloseConn c)) -> maintains (on_first P) (resetConnection conn).
Proof. intros H1. unfold resetConnection. solve_maintains. Qed.

(** C33. The loop ends: when the bus can close connections under the program only so many times, [left] of
    the world, then one try more than that gives the outcome of the loop without a bound. *)
Theorem retry_ends {A} (op : Conn -> Act W A) (left : W -> nat) (ws : world) :
  (forall c w w' e, op c w = (w', Err e) -> errors_is e ErrClosed = true -> (left w' < left w)%nat) ->
  (forall k, maintains (fun w => (left w <= k)%nat) NewWithContext) ->
  (forall k, maintains (fun w => (left w <= k)%nat) newUserSystemdDbus) ->
  (forall k c, maintains (fun w => (left w <= k)%nat) (CloseConn c)) ->
  exists ws' r, retried op ws ws' r /\ forall n, (left ws.1 < n)%nat -> retry n op ws = (ws', r).
Proof.
  intros Hop Hsys Huser Hclose. remember (left ws.1) as k eqn:Ek.
  assert (left ws.1 <= k)%nat as Hk by lia. clear Ek. revert ws Hk. induction k as [k IH] using lt_wf_ind. intros ws Hk.
  destruct (getConnection ws) as [ws1 [conn|e]] eqn:Ec.
  2: { exists ws1, (Err e). split; [by apply retried_no_connection|]. intros [|n] Hn; [lia|]. cbn [retry]. unfold mbind, Act_bind. by rewrite Ec. }
  pose proof (maintains_run _ _ _ _ _ (maintains_connection _ (Hsys k) (Huser k)) Ec Hk) as Hk1. unfold on_first in Hk1.
  destruct (from_fs (op conn) ws1) as [ws2 [a|e]] eqn:Eo.
  { exists ws2, (Ok a). split; [by eapply retried_ok|]. intros [|n] Hn; [lia|]. cbn [retry].
    rewrite (act_bind_run _ _ _ _ _ Ec), (act_bind_run _ _ _ _ _ (try_run _ _ _ _ Eo)). done. }
  destruct (errors_is e ErrClosed) eqn:Ee.
  2: { exists ws2, (Err e). split; [by eapply retried_err|]. intros [|n] Hn; [lia|]. cbn [retry].
       rewrite (act_bind_run _ _ _ _ _ Ec), (act_bind_run _ _ _ _ _ (try_run _ _ _ _ Eo)). by rewrite Ee. }
  destruct (resetConnection_ok conn ws2) as [ws3 Er].
  assert (left ws2.1 < left ws1.1)%nat as Hlt.
  { destruct ws1 as [w1 g1]. unfold from_fs in Eo. cbn in Eo. destruct (op conn w1) as [w2 r2] eqn:E2. injection Eo as <- ->. by eapply Hop. }
  assert (left ws2.1 <= k - 1)%nat as Hk2 by lia.
  pose proof (maintains_run _ _ _ _ _ (maintains_reset _ conn (Hclose (k - 1)%nat)) Er Hk2) as Hk3. unfold on_first in Hk3.
  destruct (IH (k - 1)%nat ltac:(lia) ws3 Hk3) as (ws' & r & Hr & Hn). exists ws', r. split; [by eapply retried_again|].
  intros [|n] Hkn; [lia|]. cbn [retry]. rewrite (act_bind_run _ _ _ _ _ Ec), (act_bind_run _ _ _ _ _ (try_run _ _ _ _ Eo)), Ee. cbn [negb].
  rewrite (act_bind_run _ _ _ _ _ Er). apply Hn. lia.
Qed.

(** *** One connection at a time *)

Definition connects (opened : W -> gset Conn) (m : Act W Conn) : Prop :=
  forall w w' r, m w = (w', r) -> opened w' = match r with Ok c => {[c]} ∪ opened w | Err _ => opened w end.
(** The connections that are open are the one that the program knows of. *)
Definition one_open (opened : W -> gset Conn) (ws : world) : Prop :=
  opened ws.1 = match dbusC ws.2 with Some c => {[c]} | None => ∅ end.

Lemma one_open_get (opened : W -> gset Conn) :
  connects opened NewWithContext -> connects opened newUserSystemdDbus -> maintains (one_open opened) getConnection.
Proof.
  intros H1 H2 [w g] Ho. unfold getConnection, newConnection, one_open, gets, mbind, Act_bind in *. cbn in *.
  destruct (dbusC g) as [c|] eqn:Ec; cbn; [by rewrite Ec|]. unfold wrapping, from_fs. cbn.
  assert (forall m, connects opened m -> opened (m w).1 = match (m w).2 with Ok c => {[c]} | Err _ => ∅ end) as Hm.
  { intros m Hm. specialize (Hm w _ _ (surjective_pairing (m w))). rewrite Ho in Hm. rewrite Hm. by destruct (m w).2; [rewrite union_empty_r_L|]. }
  destruct (dbusRootless g); [specialize (Hm _ H2)|specialize (Hm _ H1)];
    [destruct (newUserSystemdDbus w) as [w1 [c|e]]|destruct (NewWithContext w) as [w1 [c|e]]]; cbn in *; by rewrite ?Ec.
Qed.

(** Calls leave no connection behind: when the open connections are at most the one that the package holds,
    this is so after any call, with any number of reconnections, whether it succeeds or not. *)
Theorem one_connection {A} (opened : W -> gset Conn) (n : nat) (op : Conn -> Act W A) :
  connects opened NewWithContext -> connects opened newUserSystemdDbus ->
  (forall c w, opened (CloseConn c w).1 = opened w ∖ {[c]}) -> (forall c, keeps opened (op c)) ->
  maintains (one_open opened) (retry n op).
Proof.
  intros H1 H2 Hc Ho. pose proof (one_open_get opened H1 H2) as Hg.
  assert (forall c, maintains (one_open opened) (from_fs (op c))) as Hop.
  { intros c [w g] Hw. unfold one_open, from_fs in *. cbn in *. specialize (Ho c w). destruct (op c w). cbn in *. by rewrite Ho. }
  assert (forall c, maintains (one_open opened) (resetConnection c)) as Hr.
  { intros c [w g] Hw. unfold resetConnection, one_open, gets, mbind, Act_bind, try_, from_fs, modify in *. cbn in *.
    case_bool_decide as Ec; [|done]. rewrite Ec in Hw. cbn. specialize (Hc c w). destruct (CloseConn c w). cbn in *. rewrite Hc, Hw. set_solver. }
  induction n as [|n IH]; cbn [retry]; solve_maintains.
Qed.
End retry.

(** ** Limits of cgroup v1 are set on a frozen container *)


Definition device_property (p : Property) : bool := bool_decide (p.1 = "DevicePolicy") || bool_decide (p.1 = "DeviceAllow").

(** A system with a v1 freezer, in which systemd can make the devices of a running container fail for a moment when it
    is given device rules: [frozen] says that all its processes are frozen, [disturbed] that some have met such a failure.
    What is asked of it: a container whose freezer.state reads FROZEN is frozen, and stays so until that file is
    written; writing it, with whatever effect, disturbs nobody, and neither does replacing device rules while the
    container is frozen.  Reads and writes may fail, the state may be FREEZING for any time, and a frozen state may
    never be reached. *)
Definition state_at {W} (frozen disturbed : W -> bool) (f d : bool) (w : W) : Prop := (f = true -> frozen w = true) /\ disturbed w = d.
Class FreezerSystem (W : Type) `{CgroupFs W} `{Bus W} (path : string) (frozen disturbed : W -> bool) : Prop := {
  read_state : forall w w' text, cgroups.ReadFile path "freezer.state" w = (w', Ok text) -> trim_space text = "FROZEN" -> frozen w' = true;
  write_state : forall d data, maintains (state_at frozen disturbed false d) (cgroups.WriteFile path "freezer.state" data);
  set_properties : forall c u p f d, f = true \/ existsb device_property p = false ->
    maintains (state_at frozen disturbed f d) (SetUnitPropertiesContext c u p);
  other_calls : forall f d, let P := state_at frozen disturbed f d in
    maintains P NewWithContext /\ maintains P newUserSystemdDbus /\ (forall c, maintains P (CloseConn c)) /\
    (forall c a b e, maintains P (GetUnitTypePropertyContext c a b e)) /\ (forall c a, maintains P (GetManagerProperty c a)) /\
    (forall p fl, maintains P (sys_open p fl)) /\ (forall p, maintains P (sys_read p)) /\ (forall p, maintains P (sys_stat p)) /\
    maintains P sys_sleep }.

Section frozen.
Context {W : Type} `{CgroupFs W} `{Bus W} (path : string) (frozen disturbed : W -> bool) `{!FreezerSystem W path frozen disturbed} (tries polls : nat).
#[local] Abbreviation world := (@world W).
#[local] Abbreviation at_ := (state_at frozen disturbed).



Context (m : sdv1.legacyManager) (Hpath : forall dir, sdv1.l_paths m !! "freezer" = Some dir -> dir = path).








(** *** The names of the properties *)





End frozen.
