(* ===== verification/SystemdExample.v ===== *)
(** * A small system with systemd, and the theorems at work on it

    [toy] has one container with a freezer, one unit, and a bus that closes the connection a number of
    times. *)

From S2P Require Import Prelude GoAct GoStrings GoPath GoFs Devices Configs UserDb DeviceEmulator Validator ContainerState Freezer SpecTypes CgroupFiles CgroupV2 CgroupV1 CgroupThms SystemdUnits Systemd SystemdV1 SystemdV2 SystemdThms SystemdBusThms.

Open Scope string_scope.
Open Scope list_scope.
#[local] Open Scope Z_scope.

Import systemd.

(** [t_unit]: the processes of the unit, when it exists; [t_joined]: what was written to cgroup.procs. *)
Record toy := mkToy {
  t_frozen : bool; t_disturbed : bool; t_drops : nat; t_next : nat; t_open : gset nat; t_unit : option (list Z); t_joined : list string }.
Definition toy_start (drops : nat) (unit_ : option (list Z)) : toy := mkToy false false drops 0 ∅ unit_ [].

Definition freezer_dir : string := "/sys/fs/cgroup/freezer/c1".
Definition state_file : string := Eval vm_compute in Join [freezer_dir; "freezer.state"].
Definition self_file : string := Eval vm_compute in Join [freezer_dir; "freezer.self_freezing"].
Definition devices_text : string := unlines ["Character devices:"; "  1 mem"; "  5 ttyS"; ""; "Block devices:"; "  8 sd"].

Definition set_frozen_toy (b : bool) (w : toy) : toy := mkToy b (t_disturbed w) (t_drops w) (t_next w) (t_open w) (t_unit w) (t_joined w).
Definition join_toy (pid : string) (w : toy) : toy := mkToy (t_frozen w) (t_disturbed w) (t_drops w) (t_next w) (t_open w) (t_unit w) (pid :: t_joined w).

#[global] Instance toy_fs : CgroupFs toy := {|
  sys_open := fun p _ w => (w, Ok tt);
  sys_write := fun p d w =>
    (if bool_decide (p = state_file) then set_frozen_toy (bool_decide (d = "FROZEN")) w
     else if has_suffix "/cgroup.procs" p then join_toy d w else w, Ok tt);
  sys_read := fun p w => (w, Ok (if bool_decide (p = state_file) then (if t_frozen w then "FROZEN" else "THAWED") +:+ nl
    else if bool_decide (p = self_file) then (if t_frozen w then "1" else "0") +:+ nl
    else if bool_decide (p = "/proc/devices") then devices_text else "cpu memory" +:+ nl));
  sys_stat := fun p w => (w, Ok tt);
  sys_statfs := fun p w => (w, Ok CGROUP2_SUPER);
  sys_mkdir := fun p w => (w, Ok tt);
  sys_mkdirall := fun p w => (w, Ok tt);
  sys_rmdir := fun p w => (w, Ok tt);
  sys_readdir := fun p w => (w, Ok []);
  sys_sleep := fun w => (w, Ok tt);
  sys_attach_filter := fun _ _ _ w => (w, Ok tt) |}.

Definition connect_toy : Act toy Conn := fun w =>
  (mkToy (t_frozen w) (t_disturbed w) (t_drops w) (S (t_next w)) ({[t_next w]} ∪ t_open w) (t_unit w) (t_joined w), Ok (t_next w)).
Definition close_toy (c : Conn) : Act toy unit := fun w =>
  (mkToy (t_frozen w) (t_disturbed w) (t_drops w) (t_next w) (t_open w ∖ {[c]}) (t_unit w) (t_joined w), Ok tt).
(** A running container whose device rules are replaced is disturbed; then the connection may be found closed. *)
Definition set_toy (props : list Property) : Act toy unit := fun w =>
  (mkToy (t_frozen w) (t_disturbed w || (negb (t_frozen w) && existsb device_property props)) (pred (t_drops w)) (t_next w) (t_open w) (t_unit w) (t_joined w),
   if bool_decide (t_drops w = 0%nat) then Ok tt else Err ErrClosed).
Definition pids_of (props : list Property) : list Z :=
  concat (map (fun p => match p.2 with PUint32s l => l | _ => [] end) props).
Definition start_toy (props : list Property) : Act toy unit := fun w =>
  match t_unit w with
  | Some _ => (w, Err (dbus_Error "org.freedesktop.systemd1.UnitExists"))
  | None => (mkToy (t_frozen w) (t_disturbed w) (t_drops w) (t_next w) (t_open w) (Some (pids_of props)) (t_joined w), Ok tt)
  end.

#[global] Instance toy_bus : Bus toy := {|
  NewWithContext := connect_toy;
  NewConnection := fun dial w => match dial w with (w', Ok _) => connect_toy w' | (w', Err e) => (w', Err e) end;
  CloseConn := close_toy;
  dbus_Dial := fun _ w => (w, Ok 0%nat);
  dbus_Auth := fun _ _ w => (w, Ok tt);
  dbus_Hello := fun _ w => (w, Ok tt);
  dbus_Close := fun _ w => (w, Ok tt);
  StartTransientUnitContext := fun _ _ p => start_toy p;
  StopUnitContext := fun _ _ w => (w, Ok tt);
  WaitJob := fun w => (w, Ok (Some "done"));
  ResetFailedUnitContext := fun _ _ w => (w, Ok tt);
  GetUnitTypePropertyContext := fun _ _ _ _ w => (w, Ok (PString "auto"));
  SetUnitPropertiesContext := fun _ _ p => set_toy p;
  GetManagerProperty := fun _ _ w => (w, Ok (String ch_quote ("v249" +:+ String ch_quote "")));
  os_Getenv := fun _ w => (w, Ok "unix:path=/run/user/1000/bus");
  os_Getuid := fun w => (w, Ok 1000);
  os_Lstat_IsDir := fun _ w => (w, Ok true);
  os_Chown := fun _ _ _ w => (w, Ok tt);
  RunningInUserNS := fun w => (w, Ok false);
  exec_CombinedOutput := fun _ w => (w, Ok "");
  SecureJoin := fun root p w => (w, Ok (Join [root; p])) |}.

#[global] Instance toy_freezer : FreezerSystem toy freezer_dir t_frozen t_disturbed.
Proof.
  split.
  - intros w w' text E. assert (w' = w /\ text = (if t_frozen w then "FROZEN" else "THAWED") +:+ nl) as [-> ->].
    { change (cgroups.ReadFile freezer_dir "freezer.state" w) with (w, Ok ((if t_frozen w then "FROZEN" else "THAWED") +:+ nl)) in E.
      by injection E as <- <-. }
    by destruct (t_frozen w).
  - intros d data w [_ Hd]. by split.
  - intros c u p f d Hq w [Hf Hd]. split; [exact Hf|]. cbn. destruct Hq as [->| ->]; [rewrite Hf by done|]; by rewrite ?andb_false_r, ?orb_false_r.
  - intros f d P. subst P. unfold maintains. repeat split; intros; match goal with HP : state_at _ _ _ _ _ |- _ => by apply HP end.
Qed.

(** ** The theorems *)

Definition toy_props : list Property := allowAllDevices.

Lemma retry_ends_witness :
  exists ws' r, retried (fun c => SetUnitPropertiesContext c "u" toy_props) (toy_start 3 None, initial) ws' r /\
    forall n, (3 < n)%nat -> retry n (fun c => SetUnitPropertiesContext c "u" toy_props) (toy_start 3 None, initial) = (ws', r).
Proof.
  apply (retry_ends (fun c => SetUnitPropertiesContext c "u" toy_props) t_drops (toy_start 3 None, initial)).
  - intros c w w' e Hs _. cbn in Hs. unfold set_toy in Hs. case_bool_decide as Hd; [done|]. injection Hs as <- _. cbn. lia.
  - by intros k w Hw.
  - by intros k w Hw.
  - by intros k c w Hw.
Defined.

Lemma one_connection_witness :
  one_open t_open (retry 5 (fun c => SetUnitPropertiesContext c "u" toy_props) (toy_start 3 None, initial)).1.
Proof.
  apply (one_connection t_open 5 (fun c => SetUnitPropertiesContext c "u" toy_props)).
  - intros w w' r Hc. cbn in Hc. by injection Hc as <- <-.
  - intros w w' r Hc. cbn in Hc. by injection Hc as <- <-.
  - done.
  - by intros c w.
  - reflexivity.
Defined.

Definition toy_resources : configs.Resources := configs.cg_Resources (example_unit "c1").


Definition device_resources : configs.Resources :=
  configs.mkRes [mkRule CharDevice 1 3 "rwm" true; mkRule BlockDevice 8 Wildcard "r" true; mkRule CharDevice Wildcard 7 "r" true]
    0 0 0 0 0 0 0 0 "" "" 0 0 0 [] [] [] [] [] [] false None [] 0 None 0 None Undefined false false.
Definition device_props : list Property :=
  [newProp "DevicePolicy" (PString "strict"); newProp "DeviceAllow" (PDevices []);
   newProp "DeviceAllow" (PDevices [mkDeviceAllow "/dev/char/1:3" "rwm"; mkDeviceAllow "block-sd" "r"])].

Lemma toy_proc_devices (w w' : toy) (text : string) : sys_read "/proc/devices" w = (w', Ok text) -> text = devices_text.
Proof. change (sys_read "/proc/devices" w) with (w, Ok devices_text). by intros [= _ <-]. Qed.

Lemma DeviceAllow_sound_witness :
  exists emu, apply_rules emptyEmulator (configs.Devices device_resources) = Ok emu /\
    ((IsBlacklist emu = true /\ IsAllowAll emu = true /\ device_props = allowAllDevices) \/
     (exists tail, device_props = newProp "DevicePolicy" (PString "strict") :: newProp "DeviceAllow" (PDevices []) :: tail /\
        forall name l e, (name, PDevices l) ∈ tail -> e ∈ l ->
          IsBlacklist emu = false /\ exists m p, rmap (rules emu) !! m = Some p /\ da_Perms e = Difference p "" /\ names_devices devices_text m (da_Path e))).
Proof.
  apply (DeviceAllow_sound devices_text toy_proc_devices device_resources (toy_start 0 None) (toy_start 0 None));
    [reflexivity|]. vm_compute. reflexivity.
Defined.

(** [startUnit] takes "the unit exists already" for success, and the manager of v2 leaves it to systemd to put
    the process into the unit: when the unit exists, [Apply] succeeds and the process is in no cgroup of the container. *)
Definition unified_example : sdv2.unifiedManager :=
  sdv2.mkUnified "/sys/fs/cgroup/kube.slice/kube-pods.slice/cri-c1.scope"
    (fs2.mkManager (example_unit "c1") (Some toy_resources) "/sys/fs/cgroup/kube.slice/kube-pods.slice/cri-c1.scope" None).
Lemma existing_unit_not_joined :
  let '((w, _), out) := sdv2.Apply 5 unified_example 4242 (toy_start 0 (Some [17]), initial) in
  out = Ok tt /\ t_unit w = Some [17] /\ t_joined w = [].
Proof. vm_compute. done. Qed.
(** A new unit has the process. *)
Lemma new_unit_joined :
  let '((w, _), out) := sdv2.Apply 5 unified_example 4242 (toy_start 0 None, initial) in out = Ok tt /\ t_unit w = Some [4242].
Proof. vm_compute. done. Qed.
