(* ===== verification/Rdt.v ===== *)
(** * Intel RDT: package intelrdt

    Cache and memory bandwidth of a container are set in the files of the resctrl file system, one directory for
    each class of service.  The variables of the package (the features of the machine, looked up once, and
    the mount point) are [vars], beside the world. *)

From S2P Require Import Prelude GoAct GoStrings GoPath GoFs Configs UserDb DeviceEmulator SpecTypes CgroupFiles SystemdUnits.

Open Scope string_scope.
Open Scope list_scope.
#[local] Open Scope Z_scope.

Module intelrdt.

(** ** Data: stats.go, monitoring.go *)

Record L3CacheInfo := mkL3CacheInfo { CbmMask : string; MinCbmBits : Z; l3_NumClosids : Z }.
Record MemBwInfo := mkMemBwInfo { BandwidthGran : Z; DelayLinear : Z; MinBandwidth : Z; mb_NumClosids : Z }.
Record MBMNumaNodeStats := mkMBM { MBMTotalBytes : Z; MBMLocalBytes : Z }.
Record CMTNumaNodeStats := mkCMT { LLCOccupancy : Z }.
Record Stats := mkStats {
  L3CacheInfo_ : option L3CacheInfo; L3CacheSchemaRoot : string; s_L3CacheSchema : string;
  MemBwInfo_ : option MemBwInfo; MemBwSchemaRoot : string; s_MemBwSchema : string;
  MBMStats : option (list MBMNumaNodeStats); CMTStats : option (list CMTNumaNodeStats) }.

Record monFeatures := mkMon { mbmTotalBytes : bool; mbmLocalBytes : bool; llcOccupancy : bool }.
Record cpuInfoFlags := mkFlags { CAT : bool; MBA : bool; MBMTotal : bool; MBMLocal : bool; CMT : bool }.
(** What mountinfo says of a mount. *)
Record Info := mkInfo { FSType : string; VFSOptions : string; Mountpoint : string }.

(** The variables of the package. *)
Record vars := mkVars {
  inited : bool; catEnabled : bool; mbaEnabled : bool; mbaScEnabled : bool; mbmEnabled : bool; cmtEnabled : bool;
  enabledMonFeatures : monFeatures; intelRdtRoot : string }.
Definition set_inited (v : vars) : vars :=
  mkVars true (catEnabled v) (mbaEnabled v) (mbaScEnabled v) (mbmEnabled v) (cmtEnabled v) (enabledMonFeatures v) (intelRdtRoot v).
Definition set_cat (v : vars) : vars :=
  mkVars (inited v) true (mbaEnabled v) (mbaScEnabled v) (mbmEnabled v) (cmtEnabled v) (enabledMonFeatures v) (intelRdtRoot v).
Definition set_mba (v : vars) : vars :=
  mkVars (inited v) (catEnabled v) true (mbaScEnabled v) (mbmEnabled v) (cmtEnabled v) (enabledMonFeatures v) (intelRdtRoot v).
Definition set_mbaSc (v : vars) : vars :=
  mkVars (inited v) (catEnabled v) (mbaEnabled v) true (mbmEnabled v) (cmtEnabled v) (enabledMonFeatures v) (intelRdtRoot v).
Definition set_features (f : monFeatures) (v : vars) : vars :=
  mkVars (inited v) (catEnabled v) (mbaEnabled v) (mbaScEnabled v) (mbmEnabled v) (cmtEnabled v) f (intelRdtRoot v).
Definition set_monitors (mbm cmt : bool) (v : vars) : vars :=
  mkVars (inited v) (catEnabled v) (mbaEnabled v) (mbaScEnabled v) (mbmEnabled v || mbm) (cmtEnabled v || cmt) (enabledMonFeatures v) (intelRdtRoot v).
Definition set_root (root : string) (v : vars) : vars :=
  mkVars (inited v) (catEnabled v) (mbaEnabled v) (mbaScEnabled v) (mbmEnabled v) (cmtEnabled v) (enabledMonFeatures v) root.
Definition initial_vars : vars := mkVars false false false false false false (mkMon false false false) "".

Record intelRdtManager := mkRdt { config : option IntelRdt; id_ : string; m_path : string }.
Definition set_path (p : string) (m : intelRdtManager) : intelRdtManager := mkRdt (config m) (id_ m) p.

Definition errNotFound : error := ErrNew "Intel RDT resctrl mount point not found".

(** ** Texts *)

Definition flags_of (line : string) : cpuInfoFlags :=
  let has f := bool_decide (f ∈ split ch_space line) in
  mkFlags (has "cat_l3") (has "mba") (has "cqm_mbm_total") (has "cqm_mbm_local") (has "cqm_occup_llc").
Fixpoint first_flags (lines : list string) : option cpuInfoFlags :=
  match lines with [] => None | line :: ls => if has_prefix "flags" line then Some (flags_of line) else first_flags ls end.
Definition parse_cpuinfo (text : result string) : result cpuInfoFlags :=
  let '(lines, err) := Scanner text in
  match first_flags lines, err with
  | Some f, _ => Ok f
  | None, Some e => Err e
  | None, None => Ok (mkFlags false false false false false)
  end.

(** The features, with the error of the scanner. *)
Definition parseMonFeatures (text : result string) : monFeatures * option error :=
  let '(lines, err) := Scanner text in
  let has f := bool_decide (f ∈ lines) in
  (mkMon (has "mbm_total_bytes") (has "mbm_local_bytes") (has "llc_occupancy"), err).

(** The last line that contains a word; [before] when there is none. *)
Fixpoint last_with (word before : string) (lines : list string) : string :=
  match lines with [] => before | l :: ls => last_with word (if contains_sub word l then trim_space l else before) ls end.

(** The file system: [RemoveAll], and the mounts of /proc/self/mountinfo in their order. *)
Class Resctrl (W : Type) := { os_RemoveAll : string -> Act W unit; GetMounts : Act W (list Info) }.

Section ops.
Context {W : Type} `{CgroupFs W} `{Resctrl W}.
Definition world : Type := W * vars.

(** [os.ReadFile] and [os.WriteFile] *)
Definition os_ReadFile (p : string) : Act W string := _ ← sys_open p O_RDONLY; sys_read p.
Definition os_WriteFile (p data : string) : Act W unit := _ ← sys_open p O_WRONLY; sys_write p data.

(** ** The file system and the features of the machine *)

Definition findIntelRdtMountpointDir (mounts : list Info) : Act world string :=
  match filter (fun m => FSType m = "resctrl") mounts with
  | [] => throw errNotFound
  | mi :: _ =>
      _ ← (if contains_sub ",mba_MBps," ("," +:+ VFSOptions mi +:+ ",") then modify set_mbaSc else mret tt);
      mret (Mountpoint mi)
  end.
Definition Root : Act world string :=
  v ← gets id;
  if negb (bool_decide (intelRdtRoot v = "")) then mret (intelRdtRoot v) else
  mounts ← from_fs GetMounts;
  root ← findIntelRdtMountpointDir mounts;
  _ ← from_fs (sys_stat root);
  _ ← modify (set_root root);
  mret root.

Definition parseCpuInfoFile (path : string) : Act W cpuInfoFlags :=
  _ ← sys_open path O_RDONLY; text ← try_ (sys_read path); lift (parse_cpuinfo text).
Definition getMonFeatures (root : string) : Act W (monFeatures * option error) :=
  let path := Join [root; "info"; "L3_MON"; "mon_features"] in
  f ← try_ (sys_open path O_RDONLY);
  match f with
  | Err e => mret (mkMon false false false, Some e)
  | Ok _ => text ← try_ (sys_read path); mret (parseMonFeatures text)
  end.

(** [if _, err := os.Stat(...); err == nil] *)
Definition if_there (path : string) (f : vars -> vars) : Act world unit :=
  r ← try_ (from_fs (sys_stat path)); if is_ok r then modify f else mret tt.
Definition lookup_features : Act world unit :=
  flagsSet ← from_fs (parseCpuInfoFile "/proc/cpuinfo");
  root ← Root;
  _ ← (if CAT flagsSet then if_there (Join [root; "info"; "L3"]) set_cat else mret tt);
  v ← gets id;
  _ ← (if mbaScEnabled v then modify set_mba
       else if MBA flagsSet then if_there (Join [root; "info"; "MB"]) set_mba else mret tt);
  if negb (MBMTotal flagsSet || MBMLocal flagsSet || CMT flagsSet) then mret tt else
  _ ← from_fs (sys_stat (Join [root; "info"; "L3_MON"]));
  fe ← from_fs (getMonFeatures root);
  _ ← modify (set_features fe.1);
  match fe.2 with
  | Some e => throw e
  | None => modify (set_monitors (mbmTotalBytes fe.1 || mbmLocalBytes fe.1) (llcOccupancy fe.1))
  end.
(** Once; what fails leaves the rest of the features off. *)
Definition featuresInit : Act world unit :=
  v ← gets id;
  if inited v then mret tt else _ ← modify set_inited; _ ← try_ lookup_features; mret tt.
Definition IsCATEnabled : Act world bool := _ ← featuresInit; gets catEnabled.
Definition IsMBAEnabled : Act world bool := _ ← featuresInit; gets mbaEnabled.
Definition IsMBAScEnabled : Act world bool := _ ← featuresInit; gets mbaScEnabled.
Definition IsMBMEnabled : Act world bool := _ ← featuresInit; gets mbmEnabled.
Definition IsCMTEnabled : Act world bool := _ ← featuresInit; gets cmtEnabled.

(** ** Single values *)

Definition getIntelRdtParamUint (path file : string) : Act W Z :=
  contents ← os_ReadFile (Join [path; file]);
  match fscommon.ParseUint (trim_space contents) with
  | Ok v => mret v
  | Err _ => throw (ErrNew "unable to parse %q as a uint from file %q")
  end.
Definition getIntelRdtParamString (path file : string) : Act W string :=
  contents ← os_ReadFile (Join [path; file]); mret (trim_space contents).

Definition getLastCmdStatus : Act world string :=
  rootPath ← Root; from_fs (getIntelRdtParamString (Join [rootPath; "info"]) "last_cmd_status").
(** The error that is returned for [err]. *)
Definition newLastCmdError (err : error) : Act world error :=
  r ← try_ getLastCmdStatus;
  mret (match r with Ok _ => ErrWrap "last_cmd_status" err | Err _ => err end).
(** [if err := m; err != nil { return newLastCmdError(wrap(err)) }] *)
Definition with_status (wrap : error -> error) (m : Act world unit) : Act world unit :=
  r ← try_ m;
  match r with Ok _ => mret tt | Err e => e' ← newLastCmdError (wrap e); throw e' end.

Definition writeFile (dir file data : string) : Act world unit :=
  if bool_decide (dir = "") then throw (ErrNew "no such directory for %s") else
  with_status (ErrWrap "intelrdt: unable to write %v") (from_fs (os_WriteFile (Join [dir; file]) (data +:+ String ch_newline ""))).

Definition intelRdtTasks : string := "tasks".
Definition WriteIntelRdtTasks (dir : string) (pid : Z) : Act world unit :=
  if bool_decide (dir = "") then throw (ErrNew "no such directory for %s") else
  if pid =? -1 then mret tt else
  with_status (ErrWrap "intelrdt: unable to add pid %d") (from_fs (os_WriteFile (Join [dir; intelRdtTasks]) (format_int pid))).

Definition getL3CacheInfo : Act world L3CacheInfo :=
  rootPath ← Root;
  let path := Join [rootPath; "info"; "L3"] in
  cbmMask ← from_fs (getIntelRdtParamString path "cbm_mask");
  minCbmBits ← from_fs (getIntelRdtParamUint path "min_cbm_bits");
  numClosids ← from_fs (getIntelRdtParamUint path "num_closids");
  mret (mkL3CacheInfo cbmMask minCbmBits numClosids).
Definition getMemBwInfo : Act world MemBwInfo :=
  rootPath ← Root;
  let path := Join [rootPath; "info"; "MB"] in
  bandwidthGran ← from_fs (getIntelRdtParamUint path "bandwidth_gran");
  delayLinear ← from_fs (getIntelRdtParamUint path "delay_linear");
  minBandwidth ← from_fs (getIntelRdtParamUint path "min_bandwidth");
  numClosids ← from_fs (getIntelRdtParamUint path "num_closids");
  mret (mkMemBwInfo bandwidthGran delayLinear minBandwidth numClosids).

(** ** Monitoring: monitoring.go, mbm.go, cmt.go *)

Definition param_if (b : bool) (path file : string) : Act W Z := if b then getIntelRdtParamUint path file else mret 0.
Definition getMBMNumaNodeStats (numaPath : string) : Act world MBMNumaNodeStats :=
  v ← gets id;
  total ← from_fs (param_if (mbmTotalBytes (enabledMonFeatures v)) numaPath "mbm_total_bytes");
  local ← from_fs (param_if (mbmLocalBytes (enabledMonFeatures v)) numaPath "mbm_local_bytes");
  mret (mkMBM total local).
Definition getCMTNumaNodeStats (numaPath : string) : Act world CMTNumaNodeStats :=
  v ← gets id;
  llc ← from_fs (param_if (llcOccupancy (enabledMonFeatures v)) numaPath "llc_occupancy");
  mret (mkCMT llc).
Fixpoint numa_stats (dir : string) (files : list (string * bool)) : Act world (list MBMNumaNodeStats * list CMTNumaNodeStats) :=
  match files with
  | [] => mret ([], [])
  | (_, false) :: l => numa_stats dir l
  | (name, true) :: l =>
      let numaPath := Join [dir; name] in
      isMBM ← IsMBMEnabled;
      mbm ← (if isMBM : bool then s ← getMBMNumaNodeStats numaPath; mret [s] else mret []);
      isCMT ← IsCMTEnabled;
      cmt ← (if isCMT : bool then s ← getCMTNumaNodeStats numaPath; mret [s] else mret []);
      rest ← numa_stats dir l;
      mret (mbm ++ rest.1, cmt ++ rest.2)
  end.
Definition getMonitoringStats (containerPath : string) : Act world (list MBMNumaNodeStats * list CMTNumaNodeStats) :=
  let dir := Join [containerPath; "mon_data"] in
  numaFiles ← from_fs (sys_readdir dir);
  numa_stats dir numaFiles.

(** ** The manager *)

Definition NewManager (config : option IntelRdt) (id path : string) : intelRdtManager := mkRdt config id path.

Definition closid (m : intelRdtManager) : string :=
  match config m with Some c => if bool_decide (ClosID c = "") then id_ m else ClosID c | None => id_ m end.
Definition getIntelRdtPath (m : intelRdtManager) : Act world string :=
  rootPath ← Root; mret (Join [rootPath; closid m]).
Definition GetPath : Act (world * intelRdtManager) string :=
  m ← gets id;
  if negb (bool_decide (m_path m = "")) then mret (m_path m) else
  r ← try_ (from_fs (getIntelRdtPath m));
  let p := match r with Ok p => p | Err _ => "" end in
  _ ← modify (set_path p); mret p.

Definition needs_group (c : IntelRdt) : bool :=
  negb (bool_decide (ClosID c = "")) && bool_decide (L3CacheSchema c = "") && bool_decide (MemBwSchema c = "").
Definition Apply (pid : Z) : Act (world * intelRdtManager) unit :=
  m ← gets id;
  match config m with
  | None => mret tt
  | Some c =>
      path ← from_fs (getIntelRdtPath m);
      _ ← (if needs_group c then wrapping "clos dir not accessible" (from_fs (from_fs (sys_stat path))) else mret tt);
      _ ← from_fs (with_status id (from_fs (sys_mkdirall path)));
      _ ← from_fs (with_status id (WriteIntelRdtTasks path pid));
      modify (set_path path)
  end.

Definition Destroy : Act (world * intelRdtManager) unit :=
  m ← gets id;
  if (match config m with None => true | Some c => bool_decide (ClosID c = "") end) then
    path ← GetPath;
    _ ← from_fs (from_fs (os_RemoveAll path));
    modify (set_path "")
  else mret tt.

(** The text that [Set] writes, when there is one. *)
Definition schemata (c : IntelRdt) : option string :=
  match bool_decide (L3CacheSchema c = ""), bool_decide (MemBwSchema c = "") with
  | false, false => Some (L3CacheSchema c +:+ String ch_newline "" +:+ MemBwSchema c)
  | false, true => Some (L3CacheSchema c)
  | true, false => Some (MemBwSchema c)
  | true, true => None
  end.
Definition Set_ (container : option IntelRdt) : Act (world * intelRdtManager) unit :=
  match container with
  | None => mret tt
  | Some c =>
      path ← GetPath;
      match schemata c with Some data => from_fs (writeFile path "schemata" data) | None => mret tt end
  end.

Definition GetStats : Act (world * intelRdtManager) (option Stats) :=
  m ← gets id;
  match config m with
  | None => mret None
  | Some _ =>
      rootPath ← from_fs Root;
      tmpRoot ← from_fs (from_fs (getIntelRdtParamString rootPath "schemata"));
      let schemaRoot := split ch_newline tmpRoot in
      containerPath ← GetPath;
      tmp ← from_fs (from_fs (getIntelRdtParamString containerPath "schemata"));
      let schema := split ch_newline tmp in
      isCAT ← from_fs IsCATEnabled;
      l3 ← (if isCAT : bool then i ← from_fs getL3CacheInfo; mret (Some i, last_with "L3" "" schemaRoot, last_with "L3" "" schema)
            else mret (None, "", ""));
      isMBA ← from_fs IsMBAEnabled;
      mb ← (if isMBA : bool then i ← from_fs getMemBwInfo; mret (Some i, last_with "MB" "" schemaRoot, last_with "MB" "" schema)
            else mret (None, "", ""));
      isMBM ← from_fs IsMBMEnabled;
      isCMT ← (if isMBM : bool then mret true else from_fs IsCMTEnabled);
      mon ← (if isCMT : bool then s ← from_fs (getMonitoringStats containerPath); mret (Some s.1, Some s.2) else mret (None, None));
      mret (Some (mkStats l3.1.1 l3.1.2 l3.2 mb.1.1 mb.1.2 mb.2 mon.1 mon.2))
  end.
End ops.
End intelrdt.
