(* ===== verification/RdtThms.v ===== *)
(** * Theorems on Intel RDT

    A valid configuration names one directory below the mount point of resctrl; the schemata that are set are
    those that the statistics report. *)

From S2P Require Import Prelude GoAct GoStrings GoPath GoFs Configs UserDb DeviceEmulator Validator SpecTypes CgroupFiles CgroupThms CgroupV1 CgroupV2 CgroupExample SystemdUnits Rdt.

Open Scope string_scope.
Open Scope list_scope.
#[local] Open Scope Z_scope.

Import intelrdt.

(** ** The group of a container *)

Lemma closid_good (env : SystemEnv) (c : Config) (m : intelRdtManager) :
  check_intelrdt env c = Ok tt -> config m = c_IntelRdt c -> good (id_ m) -> good (closid m).
Proof.
  unfold check_intelrdt, closid. intros Hc ->. intros Hid. destruct (c_IntelRdt c) as [r|]; [|done]. destruct (bool_decide_reflect (ClosID r = "")) as [Hn|Hn]; [done|].
  apply bind_ok in Hc as ([] & Hg & _). apply guard_err_ok in Hg. apply orb_false_iff in Hg as [Hg Hs]. apply orb_false_iff in Hg as [H1 H2].
  apply bool_decide_eq_false in H1, H2. by repeat split.
Qed.

(** With a configuration that the validator accepts and an id that is one path element, the group is a
    directory directly below the root of the resctrl file system: neither the root itself nor anything deeper or outside. *)
Theorem rdt_group_confined {W} `{CgroupFs W} `{Resctrl W} (env : SystemEnv) (c : Config) (m : intelRdtManager) (ws ws' : world) (p : string) :
  check_intelrdt env c = Ok tt -> config m = c_IntelRdt c -> good (id_ m) ->
  getIntelRdtPath m ws = (ws', Ok p) ->
  exists root ws1, Root ws = (ws1, Ok root) /\ (IsAbs root = true -> p = render true (comps true root ++ [closid m])).
Proof.
  intros Hc Hm Hid. unfold getIntelRdtPath. intros (ws1 & root & Hr & Hp)%act_bind_ok. apply ret_ok in Hp as [_ <-].
  exists root, ws1. split; [done|]. intros Ha. apply Join_good_elem; [done|]. by eapply closid_good.
Qed.

(** ** What is set is what is reported *)

Lemma trim_right_app (a s : string) : trim_right s <> "" -> trim_right (a +:+ s) = a +:+ trim_right s.
Proof.
  intros Hs. induction a as [|c a IH]; [done|]. rewrite app_cons. cbn [trim_right]. rewrite IH, (bool_decide_eq_false_2 (_ = EmptyString)).
  - by rewrite andb_false_r.
  - by destruct a.
Qed.

(** A line of schemata: without spaces, with one of the two words. *)
Definition schema_line (word other s : string) : Prop :=
  s <> "" /\ str_forall (fun a => negb (is_space a)) s = true /\ contains_sub word s = true /\ contains_sub other s = false.

Lemma schema_trim (word other s : string) : schema_line word other s -> trim_space (s +:+ nl) = s.
Proof. intros (Hs & Hf & _). by apply trim_space_word. Qed.
Lemma schema_split (word other s : string) : schema_line word other s -> contains_char ch_newline s = false.
Proof.
  intros (_ & Hf & _). induction s as [|c s IH]; [done|]. cbn [str_forall contains_char] in *. apply andb_true_iff in Hf as [Hc Hf].
  rewrite (IH Hf), orb_false_r. apply bool_decide_eq_false. intros ->. done.
Qed.

Lemma two_lines_trim (l b : string) :
  schema_line "L3" "MB" l -> schema_line "MB" "L3" b -> trim_space ((l +:+ nl +:+ b) +:+ nl) = l +:+ nl +:+ b.
Proof.
  intros (Hl & Hlf & _) (Hb & Hbf & _). unfold trim_space. rewrite !app_assoc_str. destruct l as [|c l]; [done|].
  pose proof Hlf as Hc. cbn [str_forall] in Hc. apply andb_true_iff in Hc as [Hc _]. apply negb_true_iff in Hc.
  rewrite app_cons, trim_left_word, <- app_cons by done.
  assert (trim_right (b +:+ nl) = b) as Eb by by apply trim_right_nl.
  rewrite <- (app_assoc_str (String c l) nl (b +:+ nl)), trim_right_app, Eb, app_assoc_str; [done|]. by rewrite Eb.
Qed.

(** The lines that are reported for a text that was set. *)
Lemma schemata_lines (c : IntelRdt) (data : string) :
  (L3CacheSchema c = "" \/ schema_line "L3" "MB" (L3CacheSchema c)) -> (MemBwSchema c = "" \/ schema_line "MB" "L3" (MemBwSchema c)) ->
  schemata c = Some data ->
  let lines := split ch_newline (trim_space (data +:+ nl)) in
  last_with "L3" "" lines = L3CacheSchema c /\ last_with "MB" "" lines = MemBwSchema c.
Proof.
  intros Hl Hb Hd. unfold schemata in Hd. revert Hd.
  destruct (bool_decide_reflect (L3CacheSchema c = "")) as [El|El], (bool_decide_reflect (MemBwSchema c = "")) as [Eb|Eb];
    intros [= <-]; cbv zeta.
  - destruct Hb as [|Hb]; [done|]. rewrite (schema_trim _ _ _ Hb), split_no_sep by by eapply schema_split. cbn [last_with]. destruct Hb as (? & Hf & -> & ->).
    by rewrite trim_word, El.
  - destruct Hl as [|Hl]; [done|]. rewrite (schema_trim _ _ _ Hl), split_no_sep by by eapply schema_split. cbn [last_with]. destruct Hl as (? & Hf & -> & ->).
    by rewrite trim_word, Eb.
  - destruct Hl as [|Hl]; [done|]. destruct Hb as [|Hb]; [done|]. rewrite two_lines_trim by done. unfold nl. rewrite app_cons, app_empty_l, split_cons_app, (split_no_sep _ (MemBwSchema c)) by by eapply schema_split.
    cbn [last_with]. destruct Hl as (? & Hf & -> & ->), Hb as (? & Hf' & -> & ->). by rewrite !trim_word.
Qed.

Section files.
Context {W : Type} `{CgroupFs W} `{Resctrl W} {contents : W -> gmap string string} {accepts : string -> string -> string -> Prop}
  `{!FilesLaws W contents accepts}.

Lemma os_ReadFile_shows (p c : string) (w w' : W) :
  os_ReadFile p w = (w', Ok c) -> contents w !! p = Some c /\ contents w' = contents w.
Proof.
  unfold os_ReadFile. intros (w1 & u & Ho & Hr)%act_bind_ok. destruct (contents w !! p) as [c0|] eqn:E.
  - destruct (open_law w p O_RDONLY c0 E) as (w2 & Ho' & E2). rewrite Ho in Ho'. injection Ho' as <- ->.
    destruct (read_law w1 p c0) as (w3 & Hr' & E3); [by rewrite E2|]. rewrite Hr in Hr'. injection Hr' as <- <-. split; [done|congruence].
  - destruct (open_missing_law w p O_RDONLY E) as (w2 & Ho' & _). by rewrite Ho in Ho'.
Qed.
Lemma os_WriteFile_run (p d c : string) (w : W) :
  is_Some (contents w !! p) -> accepts p d c -> exists w', os_WriteFile p d w = (w', Ok tt) /\ contents w' = <[p:=c]> (contents w).
Proof.
  intros [c0 Hc] Ha. destruct (open_law w p O_WRONLY c0 Hc) as (w1 & Ho & E1).
  destruct (write_law w1 p d c) as (w2 & Hw & E2); [by rewrite E1, Hc|done|]. exists w2. split; [|congruence]. unfold os_WriteFile.
  by rewrite (act_bind_run _ _ _ _ _ Ho).
Qed.

Lemma param_shows {A} (dir file : string) (k : string -> Act (world * intelRdtManager) A) (w : W) (v : vars) (m : intelRdtManager) ws' (a : A) :
  (x ← from_fs (from_fs (getIntelRdtParamString dir file)); k x) ((w, v), m) = (ws', Ok a) ->
  exists w1 c, contents w !! Join [dir; file] = Some c /\ contents w1 = contents w /\ k (trim_space c) ((w1, v), m) = (ws', Ok a).
Proof.
  unfold getIntelRdtParamString, from_fs, mbind, Act_bind. cbn -[Join]. destruct (os_ReadFile (Join [dir; file]) w) as [w1 [c|e]] eqn:E; [|done].
  apply os_ReadFile_shows in E as [E1 E2]. cbn. intros Hk. by exists w1, c.
Qed.

(** On a system that shows what was written, up to spaces around it, the schemata that [Set] writes are those that
    [GetStats] reports, each to its feature: one joint text is written and taken apart again. *)
Theorem schemata_round_trip (w : W) (v : vars) (m : intelRdtManager) (c : IntelRdt) (data shown : string) :
  intelRdtRoot v <> "" -> m_path m <> "" ->
  (L3CacheSchema c = "" \/ schema_line "L3" "MB" (L3CacheSchema c)) -> (MemBwSchema c = "" \/ schema_line "MB" "L3" (MemBwSchema c)) ->
  schemata c = Some data -> is_Some (contents w !! Join [m_path m; "schemata"]) ->
  accepts (Join [m_path m; "schemata"]) (data +:+ nl) shown -> trim_space shown = trim_space (data +:+ nl) ->
  exists w1, Set_ (Some c) ((w, v), m) = (((w1, v), m), Ok tt) /\
    forall ws' st, GetStats ((w1, v), m) = (ws', Ok (Some st)) ->
      (is_Some (L3CacheInfo_ st) -> s_L3CacheSchema st = L3CacheSchema c) /\
      (is_Some (MemBwInfo_ st) -> s_MemBwSchema st = MemBwSchema c).
Proof.
  intros Hroot Hp Hl Hb Hd Hfile Hacc Hshown. destruct (os_WriteFile_run _ _ _ w Hfile Hacc) as (w1 & Hw & Hc1). exists w1.
  assert (forall w, GetPath ((w, v), m) = (((w, v), m), Ok (m_path m))) as HGP.
  { intros w0. unfold GetPath, gets, mbind, Act_bind. cbn. by rewrite bool_decide_eq_false_2. }
  assert (forall w, Root (w, v) = ((w, v), Ok (intelRdtRoot v))) as HR.
  { intros w0. unfold Root, gets, mbind, Act_bind. cbn. by rewrite bool_decide_eq_false_2. }
  split.
  { unfold Set_. rewrite (act_bind_run _ _ _ _ _ (HGP w)), Hd. unfold from_fs at 1, writeFile. cbn -[Join]. rewrite bool_decide_eq_false_2 by done.
    unfold with_status, mbind, Act_bind, try_, from_fs. cbn -[Join]. unfold nl in Hw. by rewrite Hw. }
  intros ws' st. unfold GetStats. intros (ws0 & m0 & Hg & Hs)%act_bind_ok. injection Hg as <- <-. cbn in Hs.
  destruct (config m) as [c0|]; [|by injection Hs].
  apply act_bind_ok in Hs as (ws2 & root & Hr & Hs). unfold from_fs in Hr. cbn in Hr. rewrite HR in Hr. injection Hr as <- <-.
  apply param_shows in Hs as (w2 & croot & _ & Hc2 & Hs). cbv zeta in Hs.
  rewrite (act_bind_run _ _ _ _ _ (HGP w2)) in Hs. apply param_shows in Hs as (w3 & cs & Hcs & _ & Hs). cbv zeta in Hs.
  rewrite Hc2, Hc1, lookup_insert_eq in Hcs. injection Hcs as <-. rewrite Hshown in Hs.
  destruct (schemata_lines c data Hl Hb Hd) as [EL EM].
  apply act_bind_ok in Hs as (ws4 & isCAT & _ & Hs). apply act_bind_ok in Hs as (ws5 & l3 & H3 & Hs).
  apply act_bind_ok in Hs as (ws6 & isMBA & _ & Hs). apply act_bind_ok in Hs as (ws7 & mb & Hm & Hs).
  apply act_bind_ok in Hs as (ws8 & isMBM & _ & Hs). apply act_bind_ok in Hs as (ws9 & isCMT & _ & Hs).
  apply act_bind_ok in Hs as (ws10 & mon & _ & Hs). apply ret_ok in Hs as [_ [= <-]]. cbn.
  split; intros Hi.
  - destruct isCAT; [|apply ret_ok in H3 as [_ <-]; by destruct Hi]. by apply act_bind_ok in H3 as (? & i & _ & [_ <-]%ret_ok).
  - destruct isMBA; [|apply ret_ok in Hm as [_ <-]; by destruct Hi]. by apply act_bind_ok in Hm as (? & i & _ & [_ <-]%ret_ok).
Qed.
End files.

(** ** A machine *)

Definition rdt_root : string := "/sys/fs/resctrl".
#[local] Instance kernel_resctrl : Resctrl kernel := {|
  os_RemoveAll := fun p k => (mkKernel (k_files k) (filter (fun d => ~ comps true p `prefix_of` d) (k_dirs k)), Ok tt);
  GetMounts := fun k => (k, Ok [mkInfo "proc" "rw" "/proc"; mkInfo "resctrl" "rw,mba_MBps" rdt_root]) |}.

Definition rdt_config : IntelRdt := mkIntelRdt "" "L3:0=ff;1=c0" "MB:0=20;1=70".
Definition rdt_files (group : string) : gmap string string := list_to_map
  [("/proc/cpuinfo", "flags : fpu cat_l3 mba" +:+ nl); (rdt_root +:+ "/schemata", "L3:0=fff;1=fff" +:+ nl +:+ "MB:0=100;1=100" +:+ nl);
   (rdt_root +:+ "/" +:+ group +:+ "/schemata", ""); (rdt_root +:+ "/" +:+ group +:+ "/tasks", "");
   (rdt_root +:+ "/info/L3/cbm_mask", "fff" +:+ nl); (rdt_root +:+ "/info/L3/min_cbm_bits", "1" +:+ nl); (rdt_root +:+ "/info/L3/num_closids", "16" +:+ nl);
   (rdt_root +:+ "/info/MB/bandwidth_gran", "10" +:+ nl); (rdt_root +:+ "/info/MB/delay_linear", "1" +:+ nl);
   (rdt_root +:+ "/info/MB/min_bandwidth", "10" +:+ nl); (rdt_root +:+ "/info/MB/num_closids", "8" +:+ nl)].
Definition rdt_kernel (group : string) : kernel := mkKernel (rdt_files group)
  (list_to_set (map (comps true) ["/"; rdt_root; rdt_root +:+ "/info/L3"; rdt_root +:+ "/info/MB"; rdt_root +:+ "/" +:+ group])).
Definition rdt_data : string := "L3:0=ff;1=c0" +:+ nl +:+ "MB:0=20;1=70".
Definition rdt_manager : intelRdtManager := mkRdt (Some rdt_config) "c1" "/sys/fs/resctrl/c1".

Lemma schemata_round_trip_witness :
  exists w1, Set_ (Some rdt_config) ((rdt_kernel "c1", set_root rdt_root initial_vars), rdt_manager)
      = (((w1, set_root rdt_root initial_vars), rdt_manager), Ok tt) /\
    forall ws' st, GetStats ((w1, set_root rdt_root initial_vars), rdt_manager) = (ws', Ok (Some st)) ->
      (is_Some (L3CacheInfo_ st) -> s_L3CacheSchema st = "L3:0=ff;1=c0") /\ (is_Some (MemBwInfo_ st) -> s_MemBwSchema st = "MB:0=20;1=70").
Proof.
  apply (schemata_round_trip (contents := k_files) (accepts := fun _ d c => c = d +:+ nl) (rdt_kernel "c1") (set_root rdt_root initial_vars) rdt_manager rdt_config
    rdt_data ((rdt_data +:+ nl) +:+ nl)).
  - discriminate.
  - discriminate.
  - right. split; [discriminate|]. vm_compute. auto.
  - right. split; [discriminate|]. vm_compute. auto.
  - vm_compute. reflexivity.
  - exists "". vm_compute. reflexivity.
  - reflexivity.
  - vm_compute. reflexivity.
Defined.
(** On this machine the statistics are there. *)
Lemma rdt_stats_example :
  match GetStats ((rdt_kernel "c1", initial_vars), rdt_manager) with
  | (_, Ok (Some st)) => L3CacheInfo_ st = Some (mkL3CacheInfo "fff" 1 16) /\ MemBwInfo_ st = Some (mkMemBwInfo 10 1 10 8)
  | _ => False
  end.
Proof. vm_compute. done. Qed.

(** A container without Intel RDT settings removes the directory of its id when it is destroyed, whoever
    made it: the class "gold" of other containers goes away with a container of that name. *)
Lemma foreign_group_removed :
  let m := mkRdt None "gold" "" in
  let '(((k, _), _), out) := Destroy ((rdt_kernel "gold", initial_vars), m) in
  out = Ok tt /\ comps true (rdt_root +:+ "/gold") ∈ k_dirs (rdt_kernel "gold") /\ comps true (rdt_root +:+ "/gold") ∉ k_dirs k.
Proof. split; [vm_compute; reflexivity|]. split; apply (bool_decide_unpack _); vm_compute; reflexivity. Qed.
