(* ===== verification/Bootstrap.v ===== *)
(** * What the bootstrap of a container process is told: message_linux.go, bootstrapData of container_linux.go, and nsexec.c

    The parent encodes namespaces, identity mappings and mount sources as attributes of a netlink
    message ([bootstrapData]); the C program that runs first in the child decodes them ([nl_parse])
    and acts on them ([join_namespaces], [send_mountsources], [receive_mountsources]).

    Bytes are characters.  The byte order of the machine is a parameter.  What the package and the
    container object keep between calls is [globals], next to the world of system calls. *)

From S2P Require Import Prelude GoAct GoStrings GoPath GoFs Devices Configs UserDb Seccomp SpecTypes SpecConv CgroupFiles InitSys RootfsSetup ContainerInit ParentProcess.

Open Scope string_scope.
Open Scope list_scope.
#[local] Open Scope Z_scope.

Module boot.
Import libcontainer init process.

Definition bytes : Type := list ascii.
Definition bytes_of (s : string) : bytes := String.list_ascii_of_string s.
Definition string_of (b : bytes) : string := String.string_of_list_ascii b.
Definition nul : ascii := chr 0.

(** ** Numbers as bytes *)

Inductive endian := LittleEndian | BigEndian.
Definition byte_of (z : Z) : ascii := Ascii.ascii_of_N (Z.to_N (z mod 256)).
Definition byte_val (c : ascii) : Z := Z.of_N (Ascii.N_of_ascii c).
Fixpoint le_put (n : nat) (z : Z) : bytes :=
  match n with O => [] | S n => byte_of z :: le_put n (z / 256) end.
Fixpoint le_get (b : bytes) : Z :=
  match b with [] => 0 | c :: b => byte_val c + 256 * le_get b end.
Definition put (e : endian) (n : nat) (z : Z) : bytes :=
  match e with LittleEndian => le_put n z | BigEndian => rev (le_put n z) end.
Definition get (e : endian) (b : bytes) : Z :=
  match e with LittleEndian => le_get b | BigEndian => le_get (rev b) end.

(** ** message_linux.go *)

Definition InitMsg : Z := 62000.
Definition CloneFlagsAttr : Z := 27281.
Definition NsPathsAttr : Z := 27282.
Definition UidmapAttr : Z := 27283.
Definition GidmapAttr : Z := 27284.
Definition SetgroupAttr : Z := 27285.
Definition OomScoreAdjAttr : Z := 27286.
Definition RootlessEUIDAttr : Z := 27287.
Definition UidmapPathAttr : Z := 27288.
Definition GidmapPathAttr : Z := 27289.
Definition MountSourcesAttr : Z := 27290.

Definition NLA_HDRLEN : Z := 4.
Definition NLA_ALIGNTO : Z := 4.
Definition MaxUint16 : Z := 65535.

(** The three implementations of [nl.NetlinkRequestData]. *)
Inductive message :=
  | Int32msg (Type_ Value : Z)
  | Bytemsg (Type_ : Z) (Value : bytes)
  | Boolmsg (Type_ : Z) (Value : bool).
Definition msg_Len (m : message) : Z :=
  match m with
  | Int32msg _ _ => NLA_HDRLEN + 4
  | Bytemsg _ value => NLA_HDRLEN + Z.of_nat (length value) + 1
  | Boolmsg _ _ => NLA_HDRLEN + 4
  end.
Definition netlinkError : error := ErrNew "netlink: cannot serialize bytemsg of length %d (larger than UINT16_MAX)".
Definition align (l : Z) : Z := Z.land (l + NLA_ALIGNTO - 1) (Z.lnot (NLA_ALIGNTO - 1)).
(** [copy(buf[4:], value)] into a buffer of zeros. *)
Definition padded (len : Z) (value : bytes) : bytes := value ++ replicate (Z.to_nat len - length value) nul.
(** The panic of a long [Bytemsg] is recovered by [bootstrapData], as its error. *)
Definition msg_Serialize (e : endian) (m : message) : result bytes :=
  let l := msg_Len m in
  match m with
  | Int32msg t v => Ok (put e 2 l ++ put e 2 t ++ put e 4 v)
  | Bytemsg t v =>
      if MaxUint16 <? l then Err netlinkError
      else Ok (put e 2 l ++ put e 2 t ++ padded (align l - NLA_HDRLEN) v)
  | Boolmsg t v => Ok (put e 2 l ++ put e 2 t ++ put e 4 (if v then 1 else 0))
  end.

(** ** nl.NetlinkRequest *)

Definition SizeofNlMsghdr : Z := 16.
Definition NLM_F_REQUEST : Z := 1.
Record NetlinkRequest := mkRequest { Type_ : Z; Flags : Z; Seq : Z; Pid : Z; Data : list message }.
Definition header (e : endian) (len : Z) (r : NetlinkRequest) : bytes :=
  put e 4 len ++ put e 2 (Type_ r) ++ put e 2 (Flags r) ++ put e 4 (Seq r) ++ put e 4 (Pid r).
Definition Serialize (e : endian) (r : NetlinkRequest) : result bytes :=
  dataBytes ← mapM (msg_Serialize e) (Data r);
  Ok (header e (uint32 (SizeofNlMsghdr + Z.of_nat (length (concat dataBytes)))) r ++ concat dataBytes).

(** ** The container and what outlives a call *)

(** What [linuxContainer] is made of; the fields of its configuration that [configs.Config] has no room for are fields here. *)
Record linuxContainer := mkLinuxContainer {
  id : string; root : string; config : configs.Config; ParentDeathSignal : Z; AppArmorProfile : string; Rlimits : list unix.Rlimit;
  Devices : list Device; Routes : list unix.Route; Networks : list unix.Network;
  initPath : string; initArgs : list string; newuidmapPath : string; newgidmapPath : string; intelRdt : option string }.
Definition Namespaces_of (c : linuxContainer) : Namespaces := configs.Namespaces (configs.linux (config c)).
Definition Mounts_of (c : linuxContainer) : list configs.Mount := configs.Mounts (configs.base (config c)).
Definition UidMappings_of (c : linuxContainer) : list IDMap := default [] (configs.UidMappings (configs.linux (config c))).
Definition GidMappings_of (c : linuxContainer) : list IDMap := default [] (configs.GidMappings (configs.linux (config c))).
Definition RootlessEUID_of (c : linuxContainer) : bool := configs.RootlessEUID (configs.base (config c)).

(** The cgroup managers: those for v1 keep a map and hand it out, those for v2 a path. *)
Inductive Manager :=
  | fs_manager (paths : gmap string string)
  | fs2_manager (dirPath : string)
  | systemd_legacyManager (paths : gmap string string)
  | systemd_unifiedManager (path : string).
Definition GetPaths (m : Manager) : gmap string string :=
  match m with
  | fs_manager paths | systemd_legacyManager paths => paths
  | fs2_manager path | systemd_unifiedManager path => {[ "" := path ]}
  end.
(** An assignment to the map that [GetPaths] returned: the v1 managers share it. *)
Definition assign_path (k v : string) (m : Manager) : Manager :=
  match m with
  | fs_manager paths => fs_manager (<[k := v]> paths)
  | systemd_legacyManager paths => systemd_legacyManager (<[k := v]> paths)
  | fs2_manager _ | systemd_unifiedManager _ => m
  end.

(** [initProcess] is the pid of the first process, once it is started. *)
Record globals := mkGlobals {
  supportedNamespaces : gmap string bool; nextSeqNr : Z; cgroupManager : Manager; fifo : option Z; initProcess : option (option Z) }.
Definition set_supported (t : string) (b : bool) (g : globals) : globals :=
  mkGlobals (<[t := b]> (supportedNamespaces g)) (nextSeqNr g) (cgroupManager g) (fifo g) (initProcess g).
Definition next_seq (g : globals) : globals :=
  mkGlobals (supportedNamespaces g) (uint32 (nextSeqNr g + 1)) (cgroupManager g) (fifo g) (initProcess g).
Definition set_manager (m : Manager) (g : globals) : globals :=
  mkGlobals (supportedNamespaces g) (nextSeqNr g) m (fifo g) (initProcess g).
Definition set_fifo (fd : Z) (g : globals) : globals :=
  mkGlobals (supportedNamespaces g) (nextSeqNr g) (cgroupManager g) (Some fd) (initProcess g).
Definition set_initProcess (p : option (option Z)) (g : globals) : globals :=
  mkGlobals (supportedNamespaces g) (nextSeqNr g) (cgroupManager g) (fifo g) p.

Section boot.
Context {K : Type} `{Kernel K}.
Definition M (A : Type) : Type := Act (world K * globals) A.


Definition os {A} (c : unix.call A) : M A := from_fs (sys c).

(** configs/namespaces_linux.go *)
Definition IsNamespaceSupported (ns : string) : M bool :=
  known ← gets (fun g => supportedNamespaces g !! ns);
  match known with
  | Some supported => mret supported
  | None =>
      if bool_decide (NsName ns = "") then mret false else
      r ← try_ (os (unix.Stat ("/proc/self/ns/" +:+ NsName ns)));
      _ ← modify (set_supported ns (is_ok r));
      mret (is_ok r)
  end.

(** ** bootstrapData *)

Fixpoint order_paths (c : linuxContainer) (namespaces : gmap string string) (types : list string) : M (list string) :=
  match types with
  | [] => mret []
  | ns :: types =>
      if negb (Contains (Namespaces_of c) ns) then order_paths c namespaces types else
      match namespaces !! ns with
      | Some p =>
          if bool_decide (p = "") then order_paths c namespaces types else
          supported ← IsNamespaceSupported ns;
          if negb supported then throw (ErrNew "namespace %s is not supported") else
          _ ← wrapping "namespace path" (os (unix.Lstat p));
          if contains_char ch_comma p then throw (ErrNew "invalid namespace path %s") else
          paths ← order_paths c namespaces types;
          mret ((NsName ns +:+ ":" +:+ p) :: paths)
      | None => order_paths c namespaces types
      end
  end.
Definition orderNamespacePaths (c : linuxContainer) (namespaces : gmap string string) : M (list string) :=
  order_paths c namespaces NamespaceTypes.

Definition mapping_line (im : IDMap) : string :=
  format_int (ContainerID im) +:+ " " +:+ format_int (HostID im) +:+ " " +:+ format_int (Size im).
Definition encodeIDMapping (idMap : list IDMap) : string := unlines (map mapping_line idMap).

Definition requiresRootOrMappingTool (c : linuxContainer) : M bool :=
  egid ← os unix.Getegid;
  mret (negb (bool_decide (map (fun im => (ContainerID im, HostID im, Size im)) (GidMappings_of c) = [(0, egid, 1)]))).

Definition IsBind (m : configs.Mount) : bool := negb (Z.land (configs.Flags m) MS_BIND =? 0).
Definition shouldSendMountSources (c : linuxContainer) : bool :=
  if negb (Contains (Namespaces_of c) NEWUSER) || negb (Contains (Namespaces_of c) NEWNS) then false
  else if RootlessEUID_of c then false
  else existsb IsBind (Mounts_of c).

(** The mappings of a new user namespace. *)
Definition uid_messages (c : linuxContainer) : list message :=
  match UidMappings_of c with
  | [] => []
  | uids =>
      (if RootlessEUID_of c && negb (bool_decide (newuidmapPath c = "")) then [Bytemsg UidmapPathAttr (bytes_of (newuidmapPath c))] else [])
      ++ [Bytemsg UidmapAttr (bytes_of (encodeIDMapping uids))]
  end.
Definition gid_messages (c : linuxContainer) : M (list message) :=
  match GidMappings_of c with
  | [] => mret []
  | gids =>
      setgroup ← requiresRootOrMappingTool c;
      mret ([Bytemsg GidmapAttr (bytes_of (encodeIDMapping gids))]
            ++ (if RootlessEUID_of c && negb (bool_decide (newgidmapPath c = "")) then [Bytemsg GidmapPathAttr (bytes_of (newgidmapPath c))] else [])
            ++ (if (setgroup : bool) then [Boolmsg SetgroupAttr true] else []))
  end.

Definition ErrNulSource : error := ErrNew "mount source string contains null byte: %q".
Fixpoint mount_sources (l : list configs.Mount) : result bytes :=
  match l with
  | [] => Ok []
  | m :: l =>
      _ ← guard_err (IsBind m && contains_char nul (configs.Source m)) ErrNulSource;
      rest ← mount_sources l;
      Ok ((if IsBind m then bytes_of (configs.Source m) else []) ++ nul :: rest)
  end.

(** The attributes of the request, in their order. *)
Definition bootstrap_messages (c : linuxContainer) (cloneFlags : Z) (nsMaps : gmap string string) (it : string) : M (list message) :=
  ns ← (if bool_decide (nsMaps = ∅) then mret [] else
        nsPaths ← orderNamespacePaths c nsMaps;
        mret [Bytemsg NsPathsAttr (bytes_of (join "," nsPaths))]);
  let joinExistingUser := bool_decide (is_Some (nsMaps !! NEWUSER)) in
  gids ← (if joinExistingUser then mret [] else gid_messages c);
  sources ← (if bool_decide (it = initStandard) && shouldSendMountSources c
             then mounts ← lift (mount_sources (Mounts_of c)); mret [Bytemsg MountSourcesAttr mounts]
             else mret []);
  mret ([Int32msg CloneFlagsAttr (uint32 cloneFlags)] ++ ns
        ++ (if joinExistingUser then [] else uid_messages c) ++ gids
        ++ match configs.OomScoreAdj (configs.process (config c)) with
           | Some v => [Bytemsg OomScoreAdjAttr (bytes_of (format_int v))]
           | None => []
           end
        ++ [Boolmsg RootlessEUIDAttr (RootlessEUID_of c)] ++ sources).

Definition bootstrapData (e : endian) (c : linuxContainer) (cloneFlags : Z) (nsMaps : gmap string string) (it : string) : M bytes :=
  _ ← modify next_seq;
  seq ← gets nextSeqNr;
  data ← bootstrap_messages c cloneFlags nsMaps it;
  lift (Serialize e (mkRequest InitMsg NLM_F_REQUEST seq 0 data)).
End boot.
Arguments M K A : clear implicits.

(** ** nsexec.c: the reader *)

(** [nlconfig_t]: a pointer is nil or the bytes it points to, up to the length that is stored with it. *)
Record nlconfig := mkNl {
  cloneflags : Z; namespaces : option bytes; uidmap : option bytes; uidmappath : option bytes; gidmap : option bytes;
  gidmappath : option bytes; is_setgroup : Z; oom_score_adj : option bytes; is_rootless_euid : Z; mountsources : option bytes }.
Definition zero_config : nlconfig := mkNl 0 None None None None None 0 None 0 None.

Definition bail (text : string) : error := ErrNew text.
(** An access outside of the data, which C leaves undefined. *)
Definition ErrBeyond : error := ErrNew "read outside of the payload".
Definition read_bytes (n : Z) (current : bytes) : result bytes :=
  if n <=? Z.of_nat (length current) then Ok (take (Z.to_nat n) current) else Err ErrBeyond.
Definition readint32 (e : endian) (current : bytes) : result Z := b ← read_bytes 4 current; Ok (get e b).
Definition readint8 (current : bytes) : result Z := b ← read_bytes 1 current; Ok (le_get b).

(** One case of the switch of [nl_parse]. *)
Definition nl_attr (e : endian) (type payload_len : Z) (current : bytes) (c : nlconfig) : result nlconfig :=
  let value := read_bytes payload_len current in
  if type =? CloneFlagsAttr then
    v ← readint32 e current;
    Ok (mkNl v (namespaces c) (uidmap c) (uidmappath c) (gidmap c) (gidmappath c) (is_setgroup c) (oom_score_adj c) (is_rootless_euid c) (mountsources c))
  else if type =? RootlessEUIDAttr then
    v ← readint8 current;
    Ok (mkNl (cloneflags c) (namespaces c) (uidmap c) (uidmappath c) (gidmap c) (gidmappath c) (is_setgroup c) (oom_score_adj c) v (mountsources c))
  else if type =? OomScoreAdjAttr then
    v ← value;
    Ok (mkNl (cloneflags c) (namespaces c) (uidmap c) (uidmappath c) (gidmap c) (gidmappath c) (is_setgroup c) (Some v) (is_rootless_euid c) (mountsources c))
  else if type =? NsPathsAttr then
    v ← value;
    Ok (mkNl (cloneflags c) (Some v) (uidmap c) (uidmappath c) (gidmap c) (gidmappath c) (is_setgroup c) (oom_score_adj c) (is_rootless_euid c) (mountsources c))
  else if type =? UidmapAttr then
    v ← value;
    Ok (mkNl (cloneflags c) (namespaces c) (Some v) (uidmappath c) (gidmap c) (gidmappath c) (is_setgroup c) (oom_score_adj c) (is_rootless_euid c) (mountsources c))
  else if type =? GidmapAttr then
    v ← value;
    Ok (mkNl (cloneflags c) (namespaces c) (uidmap c) (uidmappath c) (Some v) (gidmappath c) (is_setgroup c) (oom_score_adj c) (is_rootless_euid c) (mountsources c))
  else if type =? UidmapPathAttr then
    v ← value;
    Ok (mkNl (cloneflags c) (namespaces c) (uidmap c) (Some v) (gidmap c) (gidmappath c) (is_setgroup c) (oom_score_adj c) (is_rootless_euid c) (mountsources c))
  else if type =? GidmapPathAttr then
    v ← value;
    Ok (mkNl (cloneflags c) (namespaces c) (uidmap c) (uidmappath c) (gidmap c) (Some v) (is_setgroup c) (oom_score_adj c) (is_rootless_euid c) (mountsources c))
  else if type =? SetgroupAttr then
    v ← readint8 current;
    Ok (mkNl (cloneflags c) (namespaces c) (uidmap c) (uidmappath c) (gidmap c) (gidmappath c) v (oom_score_adj c) (is_rootless_euid c) (mountsources c))
  else if type =? MountSourcesAttr then
    v ← value;
    Ok (mkNl (cloneflags c) (namespaces c) (uidmap c) (uidmappath c) (gidmap c) (gidmappath c) (is_setgroup c) (oom_score_adj c) (is_rootless_euid c) (Some v))
  else Err (bail "unknown netlink message type %d").

(** The loop of [nl_parse], on the bytes from [current] on.  Every turn advances by four bytes
    at least, so the length of the data is enough fuel. *)
Fixpoint nl_attrs (fuel : nat) (e : endian) (current : bytes) (c : nlconfig) : result nlconfig :=
  match current, fuel with
  | [], _ => Ok c
  | _, O => Err (bail "still parsing")
  | _, S fuel =>
      hdr ← read_bytes 4 current;
      let nla_len := get e (take 2 hdr) in
      let nla_type := get e (drop 2 hdr) in
      let payload_len := (nla_len - NLA_HDRLEN) mod 2 ^ 64 in
      c ← nl_attr e nla_type payload_len (drop 4 current) c;
      nl_attrs fuel e (drop (Z.to_nat (align payload_len)) (drop 4 current)) c
  end.

Definition NLMSG_ERROR : Z := 2.
(** The input is what the pipe holds; what follows the message is read later. *)
Definition nl_parse (e : endian) (input : bytes) : result nlconfig :=
  if Z.of_nat (length input) <? SizeofNlMsghdr then Err (bail "invalid netlink header length %zu") else
  let nlmsg_len := get e (take 4 input) in
  let nlmsg_type := get e (take 2 (drop 4 input)) in
  if nlmsg_type =? NLMSG_ERROR then Err (bail "failed to read netlink message") else
  if negb (nlmsg_type =? InitMsg) then Err (bail "unexpected msg type %d") else
  let size := (nlmsg_len - SizeofNlMsghdr) mod 2 ^ 32 in
  let data := take (Z.to_nat size) (drop 16 input) in
  if negb (Z.of_nat (length data) =? size) then Err (bail "failed to read netlink payload, %zu != %zu") else
  nl_attrs (length data) e data zero_config.

(** ** nsexec.c: joining namespaces *)

(** The C string at the start of some bytes. *)
Fixpoint c_string (b : bytes) : string :=
  match b with [] => "" | c :: b => if bool_decide (c = nul) then "" else String c (c_string b) end.
Definition nsflag (name : string) : Z :=
  if bool_decide (name = "cgroup") then CLONE_NEWCGROUP
  else if bool_decide (name = "ipc") then CLONE_NEWIPC
  else if bool_decide (name = "mnt") then CLONE_NEWNS
  else if bool_decide (name = "net") then CLONE_NEWNET
  else if bool_decide (name = "pid") then CLONE_NEWPID
  else if bool_decide (name = "user") then CLONE_NEWUSER
  else if bool_decide (name = "uts") then CLONE_NEWUTS
  else 0.
(** [strtok_r]: runs of separators count as one. *)
Definition strtok (sep : ascii) (s : string) : list string := fields_func (fun c => bool_decide (c = sep)) s.
Fixpoint split_namespaces (l : list string) : result (list (Z * string)) :=
  match l with
  | [] => Ok []
  | ns :: l =>
      match cut ch_colon ns with
      | None => Err (bail "failed to parse %s")
      | Some (type, path) => rest ← split_namespaces l; Ok ((nsflag type, path) :: rest)
      end
  end.
(** The namespaces that are opened and then entered, in this order. *)
Definition join_namespaces (nslist : bytes) : result (list (Z * string)) :=
  match strtok ch_comma (c_string nslist) with
  | [] => Err (bail "ns paths are empty")
  | l => split_namespaces l
  end.

(** ** nsexec.c: the sources of bind mounts *)

(** [send_mountsources]: the paths that are opened and whose descriptors are sent, in this order. *)
Fixpoint sent_sources (fuel : nat) (b : bytes) : list string :=
  match b, fuel with
  | [], _ | _, O => []
  | c :: b', S fuel =>
      if bool_decide (c = nul) then sent_sources fuel b'
      else c_string b :: sent_sources fuel (drop (String.length (c_string b) + 1) b)
  end.
Definition send_mountsources (mountsources : bytes) : list string := sent_sources (length mountsources) mountsources.

(** [strtol] in base ten: blanks, a sign, digits; what is left starts at [*endp]. *)
Fixpoint strtol_digits (acc : Z) (s : string) : Z * string :=
  match s with
  | String c s' => match digit_value c with Some d => strtol_digits (acc * 10 + d) s' | None => (acc, s) end
  | "" => (acc, s)
  end.
Definition LONG_MAX : Z := 2 ^ 63 - 1.
Definition LONG_MIN : Z := - 2 ^ 63.
Definition INT_MAX : Z := 2 ^ 31 - 1.
Definition strtol (s : string) : option (Z * string) :=
  let t := trim_left s in
  let '(sign, d) := match t with
                    | String c t' => if bool_decide (c = chr 45) then (-1, t') else if bool_decide (c = chr 43) then (1, t') else (1, t)
                    | "" => (1, t)
                    end in
  match d with
  | String c _ =>
      match digit_value c with
      | Some _ => let '(n, rest) := strtol_digits 0 d in Some (Z.max LONG_MIN (Z.min LONG_MAX (sign * n)), rest)
      | None => None
      end
  | "" => None
  end.
(** [receive_mountsources]: the numbers that the received descriptors get, in the order in which they are received. *)
Fixpoint received_fds (fuel : nat) (s : string) : result (list Z) :=
  match fuel with
  | O => Err (bail "still parsing")
  | S fuel =>
      match strtol s with
      | None => Err (bail "malformed _LIBCONTAINER_MOUNT_FDS env var: not a number")
      | Some (new_fd, rest) =>
          match rest with
          | "" => Err (bail "malformed _LIBCONTAINER_MOUNT_FDS env var: missing ]")
          | String c rest =>
              if negb (new_fd =? -1) && ((new_fd =? LONG_MAX) || (new_fd <? 0) || (INT_MAX <? new_fd))
              then Err (bail "malformed _LIBCONTAINER_MOUNT_FDS env var: fds out of range")
              else
                more ← (if bool_decide (c = chr 93) then Ok [] else received_fds fuel rest);
                Ok ((if new_fd =? -1 then [] else [new_fd]) ++ more)
          end
      end
  end.
Definition receive_mountsources (mount_fds : string) : result (list Z) :=
  match mount_fds with
  | String c rest =>
      if negb (bool_decide (c = chr 91)) then Err (bail "malformed _LIBCONTAINER_MOUNT_FDS env var: missing '['")
      else if has_prefix "]" rest then Ok [] else received_fds (String.length rest) rest
  | "" => Err (bail "malformed _LIBCONTAINER_MOUNT_FDS env var: missing '['")
  end.
End boot.
