(* ===== verification/Launch.v ===== *)
(** * Starting a process: the objects that container_linux.go builds, and Start, Run, Exec; cgroups/manager/new.go

    [newParentProcess] prepares the command that re-executes the runtime: its descriptors, the
    environment variables that name them, the bootstrap data and the configuration that is sent later.
    [Start] creates the fifo on which a new container waits and starts the process; [Exec] opens it.

    The order in which Go visits a map is a parameter where it can matter. *)

From S2P Require Import Prelude GoAct GoStrings GoPath GoFs Devices Configs Validator UserDb Seccomp ProcStat SpecTypes SpecConv CgroupFiles CgroupV2 InitSys RootfsSetup ContainerInit ParentProcess Bootstrap.

Open Scope string_scope.
Open Scope list_scope.
#[local] Open Scope Z_scope.

Module launch.
Import libcontainer init process boot.

(** ** cgroups/manager/new.go *)

Definition getUnifiedPath (paths : gmap string string) : result string :=
  if (1 <? Z.of_nat (size paths)) then Err (ErrNew "expected a single path, got %+v") else
  let path := default "" (paths !! "") in
  if negb (bool_decide (path = "")) && (negb (bool_decide (Clean path = path)) || negb (IsAbs path))
  then Err (ErrNew "invalid path: %q") else Ok path.

(** The constructors of the managers. *)
Record constructors := mkConstructors {
  IsRunningSystemd : bool; IsCgroup2UnifiedMode : bool;
  systemd_NewUnifiedManager : configs.Cgroup -> string -> result Manager;
  fs2_NewManager : configs.Cgroup -> string -> result Manager;
  systemd_NewLegacyManager : configs.Cgroup -> gmap string string -> result Manager;
  fs_NewManager : configs.Cgroup -> gmap string string -> result Manager }.
Definition NewWithPaths (h : constructors) (config : option configs.Cgroup) (paths : gmap string string) : result Manager :=
  match config with
  | None => Err (ErrNew "cgroups/manager.New: config must not be nil")
  | Some config =>
      if configs.Systemd config && negb (IsRunningSystemd h)
      then Err (ErrNew "systemd not running on this host, cannot use systemd cgroups manager")
      else if IsCgroup2UnifiedMode h then
        path ← wrap_err "manager.NewWithPaths: inconsistent paths" (getUnifiedPath paths);
        if configs.Systemd config then systemd_NewUnifiedManager h config path else fs2_NewManager h config path
      else if configs.Systemd config then systemd_NewLegacyManager h config paths
      else fs_NewManager h config paths
  end.
Definition New (h : constructors) (config : option configs.Cgroup) : result Manager := NewWithPaths h config ∅.

(** ** Processes and commands *)

Record Process := mkProcess {
  pr_Args : list string; pr_Env : list string; pr_User : string; pr_AdditionalGroups : list string; pr_Cwd : string;
  pr_Stdin : Z; pr_Stdout : Z; pr_Stderr : Z; ExtraFiles : list Z; pr_ConsoleWidth : Z; pr_ConsoleHeight : Z;
  pr_Capabilities : option configs.Capabilities; pr_AppArmorProfile : string; Label : string; pr_NoNewPrivileges : option bool;
  pr_Rlimits : list unix.Rlimit; ConsoleSocket : option Z; Init : bool; LogLevel : string; SubCgroupPaths : gmap string string }.

(** [exec.Cmd] *)
Record Cmd := mkCmd {
  cmd_Path : string; cmd_Args : list string; cmd_Env : list string; cmd_Dir : string; cmd_Stdin : Z; cmd_Stdout : Z; cmd_Stderr : Z;
  cmd_ExtraFiles : list Z; Pdeathsig : Z }.
Definition add_env (kv : string) (cmd : Cmd) : Cmd :=
  mkCmd (cmd_Path cmd) (cmd_Args cmd) (cmd_Env cmd ++ [kv]) (cmd_Dir cmd) (cmd_Stdin cmd) (cmd_Stdout cmd) (cmd_Stderr cmd)
    (cmd_ExtraFiles cmd) (Pdeathsig cmd).
Definition add_files (fs : list Z) (cmd : Cmd) : Cmd :=
  mkCmd (cmd_Path cmd) (cmd_Args cmd) (cmd_Env cmd) (cmd_Dir cmd) (cmd_Stdin cmd) (cmd_Stdout cmd) (cmd_Stderr cmd)
    (cmd_ExtraFiles cmd ++ fs) (Pdeathsig cmd).
Definition set_pdeathsig (s : Z) (cmd : Cmd) : Cmd :=
  mkCmd (cmd_Path cmd) (cmd_Args cmd) (cmd_Env cmd) (cmd_Dir cmd) (cmd_Stdin cmd) (cmd_Stdout cmd) (cmd_Stderr cmd) (cmd_ExtraFiles cmd) s.

Definition stdioFdCount : Z := 3.
(** The number that the last of the extra files has in the child. *)
Definition last_fd (cmd : Cmd) : Z := stdioFdCount + Z.of_nat (length (cmd_ExtraFiles cmd)) - 1.
Definition env_var (name value : string) : string := name +:+ "=" +:+ value.
(** A file is inherited, and a variable says under which number. *)
Definition pass_file (name : string) (file : Z) (cmd : Cmd) : Cmd :=
  let cmd := add_files [file] cmd in add_env (env_var name (format_int (last_fd cmd))) cmd.

Definition execFifoFilename : string := "exec.fifo".
Definition fifo_name (c : linuxContainer) : string := Join [root c; execFifoFilename].

(** The files a descriptor of each kind stands for in a new process. *)
Definition commandTemplate_of (c : linuxContainer) (p : Process) (gomaxprocs : string) (childInitPipe childLogPipe : Z) : Cmd :=
  let cmd := mkCmd (initPath c) (initArgs c) [] (configs.Rootfs (configs.base (config c))) (pr_Stdin p) (pr_Stdout p) (pr_Stderr p) [] 0 in
  let cmd := add_env (env_var "GOMAXPROCS" gomaxprocs) cmd in
  let cmd := add_files (ExtraFiles p) cmd in
  let cmd := match ConsoleSocket p with Some s => pass_file "_LIBCONTAINER_CONSOLE" s cmd | None => cmd end in
  let cmd := pass_file "_LIBCONTAINER_INITPIPE" childInitPipe cmd in
  let cmd := add_env (env_var "_LIBCONTAINER_STATEDIR" (root c)) cmd in
  let cmd := pass_file "_LIBCONTAINER_LOGPIPE" childLogPipe cmd in
  let cmd := add_env (env_var "_LIBCONTAINER_LOGLEVEL" (LogLevel p)) cmd in
  if 0 <? ParentDeathSignal c then set_pdeathsig (ParentDeathSignal c) cmd else cmd.

Record filePair := mkPair { parent : Z; child : Z }.

(** What [newParentProcess] returns: the command, what is copied to the bootstrap, and the process object. *)
Record initParent := mkInitParent { i_cmd : Cmd; i_bootstrapData : bytes; i_process : process.initProcess }.
Record setnsParent := mkSetnsParent { s_cmd : Cmd; s_bootstrapData : bytes; s_cgroupPaths : gmap string string; s_process : process.setnsProcess }.
Inductive parentProcess := InitParent (p : initParent) | SetnsParent (p : setnsParent).

(** The part of [State] that is used here. *)
Record State := mkState { InitProcessPid : Z; CgroupPaths : gmap string string; IntelRdtPath : string; NamespacePaths : gmap string string }.

Definition manager_Path (m : Manager) (subsys : string) : string :=
  match m with
  | fs_manager paths | systemd_legacyManager paths => default "" (paths !! subsys)
  | fs2_manager path | systemd_unifiedManager path => path
  end.

(** The numbers of the descriptors of the mounts, and the command that has them; the files are placeholders. *)
Fixpoint mount_fds (placeholder : Z) (l : list configs.Mount) (cmd : Cmd) : list Z * Cmd :=
  match l with
  | [] => ([], cmd)
  | m :: l =>
      if negb (IsBind m) then let '(fds, cmd) := mount_fds placeholder l cmd in (-1 :: fds, cmd)
      else let cmd := add_files [placeholder] cmd in
           let '(fds, cmd') := mount_fds placeholder l cmd in (last_fd cmd :: fds, cmd')
  end.
(** [json.Marshal] of a slice of integers. *)
Definition marshal_ints (l : list Z) : string := "[" +:+ join "," (map format_int l) +:+ "]".

Section launch.
Context {K : Type} `{Kernel K} (e : endian).

(** An unset variable is empty. *)
Definition Getenv (name : string) : M K string := r ← try_ (os (unix.Getenv name)); mret (match r with Ok v => v | Err _ => "" end).

Definition commandTemplate (c : linuxContainer) (p : Process) (childInitPipe childLogPipe : Z) : M K Cmd :=
  match initArgs c with
  | [] => throw (panic "slice bounds out of range")
  | _ => gomaxprocs ← Getenv "GOMAXPROCS"; mret (commandTemplate_of c p gomaxprocs childInitPipe childLogPipe)
  end.

Definition includeExecFifo (c : linuxContainer) (cmd : Cmd) : M K Cmd :=
  fd ← os (unix.Open (fifo_name c) unix.O_PATH);
  _ ← modify (set_fifo fd);
  mret (pass_file "_LIBCONTAINER_FIFOFD" fd cmd).

Definition newInitConfig (c : linuxContainer) (p : Process) : M K initConfig :=
  let base := configs.base (config c) in
  let proc := configs.process (config c) in
  v2 ← os unix.IsCgroup2UnifiedMode;
  path ← gets (fun g => manager_Path (cgroupManager g) "");
  mret (mkInitConfig (pr_Args p) (pr_Env p) (pr_Cwd p) (pr_Capabilities p)
    (if bool_decide (Label p = "") then configs.ProcessLabel proc else Label p)
    (if bool_decide (pr_AppArmorProfile p = "") then AppArmorProfile c else pr_AppArmorProfile p)
    (default (configs.NoNewPrivileges proc) (pr_NoNewPrivileges p))
    (pr_User p) (pr_AdditionalGroups p) (config c) (Devices c) (Routes c) [] (Z.of_nat (length (ExtraFiles p))) (id c)
    (match pr_Rlimits p with [] => Rlimits c | limits => limits end)
    (bool_decide (is_Some (ConsoleSocket p))) (pr_ConsoleWidth p) (pr_ConsoleHeight p)
    (configs.RootlessEUID base) (configs.RootlessCgroups base) None (if (v2 : bool) then path else "")).

Definition ns_maps (n : Namespaces) : gmap string string :=
  foldl (fun m ns => if bool_decide (ns_Path ns = "") then m else <[ns_Type ns := ns_Path ns]> m) ∅ n.

Definition add_mount_fds (c : linuxContainer) (placeholder : Z) (cmd : Cmd) : Cmd :=
  if shouldSendMountSources c then
    let '(fds, cmd) := mount_fds placeholder (Mounts_of c) cmd in add_env (env_var "_LIBCONTAINER_MOUNT_FDS" (marshal_ints fds)) cmd
  else cmd.

(** [debug] is whether the log level is at least debug. *)
Definition newInitProcess (debug : bool) (c : linuxContainer) (p : Process) (cmd : Cmd) (messageSockPair logFilePair : filePair) : M K initParent :=
  let cmd := add_env (env_var "_LIBCONTAINER_INITTYPE" initStandard) cmd in
  let nsMaps := ns_maps (Namespaces_of c) in
  data ← bootstrapData e c (CloneFlags (Namespaces_of c)) nsMaps initStandard;
  let cmd := add_mount_fds c (child messageSockPair) cmd in
  cfg ← newInitConfig c p;
  _ ← modify (set_initProcess (Some None));
  mret (mkInitParent cmd data
    (mkInitProcess cfg (bool_decide (is_Some (intelRdt c))) (bool_decide (is_Some (nsMaps !! NEWPID)))
       (parent messageSockPair) (child messageSockPair) (child logFilePair) debug)).

(** The types of namespaces that the configuration does not name, if they are supported. *)
Fixpoint other_namespaces (pid : Z) (types : list string) (m : gmap string string) : M K (gmap string string) :=
  match types with
  | [] => mret m
  | t :: types =>
      supported ← IsNamespaceSupported t;
      if negb supported then other_namespaces pid types m
      else other_namespaces pid types (match m !! t with Some _ => m | None => <[t := GetPath (mkNamespace t "") pid]> m end)
  end.
(** [currentState]; asking a process that was not started for its pid is a nil dereference. *)
Definition currentState (c : linuxContainer) : M K State :=
  p ← gets initProcess;
  pid ← match p with None => mret (-1) | Some None => throw ErrNilDeref | Some (Some pid) => mret pid end;
  paths ← gets (fun g => GetPaths (cgroupManager g));
  ns ← (if 0 <? pid then other_namespaces pid NamespaceTypes (foldl (fun m n => <[ns_Type n := GetPath n pid]> m) ∅ (Namespaces_of c))
        else mret ∅);
  mret (mkState pid paths (default "" (intelRdt c)) ns).

(** ** Sub-cgroups *)

Definition ErrNotSub : error := ErrNew "%s is not a sub cgroup path".
(** [proc.cgroupPaths[k] = subPath], where the map may be the one of the manager. *)
Definition assign (k v : string) (paths : gmap string string) : M K (gmap string string) :=
  _ ← modify (fun g => set_manager (assign_path k v (cgroupManager g)) g); mret (<[k := v]> paths).
Fixpoint sub_all (add : string) (keys : list string) (paths : gmap string string) : M K (gmap string string) :=
  match keys with
  | [] => mret paths
  | k :: keys =>
      let val := default "" (paths !! k) in
      let subPath := Join [val; add] in
      if negb (has_prefix val subPath) then throw ErrNotSub else
      paths ← assign k subPath paths;
      sub_all add keys paths
  end.
Fixpoint sub_each (subs : list (string * string)) (paths : gmap string string) : M K (gmap string string) :=
  match subs with
  | [] => mret paths
  | (ctrl, add) :: subs =>
      match paths !! ctrl with
      | Some val =>
          let subPath := Join [val; add] in
          if negb (has_prefix val subPath) then throw ErrNotSub else
          paths ← assign ctrl subPath paths;
          sub_each subs paths
      | None => throw (ErrNew "unknown controller %s in SubCgroupPaths")
      end
  end.
(** [keys] and [subs] list the two maps in the order in which the loops visit them. *)
Definition sub_cgroups (p : Process) (keys : list string) (subs : list (string * string)) (paths : gmap string string) (pid : Z) : M K (gmap string string * Z) :=
  if bool_decide (SubCgroupPaths p = ∅) then mret (paths, pid) else
  match SubCgroupPaths p !! "" with
  | Some add => paths ← sub_all add keys paths; mret (paths, 0)
  | None => paths ← sub_each subs paths; mret (paths, pid)
  end.

Definition newSetnsProcess (keys : list string) (subs : list (string * string)) (c : linuxContainer) (p : Process) (cmd : Cmd)
    (messageSockPair logFilePair : filePair) : M K setnsParent :=
  let cmd := add_env (env_var "_LIBCONTAINER_INITTYPE" initSetns) cmd in
  state ← wrapping "unable to get container state" (currentState c);
  data ← bootstrapData e c 0 (NamespacePaths state) initSetns;
  cfg ← newInitConfig c p;
  '(paths, pid) ← sub_cgroups p keys subs (CgroupPaths state) (InitProcessPid state);
  mret (mkSetnsParent cmd data paths
    (mkSetnsProcess cfg (map snd (map_to_list paths)) (configs.RootlessCgroups (configs.base (config c))) (IntelRdtPath state) true pid
       (parent messageSockPair) (child messageSockPair) (child logFilePair))).

Definition newParentProcess (debug : bool) (keys : list string) (subs : list (string * string)) (c : linuxContainer) (p : Process) : M K (parentProcess * Cmd) :=
  '(parentInitPipe, childInitPipe) ← wrapping "unable to create init pipe" (os (unix.SockPair "init"));
  '(parentLogPipe, childLogPipe) ← wrapping "unable to create log pipe" (os unix.Pipe);
  let messageSockPair := mkPair parentInitPipe childInitPipe in
  let logFilePair := mkPair parentLogPipe childLogPipe in
  cmd ← commandTemplate c p childInitPipe childLogPipe;
  if negb (Init p) then r ← newSetnsProcess keys subs c p cmd messageSockPair logFilePair; mret (SetnsParent r, s_cmd r)
  else
    cmd ← wrapping "unable to setup exec fifo" (includeExecFifo c cmd);
    r ← newInitProcess debug c p cmd messageSockPair logFilePair;
    mret (InitParent r, i_cmd r).

(** ** Start, Run, Exec *)

(** The mode is 0622. *)
Definition createExecFifo (c : linuxContainer) : M K unit :=
  rootuid ← lift (HostRootUID (checked (config c)));
  rootgid ← lift (HostRootGID (checked (config c)));
  exists_ ← try_ (os (unix.Stat (fifo_name c)));
  if is_ok exists_ then throw (ErrNew "exec fifo %s already exists") else
  oldMask ← from_fs (Umask 0);
  r ← try_ (os (unix.Mkfifo (fifo_name c) 402));
  _ ← from_fs (Umask oldMask);
  match r with Err err => throw err | Ok _ => os (unix.Chown (fifo_name c) rootuid rootgid) end.
Definition deleteExecFifo (c : linuxContainer) : M K unit := _ ← try_ (os (unix.Remove (fifo_name c))); mret tt.

Definition parent_start (fuel : nat) (pp : parentProcess) : M K Z :=
  match pp with
  | InitParent p => st ← from_fs (start fuel (i_process p)); _ ← modify (set_initProcess (Some (Some (st_pid st)))); mret (st_pid st)
  | SetnsParent p => from_fs (setns_start fuel (s_process p))
  end.
Definition parent_terminate (pp : parentProcess) (pid : Z) : M K unit :=
  match pp with InitParent p => from_fs (terminate (i_process p) pid) | SetnsParent _ => from_fs (setns_terminate pid) end.

Definition run_poststart (c : linuxContainer) (pp : parentProcess) (pid : Z) : M K unit :=
  let hooks := configs.Hooks_ (config c) in
  if bool_decide (hooks = ∅) then mret tt else
  _ ← os unix.CurrentOCIState;
  r ← try_ (from_fs (RunHooks "poststart" hooks));
  match r with Ok _ => mret tt | Err err => _ ← try_ (parent_terminate pp pid); throw err end.

(** [c.start]: the forwarder of the logs is waited for however the rest ends. *)
Definition start_process (fuel : nat) (debug : bool) (keys : list string) (subs : list (string * string)) (c : linuxContainer) (p : Process) : M K unit :=
  '(pp, _) ← wrapping "unable to create new parent process" (newParentProcess debug keys subs c p);
  r ← try_ (pid ← wrapping "unable to start container process" (parent_start fuel pp);
            if negb (Init p) then mret tt else
            fd ← gets fifo;
            _ ← match fd with Some fd => _ ← try_ (os (unix.Close fd)); mret tt | None => mret tt end;
            run_poststart c pp pid);
  logs ← try_ (os unix.WaitLogs);
  match r, logs with
  | Err err, _ => throw err
  | Ok _, Err err => throw (ErrWrap "unable to forward init logs" err)
  | Ok _, Ok _ => mret tt
  end.

Definition Start (fuel : nat) (debug : bool) (keys : list string) (subs : list (string * string)) (c : linuxContainer) (p : Process) : M K unit :=
  if configs.SkipDevices (configs.cg_Resources (configs.Cgroups (config c))) then throw (ErrNew "can't start container with SkipDevices set") else
  _ ← (if Init p then createExecFifo c else mret tt);
  r ← try_ (start_process fuel debug keys subs c p);
  match r with
  | Ok _ => mret tt
  | Err err =>
      if is_panic err then throw err else
      _ ← (if Init p then deleteExecFifo c else mret tt); throw err
  end.

Definition readFromExecFifo (fd : Z) : M K unit :=
  data ← os (unix.ReadAll fd);
  if bool_decide (data = "") then throw (ErrNew "cannot start an already running container") else mret tt.
Definition handleFifoResult (path : string) (result : result Z) : M K unit :=
  match result with
  | Err err => throw err
  | Ok f =>
      r ← try_ (_ ← readFromExecFifo f; os (unix.Remove path));
      _ ← try_ (os (unix.Close f));
      lift r
  end.
(** [exec]: every turn of the loop waits a tenth of a second for the fifo to open. *)
Fixpoint await_exec (fuel : nat) (path : string) (pid : Z) : M K unit :=
  match fuel with
  | O => throw ErrRunning
  | S fuel =>
      r ← try_ (os (unix.AwaitFifo path));
      match r with
      | Err err => handleFifoResult path (Err (ErrWrap "exec fifo" err))
      | Ok (Some fd) => handleFifoResult path (Ok fd)
      | Ok None =>
          stat ← try_ (data ← os (unix.ReadFile (Join ["/proc"; format_int pid; "stat"])); lift (parseStat data));
          if match stat with Err _ => true | Ok st => bool_decide (ProcStat.State st = Zombie) end then
            r ← try_ (os (unix.OpenNonblock path));
            r ← try_ (handleFifoResult path (wrap_err "exec fifo" r));
            match r with Err _ => throw (ErrNew "container process is already dead") | Ok _ => mret tt end
          else await_exec fuel path pid
      end
  end.
Definition Exec (fuel : nat) (c : linuxContainer) : M K unit :=
  p ← gets initProcess;
  match p with
  | Some (Some pid) => await_exec fuel (fifo_name c) pid
  | _ => throw ErrNilDeref
  end.
Definition Run (fuel : nat) (debug : bool) (keys : list string) (subs : list (string * string)) (c : linuxContainer) (p : Process) : M K unit :=
  _ ← Start fuel debug keys subs c p;
  if Init p then Exec fuel c else mret tt.
End launch.
End launch.
