(* ===== verification/BootstrapThms.v ===== *)
(** * The bootstrap is told what the configuration says

    The C reader gets back what the parent encoded, whatever follows on the pipe (on a big-endian
    machine all of it but the two flags); namespaces are joined in the order of [NamespaceTypes]; every bind mount gets the
    descriptor of its own source, when none of the sources is empty. *)

From S2P Require Import Prelude GoAct GoStrings GoPath GoFs GoJson Devices Configs UserDb Seccomp SpecTypes SpecConv SpecConvThms CgroupFiles InitSys RootfsSetup ContainerInit ParentProcess Bootstrap Launch.

Open Scope string_scope.
Open Scope list_scope.
#[local] Open Scope Z_scope.

Import libcontainer init process boot.

(** ** Numbers *)

Lemma byte_val_of (z : Z) : byte_val (byte_of z) = z mod 256.
Proof.
  unfold byte_val, byte_of. pose proof (Z.mod_pos_bound z 256). rewrite Ascii.N_ascii_embedding by lia. lia.
Qed.
Lemma le_get_put (n : nat) : forall z, le_get (le_put n z) = z mod 256 ^ Z.of_nat n.
Proof.
  induction n as [|n IH]; intros z; [cbn; by rewrite Z.mod_1_r|].
  cbn [le_put le_get]. rewrite IH, byte_val_of, Nat2Z.inj_succ, Z.pow_succ_r by lia.
  rewrite Z.rem_mul_r by lia. lia.
Qed.
Lemma length_put (e : endian) (n : nat) (z : Z) : length (put e n z) = n.
Proof.
  assert (forall n z, length (le_put n z) = n) as H by (clear; induction n as [|n IH]; intros z; cbn; [done|by rewrite IH]).
  destruct e; cbn; [apply H|]. rewrite rev_length. apply H.
Qed.
Lemma get_put (e : endian) (n : nat) (z : Z) : get e (put e n z) = z mod 256 ^ Z.of_nat n.
Proof. destruct e; cbn; [|rewrite rev_involutive]; apply le_get_put. Qed.

Lemma align_spec (l : Z) : align l = (l + 3) - (l + 3) mod 4.
Proof.
  unfold align, NLA_ALIGNTO. replace (l + 4 - 1) with (l + 3) by lia. change (4 - 1) with (Z.ones 2).
  rewrite <- Z.ldiff_land, Z.ldiff_ones_r, Z.shiftr_div_pow2, Z.shiftl_mul_pow2 by lia. change (2 ^ 2) with 4.
  pose proof (Z.div_mod (l + 3) 4). lia.
Qed.
Lemma align_header (l : Z) : align l - NLA_HDRLEN = align (l - NLA_HDRLEN).
Proof.
  rewrite !align_spec. unfold NLA_HDRLEN. replace (l - 4 + 3) with (l + 3 + (-1) * 4) by lia.
  rewrite Z.mod_add by lia. lia.
Qed.

(** ** One message *)

(** What the reader makes of a message. *)
Definition deliver (e : endian) (c : nlconfig) (m : message) : nlconfig :=
  match m with
  | Int32msg _ v => mkNl (v mod 2 ^ 32) (namespaces c) (uidmap c) (uidmappath c) (gidmap c) (gidmappath c) (is_setgroup c) (oom_score_adj c) (is_rootless_euid c) (mountsources c)
  | Boolmsg t v =>
      let b := match e with LittleEndian => if v then 1 else 0 | BigEndian => 0 end in
      if t =? SetgroupAttr
      then mkNl (cloneflags c) (namespaces c) (uidmap c) (uidmappath c) (gidmap c) (gidmappath c) b (oom_score_adj c) (is_rootless_euid c) (mountsources c)
      else mkNl (cloneflags c) (namespaces c) (uidmap c) (uidmappath c) (gidmap c) (gidmappath c) (is_setgroup c) (oom_score_adj c) b (mountsources c)
  | Bytemsg t v =>
      let s := Some (v ++ [nul]) in
      let pick a old := if t =? a then s else old in
      mkNl (cloneflags c) (pick NsPathsAttr (namespaces c)) (pick UidmapAttr (uidmap c)) (pick UidmapPathAttr (uidmappath c))
        (pick GidmapAttr (gidmap c)) (pick GidmapPathAttr (gidmappath c)) (is_setgroup c) (pick OomScoreAdjAttr (oom_score_adj c))
        (is_rootless_euid c) (pick MountSourcesAttr (mountsources c))
  end.
(** Attributes that come with the kind of value the reader expects. *)
Definition known (m : message) : bool :=
  match m with
  | Int32msg t _ => t =? CloneFlagsAttr
  | Boolmsg t _ => (t =? SetgroupAttr) || (t =? RootlessEUIDAttr)
  | Bytemsg t _ => bool_decide (t ∈ [NsPathsAttr; UidmapAttr; GidmapAttr; OomScoreAdjAttr; UidmapPathAttr; GidmapPathAttr; MountSourcesAttr])
  end.
Definition msg_type (m : message) : Z := match m with Int32msg t _ | Bytemsg t _ | Boolmsg t _ => t end.
Definition msg_body (e : endian) (m : message) : bytes :=
  match m with
  | Int32msg _ v => put e 4 v
  | Bytemsg _ v => padded (align (msg_Len m) - NLA_HDRLEN) v
  | Boolmsg _ v => put e 4 (if v then 1 else 0)
  end.

Lemma msg_Serialize_ok (e : endian) (m : message) (b : bytes) :
  msg_Serialize e m = Ok b ->
  b = put e 2 (msg_Len m) ++ put e 2 (msg_type m) ++ msg_body e m /\ NLA_HDRLEN < msg_Len m <= MaxUint16.
Proof.
  destruct m as [t v|t v|t v]; cbn [msg_Serialize msg_type msg_body msg_Len]; unfold MaxUint16, NLA_HDRLEN in *.
  - intros [= <-]. split; [done|lia].
  - destruct (Z.ltb_spec 65535 (4 + Z.of_nat (length v) + 1)); [done|]. intros [= <-]. split; [done|lia].
  - intros [= <-]. split; [done|lia].
Qed.
Lemma length_body (e : endian) (m : message) : Z.of_nat (length (msg_body e m)) = align (msg_Len m - NLA_HDRLEN).
Proof.
  destruct m as [t v|t v|t v]; cbn [msg_body msg_Len]; [by rewrite length_put| |by rewrite length_put].
  rewrite align_header. unfold NLA_HDRLEN. replace (4 + Z.of_nat (length v) + 1 - 4) with (Z.of_nat (length v) + 1) by lia.
  unfold padded. rewrite length_app, length_replicate, align_spec. pose proof (Z.mod_pos_bound (Z.of_nat (length v) + 1 + 3) 4). lia.
Qed.
Lemma take_padded (v : bytes) (n : Z) (rest : bytes) :
  Z.of_nat (length v) < n -> take (S (length v)) (padded n v ++ rest) = v ++ [nul].
Proof.
  intros Hn. unfold padded. rewrite <- app_assoc. replace (S (length v)) with (length v + 1)%nat by lia. rewrite take_app_add.
  destruct (Z.to_nat n - length v)%nat eqn:E; [lia|]. done.
Qed.

Lemma read_bytes_app (n : nat) (b rest : bytes) :
  (n <= length b)%nat -> read_bytes (Z.of_nat n) (b ++ rest) = Ok (take n (b ++ rest)).
Proof. intros Hn. unfold read_bytes. rewrite length_app, Nat2Z.id. by rewrite (proj2 (Z.leb_le _ _)) by lia. Qed.

(** The payload of a string has its terminator. *)
Lemma read_value (t : Z) (v rest : bytes) :
  let m := Bytemsg t v in
  read_bytes (msg_Len m - NLA_HDRLEN) (msg_body LittleEndian m ++ rest) = Ok (v ++ [nul]).
Proof.
  intros m. replace (msg_Len m - NLA_HDRLEN) with (Z.of_nat (S (length v))) by (cbn [msg_Len m]; unfold NLA_HDRLEN; lia).
  assert (Z.of_nat (length v) < align (msg_Len m) - NLA_HDRLEN) as Hl.
  { rewrite align_header, align_spec. cbn [msg_Len m]. unfold NLA_HDRLEN.
    pose proof (Z.mod_pos_bound (4 + Z.of_nat (length v) + 1 - 4 + 3) 4). lia. }
  rewrite read_bytes_app.
  - cbn [msg_body m]. by rewrite take_padded.
  - pose proof (length_body LittleEndian m) as Hb. rewrite <- align_header in Hb. lia.
Qed.
Lemma readint32_put (e : endian) (v : Z) (rest : bytes) : readint32 e (put e 4 v ++ rest) = Ok (v mod 2 ^ 32).
Proof.
  unfold readint32. rewrite (read_bytes_app 4) by (by rewrite length_put). cbn [mbind result_bind].
  rewrite take_app_length' by (by rewrite length_put). by rewrite get_put.
Qed.
Lemma readint8_bool (e : endian) (v : bool) (rest : bytes) :
  readint8 (put e 4 (if v then 1 else 0) ++ rest) = Ok (match e with LittleEndian => if v then 1 else 0 | BigEndian => 0 end).
Proof.
  unfold readint8. rewrite (read_bytes_app 1) by (rewrite length_put; lia). by destruct e, v.
Qed.

Lemma nl_attr_known (e : endian) (m : message) (rest : bytes) (c : nlconfig) :
  known m = true ->
  nl_attr e (msg_type m) (msg_Len m - NLA_HDRLEN) (msg_body e m ++ rest) c = Ok (deliver e c m).
Proof.
  destruct m as [t v|t v|t v]; cbn [known msg_type].
  - intros ->%Z.eqb_eq. cbn [msg_body]. unfold nl_attr. cbn -[readint32 put]. by rewrite readint32_put.
  - intros Ht%bool_decide_eq_true. pose proof (read_value t v rest) as Hv. cbv zeta in Hv.
    change (msg_body LittleEndian (Bytemsg t v)) with (msg_body e (Bytemsg t v)) in Hv. unfold nl_attr. rewrite Hv.
    repeat (apply elem_of_cons in Ht as [->|Ht]; [done|]). by apply elem_of_nil in Ht.
  - intros [->%Z.eqb_eq| ->%Z.eqb_eq]%orb_true_iff; cbn [msg_body]; unfold nl_attr; cbn -[readint8 put]; by rewrite readint8_bool.
Qed.

(** ** All messages *)

Lemma nl_attrs_message (fuel : nat) (e : endian) (m : message) (b rest : bytes) (c : nlconfig) :
  known m = true -> msg_Serialize e m = Ok b ->
  nl_attrs (S fuel) e (b ++ rest) c = nl_attrs fuel e rest (deliver e c m).
Proof.
  intros Hk [-> Hl]%msg_Serialize_ok. pose proof (nl_attr_known e m rest c Hk) as Ha. pose proof (length_body e m) as Hb.
  assert (0 <= msg_type m < 65536) as Ht.
  { destruct m as [t v|t v|t v]; cbn in Hk |- *.
    - apply Z.eqb_eq in Hk as ->. done.
    - apply bool_decide_eq_true in Hk. repeat (apply elem_of_cons in Hk as [->|Hk]; [done|]). by apply elem_of_nil in Hk.
    - by apply orb_true_iff in Hk as [->%Z.eqb_eq| ->%Z.eqb_eq]. }
  remember (msg_body e m) as body eqn:Eb. remember (msg_type m) as t eqn:Et. remember (msg_Len m) as l eqn:El. clear Eb Et El.
  unfold NLA_HDRLEN, MaxUint16 in *.
  set (h := put e 2 l). set (ty := put e 2 t).
  assert (length h = 2%nat /\ length ty = 2%nat) as [Hh Hty] by (unfold h, ty; by rewrite !length_put).
  assert (get e h = l /\ get e ty = t) as [Gh Gt] by (unfold h, ty; rewrite !get_put; change (256 ^ Z.of_nat 2) with 65536; split; apply Z.mod_small; lia).
  clearbody h ty. rewrite <- !app_assoc. destruct h as [|h1 [|h2 [|]]]; try done. destruct ty as [|t1 [|t2 [|]]]; try done.
  cbn [app nl_attrs]. change (h1 :: h2 :: t1 :: t2 :: body ++ rest) with ([h1; h2; t1; t2] ++ body ++ rest).
  rewrite (read_bytes_app 4) by (cbn; lia). cbn [app take drop mbind result_bind].
  rewrite take_0, !drop_0, Gh, Gt. unfold NLA_HDRLEN. rewrite (Z.mod_small (l - 4) (2 ^ 64)) by lia. rewrite Ha. cbn [mbind result_bind].
  rewrite <- Hb, Nat2Z.id. by rewrite drop_app_length.
Qed.
Lemma mapM_result_cons {A B} (f : A -> result B) (a : A) (l : list A) (bs : list B) :
  mapM f (a :: l) = Ok bs -> exists b bs', f a = Ok b /\ mapM f l = Ok bs' /\ bs = b :: bs'.
Proof.
  cbn [mapM]. destruct (f a) as [b|]; cbn [mbind result_bind]; [|done]. destruct (mapM f l) as [bs'|]; cbn [mbind result_bind]; [|done].
  intros [= <-]. eauto.
Qed.
Lemma nl_attrs_messages (e : endian) (ms : list message) :
  forall bs c fuel, mapM (msg_Serialize e) ms = Ok bs -> Forall (fun m => known m = true) ms -> (length ms <= fuel)%nat ->
  nl_attrs fuel e (concat bs) c = Ok (foldl (deliver e) c ms).
Proof.
  induction ms as [|m ms IH]; intros bs c fuel.
  - intros [= <-] _ _. by destruct fuel.
  - intros (b & bs' & Eb & Ebs & ->)%mapM_result_cons [Hm Hms]%Forall_cons Hf. cbn [length] in Hf. destruct fuel as [|fuel]; [lia|]. cbn [concat].
    rewrite (nl_attrs_message fuel e m b) by done. apply IH; [done|done|lia].
Qed.
Lemma length_messages (e : endian) (ms : list message) :
  forall bs, mapM (msg_Serialize e) ms = Ok bs -> (length ms <= length (concat bs))%nat /\ Z.of_nat (length (concat bs)) <= 65540 * Z.of_nat (length ms).
Proof.
  induction ms as [|m ms IH]; intros bs.
  - intros [= <-]. cbn. lia.
  - intros (b & bs' & Eb & Ebs & ->)%mapM_result_cons. destruct (IH bs' Ebs) as [H1 H2]. apply msg_Serialize_ok in Eb as [-> Hl].
    pose proof (length_body e m) as Hb. rewrite align_spec in Hb. unfold NLA_HDRLEN, MaxUint16 in *.
    pose proof (Z.mod_pos_bound (msg_Len m - 4 + 3) 4). cbn [concat length]. rewrite !length_app, !length_put. lia.
Qed.

(** A request is read as its messages say, whatever follows it. *)
Lemma nl_parse_Serialize (e : endian) (flags seq pid : Z) (ms : list message) (data rest : bytes) :
  Serialize e (mkRequest InitMsg flags seq pid ms) = Ok data -> Forall (fun m => known m = true) ms -> (length ms <= 1000)%nat ->
  nl_parse e (data ++ rest) = Ok (foldl (deliver e) zero_config ms).
Proof.
  unfold Serialize. cbn [Data].
  intros (bs & Ebs & [= <-])%bind_ok Hk Hn. destruct (length_messages e ms bs Ebs) as [H1 H2].
  set (len := uint32 (SizeofNlMsghdr + Z.of_nat (length (concat bs)))).
  assert (len = 16 + Z.of_nat (length (concat bs))) as Elen by (unfold len, uint32, SizeofNlMsghdr; apply Z.mod_small; lia).
  unfold header. cbn [Type_ Flags Seq Pid].
  assert (get e (put e 4 len) = len) as Gl by (rewrite get_put; apply Z.mod_small; change (256 ^ Z.of_nat 4) with 4294967296; lia).
  assert (get e (put e 2 InitMsg) = InitMsg) as Gt by (by rewrite get_put).
  unfold nl_parse. rewrite <- !app_assoc.
  rewrite !length_app, !length_put. rewrite (proj2 (Z.ltb_ge _ _)) by (unfold SizeofNlMsghdr; lia).
  rewrite take_app_length' by (by rewrite length_put). rewrite Gl. rewrite (drop_app_length' (put e 4 len)) by (by rewrite length_put).
  rewrite take_app_length' by (by rewrite length_put). rewrite Gt. cbn [Z.eqb InitMsg NLMSG_ERROR negb].
  replace ((len - SizeofNlMsghdr) mod 2 ^ 32) with (Z.of_nat (length (concat bs)))
    by (unfold SizeofNlMsghdr; rewrite Z.mod_small; lia).
  rewrite !app_assoc. rewrite <- (app_assoc _ (concat bs)). rewrite drop_app_length' by (rewrite !length_app, !length_put; lia).
  rewrite Nat2Z.id, take_app_length, Z.eqb_refl. cbn [negb]. by apply nl_attrs_messages.
Qed.

(** ** The whole request *)

(** The namespaces to join: those of the configuration that have a path, in the order of [types]. *)
Definition joined (c : linuxContainer) (nsMaps : gmap string string) (types : list string) : list (string * string) :=
  omap (fun ns => if Contains (Namespaces_of c) ns then
                    match nsMaps !! ns with Some p => if bool_decide (p = "") then None else Some (ns, p) | None => None end
                  else None) types.
Definition ns_entry (np : string * string) : string := NsName np.1 +:+ ":" +:+ np.2.
(** The sources of bind mounts, and nothing for other mounts, each with a terminator. *)
Definition source_list (l : list configs.Mount) : bytes :=
  concat (map (fun m => (if IsBind m then bytes_of (configs.Source m) else []) ++ [nul]) l).
Definition c_str (s : string) : bytes := bytes_of s ++ [nul].
(** A flag as the reader sees it. *)
(** A flag, as the reader sees it: it looks at the first of the four bytes. *)
Definition seen (e : endian) (b : bool) : Z := match e with LittleEndian => if b then 1 else 0 | BigEndian => 0 end.
Definition setgroup_wanted (c : linuxContainer) (egid : Z) : bool :=
  negb (bool_decide (map (fun im => (ContainerID im, HostID im, Size im)) (GidMappings_of c) = [(0, egid, 1)])).

(** What the bootstrap should be told. *)
Definition bootstrap_config (c : linuxContainer) (cloneFlags : Z) (nsMaps : gmap string string) (it : string) (egid : Z) : nlconfig :=
  let new_user := negb (bool_decide (is_Some (nsMaps !! NEWUSER))) in
  let uids := new_user && negb (bool_decide (UidMappings_of c = [])) in
  let gids := new_user && negb (bool_decide (GidMappings_of c = [])) in
  let tool path := RootlessEUID_of c && negb (bool_decide (path = "")) in
  mkNl (uint32 cloneFlags)
    (if bool_decide (nsMaps = ∅) then None else Some (c_str (join "," (map ns_entry (joined c nsMaps NamespaceTypes)))))
    (if uids then Some (c_str (encodeIDMapping (UidMappings_of c))) else None)
    (if uids && tool (newuidmapPath c) then Some (c_str (newuidmapPath c)) else None)
    (if gids then Some (c_str (encodeIDMapping (GidMappings_of c))) else None)
    (if gids && tool (newgidmapPath c) then Some (c_str (newgidmapPath c)) else None)
    (Z.b2z (gids && setgroup_wanted c egid))
    ((fun v => c_str (format_int v)) <$> configs.OomScoreAdj (configs.process (config c)))
    (Z.b2z (RootlessEUID_of c))
    (if bool_decide (it = initStandard) && shouldSendMountSources c then Some (source_list (Mounts_of c) ++ [nul]) else None).

(** What it is told: the two flags arrive where the first byte of a number is its lowest. *)
Definition received (e : endian) (cfg : nlconfig) : nlconfig :=
  match e with
  | LittleEndian => cfg
  | BigEndian => mkNl (cloneflags cfg) (namespaces cfg) (uidmap cfg) (uidmappath cfg) (gidmap cfg) (gidmappath cfg) 0
                   (oom_score_adj cfg) 0 (mountsources cfg)
  end.

Lemma received_fields (e : endian) (cfg : nlconfig) :
  cloneflags (received e cfg) = cloneflags cfg /\ namespaces (received e cfg) = namespaces cfg /\
  mountsources (received e cfg) = mountsources cfg.
Proof. by destruct e. Qed.

Lemma mount_sources_ok (l : list configs.Mount) (b : bytes) :
  mount_sources l = Ok b -> b = source_list l /\ Forall (fun m => IsBind m = true -> contains_char nul (configs.Source m) = false) l.
Proof.
  revert b. induction l as [|m l IH]; intros b; cbn [mount_sources]; [by intros [= <-]|].
  intros Hb. inv_ok. destruct (IH _ ltac:(eassumption)) as [-> Hl]. split.
  - unfold source_list. cbn [map concat]. by rewrite <- app_assoc.
  - constructor; [|done]. intros Hi. rewrite Hi in *. cbn in *. done.
Qed.

Section request.
Context {K : Type} `{Kernel K}.
Implicit Types (s : world K * globals) (c : linuxContainer).

(** An answer that the kernel can give. *)
Definition answers {A} (call : unix.call A) (a : A) : Prop := exists m (k k' : K), answer m call k = (k', Ok a).
Lemma os_ok {A} (call : unix.call A) s s' (a : A) : os call s = (s', Ok a) -> answers call a.
Proof.
  unfold os, from_fs. destruct (sys call s.1) as [w r] eqn:E. intros [= <- ->].
  apply sys_ok in E as (k & Ha & _). by exists (mask s.1), (kernel s.1), k.
Qed.

(** The paths that are sent, each of which exists and has no comma. *)
Definition joinable (np : string * string) : Prop :=
  contains_char ch_comma np.2 = false /\ np.2 <> "" /\ exists fi, answers (unix.Lstat np.2) fi.
Lemma order_paths_ok c (nsMaps : gmap string string) (types : list string) :
  forall s s' paths, order_paths c nsMaps types s = (s', Ok paths) ->
  paths = map ns_entry (joined c nsMaps types) /\ Forall joinable (joined c nsMaps types).
Proof.
  induction types as [|ns types IH]; intros s s' paths; cbn [order_paths joined omap list_omap].
  - intros [<- <-]%ret_ok. by split.
  - destruct (Contains (Namespaces_of c) ns); cbn [negb]; [|apply IH].
    destruct (nsMaps !! ns) as [p|]; [|apply IH]. destruct (bool_decide_reflect (p = "")); [apply IH|].
    intros Hs. apply act_bind_ok in Hs as (s1 & sup & _ & Hs).
    destruct sup; cbn [negb] in Hs; [|done]. apply act_bind_ok in Hs as (s2 & fi & H2%wrapping_ok%os_ok & Hs).
    destruct (contains_char ch_comma p) eqn:Ec; [done|]. apply act_bind_ok in Hs as (s3 & ps & (-> & H4)%IH & [<- <-]%ret_ok).
    split; [done|]. constructor; [|done]. split_and!; eauto.
Qed.

(** The messages, as a function of what the system answered. *)
Definition planned c (cloneFlags : Z) (nsMaps : gmap string string) (it : string) (egid : Z) : list message :=
  let new_user := negb (bool_decide (is_Some (nsMaps !! NEWUSER))) in
  [Int32msg CloneFlagsAttr (uint32 cloneFlags)]
  ++ (if bool_decide (nsMaps = ∅) then [] else [Bytemsg NsPathsAttr (bytes_of (join "," (map ns_entry (joined c nsMaps NamespaceTypes))))])
  ++ (if new_user then uid_messages c else [])
  ++ (if new_user && negb (bool_decide (GidMappings_of c = [])) then
        [Bytemsg GidmapAttr (bytes_of (encodeIDMapping (GidMappings_of c)))]
        ++ (if RootlessEUID_of c && negb (bool_decide (newgidmapPath c = "")) then [Bytemsg GidmapPathAttr (bytes_of (newgidmapPath c))] else [])
        ++ (if setgroup_wanted c egid then [Boolmsg SetgroupAttr true] else [])
      else [])
  ++ match configs.OomScoreAdj (configs.process (config c)) with
     | Some v => [Bytemsg OomScoreAdjAttr (bytes_of (format_int v))]
     | None => []
     end
  ++ [Boolmsg RootlessEUIDAttr (RootlessEUID_of c)]
  ++ (if bool_decide (it = initStandard) && shouldSendMountSources c then [Bytemsg MountSourcesAttr (source_list (Mounts_of c))] else []).

Lemma gid_messages_ok c s s' (ms : list message) :
  gid_messages c s = (s', Ok ms) ->
  exists egid, (GidMappings_of c <> [] -> answers unix.Getegid egid) /\
  ms = if negb (bool_decide (GidMappings_of c = [])) then
        [Bytemsg GidmapAttr (bytes_of (encodeIDMapping (GidMappings_of c)))]
        ++ (if RootlessEUID_of c && negb (bool_decide (newgidmapPath c = "")) then [Bytemsg GidmapPathAttr (bytes_of (newgidmapPath c))] else [])
        ++ (if setgroup_wanted c egid then [Boolmsg SetgroupAttr true] else [])
       else [].
Proof.
  unfold gid_messages, requiresRootOrMappingTool, setgroup_wanted. destruct (GidMappings_of c) as [|im l] eqn:E.
  - intros [<- <-]%ret_ok. by exists 0.
  - intros (s1 & b & Hb & [<- <-]%ret_ok)%act_bind_ok. apply act_bind_ok in Hb as (s2 & egid & Hc%os_ok & [<- <-]%ret_ok).
    by exists egid.
Qed.
Lemma sources_ok c (it : string) s s' (src : list message) :
  (if bool_decide (it = initStandard) && shouldSendMountSources c
   then mounts ← lift (mount_sources (Mounts_of c)); mret [Bytemsg MountSourcesAttr mounts] else mret [] : M K (list message)) s = (s', Ok src) ->
  src = (if bool_decide (it = initStandard) && shouldSendMountSources c then [Bytemsg MountSourcesAttr (source_list (Mounts_of c))] else []) /\
  (it = initStandard -> shouldSendMountSources c = true -> Forall (fun m => IsBind m = true -> contains_char nul (configs.Source m) = false) (Mounts_of c)).
Proof.
  destruct (bool_decide_reflect (it = initStandard)); cbn [andb]; [|by intros [<- <-]%ret_ok].
  destruct (shouldSendMountSources c); [|by intros [<- <-]%ret_ok].
  intros (s4 & b & [<- [-> Hm]%mount_sources_ok]%lift_ok & [<- <-]%ret_ok)%act_bind_ok. done.
Qed.

Lemma bootstrap_messages_ok c (cloneFlags : Z) (nsMaps : gmap string string) (it : string) s s' (ms : list message) :
  bootstrap_messages c cloneFlags nsMaps it s = (s', Ok ms) ->
  exists egid, ms = planned c cloneFlags nsMaps it egid /\
  (nsMaps !! NEWUSER = None -> GidMappings_of c <> [] -> answers unix.Getegid egid) /\
  (nsMaps <> ∅ -> Forall joinable (joined c nsMaps NamespaceTypes)) /\
  (it = initStandard -> shouldSendMountSources c = true ->
   Forall (fun m => IsBind m = true -> contains_char nul (configs.Source m) = false) (Mounts_of c)).
Proof.
  unfold bootstrap_messages. intros (s1 & ns & Hns & Hs)%act_bind_ok. apply act_bind_ok in Hs as (s2 & gids & Hg & Hs).
  apply act_bind_ok in Hs as (s3 & src & [-> Hm]%sources_ok & [<- <-]%ret_ok). unfold planned.
  assert (ns = (if bool_decide (nsMaps = ∅) then [] else [Bytemsg NsPathsAttr (bytes_of (join "," (map ns_entry (joined c nsMaps NamespaceTypes))))]) /\
    (nsMaps <> ∅ -> Forall joinable (joined c nsMaps NamespaceTypes))) as [-> Hj].
  { destruct (bool_decide_reflect (nsMaps = ∅)); [by apply ret_ok in Hns as [<- <-]|].
    by apply act_bind_ok in Hns as (s4 & ps & (-> & Hp)%order_paths_ok & [<- <-]%ret_ok). }
  destruct (bool_decide_reflect (is_Some (nsMaps !! NEWUSER))) as [Hu|Hu]; cbn [negb].
  - apply ret_ok in Hg as [<- <-]. exists 0. split_and!; [done| |done|done]. intros Hn. rewrite Hn in Hu. by destruct Hu.
  - apply gid_messages_ok in Hg as (egid & He & ->). exists egid. split_and!; [done| |done|done]. intros _. apply He.
Qed.

(** What the parts of the plan add to a configuration. *)
Lemma uids_delivered e c (cfg : nlconfig) (b : bool) :
  foldl (deliver e) cfg (if b then uid_messages c else []) =
  let uids := b && negb (bool_decide (UidMappings_of c = [])) in
  mkNl (cloneflags cfg) (namespaces cfg) (if uids then Some (c_str (encodeIDMapping (UidMappings_of c))) else uidmap cfg)
    (if uids && (RootlessEUID_of c && negb (bool_decide (newuidmapPath c = ""))) then Some (c_str (newuidmapPath c)) else uidmappath cfg)
    (gidmap cfg) (gidmappath cfg) (is_setgroup cfg) (oom_score_adj cfg) (is_rootless_euid cfg) (mountsources cfg).
Proof.
  unfold uid_messages. destruct cfg, b; [|done]. destruct (UidMappings_of c) as [|im l]; [done|].
  by destruct (RootlessEUID_of c && negb (bool_decide (newuidmapPath c = ""))).
Qed.
Lemma gids_delivered e c (cfg : nlconfig) (gids tool sg : bool) (m p : string) :
  foldl (deliver e) cfg (if gids then [Bytemsg GidmapAttr (bytes_of m)] ++ (if tool then [Bytemsg GidmapPathAttr (bytes_of p)] else [])
                                      ++ (if sg then [Boolmsg SetgroupAttr true] else []) else []) =
  mkNl (cloneflags cfg) (namespaces cfg) (uidmap cfg) (uidmappath cfg) (if gids then Some (c_str m) else gidmap cfg)
    (if gids && tool then Some (c_str p) else gidmappath cfg) (if gids && sg then seen e true else is_setgroup cfg)
    (oom_score_adj cfg) (is_rootless_euid cfg) (mountsources cfg).
Proof. by destruct cfg, gids, tool, sg. Qed.
Lemma rest_delivered e c (cfg : nlconfig) (oom : option Z) (rootless src : bool) (b : bytes) :
  foldl (deliver e) cfg (match oom with Some v => [Bytemsg OomScoreAdjAttr (bytes_of (format_int v))] | None => [] end
                         ++ [Boolmsg RootlessEUIDAttr rootless] ++ (if src then [Bytemsg MountSourcesAttr b] else [])) =
  mkNl (cloneflags cfg) (namespaces cfg) (uidmap cfg) (uidmappath cfg) (gidmap cfg) (gidmappath cfg) (is_setgroup cfg)
    (match oom with Some v => Some (c_str (format_int v)) | None => oom_score_adj cfg end) (seen e rootless)
    (if src then Some (b ++ [nul]) else mountsources cfg).
Proof. by destruct cfg, oom, src. Qed.
Lemma planned_delivered e c (cloneFlags : Z) (nsMaps : gmap string string) (it : string) (egid : Z) :
  foldl (deliver e) zero_config (planned c cloneFlags nsMaps it egid) = received e (bootstrap_config c cloneFlags nsMaps it egid).
Proof.
  unfold planned, bootstrap_config. cbv zeta.
  assert (uint32 cloneFlags mod 2 ^ 32 = uint32 cloneFlags) as Eu by (unfold uint32; by rewrite Z.mod_mod).
  rewrite foldl_app, foldl_app, foldl_app, foldl_app, uids_delivered, gids_delivered, rest_delivered by exact c.
  destruct (bool_decide (nsMaps = ∅)); cbn -[Z.pow Z.modulo Z.eqb bytes_of setgroup_wanted encodeIDMapping format_int seen uint32 bool_decide];
    rewrite Eu; f_equal; by destruct e, (_ && setgroup_wanted c egid).
Qed.
Lemma planned_known c (cloneFlags : Z) (nsMaps : gmap string string) (it : string) (egid : Z) :
  Forall (fun m => known m = true) (planned c cloneFlags nsMaps it egid) /\ (length (planned c cloneFlags nsMaps it egid) <= 11)%nat.
Proof.
  unfold planned, uid_messages. split.
  - repeat (apply Forall_app; split); repeat case_match; repeat (apply Forall_app; split); repeat case_match; by repeat constructor.
  - rewrite !length_app. repeat case_match; rewrite ?length_app; cbn [length]; repeat case_match; cbn [length]; lia.
Qed.

Lemma bootstrapData_ok e c (cloneFlags : Z) (nsMaps : gmap string string) (it : string) s s' (data rest : bytes) :
  bootstrapData e c cloneFlags nsMaps it s = (s', Ok data) ->
  exists egid, nl_parse e (data ++ rest) = Ok (received e (bootstrap_config c cloneFlags nsMaps it egid)) /\
  (nsMaps !! NEWUSER = None -> GidMappings_of c <> [] -> answers unix.Getegid egid) /\
  (nsMaps <> ∅ -> Forall joinable (joined c nsMaps NamespaceTypes)) /\
  (it = initStandard -> shouldSendMountSources c = true ->
   Forall (fun m => IsBind m = true -> contains_char nul (configs.Source m) = false) (Mounts_of c)).
Proof.
  unfold bootstrapData. intros (s1 & [] & _ & Hs)%act_bind_ok. apply act_bind_ok in Hs as (s2 & seq & _ & Hs).
  apply act_bind_ok in Hs as (s3 & ms & (egid & -> & H1)%bootstrap_messages_ok & Hs). apply lift_ok in Hs as [_ Hs].
  exists egid. split; [|exact H1]. destruct (planned_known c cloneFlags nsMaps it egid) as [Hk Hl].
  rewrite (nl_parse_Serialize e _ _ _ _ data rest Hs Hk) by lia. by rewrite planned_delivered.
Qed.

(** C37. For either byte order and whatever follows on the pipe, the bootstrap program decodes what the parent encoded:
    the flags of the new namespaces, the paths to join, the identity mappings and mapping tools unless a user namespace
    is joined, the score and the sources of bind mounts.  The two flags ([setgroup], which is wanted unless the group
    mapping is the one of the caller alone, and [rootless]) arrive as they were sent on a little-endian machine only; on
    a big-endian one both are read as 0 ([flags_lost_big_endian]). *)
Theorem bootstrap_round_trip (e : endian) c (cloneFlags : Z) (nsMaps : gmap string string) (it : string) s s' (data rest : bytes) :
  bootstrapData e c cloneFlags nsMaps it s = (s', Ok data) ->
  exists egid, nl_parse e (data ++ rest) = Ok (received e (bootstrap_config c cloneFlags nsMaps it egid)) /\
  (nsMaps !! NEWUSER = None -> GidMappings_of c <> [] -> answers unix.Getegid egid).
Proof. intros (egid & H1 & H2 & _)%(bootstrapData_ok _ _ _ _ _ _ _ _ rest). eauto. Qed.

(** On a machine with the other byte order the two flags are lost: the reader looks at the first of four bytes. *)
Lemma flags_lost_big_endian c (cloneFlags : Z) (nsMaps : gmap string string) (it : string) s s' (data rest : bytes) :
  bootstrapData BigEndian c cloneFlags nsMaps it s = (s', Ok data) ->
  exists cfg, nl_parse BigEndian (data ++ rest) = Ok cfg /\ is_rootless_euid cfg = 0 /\ is_setgroup cfg = 0.
Proof. intros (egid & H1 & _)%(bootstrapData_ok _ _ _ _ _ _ _ _ rest). eauto. Qed.

(** ** The namespaces of a process *)

Lemma joined_cons c (nsMaps : gmap string string) (ns : string) (types : list string) :
  joined c nsMaps (ns :: types) =
  match (if Contains (Namespaces_of c) ns then match nsMaps !! ns with Some p => if bool_decide (p = "") then None else Some (ns, p) | None => None end else None) with
  | Some np => np :: joined c nsMaps types
  | None => joined c nsMaps types
  end.
Proof. done. Qed.
Lemma joined_elem c (nsMaps : gmap string string) (types : list string) (ns p : string) :
  (ns, p) ∈ joined c nsMaps types <-> ns ∈ types /\ Contains (Namespaces_of c) ns = true /\ nsMaps !! ns = Some p /\ p <> "".
Proof.
  unfold joined. rewrite list_elem_of_omap. split.
  - intros (t & Ht & E). destruct (Contains (Namespaces_of c) t) eqn:Ec; [|done]. destruct (nsMaps !! t) as [q|] eqn:Eq; [|done].
    case_bool_decide; [done|]. injection E as <- <-. done.
  - intros (Ht & Ec & Em & Hp). exists ns. split; [done|]. rewrite Ec, Em. by rewrite bool_decide_eq_false_2.
Qed.
End request.

Lemma c_string_c_str (s : string) : contains_char nul s = false -> c_string (c_str s) = s.
Proof.
  unfold c_str, bytes_of. induction s as [|a s IH]; cbn; [done|]. intros [Ha Hs]%orb_false_iff.
  apply bool_decide_eq_false in Ha. rewrite bool_decide_eq_false_2 by done. by rewrite IH.
Qed.
Lemma strtok_join (sep : ascii) (l : list string) :
  l <> [] -> Forall (fun w => contains_char sep w = false /\ w <> "") l -> strtok sep (join (String sep "") l) = l.
Proof.
  intros Hne Hl. unfold strtok, fields_func. change (split_func _ ?s) with (split sep s).
  rewrite split_join; [|done|eapply Forall_impl; [exact Hl|naive_solver]]. clear Hne.
  induction Hl as [|w l [_ Hw] _ IH]; [done|]. by rewrite filter_cons_True, IH.
Qed.
Lemma NsName_known (ns : string) :
  ns ∈ NamespaceTypes -> nsflag (NsName ns) = namespaceInfo ns /\ NsName ns <> "" /\
  contains_char nul (NsName ns) = false /\ contains_char ch_comma (NsName ns) = false /\ contains_char ch_colon (NsName ns) = false.
Proof.
  unfold NamespaceTypes. intros Hns. repeat (apply elem_of_cons in Hns as [->|Hns]; [by vm_compute|]). by apply elem_of_nil in Hns.
Qed.
Lemma split_namespaces_entries (l : list (string * string)) :
  Forall (fun np => np.1 ∈ NamespaceTypes) l -> split_namespaces (map ns_entry l) = Ok (map (fun np => (namespaceInfo np.1, np.2)) l).
Proof.
  induction 1 as [|[ns p] l (Hf & _ & _ & _ & Hc)%NsName_known _ IH]; [done|]. cbn [map split_namespaces fst snd] in *.
  unfold ns_entry at 1. cbn [fst snd]. change (":" +:+ p) with (String ch_colon p). rewrite cut_app by done. rewrite IH. cbn. by rewrite Hf.
Qed.
Lemma join_namespaces_entries (l : list (string * string)) :
  l <> [] -> Forall (fun np => np.1 ∈ NamespaceTypes /\ contains_char ch_comma np.2 = false /\ contains_char nul np.2 = false) l ->
  join_namespaces (c_str (join "," (map ns_entry l))) = Ok (map (fun np => (namespaceInfo np.1, np.2)) l).
Proof.
  intros Hne Hl.
  assert (Forall (fun w => (contains_char ch_comma w = false /\ w <> "") /\ contains_char nul w = false) (map ns_entry l)) as He.
  { apply Forall_map. eapply Forall_impl; [exact Hl|]. intros [ns p] (Hk & Hc & Hn). cbn [fst snd] in *.
    apply NsName_known in Hk as (_ & Hne' & Hn' & Hc' & _). unfold ns_entry. cbn [fst snd].
    rewrite !contains_char_app, Hc, Hc', Hn, Hn'. split_and!; [done| |done]. by destruct (NsName ns). }
  unfold join_namespaces. rewrite c_string_c_str by (apply join_no_char; [done|]; eapply Forall_impl; [exact He|naive_solver]).
  change "," with (String ch_comma "") at 1.
  rewrite strtok_join; [|by destruct l|eapply Forall_impl; [exact He|naive_solver]].
  transitivity (split_namespaces (map ns_entry l)); [by destruct l|].
  apply split_namespaces_entries. eapply Forall_impl; [exact Hl|naive_solver].
Qed.

(** A namespace without a path is among the flags of the new process. *)
Lemma clone_flags_lor (n : Namespaces) : forall flag, Z.land (clone_flags flag n) flag = flag.
Proof.
  induction n as [|v n IH]; intros flag; cbn [clone_flags]; [by rewrite Z.land_diag|]. case_match; [apply IH|].
  specialize (IH (Z.lor flag (namespaceInfo (ns_Type v)))). apply Z.bits_inj'. intros i Hi. rewrite Z.land_spec.
  destruct (Z.testbit flag i) eqn:E; [|by rewrite andb_false_r]. rewrite andb_true_r.
  apply (f_equal (fun z => Z.testbit z i)) in IH. rewrite Z.land_spec, Z.lor_spec, E in IH. cbn in IH. by rewrite andb_true_r in IH.
Qed.
Lemma CloneFlags_new (n : Namespaces) (v : Namespace) :
  v ∈ n -> ns_Path v = "" -> Z.land (CloneFlags n) (namespaceInfo (ns_Type v)) = namespaceInfo (ns_Type v).
Proof.
  unfold CloneFlags. intros Hv Hp. generalize 0. induction n as [|u n IH]; [by apply elem_of_nil in Hv|]. intros flag. cbn [clone_flags].
  apply elem_of_cons in Hv as [->|Hv].
  - rewrite Hp. cbn [negb bool_decide]. rewrite bool_decide_eq_true_2 by done. cbn [negb].
    pose proof (clone_flags_lor n (Z.lor flag (namespaceInfo (ns_Type u)))) as Hl. apply Z.bits_inj'. intros i Hi. rewrite Z.land_spec.
    destruct (Z.testbit (namespaceInfo (ns_Type u)) i) eqn:E; [|by rewrite andb_false_r]. rewrite andb_true_r.
    apply (f_equal (fun z => Z.testbit z i)) in Hl. rewrite Z.land_spec, Z.lor_spec, E, orb_true_r in Hl. by rewrite andb_true_r in Hl.
  - case_match; by apply IH.
Qed.
Lemma CloneFlags_range (n : Namespaces) : uint32 (CloneFlags n) = CloneFlags n.
Proof.
  assert (forall n flag, 0 <= flag < 2 ^ 31 -> 0 <= clone_flags flag n < 2 ^ 31) as H.
  { clear n. induction n as [|v n IH]; intros flag Hf; cbn [clone_flags]; [done|]. case_match; [by apply IH|]. apply IH.
    assert (0 <= namespaceInfo (ns_Type v) < 2 ^ 31) as Hi by (unfold namespaceInfo; repeat case_match; by vm_compute).
    split; [apply Z.lor_nonneg; lia|]. destruct (Z.eq_dec (Z.lor flag (namespaceInfo (ns_Type v))) 0) as [->|Hz]; [done|].
    assert (0 <= Z.lor flag (namespaceInfo (ns_Type v))) by (apply Z.lor_nonneg; lia).
    apply Z.log2_lt_pow2; [lia|]. rewrite Z.log2_lor by lia. apply Z.max_lub_lt.
    - destruct (Z.eq_dec flag 0) as [->|]; [done|]. apply Z.log2_lt_pow2; lia.
    - destruct (Z.eq_dec (namespaceInfo (ns_Type v)) 0) as [->|]; [done|]. apply Z.log2_lt_pow2; lia. }
  unfold uint32, CloneFlags. apply Z.mod_small. pose proof (H n 0 ltac:(lia)). lia.
Qed.
Lemma ns_maps_lookup (n : Namespaces) (v : Namespace) :
  NoDup (map ns_Type n) -> v ∈ n -> launch.ns_maps n !! ns_Type v = if bool_decide (ns_Path v = "") then None else Some (ns_Path v).
Proof.
  unfold launch.ns_maps. intros Hd Hv.
  set (f := fun (m : gmap string string) ns => if bool_decide (ns_Path ns = "") then m else <[ns_Type ns := ns_Path ns]> m).
  assert (forall l m t, t ∉ map ns_Type l -> foldl f m l !! t = m !! t) as Hother.
  { induction l as [|u l IH]; intros m t Ht; cbn [foldl]; [done|]. cbn in Ht. rewrite IH by set_solver.
    unfold f. case_bool_decide; [done|]. rewrite lookup_insert_ne by set_solver. done. }
  apply list_elem_of_split in Hv as (l1 & l2 & ->). rewrite map_app in Hd. cbn in Hd. rewrite foldl_app. cbn [foldl].
  apply NoDup_app in Hd as (_ & H1 & [H2 _]%NoDup_cons). rewrite Hother by done. unfold f at 1.
  assert (ns_Type v ∉ map ns_Type l1) as H3 by (intros H3; apply (H1 _ H3); left).
  case_bool_decide; [by rewrite Hother|]. by rewrite lookup_insert_eq.
Qed.

Section established.
Context {K : Type} `{Kernel K}.
(** The system call refuses paths with a zero byte, as Go does before it makes it. *)
Context (lstat_nul : forall m (k k' : K) p fi, answer m (unix.Lstat p) k = (k', Ok fi) -> contains_char nul p = false).

Lemma joined_first (c : linuxContainer) (nsMaps : gmap string string) (p : string) :
  (NEWUSER, p) ∈ joined c nsMaps NamespaceTypes -> head (joined c nsMaps NamespaceTypes) = Some (NEWUSER, p).
Proof.
  intros (_ & Hc & Hm & Hp)%joined_elem. unfold NamespaceTypes. rewrite joined_cons, Hc, Hm, bool_decide_eq_false_2 by done. done.
Qed.

(** C38. Every namespace of the configuration is established: one without a path is among the flags of
    the new process, one with a path is entered by the bootstrap, under the right type, and a user
    namespace is entered before the others. *)
Theorem namespaces_established (e : endian) (debug : bool) (c : linuxContainer) (p : launch.Process) (cmd : launch.Cmd)
    (ms ls : launch.filePair) (s s' : world K * globals) (r : launch.initParent) (rest : bytes) :
  launch.newInitProcess e debug c p cmd ms ls s = (s', Ok r) ->
  NoDup (map ns_Type (Namespaces_of c)) -> Forall (fun v => ns_Type v ∈ NamespaceTypes) (Namespaces_of c) ->
  exists cfg, nl_parse e (launch.i_bootstrapData r ++ rest) = Ok cfg /\
  forall v, v ∈ Namespaces_of c ->
    (ns_Path v = "" -> Z.land (cloneflags cfg) (namespaceInfo (ns_Type v)) = namespaceInfo (ns_Type v)) /\
    (ns_Path v <> "" -> exists b l, namespaces cfg = Some b /\ join_namespaces b = Ok l /\
       (namespaceInfo (ns_Type v), ns_Path v) ∈ l /\
       (ns_Type v = NEWUSER -> head l = Some (CLONE_NEWUSER, ns_Path v))).
Proof.
  intros (s1 & data & Hd & Hs)%act_bind_ok Hnd Hk. apply act_bind_ok in Hs as (s2 & cfg & _ & Hs).
  apply act_bind_ok in Hs as (s3 & [] & _ & [_ <-]%ret_ok). cbn [launch.i_bootstrapData].
  apply (bootstrapData_ok _ _ _ _ _ _ _ _ rest) in Hd as (egid & Hp & _ & Hj & _). eexists. split; [exact Hp|].
  destruct (received_fields e (bootstrap_config c (CloneFlags (Namespaces_of c)) (launch.ns_maps (Namespaces_of c)) initStandard egid)) as (-> & -> & _).
  intros v Hv. pose proof (proj1 (Forall_forall _ _) Hk v Hv) as Ht. pose proof (ns_maps_lookup _ _ Hnd Hv) as Hm. cbn [cloneflags namespaces bootstrap_config].
  split; intros Hpath.
  - rewrite CloneFlags_range. by apply CloneFlags_new.
  - rewrite bool_decide_eq_false_2 in Hm by done.
    assert ((ns_Type v, ns_Path v) ∈ joined c (launch.ns_maps (Namespaces_of c)) NamespaceTypes) as Hin.
    { apply joined_elem. split_and!; [done| |done|done]. by apply Contains_iff, (list_elem_of_fmap_2 ns_Type). }
    assert (launch.ns_maps (Namespaces_of c) <> ∅) as Hne by (intros E; by rewrite E, lookup_empty in Hm).
    rewrite bool_decide_eq_false_2 by done. specialize (Hj Hne).
    exists (c_str (join "," (map ns_entry (joined c (launch.ns_maps (Namespaces_of c)) NamespaceTypes)))). eexists.
    split; [done|]. split; [apply join_namespaces_entries|split].
    + intros E. by rewrite E in Hin; apply elem_of_nil in Hin.
    + apply Forall_forall. intros [t q] Hq. pose proof (proj1 (Forall_forall _ _) Hj _ Hq) as (Hcomma & _ & fi & m & k & k' & Ha).
      apply joined_elem in Hq as [Hq _]. split_and!; [done|done|]. by eapply lstat_nul.
    + by apply (list_elem_of_fmap_2 (fun np => (namespaceInfo np.1, np.2))) in Hin.
    + intros Hu. rewrite Hu in Hin. apply joined_first in Hin. destruct (joined c _ NamespaceTypes); [done|]. injection Hin as ->. done.
Qed.
End established.
