(* ===== verification/LaunchThms.v ===== *)
(** * What a new process is given

    Every bind mount gets the descriptor of its own source (when no source is empty); every environment variable names the
    file it is meant for; the fifo of a container that could not be started is removed, and waiting
    for a container to start ends. *)

From S2P Require Import Prelude GoAct GoStrings GoPath GoFs GoJson Devices Configs UserDb Seccomp ProcStat SpecTypes SpecConv CgroupFiles InitSys RootfsSetup ContainerInit ParentProcess Bootstrap Launch BootstrapThms.

Open Scope string_scope.
Open Scope list_scope.
#[local] Open Scope Z_scope.

Import libcontainer init process boot launch.

(** ** Descriptors as text *)

(** A descriptor of the list: a number, or -1 for none. *)
Definition fd_ok (z : Z) : Prop := z = -1 \/ 0 < z <= INT_MAX.
(** What may follow a number in a list. *)
Definition delimited (rest : string) : Prop := exists c t, rest = String c t /\ (c = ch_comma \/ c = "]"%char).

Lemma pretty_go_head (x : N) : forall s, (0 < x)%N -> exists c t, pretty_N_go x s = String c t /\ c <> "0"%char.
Proof.
  induction (N.lt_wf_0 x) as [x _ IH]; intros s Hx. rewrite pretty_N_go_step by done.
  destruct (decide (0 < x / 10)%N) as [Hd|Hd]; [apply IH; [apply N.div_lt; lia|done]|].
  apply N.nlt_ge, N.le_0_r in Hd. rewrite Hd, pretty_N_go_0. eexists _, _. split; [done|].
  assert (x < 10)%N as Hx10 by (apply N.nle_gt; intros Hle; apply (N.div_le_mono _ _ 10) in Hle; [|done]; rewrite N.div_same in Hle; lia).
  rewrite N.mod_small by done.
  assert (x = 1 \/ x = 2 \/ x = 3 \/ x = 4 \/ x = 5 \/ x = 6 \/ x = 7 \/ x = 8 \/ x = 9)%N by lia. destruct_or!; subst; done.
Qed.
Lemma positive_text (z : Z) : 0 < z -> exists c t, format_int z = String c t /\ c <> "0"%char /\ is_digit c = true /\ str_forall is_digit t = true.
Proof.
  intros Hz. rewrite format_int_nonneg by lia. pose proof (digits_pretty_N (Z.to_N z)) as Hd.
  assert (pretty (Z.to_N z) = pretty_N_go (Z.to_N z) "") as E by (unfold pretty, pretty_N; by rewrite decide_False by lia).
  rewrite E in *. destruct (pretty_go_head (Z.to_N z) "") as (c & t & Ep & Hc); [lia|]. rewrite Ep in *. cbn in Hd.
  apply andb_true_iff in Hd as [H1 H2]. by exists c, t.
Qed.
Lemma digit_chars (c : ascii) : is_digit c = true -> c ∈ map chr (seq 48 10).
Proof. destruct c as [[] [] [] [] [] [] [] []]; intros Hc; try done; by apply (bool_decide_unpack _); vm_compute. Qed.

(** *** JSON *)

Lemma span_digits_app (w rest : string) : str_forall is_digit w = true -> delimited rest -> span_digits (w +:+ rest) = (w, rest).
Proof.
  intros Hw (c & t & -> & Hc). induction w as [|a w IH].
  - by destruct Hc as [-> | ->].
  - cbn [str_forall] in Hw. apply andb_true_iff in Hw as [Ha Hw]. rewrite app_cons. cbn [span_digits]. by rewrite Ha, IH.
Qed.
Lemma no_fraction (rest : string) : delimited rest -> frac_part rest = Some ("", rest) /\ exp_part rest = Some ("", rest).
Proof. by intros (c & t & -> & [-> | ->]). Qed.
Lemma int_part_positive (c : ascii) (t rest : string) :
  c <> "0"%char -> is_digit c = true -> str_forall is_digit t = true -> delimited rest ->
  int_part (String c t +:+ rest) = Some (String c t, rest).
Proof.
  intros H0 Hc Ht Hr. unfold int_part. cbn [String.app]. rewrite app_cons. rewrite bool_decide_eq_false_2 by done. rewrite Hc.
  cbn [span_digits]. by rewrite Hc, span_digits_app.
Qed.
Lemma value_number (n : nat) (z : Z) (rest : string) :
  fd_ok z -> delimited rest -> value (S n) (format_int z +:+ rest) = Some (JNum (format_int z), rest).
Proof.
  intros [->|Hz] Hr; pose proof (no_fraction rest Hr) as [Hf He].
  - change (format_int (-1)) with "-1".
    assert (value (S n) ("-1" +:+ rest) = '(t, r) ← number_lit ("-1" +:+ rest); Some (JNum t, r)) as -> by done.
    assert (number_lit ("-1" +:+ rest) = '(i, s2) ← int_part ("1" +:+ rest); '(f, s3) ← frac_part s2; '(e, s4) ← exp_part s3; Some ("-" +:+ i +:+ f +:+ e, s4)) as -> by done.
    rewrite int_part_positive by done. cbn -[frac_part exp_part]. rewrite Hf. cbn -[exp_part]. by rewrite He.
  - destruct (positive_text z) as (c & t & -> & H0 & Hc & Ht); [lia|]. pose proof (digit_chars c Hc) as Hin.
    assert (value (S n) (String c t +:+ rest) = '(t, r) ← number_lit (String c t +:+ rest); Some (JNum t, r)) as ->.
    { rewrite app_cons. clear - Hin. cbn in Hin. repeat (apply elem_of_cons in Hin as [->|Hin]; [done|]). by apply elem_of_nil in Hin. }
    assert (number_lit (String c t +:+ rest) = '(i, s2) ← int_part (String c t +:+ rest); '(f, s3) ← frac_part s2; '(e, s4) ← exp_part s3; Some ("" +:+ i +:+ f +:+ e, s4)) as ->.
    { rewrite app_cons. clear - Hin. cbn in Hin. repeat (apply elem_of_cons in Hin as [->|Hin]; [done|]). by apply elem_of_nil in Hin. }
    rewrite int_part_positive by done. cbn -[frac_part exp_part]. rewrite Hf. cbn -[exp_part]. rewrite He. cbn.
    by rewrite app_empty_r.
Qed.
Lemma items_step (n : nat) (s : string) :
  items (S n) s =
  '(v, r) ← value n s; '(c, r2) ← next_char r;
  if bool_decide (c = "]"%char) then Some ([v], r2)
  else if bool_decide (c = ch_comma) then '(l, r3) ← items n r2; Some (v :: l, r3) else None.
Proof. done. Qed.
Lemma items_numbers (l : list Z) :
  forall n, l <> [] -> Forall fd_ok l -> (length l < n)%nat -> items n (join "," (map format_int l) +:+ "]") = Some (map (fun z => JNum (format_int z)) l, "").
Proof.
  induction l as [|z l IH]; intros n Hne Hl Hn; [done|]. apply Forall_cons in Hl as [Hz Hl]. cbn [length] in Hn.
  destruct n as [|[|n]]; [lia|lia|]. rewrite items_step. destruct l as [|y l].
  - cbn [map join]. rewrite value_number; [|done|]; [done|]. eexists _, _. split; [done|by right].
  - change (join "," (map format_int (z :: y :: l))) with (format_int z +:+ "," +:+ join "," (map format_int (y :: l))).
    rewrite !app_assoc_str. rewrite value_number; [|done|eexists _, _; split; [done|by left]].
    cbn [mbind option_bind].
    assert (next_char ("," +:+ join "," (map format_int (y :: l)) +:+ "]") = Some (ch_comma, join "," (map format_int (y :: l)) +:+ "]")) as -> by done.
    cbn [mbind option_bind]. rewrite bool_decide_eq_false_2 by done. rewrite bool_decide_eq_true_2 by done.
    rewrite IH; [done|done|done|cbn [length] in *; lia].
Qed.

Lemma numbers_length (l : list Z) : Forall fd_ok l -> (length l <= String.length (join "," (map format_int l)) + 1)%nat.
Proof.
  induction 1 as [|z l Hz _ IH]; [cbn; lia|]. destruct l as [|y l]; [cbn [length]; lia|].
  change (join "," (map format_int (z :: y :: l))) with (format_int z +:+ "," +:+ join "," (map format_int (y :: l))).
  rewrite !length_app_str. cbn [length] in *. change (String.length ",") with 1%nat. lia.
Qed.
Lemma atoi_fd (z : Z) : fd_ok z -> atoi (format_int z) = (z, None).
Proof.
  intros [->|Hz]; [done|]. apply atoi_format_int. unfold id_ok, INT_MAX in *. apply andb_true_iff. split; apply Z.leb_le; unfold max_int in *; lia.
Qed.
(** The list that [parseMountFds] decodes is the one that was encoded. *)
Lemma fds_decoded (l : list Z) : Forall fd_ok l -> (v ← unmarshal_value (marshal_ints l); as_ints v) = Ok (Some l).
Proof.
  intros Hl. unfold unmarshal_value, decode_value, marshal_ints. destruct l as [|z l]; [done|].
  pose proof (numbers_length _ Hl) as Hn. set (t := join "," (map format_int (z :: l))) in *.
  assert (value (2 * String.length ("[" +:+ t +:+ "]") + 2) ("[" +:+ t +:+ "]") = Some (JArr (map (fun z => JNum (format_int z)) (z :: l)), "")) as ->.
  { replace (2 * String.length ("[" +:+ t +:+ "]") + 2)%nat with (S (2 * String.length ("[" +:+ t +:+ "]") + 1)) by lia.
    assert (forall n c s, c <> "]"%char -> json_space c = false ->
      value (S n) ("[" +:+ String c s) = '(l, r) ← items n (String c s); Some (JArr l, r)) as Hv.
    { intros n c s Hc Hs.
      assert (value (S n) ("[" +:+ String c s) =
        match next_char (String c s) with
        | Some (c2, s2) => if bool_decide (c2 = "]"%char) then Some (JArr [], s2) else '(l, r) ← items n (String c s); Some (JArr l, r)
        | None => None
        end) as -> by done.
      unfold next_char. cbn [skip_ws]. rewrite Hs. by rewrite bool_decide_eq_false_2. }
    assert (exists c s, t +:+ "]" = String c s /\ c <> "]"%char /\ json_space c = false) as (c & s & Et & Hc & Hs).
    { apply Forall_cons in Hl as [Hz _].
      assert (exists c s, format_int z = String c s /\ c <> "]"%char /\ json_space c = false) as (c & s & Ez & Hc & Hs).
      { destruct Hz as [->|Hz]; [by exists "-"%char, "1"|]. destruct (positive_text z) as (c & s & -> & _ & Hd%digit_chars & _); [lia|].
        exists c, s. split; [done|]. clear - Hd. cbn in Hd. repeat (apply elem_of_cons in Hd as [->|Hd]; [done|]). by apply elem_of_nil in Hd. }
      unfold t. destruct l as [|y l]; cbn [map join]; rewrite Ez; eexists c, _; by rewrite !app_cons. }
    rewrite Et, Hv by done. rewrite <- Et. unfold t. rewrite items_numbers; [done|done|done|].
    fold t. rewrite Et in *. rewrite !length_app_str. change (String.length "[") with 1%nat. rewrite <- Et, length_app_str. change (String.length "]") with 1%nat. lia. }
  transitivity (Some <$> ints_of (map (fun z => JNum (format_int z)) (z :: l))); [done|].
  assert (ints_of (map (fun z => JNum (format_int z)) (z :: l)) = Ok (z :: l)) as ->; [|done].
  clear t Hn. induction Hl as [|y l' Hy _ IH]; [done|]. cbn [map ints_of]. rewrite atoi_fd by done. cbn [mbind result_bind]. by rewrite IH.
Qed.

(** *** strtol *)

Lemma strtol_digits_go (x : N) : forall s rest, strtol_digits 0 (pretty_N_go x s +:+ rest) = strtol_digits (Z.of_N x) (s +:+ rest).
Proof.
  induction (N.lt_wf_0 x) as [x _ IH]; intros s rest. destruct (decide (0 < x)%N) as [Hx|Hx].
  - rewrite pretty_N_go_step by done. rewrite IH by (apply N.div_lt; lia). rewrite app_cons. cbn [strtol_digits].
    assert (digit_value (pretty_N_char (x mod 10)) = Some (Z.of_N (x mod 10))) as ->.
    { assert (x mod 10 < 10)%N as Hlt by (apply N.mod_lt; lia). revert Hlt. generalize (x mod 10)%N as d. intros d Hd.
      assert (d = 0 \/ d = 1 \/ d = 2 \/ d = 3 \/ d = 4 \/ d = 5 \/ d = 6 \/ d = 7 \/ d = 8 \/ d = 9)%N by lia. destruct_or!; subst; reflexivity. }
    f_equal. rewrite (N.div_mod x 10) at 3 by lia. lia.
  - assert (x = 0%N) as -> by lia. by rewrite pretty_N_go_0.
Qed.
Lemma strtol_fd (z : Z) (rest : string) : fd_ok z -> delimited rest -> strtol (format_int z +:+ rest) = Some (z, rest).
Proof.
  intros Hz (d & u & -> & Hd).
  assert (forall a, strtol_digits a (String d u) = (a, String d u)) as Hstop by (intros a; by destruct Hd as [-> | ->]).
  destruct Hz as [->|Hz].
  - change (format_int (-1)) with "-1". change ("-1" +:+ ?s) with (String (chr 45) (String (chr 49) s)).
    transitivity (let '(n, rest) := strtol_digits 1 (String d u) in Some (Z.max LONG_MIN (Z.min LONG_MAX (-1 * n)), rest)); [done|].
    by rewrite Hstop.
  - assert (strtol_digits 0 (format_int z +:+ String d u) = (z, String d u)) as Hs.
    { rewrite format_int_nonneg by lia. unfold pretty, pretty_N. rewrite decide_False by lia. rewrite strtol_digits_go, app_empty_l, Hstop, Z2N.id by lia. done. }
    destruct (positive_text z) as (c & t & Ez & H0 & Hc & Ht); [lia|]. rewrite Ez in *. rewrite app_cons in *. pose proof (digit_chars c Hc) as Hin.
    assert (strtol (String c (t +:+ String d u)) =
      let '(n, rest) := strtol_digits 0 (String c (t +:+ String d u)) in Some (Z.max LONG_MIN (Z.min LONG_MAX (1 * n)), rest)) as ->.
    { clear - Hin. cbn in Hin. repeat (apply elem_of_cons in Hin as [->|Hin]; [done|]). by apply elem_of_nil in Hin. }
    rewrite Hs. f_equal. f_equal. unfold LONG_MIN, LONG_MAX, INT_MAX in *. lia.
Qed.

(** ** The sources of bind mounts *)

Definition used_fds (l : list Z) : list Z := filter (fun z => z <> -1) l.

Lemma received_numbers (l : list Z) :
  forall n, l <> [] -> Forall fd_ok l -> (length l <= n)%nat -> received_fds n (join "," (map format_int l) +:+ "]") = Ok (used_fds l).
Proof.
  induction l as [|z l IH]; intros n Hne Hl Hn; [done|]. apply Forall_cons in Hl as [Hz Hl]. cbn [length] in Hn.
  destruct n as [|n]; [lia|]. cbn [received_fds].
  assert (negb (z =? -1) && ((z =? LONG_MAX) || (z <? 0) || (INT_MAX <? z)) = false) as Hcheck.
  { destruct Hz as [->|Hz]; [done|]. apply andb_false_iff. right. unfold LONG_MAX, INT_MAX in *.
    rewrite !orb_false_iff. split_and!; [apply Z.eqb_neq; lia|apply Z.ltb_ge; lia|apply Z.ltb_ge; lia]. }
  assert (used_fds (z :: l) = (if z =? -1 then [] else [z]) ++ used_fds l) as ->.
  { unfold used_fds. destruct (Z.eqb_spec z (-1)) as [->|]; [by rewrite filter_cons_False by naive_solver|by rewrite filter_cons_True]. }
  destruct l as [|y l].
  - cbn [map join]. rewrite strtol_fd; [|done|eexists _, _; split; [done|by right]]. cbn [String.app]. rewrite Hcheck. done.
  - change (join "," (map format_int (z :: y :: l))) with (format_int z +:+ "," +:+ join "," (map format_int (y :: l))).
    rewrite !app_assoc_str. rewrite strtol_fd; [|done|eexists _, _; split; [done|by left]].
    change ("," +:+ ?s) with (String ch_comma s). rewrite Hcheck. rewrite bool_decide_eq_false_2 by done.
    rewrite IH; [done|done|done|cbn [length] in *; lia].
Qed.
Lemma receive_numbers (l : list Z) : Forall fd_ok l -> receive_mountsources (marshal_ints l) = Ok (used_fds l).
Proof.
  intros Hl. unfold marshal_ints. destruct l as [|z l]; [done|]. pose proof (numbers_length _ Hl) as Hn.
  change ("[" +:+ ?s) with (String (chr 91) s). unfold receive_mountsources. rewrite bool_decide_eq_true_2 by done. cbn [negb].
  assert (has_prefix "]" (join "," (map format_int (z :: l)) +:+ "]") = false) as ->.
  { apply Forall_cons in Hl as [Hz _]. assert (forall s, has_prefix "]" (format_int z +:+ s) = false) as Hp.
    { intros s. destruct Hz as [->|Hz]; [done|]. destruct (positive_text z) as (c & t & -> & _ & Hd%digit_chars & _); [lia|].
      rewrite app_cons. clear - Hd. cbn in Hd. repeat (apply elem_of_cons in Hd as [->|Hd]; [done|]). by apply elem_of_nil in Hd. }
    destruct l as [|y l]; cbn [map join]; rewrite ?app_assoc_str; apply Hp. }
  apply received_numbers; [done|done|]. rewrite length_app_str. change (String.length "]") with 1%nat. lia.
Qed.

(** The sources of the bind mounts, in their order. *)
Definition bind_sources (l : list configs.Mount) : list string := map configs.Source (filter (fun m => IsBind m = true) l).
(** The bootstrap cannot tell an empty source from a mount that is not a bind mount. *)
Lemma sent_sources_list (l : list configs.Mount) :
  Forall (fun m => IsBind m = true -> contains_char nul (configs.Source m) = false) l ->
  forall n, (length (source_list l) < n)%nat -> sent_sources n (source_list l ++ [nul]) = filter (.≠ "") (bind_sources l).
Proof.
  induction 1 as [|m l Hm _ IH]; intros n Hn; [by destruct n as [|[|n]]|].
  unfold source_list in Hn |- *. cbn [map concat] in *. fold (source_list l) in *. rewrite length_app in Hn.
  destruct (IsBind m) eqn:Eb.
  - specialize (Hm eq_refl) as Hnul. unfold bind_sources. rewrite filter_cons_True by done. cbn [map]. fold (bind_sources l).
    rewrite <- !app_assoc. destruct n as [|n]; [lia|]. destruct (decide (configs.Source m = "")) as [E0|Hne].
    { rewrite filter_cons_False by tauto. rewrite E0 in *. cbn [bytes_of String.list_ascii_of_string app sent_sources].
      rewrite bool_decide_eq_true_2 by done. apply IH. cbn in Hn. lia. }
    rewrite filter_cons_True by done.
    assert (forall rest, c_string (bytes_of (configs.Source m) ++ nul :: rest) = configs.Source m) as Hc.
    { intros rest. clear - Hnul. unfold bytes_of. induction (configs.Source m) as [|a t IHt]; cbn in *; [done|].
      apply orb_false_iff in Hnul as [Ha Ht]. apply bool_decide_eq_false in Ha. rewrite bool_decide_eq_false_2 by done. by rewrite IHt. }
    assert (length (bytes_of (configs.Source m)) = String.length (configs.Source m)) as Hlen
      by (unfold bytes_of; clear; induction (configs.Source m); cbn; [done|by f_equal]).
    destruct (bytes_of (configs.Source m)) as [|a bs] eqn:Ebs; [by destruct (configs.Source m)|].
    assert (a <> nul) as Ha.
    { destruct (configs.Source m) as [|a' t]; [done|]. cbn in Ebs. injection Ebs as -> _. cbn in Hnul. by apply orb_false_iff in Hnul as [Hx%bool_decide_eq_false _]. }
    cbn [app sent_sources]. rewrite bool_decide_eq_false_2 by done. change (a :: bs ++ nul :: ?r) with ((a :: bs) ++ nul :: r). rewrite Hc. f_equal.
    rewrite <- Hlen, Nat.add_comm. change (1 + length (a :: bs))%nat with (S (length (a :: bs))). rewrite <- Nat.add_1_r, drop_app_add. cbn [drop].
    apply IH. rewrite length_app in Hn. cbn [length] in *. lia.
  - unfold bind_sources. rewrite filter_cons_False by (by rewrite Eb). fold (bind_sources l). cbn [app].
    destruct n as [|n]; [lia|]. cbn [sent_sources]. rewrite bool_decide_eq_true_2 by done. apply IH. cbn in Hn. lia.
Qed.
Lemma bind_sources_named (l : list configs.Mount) :
  length (filter (.≠ "") (bind_sources l)) = length (bind_sources l) <-> Forall (fun m => IsBind m = true -> configs.Source m <> "") l.
Proof.
  unfold bind_sources. induction l as [|m l IH]; [by split|]. rewrite Forall_cons, <- IH. destruct (IsBind m) eqn:Eb.
  - rewrite filter_cons_True by done. cbn [map]. rewrite filter_cons. pose proof (length_filter (.≠ "") (map configs.Source (filter (fun m => IsBind m = true) l))).
    case_decide; cbn [length]; [naive_solver lia|]. split; [lia|]. naive_solver.
  - rewrite filter_cons_False by (by rewrite Eb). naive_solver.
Qed.

Lemma all_sources_sent (l : list configs.Mount) :
  Forall (fun m => IsBind m = true -> configs.Source m <> "") l -> filter (.≠ "") (bind_sources l) = bind_sources l.
Proof.
  intros Hl. unfold bind_sources. induction Hl as [|m l Hm _ IH]; [done|].
  rewrite (filter_cons _ m). case_decide as Hb; [|done]. cbn [map]. rewrite filter_cons_True by auto. by rewrite IH.
Qed.

(** The numbers that [mount_fds] gives out, from [n] on. *)
Fixpoint numbered (n : Z) (l : list configs.Mount) : list Z :=
  match l with [] => [] | m :: l => if IsBind m then n :: numbered (n + 1) l else -1 :: numbered n l end.
Lemma mount_fds_numbered (placeholder : Z) (l : list configs.Mount) :
  forall cmd, (mount_fds placeholder l cmd).1 = numbered (last_fd cmd + 1) l /\
  cmd_Env (mount_fds placeholder l cmd).2 = cmd_Env cmd /\
  cmd_ExtraFiles (mount_fds placeholder l cmd).2 = cmd_ExtraFiles cmd ++ map (fun _ => placeholder) (filter (fun m => IsBind m = true) l).
Proof.
  induction l as [|m l IH]; intros cmd; cbn [mount_fds numbered]; [by rewrite app_nil_r|]. destruct (IsBind m) eqn:Eb; cbn [negb].
  - specialize (IH (add_files [placeholder] cmd)). destruct (mount_fds placeholder l (add_files [placeholder] cmd)) as [fds cmd']. cbn [fst snd] in *.
    destruct IH as (-> & -> & ->). rewrite filter_cons_True by done.
    assert (last_fd (add_files [placeholder] cmd) = last_fd cmd + 1) as -> by (unfold last_fd; cbn [add_files cmd_ExtraFiles]; rewrite length_app; cbn [length]; lia).
    split_and!; [done|done|]. cbn [add_files cmd_ExtraFiles map]. by rewrite <- app_assoc.
  - specialize (IH cmd). destruct (mount_fds placeholder l cmd) as [fds cmd']. cbn [fst snd] in *. destruct IH as (-> & -> & ->).
    by rewrite filter_cons_False by (by rewrite Eb).
Qed.
Lemma numbered_range (l : list configs.Mount) : forall n, Forall (fun z => z = -1 \/ n <= z < n + Z.of_nat (length l)) (numbered n l).
Proof.
  induction l as [|m l IH]; intros n; cbn [numbered length]; [done|]. destruct (IsBind m); constructor.
  - right. lia.
  - eapply Forall_impl; [apply IH|]. intros z [->|Hz]; [by left|right; lia].
  - by left.
  - eapply Forall_impl; [apply IH|]. intros z [->|Hz]; [by left|right; lia].
Qed.
(** The [i]-th descriptor that is received has the source that was sent as the [i]-th. *)
Lemma numbered_paired (l : list configs.Mount) :
  forall n, 0 <= n ->
  used_fds (numbered n l) = seqZ n (Z.of_nat (length (filter (fun m => IsBind m = true) l))) /\
  Forall2 (fun m fd => if IsBind m then exists i, map configs.Source (filter (fun m => IsBind m = true) l) !! i = Some (configs.Source m) /\
                                                  used_fds (numbered n l) !! i = Some fd
                       else fd = -1) l (numbered n l).
Proof.
  induction l as [|m l IH]; intros n Hn; cbn [numbered]; [done|]. destruct (IsBind m) eqn:Eb.
  - destruct (IH (n + 1)) as [IH1 IH2]; [lia|]. rewrite filter_cons_True by done. unfold used_fds. rewrite filter_cons_True by lia. fold (used_fds (numbered (n + 1) l)). split.
    + rewrite IH1. cbn [length]. rewrite (seqZ_cons n) by lia. f_equal; f_equal; lia.
    + constructor; [rewrite Eb; by exists O|]. eapply Forall2_impl; [exact IH2|]. intros m' fd. cbn beta. case_match; [|done].
      intros (i & H1 & H2). by exists (S i).
  - destruct (IH n Hn) as [IH1 IH2]. rewrite filter_cons_False by (by rewrite Eb). unfold used_fds. rewrite filter_cons_False by naive_solver.
    split; [done|]. constructor; [by rewrite Eb|done].
Qed.

Section launched.
Context {K : Type} `{Kernel K}.

Lemma newInitProcess_ok (e : endian) (debug : bool) (c : linuxContainer) (p : Process) (cmd : Cmd) (ms ls : filePair)
    (s s' : world K * globals) (r : initParent) :
  newInitProcess e debug c p cmd ms ls s = (s', Ok r) ->
  (exists s1, bootstrapData e c (CloneFlags (Namespaces_of c)) (ns_maps (Namespaces_of c)) initStandard s = (s1, Ok (i_bootstrapData r))) /\
  i_cmd r = add_mount_fds c (child ms) (add_env (env_var "_LIBCONTAINER_INITTYPE" initStandard) cmd) /\
  p_parentSock (i_process r) = parent ms /\ p_childSock (i_process r) = child ms /\ p_childLog (i_process r) = child ls /\
  PassedFilesCount (p_config (i_process r)) = Z.of_nat (length (ExtraFiles p)).
Proof.
  intros (s1 & data & Hd & Hs)%act_bind_ok. apply act_bind_ok in Hs as (s2 & cfg & Hc & Hs).
  apply act_bind_ok in Hs as (s3 & [] & _ & [_ <-]%ret_ok). cbn.
  apply act_bind_ok in Hc as (s4 & v2 & _ & Hc). apply act_bind_ok in Hc as (s5 & path & _ & [_ <-]%ret_ok). eauto 10.
Qed.

(** C39. When the runtime opens the sources of bind mounts in advance (and the numbers of all the descriptors fit an int),
    two lists travel separately: the bootstrap sends a descriptor for every bind mount whose source is not empty, and
    the child expects one for every bind mount, each under a number of its own.  The two agree exactly when no bind mount
    has an empty source ([empty_source_unpaired] is a configuration that has one); a bind mount is then paired with the
    descriptor of its own source, any other mount with none. *)
Theorem mount_sources_paired (e : endian) (debug : bool) (c : linuxContainer) (p : Process) (cmd : Cmd) (ms ls : filePair)
    (s s' : world K * globals) (r : initParent) (rest : bytes) :
  newInitProcess e debug c p cmd ms ls s = (s', Ok r) ->
  shouldSendMountSources c = true ->
  stdioFdCount + Z.of_nat (length (cmd_ExtraFiles cmd) + length (Mounts_of c)) <= INT_MAX ->
  exists cfg b text fds received,
    nl_parse e (i_bootstrapData r ++ rest) = Ok cfg /\ mountsources cfg = Some b /\
    last (cmd_Env (i_cmd r)) = Some (env_var "_LIBCONTAINER_MOUNT_FDS" text) /\
    (v ← unmarshal_value text; as_ints v) = Ok (Some fds) /\ receive_mountsources text = Ok received /\
    send_mountsources b = filter (.≠ "") (bind_sources (Mounts_of c)) /\
    length received = length (bind_sources (Mounts_of c)) /\ NoDup received /\
    (length (send_mountsources b) = length received <-> Forall (fun m => IsBind m = true -> configs.Source m <> "") (Mounts_of c)) /\
    (Forall (fun m => IsBind m = true -> configs.Source m <> "") (Mounts_of c) ->
     Forall2 (fun m fd => if IsBind m then exists i, send_mountsources b !! i = Some (configs.Source m) /\ received !! i = Some fd else fd = -1)
       (Mounts_of c) fds).
Proof.
  intros ((s1 & Hd) & Hcmd & _)%newInitProcess_ok Hsend Hmax.
  apply (bootstrapData_ok _ _ _ _ _ _ _ _ rest) in Hd as (egid & Hp & _ & _ & Hnul). specialize (Hnul eq_refl Hsend).
  set (cmd1 := add_env (env_var "_LIBCONTAINER_INITTYPE" initStandard) cmd) in *.
  destruct (mount_fds_numbered (child ms) (Mounts_of c) cmd1) as (H1 & _ & _).
  unfold add_mount_fds in Hcmd. rewrite Hsend in Hcmd. destruct (mount_fds (child ms) (Mounts_of c) cmd1) as [fds cmd2]. cbn [fst] in H1.
  assert (last_fd cmd1 + 1 = stdioFdCount + Z.of_nat (length (cmd_ExtraFiles cmd))) as El by (unfold last_fd; cbn [cmd1 add_env cmd_ExtraFiles]; lia).
  rewrite El in H1. assert (0 <= stdioFdCount + Z.of_nat (length (cmd_ExtraFiles cmd))) as H0 by (unfold stdioFdCount; lia).
  destruct (numbered_paired (Mounts_of c) _ H0) as [Hu Hpair]. rewrite <- H1 in Hu, Hpair.
  assert (Forall fd_ok fds) as Hok.
  { rewrite H1. eapply Forall_impl; [apply numbered_range|]. intros z [->|Hz]; [by left|right]. unfold stdioFdCount in *. lia. }
  assert (send_mountsources (source_list (Mounts_of c) ++ [nul]) = filter (.≠ "") (bind_sources (Mounts_of c))) as Esend
    by (apply sent_sources_list; [done|rewrite length_app; cbn; lia]).
  assert (length (used_fds fds) = length (bind_sources (Mounts_of c))) as Elen
    by (unfold bind_sources; rewrite Hu, length_map, length_seqZ; lia).
  eexists _, (source_list (Mounts_of c) ++ [nul]), (marshal_ints fds), fds, (used_fds fds).
  split; [exact Hp|]. split; [rewrite (proj2 (proj2 (received_fields _ _))); cbn [bootstrap_config mountsources]; by rewrite Hsend|].
  rewrite Hcmd, Esend. cbn [add_env cmd_Env]. split_and!.
  - apply last_snoc.
  - by apply fds_decoded.
  - by apply receive_numbers.
  - done.
  - done.
  - rewrite Hu. apply NoDup_seqZ.
  - rewrite Elen. apply bind_sources_named.
  - intros Hsrc. replace (filter _ _) with (bind_sources (Mounts_of c)); [done|]. symmetry. by apply all_sources_sent.
Qed.

(** ** Descriptors and the environment *)

(** What a variable is set to: the last entry counts. *)
Definition env_entry (name kv : string) : option string :=
  match cut ch_equals kv with Some (k, v) => if bool_decide (k = name) then Some v else None | None => None end.
Definition env_get (name : string) (env : list string) : option string := last (omap (env_entry name) env).
(** The file behind a number in the child: the extra files follow the three standard ones. *)
Definition child_file (cmd : Cmd) (fd : Z) : option Z := if fd <? stdioFdCount then None else cmd_ExtraFiles cmd !! Z.to_nat (fd - stdioFdCount).
Definition names_file (cmd : Cmd) (name : string) (file : Z) : Prop :=
  exists fd, env_get name (cmd_Env cmd) = Some (format_int fd) /\ child_file cmd fd = Some file.

Lemma env_get_app (name : string) (env env' : list string) :
  env_get name (env ++ env') = match env_get name env' with Some v => Some v | None => env_get name env end.
Proof.
  unfold env_get. rewrite omap_app. destruct (omap (env_entry name) env') as [|v l] eqn:E using rev_ind; cbn; [by rewrite app_nil_r|].
  by rewrite app_assoc, !last_snoc.
Qed.
Lemma env_entry_var (name key value : string) :
  contains_char ch_equals key = false -> env_entry name (env_var key value) = if bool_decide (key = name) then Some value else None.
Proof. intros Hk. unfold env_entry, env_var. change ("=" +:+ value) with (String ch_equals value). by rewrite cut_app. Qed.
Lemma env_get_add (name key value : string) (cmd : Cmd) :
  contains_char ch_equals key = false ->
  env_get name (cmd_Env (add_env (env_var key value) cmd)) = if bool_decide (key = name) then Some value else env_get name (cmd_Env cmd).
Proof.
  intros Hk. cbn [add_env cmd_Env]. rewrite env_get_app. unfold env_get at 1. cbn [omap list_omap]. rewrite env_entry_var by done.
  by destruct (bool_decide (key = name)).
Qed.
Lemma names_file_add_env (cmd : Cmd) (name key value : string) (file : Z) :
  contains_char ch_equals key = false -> key <> name -> names_file cmd name file -> names_file (add_env (env_var key value) cmd) name file.
Proof.
  intros Hk Hne (fd & H1 & H2). exists fd. rewrite env_get_add, bool_decide_eq_false_2 by done. done.
Qed.
Lemma child_file_add (cmd : Cmd) (files : list Z) (fd file : Z) : child_file cmd fd = Some file -> child_file (add_files files cmd) fd = Some file.
Proof. unfold child_file. case_match; [done|]. cbn [add_files cmd_ExtraFiles]. apply lookup_app_l_Some. Qed.
Lemma names_file_add_files (cmd : Cmd) (name : string) (files : list Z) (file : Z) : names_file cmd name file -> names_file (add_files files cmd) name file.
Proof. intros (fd & H1 & H2). exists fd. split; [done|]. by apply child_file_add. Qed.
Lemma names_file_pass (cmd : Cmd) (name : string) (file : Z) : contains_char ch_equals name = false -> names_file (pass_file name file cmd) name file.
Proof.
  intros Hn. unfold pass_file. exists (last_fd (add_files [file] cmd)). rewrite env_get_add, bool_decide_eq_true_2 by done. split; [done|].
  unfold child_file, last_fd. cbn [add_env add_files cmd_ExtraFiles]. rewrite length_app. cbn [length].
  rewrite (proj2 (Z.ltb_ge _ _)) by (unfold stdioFdCount; lia).
  replace (Z.to_nat _) with (length (cmd_ExtraFiles cmd)) by (unfold stdioFdCount; lia). by rewrite lookup_app_r, Nat.sub_diag.
Qed.
Lemma names_file_pass_other (cmd : Cmd) (name other : string) (file file' : Z) :
  contains_char ch_equals other = false -> other <> name -> names_file cmd name file -> names_file (pass_file other file' cmd) name file.
Proof. intros Ho Hne Hf. apply names_file_add_env; [done|done|]. by apply names_file_add_files. Qed.
Lemma names_file_death (cmd : Cmd) (b : bool) (sig : Z) (name : string) (file : Z) :
  names_file cmd name file -> names_file (if b then set_pdeathsig sig cmd else cmd) name file.
Proof. by destruct b. Qed.
Lemma add_mount_fds_ok (c : linuxContainer) (placeholder : Z) (cmd : Cmd) :
  exists files, cmd_ExtraFiles (add_mount_fds c placeholder cmd) = cmd_ExtraFiles cmd ++ files /\
  forall name, name <> "_LIBCONTAINER_MOUNT_FDS" -> env_get name (cmd_Env (add_mount_fds c placeholder cmd)) = env_get name (cmd_Env cmd).
Proof.
  unfold add_mount_fds. destruct (shouldSendMountSources c); [|exists []; by rewrite app_nil_r].
  destruct (mount_fds_numbered placeholder (Mounts_of c) cmd) as (_ & H1 & H2). destruct (mount_fds placeholder (Mounts_of c) cmd) as [fds cmd2].
  cbn [fst snd] in *. eexists. split; [exact H2|]. intros name Hn. rewrite env_get_add, bool_decide_eq_false_2 by done. by rewrite H1.
Qed.
Lemma names_file_mounts (c : linuxContainer) (placeholder : Z) (cmd : Cmd) (name : string) (file : Z) :
  name <> "_LIBCONTAINER_MOUNT_FDS" -> names_file cmd name file -> names_file (add_mount_fds c placeholder cmd) name file.
Proof.
  intros Hn (fd & H1 & H2). destruct (add_mount_fds_ok c placeholder cmd) as (files & Hf & He). exists fd. rewrite He by done. split; [done|].
  unfold child_file in *. case_match; [done|]. rewrite Hf. by apply lookup_app_l_Some.
Qed.

(** What [commandTemplate] sets up. *)
Record template_ok (c : linuxContainer) (p : Process) (childInit childLog : Z) (cmd : Cmd) : Prop := {
  t_init : names_file cmd "_LIBCONTAINER_INITPIPE" childInit;
  t_log : names_file cmd "_LIBCONTAINER_LOGPIPE" childLog;
  t_console : forall sock, ConsoleSocket p = Some sock -> names_file cmd "_LIBCONTAINER_CONSOLE" sock;
  t_state : env_get "_LIBCONTAINER_STATEDIR" (cmd_Env cmd) = Some (root c);
  t_files : forall i f, ExtraFiles p !! i = Some f -> child_file cmd (stdioFdCount + Z.of_nat i) = Some f }.

Lemma child_file_prefix (cmd cmd' : Cmd) (files : list Z) (fd file : Z) :
  cmd_ExtraFiles cmd' = cmd_ExtraFiles cmd ++ files -> child_file cmd fd = Some file -> child_file cmd' fd = Some file.
Proof. unfold child_file. intros ->. case_match; [done|]. apply lookup_app_l_Some. Qed.

Lemma commandTemplate_ok (c : linuxContainer) (p : Process) (g : string) (ci cl : Z) : template_ok c p ci cl (commandTemplate_of c p g ci cl).
Proof.
  unfold commandTemplate_of. split.
  - apply names_file_death, names_file_add_env, names_file_pass_other, names_file_add_env, names_file_pass; done.
  - apply names_file_death, names_file_add_env, names_file_pass; done.
  - intros sock ->.
    apply names_file_death, names_file_add_env, names_file_pass_other, names_file_add_env, names_file_pass_other, names_file_pass; done.
  - assert (forall (b : bool) sig cmd, env_get "_LIBCONTAINER_STATEDIR" (cmd_Env (if b then set_pdeathsig sig cmd else cmd)) = env_get "_LIBCONTAINER_STATEDIR" (cmd_Env cmd)) as -> by (by intros []).
    unfold pass_file. rewrite env_get_add, bool_decide_eq_false_2 by done. rewrite env_get_add, bool_decide_eq_false_2 by done.
    change (cmd_Env (add_files ?f ?x)) with (cmd_Env x) at 1. by rewrite env_get_add, bool_decide_eq_true_2 by done.
  - intros i f Hf.
    assert (exists more, cmd_ExtraFiles (commandTemplate_of c p g ci cl) = ExtraFiles p ++ more) as [more E].
    { unfold commandTemplate_of. destruct (0 <? ParentDeathSignal c), (ConsoleSocket p); cbn; rewrite <- ?app_assoc; by eexists. }
    unfold child_file. unfold commandTemplate_of in E. rewrite E, (proj2 (Z.ltb_ge _ _)) by (unfold stdioFdCount; lia).
    replace (Z.to_nat _) with i by lia. by apply lookup_app_l_Some.
Qed.

Lemma template_pass (c : linuxContainer) (p : Process) (ci cl : Z) (cmd : Cmd) (name : string) (file : Z) :
  name ∈ ["_LIBCONTAINER_FIFOFD"] -> template_ok c p ci cl cmd -> template_ok c p ci cl (pass_file name file cmd).
Proof.
  intros ->%list_elem_of_singleton [H1 H2 H3 H4 H5]. split.
  - by apply names_file_pass_other.
  - by apply names_file_pass_other.
  - intros sock Hs. apply names_file_pass_other; [done|done|]. by apply H3.
  - unfold pass_file. by rewrite env_get_add.
  - intros i f Hf. apply (child_file_prefix cmd _ [file]); [done|]. by apply H5.
Qed.
Lemma template_type (c : linuxContainer) (p : Process) (ci cl : Z) (cmd : Cmd) (it : string) :
  template_ok c p ci cl cmd -> template_ok c p ci cl (add_env (env_var "_LIBCONTAINER_INITTYPE" it) cmd).
Proof.
  intros [H1 H2 H3 H4 H5]. split.
  - by apply names_file_add_env.
  - by apply names_file_add_env.
  - intros sock Hs. apply names_file_add_env; [done|done|]. by apply H3.
  - by rewrite env_get_add.
  - intros i f Hf. apply (child_file_prefix cmd _ []); [by rewrite app_nil_r|]. by apply H5.
Qed.
Lemma template_mounts (c : linuxContainer) (p : Process) (ci cl placeholder : Z) (cmd : Cmd) :
  template_ok c p ci cl cmd -> template_ok c p ci cl (add_mount_fds c placeholder cmd).
Proof.
  intros [H1 H2 H3 H4 H5]. destruct (add_mount_fds_ok c placeholder cmd) as (files & Hf & He). split.
  - by apply names_file_mounts.
  - by apply names_file_mounts.
  - intros sock Hs. apply names_file_mounts; [done|]. by apply H3.
  - by rewrite He.
  - intros i f Hi. apply (child_file_prefix cmd _ files); [done|]. by apply H5.
Qed.

Lemma commandTemplate_run (c : linuxContainer) (p : Process) (ci cl : Z) (s s' : world K * globals) (cmd : Cmd) :
  commandTemplate c p ci cl s = (s', Ok cmd) -> template_ok c p ci cl cmd.
Proof.
  unfold commandTemplate. case_match; [done|]. intros (s1 & g & _ & [_ <-]%ret_ok)%act_bind_ok. apply commandTemplate_ok.
Qed.

(** C40. Every descriptor that an environment variable of the new process names is the file it is meant for: the
    ends of the init and log pipes, the console socket, and for a new container its fifo; the files
    of the caller keep the numbers from three on, as the child assumes when it closes the rest. *)
Theorem descriptors_named (e : endian) (debug : bool) (keys : list string) (subs : list (string * string)) (c : linuxContainer) (p : Process)
    (s s' : world K * globals) (pp : parentProcess) (cmd : Cmd) :
  newParentProcess e debug keys subs c p s = (s', Ok (pp, cmd)) ->
  exists parentInit childInit parentLog childLog,
    answers (unix.SockPair "init") (parentInit, childInit) /\ answers unix.Pipe (parentLog, childLog) /\
    template_ok c p childInit childLog cmd /\
    env_get "_LIBCONTAINER_INITTYPE" (cmd_Env cmd) = Some (if Init p then initStandard else initSetns) /\
    (Init p = true -> exists fd, answers (unix.Open (fifo_name c) unix.O_PATH) fd /\ names_file cmd "_LIBCONTAINER_FIFOFD" fd).
Proof.
  intros (s1 & [pi ci] & H1%wrapping_ok%os_ok & Hs)%act_bind_ok. apply act_bind_ok in Hs as (s2 & [pl cl] & H2%wrapping_ok%os_ok & Hs).
  apply act_bind_ok in Hs as (s3 & cmd0 & Ht%commandTemplate_run & Hs). exists pi, ci, pl, cl. split; [done|]. split; [done|].
  destruct (Init p); cbn [negb] in Hs.
  - apply act_bind_ok in Hs as (s4 & cmd1 & Hf%wrapping_ok & Hs). apply act_bind_ok in Hs as (s5 & r & (_ & Hc & _)%newInitProcess_ok & [_ [= _ <-]]%ret_ok).
    apply act_bind_ok in Hf as (s6 & fd & Hfd%os_ok & Hf). apply act_bind_ok in Hf as (s7 & [] & _ & [_ <-]%ret_ok). rewrite Hc. split_and!.
    + apply template_mounts, template_type, template_pass; [set_solver|done].
    + destruct (add_mount_fds_ok c (child (mkPair pi ci)) (add_env (env_var "_LIBCONTAINER_INITTYPE" initStandard) (pass_file "_LIBCONTAINER_FIFOFD" fd cmd0)))
        as (files & _ & He). rewrite He by done. by rewrite env_get_add.
    + intros _. exists fd. split; [done|]. by apply names_file_mounts, names_file_add_env, names_file_pass.
  - apply act_bind_ok in Hs as (s4 & r & Hr & [_ [= _ <-]]%ret_ok). unfold newSetnsProcess in Hr.
    apply act_bind_ok in Hr as (s5 & st & _ & Hr). apply act_bind_ok in Hr as (s6 & data & _ & Hr). apply act_bind_ok in Hr as (s7 & cfg & _ & Hr).
    apply act_bind_ok in Hr as (s8 & [paths pid] & _ & [_ <-]%ret_ok). cbn [s_cmd]. split_and!; [by apply template_type|by rewrite env_get_add|done].
Qed.
End launched.

(** ** The fifo *)

Section fifo.
Context {K : Type} `{Kernel K}.
Implicit Types (s : world K * globals) (c : linuxContainer).

Lemma os_calls {A} (call : unix.call A) s s' (r : result A) : os call s = (s', r) -> calls s'.1 = Event call r :: calls s.1 /\ mask s'.1 = mask s.1.
Proof.
  unfold os, from_fs. destruct (sys call s.1) as [w r'] eqn:E. intros [= <- <-]. apply sys_ok in E as (k & _ & ->). done.
Qed.

(** The mask is the old one again, whether the fifo could be made or not. *)
Lemma createExecFifo_mask c : keeps (fun s : world K * globals => mask s.1) (createExecFifo c).
Proof.
  assert (forall A (call : unix.call A), keeps (fun s : world K * globals => mask s.1) (os call)) as Hos.
  { intros A call s. destruct (os call s) as [s' r] eqn:E. by apply os_calls in E as [_ ?]. }
  unfold createExecFifo. apply keeps_bind; [apply keeps_lift|intros uid]. apply keeps_bind; [apply keeps_lift|intros gid].
  apply keeps_bind; [apply keeps_try, Hos|intros ex]. destruct (is_ok ex); [apply keeps_throw|].
  intros s. unfold from_fs, Umask, mbind, Act_bind. cbn [fst snd].
  destruct (try_ (os (unix.Mkfifo (fifo_name c) 402)) _) as [s2 [r|er]] eqn:Er.
  - cbn [fst snd]. destruct r as [[]|]; [|done]. rewrite Hos. done.
  - unfold try_ in Er. by destruct (os _ _).
Qed.

Definition opened (path : string) s : Prop :=
  exists fd data, data <> "" /\ Event (unix.ReadAll fd) (Ok data) ∈ calls s.1 /\ Event (unix.Remove path) (Ok tt) ∈ calls s.1.

Lemma handleFifoResult_ok (path : string) (f : result Z) s s' : handleFifoResult path f s = (s', Ok tt) -> opened path s'.
Proof.
  unfold handleFifoResult. destruct f as [fd|err]; [|done]. intros (s1 & r & Hr%try_ok & Hs)%act_bind_ok.
  apply act_bind_ok in Hs as (s2 & rc & Hc%try_ok & [<- ->]%lift_ok). apply os_calls in Hc as [Hc _].
  apply act_bind_ok in Hr as (s3 & [] & Hread & [Hrm _]%os_calls).
  apply act_bind_ok in Hread as (s4 & data & [Hdata _]%os_calls & Hread). case_bool_decide; [done|]. apply ret_ok in Hread as [<- _].
  exists fd, data. rewrite Hc, Hrm, Hdata. split_and!; [done| |]; set_solver.
Qed.

(** [Exec] reports success only when the process of the container has written to the fifo, that
    is, when it is past every step of its initialization, and the fifo is gone then. *)
Theorem exec_started (fuel : nat) (path : string) (pid : Z) s s' : await_exec fuel path pid s = (s', Ok tt) -> opened path s'.
Proof.
  revert s. induction fuel as [|fuel IH]; intros s; cbn [await_exec]; [done|].
  intros (s1 & r & _ & Hs)%act_bind_ok. destruct r as [[fd|]|err]; [by apply handleFifoResult_ok in Hs| |done].
  apply act_bind_ok in Hs as (s2 & st & _ & Hs). destruct (match st with Ok _ => _ | Err _ => true end); [|by apply (IH s2)].
  apply act_bind_ok in Hs as (s3 & f & _ & Hs). apply act_bind_ok in Hs as (s4 & r & Hr%try_ok & Hs).
  destruct r as [[]|]; [|done]. apply ret_ok in Hs as [<- _]. by apply handleFifoResult_ok in Hr.
Qed.

(** A start that fails takes the fifo away again. *)
Lemma failed_start_removes_fifo e (fuel : nat) (debug : bool) (keys : list string) (subs : list (string * string)) c (p : Process) s s1 s' (err : error) :
  Init p = true -> createExecFifo c s = (s1, Ok tt) -> Start e fuel debug keys subs c p s = (s', Err err) -> is_panic err = false ->
  configs.SkipDevices (configs.cg_Resources (configs.Cgroups (config c))) = false ->
  exists r t, calls s'.1 = Event (unix.Remove (fifo_name c)) r :: t.
Proof.
  intros Hi Hc Hs Hp Hd. unfold Start in Hs. rewrite Hd, Hi in Hs. rewrite (act_bind_run _ _ _ _ _ Hc) in Hs.
  destruct (start_process e fuel debug keys subs c p s1) as [s2 r] eqn:Er. rewrite (act_bind_run _ _ _ s2 r (try_run _ _ _ _ Er)) in Hs.
  destruct r as [[]|e1]; [done|]. destruct (is_panic e1) eqn:Ep; [by injection Hs as _ <-; rewrite Ep in Hp|].
  unfold deleteExecFifo, mbind, Act_bind, try_ in Hs. destruct (os (unix.Remove (fifo_name c)) s2) as [s3 r3] eqn:E3. injection Hs as <- _.
  apply os_calls in E3 as [-> _]. eauto.
Qed.
End fifo.

(** ** Waiting for a container *)

Section patience.
Context {K : Type} `{Kernel K}.
(** The fifo is opened, or the process ends, after finitely many turns. *)
Context (patience : K -> nat)
  (await_patience : forall m k k' path, answer m (unix.AwaitFifo path) k = (k', Ok None) -> (patience k' < patience k)%nat)
  (read_patience : forall m k k' path r, answer m (unix.ReadFile path) k = (k', r) -> (patience k' <= patience k)%nat).

(** Waiting for a container to start ends: enough fuel is one turn more than the system can make the
    runtime wait, and any larger amount gives the same result. *)
Theorem exec_ends (n n' : nat) (path : string) (pid : Z) (s : world K * globals) :
  (patience (kernel s.1) < n)%nat -> (patience (kernel s.1) < n')%nat -> await_exec n path pid s = await_exec n' path pid s.
Proof.
  revert n' s. induction n as [|n IH]; intros n' s Hn Hn'; [lia|]. destruct n' as [|n']; [lia|]. cbn [await_exec].
  destruct (os (unix.AwaitFifo path) s) as [s1 r] eqn:E1. rewrite !(act_bind_run _ _ _ _ _ (try_run _ _ _ _ E1)).
  destruct r as [[fd|]|err]; [done| |done].
  assert (patience (kernel s1.1) < patience (kernel s.1))%nat as H1.
  { unfold os, from_fs in E1. destruct (sys (unix.AwaitFifo path) s.1) as [w r] eqn:E. injection E1 as <- ->.
    apply sys_ok in E as (k & Ha & ->). by eapply await_patience. }
  destruct ((data ← os (unix.ReadFile (Join ["/proc"; format_int pid; "stat"])); lift (parseStat data) : M K _) s1) as [s2 st] eqn:E2.
  rewrite !(act_bind_run _ _ _ _ _ (try_run _ _ _ _ E2)).
  assert (patience (kernel s2.1) <= patience (kernel s1.1))%nat as H2.
  { unfold mbind, Act_bind, os, from_fs in E2.
    destruct (sys (unix.ReadFile (Join ["/proc"; format_int pid; "stat"])) s1.1) as [w r] eqn:E. apply sys_ok in E as (k & Ha & ->).
    destruct r; injection E2 as <- _; cbn; by eapply read_patience. }
  destruct (match st with Ok _ => _ | Err _ => true end); [done|]. apply IH; lia.
Qed.
End patience.
