(* ===== verification/LaunchExample.v ===== *)
(** * A small system on which the theorems about starting a process are applied

    The system of InitExample, which moreover refuses paths with a zero byte, lets the runtime wait for
    a container for a number of turns, and may refuse to change owners. *)

From S2P Require Import Prelude GoAct GoStrings GoPath GoFs GoJson Devices Configs UserDb Seccomp SpecTypes SpecConv CgroupFiles InitSys RootfsSetup ContainerInit ParentProcess InitExample Bootstrap Launch BootstrapThms LaunchThms.

Open Scope string_scope.
Open Scope list_scope.
#[local] Open Scope Z_scope.

Import libcontainer init process boot launch.

Record host := mkHost { h_toy : toy; h_waits : nat; h_chown : bool }.
Definition from_toy {A} (h : host) (r : toy * result A) : host * result A := (mkHost r.1 (h_waits h) (h_chown h), r.2).
Definition alive : string := "7 (sh) S 1 1 1 0 -1 0 0 0 0 0 0 0 0 0 20 0 1 0 100".
#[global] Instance host_kernel : Kernel host := fun A m c h =>
  match c in unix.call A return host * result A with
  | unix.Lstat p => (h, if contains_char nul p then Err EINVAL else Ok (unix.mkFileInfo false 438))
  | unix.Stat p => (h, if has_prefix "/run" p then Err ErrNotExist else Ok (unix.mkFileInfo false 438))
  | unix.AwaitFifo p => match h_waits h with O => (h, Ok (Some 5)) | S n => (mkHost (h_toy h) n (h_chown h), Ok None) end
  | unix.ReadFile _ => (h, Ok alive)
  | unix.Chown _ _ _ => (h, if h_chown h then Ok tt else Err EPERM)
  | unix.IsCgroup2UnifiedMode => (h, Ok true)
  | c => from_toy h (toy_kernel _ m c (h_toy h))
  end.

Definition ex_mounts : list configs.Mount :=
  [toy_mount "proc" "/proc" "proc" 0; toy_mount "/data" "/data" "bind" MS_BIND; toy_mount "tmpfs" "/tmp" "tmpfs" 0; toy_mount "/home" "/home" "bind" MS_BIND].
Definition ex_config (mounts : list configs.Mount) (ns : list Namespace) : configs.Config :=
  configs.mkConf (configs.mkBase "/c" false false "" [] true false false mounts [])
    (configs.mkCg "" "" "/x" "" emptyResources false [] false None)
    (configs.mkLinuxPart 0 ns [] (Some [mkIDMap 0 1000 65536]) (Some [mkIDMap 0 1000 65536]) [] [] "" [] None None) no_process ∅ "".
Definition ex_namespaces : list Namespace := [mkNamespace NEWNS ""; mkNamespace NEWNET "/run/netns/a"; mkNamespace NEWUSER ""].
Definition ex_container (mounts : list configs.Mount) (ns : list Namespace) : linuxContainer :=
  mkLinuxContainer "c" "/run/runc/c" (ex_config mounts ns) 0 "" [] [] [] [] "/proc/self/exe" ["runc"; "init"] "" "" None.
Definition ex_c : linuxContainer := ex_container ex_mounts ex_namespaces.
Definition ex_process (init : bool) (subs : gmap string string) : Process :=
  mkProcess ["sh"] [] "0" [] "/" 0 1 2 [10; 11] 0 0 None "" "" None [] None init "4" subs.
Definition ex_state (m : Manager) (waits : nat) (chown : bool) (pid : option (option Z)) : world host * globals :=
  (mkWorld (mkHost (mkToy 20 [] []) waits chown) 18 [], mkGlobals ∅ 0 m None pid).
Definition ex_s : world host * globals := ex_state (fs2_manager "/sys/fs/cgroup/x") 2 true (Some (Some 7)).
Definition ex_cmd : Cmd := commandTemplate_of ex_c (ex_process true ∅) "" 1 2.
Definition get_ok {A} (d : A) (r : result A) : A := match r with Ok a => a | Err _ => d end.

Definition ex_data : bytes := get_ok [] (bootstrapData LittleEndian ex_c (CloneFlags ex_namespaces) (ns_maps ex_namespaces) initStandard ex_s).2.
Lemma bootstrap_round_trip_witness :
  exists egid, nl_parse LittleEndian (ex_data ++ []) =
    Ok (received LittleEndian (bootstrap_config ex_c (CloneFlags ex_namespaces) (ns_maps ex_namespaces) initStandard egid)) /\
  (ns_maps ex_namespaces !! NEWUSER = None -> GidMappings_of ex_c <> [] -> answers (K := host) unix.Getegid egid).
Proof.
  apply (bootstrap_round_trip LittleEndian ex_c (CloneFlags ex_namespaces) (ns_maps ex_namespaces) initStandard ex_s
    (bootstrapData LittleEndian ex_c (CloneFlags ex_namespaces) (ns_maps ex_namespaces) initStandard ex_s).1 ex_data []).
  vm_compute. reflexivity.
Defined.

Definition ex_pair : filePair := mkPair 2 1.
Definition ex_run : (world host * globals) * result initParent :=
  newInitProcess LittleEndian false ex_c (ex_process true ∅) ex_cmd ex_pair ex_pair ex_s.
Definition ex_parent : initParent :=
  get_ok (mkInitParent ex_cmd [] (mkInitProcess toy_init false false 0 0 0 false)) ex_run.2.

Lemma namespaces_established_witness :
  exists cfg, nl_parse LittleEndian (i_bootstrapData ex_parent ++ []) = Ok cfg /\
  exists b l, namespaces cfg = Some b /\ join_namespaces b = Ok l /\ (CLONE_NEWNET, "/run/netns/a") ∈ l.
Proof.
  destruct (namespaces_established (K := host)) with (e := LittleEndian) (debug := false) (c := ex_c) (p := ex_process true ∅) (cmd := ex_cmd)
    (ms := ex_pair) (ls := ex_pair) (s := ex_s) (s' := ex_run.1) (r := ex_parent) (rest := [] : bytes) as (cfg & H1 & H2).
  - intros m k k' p fi. cbn. destruct (contains_char nul p); [|done]. intros [=].
  - vm_compute. reflexivity.
  - by apply (bool_decide_unpack _).
  - by apply (bool_decide_unpack _).
  - exists cfg. split; [exact H1|]. destruct (H2 (mkNamespace NEWNET "/run/netns/a")) as [_ H3]; [right; left|].
    destruct H3 as (b & l & H4 & H5 & H6 & _); [done|]. exists b, l. exact (conj H4 (conj H5 H6)).
Defined.

Lemma mount_sources_paired_witness :
  exists b text received, receive_mountsources text = Ok received /\ length (send_mountsources b) = length received /\
  last (cmd_Env (i_cmd ex_parent)) = Some (env_var "_LIBCONTAINER_MOUNT_FDS" text).
Proof.
  destruct (mount_sources_paired LittleEndian false ex_c (ex_process true ∅) ex_cmd ex_pair ex_pair ex_s ex_run.1 ex_parent [])
    as (cfg & b & text & fds & received & _ & _ & H3 & _ & H5 & _ & _ & _ & H6 & _).
  - vm_compute. reflexivity.
  - vm_compute. reflexivity.
  - vm_compute. intros [=].
  - exists b, text, received. split; [exact H5|]. split; [|exact H3]. apply H6. repeat constructor; by intros.
Defined.

Definition ex_launch : (world host * globals) * result (parentProcess * Cmd) :=
  newParentProcess LittleEndian false [] [] ex_c (ex_process true ∅) ex_s.
Definition ex_launched : parentProcess * Cmd := get_ok (InitParent ex_parent, ex_cmd) ex_launch.2.
Lemma descriptors_named_witness : exists fd, names_file ex_launched.2 "_LIBCONTAINER_FIFOFD" fd.
Proof.
  destruct (descriptors_named LittleEndian false [] [] ex_c (ex_process true ∅) ex_s ex_launch.1 ex_launched.1 ex_launched.2) as (pi & ci & pl & cl & _ & _ & _ & _ & H5).
  - vm_compute. reflexivity.
  - destruct H5 as (fd & _ & H6); [done|]. exists fd. exact H6.
Defined.

Lemma exec_started_witness : opened "/run/runc/c/exec.fifo" (await_exec 5 "/run/runc/c/exec.fifo" 7 ex_s).1.
Proof. apply (exec_started 5 "/run/runc/c/exec.fifo" 7 ex_s). vm_compute. reflexivity. Defined.

Lemma exec_ends_witness : await_exec 3 "/run/runc/c/exec.fifo" 7 ex_s = await_exec 9 "/run/runc/c/exec.fifo" 7 ex_s.
Proof.
  apply (exec_ends h_waits).
  - intros m k k' path. cbn. destruct (h_waits k) eqn:E; [intros [=]|]. intros [= <-]. cbn. lia.
  - intros m k k' path r. cbn. intros [= <- _]. lia.
  - cbn. lia.
  - cbn. lia.
Defined.

(** ** Cases in which the code does not do what it means to *)

Definition exec_paths (m : Manager) (keys : list string) (subs : gmap string string) : result (gmap string string) * gmap string string :=
  let '(s, r) := newSetnsProcess LittleEndian keys (map_to_list subs) ex_c (ex_process false subs) ex_cmd ex_pair ex_pair (ex_state m 0 true (Some (Some 7))) in
  (s_cgroupPaths <$> r, GetPaths (cgroupManager s.2)).

(** The test for a sub-cgroup compares texts: a sibling whose name starts with the name of the container passes. *)
Lemma sibling_cgroup_accepted :
  (exec_paths (fs2_manager "/sys/fs/cgroup/a") [""] {[ "" := "../ab" ]}).1 = Ok {[ "" := "/sys/fs/cgroup/ab" ]}.
Proof. vm_compute. reflexivity. Qed.

(** With a v1 manager the paths of the container itself are changed, as the map is shared: the next process goes one level deeper. *)
Lemma exec_moves_container :
  let m := fs_manager {[ "cpu" := "/sys/fs/cgroup/cpu/a" ]} in
  let after := exec_paths m ["cpu"] {[ "" := "x" ]} in
  after.2 = {[ "cpu" := "/sys/fs/cgroup/cpu/a/x" ]} /\
  (exec_paths (fs_manager after.2) ["cpu"] {[ "" := "x" ]}).1 = Ok {[ "cpu" := "/sys/fs/cgroup/cpu/a/x/x" ]}.
Proof. vm_compute. split; reflexivity. Qed.

(** A process cannot be started in a container without namespaces: the list of paths is sent although it is empty, and refused. *)
Lemma exec_without_namespaces :
  let r := newSetnsProcess LittleEndian [] [] (ex_container [] []) (ex_process false ∅) ex_cmd ex_pair ex_pair ex_s in
  match r.2 with
  | Ok p => match nl_parse LittleEndian (s_bootstrapData p) with
            | Ok cfg => match namespaces cfg with Some b => join_namespaces b = Err (bail "ns paths are empty") | None => False end
            | Err _ => False
            end
  | Err _ => False
  end.
Proof. vm_compute. reflexivity. Qed.

(** A bind mount with an empty source: a descriptor is expected and none is sent. *)
Lemma empty_source_unpaired :
  let c := ex_container [toy_mount "" "/a" "bind" MS_BIND] ex_namespaces in
  let r := newInitProcess LittleEndian false c (ex_process true ∅) (commandTemplate_of c (ex_process true ∅) "" 1 2) ex_pair ex_pair ex_s in
  match r.2 with
  | Ok p =>
      (cfg ← nl_parse LittleEndian (i_bootstrapData p); Ok (send_mountsources <$> mountsources cfg)) = Ok (Some []) /\
      receive_mountsources (default "" (env_get "_LIBCONTAINER_MOUNT_FDS" (cmd_Env (i_cmd p)))) = Ok [7]
  | Err _ => False
  end.
Proof. vm_compute. split; reflexivity. Qed.

(** When the owner of the fifo cannot be set, the fifo stays and the container can never be started. *)
Lemma fifo_left_behind :
  let s := (Start LittleEndian 5 false [] [] ex_c (ex_process true ∅) (ex_state (fs2_manager "/sys/fs/cgroup/x") 0 false None)) in
  s.2 = Err EPERM /\
  Event (unix.Mkfifo "/run/runc/c/exec.fifo" 402) (Ok tt) ∈ calls s.1.1 /\
  (forall r, Event (unix.Remove "/run/runc/c/exec.fifo") r ∉ calls s.1.1).
Proof.
  cbv zeta. split; [vm_compute; reflexivity|].
  match goal with |- context [calls ?w] => let t := eval vm_compute in (calls w) in change (calls w) with t end.
  split; [set_solver|]. intros r Hr. repeat (apply elem_of_cons in Hr as [[=]|Hr]). by apply elem_of_nil in Hr.
Qed.
