(* ===== verification/Ebpf.v ===== *)
(** * Attaching the device filter: cgroups/ebpf/ebpf_linux.go

    The filter of a cgroup is replaced while the container runs.  The kernel is an interface
    ([Bpf]) with the documented behaviour of bpf(2) ([BpfLaws]): a cgroup has a list of programs, all of
    which have to agree to an access.  The model records every state that the kernel goes through, so that a
    theorem can speak about the moments between two calls. *)

From S2P Require Import Prelude GoAct GoStrings GoFs Devices DeviceFilter CgroupFiles.

Open Scope string_scope.
Open Scope list_scope.
#[local] Open Scope Z_scope.

Module ebpf.

(** What a program is attached to: the directory of a cgroup, or the file /dev/null of the probe. *)
Inductive target := Dir (fd : Z) | DevNull (fd : Z).
Definition BPF_F_ALLOW_MULTI : Z := 2.
Definition BPF_F_REPLACE : Z := 4.
Definition ENOSPC : error := ErrNew "no space left on device".

(** [bpfAttrQuery] after the call: the identifiers that were filled in and [ProgCnt]. *)
Record answer := mkAnswer { ProgIds : list Z; ProgCnt : Z; errno : option error }.

Class Bpf (W : Type) := {
  Setrlimit : Act W unit;
  prog_query : Z -> Z -> Act W answer;
  NewProgramFromID : Z -> Act W Z;
  NewProgram : list insn -> string -> Act W Z;
  CloseProgram : Z -> Act W unit;
  Open_devnull : Act W Z;
  Close_devnull : Z -> Act W unit;
  RawAttachProgram : target -> Z -> option Z -> Z -> Act W unit;
  RawDetachProgram : target -> Z -> Act W unit }.

(** The kernel, the states it has been in, and what [haveBpfProgReplaceOnce] found. *)
Record st (W : Type) := mkSt { kern : W; past : list W; once : option bool }.
Arguments mkSt {W}.
Arguments kern {W}.
Arguments past {W}.
Arguments once {W}.

Section ebpf.
Context {W : Type} `{Bpf W}.
Definition M (A : Type) : Type := Act (st W) A.
Definition sys {A} (m : Act W A) : M A := fun s => let '(w, r) := m (kern s) in (mkSt w (kern s :: past s) (once s), r).
Definition get_once : M (option bool) := fun s => (s, Ok (once s)).
Definition set_once (b : bool) : M unit := fun s => (mkSt (kern s) (past s) (Some b), Ok tt).

(** The programs behind the identifiers; those that must not be looked at are left out. *)
Fixpoint programs_of (ids : list Z) : M (list Z) :=
  match ids with
  | [] => mret []
  | progId :: ids =>
      r ← try_ (sys (NewProgramFromID progId));
      match r with
      | Err err => if is_permission err then programs_of ids else throw (ErrWrap "cannot fetch program from id" err)
      | Ok program => programs ← programs_of ids; mret (program :: programs)
      end
  end.
Definition ErrIncomplete : error := ErrNew "could not get complete list of CGROUP_DEVICE programs".
(** [retries] is how often the list may still turn out to be longer.  The address of the first element of an
    empty slice cannot be taken. *)
Fixpoint find_programs (retries : nat) (dirFd size : Z) : M (list Z) :=
  match retries with
  | O => throw ErrIncomplete
  | S retries =>
      if size <=? 0 then throw (ErrWrap "panic" (ErrNew "index out of range")) else
      q ← sys (prog_query dirFd size);
      match errno q with
      | Some err => if bool_decide (err = ENOSPC) then find_programs retries dirFd (ProgCnt q)
                    else throw (ErrWrap "bpf_prog_query(BPF_CGROUP_DEVICE) failed" err)
      | None => programs_of (take (Z.to_nat (ProgCnt q)) (ProgIds q))
      end
  end.
Definition findAttachedCgroupDeviceFilters (dirFd : Z) : M (list Z) := find_programs 10 dirFd 64.

(** The move has 64 bits; the value is zero either way. *)
Definition dummy_filter : list insn := [plain (MovImm32 R0 0); plain Return].
Definition probe_replace : M bool :=
  r ← try_ (sys (NewProgram dummy_filter "MIT"));
  match r with
  | Err _ => mret false
  | Ok prog =>
      d ← try_ (sys Open_devnull);
      b ← match d with
          | Err _ => mret false
          | Ok devnull =>
              r ← try_ (sys (RawAttachProgram (DevNull devnull) prog None (Z.lor BPF_F_ALLOW_MULTI BPF_F_REPLACE)));
              _ ← try_ (sys (Close_devnull devnull));
              mret (match r with Err err => negb (errors_is err EINVAL) | Ok _ => true end)
          end;
      _ ← try_ (sys (CloseProgram prog));
      mret b
  end.
Definition haveBpfProgReplace : M bool :=
  o ← get_once;
  match o with
  | Some b => mret b
  | None => b ← probe_replace; _ ← set_once b; mret b
  end.

Definition detach_old (dirFd : Z) (oldProg : Z) : M unit :=
  wrapping "failed to call BPF_PROG_DETACH (BPF_CGROUP_DEVICE) on old filter program" (sys (RawDetachProgram (Dir dirFd) oldProg)).
(** What follows the search for the old programs. *)
Definition replace_filters (insts : list insn) (license : string) (dirFd : Z) (oldProgs : list Z) : M Z :=
  have ← haveBpfProgReplace;
  let replaceProg := match oldProgs with [old] => if (have : bool) then Some old else None | _ => None end in
  prog ← sys (NewProgram insts license);
  let attachFlags := match replaceProg with Some _ => Z.lor BPF_F_ALLOW_MULTI BPF_F_REPLACE | None => BPF_F_ALLOW_MULTI end in
  _ ← wrapping "failed to call BPF_PROG_ATTACH (BPF_CGROUP_DEVICE, BPF_F_ALLOW_MULTI)" (sys (RawAttachProgram (Dir dirFd) prog replaceProg attachFlags));
  _ ← match replaceProg with Some _ => mret tt | None => for_each (detach_old dirFd) oldProgs end;
  mret prog.
(** The result is the program whose detachment the returned function does. *)
Definition LoadAttachCgroupDeviceFilter (insts : list insn) (license : string) (dirFd : Z) : M Z :=
  _ ← try_ (sys Setrlimit);
  oldProgs ← findAttachedCgroupDeviceFilters dirFd;
  replace_filters insts license dirFd oldProgs.
(** The function that is returned. *)
Definition closer (dirFd prog : Z) : M unit :=
  wrapping "failed to call BPF_PROG_DETACH (BPF_CGROUP_DEVICE)" (sys (RawDetachProgram (Dir dirFd) prog)).
End ebpf.
Arguments M W A : clear implicits.

(** ** What bpf(2) promises *)

(** [attached w d]: the programs of the cgroup behind descriptor [d]; [code w p]: the instructions of a loaded program. *)
Class BpfView (W : Type) := { attached : W -> Z -> list Z; code : W -> Z -> option (list insn) }.
(** A call that loads code but attaches and detaches nothing; code never changes. *)
Definition stable_code {W A} `{BpfView W} (m : Act W A) : Prop := forall w p c, code w p = Some c -> code (m w).1 p = Some c.
Definition quiet {W A} `{BpfView W} (m : Act W A) : Prop := (forall w d, attached (m w).1 d = attached w d) /\ stable_code m.
(** Replacing one element of a list of programs. *)
Definition replaced (q p : Z) (l : list Z) : list Z := map (fun x => if bool_decide (x = q) then p else x) l.

Class BpfLaws (W : Type) `{Bpf W, BpfView W} : Prop := {
  Setrlimit_quiet : quiet Setrlimit;
  query_quiet d n : quiet (prog_query d n);
  query_answer d n w w' q : prog_query d n w = (w', Ok q) ->
    match errno q with
    | None => ProgIds q = attached w d /\ ProgCnt q = Z.of_nat (length (attached w d))
    | Some err => err = ENOSPC -> ProgCnt q = Z.of_nat (length (attached w d)) /\ n < ProgCnt q
    end;
  from_id_quiet i : quiet (NewProgramFromID i);
  from_id_same i w w' p : NewProgramFromID i w = (w', Ok p) -> p = i;
  load_quiet c l : quiet (NewProgram c l);
  load_code c l w w' p : NewProgram c l w = (w', Ok p) -> code w' p = Some c /\ forall d, p ∉ attached w d;
  close_quiet p : quiet (CloseProgram p);
  null_quiet : quiet Open_devnull;
  close_null_quiet d : quiet (Close_devnull d);
  probe_quiet d p r f : quiet (RawAttachProgram (DevNull d) p r f);
  attach_code t p r f : stable_code (RawAttachProgram t p r f);
  attach_ok d p r f w w' : RawAttachProgram (Dir d) p r f w = (w', Ok tt) ->
    match r with
    | None => attached w' d = attached w d ++ [p]
    | Some q => q ∈ attached w d /\ attached w' d = replaced q p (attached w d)
    end;
  attach_err d p r f w w' e : RawAttachProgram (Dir d) p r f w = (w', Err e) -> attached w' d = attached w d;
  detach_code t p : stable_code (RawDetachProgram t p);
  detach_ok d p w w' : RawDetachProgram (Dir d) p w = (w', Ok tt) -> attached w' d = filter (fun x => x <> p) (attached w d);
  detach_err d p w w' e : RawDetachProgram (Dir d) p w = (w', Err e) -> attached w' d = attached w d }.
End ebpf.
