(* ===== verification/EbpfThms.v ===== *)
(** * A cgroup is never without its device filter

    For every kernel that obeys [BpfLaws], and whatever calls fail. *)

From S2P Require Import Prelude GoAct GoStrings GoFs Devices DeviceFilter CgroupFiles Ebpf.

Open Scope string_scope.
Open Scope list_scope.
#[local] Open Scope Z_scope.

Import ebpf.

(** ** Triples *)

Section triples.
Context {W : Type} `{Bpf W}.
Implicit Types (P : st W -> Prop).

Definition hoare {A} P (m : M W A) (Q : result A -> st W -> Prop) : Prop := forall s, P s -> Q (m s).2 (m s).1.

Lemma hoare_conseq {A} P P' (m : M W A) (Q Q' : result A -> st W -> Prop) :
  hoare P' m Q' -> (forall s, P s -> P' s) -> (forall r s, Q' r s -> Q r s) -> hoare P m Q.
Proof. intros Hm HP HQ s Hs. by apply HQ, Hm, HP. Qed.
Lemma hoare_pure {A} P (R : Prop) (m : M W A) (Q : result A -> st W -> Prop) : (R -> hoare P m Q) -> hoare (fun s => P s /\ R) m Q.
Proof. intros Hm s [Hs HR]. by apply Hm. Qed.
Lemma hoare_ret {A} P (a : A) (Q : result A -> st W -> Prop) : (forall s, P s -> Q (Ok a) s) -> hoare P (mret a) Q.
Proof. done. Qed.
Lemma hoare_throw {A} P (e : error) (Q : result A -> st W -> Prop) : (forall s, P s -> Q (Err e) s) -> hoare P (throw e) Q.
Proof. done. Qed.
Lemma hoare_bind {A B} P (m : M W A) (k : A -> M W B) (R : A -> st W -> Prop) (Q : result B -> st W -> Prop) :
  hoare P m (fun r s => match r with Ok a => R a s | Err e => Q (Err e) s end) -> (forall a, hoare (R a) (k a) Q) -> hoare P (m ≫= k) Q.
Proof.
  intros Hm Hk s Hs. specialize (Hm s Hs). unfold mbind, Act_bind. destruct (m s) as [s1 [a|e]]; cbn in *; [by apply Hk|done].
Qed.
Lemma hoare_try {A} P (m : M W A) (Q : result (result A) -> st W -> Prop) : hoare P m (fun r s => Q (Ok r) s) -> hoare P (try_ m) Q.
Proof. intros Hm s Hs. specialize (Hm s Hs). unfold try_. by destruct (m s). Qed.
Lemma hoare_wrapping {A} P (t : string) (m : M W A) (Q : result A -> st W -> Prop) :
  hoare P m (fun r s => Q (wrap_err t r) s) -> hoare P (wrapping t m) Q.
Proof. intros Hm s Hs. specialize (Hm s Hs). unfold wrapping. by destruct (m s). Qed.
Lemma hoare_sys {A} P (c : Act W A) (Q : result A -> st W -> Prop) :
  (forall s w r, P s -> c (kern s) = (w, r) -> Q r (mkSt w (kern s :: past s) (once s))) -> hoare P (sys c) Q.
Proof. intros HQ s Hs. unfold sys. destruct (c (kern s)) as [w r] eqn:E. by apply HQ. Qed.
(** Steps that keep an assertion, whatever their result. *)
Definition inv {A} P (m : M W A) : Prop := hoare P m (fun _ => P).
Lemma inv_bind {A B} P (m : M W A) (k : A -> M W B) : inv P m -> (forall a, inv P (k a)) -> inv P (m ≫= k).
Proof. intros Hm Hk. apply hoare_bind with (R := fun _ => P); [|done]. eapply hoare_conseq; [exact Hm|done|]. by intros []. Qed.
Lemma hoare_frame {A} P (F : st W -> Prop) (m : M W A) (Q : result A -> st W -> Prop) :
  inv F m -> hoare P m Q -> hoare (fun s => P s /\ F s) m (fun r s => Q r s /\ F s).
Proof. intros HF Hm s [Hs Hf]. split; [by apply Hm|by apply HF]. Qed.

(** What has happened has happened: an assertion on the states that the kernel went through, which more of them do
    not falsify. *)
Definition lasting (F : st W -> Prop) : Prop := forall s s', past s ⊆ past s' -> F s -> F s'.
Lemma lasting_sys {A} (F : st W -> Prop) (c : Act W A) : lasting F -> inv F (sys c).
Proof. intros HF. apply hoare_sys. intros s w r Hs _. apply (HF s); [set_solver|done]. Qed.
Lemma lasting_once (F : st W -> Prop) (b : bool) : lasting F -> inv F (set_once b).
Proof. intros HF s Hs. by apply (HF s). Qed.
Lemma lasting_replace (F : st W -> Prop) : lasting F -> inv F haveBpfProgReplace.
Proof.
  intros HF. unfold haveBpfProgReplace. apply inv_bind; [by intros s|]. intros [b|]; [by apply hoare_ret|].
  apply inv_bind; [|intros b; apply inv_bind; [by apply lasting_once|intros _; by apply hoare_ret]].
  unfold probe_replace. apply inv_bind; [by apply hoare_try, lasting_sys|]. intros [prog|]; [|by apply hoare_ret].
  apply inv_bind; [by apply hoare_try, lasting_sys|]. intros dn.
  apply inv_bind; [|intros b; apply inv_bind; [by apply hoare_try, lasting_sys|intros _; by apply hoare_ret]].
  destruct dn as [n|]; [|by apply hoare_ret]. apply inv_bind; [by apply hoare_try, lasting_sys|]. intros r.
  apply inv_bind; [by apply hoare_try, lasting_sys|]. intros _. by apply hoare_ret.
Qed.
Lemma lasting_detach (F : st W -> Prop) (d : Z) (olds : list Z) : lasting F -> inv F (for_each (detach_old d) olds).
Proof.
  intros HF. induction olds as [|o olds IH]; cbn [for_each]; [by apply hoare_ret|].
  apply inv_bind; [by apply hoare_wrapping, lasting_sys|]. by intros _.
Qed.
Lemma lasting_programs (F : st W -> Prop) (ids : list Z) : lasting F -> inv F (programs_of ids).
Proof.
  intros HF. induction ids as [|i ids IH]; cbn [programs_of]; [by apply hoare_ret|].
  apply inv_bind; [by apply hoare_try, lasting_sys|]. intros [p|e]; [apply inv_bind; [done|intros l; by apply hoare_ret]|].
  destruct (is_permission e); [done|by apply hoare_throw].
Qed.

(** A program that the runtime was not permitted to look at, in one of the states of this run. *)
Definition forbidden (s : st W) (p : Z) : Prop :=
  exists w w' e, w ∈ past s /\ NewProgramFromID p w = (w', Err e) /\ is_permission e = true.
Lemma forbidden_lasting (p : Z) : lasting (fun s => forbidden s p).
Proof. intros s s' Hs (w & w' & e & Hw & He). exists w, w', e. split; [by apply Hs|done]. Qed.
(** The programs that were found: all but forbidden ones. *)
Definition found (s : st W) (ids programs : list Z) : Prop := forall p, p ∈ ids -> p ∈ programs \/ forbidden s p.
Lemma found_lasting (ids programs : list Z) : lasting (fun s => found s ids programs).
Proof. intros s s' Hs Hf p Hp. destruct (Hf p Hp); [by left|right]. by eapply forbidden_lasting. Qed.
End triples.

Section laws.
Context {W : Type} `{BpfLaws W} (d : Z) (A0 : list Z).

(** The programs of the cgroup have been [A0] all along. *)
Definition calm (s : st W) : Prop := forall v, v ∈ kern s :: past s -> attached v d = A0.
Lemma calm_sys {A} (c : Act W A) : quiet c -> inv calm (sys c).
Proof.
  intros [Hc _]. apply hoare_sys. intros s w r Hs E v [->|Hv]%elem_of_cons; [|by apply Hs].
  cbn. specialize (Hc (kern s) d). rewrite E in Hc. cbn in Hc. rewrite Hc. apply Hs. left.
Qed.
Lemma calm_now (s : st W) : calm s -> attached (kern s) d = A0.
Proof. intros Hs. apply Hs. left. Qed.

Lemma probe_calm : inv calm probe_replace.
Proof.
  unfold probe_replace. apply inv_bind; [apply hoare_try, calm_sys, load_quiet|]. intros [prog|]; [|by apply hoare_ret].
  apply inv_bind; [apply hoare_try, calm_sys, null_quiet|]. intros dn.
  apply inv_bind; [|intros b; apply inv_bind; [apply hoare_try, calm_sys, close_quiet|intros _; by apply hoare_ret]].
  destruct dn as [n|]; [|by apply hoare_ret]. apply inv_bind; [apply hoare_try, calm_sys, probe_quiet|]. intros r.
  apply inv_bind; [apply hoare_try, calm_sys, close_null_quiet|]. intros _. by apply hoare_ret.
Qed.
Lemma haveBpfProgReplace_calm : inv calm haveBpfProgReplace.
Proof.
  unfold haveBpfProgReplace. apply inv_bind; [by intros s|]. intros [b|]; [by apply hoare_ret|].
  apply inv_bind; [apply probe_calm|]. intros b. apply inv_bind; [by intros s|]. intros _. by apply hoare_ret.
Qed.

Definition all_found (ids : list Z) (r : result (list Z)) (s : st W) : Prop :=
  calm s /\ match r with Ok l => (forall p, p ∈ l -> p ∈ ids) /\ found s ids l | Err _ => True end.
Lemma programs_of_found (ids : list Z) : hoare calm (programs_of ids) (all_found ids).
Proof.
  unfold all_found. induction ids as [|i ids IH]; cbn [programs_of]; [apply hoare_ret; intros s Hs; split; [done|split; [done|intros p; set_solver]]|].
  apply hoare_bind with (R := fun r s => calm s /\ match r with Ok p => p = i | Err e => is_permission e = true -> forbidden s i end).
  - apply hoare_try. intros s Hs. pose proof (calm_sys _ (from_id_quiet i) s Hs) as Hc. split; [exact Hc|]. unfold sys.
    destruct (NewProgramFromID i (kern s)) as [w [p|e]] eqn:E; cbn; [by apply from_id_same in E|]. intros Hp. exists (kern s), w, e. split; [left|done].
  - intros [p|e].
    + apply hoare_pure. intros ->.
      apply hoare_bind with (R := fun l s => calm s /\ (forall p, p ∈ l -> p ∈ ids) /\ found s ids l); [eapply hoare_conseq; [exact IH|done|]; intros [l|e] s; naive_solver|].
      intros l. apply hoare_ret. intros s (Hs & Hf1 & Hf2). split; [done|]. split; [set_solver|].
      intros q [->|Hq]%elem_of_cons; [left; left|]. destruct (Hf2 q Hq); [left; by right|by right].
    + destruct (is_permission e) eqn:Ep; [|apply hoare_throw; by intros s [Hs _]].
      eapply hoare_conseq; [apply (hoare_frame _ _ _ _ (lasting_programs _ ids (forbidden_lasting i)) IH)|naive_solver|].
      intros [l|e'] s [[Hs Hl] Hi]; [|done]. split; [done|]. destruct Hl as [Hf1 Hf2]. split; [set_solver|].
      intros q [->|Hq]%elem_of_cons; [by right|by apply Hf2].
Qed.
Lemma find_programs_found (n : nat) : forall size, hoare calm (find_programs n d size) (all_found A0).
Proof.
  unfold all_found.
  induction n as [|n IH]; intros size; cbn [find_programs]; [by apply hoare_throw|]. destruct (size <=? 0); [by apply hoare_throw|].
  apply hoare_bind with (R := fun q s => calm s /\ match errno q with None => ProgIds q = A0 /\ ProgCnt q = Z.of_nat (length A0) | Some _ => True end).
  - intros s Hs. pose proof (calm_sys _ (query_quiet d size) s Hs) as Hc. unfold sys in *.
    destruct (prog_query d size (kern s)) as [w [q|e]] eqn:E; cbn in *; [|done]. split; [done|].
    apply query_answer in E. rewrite (calm_now s Hs) in E. by destruct (errno q).
  - intros q. destruct (errno q) as [e|].
    + case_bool_decide; [eapply hoare_conseq; [apply IH| |done]; naive_solver|apply hoare_throw; naive_solver].
    + apply hoare_pure. intros [-> ->]. rewrite Nat2Z.id, firstn_all. apply programs_of_found.
Qed.

(** ** Replacing the filter *)

Context (insts : list insn).

(** The old filters are in force, or the new one is. *)
Definition guarded (v : W) : Prop :=
  (forall p, p ∈ A0 -> p ∈ attached v d) \/ (exists p, p ∈ attached v d /\ code v p = Some insts).
Definition always_guarded (s : st W) : Prop := forall v, v ∈ kern s :: past s -> guarded v.
Lemma calm_guarded (s : st W) : calm s -> always_guarded s.
Proof. intros Hs v Hv. left. by rewrite (Hs v Hv). Qed.

(** [prog] is attached with the new code, next to [rest]. *)
Definition installed (prog : Z) (rest : list Z) (s : st W) : Prop :=
  always_guarded s /\ code (kern s) prog = Some insts /\ prog ∈ attached (kern s) d /\ (forall q, q ∈ attached (kern s) d -> q = prog \/ q ∈ rest).

Lemma detach_installed (prog old : Z) (rest : list Z) :
  old <> prog -> hoare (installed prog rest) (detach_old d old)
    (fun r s => always_guarded s /\ match r with Ok _ => installed prog (filter (fun x => x <> old) rest) s | Err _ => True end).
Proof.
  intros Hne. apply hoare_wrapping, hoare_sys. intros s w r (Hg & Hc & Hp & Hq) E.
  assert (code w prog = Some insts) as Hcw by (pose proof (detach_code (Dir d) old (kern s) prog insts Hc) as Hx; by rewrite E in Hx).
  assert (prog ∈ attached w d) as Hpw.
  { destruct r as [[]|e]; [rewrite (detach_ok _ _ _ _ E); by apply list_elem_of_filter|by rewrite (detach_err _ _ _ _ _ E)]. }
  assert (always_guarded (mkSt w (kern s :: past s) (once s))) as Hg' by (intros v [->|Hv]%elem_of_cons; [right; by exists prog|by apply Hg]).
  split; [done|]. destruct r as [[]|e]; [|done]. split_and!; [done|done|done|]. cbn [kern]. rewrite (detach_ok _ _ _ _ E).
  intros q [Hqo Hqa]%list_elem_of_filter. apply Hq in Hqa as [->|Hr]; [by left|right]. by apply list_elem_of_filter.
Qed.
Lemma detach_all (prog : Z) (olds : list Z) :
  prog ∉ olds -> forall rest, hoare (installed prog rest) (for_each (detach_old d) olds)
    (fun r s => always_guarded s /\ match r with Ok _ => installed prog (filter (fun x => x ∉ olds) rest) s | Err _ => True end).
Proof.
  induction olds as [|o olds IH]; intros Hn rest; cbn [for_each].
  - apply hoare_ret. intros s Hs. split; [by destruct Hs|]. destruct Hs as (Hi1 & Hi2 & Hi3 & Hi4). split_and!; [done|done|done|].
    intros q Hq. apply Hi4 in Hq as [->|Hq]; [by left|right]. apply list_elem_of_filter. split; [apply not_elem_of_nil|done].
  - apply not_elem_of_cons in Hn as [Hno Hn].
    apply hoare_bind with (R := fun _ => installed prog (filter (fun x => x <> o) rest)).
    + eapply hoare_conseq; [by apply detach_installed|done|]. intros [[]|e] s; naive_solver.
    + intros _. eapply hoare_conseq; [by apply IH|done|]. intros [[]|e] s [Hg Hs]; [|done]. split; [done|].
      destruct Hs as (Hi1 & Hi2 & Hi3 & Hi4). split_and!; [done|done|done|]. intros q Hq. apply Hi4 in Hq as [->|Hq]; [by left|right].
      apply list_elem_of_filter in Hq as [Hq1 [Hq2 Hq3]%list_elem_of_filter]. apply list_elem_of_filter. split; [|done].
      by rewrite not_elem_of_cons.
Qed.

Lemma load_installs (license : string) :
  hoare calm (sys (NewProgram insts license))
    (fun r s => calm s /\ match r with Ok p => code (kern s) p = Some insts /\ p ∉ A0 | Err _ => True end).
Proof.
  intros s Hs. pose proof (calm_sys _ (load_quiet insts license) s Hs) as Hc. unfold sys in *.
  destruct (NewProgram insts license (kern s)) as [w [p|e]] eqn:E; cbn in *; [|done]. split; [done|].
  apply load_code in E as [Hi1 Hi2]. split; [done|]. rewrite <- (calm_now s Hs). apply Hi2.
Qed.
Lemma attach_installs (prog : Z) (replace : option Z) (flags : Z) :
  hoare (fun s => calm s /\ code (kern s) prog = Some insts) (sys (RawAttachProgram (Dir d) prog replace flags))
    (fun r s => always_guarded s /\ match r with Ok _ => installed prog (filter (fun x => Some x <> replace) A0) s | Err _ => True end).
Proof.
  apply hoare_sys. intros s w r [Hs Hc] E.
  assert (code w prog = Some insts) as Hcw by (pose proof (attach_code (Dir d) prog replace flags (kern s) prog insts Hc) as Hx; by rewrite E in Hx).
  destruct r as [[]|e].
  - apply attach_ok in E. rewrite (calm_now s Hs) in E.
    assert (prog ∈ attached w d /\ forall q, q ∈ attached w d -> q = prog \/ q ∈ filter (fun x => Some x <> replace) A0) as [Hp Hq].
    { destruct replace as [o|].
      - destruct E as [Ho ->]. unfold replaced. split.
        + apply list_elem_of_fmap. exists o. split; [by rewrite bool_decide_eq_true_2|done].
        + intros q (x & -> & Hx)%list_elem_of_fmap. case_bool_decide; [by left|right]. apply list_elem_of_filter. split; [congruence|done].
      - rewrite E. split; [set_solver|]. intros q [Hq|Hq]%elem_of_app; [right; by apply list_elem_of_filter|left; set_solver]. }
    assert (always_guarded (mkSt w (kern s :: past s) (once s))) as Hg
      by (intros v [->|Hv]%elem_of_cons; [right; by exists prog|by apply (calm_guarded s Hs)]).
    split; [done|]. by split_and!.
  - split; [|done]. intros v [->|Hv]%elem_of_cons; [|by apply (calm_guarded s Hs)]. left. cbn.
    rewrite (attach_err _ _ _ _ _ _ _ E). by rewrite (calm_now s Hs).
Qed.

Lemma replace_triple (license : string) (olds : list Z) :
  (forall p, p ∈ olds -> p ∈ A0) ->
  hoare calm (replace_filters insts license d olds)
    (fun r s => always_guarded s /\
       match r with
       | Ok prog => prog ∈ attached (kern s) d /\ code (kern s) prog = Some insts /\
                    forall q, q ∈ attached (kern s) d -> q = prog \/ q ∈ A0 /\ q ∉ olds
       | Err _ => True
       end).
Proof.
  intros Hsub. unfold replace_filters.
  apply hoare_bind with (R := fun _ => calm).
  { eapply hoare_conseq; [apply haveBpfProgReplace_calm|done|]. intros [b|e] s Hs; [done|]. split; [by apply calm_guarded|done]. }
  intros have. set (replace := match olds with [old] => if have then Some old else None | _ => None end).
  assert (match replace with Some o => olds = [o] | None => True end) as Hr by (unfold replace; destruct olds as [|o [|]], have; done).
  apply hoare_bind with (R := fun p s => (calm s /\ code (kern s) p = Some insts) /\ p ∉ A0).
  { eapply hoare_conseq; [apply (load_installs license)|done|]. intros [p|e] s; [naive_solver|]. intros [Hs _]. split; [by apply calm_guarded|done]. }
  intros prog. apply hoare_pure. intros Hn.
  apply hoare_bind with (R := fun _ => installed prog (filter (fun x => Some x <> replace) A0)).
  { apply hoare_wrapping. eapply hoare_conseq; [apply attach_installs|done|]. intros [[]|e] s; naive_solver. }
  intros _. apply hoare_bind with (R := fun _ => installed prog (filter (fun x => x ∉ olds) A0)).
  - destruct replace as [o|].
    + subst olds. apply hoare_ret. intros s (Hi1 & Hi2 & Hi3 & Hi4). split_and!; [done|done|done|]. intros q Hq. apply Hi4 in Hq as [->|[Hq1 Hq2]%list_elem_of_filter]; [by left|right].
      apply list_elem_of_filter. split; [|done]. rewrite list_elem_of_singleton. congruence.
    + assert (prog ∉ olds) as Hno by (intros Hx; by apply Hsub in Hx).
      eapply hoare_conseq; [apply (detach_all prog olds Hno)|done|]. intros [[]|e] s [Hg Hi]; [|done].
      destruct Hi as (Hi1 & Hi2 & Hi3 & Hi4). split_and!; [done|done|done|]. intros q Hq. apply Hi4 in Hq as [->|[Hq1 [_ Hq2]%list_elem_of_filter]%list_elem_of_filter]; [by left|right].
      by apply list_elem_of_filter.
  - intros _. apply hoare_ret. intros s (Hi1 & Hi2 & Hi3 & Hi4). split_and!; [done|done|done|]. intros q Hq.
    apply Hi4 in Hq as [->|[Hq1 Hq2]%list_elem_of_filter]; [by left|right]. done.
Qed.
Lemma lasting_replace_filters (F : st W -> Prop) (license : string) (olds : list Z) : lasting F -> inv F (replace_filters insts license d olds).
Proof.
  intros HF. unfold replace_filters. apply inv_bind; [by apply lasting_replace|intros have].
  apply inv_bind; [by apply lasting_sys|intros prog]. apply inv_bind; [by apply hoare_wrapping, lasting_sys|intros _].
  apply inv_bind; [|intros _; by apply hoare_ret]. case_match; [by apply hoare_ret|by apply lasting_detach].
Qed.
Lemma LoadAttach_triple (license : string) :
  hoare calm (LoadAttachCgroupDeviceFilter insts license d)
    (fun r s => always_guarded s /\
       match r with
       | Ok prog => prog ∈ attached (kern s) d /\ code (kern s) prog = Some insts /\
                    forall q, q ∈ attached (kern s) d -> q = prog \/ q ∈ A0 /\ forbidden s q
       | Err _ => True
       end).
Proof.
  unfold LoadAttachCgroupDeviceFilter.
  apply hoare_bind with (R := fun _ => calm); [apply hoare_try, calm_sys, Setrlimit_quiet|]. intros _.
  apply hoare_bind with (R := fun l s => calm s /\ (forall p, p ∈ l -> p ∈ A0) /\ found s A0 l).
  { eapply hoare_conseq; [apply find_programs_found|done|]. intros [l|e] s [Hs Hl]; [done|]. split; [by apply calm_guarded|done]. }
  intros olds. eapply hoare_conseq;
    [apply (hoare_frame (fun s => calm s /\ forall p, p ∈ olds -> p ∈ A0) (fun s => found s A0 olds) (replace_filters insts license d olds));
       [apply lasting_replace_filters, found_lasting|apply hoare_pure; apply replace_triple]|naive_solver|].
  intros [prog|e] s [[Hg Hr] Hf]; [|done]. destruct Hr as (Hi1 & Hi2 & Hi3). split_and!; [done|done|done|].
  intros q Hq. destruct (Hi3 q Hq) as [->|[Hq0 Hno]]; [by left|right]. split; [done|]. by destruct (Hf q Hq0).
Qed.
End laws.

(** ** Policies *)

(** What a program says about an access, and what a cgroup does: every program has to agree. *)
Definition permits (c : list insn) (x : dev_ctx) : Prop := exists z, evals c x 0 init_regs z /\ z <> 0.
Definition allows {W} `{BpfView W} (w : W) (d : Z) (x : dev_ctx) : Prop :=
  forall p c, p ∈ attached w d -> code w p = Some c -> permits c x.

Section policies.
Context {W : Type} `{BpfLaws W}.

(** The code of the programs that are loaded now stays what it is. *)
Definition keeps_code (w0 : W) (s : st W) : Prop := forall v p c, v ∈ kern s :: past s -> code w0 p = Some c -> code v p = Some c.
Lemma keeps_code_sys {A} (w0 : W) (c : Act W A) : stable_code c -> inv (keeps_code w0) (sys c).
Proof.
  intros Hc. apply hoare_sys. intros s w r Hs E v p k [->|Hv]%elem_of_cons Hp; [|by apply (Hs v p k)].
  specialize (Hc (kern s) p k). rewrite E in Hc. apply Hc. apply (Hs (kern s)); [left|done].
Qed.
Lemma quiet_code {A} (c : Act W A) : quiet c -> stable_code c.
Proof. by intros []. Qed.

Ltac solve_inv :=
  repeat first
    [ apply hoare_ret; done | apply hoare_throw; done | apply hoare_try | apply hoare_wrapping
    | apply inv_bind; [|intros ?] | apply keeps_code_sys
    | apply attach_code | apply detach_code | apply quiet_code
    | apply Setrlimit_quiet | apply query_quiet | apply from_id_quiet | apply load_quiet | apply close_quiet | apply null_quiet | apply close_null_quiet ].
Lemma programs_of_code (w0 : W) (ids : list Z) : inv (keeps_code w0) (programs_of ids).
Proof. induction ids as [|i ids IH]; cbn [programs_of]; solve_inv. destruct a as [p|e]; [solve_inv; exact IH|]. destruct (is_permission e); [exact IH|solve_inv]. Qed.
Lemma find_programs_code (w0 : W) (d : Z) (n : nat) : forall size, inv (keeps_code w0) (find_programs n d size).
Proof.
  induction n as [|n IH]; intros size; cbn [find_programs]; [solve_inv|]. destruct (size <=? 0); solve_inv.
  destruct (errno a) as [e|]; [case_bool_decide; [apply IH|solve_inv]|apply programs_of_code].
Qed.
Lemma haveBpfProgReplace_code (w0 : W) : inv (keeps_code w0) haveBpfProgReplace.
Proof.
  unfold haveBpfProgReplace. apply inv_bind; [by intros s|]. intros [b|]; [by apply hoare_ret|].
  apply inv_bind; [|intros b; apply inv_bind; [by intros s|intros _; by apply hoare_ret]].
  unfold probe_replace. solve_inv. destruct a as [prog|e]; solve_inv. destruct a as [n|e]; solve_inv.
Qed.
Lemma LoadAttach_code (w0 : W) (insts : list insn) (license : string) (d : Z) : inv (keeps_code w0) (LoadAttachCgroupDeviceFilter insts license d).
Proof.
  unfold LoadAttachCgroupDeviceFilter, findAttachedCgroupDeviceFilters, replace_filters.
  apply inv_bind; [solve_inv|intros _]. apply inv_bind; [apply find_programs_code|intros olds].
  apply inv_bind; [apply haveBpfProgReplace_code|intros have]. apply inv_bind; [solve_inv|intros prog].
  apply inv_bind; [solve_inv|intros _]. apply inv_bind; [|intros _; solve_inv].
  case_match; [solve_inv|]. match goal with Hm : _ = None |- _ => clear Hm end. induction olds as [|o olds IH]; cbn [for_each]; solve_inv. exact IH.
Qed.

(** C36. Replacing the device filter of a cgroup never opens it, not even between two calls and
    whatever fails: in every state that the kernel goes through, an access that is allowed was
    allowed before or is allowed by the new filter.  When it succeeds the new filter is attached, and no
    other program but those that the runtime was not permitted to look at during this run. *)
Theorem filter_never_open (insts : list insn) (license : string) (d : Z) (s s' : st W) (r : result Z) :
  past s = [] -> LoadAttachCgroupDeviceFilter insts license d s = (s', r) ->
  (forall v x, v ∈ kern s' :: past s' -> allows v d x -> allows (kern s) d x \/ permits insts x) /\
  (forall prog, r = Ok prog -> prog ∈ attached (kern s') d /\ code (kern s') prog = Some insts /\
     forall q, q ∈ attached (kern s') d -> q = prog \/ q ∈ attached (kern s) d /\ forbidden s' q).
Proof.
  intros Hp E.
  assert (calm d (attached (kern s) d) s) as Hcalm by (intros v; rewrite Hp; by intros ->%list_elem_of_singleton).
  assert (keeps_code (kern s) s) as Hcode by (intros v p c; rewrite Hp; by intros ->%list_elem_of_singleton).
  pose proof (LoadAttach_triple d (attached (kern s) d) insts license s Hcalm) as Hg.
  pose proof (LoadAttach_code (kern s) insts license d s Hcode) as Hc. rewrite E in Hg, Hc. cbn [fst snd] in *. destruct Hg as [Hg Hok]. split.
  - intros v x Hv Hall. destruct (Hg v Hv) as [Hold|(p & Hpa & Hpc)]; [left|right; by apply (Hall p)].
    intros p c Hpa Hpc. apply (Hall p); [by apply Hold|]. by apply (Hc v p c Hv).
  - intros prog ->. exact Hok.
Qed.
End policies.

(** ** A small kernel *)

Record toy_bpf := mkToyBpf { t_attached : list Z; t_code : list (Z * list insn); t_hidden : list Z }.
Definition toy_dir : Z := 7.
Definition toy_top (k : toy_bpf) : Z := foldr Z.max 0 (t_attached k ++ map fst (t_code k)).
Fixpoint toy_lookup (p : Z) (l : list (Z * list insn)) : option (list insn) :=
  match l with [] => None | (q, c) :: l => if p =? q then Some c else toy_lookup p l end.
Definition toy_ids (k : toy_bpf) (d : Z) : list Z := if d =? toy_dir then t_attached k else [].
Definition toy_attach (t : target) (p : Z) (r : option Z) (k : toy_bpf) : toy_bpf * result unit :=
  match t with
  | DevNull _ => (k, Err (ErrNew "bad file descriptor"))
  | Dir d =>
      if negb (d =? toy_dir) then (k, Err EINVAL) else
      match r with
      | None => (mkToyBpf (t_attached k ++ [p]) (t_code k) (t_hidden k), Ok tt)
      | Some q => if bool_decide (q ∈ t_attached k) then (mkToyBpf (replaced q p (t_attached k)) (t_code k) (t_hidden k), Ok tt) else (k, Err EINVAL)
      end
  end.
#[global] Instance toy_Bpf : Bpf toy_bpf := {|
  Setrlimit := fun k => (k, Err EPERM);
  prog_query := fun d n k => (k, Ok (let ids := toy_ids k d in
    if Z.of_nat (length ids) <=? n then mkAnswer ids (Z.of_nat (length ids)) None else mkAnswer [] (Z.of_nat (length ids)) (Some ENOSPC)));
  NewProgramFromID := fun i k => (k, if bool_decide (i ∈ t_hidden k) then Err EPERM else Ok i);
  NewProgram := fun c _ k => let p := toy_top k + 1 in (mkToyBpf (t_attached k) ((p, c) :: t_code k) (t_hidden k), Ok p);
  CloseProgram := fun _ k => (k, Ok tt);
  Open_devnull := fun k => (k, Ok 9);
  Close_devnull := fun _ k => (k, Ok tt);
  RawAttachProgram := fun t p r _ k => toy_attach t p r k;
  RawDetachProgram := fun t p k =>
    match t with
    | Dir d => if d =? toy_dir then (mkToyBpf (filter (fun x => x <> p) (t_attached k)) (t_code k) (t_hidden k), Ok tt) else (k, Err EINVAL)
    | DevNull _ => (k, Err EINVAL)
    end |}.
#[global] Instance toy_view : BpfView toy_bpf := {| attached := toy_ids; code := fun k p => toy_lookup p (t_code k) |}.

Lemma foldr_max_ge (l : list Z) (x : Z) : x ∈ l -> x <= foldr Z.max 0 l.
Proof. induction l as [|y l IH]; [by intros ?%elem_of_nil|]. intros [->|Hx]%elem_of_cons; cbn; [lia|]. specialize (IH Hx). lia. Qed.
Lemma toy_lookup_key (p : Z) (l : list (Z * list insn)) (c : list insn) : toy_lookup p l = Some c -> p ∈ map fst l.
Proof. induction l as [|[q k] l IH]; cbn; [done|]. destruct (Z.eqb_spec p q) as [->|]; [left|]. intros Hl. right. by apply IH. Qed.
#[global] Instance toy_laws : BpfLaws toy_bpf.
Proof.
  assert (forall A (m : Act toy_bpf A), (forall k, (m k).1 = k) -> quiet m) as Hsame by (intros A m Hm; split; [intros w d|intros w p c]; by rewrite Hm).
  assert (forall t p r k, t_code (toy_attach t p r k).1 = t_code k) as Hcode by (intros [d|d] p r k; cbn; [|done]; repeat case_match; done).
  split; try (intros; apply Hsame; done).
  - intros d n w w' q [= <- <-]. cbn. destruct (Z.leb_spec (Z.of_nat (length (toy_ids w d))) n); cbn; [done|]. intros _. lia.
  - intros i w w' p. cbn. case_match; naive_solver.
  - intros c l. split; [done|]. intros w p k Hk. cbn in *. destruct (Z.eqb_spec p (toy_top w + 1)) as [->|]; [|done].
    apply toy_lookup_key in Hk. assert (toy_top w + 1 <= toy_top w); [|lia]. unfold toy_top at 2. apply foldr_max_ge, elem_of_app. by right.
  - intros c l w w' p [= <- <-]. cbn. rewrite Z.eqb_refl. split; [done|]. intros d. unfold toy_ids. case_match; [|apply not_elem_of_nil].
    intros Hx. assert (toy_top w + 1 <= toy_top w); [|lia]. unfold toy_top at 2. apply foldr_max_ge, elem_of_app. by left.
  - intros t p r f w q c Hq. cbn in *. by rewrite Hcode.
  - intros d p r f w w'. cbn. unfold toy_ids. destruct (d =? toy_dir) eqn:Ed; cbn; [|done].
    destruct r as [q|]; [case_bool_decide; [|done]|]; intros [= <-]; done.
  - intros d p r f w w' e. cbn. unfold toy_ids. destruct (d =? toy_dir) eqn:Ed; cbn; [|by intros [= <- _]].
    destruct r as [q|]; [case_bool_decide; [done|]|done]. by intros [= <- _].
  - intros t p w q c Hq. cbn in *. destruct t as [d|d]; [|done]. by destruct (d =? toy_dir).
  - intros d p w w'. cbn. unfold toy_ids. destruct (d =? toy_dir) eqn:Ed; [|done]. intros [= <-]. done.
  - intros d p w w' e. cbn. destruct (d =? toy_dir); [done|]. by intros [= <- _].
Qed.

Definition toy_start : st toy_bpf := mkSt (mkToyBpf [1; 2; 3] [(1, dummy_filter)] [2]) [] None.
Lemma filter_never_open_witness :
  let r := LoadAttachCgroupDeviceFilter dummy_filter "MIT" toy_dir toy_start in
  attached (kern r.1) toy_dir = [2; 5] /\
  forall v x, v ∈ kern r.1 :: past r.1 -> allows v toy_dir x -> allows (kern toy_start) toy_dir x \/ permits dummy_filter x.
Proof.
  split; [vm_compute; reflexivity|].
  refine (proj1 (filter_never_open dummy_filter "MIT" toy_dir toy_start (LoadAttachCgroupDeviceFilter dummy_filter "MIT" toy_dir toy_start).1
    (LoadAttachCgroupDeviceFilter dummy_filter "MIT" toy_dir toy_start).2 _ _)).
  - reflexivity.
  - vm_compute. reflexivity.
Defined.
